(* ===== verification/_CoqProject ===== *)
-Q . S2P
Prelude.v
Effects.v
Conditions.v
Meta.v
CoreTypes.v
ApiTypes.v
Lifecycle.v
Propagation.v
ClientUtil.v
WebhookUtil.v
TeamRBAC.v
Authz.v
OciMirror.v
PluginTypes.v
PluginDefinitions.v
OptionTypes.v
HelmValues.v
PluginWebhook.v
PluginPreset.v
KubeConfig.v
AccessWebhook.v
Base64.v
Artifactory.v
OrgAccess.v
ClusterController.v
ClusterSafety.v
ClusterProvision.v
ClusterBootstrap.v
ServiceProxy.v
Tracking.v
HelmRelease.v
FluxObjects.v
DefinitionController.v
DefinitionSafety.v
ExposedServices.v
Catalog.v
CatalogSource.v
CatalogController.v
CatalogSafety.v
PluginController.v
PluginSafety.v
Organization.v
IdentityProvider.v
Scim.v
OrgResources.v
OrgDex.v
OrgController.v
OrgSafety.v
OrgIsolation.v
TeamController.v
ClusterKubeconfig.v
ClusterCli.v
Startup.v
Cel.v
HelmRender.v
PluginCli.v
RestGetter.v
Watches.v
