(* ===== verification/Prelude.v ===== *)
(** * Greenhouse: a verification development

    Greenhouse is a control plane for fleets of Kubernetes clusters.  Its program is a set
    of controllers, admission webhooks and HTTP services around one Kubernetes API server
    whose resources hold all state: an Organization is a tenant and owns a namespace;
    Clusters are remote Kubernetes clusters reached with the kubeconfig of a Secret; Teams
    group users and own resources; TeamRoles and TeamRoleBindings give Teams access to
    Clusters; plugin definitions describe Helm charts; a Plugin installs one on a Cluster
    through Flux; a PluginPreset keeps one Plugin per selected Cluster.

    ** How the code is modelled

    A handler is a term of [Effects.prog]: a finite tree of calls to code that is not the
    handler's - the API server, a remote cluster, an HTTP endpoint, a library that acts -
    with pure computation between them.  Every component declares its calls as an
    inductive family [...E], indexed by the type of the answer.  The same term is read in
    four ways:
    - [wp]: what holds whatever is answered (or, with an environment, whatever that
      environment may answer), about the result, the world or the trace of the calls;
    - [run] and [exec]: executions against a handler, or as a relation;
    - [eval]: the value against fixed answers, for handlers that only read;
    - [safe] and [all_calls]: which calls can be reached, as for the call that stands for
      the dereference of a nil pointer ([HPanic], [SPanic], ...).
    Pure code is a Gallina function.  A Go error is [Prelude.error], its text and the API
    status reason; a fallible function returns [result]; one that can also dereference a
    nil pointer returns [outcome].  The clock is an argument [now].  A Go map that is only
    looked up is a [gmap]; where the code ranges over a map and the order can show, the
    order is a parameter, and the theorems assume at most that it permutes the entries.
    Objects are records; [Meta.Object] is the interface [client.Object] with its laws and
    [Meta.RuntimeObject] the one of the lifecycle package.

    ** The files

    Foundations: [Prelude] (errors, results, Go's strings and slices, automation),
    [Effects] (programs and their logic), [Conditions] (api/meta/v1alpha1), [Meta] and
    [ApiTypes] (api, api/v1alpha1, api/v1alpha2: metadata, Team, TeamRole, Cluster,
    TeamRoleBinding), [ClientUtil] (internal/clientutil, internal/util/conditions.go),
    [KubeConfig] (the kubeconfig of a cluster Secret).

    [Lifecycle] and [Propagation] (pkg/lifecycle): the reconciliation pass all controllers
    share, as a state machine over finalizer, deletion mark and the callbacks of a
    controller; and the copying of labels and annotations between objects.  The controllers
    of the other files are instances of [Lifecycle.Reconciler].

    Access: [TeamRBAC] (internal/controller/teamrbac), [Authz] (cmd/authz), [Scim]
    (internal/scim), [TeamController] (internal/controller/team), [IdentityProvider]
    (internal/dex/connector.go: the groups of a login).

    Tenants: [Organization] (resource and webhook), [OrgAccess] (internal/rbac), and the
    controller in internal/controller/organization: [OrgResources] (objects of the cluster),
    [OrgDex] (registrations in Dex), [OrgController] (service proxy, the two passes,
    status, watches), [OrgSafety] (its guarantees), [OrgIsolation] (its roles and
    bindings put together with the logins of [IdentityProvider]).  [Base64] is
    encoding/base64.

    Clusters: [CoreTypes] (objects of Kubernetes that are written), [ClusterController]
    (internal/controller/cluster: what Greenhouse keeps on a remote cluster, its token and
    the status), [ClusterSafety] (status, tokens, deletion), [ClusterProvision]
    (refinement of a specification over stores), [ClusterBootstrap] (from a Secret to a
    Cluster), [ClusterKubeconfig] (the kubeconfig users download), [ClusterCli]
    (internal/cmd/cluster_bootstrap.go: the command that registers a cluster),
    [RestGetter] (internal/clientutil/client_getter.go: clients and what they keep).

    Plugins: [PluginTypes], [PluginDefinitions], [OptionTypes] (api/v1alpha1),
    [HelmValues] (internal/helm), [PluginPreset], [Tracking], [PluginController],
    [PluginSafety] (internal/controller/plugin), [HelmRelease] (internal/flux),
    [ExposedServices] (internal/helm/manifest.go and the status of a Plugin),
    [OciMirror] (internal/ocimirror), [ServiceProxy] (cmd/service-proxy), [HelmRender]
    (internal/helm: charts, nested values, installations and dry runs), [Cel] (pkg/cel),
    [PluginCli] (internal/cmd: the plugin commands of greenhousectl).

    Catalogs and definitions, over the objects of Flux in [FluxObjects]: [Catalog]
    (resource, names, inventory), [CatalogSource] (the objects of a source),
    [CatalogController] and [CatalogSafety] (internal/controller/catalog), [Artifactory]
    (internal/flux/artifact.go: the cache of downloads), [DefinitionController] and
    [DefinitionSafety] (internal/controller/plugindefinition).

    Admission: [WebhookUtil], [PluginWebhook], [AccessWebhook] (internal/webhook).

    Processes: [Startup] (cmd/greenhouse, internal/features, internal/dex/storage.go: modes,
    feature flags and what a start registers), [Watches] (internal/clientutil/predicates.go:
    which changes wake a controller).

    ** What the theorems show

    - The lifecycle: no object is released before its clean-up succeeded, over any number
      of passes with any answers; which callbacks a pass runs, in which order.
    - Conditions: SetConditions as an update of a map from types to conditions.
    - Conditions and stored objects: a second [CreateOrPatch] with a mutation that has settled
      only reads.
    - Access: a binding written on a cluster is justified by what was read, deletion leaves
      none behind, the status of a TeamRoleBinding tells per cluster what happened; the
      authorization decision; members of a Team come from a complete read; against a server
      that pages as SCIM says, pagination returns every resource in order, and it ends
      exactly when the pages do.
    - Tenants: over any passes of any Organizations what a login may do stays within its
      Organization (for the names and admissions [OrgIsolation] states); the groups of a login
      equal a reference; what a creation provides in the cluster and in Dex, when an
      Organization is Ready, what its deletion removes; the credentials of its service
      proxy and the redirects in Dex survive what other Organizations do; what its roles
      grant at most.
    - Plugins: merging of option values, which values Greenhouse alone decides, a preset
      touches its own Plugins only and covers every selected Cluster, the HelmRelease is
      what the Plugin asks for, deletion waits for Flux, readiness is justified, trackers
      change as sets although others write concurrently; exposed services are reachable
      through the proxy; images are rewritten and replicated as the mirrors say.
    - Admission: what each webhook accepts, and what that keeps true of stored objects over
      any sequence of submissions; definitions and roles in use are kept.
    - Clusters: a creating pass refines a relation on the stored objects, call by call;
      the status agrees with what was read; which tokens a pass asks for and for how
      many seconds; a Cluster is released only without Plugins and without the remote binding;
      an admitted Secret cannot crash the bootstrap and settles after one pass; a stored
      ClusterKubeconfig that says Ready is complete; the bootstrap command changes nothing
      without permission and registers a cluster once; a persistent getter makes each of
      its clients once.
    - Catalogs and definitions: what a creating pass stores and when it is Ready; which
      objects it may touch; the clean-up of an inventory; a saved artifact is what is read
      while nothing else is pruned or written at its path; a definition is Ready only with its
      chart, and how one unreadable mirror configuration keeps a replicated one from Ready.
    - Values and charts: placeholders are filled as by one simultaneous substitution as long
      as no text and no value has a dollar sign; merged
      values are path by path the second over the first; what an installation or dry run
      changes on the cluster; what the plugin commands accept and generate.
    - Processes: a manager runs exactly the controllers and webhooks its mode and flags
      select, with the parameters the ConfigMap gives.
    Each property has a claim number in its doc comment; where it has hypotheses, a lemma
    named after it with [_witness] applies it at a concrete input, in a Module [...Run].

    ** Assumptions

    Code outside the repository is a parameter: a class of functions with the laws that are
    documented ([Lifecycle.ControllerUtil], [HelmValues.SortByNameLaws] for [sort.Slice],
    which is not stable, [Propagation]'s codec for encoding/json, [Authz], [OciMirror],
    [PluginWebhook.HookLibs], [AccessWebhook.AccessLibs]...), or an answer of a call, about
    which nothing is assumed.  Theorems about the stored state use a world of objects with
    honest answers ([ClientUtil.kube_step] for one kind; [PluginPreset.plugin_step] and
    [ClusterKubeconfig.ck_step] where the kind has a status subresource or finalizers), those about [Tracking] a world with other
    writers and resource versions.  A nil and an empty map or slice are one value except
    where the code tells them apart.

    ** Fuel

    [trim_space], [ReplaceAll] and [ServiceProxy.strip_api_proxy] recurse on the length of
    the string, which every step shortens.  [Scim.fetch_pages] takes fuel and calls [SLoop]
    without it; the termination theorem says how much is enough.  [Cel.find_placeholders]
    and [replace_all] take the length of the text, enough by the lemmas on templates.  Retries on conflict take
    the number of attempts of client-go's default.

    ** Not modelled

    Logs, metrics, events of recorders and traces; the quotation marks of [%q] in messages.
    cmd/idproxy's server and cmd/cors-proxy forward requests to Dex and net/http; the tools
    of internal/local run kind, docker and helm; the registration of a controller's watches
    is controller-runtime's, apart from the filters of [Watches].  Helm's actions, Flux,
    client-go, cel-go, go-containerregistry and Dex are parameters or calls.  The
    controllers take expression evaluation and Helm's rendering as parameters or calls of
    their own: [Cel] and [HelmRender] model the code behind them.  Generated code, tests and
    mocks hold no logic of the program. *)
From Stdlib Require Import Ascii.
From stdpp Require Export base list gmap strings fin_maps.
#[export] Set Warnings "-clear-no-such-hyp,-level-tolerance".

(** ** Notations *)
Declare Scope go_scope.
Delimit Scope go_scope with go.
Open Scope go_scope.
(** [+:+] is Go's [+] on strings; it computes on literals. *)
#[global] Arguments String.append !s1 s2 /.
#[global] Arguments String.eqb : simpl never.

(** ** Errors and results

    A Go [error] is its message together with the API status reason that
    [apierrors.ReasonForError] finds in its chain ([%w] keeps the reason). *)
Inductive status_reason :=
| NotFound | AlreadyExists | Conflict | Forbidden | Unauthorized | Invalid | OtherReason.

#[export] Instance status_reason_eq_dec : EqDecision status_reason.
Proof. solve_decision. Defined.

Record error := mk_error { err_reason : status_reason; err_msg : string }.

#[export] Instance error_eq_dec : EqDecision error.
Proof. solve_decision. Defined.

Inductive result (A : Type) := Ok (a : A) | Err (e : error).
Arguments Ok {A} a.
Arguments Err {A} e.

#[export] Instance result_mret : MRet result := fun A a => Ok a.
#[export] Instance result_mbind : MBind result := fun A B f r =>
  match r with Ok a => f a | Err e => Err e end.

(** A computation that may also hit a Go run-time panic. *)
Inductive outcome (A : Type) := Returns (a : A) | Panics.
Arguments Returns {A} a.
Arguments Panics {A}.

#[export] Instance outcome_mret : MRet outcome := fun A a => Returns a.
#[export] Instance outcome_mbind : MBind outcome := fun A B f r =>
  match r with Returns a => f a | Panics => Panics end.

(** [errors.New], [fmt.Errorf] with [%w] and [fmt.Errorf] with [%s]. *)
Definition new_error (msg : string) : error := mk_error OtherReason msg.
Definition wrap_error (pre : string) (e : error) : error :=
  mk_error (err_reason e) (pre +:+ err_msg e).

Definition is_not_found (e : option error) : bool :=
  match e with Some e => bool_decide (err_reason e = NotFound) | None => false end.
Definition is_already_exists (e : option error) : bool :=
  match e with Some e => bool_decide (err_reason e = AlreadyExists) | None => false end.
Definition is_forbidden (e : option error) : bool :=
  match e with Some e => bool_decide (err_reason e = Forbidden) | None => false end.
Definition is_unauthorized (e : option error) : bool :=
  match e with Some e => bool_decide (err_reason e = Unauthorized) | None => false end.
(** controller-runtime's [client.IgnoreNotFound] *)
Definition ignore_not_found (e : option error) : option error :=
  if is_not_found e then None else e.

(** ** Strings: the functions of package [strings] the code uses

    A Go string is a sequence of bytes, as [string] is. *)
Definition has_prefix (s p : string) : bool := String.prefix p s.

Fixpoint cut_prefix (s p : string) : option string :=
  match p, s with
  | EmptyString, _ => Some s
  | String a p', String b s' => if Ascii.eqb a b then cut_prefix s' p' else None
  | String _ _, EmptyString => None
  end.

Fixpoint cut_suffix (s suf : string) : option string :=
  if String.eqb s suf then Some ""
  else match s with
       | EmptyString => None
       | String a s' => String a <$> cut_suffix s' suf
       end.

(** [strings.TrimSuffix] *)
Definition trim_suffix (s suf : string) : string := default s (cut_suffix s suf).

(** [strings.Contains] *)
Fixpoint contains (s sub : string) : bool :=
  String.prefix sub s ||
  match s with EmptyString => false | String _ s' => contains s' sub end.

Fixpoint char_in (c : ascii) (s : string) : bool :=
  match s with
  | EmptyString => false
  | String a s' => Ascii.eqb a c || char_in c s'
  end.

(** [strings.Split] for a separator of one byte: never the empty list. *)
Fixpoint split (c : ascii) (s : string) : list string :=
  match s with
  | EmptyString => [""]
  | String a s' =>
      if Ascii.eqb a c then "" :: split c s'
      else match split c s' with
           | [] => [String a ""]
           | x :: xs => String a x :: xs
           end
  end.

(** [strings.Join] *)
Definition join (sep : string) (l : list string) : string := String.concat sep l.

(** The UTF-8 encodings of the code points of [unicode.IsSpace]. *)
Definition byte_str (l : list nat) : string :=
  String.string_of_list_ascii (ascii_of_nat <$> l).
Definition space_runes : list string :=
  byte_str <$>
  ([[9]; [10]; [11]; [12]; [13]; [32]; [194; 133]; [194; 160]; [225; 154; 128]] ++
   ((fun b => [226; 128; b]) <$> [128; 129; 130; 131; 132; 133; 134; 135; 136; 137; 138; 168; 169; 175]) ++
   [[226; 129; 159]; [227; 128; 128]])%list%nat.

Definition first_some {A B} (f : A -> option B) (l : list A) : option B :=
  foldr (fun a r => match f a with Some b => Some b | None => r end) None l.

Fixpoint trim_left_fuel (fuel : nat) (s : string) : string :=
  match fuel with
  | O => s
  | S n => match first_some (cut_prefix s) space_runes with
           | Some s' => trim_left_fuel n s'
           | None => s
           end
  end.
Fixpoint trim_right_fuel (fuel : nat) (s : string) : string :=
  match fuel with
  | O => s
  | S n => match first_some (cut_suffix s) space_runes with
           | Some s' => trim_right_fuel n s'
           | None => s
           end
  end.
(** [strings.TrimSpace]; every step drops at least one byte, so the length of
    the string is enough fuel. *)
Definition trim_space (s : string) : string :=
  let s' := trim_left_fuel (String.length s) s in
  trim_right_fuel (String.length s') s'.

(** [strings.ReplaceAll] for a non-empty [old]. *)
Fixpoint replace_all (fuel : nat) (old new s : string) : string :=
  match fuel, s with
  | O, _ => s
  | _, EmptyString => ""
  | S fuel, String a s' =>
      match cut_prefix s old with
      | Some rest => new +:+ replace_all fuel old new rest
      | None => String a (replace_all fuel old new s')
      end
  end.
Definition ReplaceAll (s old new : string) : string := replace_all (String.length s) old new s.

(** ** Slices: the functions of package [slices] the code uses *)
Definition slices_contains `{EqDecision A} (l : list A) (a : A) : bool :=
  bool_decide (a ∈ l).
Definition contains_func {A} (l : list A) (f : A -> bool) : bool := existsb f l.
Fixpoint index_func {A} (l : list A) (f : A -> bool) : option nat :=
  match l with
  | [] => None
  | a :: l' => if f a then Some 0 else S <$> index_func l' f
  end.
(** [slices.DeleteFunc] as a function of the values it keeps. *)
Definition delete_func {A} (f : A -> bool) (l : list A) : list A :=
  List.filter (fun a => negb (f a)) l.

(** ** Lemmas *)
Lemma append_nil_r s : s +:+ "" = s.
Proof. induction s as [|a s IH]; simpl; congruence. Qed.

Lemma append_assoc s1 s2 s3 : (s1 +:+ s2) +:+ s3 = s1 +:+ s2 +:+ s3.
Proof. induction s1 as [|a s1 IH]; simpl; congruence. Qed.

Lemma append_inj_l s t1 t2 : s +:+ t1 = s +:+ t2 -> t1 = t2.
Proof. induction s as [|a s IH]; simpl; [done|]. intros [= H]. eauto. Qed.

Lemma length_append s t : String.length (s +:+ t) = String.length s + String.length t.
Proof. induction s as [|a s IH]; simpl; congruence. Qed.

Lemma append_inj_r s1 s2 t : s1 +:+ t = s2 +:+ t -> s1 = s2.
Proof.
  revert s2. induction s1 as [|a s1 IH]; intros [|b s2]; simpl; [done| | |].
  - intros H%(f_equal String.length). simpl in H; rewrite length_append in H. lia.
  - intros H%(f_equal String.length). simpl in H; rewrite length_append in H. lia.
  - intros [= -> H]. f_equal. eauto.
Qed.

Lemma cut_prefix_Some s p r : cut_prefix s p = Some r <-> s = p +:+ r.
Proof.
  revert s. induction p as [|a p IH]; intros s; simpl.
  - destruct s; naive_solver.
  - destruct s as [|b s]; simpl; [done|].
    destruct (Ascii.eqb_spec a b) as [->|Hne]; [rewrite IH|]; naive_solver.
Qed.

Lemma cut_prefix_app p r : cut_prefix (p +:+ r) p = Some r.
Proof. by apply cut_prefix_Some. Qed.

Lemma cut_suffix_Some s suf r : cut_suffix s suf = Some r <-> s = r +:+ suf.
Proof.
  assert (forall s r, cut_suffix s suf = Some r -> s = r +:+ suf) as Hdir.
  { clear s r. induction s as [|a s IH]; intros r; simpl.
    - destruct suf; simpl; naive_solver.
    - destruct (String.eqb_spec (String a s) suf) as [<-|]; [naive_solver|].
      intros (x & Hx & ->)%fmap_Some. simpl; by rewrite <-(IH _ Hx). }
  split; [apply Hdir|]. intros ->.
  induction r as [|a r IH]; simpl.
  - destruct suf; simpl; [done|]. by rewrite String.eqb_refl.
  - destruct (String.eqb_spec (String a (r +:+ suf)) suf) as [H|].
    + exfalso. apply (f_equal String.length) in H. simpl in H; rewrite length_append in H. lia.
    + by rewrite IH.
Qed.

Lemma has_prefix_app p r : has_prefix (p +:+ r) p = true.
Proof.
  unfold has_prefix. induction p as [|a p IH]; simpl; [by destruct r|].
  destruct (ascii_dec a a); [done|congruence].
Qed.

Lemma has_prefix_true s p : has_prefix s p = true <-> exists r, s = p +:+ r.
Proof.
  split; [|intros [r ->]; apply has_prefix_app].
  unfold has_prefix. revert s. induction p as [|a p IH]; intros s; [eauto|].
  destruct s as [|b s]; [done|]. simpl. destruct (ascii_dec a b) as [->|]; [|done].
  intros (r & ->)%IH. eauto.
Qed.

Lemma char_in_app c s t : char_in c (s +:+ t) = char_in c s || char_in c t.
Proof. induction s as [|a s IH]; cbn; [done|]. by rewrite IH, orb_assoc. Qed.

Lemma split_not_nil c s : split c s <> [].
Proof. destruct s; simpl; [done|]. destruct (Ascii.eqb _ _); [done|]. by destruct (split _ _). Qed.

Lemma split_no_sep c s : char_in c s = false -> split c s = [s].
Proof.
  induction s as [|a s IH]; simpl; [done|].
  intros [-> H]%orb_false_elim. by rewrite (IH H).
Qed.

Lemma split_app c s t :
  char_in c s = false -> split c (s +:+ String c t) = s :: split c t.
Proof.
  induction s as [|a s IH]; simpl.
  - by rewrite Ascii.eqb_refl.
  - intros [-> H]%orb_false_elim. by rewrite (IH H).
Qed.

(** [strings.Split] undoes [strings.Join] when no piece holds the separator. *)
Lemma split_join c l :
  l <> [] -> Forall (fun s => char_in c s = false) l ->
  split c (join (String c "") l) = l.
Proof.
  unfold join. intros Hne Hl. induction Hl as [|s l Hs Hl IH]; [done|].
  destruct l as [|s' l]; [by apply split_no_sep|].
  change (String.concat (String c "") (s :: s' :: l))
    with (s +:+ String c (String.concat (String c "") (s' :: l))).
  rewrite split_app by done. f_equal. by apply IH.
Qed.

Lemma join_split c s : join (String c "") (split c s) = s.
Proof.
  unfold join. induction s as [|a s IH]; simpl; [done|].
  pose proof (split_not_nil c s) as Hne.
  destruct (Ascii.eqb_spec a c) as [->|]; destruct (split c s) as [|x xs]; simpl in *; try done.
  - by rewrite IH.
  - destruct xs; simpl in *; congruence.
Qed.

Lemma elem_of_split_no_sep c s x : x ∈ split c s -> char_in c x = false.
Proof.
  revert x. induction s as [|a s IH]; simpl; intros x.
  - by intros ->%list_elem_of_singleton.
  - destruct (Ascii.eqb_spec a c) as [->|Hne].
    + intros [->|H]%elem_of_cons; auto.
    + pose proof (split_not_nil c s). destruct (split c s) as [|y ys]; [done|].
      intros [->|H']%elem_of_cons; simpl.
      * rewrite (IH y), orb_false_r by set_solver. by apply Ascii.eqb_neq.
      * apply IH. set_solver.
Qed.

Lemma delete_func_elem {A} (f : A -> bool) l a :
  a ∈ delete_func f l <-> a ∈ l /\ f a = false.
Proof.
  unfold delete_func. rewrite !list_elem_of_In, filter_In.
  destruct (f a); naive_solver.
Qed.

Lemma contains_func_true {A} (l : list A) f :
  contains_func l f = true <-> exists a, a ∈ l /\ f a = true.
Proof.
  unfold contains_func. rewrite existsb_exists. by setoid_rewrite list_elem_of_In.
Qed.

Lemma slices_contains_true `{EqDecision A} (l : list A) a :
  slices_contains l a = true <-> a ∈ l.
Proof. apply bool_decide_eq_true. Qed.

(** ** Automation *)
Create HintDb greenhouse discriminated.
#[export] Hint Resolve split_not_nil has_prefix_app : greenhouse.
Create Rewrite HintDb gostr.
#[export] Hint Rewrite append_nil_r append_assoc cut_prefix_app length_append : gostr.

(** Splits the boolean test of the first [if] of the goal. *)
Ltac case_if :=
  match goal with
  | |- context [if ?b then _ else _] =>
      lazymatch type of b with bool => destruct b eqn:? end
  end.
(** Splits a [match] of the goal or of a hypothesis on the option, result or
    sum it inspects. *)
Ltac case_some :=
  match goal with
  | |- context [match ?x with Some _ => _ | None => _ end] => destruct x eqn:?
  | |- context [match ?x with Ok _ => _ | Err _ => _ end] => destruct x eqn:?
  end.
