(* ===== verification/Effects.v ===== *)
(** * Effects: interaction programs and their program logic

    A Go handler of this repository is a sequence of pure computation and
    calls to somebody else's code: the Kubernetes API (through the
    controller-runtime client), a remote cluster, an HTTP endpoint.  Here such
    a handler is a finite tree of calls: [PRet] is the returned value and
    [PVis e k] performs the call [e] and goes on with the answer.  The type of
    calls [E] is chosen by each component; the answers are NOT modelled, every
    theorem quantifies over them.

    The environment is a transition relation [R w e x w']: in world [w] the
    call [e] may be answered [x], which leaves the world [w'].  [wp R p Q w] is
    the demonic weakest precondition: [Q] holds of every final world and
    returned value.  Two environments recur: [traced Env], whose world is the
    list of calls performed so far with their answers, and the environments of
    single components, whose world is what the cluster stores.  [run] executes
    a program against a concrete handler (used by the examples); [wp_run] and
    [wp_exec] are the adequacy theorems. *)
From stdpp Require Import base list sets.

Inductive prog (E : Type -> Type) (A : Type) : Type :=
| PRet (a : A)
| PVis {X : Type} (e : E X) (k : X -> prog E A).
Arguments PRet {E A} a.
Arguments PVis {E A X} e k.

(** One performed call with the answer it got. *)
Inductive call (E : Type -> Type) : Type :=
| Call {X : Type} (e : E X) (x : X).
Arguments Call {E X} e x.

Fixpoint pbind {E A B} (p : prog E A) (f : A -> prog E B) : prog E B :=
  match p with
  | PRet a => f a
  | PVis e k => PVis e (fun x => pbind (k x) f)
  end.

#[export] Instance prog_mret E : MRet (prog E) := fun A a => PRet a.
#[export] Instance prog_mbind E : MBind (prog E) := fun A B f p => pbind p f.

Definition trigger {E X} (e : E X) : prog E X := PVis e PRet.

(** The sum of two sets of calls. *)
Inductive sumE (E F : Type -> Type) (X : Type) : Type :=
| inlE (e : E X)
| inrE (f : F X).
Arguments inlE {E F X} e.
Arguments inrE {E F X} f.

(** [translate] embeds the calls of a component into a larger set of calls. *)
Fixpoint translate {E F : Type -> Type} (phi : forall X, E X -> F X) {A}
    (p : prog E A) : prog F A :=
  match p with
  | PRet a => PRet a
  | PVis e k => PVis (phi _ e) (fun x => translate phi (k x))
  end.

(** ** Loops

    [foreach] is a Go [for _, a := range l] whose body may return from the
    enclosing function: [inl s] goes on with the loop state [s], [inr r]
    returns [r]. *)
Fixpoint foreach {E A S R} (l : list A) (body : S -> A -> prog E (S + R))
    (s : S) : prog E (S + R) :=
  match l with
  | [] => mret (inl s)
  | a :: l' =>
      r ← body s a;
      match r with
      | inl s' => foreach l' body s'
      | inr r => mret (inr r)
      end
  end.

(** ** Executing a program *)
Section run.
Context {E : Type -> Type} {W : Type}.
Variable handler : forall X, E X -> W -> X * W.

Fixpoint run {A} (p : prog E A) (w : W) : A * W * list (call E) :=
  match p with
  | PRet a => (a, w, [])
  | PVis e k =>
      let '(x, w1) := handler _ e w in
      let '(a, w2, tr) := run (k x) w1 in
      (a, w2, Call e x :: tr)
  end.

Definition run_result {A} (p : prog E A) (w : W) : A := (run p w).1.1.
Definition run_world {A} (p : prog E A) (w : W) : W := (run p w).1.2.
Definition run_calls {A} (p : prog E A) (w : W) : list (call E) := (run p w).2.
End run.

(** ** Evaluating a program against fixed answers

    [eval h p]: the value [p] returns when every call is answered by [h], if all are. *)
Fixpoint eval {E A} (h : forall X, E X -> option X) (p : prog E A) : option A :=
  match p with
  | PRet a => Some a
  | PVis e k => match h _ e with Some x => eval h (k x) | None => None end
  end.
Section eval.
Context {E : Type -> Type}.
Variable h : forall X, E X -> option X.
Lemma eval_bind {A B} (p : prog E A) (f : A -> prog E B) :
  eval h (p ≫= f) = match eval h p with Some a => eval h (f a) | None => None end.
Proof.
  induction p as [a|X e k IH]; [done|]. cbn. destruct (h X e); [apply IH|done].
Qed.
Lemma eval_ret {A} (a : A) : eval h (mret a) = Some a.
Proof. done. Qed.
Lemma eval_trigger {X} (e : E X) : eval h (trigger e) = h X e.
Proof. cbn. by destruct (h X e). Qed.
Lemma eval_vis {X A} (e : E X) (k : X -> prog E A) :
  eval h (PVis e k) = match h X e with Some x => eval h (k x) | None => None end.
Proof. done. Qed.
End eval.
Lemma eval_translate {E F A} (h : forall X, F X -> option X) (phi : forall X, E X -> F X) (p : prog E A) :
  eval h (translate phi p) = eval (fun X e => h X (phi X e)) p.
Proof. induction p as [a|X e k IH]; [done|]. cbn. by destruct (h X (phi X e)). Qed.
#[global] Arguments eval : simpl never.

(** ** Weakest preconditions *)
Section wp.
Context {E : Type -> Type} {W : Type}.
Variable R : W -> forall X, E X -> X -> W -> Prop.

Fixpoint wp {A} (p : prog E A) (Q : W -> A -> Prop) (w : W) : Prop :=
  match p with
  | PRet a => Q w a
  | PVis e k => forall x w', R w _ e x w' -> wp (k x) Q w'
  end.

(** The executions [R] allows. *)
Fixpoint exec {A} (p : prog E A) (w : W) (a : A) (w' : W) : Prop :=
  match p with
  | PRet b => a = b /\ w' = w
  | PVis e k => exists x w1, R w _ e x w1 /\ exec (k x) w1 a w'
  end.

Lemma wp_mono {A} (p : prog E A) (Q Q' : W -> A -> Prop) w :
  (forall w' a, Q w' a -> Q' w' a) -> wp p Q w -> wp p Q' w.
Proof.
  intros HQ. revert w. induction p as [a|X e k IH]; simpl; intros w; [eauto|].
  intros H x w' Hx. eauto.
Qed.

Lemma wp_bind {A B} (p : prog E A) (f : A -> prog E B) Q w :
  wp (p ≫= f) Q w <-> wp p (fun w' a => wp (f a) Q w') w.
Proof.
  revert w. induction p as [a|X e k IH]; simpl; intros w; [done|].
  split; intros H x w' Hx; apply IH; eauto.
Qed.

Lemma wp_ret {A} (a : A) Q w : wp (mret a) Q w <-> Q w a.
Proof. done. Qed.

Lemma wp_vis {X A} (e : E X) (k : X -> prog E A) Q w :
  wp (PVis e k) Q w <-> forall x w', R w _ e x w' -> wp (k x) Q w'.
Proof. done. Qed.

Lemma wp_trigger {X} (e : E X) Q w :
  wp (trigger e) Q w <-> forall x w', R w _ e x w' -> Q w' x.
Proof. done. Qed.

Lemma wp_and {A} (p : prog E A) Q Q' w :
  wp p Q w -> wp p Q' w -> wp p (fun w' a => Q w' a /\ Q' w' a) w.
Proof.
  revert w. induction p as [a|X e k IH]; simpl; intros w; [done|].
  intros H H' x w' Hx. eauto.
Qed.

(** A program keeps what every one of its calls keeps. *)
Lemma wp_inv {A} (p : prog E A) (I : W -> Prop) w :
  (forall w X (e : E X) x w', I w -> R w X e x w' -> I w') ->
  I w -> wp p (fun w' _ => I w') w.
Proof.
  intros HI. revert w. induction p as [a|X e k IH]; simpl; intros w Hw; [done|]. eauto.
Qed.

(** The loop rule: an invariant on the loop state that the body keeps when
    it goes on and that gives the postcondition when it returns. *)
Lemma wp_foreach {A S T} (l : list A) (body : S -> A -> prog E (S + T))
    (I : list A -> W -> S -> Prop) (Q : W -> S + T -> Prop) s w :
  I l w s ->
  (forall w' s', I [] w' s' -> Q w' (inl s')) ->
  (forall a l' w' s', I (a :: l') w' s' ->
     wp (body s' a) (fun w'' r =>
       match r with inl s'' => I l' w'' s'' | inr r => Q w'' (inr r) end) w') ->
  wp (foreach l body s) Q w.
Proof.
  intros HI Hend Hbody. revert w s HI.
  induction l as [|a l IH]; intros w s HI; simpl; [by apply Hend|].
  apply wp_bind. eapply wp_mono; [|by apply Hbody].
  intros w' [s'|r]; simpl; eauto.
Qed.

Lemma wp_true {A} (p : prog E A) w : wp p (fun _ _ => True) w.
Proof. revert w. induction p; simpl; [done|]. eauto. Qed.

(** The same with what follows the loop. *)
Lemma wp_foreach_bind {A S T B} (l : list A) (body : S -> A -> prog E (S + T))
    (k : S + T -> prog E B) (I : list A -> W -> S -> Prop) Q s w :
  I l w s ->
  (forall w' s', I [] w' s' -> wp (k (inl s')) Q w') ->
  (forall a l' w' s', I (a :: l') w' s' ->
     wp (body s' a) (fun w'' r =>
       match r with inl s'' => I l' w'' s'' | inr r => wp (k (inr r)) Q w'' end) w') ->
  wp (foreach l body s ≫= k) Q w.
Proof.
  intros HI Hend Hbody. apply wp_bind.
  by apply (wp_foreach l body I (fun w' r => wp (k r) Q w')).
Qed.

Lemma wp_exec {A} (p : prog E A) (Q : W -> A -> Prop) w a w' :
  wp p Q w -> exec p w a w' -> Q w' a.
Proof.
  revert w. induction p as [b|X e k IH]; simpl; intros w Hwp.
  - by intros [-> ->].
  - intros (x & w1 & HR & Hex). eauto.
Qed.

Lemma exec_bind {A B} (p : prog E A) (f : A -> prog E B) w b w' :
  exec (p ≫= f) w b w' <-> exists a w1, exec p w a w1 /\ exec (f a) w1 b w'.
Proof.
  revert w. induction p as [a|X e k IH]; simpl; intros w.
  - split; [eauto|]. by intros (? & ? & [-> ->] & H).
  - split.
    + intros (x & w1 & HR & (a & w2 & H1 & H2)%IH). eauto 10.
    + intros (a & w1 & (x & w2 & HR & Hex) & H). exists x, w2. split; [done|].
      apply IH. eauto.
Qed.
End wp.

(** A smaller set of possible answers keeps every [wp]. *)
Lemma wp_env_mono {E W A} (R R' : W -> forall X, E X -> X -> W -> Prop)
    (p : prog E A) Q w :
  (forall w X (e : E X) x w', R' w X e x w' -> R w X e x w') ->
  wp R p Q w -> wp R' p Q w.
Proof.
  intros HR. revert w. induction p as [a|X e k IH]; simpl; intros w; [done|]. eauto.
Qed.

Lemma wp_translate {E F W A} (R : W -> forall X, F X -> X -> W -> Prop)
    (phi : forall X, E X -> F X) (p : prog E A) Q w :
  wp R (translate phi p) Q w <->
  wp (fun w X e x w' => R w X (phi X e) x w') p Q w.
Proof.
  revert w. induction p as [a|X e k IH]; simpl; intros w; [done|].
  split; intros H x w' Hx; apply IH; eauto.
Qed.

(** A program about a part [V] of a world [W], seen through [get] and [put]. *)
Lemma wp_lens {E W V A} (R : V -> forall X, E X -> X -> V -> Prop)
    (R' : W -> forall X, E X -> X -> W -> Prop) (get : W -> V) (put : V -> W -> W)
    (p : prog E A) Q w :
  (forall v w, get (put v w) = v) -> (forall v v' w, put v' (put v w) = put v' w) ->
  (forall w, put (get w) w = w) ->
  (forall w X (e : E X) x w', R' w X e x w' -> exists v, R (get w) X e x v /\ w' = put v w) ->
  wp R p (fun v a => Q (put v w) a) (get w) -> wp R' p Q w.
Proof.
  intros Hgp Hpp Hpg HR. revert w. induction p as [a|X e k IH]; simpl; intros w.
  - by rewrite Hpg.
  - intros H x w' (v & Hx & ->)%HR. apply IH. rewrite Hgp.
    eapply wp_mono; [|by apply H]. intros v' a. by rewrite Hpp.
Qed.

#[global] Arguments wp : simpl never.

(** The environment whose world is the list of the calls performed. *)
Definition traced {E : Type -> Type}
    (Env : list (call E) -> forall X, E X -> X -> Prop) :
    list (call E) -> forall X, E X -> X -> list (call E) -> Prop :=
  fun h X e x h' => Env h X e x /\ h' = h ++ [Call e x].

(** The environment that may answer anything. *)
Definition any_answer {E : Type -> Type} :
  list (call E) -> forall X, E X -> X -> Prop := fun _ _ _ _ => True.

(** Adequacy for a concrete handler: what [wp] promises holds of the execution. *)
Lemma wp_run {E W A} (handler : forall X, E X -> W -> X * W)
    (Env : list (call E) -> forall X, E X -> X -> Prop)
    (p : prog E A) (Q : list (call E) -> A -> Prop) h w :
  (forall h X (e : E X) w, Env h X e (handler X e w).1) ->
  wp (traced Env) p Q h ->
  Q (h ++ run_calls handler p w) (run_result handler p w).
Proof.
  unfold run_calls, run_result. intros HEnv. revert h w.
  induction p as [a|X e k IH]; simpl; intros h w Hwp.
  { by rewrite app_nil_r. }
  pose proof (HEnv h X e w) as Hx.
  destruct (handler X e w) as [x w1] eqn:Hh. simpl in Hx.
  specialize (IH x (h ++ [Call e x]) w1 (Hwp x _ (conj Hx eq_refl))).
  destruct (run handler (k x) w1) as [[a w2] tr]. simpl in *.
  by rewrite <-app_assoc in IH.
Qed.

(** A handler whose steps the environment allows gives an execution. *)
Lemma exec_run {E W A} (R : W -> forall X, E X -> X -> W -> Prop)
    (handler : forall X, E X -> W -> X * W) (p : prog E A) w :
  (forall w X (e : E X), R w X e (handler X e w).1 (handler X e w).2) ->
  exec R p w (run_result handler p w) (run_world handler p w).
Proof.
  unfold run_result, run_world. intros HR. revert w.
  induction p as [a|X e k IH]; intros w; simpl; [done|].
  pose proof (HR w X e) as Hx. destruct (handler X e w) as [x w1]. simpl in Hx.
  exists x, w1. split; [done|]. specialize (IH x w1).
  by destruct (run handler (k x) w1) as [[a w2] tr].
Qed.

(** A handler that need not answer every call. *)
Fixpoint attempt {E W A} (handler : forall X, E X -> W -> option (X * W)) (p : prog E A) (w : W) : option (A * W) :=
  match p with
  | PRet a => Some (a, w)
  | PVis e k => match handler _ e w with Some (x, w1) => attempt handler (k x) w1 | None => None end
  end.
Lemma exec_attempt {E W A} (R : W -> forall X, E X -> X -> W -> Prop)
    (handler : forall X, E X -> W -> option (X * W)) (p : prog E A) w a w' :
  (forall w X (e : E X) x w', handler X e w = Some (x, w') -> R w X e x w') ->
  attempt handler p w = Some (a, w') -> exec R p w a w'.
Proof.
  intros HR. revert w. induction p as [b|X e k IH]; intros w; simpl; [by intros [= <- <-]|].
  destruct (handler X e w) as [[x w1]|] eqn:Hx; [|done]. intros H. exists x, w1. split; [by apply HR|by apply IH].
Qed.

(** ** Calls a program can make

    [all_calls P p]: every call in the tree of [p], whatever the answers before
    it, satisfies [P]. *)
Fixpoint all_calls {E : Type -> Type} {A} (P : forall X, E X -> Prop) (p : prog E A) : Prop :=
  match p with
  | PRet _ => True
  | PVis e k => P _ e /\ forall x, all_calls P (k x)
  end.
#[global] Arguments all_calls : simpl never.

Section all_calls.
Context {E : Type -> Type}.
Variable P : forall X, E X -> Prop.

Lemma all_calls_ret {A} (a : A) : all_calls P (mret a).
Proof. done. Qed.
Lemma all_calls_vis {X A} (e : E X) (k : X -> prog E A) :
  P _ e -> (forall x, all_calls P (k x)) -> all_calls P (PVis e k).
Proof. done. Qed.
Lemma all_calls_trigger {X} (e : E X) : P _ e -> all_calls P (trigger e).
Proof. by split. Qed.
Lemma all_calls_bind {A B} (p : prog E A) (f : A -> prog E B) :
  all_calls P p -> (forall a, all_calls P (f a)) -> all_calls P (p ≫= f).
Proof.
  intros Hp Hf. induction p as [a|X e k IH]; [apply Hf|].
  destruct Hp as [He Hk]. split; [done|]. intros x. by apply IH.
Qed.
Lemma all_calls_foreach {A S T} (l : list A) (body : S -> A -> prog E (S + T)) s :
  (forall s a, a ∈ l -> all_calls P (body s a)) -> all_calls P (foreach l body s).
Proof.
  revert s. induction l as [|a l IH]; intros s H; [done|]. simpl.
  apply all_calls_bind; [apply H; set_solver|].
  intros [s'|r]; [|done]. apply IH. set_solver.
Qed.

(** Invariants from the calls alone. *)
Lemma all_calls_wp {A W} (R : W -> forall X, E X -> X -> W -> Prop) (I : W -> Prop)
    (p : prog E A) w :
  all_calls P p ->
  (forall w X (e : E X) x w', I w -> P X e -> R w X e x w' -> I w') ->
  I w -> wp R p (fun w' _ => I w') w.
Proof.
  intros Hp HI. revert w. induction p as [a|X e k IH]; intros w Hw; [done|].
  destruct Hp as [He Hk]. intros x w' HR. eapply IH; eauto.
Qed.
End all_calls.

(** ** Calls a program makes under an environment

    [safe R P p w]: every call of an execution [R] allows from [w] satisfies [P]. *)
Section safe.
Context {E : Type -> Type} {W : Type}.
Variable R : W -> forall X, E X -> X -> W -> Prop.
Variable P : forall X, E X -> Prop.

Fixpoint safe {A} (p : prog E A) (w : W) : Prop :=
  match p with
  | PRet _ => True
  | PVis e k => P _ e /\ forall x w', R w _ e x w' -> safe (k x) w'
  end.

Lemma safe_bind {A B} (p : prog E A) (f : A -> prog E B) w :
  safe p w -> wp R p (fun w' a => safe (f a) w') w -> safe (p ≫= f) w.
Proof.
  revert w. induction p as [a|X e k IH]; intros w Hp Hf; [done|].
  destruct Hp as [He Hk]. split; [done|]. intros x w' Hx. apply IH; [by apply Hk|by apply Hf].
Qed.
Lemma safe_wp_bind {A B} (p : prog E A) (f : A -> prog E B) Q w :
  safe p w -> wp R p (fun w' a => safe (f a) w' /\ wp R (f a) Q w') w ->
  safe (p ≫= f) w /\ wp R (p ≫= f) Q w.
Proof.
  intros Hp Hf. split.
  - apply safe_bind; [done|]. eapply wp_mono; [|exact Hf]. by intros w' a [H _].
  - apply wp_bind. eapply wp_mono; [|exact Hf]. by intros w' a [_ H].
Qed.
Lemma safe_all_calls {A} (p : prog E A) w : all_calls P p -> safe p w.
Proof.
  revert w. induction p as [a|X e k IH]; intros w; [done|].
  intros [He Hk]. split; [done|]. intros x w' _. by apply IH.
Qed.
End safe.
#[global] Arguments safe : simpl never.

Lemma all_calls_mono {E A} (P Q : forall X, E X -> Prop) (p : prog E A) :
  (forall X e, P X e -> Q X e) -> all_calls P p -> all_calls Q p.
Proof.
  intros HPQ. induction p as [a|X e k IH]; [done|]. intros [He Hk]. split; [by apply HPQ|].
  intros x. by apply IH.
Qed.
Lemma all_calls_any {E A} (P : forall X, E X -> Prop) (p : prog E A) :
  (forall X e, P X e) -> all_calls P p.
Proof. intros HP. induction p as [a|X e k IH]; [done|]. by split. Qed.
Lemma all_calls_translate {E F : Type -> Type} {A} (P : forall X, F X -> Prop)
    (phi : forall X, E X -> F X) (p : prog E A) :
  all_calls (fun X e => P X (phi X e)) p -> all_calls P (translate phi p).
Proof.
  induction p as [a|X e k IH]; [done|]. intros [He Hk]. split; [done|].
  intros x. by apply IH.
Qed.

(** Calls of the second part, knowing what the first part returns. *)
Lemma all_calls_bind_post {E A B} (P : forall X, E X -> Prop) (Q : A -> Prop)
    (p : prog E A) (f : A -> prog E B) :
  all_calls P p ->
  wp (fun (_ : unit) _ _ _ _ => True) p (fun _ a => Q a) tt ->
  (forall a, Q a -> all_calls P (f a)) -> all_calls P (p ≫= f).
Proof.
  intros Hp HQ Hf. induction p as [a|X e k IH]; [by apply Hf|].
  destruct Hp as [He Hk]. split; [done|]. intros x. apply IH; [done|]. by apply HQ.
Qed.

(** An environment may be replaced by one that agrees on the calls made. *)
Lemma wp_calls_mono {E W A} (R R' : W -> forall X, E X -> X -> W -> Prop) (P : forall X, E X -> Prop)
    (p : prog E A) Q w :
  all_calls P p -> (forall w X (e : E X) x w', P X e -> R' w X e x w' -> R w X e x w') ->
  wp R p Q w -> wp R' p Q w.
Proof.
  intros Hp HR. revert w. induction p as [a|X e k IH]; intros w Hw; [done|].
  destruct Hp as [He Hk]. intros x w' Hx. apply IH; [apply Hk|]. apply Hw. by apply HR.
Qed.

(** The traced world only grows. *)
Lemma wp_traced_extends {E A} Env (p : prog E A) h :
  wp (traced Env) p (fun h' _ => exists l, h' = h ++ l) h.
Proof.
  apply wp_inv; [|exists []; by rewrite app_nil_r].
  intros h1 X e x h2 [l ->] [_ ->]. exists (l ++ [Call e x]). by rewrite app_assoc.
Qed.

(** Steps through an [all_calls] goal. *)
Ltac calls_step :=
  lazymatch goal with
  | |- all_calls _ (mbind _ _) => apply all_calls_bind; [|intros ?]
  | |- all_calls _ (mret _) => apply all_calls_ret
  | |- all_calls _ (trigger _) => apply all_calls_trigger
  | |- all_calls _ (PRet _) => apply all_calls_ret
  | |- all_calls _ (PVis _ _) => apply all_calls_vis; [|intros ?]
  | |- all_calls _ (translate _ _) => apply all_calls_translate
  | |- all_calls _ (foreach _ _ _) => apply all_calls_foreach; intros ???
  | |- all_calls _ (let '(_, _) := ?x in _) => destruct x eqn:?
  | |- all_calls _ (if ?b then _ else _) => destruct b eqn:?
  | |- all_calls _ (match ?x with _ => _ end) => destruct x eqn:?
  | |- all_calls _ ((match ?x with _ => _ end) _) => destruct x eqn:?
  end.
Ltac calls_steps := repeat calls_step.

(** Steps through a [wp] goal: binds, returns and calls. *)
Ltac wp_step :=
  lazymatch goal with
  | |- wp _ (mbind _ _) _ _ => apply wp_bind
  | |- wp _ (mret _) _ _ => apply wp_ret
  | |- wp _ (trigger _) _ _ => apply wp_trigger; intros ?x ?w ?Hx
  | |- wp _ (PRet _) _ _ => apply wp_ret
  | |- wp _ (PVis _ _) _ _ => apply wp_vis; intros ?x ?w ?Hx
  | |- wp _ (translate _ _) _ _ => apply wp_translate
  | |- wp _ (if ?b then _ else _) _ _ => destruct b eqn:?
  | |- wp _ (match ?x with _ => _ end) _ _ => destruct x eqn:?
  | |- wp _ ((match ?x with _ => _ end) _) _ _ => destruct x eqn:?
  end.
Ltac wp_steps := repeat wp_step.
(** Forgets what a part of a program does. *)
Ltac wp_skip := eapply wp_mono; [intros ? ? _ | apply wp_true].
