(* ===== verification/Conditions.v ===== *)
(** * Conditions: [api/meta/v1alpha1/conditions_types.go]

    The status conditions every Greenhouse resource carries: the [Condition]
    record, its constructors and comparisons, and the operations on the
    condition list of a status.  The clock is an argument [now] of the
    operations that read it.  The theorems say that the list stays a map from
    condition types to conditions, that setting a condition changes exactly
    that entry, and that a transition time moves only when the status does. *)
From S2P Require Import Prelude.

(** [metav1.Time]: [None] is the zero time. *)
Definition time := option Z.

(** [metav1.ConditionStatus] *)
Definition ConditionTrue : string := "True".
Definition ConditionFalse : string := "False".
Definition ConditionUnknown : string := "Unknown".

Record Condition := mk_condition {
  CondType : string;
  CondStatus : string;
  CondReason : string;
  LastTransitionTime : time;
  CondMessage : string
}.

#[export] Instance Condition_eq_dec : EqDecision Condition.
Proof. solve_decision. Defined.

Definition set_ltt (t : time) (c : Condition) : Condition :=
  mk_condition (CondType c) (CondStatus c) (CondReason c) t (CondMessage c).
Definition set_status (s : string) (c : Condition) : Condition :=
  mk_condition (CondType c) s (CondReason c) (LastTransitionTime c) (CondMessage c).
Definition set_reason (r : string) (c : Condition) : Condition :=
  mk_condition (CondType c) (CondStatus c) r (LastTransitionTime c) (CondMessage c).
Definition set_message (m : string) (c : Condition) : Condition :=
  mk_condition (CondType c) (CondStatus c) (CondReason c) (LastTransitionTime c) m.

Definition NewCondition (now : Z) (condition status reason message : string) : Condition :=
  mk_condition condition status reason (Some now) message.
Definition TrueCondition (now : Z) (t reason message : string) : Condition :=
  NewCondition now t ConditionTrue reason message.
Definition FalseCondition (now : Z) (t reason message : string) : Condition :=
  NewCondition now t ConditionFalse reason message.
Definition UnknownCondition (now : Z) (t reason message : string) : Condition :=
  NewCondition now t ConditionUnknown reason message.

(** [Equal] ignores the transition time. *)
Definition Equal (c other : Condition) : bool :=
  bool_decide (CondType c = CondType other) &&
  bool_decide (CondStatus c = CondStatus other) &&
  bool_decide (CondReason c = CondReason other) &&
  bool_decide (CondMessage c = CondMessage other).

Definition IsTrue (c : Condition) : bool := bool_decide (CondStatus c = ConditionTrue).
Definition IsUnknown (c : Condition) : bool := bool_decide (CondStatus c = ConditionUnknown).
Definition IsFalse (c : Condition) : bool := bool_decide (CondStatus c = ConditionFalse).

(** [StatusConditions] *)
Definition StatusConditions := list Condition.

(** The inner loop of [SetConditions]: update the first condition of the type
    in place unless nothing changed, append when there is none. *)
Fixpoint set_condition (toSet : Condition) (sc : StatusConditions) : StatusConditions :=
  match sc with
  | [] => [toSet]
  | cur :: sc' =>
      if bool_decide (CondType cur = CondType toSet) then
        if Equal cur toSet then cur :: sc'
        else (if bool_decide (CondStatus cur = CondStatus toSet)
              then set_ltt (LastTransitionTime cur) toSet else toSet) :: sc'
      else cur :: set_condition toSet sc'
  end.

(** A condition without a transition time gets the current time. *)
Definition stamped (now : Z) (c : Condition) : Condition :=
  match LastTransitionTime c with None => set_ltt (Some now) c | Some _ => c end.

Definition SetConditions (now : Z) (sc : StatusConditions)
    (conditionsToSet : list Condition) : StatusConditions :=
  fold_left (fun sc toSet => set_condition (stamped now toSet) sc) conditionsToSet sc.
#[global] Arguments SetConditions : simpl never.

Fixpoint GetConditionByType (sc : StatusConditions) (t : string) : option Condition :=
  match sc with
  | [] => None
  | c :: sc' => if bool_decide (CondType c = t) then Some c else GetConditionByType sc' t
  end.

Definition ReadyCondition : string := "Ready".
Definition DeleteCondition : string := "Delete".
Definition ClusterListEmpty : string := "ClusterListEmpty".
Definition OwnerLabelSetCondition : string := "OwnerLabelSet".
Definition OwnerLabelMissingReason : string := "OwnerLabelMissing".
Definition OwnerLabelSetToNotExistingTeamReason : string := "OwnerLabelNotExistingTeam".
Definition OwnerLabelSetToNonSupportGroupTeamReason : string := "OwnerLabelSetToNonSupportGroupTeam".
Definition SuspendedCondition : string := "Suspended".
Definition ResourceSuspendedReason : string := "ResourceSuspended".
Definition ResourceSuspensionFailedReason : string := "ResourceSuspensionFailed".

Definition IsReadyTrue (sc : StatusConditions) : bool :=
  match GetConditionByType sc ReadyCondition with
  | None => false
  | Some c => IsTrue c
  end.

(** [RemoveCondition] of the resource types: [slices.DeleteFunc] by type. *)
Definition remove_condition (t : string) (sc : StatusConditions) : StatusConditions :=
  delete_func (fun c => bool_decide (CondType c = t)) sc.

(** A controller's [init...Status]: every exposed condition that is missing is
    set to Unknown. *)
Definition init_conditions (now : Z) (exposed : list string) (sc : StatusConditions)
    : StatusConditions :=
  fold_left (fun sc ct =>
    match GetConditionByType sc ct with
    | None => SetConditions now sc [UnknownCondition now ct "" ""]
    | Some _ => sc
    end) exposed sc.

(** ** Lemmas *)
Lemma Equal_true c c' : Equal c c' = true <->
  CondType c = CondType c' /\ CondStatus c = CondStatus c' /\
  CondReason c = CondReason c' /\ CondMessage c = CondMessage c'.
Proof. unfold Equal. rewrite !andb_true_iff, !bool_decide_eq_true. naive_solver. Qed.

Lemma set_condition_types c sc t :
  t ∈ CondType <$> set_condition c sc <-> t = CondType c \/ t ∈ CondType <$> sc.
Proof.
  induction sc as [|d sc IH]; csimpl; [set_solver|].
  case_bool_decide as Hd; [|csimpl; rewrite !elem_of_cons, IH; naive_solver].
  destruct (Equal d c); [set_solver|].
  case_bool_decide; csimpl; rewrite !elem_of_cons, Hd; naive_solver.
Qed.

Lemma set_condition_nodup c sc :
  NoDup (CondType <$> sc) -> NoDup (CondType <$> set_condition c sc).
Proof.
  induction sc as [|d sc IH]; csimpl; [intros; apply NoDup_singleton|].
  intros [Hd Hsc]%NoDup_cons. case_bool_decide as Hdc.
  - destruct (Equal d c); [by apply NoDup_cons|].
    case_bool_decide; csimpl; apply NoDup_cons; by rewrite <-Hdc.
  - csimpl. apply NoDup_cons. split; [|by apply IH].
    rewrite set_condition_types. naive_solver.
Qed.

Lemma get_set_condition_ne c sc t : t <> CondType c ->
  GetConditionByType (set_condition c sc) t = GetConditionByType sc t.
Proof.
  intros Ht. induction sc as [|d sc IH]; simpl.
  - by rewrite bool_decide_eq_false_2.
  - case_bool_decide as Hd; [|simpl; by rewrite IH].
    destruct (Equal d c); [done|].
    simpl. rewrite (bool_decide_eq_false_2 (CondType d = t)) by congruence.
    destruct (bool_decide (CondStatus d = CondStatus c)); simpl; by rewrite (bool_decide_eq_false_2 (CondType c = t)) by congruence.
Qed.

(** What an entry becomes when [c] is set over it. *)
Definition merged_condition (old : option Condition) (c : Condition) : Condition :=
  match old with
  | None => c
  | Some d => if Equal d c then d
              else if bool_decide (CondStatus d = CondStatus c)
                   then set_ltt (LastTransitionTime d) c else c
  end.

Lemma get_set_condition_eq c sc :
  GetConditionByType (set_condition c sc) (CondType c) =
  Some (merged_condition (GetConditionByType sc (CondType c)) c).
Proof.
  induction sc as [|d sc IH]; simpl; [by rewrite bool_decide_eq_true_2|].
  case_bool_decide as Hd; simpl.
  - destruct (Equal d c); simpl; [by rewrite bool_decide_eq_true_2|].
    destruct (bool_decide (CondStatus d = CondStatus c)); simpl; by rewrite bool_decide_eq_true_2.
  - by rewrite bool_decide_eq_false_2.
Qed.

Lemma merged_condition_equal old c :
  (forall d, old = Some d -> CondType d = CondType c) ->
  Equal (merged_condition old c) c = true.
Proof.
  intros Hold. destruct old as [d|]; simpl; [|by apply Equal_true].
  destruct (Equal d c) eqn:E; [done|].
  case_bool_decide; by apply Equal_true.
Qed.

Lemma get_condition_type sc t c : GetConditionByType sc t = Some c -> CondType c = t.
Proof.
  induction sc as [|d sc IH]; simpl; [done|]. case_bool_decide; [|by apply IH].
  intros [= ->]. done.
Qed.

Lemma get_condition_elem sc t c : GetConditionByType sc t = Some c -> c ∈ sc.
Proof.
  induction sc as [|d sc IH]; simpl; [done|]. case_bool_decide; [|set_solver].
  intros [= ->]. set_solver.
Qed.

Lemma get_condition_is_Some sc t :
  is_Some (GetConditionByType sc t) <-> t ∈ CondType <$> sc.
Proof.
  induction sc as [|d sc IH]; csimpl.
  - split; [by intros [??]|set_solver].
  - case_bool_decide as Hd; [|rewrite IH, elem_of_cons; naive_solver].
    rewrite elem_of_cons. naive_solver.
Qed.

Lemma get_remove_condition t sc : GetConditionByType (remove_condition t sc) t = None.
Proof.
  unfold remove_condition, delete_func.
  induction sc as [|d sc IH]; simpl; [done|].
  destruct (bool_decide_reflect (CondType d = t)); simpl; [done|].
  by rewrite bool_decide_eq_false_2.
Qed.

Lemma get_remove_condition_ne t t' sc : t <> t' ->
  GetConditionByType (remove_condition t sc) t' = GetConditionByType sc t'.
Proof.
  intros Hne. unfold remove_condition, delete_func.
  induction sc as [|d sc IH]; simpl; [done|].
  destruct (bool_decide_reflect (CondType d = t)); simpl.
  - rewrite IH, bool_decide_eq_false_2; congruence.
  - by rewrite IH.
Qed.

#[export] Hint Resolve set_condition_nodup : greenhouse.

Lemma set_condition_id c sc d :
  GetConditionByType sc (CondType c) = Some d -> Equal d c = true ->
  set_condition c sc = sc.
Proof.
  intros Hd E. induction sc as [|e sc IH]; simpl in *; [done|].
  destruct (bool_decide_reflect (CondType e = CondType c)) as [He|]; simpl in *.
  - simplify_eq. by rewrite E.
  - by rewrite IH.
Qed.

Lemma Equal_set_ltt_r d c t : Equal d (set_ltt t c) = Equal d c.
Proof. done. Qed.

Lemma stamped_type now c : CondType (stamped now c) = CondType c.
Proof. unfold stamped. by destruct (LastTransitionTime c). Qed.

Lemma Equal_stamped d now c : Equal d (stamped now c) = Equal d c.
Proof. unfold stamped. by destruct (LastTransitionTime c). Qed.

Lemma SetConditions_cons now sc c l :
  SetConditions now sc (c :: l) = SetConditions now (set_condition (stamped now c) sc) l.
Proof. done. Qed.

Lemma SetConditions_app now sc l1 l2 :
  SetConditions now sc (l1 ++ l2) = SetConditions now (SetConditions now sc l1) l2.
Proof. apply fold_left_app. Qed.

Lemma SetConditions_types now sc l t :
  t ∈ CondType <$> SetConditions now sc l <-> t ∈ CondType <$> sc \/ t ∈ CondType <$> l.
Proof.
  revert sc. induction l as [|c l IH]; intros sc; [set_solver|].
  rewrite SetConditions_cons, IH, set_condition_types, stamped_type. csimpl.
  rewrite elem_of_cons. naive_solver.
Qed.

Lemma SetConditions_nodup now sc l :
  NoDup (CondType <$> sc) -> NoDup (CondType <$> SetConditions now sc l).
Proof.
  revert sc. induction l as [|c l IH]; intros sc H; [done|].
  rewrite SetConditions_cons. auto with greenhouse.
Qed.

Lemma SetConditions_get_other now sc l t :
  t ∉ CondType <$> l ->
  GetConditionByType (SetConditions now sc l) t = GetConditionByType sc t.
Proof.
  revert sc. induction l as [|c l IH]; intros sc Ht; [done|]. csimpl in Ht.
  rewrite SetConditions_cons, IH by set_solver.
  apply get_set_condition_ne. rewrite stamped_type. set_solver.
Qed.

Lemma merged_condition_type old c :
  (forall d, old = Some d -> CondType d = CondType c) ->
  CondType (merged_condition old c) = CondType c.
Proof. intros Hold. by apply Equal_true, (merged_condition_equal old c). Qed.

Lemma SetConditions_get_in now sc l c :
  NoDup (CondType <$> l) -> c ∈ l ->
  exists d, GetConditionByType (SetConditions now sc l) (CondType c) = Some d /\
            Equal d c = true.
Proof.
  revert sc. induction l as [|e l IH]; intros sc; [set_solver|]. csimpl.
  intros [He Hl]%NoDup_cons [->|Hc]%elem_of_cons; rewrite SetConditions_cons; [|by apply IH].
  rewrite SetConditions_get_other by done.
  rewrite <-(stamped_type now e), get_set_condition_eq.
  eexists; split; [done|]. rewrite <-(Equal_stamped _ now).
  apply merged_condition_equal. intros d. rewrite stamped_type. apply get_condition_type.
Qed.

Lemma init_conditions_types now exposed sc t :
  t ∈ CondType <$> init_conditions now exposed sc <->
  t ∈ CondType <$> sc \/ t ∈ exposed.
Proof.
  unfold init_conditions. revert sc.
  induction exposed as [|ct l IH]; intros sc; simpl; [set_solver|].
  rewrite IH, elem_of_cons.
  destruct (GetConditionByType sc ct) eqn:E.
  - assert (ct ∈ CondType <$> sc) by (apply get_condition_is_Some; eauto). naive_solver.
  - rewrite SetConditions_types. csimpl. rewrite elem_of_cons. set_solver.
Qed.

Lemma init_conditions_get now exposed sc t :
  t ∈ exposed -> is_Some (GetConditionByType (init_conditions now exposed sc) t).
Proof. intros. apply get_condition_is_Some, init_conditions_types. auto. Qed.

Lemma init_conditions_keeps now exposed sc t c :
  GetConditionByType sc t = Some c ->
  GetConditionByType (init_conditions now exposed sc) t = Some c.
Proof.
  unfold init_conditions. revert sc.
  induction exposed as [|ct l IH]; intros sc Hc; simpl; [done|].
  apply IH. destruct (GetConditionByType sc ct) eqn:E; [done|].
  rewrite SetConditions_get_other; [done|]. csimpl. intros ->%list_elem_of_singleton.
  congruence.
Qed.
#[export] Hint Resolve SetConditions_nodup : greenhouse.

Lemma get_SetConditions now sc c t :
  GetConditionByType (SetConditions now sc [c]) t =
  if bool_decide (t = CondType c) then
    Some (set_ltt (match GetConditionByType sc t with
                   | Some d => if bool_decide (CondStatus d = CondStatus c)
                               then LastTransitionTime d
                               else LastTransitionTime (stamped now c)
                   | None => LastTransitionTime (stamped now c)
                   end) c)
  else GetConditionByType sc t.
Proof.
  rewrite SetConditions_cons. unfold SetConditions. simpl.
  case_bool_decide as Ht; [|apply get_set_condition_ne; by rewrite stamped_type].
  subst t. rewrite <-(stamped_type now c), get_set_condition_eq, stamped_type.
  f_equal. destruct (GetConditionByType sc (CondType c)) as [d|] eqn:Hd; simpl.
  - apply get_condition_type in Hd. rewrite Equal_stamped.
    assert (CondStatus (stamped now c) = CondStatus c) as ->
      by (unfold stamped; by destruct (LastTransitionTime c)).
    destruct (Equal d c) eqn:E.
    + apply Equal_true in E as (?&Es&?&?). rewrite bool_decide_eq_true_2 by done.
      destruct c, d; simpl in *; by simplify_eq.
    + unfold stamped. case_bool_decide; destruct c as [? ? ? [|] ?]; done.
  - unfold stamped. by destruct c as [? ? ? [|] ?].
Qed.

(** ** Properties *)

(** [SetConditions] with one condition changes exactly the entry of its
    type: reading any other type back gives what was there, reading its own
    type gives the new status, reason and message, with the transition time of
    the old entry when the status did not change and the given (or, when unset,
    the current) time when it did. *)
Theorem SetConditions_get now sc c t :
  GetConditionByType (SetConditions now sc [c]) t =
  if bool_decide (t = CondType c) then
    Some (set_ltt (match GetConditionByType sc t with
                   | Some d => if bool_decide (CondStatus d = CondStatus c)
                               then LastTransitionTime d
                               else LastTransitionTime (stamped now c)
                   | None => LastTransitionTime (stamped now c)
                   end) c)
  else GetConditionByType sc t.
Proof. apply get_SetConditions. Qed.

(** The condition list stays a map: if no type occurs twice, no type
    occurs twice after [SetConditions], and the types present are those present
    before together with those set. *)
Theorem SetConditions_is_map now sc l :
  NoDup (CondType <$> sc) ->
  NoDup (CondType <$> SetConditions now sc l) /\
  forall t, t ∈ CondType <$> SetConditions now sc l <->
            t ∈ CondType <$> sc \/ t ∈ CondType <$> l.
Proof. intros H. split; [auto with greenhouse|]. intros t. apply SetConditions_types. Qed.

Lemma SetConditions_is_map_witness :
  NoDup (CondType <$> SetConditions 7 [UnknownCondition 1 ReadyCondition "" ""]
           [TrueCondition 7 ReadyCondition "" "ready"; FalseCondition 7 DeleteCondition "" ""]).
Proof. apply SetConditions_is_map. vm_compute. apply NoDup_singleton. Defined.

(** Setting the same conditions (of distinct types) a second time, at any
    later time, leaves the status exactly as it is: a reconciliation that
    computes the same conditions produces no status change. *)
Theorem SetConditions_idempotent now now' sc l :
  NoDup (CondType <$> l) ->
  SetConditions now' (SetConditions now sc l) l = SetConditions now sc l.
Proof.
  intros Hl.
  assert (forall l' sc', (forall c, c ∈ l' -> exists d,
            GetConditionByType sc' (CondType c) = Some d /\ Equal d c = true) ->
          SetConditions now' sc' l' = sc') as Hid.
  { induction l' as [|c l' IH]; intros sc' H; [done|].
    rewrite SetConditions_cons.
    destruct (H c) as (d & Hd & E); [set_solver|].
    rewrite (set_condition_id _ _ d); [|by rewrite stamped_type|by rewrite Equal_stamped].
    apply IH. set_solver. }
  apply Hid. intros c Hc. by apply SetConditions_get_in.
Qed.

Lemma SetConditions_idempotent_witness :
  SetConditions 9 (SetConditions 7 [UnknownCondition 1 ReadyCondition "" ""]
                     [TrueCondition 7 ReadyCondition "" "ready"])
    [TrueCondition 7 ReadyCondition "" "ready"] =
  SetConditions 7 [UnknownCondition 1 ReadyCondition "" ""]
    [TrueCondition 7 ReadyCondition "" "ready"].
Proof. apply SetConditions_idempotent. vm_compute. apply NoDup_singleton. Defined.
