(* ===== verification/Meta.v ===== *)
(** * Meta: object metadata and the interface of API objects

    [metav1.ObjectMeta] with the fields the code reads or writes, object keys,
    and the type class [Object] for controller-runtime's [client.Object].  A
    nil map and an empty map behave alike everywhere in the modelled code, so
    labels and annotations are finite maps.  The constants are those of
    [api/well_known.go]. *)
From S2P Require Import Prelude Conditions.

Abbreviation strmap := (gmap string string).

Record OwnerReference := mk_ref {
  ref_kind : string;
  ref_name : string;
  ref_uid : string;
  ref_controller : bool
}.
#[export] Instance OwnerReference_eq_dec : EqDecision OwnerReference.
Proof. solve_decision. Defined.

Record ObjectMeta := mk_meta {
  om_name : string;
  om_namespace : string;
  om_uid : string;
  om_generation : Z;
  om_labels : strmap;
  om_annotations : strmap;
  om_finalizers : list string;
  om_owners : list OwnerReference;
  om_deletion : time
}.
#[export] Instance ObjectMeta_eq_dec : EqDecision ObjectMeta.
Proof. solve_decision. Defined.

(** [metav1.ObjectMeta{Name: name, Namespace: namespace}] *)
Definition named (name namespace : string) : ObjectMeta :=
  mk_meta name namespace "" 0 ∅ ∅ [] [] None.

Definition with_labels (l : strmap) (m : ObjectMeta) : ObjectMeta :=
  mk_meta (om_name m) (om_namespace m) (om_uid m) (om_generation m) l
    (om_annotations m) (om_finalizers m) (om_owners m) (om_deletion m).
Definition with_annotations (a : strmap) (m : ObjectMeta) : ObjectMeta :=
  mk_meta (om_name m) (om_namespace m) (om_uid m) (om_generation m) (om_labels m)
    a (om_finalizers m) (om_owners m) (om_deletion m).
Definition with_finalizers (f : list string) (m : ObjectMeta) : ObjectMeta :=
  mk_meta (om_name m) (om_namespace m) (om_uid m) (om_generation m) (om_labels m)
    (om_annotations m) f (om_owners m) (om_deletion m).
Definition with_owners (o : list OwnerReference) (m : ObjectMeta) : ObjectMeta :=
  mk_meta (om_name m) (om_namespace m) (om_uid m) (om_generation m) (om_labels m)
    (om_annotations m) (om_finalizers m) o (om_deletion m).
Definition with_deletion (d : time) (m : ObjectMeta) : ObjectMeta :=
  mk_meta (om_name m) (om_namespace m) (om_uid m) (om_generation m) (om_labels m)
    (om_annotations m) (om_finalizers m) (om_owners m) d.

(** [types.NamespacedName] *)
Record objkey := mk_key { key_namespace : string; key_name : string }.
#[export] Instance objkey_eq_dec : EqDecision objkey.
Proof. solve_decision. Defined.
#[export] Instance objkey_countable : Countable objkey.
Proof.
  refine (inj_countable' (fun k => (key_namespace k, key_name k))
            (fun p => mk_key p.1 p.2) _).
  by intros [].
Defined.

(** [client.Object]: access to the metadata. *)
Class Object (O : Type) := {
  get_meta : O -> ObjectMeta;
  set_meta : ObjectMeta -> O -> O
}.
Class ObjectLaws (O : Type) `{Object O} := {
  get_set_meta m (o : O) : get_meta (set_meta m o) = m;
  set_get_meta (o : O) : set_meta (get_meta o) o = o;
  set_set_meta m m' (o : O) : set_meta m (set_meta m' o) = set_meta m o
}.

Section object.
Context {O : Type} `{Object O}.
Definition GetName (o : O) : string := om_name (get_meta o).
Definition GetNamespace (o : O) : string := om_namespace (get_meta o).
Definition GetLabels (o : O) : strmap := om_labels (get_meta o).
Definition GetAnnotations (o : O) : strmap := om_annotations (get_meta o).
Definition GetDeletionTimestamp (o : O) : time := om_deletion (get_meta o).
Definition SetLabels (l : strmap) (o : O) : O := set_meta (with_labels l (get_meta o)) o.
Definition SetAnnotations (a : strmap) (o : O) : O :=
  set_meta (with_annotations a (get_meta o)) o.
(** [client.ObjectKeyFromObject] *)
Definition key_of (o : O) : objkey := mk_key (GetNamespace o) (GetName o).

Context `{!ObjectLaws O}.
Lemma GetLabels_SetLabels l o : GetLabels (SetLabels l o) = l.
Proof. unfold GetLabels, SetLabels. by rewrite get_set_meta. Qed.
Lemma GetLabels_SetAnnotations a o : GetLabels (SetAnnotations a o) = GetLabels o.
Proof. unfold GetLabels, SetAnnotations. by rewrite get_set_meta. Qed.
Lemma GetAnnotations_SetAnnotations a o : GetAnnotations (SetAnnotations a o) = a.
Proof. unfold GetAnnotations, SetAnnotations. by rewrite get_set_meta. Qed.
Lemma GetAnnotations_SetLabels l o : GetAnnotations (SetLabels l o) = GetAnnotations o.
Proof. unfold GetAnnotations, SetLabels. by rewrite get_set_meta. Qed.
Lemma key_of_SetLabels l o : key_of (SetLabels l o) = key_of o.
Proof. unfold key_of, GetNamespace, GetName, SetLabels. by rewrite get_set_meta. Qed.
Lemma key_of_SetAnnotations a o : key_of (SetAnnotations a o) = key_of o.
Proof. unfold key_of, GetNamespace, GetName, SetAnnotations. by rewrite get_set_meta. Qed.
End object.
Create Rewrite HintDb object.
#[export] Hint Rewrite @GetLabels_SetLabels @GetLabels_SetAnnotations
  @GetAnnotations_SetAnnotations @GetAnnotations_SetLabels
  @key_of_SetLabels @key_of_SetAnnotations using apply _ : object.

(** [lifecycle.RuntimeObject] ([pkg/lifecycle/reconcile.go]): what the generic
    reconciliation pass asks of a resource type. *)
Class RuntimeObject (O : Type) `{Object O} := {
  GetConditions : O -> StatusConditions;
  SetCondition : Z -> Condition -> O -> O;
  RemoveCondition : string -> O -> O;
  CanBeSuspended : O -> bool;
  (** the [LastReconciledAtSetter] interface, for the types that have it *)
  UpdateLastReconciledAtStatus : option (string -> O -> O)
}.
(** What the lifecycle relies on of a resource type. *)
Class RuntimeObjectLaws (O : Type) `{RuntimeObject O} := {
  GetConditions_SetCondition now c (o : O) :
    GetConditions (SetCondition now c o) = SetConditions now (GetConditions o) [c];
  GetConditions_RemoveCondition t (o : O) :
    GetConditions (RemoveCondition t o) = remove_condition t (GetConditions o);
  get_meta_SetCondition now c (o : O) : get_meta (SetCondition now c o) = get_meta o;
  get_meta_RemoveCondition t (o : O) : get_meta (RemoveCondition t o) = get_meta o;
  GetConditions_set_meta m (o : O) : GetConditions (set_meta m o) = GetConditions o;
  LastReconciledAt_conditions f v (o : O) :
    UpdateLastReconciledAtStatus = Some f -> GetConditions (f v o) = GetConditions o;
  LastReconciledAt_meta f v (o : O) :
    UpdateLastReconciledAtStatus = Some f -> get_meta (f v o) = get_meta o
}.


(** ** Constants of [api/well_known.go] *)
Definition LabelKeyPluginPreset : string := "greenhouse.sap/pluginpreset".
Definition LabelKeyPlugin : string := "greenhouse.sap/plugin".
Definition LabelKeyPluginDefinition : string := "greenhouse.sap/plugindefinition".
Definition LabelKeyClusterPluginDefinition : string := "greenhouse.sap/clusterplugindefinition".
Definition LabelKeyCluster : string := "greenhouse.sap/cluster".
Definition LabelKeyOwnedBy : string := "greenhouse.sap/owned-by".
Definition LabelKeyMetadataPrefix : string := "metadata.greenhouse.sap/".
Definition LabelKeyPluginIntegration : string := "greenhouse.sap/integration".
Definition LabelValuePluginIntegration : string := "true".
Definition AnnotationKeyPluginTackingID : string := "greenhouse.sap/tracking-id".
Definition LabelKeyRoleBinding : string := "greenhouse.sap/rolebinding".
Definition LabelKeyRole : string := "greenhouse.sap/role".
Definition RBACPrefix : string := "greenhouse:".
Definition DeletionPolicyRetain : string := "Retain".
Definition DeletionPolicyDelete : string := "Delete".
Definition LabelKeySupportGroup : string := "greenhouse.sap/support-group".
