(* ===== verification/CoreTypes.v ===== *)
(** * CoreTypes: objects of [core/v1] and [rbac/v1] that several parts write

    Only the fields the code reads or writes.  The names are those of Kubernetes' Go
    packages; the constants that of [rbac/v1]. *)
From S2P Require Import Prelude Conditions Meta.

Record ServiceAccount := mk_sa { sa_meta : ObjectMeta }.
#[export] Instance ServiceAccount_eq_dec : EqDecision ServiceAccount.
Proof. solve_decision. Defined.
#[export] Instance ServiceAccount_object : Object ServiceAccount := {|
  get_meta := sa_meta; set_meta m _ := mk_sa m |}.
#[export] Instance ServiceAccount_object_laws : ObjectLaws ServiceAccount.
Proof. by split; intros; repeat match goal with o : ServiceAccount |- _ => destruct o end. Qed.
Record Namespace := mk_namespace { ns_meta : ObjectMeta }.
#[export] Instance Namespace_eq_dec : EqDecision Namespace.
Proof. solve_decision. Defined.
#[export] Instance Namespace_object : Object Namespace := {|
  get_meta := ns_meta; set_meta m _ := mk_namespace m |}.
#[export] Instance Namespace_object_laws : ObjectLaws Namespace.
Proof. by split; intros; repeat match goal with o : Namespace |- _ => destruct o end. Qed.

(** ** Access

    A selector requirement is its serialised form. *)
Record LabelSelector := mk_label_selector { MatchLabels : strmap; MatchExpressions : list string }.
#[export] Instance LabelSelector_eq_dec : EqDecision LabelSelector.
Proof. solve_decision. Defined.
Record AggregationRule := mk_aggregation { ClusterRoleSelectors : list LabelSelector }.
#[export] Instance AggregationRule_eq_dec : EqDecision AggregationRule.
Proof. solve_decision. Defined.
Record PolicyRule := mk_rule {
  pr_APIGroups : list string; pr_Resources : list string; pr_Verbs : list string;
  pr_ResourceNames : list string }.
#[export] Instance PolicyRule_eq_dec : EqDecision PolicyRule.
Proof. solve_decision. Defined.
Record ClusterRole := mk_cluster_role {
  cr_meta : ObjectMeta; cr_Rules : list PolicyRule; cr_AggregationRule : option AggregationRule }.
#[export] Instance ClusterRole_eq_dec : EqDecision ClusterRole.
Proof. solve_decision. Defined.
#[export] Instance ClusterRole_object : Object ClusterRole := {|
  get_meta := cr_meta;
  set_meta m o := mk_cluster_role m (cr_Rules o) (cr_AggregationRule o) |}.
#[export] Instance ClusterRole_object_laws : ObjectLaws ClusterRole.
Proof. by split; intros; repeat match goal with o : ClusterRole |- _ => destruct o end. Qed.
Record RbacSubject := mk_rbac_subject {
  rs_APIGroup : string; rs_Kind : string; rs_Name : string; rs_Namespace : string }.
#[export] Instance RbacSubject_eq_dec : EqDecision RbacSubject.
Proof. solve_decision. Defined.
(** A role reference: API group, kind, name. *)
Record ClusterRoleBinding := mk_crb {
  crb_meta : ObjectMeta; crb_Subjects : list RbacSubject; crb_RoleRef : string * string * string }.
#[export] Instance ClusterRoleBinding_eq_dec : EqDecision ClusterRoleBinding.
Proof. solve_decision. Defined.
#[export] Instance ClusterRoleBinding_object : Object ClusterRoleBinding := {|
  get_meta := crb_meta; set_meta m o := mk_crb m (crb_Subjects o) (crb_RoleRef o) |}.
#[export] Instance ClusterRoleBinding_object_laws : ObjectLaws ClusterRoleBinding.
Proof. by split; intros; repeat match goal with o : ClusterRoleBinding |- _ => destruct o end. Qed.
Definition rbacv1_GroupName : string := "rbac.authorization.k8s.io".
Definition rbacv1_GroupKind : string := "Group".
Definition rbacv1_ServiceAccountKind : string := "ServiceAccount".

Record Role := mk_role { role_meta : ObjectMeta; role_Rules : list PolicyRule }.
#[export] Instance Role_eq_dec : EqDecision Role.
Proof. solve_decision. Defined.
#[export] Instance Role_object : Object Role := {|
  get_meta := role_meta; set_meta m o := mk_role m (role_Rules o) |}.
#[export] Instance Role_object_laws : ObjectLaws Role.
Proof. by split; intros; repeat match goal with o : Role |- _ => destruct o end. Qed.
Record RoleBinding := mk_role_binding {
  rb_meta : ObjectMeta; rb_RoleRef : string * string * string; rb_Subjects : list RbacSubject }.
#[export] Instance RoleBinding_eq_dec : EqDecision RoleBinding.
Proof. solve_decision. Defined.
#[export] Instance RoleBinding_object : Object RoleBinding := {|
  get_meta := rb_meta; set_meta m o := mk_role_binding m (rb_RoleRef o) (rb_Subjects o) |}.
#[export] Instance RoleBinding_object_laws : ObjectLaws RoleBinding.
Proof. by split; intros; repeat match goal with o : RoleBinding |- _ => destruct o end. Qed.
