(* ===== verification/ApiTypes.v ===== *)
(** * ApiTypes: the Greenhouse resources of the access-control side

    [Team], [TeamRole], [Cluster] ([api/v1alpha1]) and [TeamRoleBinding]
    ([api/v1alpha2]) with the methods of their Go types, and the instances of
    [Object] and [RuntimeObject] for them.  Kubernetes types that Greenhouse
    only passes through (label selectors of specs) are abstract strings
    standing for their serialised form. *)
From S2P Require Import Prelude Conditions Meta CoreTypes.

(** ** Team *)
Record User := mk_user { user_ID : string; FirstName : string; LastName : string; Email : string }.
#[export] Instance User_eq_dec : EqDecision User.
Proof. solve_decision. Defined.

Record TeamSpec := mk_team_spec {
  team_Description : string; MappedIDPGroup : string; JoinURL : string }.
#[export] Instance TeamSpec_eq_dec : EqDecision TeamSpec.
Proof. solve_decision. Defined.
Record TeamStatus := mk_team_status {
  team_conditions : StatusConditions; Members : list User }.
#[export] Instance TeamStatus_eq_dec : EqDecision TeamStatus.
Proof. solve_decision. Defined.
Record Team := mk_team { team_meta : ObjectMeta; team_Spec : TeamSpec; team_Status : TeamStatus }.
#[export] Instance Team_eq_dec : EqDecision Team.
Proof. solve_decision. Defined.

#[export] Instance Team_object : Object Team := {|
  get_meta := team_meta;
  set_meta m o := mk_team m (team_Spec o) (team_Status o) |}.
#[export] Instance Team_object_laws : ObjectLaws Team.
Proof. by split; intros; repeat match goal with o : Team |- _ => destruct o end. Qed.

Definition team_set_conditions (sc : StatusConditions) (o : Team) : Team :=
  mk_team (team_meta o) (team_Spec o) (mk_team_status sc (Members (team_Status o))).
#[export] Instance Team_runtime : RuntimeObject Team := {|
  GetConditions o := team_conditions (team_Status o);
  SetCondition now c o :=
    team_set_conditions (SetConditions now (team_conditions (team_Status o)) [c]) o;
  RemoveCondition t o :=
    team_set_conditions (remove_condition t (team_conditions (team_Status o))) o;
  CanBeSuspended _ := false;
  UpdateLastReconciledAtStatus := None |}.
#[export] Instance Team_runtime_laws : RuntimeObjectLaws Team.
Proof. by split. Qed.

(** ** TeamRole *)
Record TeamRoleSpec := mk_team_role_spec {
  tr_Rules : list PolicyRule;
  tr_AggregationRule : option AggregationRule;
  tr_Labels : strmap
}.
#[export] Instance TeamRoleSpec_eq_dec : EqDecision TeamRoleSpec.
Proof. solve_decision. Defined.
Record TeamRole := mk_team_role { tr_meta : ObjectMeta; tr_Spec : TeamRoleSpec }.
#[export] Instance TeamRole_eq_dec : EqDecision TeamRole.
Proof. solve_decision. Defined.
#[export] Instance TeamRole_object : Object TeamRole := {|
  get_meta := tr_meta; set_meta m o := mk_team_role m (tr_Spec o) |}.
#[export] Instance TeamRole_object_laws : ObjectLaws TeamRole.
Proof. by split; intros; repeat match goal with o : TeamRole |- _ => destruct o end. Qed.
(** [TeamRole.GetRBACName] *)
Definition TeamRole_GetRBACName (tr : TeamRole) : string := RBACPrefix +:+ GetName tr.

(** ** Cluster *)
Record NodeStatus := mk_node_status {
  node_Name : string; node_Message : string; node_LastTransitionTime : time }.
#[export] Instance NodeStatus_eq_dec : EqDecision NodeStatus.
Proof. solve_decision. Defined.
Record Nodes := mk_nodes { nodes_Total : Z; nodes_Ready : Z; nodes_NotReady : list NodeStatus }.
#[export] Instance Nodes_eq_dec : EqDecision Nodes.
Proof. solve_decision. Defined.
Record ClusterSpec := mk_cluster_spec { AccessMode : string; MaxTokenValidity : Z }.
#[export] Instance ClusterSpec_eq_dec : EqDecision ClusterSpec.
Proof. solve_decision. Defined.
Record ClusterStatus := mk_cluster_status {
  KubernetesVersion : string;
  BearerTokenExpirationTimestamp : time;
  cluster_conditions : StatusConditions;
  cluster_Nodes : option Nodes
}.
#[export] Instance ClusterStatus_eq_dec : EqDecision ClusterStatus.
Proof. solve_decision. Defined.
Record Cluster := mk_cluster {
  cluster_meta : ObjectMeta; cluster_Spec : ClusterSpec; cluster_Status : ClusterStatus }.
#[export] Instance Cluster_eq_dec : EqDecision Cluster.
Proof. solve_decision. Defined.
#[export] Instance Cluster_object : Object Cluster := {|
  get_meta := cluster_meta;
  set_meta m o := mk_cluster m (cluster_Spec o) (cluster_Status o) |}.
#[export] Instance Cluster_object_laws : ObjectLaws Cluster.
Proof. by split; intros; repeat match goal with o : Cluster |- _ => destruct o end. Qed.

Definition cluster_set_conditions (sc : StatusConditions) (o : Cluster) : Cluster :=
  let s := cluster_Status o in
  mk_cluster (cluster_meta o) (cluster_Spec o)
    (mk_cluster_status (KubernetesVersion s) (BearerTokenExpirationTimestamp s) sc
       (cluster_Nodes s)).
#[export] Instance Cluster_runtime : RuntimeObject Cluster := {|
  GetConditions o := cluster_conditions (cluster_Status o);
  SetCondition now c o :=
    cluster_set_conditions (SetConditions now (cluster_conditions (cluster_Status o)) [c]) o;
  RemoveCondition t o :=
    cluster_set_conditions (remove_condition t (cluster_conditions (cluster_Status o))) o;
  CanBeSuspended _ := false;
  UpdateLastReconciledAtStatus := None |}.
#[export] Instance Cluster_runtime_laws : RuntimeObjectLaws Cluster.
Proof. by split. Qed.

Definition ServiceProxyDisabledKey : string := "greenhouse.sap/service-proxy-disabled".
Definition MaxTokenValidityDefault : Z := 72.

(** [strings.ToLower] on one byte; only ASCII letters matter for the
    comparison with an ASCII word. *)
Definition lower_ascii (c : Ascii.ascii) : Ascii.ascii :=
  let n := Ascii.nat_of_ascii c in
  if (65 <=? n)%nat && (n <=? 90)%nat then Ascii.ascii_of_nat (n + 32) else c.
Fixpoint ToLower (s : string) : string :=
  match s with EmptyString => EmptyString | String c s' => String (lower_ascii c) (ToLower s') end.

(** [Cluster.ExposedServicesEnabled]; [None] is the nil receiver. *)
Definition ExposedServicesEnabled (c : option Cluster) : bool :=
  match c with
  | None => false
  | Some c =>
      if bool_decide (GetAnnotations c = ∅) then true
      else match GetAnnotations c !! ServiceProxyDisabledKey with
           | None => true
           | Some v => negb (bool_decide (ToLower v = "true"))
           end
  end.

Definition SetDefaultTokenValidityIfNeeded (c : Cluster) : Cluster :=
  if negb (bool_decide (MaxTokenValidity (cluster_Spec c) = 0%Z)) then c
  else mk_cluster (cluster_meta c)
         (mk_cluster_spec (AccessMode (cluster_Spec c)) MaxTokenValidityDefault)
         (cluster_Status c).

(** ** TeamRoleBinding *)
Record ClusterSelector := mk_cluster_selector {
  cs_Name : string;
  cs_LabelSelector : string   (* metav1.LabelSelector *)
}.
#[export] Instance ClusterSelector_eq_dec : EqDecision ClusterSelector.
Proof. solve_decision. Defined.
Record TeamRoleBindingSpec := mk_trb_spec {
  TeamRoleRef : string;
  TeamRef : string;
  TeamRefs : list string;
  Usernames : list string;
  trb_ClusterSelector : ClusterSelector;
  Namespaces : list string;
  CreateNamespaces : bool
}.
#[export] Instance TeamRoleBindingSpec_eq_dec : EqDecision TeamRoleBindingSpec.
Proof. solve_decision. Defined.
Record PropagationStatus := mk_ps { ClusterName : string; ps_Condition : Condition }.
#[export] Instance PropagationStatus_eq_dec : EqDecision PropagationStatus.
Proof. solve_decision. Defined.

Record TeamRoleBindingStatus := mk_trb_status {
  trb_conditions : StatusConditions;
  trb_propagation : list PropagationStatus
}.
#[export] Instance TeamRoleBindingStatus_eq_dec : EqDecision TeamRoleBindingStatus.
Proof. solve_decision. Defined.
Record TeamRoleBinding := mk_trb {
  trb_meta : ObjectMeta;
  trb_Spec : TeamRoleBindingSpec;
  trb_Status : TeamRoleBindingStatus
}.
#[export] Instance TeamRoleBinding_eq_dec : EqDecision TeamRoleBinding.
Proof. solve_decision. Defined.
#[export] Instance TRB_object : Object TeamRoleBinding := {|
  get_meta := trb_meta;
  set_meta m o := mk_trb m (trb_Spec o) (trb_Status o) |}.
#[export] Instance TRB_object_laws : ObjectLaws TeamRoleBinding.
Proof. by split; intros; repeat match goal with o : TeamRoleBinding |- _ => destruct o end. Qed.

Definition trb_set_conditions (sc : StatusConditions) (o : TeamRoleBinding) : TeamRoleBinding :=
  mk_trb (trb_meta o) (trb_Spec o) (mk_trb_status sc (trb_propagation (trb_Status o))).
Definition trb_set_propagation (ps : list PropagationStatus) (o : TeamRoleBinding)
    : TeamRoleBinding :=
  mk_trb (trb_meta o) (trb_Spec o) (mk_trb_status (trb_conditions (trb_Status o)) ps).

#[export] Instance TRB_runtime : RuntimeObject TeamRoleBinding := {|
  GetConditions o := trb_conditions (trb_Status o);
  SetCondition now c o :=
    trb_set_conditions (SetConditions now (trb_conditions (trb_Status o)) [c]) o;
  RemoveCondition t o :=
    trb_set_conditions (remove_condition t (trb_conditions (trb_Status o))) o;
  CanBeSuspended _ := false;
  UpdateLastReconciledAtStatus := None |}.
#[export] Instance TRB_runtime_laws : RuntimeObjectLaws TeamRoleBinding.
Proof. by split. Qed.

Definition RBACReady : string := "RBACReady".
Definition RBACReconciled : string := "RBACReconciled".
Definition RBACReconcileFailed : string := "RBACReconcileFailed".
Definition EmptyClusterList : string := "EmptyClusterList".
Definition TeamNotFound : string := "TeamNotFound".
Definition TeamRoleNotFound : string := "TeamRoleNotFound".
Definition ClusterConnectionFailed : string := "ClusterConnectionFailed".
Definition ClusterRoleFailed : string := "ClusterRoleFailed".
Definition RoleBindingFailed : string := "RoleBindingFailed".

(** The loop of [SetPropagationStatus]: the first entry of the cluster gets the
    condition, with its old transition time when the status did not change. *)
Fixpoint set_propagation (cluster : string) (c : Condition) (l : list PropagationStatus)
    : list PropagationStatus :=
  match l with
  | [] => [mk_ps cluster c]
  | ps :: l' =>
      if negb (bool_decide (ClusterName ps = cluster)) then ps :: set_propagation cluster c l'
      else mk_ps (ClusterName ps)
             (if bool_decide (CondStatus (ps_Condition ps) = CondStatus c)
              then set_ltt (LastTransitionTime (ps_Condition ps)) c else c) :: l'
  end.
Definition SetPropagationStatus (now : Z) (cluster rbacReady reason message : string)
    (trb : TeamRoleBinding) : TeamRoleBinding :=
  trb_set_propagation
    (set_propagation cluster (NewCondition now RBACReady rbacReady reason message)
       (trb_propagation (trb_Status trb))) trb.
Definition RemovePropagationStatus (cluster : string) (trb : TeamRoleBinding)
    : TeamRoleBinding :=
  trb_set_propagation
    (delete_func (fun ps => bool_decide (ClusterName ps = cluster))
       (trb_propagation (trb_Status trb))) trb.
(** [TeamRoleBinding.GetRBACName] *)
Definition GetRBACName (trb : TeamRoleBinding) : string := RBACPrefix +:+ GetName trb.
