(* ===== verification/Lifecycle.v ===== *)
(** * Lifecycle: [pkg/lifecycle/reconcile.go] and [pkg/lifecycle/context.go]

    The generic reconciliation pass every Greenhouse controller runs.  A
    controller is a [Reconciler]: three callbacks over the calls [E] of its own.
    [Reconcile] adds the calls of [lifecycleE]: reading the object, updating it
    and patching its status.  The finalizer functions of controller-runtime's
    [controllerutil] are the parameter [FinalizerOps], with their documented
    behaviour as the laws [FinalizerLaws].

    The object a callback mutates through its pointer is passed and returned
    explicitly; the copy [createContextFromRuntimeObject] stores in the context
    is the value [original]. *)
From S2P Require Import Prelude Effects Conditions Meta ApiTypes.

(** controller-runtime's finalizer helpers, on the finalizer list. *)
Class FinalizerOps := {
  ContainsFinalizer : list string -> string -> bool;
  AddFinalizer : list string -> string -> list string * bool;
  RemoveFinalizer : list string -> string -> list string * bool
}.
Class FinalizerLaws `{FinalizerOps} := {
  contains_add f l : ContainsFinalizer (AddFinalizer l f).1 f = true;
  contains_remove f l : ContainsFinalizer (RemoveFinalizer l f).1 f = false;
  add_changed f l : (AddFinalizer l f).2 = negb (ContainsFinalizer l f);
  remove_changed f l : (RemoveFinalizer l f).2 = ContainsFinalizer l f
}.

Definition CreatedReason : string := "Created".
Definition PendingCreationReason : string := "PendingCreation".
Definition FailingCreationReason : string := "FailingCreation".
Definition PendingDeletionReason : string := "PendingDeletion".
Definition FailingDeletionReason : string := "FailingDeletion".
Definition DeletedReason : string := "Deleted".
Definition CommonCleanupFinalizer : string := "greenhouse.sap/cleanup".
Definition SuspendAnnotation : string := "greenhouse.sap/suspend".
Definition ReconcileAnnotation : string := "greenhouse.sap/reconcile".

Inductive ReconcileResult := Success | Failed | Pending.

(** [ctrl.Result] *)
Record ctrl_result := mk_ctrl_result { Requeue : bool; RequeueAfter : Z }.
Definition ctrl_done : ctrl_result := mk_ctrl_result false 0.
(** What [EnsureCreated] and [EnsureDeleted] answer. *)
Definition cb_result := (ctrl_result * ReconcileResult * option error)%type.
Definition cb_ok : cb_result := (ctrl_done, Success, None).
Definition cb_failed (e : error) : cb_result := (ctrl_done, Failed, Some e).

Inductive lifecycleE (O : Type) : Type -> Type :=
| KGet (k : objkey) : lifecycleE O (result O)
| KUpdate (o : O) : lifecycleE O (option error)
| KPatchStatus (newObject oldObject : O) : lifecycleE O (option error).
Arguments KGet {O} k.
Arguments KUpdate {O} o.
Arguments KPatchStatus {O} newObject oldObject.

(** [Reconciler]: the callbacks return the object they mutated. *)
Record Reconciler (E : Type -> Type) (O : Type) := mk_reconciler {
  EnsureCreated : O -> prog E (O * (ctrl_result * ReconcileResult * option error));
  EnsureDeleted : O -> prog E (O * (ctrl_result * ReconcileResult * option error));
  EnsureSuspended : O -> prog E (O * (ctrl_result * option error))
}.
Arguments EnsureCreated {E O} _ _.
Arguments EnsureDeleted {E O} _ _.
Arguments EnsureSuspended {E O} _ _.

Section lifecycle.
Context {O : Type} {HObj : Object O} {HRun : RuntimeObject O} {HFin : FinalizerOps}.
Context {E : Type -> Type}.
Variable now : Z.
Local Abbreviation P := (prog (sumE (lifecycleE O) E)).

Definition call_api {X} (e : lifecycleE O X) : P X := trigger (inlE e).
Definition callback {X} (p : prog E X) : P X := translate (fun _ => inrE) p.

Definition has_finalizer (o : O) : bool :=
  ContainsFinalizer (om_finalizers (get_meta o)) CommonCleanupFinalizer.

(** [ensureFinalizer] and [removeFinalizer] *)
Definition ensureFinalizer (o : O) (finalizer : string) : P (option error) :=
  let '(fs, updated) := AddFinalizer (om_finalizers (get_meta o)) finalizer in
  if updated : bool then call_api (KUpdate (set_meta (with_finalizers fs (get_meta o)) o))
  else mret None.
Definition removeFinalizer (o : O) (finalizer : string) : P (option error) :=
  let '(fs, updated) := RemoveFinalizer (om_finalizers (get_meta o)) finalizer in
  if updated : bool then call_api (KUpdate (set_meta (with_finalizers fs (get_meta o)) o))
  else mret None.

Definition isResourceDeleted (o : O) : bool :=
  match GetConditionByType (GetConditions o) DeleteCondition with
  | None => false
  | Some c => IsTrue c && bool_decide (CondReason c = DeletedReason)
  end.

Definition isResourceSuspended (o : O) : bool :=
  match GetAnnotations o !! SuspendAnnotation with Some _ => true | None => false end.

Definition ReconcileAnnotationValue (o : O) : string * bool :=
  match GetAnnotations o !! ReconcileAnnotation with
  | Some v => (v, true)
  | None => ("", false)
  end.

Definition err_text (err : option error) : string :=
  match err with Some e => err_msg e | None => "" end.

Definition setupDeleteState (o : O) (r : ReconcileResult) (err : option error) : O :=
  SetCondition now (match r with
    | Success => TrueCondition now DeleteCondition DeletedReason "resource is successfully deleted"
    | Failed => FalseCondition now DeleteCondition FailingDeletionReason
                  ("resource deletion failed: " +:+ err_text err)
    | Pending => FalseCondition now DeleteCondition PendingDeletionReason
                   "resource deletion is pending"
    end) o.

Definition setupCreateState (o : O) (r : ReconcileResult) (err : option error) : O :=
  SetCondition now (match r with
    | Success => TrueCondition now ReadyCondition CreatedReason "resource is successfully created"
    | Failed => FalseCondition now ReadyCondition FailingCreationReason
                  ("resource creation failed" +:+ err_text err)
    | Pending => UnknownCondition now ReadyCondition PendingCreationReason
                   "resource creation is pending"
    end) o.

(** [patchStatus]: the error of the pass is returned unless the patch fails. *)
Definition patchStatus (newObject original : O) (reconcileError : option error)
    : P (option error) :=
  err ← call_api (KPatchStatus newObject original);
  match err with
  | Some e => mret (Some e)
  | None => mret reconcileError
  end.

Variable reconciler : Reconciler E O.
(** the [Conditioner]; [None] is a nil [statusFunc] *)
Variable statusFunc : option (O -> prog E O).

Definition ensureCreated (o : O) : P (O * (ctrl_result * option error)) :=
  let o := match GetConditionByType (GetConditions o) SuspendedCondition with
           | Some _ => RemoveCondition SuspendedCondition o
           | None => o
           end in
  '(o, (res, r, err)) ← callback (EnsureCreated reconciler o);
  match statusFunc with
  | Some f => o ← callback (f o); mret (o, (res, err))
  | None => mret (setupCreateState o r err, (res, err))
  end.

Definition ensureDeleted (o : O) : P (O * (ctrl_result * option error)) :=
  let o := setupDeleteState o Pending None in
  '(o, (res, r, err)) ← callback (EnsureDeleted reconciler o);
  mret (setupDeleteState o r err, (res, err)).

Definition suspend_condition (err : option error) : Condition :=
  match err with
  | Some e => FalseCondition now SuspendedCondition ResourceSuspensionFailedReason
                ("failed to suspend resource: " +:+ err_msg e)
  | None => TrueCondition now SuspendedCondition ResourceSuspendedReason
              "resource is suspended"
  end.

(** The end of a pass: the last-reconciled value and the status patch. *)
Definition finish (original o : O) (res : ctrl_result) (err : option error)
    : P (ctrl_result * option error) :=
  let o := match UpdateLastReconciledAtStatus with
           | Some f => f (ReconcileAnnotationValue o).1 o
           | None => o
           end in
  err' ← patchStatus o original err;
  mret (res, err').

Definition reconcile_object (o : O) : P (ctrl_result * option error) :=
  let shouldBeDeleted := bool_decide (GetDeletionTimestamp o <> None) in
  let hasFinalizer := has_finalizer o in
  if negb shouldBeDeleted && negb hasFinalizer then
    err ← ensureFinalizer o CommonCleanupFinalizer;
    mret (ctrl_done, err)
  else if isResourceSuspended o && CanBeSuspended o then
    '(o', (res, err)) ← callback (EnsureSuspended reconciler o);
    err' ← patchStatus (SetCondition now (suspend_condition err) o') o err;
    mret (res, err')
  else if shouldBeDeleted then
    if negb hasFinalizer then mret (ctrl_done, None)
    else if isResourceDeleted o then
      err ← removeFinalizer o CommonCleanupFinalizer;
      mret (ctrl_done, ignore_not_found err)
    else
      '(o', (res, err)) ← ensureDeleted o;
      finish o o' res err
  else
    '(o', (res, err)) ← ensureCreated o;
    finish o o' res err.

Definition Reconcile (namespacedName : objkey) : P (ctrl_result * option error) :=
  r ← call_api (KGet namespacedName);
  match r with
  | Err e => mret (ctrl_done, ignore_not_found (Some e))
  | Ok o => reconcile_object o
  end.
End lifecycle.
#[global] Arguments Reconcile {O _ _ _ E} now reconciler statusFunc namespacedName.

(** ** The lifecycle as a state machine

    To speak about the callbacks themselves they become calls: in
    [instrumented] each callback is one call whose answer is arbitrary.  A
    world is what the API server stores for the object together with two
    history bits: whether [EnsureCreated] was ever called ([created]) and
    whether an [EnsureDeleted] call ever answered [Success] ([cleaned]). *)
Inductive callbackE (O : Type) : Type -> Type :=
| CallCreated (o : O) : callbackE O (O * (ctrl_result * ReconcileResult * option error))
| CallDeleted (o : O) : callbackE O (O * (ctrl_result * ReconcileResult * option error))
| CallSuspended (o : O) : callbackE O (O * (ctrl_result * option error))
| CallStatus (o : O) : callbackE O O.
Arguments CallCreated {O} o.
Arguments CallDeleted {O} o.
Arguments CallSuspended {O} o.
Arguments CallStatus {O} o.

Definition instrumented (O : Type) : Reconciler (callbackE O) O :=
  mk_reconciler _ _ (fun o => trigger (CallCreated o)) (fun o => trigger (CallDeleted o))
    (fun o => trigger (CallSuspended o)).
(** with or without a [Conditioner] *)
Definition instrumented_status (O : Type) (given : bool) : option (O -> prog (callbackE O) O) :=
  if given then Some (fun o => trigger (CallStatus o)) else None.

Section state_machine.
Context {O : Type} {HObj : Object O} {HRun : RuntimeObject O}.
Context {HObjLaws : ObjectLaws O} {HRunLaws : RuntimeObjectLaws O}.
Context {HFin : FinalizerOps} {HFinLaws : FinalizerLaws}.

Record world := mk_world { stored : option O; created : bool; cleaned : bool }.

Definition delete_condition (o : O) : option Condition :=
  GetConditionByType (GetConditions o) DeleteCondition.

(** What a controller may not do in a callback: touch the metadata or the
    Delete condition, which belong to the lifecycle. *)
Definition well_behaved (o o' : O) : Prop :=
  get_meta o' = get_meta o /\ delete_condition o' = delete_condition o.

(** An update stores the object, or removes it once it is being deleted and
    nobody holds a finalizer; a status patch changes the conditions only.
    Every call may fail and then changes nothing. *)
Definition api_step (w : world) X (e : sumE (lifecycleE O) (callbackE O) X)
    : X -> world -> Prop :=
  match e with
  | inlE e =>
      match e in lifecycleE _ X return X -> world -> Prop with
      | KGet k => fun r w' =>
          w' = w /\ match r with Ok o => stored w = Some o | Err _ => True end
      | KUpdate o => fun r w' =>
          match r with
          | Some _ => w' = w
          | None => w' = mk_world (Some o) (created w) (cleaned w) \/
                    (has_finalizer o = false /\
                     GetDeletionTimestamp o <> None /\
                     w' = mk_world None (created w) (cleaned w))
          end
      | KPatchStatus n _ => fun r w' =>
          match r with
          | Some _ => w' = w
          | None => exists s s', stored w = Some s /\ get_meta s' = get_meta s /\
              GetConditions s' = GetConditions n /\
              w' = mk_world (Some s') (created w) (cleaned w)
          end
      end
  | inrE e =>
      match e in callbackE _ X return X -> world -> Prop with
      | CallCreated o => fun r w' =>
          well_behaved o r.1 /\ w' = mk_world (stored w) true (cleaned w)
      | CallDeleted o => fun r w' =>
          get_meta r.1 = get_meta o /\
          w' = mk_world (stored w) (created w)
                 (match r.2.1.2 with Success => true | _ => cleaned w end)
      | CallSuspended o => fun r w' => well_behaved o r.1 /\ w' = w
      | CallStatus o => fun r w' => well_behaved o r /\ w' = w
      end
  end.

(** Between two passes users edit the object (not its status, and not the
    finalizer) or delete it; the API server removes it at once when nobody
    holds a finalizer. *)
Inductive user_step : world -> world -> Prop :=
| user_edit o o' c d :
    GetConditions o' = GetConditions o ->
    (has_finalizer o = true -> has_finalizer o' = true) ->
    user_step (mk_world (Some o) c d) (mk_world (Some o') c d)
| user_delete o c d :
    has_finalizer o = false ->
    user_step (mk_world (Some o) c d) (mk_world None c d).

Inductive lifecycle_step : world -> world -> Prop :=
| step_pass now given k a w w' :
    exec api_step (Reconcile now (instrumented O) (instrumented_status O given) k) w a w' ->
    lifecycle_step w w'
| step_user w w' : user_step w w' -> lifecycle_step w w'.

Definition initial (w : world) : Prop :=
  created w = false /\ cleaned w = false /\
  match stored w with Some o => isResourceDeleted o = false | None => True end.

Definition inv (w : world) : Prop :=
  match stored w with
  | Some o => (created w = true -> has_finalizer o = false -> cleaned w = true) /\
              (isResourceDeleted o = true -> cleaned w = true)
  | None => created w = true -> cleaned w = true
  end.

Lemma isResourceDeleted_eq (o o' : O) :
  delete_condition o' = delete_condition o -> isResourceDeleted o' = isResourceDeleted o.
Proof. unfold isResourceDeleted, delete_condition. by intros ->. Qed.

Lemma delete_condition_SetCondition now c (o : O) : CondType c <> DeleteCondition ->
  delete_condition (SetCondition now c o) = delete_condition o.
Proof.
  intros Hc. unfold delete_condition. rewrite GetConditions_SetCondition.
  apply SetConditions_get_other. csimpl. set_solver.
Qed.

Lemma delete_condition_RemoveSuspended (o : O) :
  delete_condition (RemoveCondition SuspendedCondition o) = delete_condition o.
Proof.
  unfold delete_condition. rewrite GetConditions_RemoveCondition.
  by apply get_remove_condition_ne.
Qed.

Lemma isResourceDeleted_setup now (o : O) r err :
  isResourceDeleted (setupDeleteState now o r err) = true -> r = Success.
Proof.
  unfold isResourceDeleted, setupDeleteState. rewrite GetConditions_SetCondition.
  rewrite get_SetConditions. destruct r; simpl; try done;
    rewrite bool_decide_eq_true_2 by done; simpl; case_match; done.
Qed.

Lemma isResourceDeleted_setup_Success now (o : O) err :
  isResourceDeleted (setupDeleteState now o Success err) = true.
Proof.
  unfold isResourceDeleted, setupDeleteState. rewrite GetConditions_SetCondition.
  by rewrite get_SetConditions.
Qed.

Lemma has_finalizer_meta (o o' : O) :
  get_meta o' = get_meta o -> has_finalizer o' = has_finalizer o.
Proof. unfold has_finalizer. by intros ->. Qed.
Local Abbreviation keeps_inv p w := (wp api_step p (fun w' _ => inv w') w).

Lemma patch_inv (n original : O) err w o :
  stored w = Some o -> inv w ->
  (isResourceDeleted n = true -> cleaned w = true) ->
  keeps_inv (patchStatus (E := callbackE O) n original err) w.
Proof.
  intros Ho Hinv Hn. unfold patchStatus, call_api. wp_step. wp_step.
  destruct x as [e|]; simpl in Hx; wp_step; [by subst|].
  destruct Hx as (s & s' & Hs & Hm & Hc & ->). unfold inv in *. simpl.
  rewrite Ho in *. simplify_eq. destruct Hinv as [H1 H2].
  rewrite (has_finalizer_meta _ _ Hm). split; [done|].
  rewrite (isResourceDeleted_eq n s'); [done|].
  unfold delete_condition. by rewrite Hc.
Qed.

Lemma finish_inv (original n : O) res err w o :
  stored w = Some o -> inv w ->
  (isResourceDeleted n = true -> cleaned w = true) ->
  keeps_inv (finish (E := callbackE O) original n res err) w.
Proof.
  intros Ho Hinv Hn. unfold finish. wp_step.
  eapply wp_mono; [|eapply (patch_inv _ _ _ w o); [done..|]].
  { intros w' err' Hw'. by wp_step. }
  destruct UpdateLastReconciledAtStatus as [f|] eqn:Hf; [|done].
  rewrite (isResourceDeleted_eq n); [done|]. unfold delete_condition.
  by rewrite (LastReconciledAt_conditions f).
Qed.

Lemma update_inv (o o' : O) w :
  stored w = Some o -> inv w -> GetConditions o' = GetConditions o ->
  (cleaned w = true \/ has_finalizer o' = true) ->
  keeps_inv (call_api (E := callbackE O) (KUpdate o')) w.
Proof.
  intros Ho Hinv Hc Hf. unfold call_api. wp_step.
  destruct x as [e|]; simpl in Hx; [by subst|].
  unfold inv in Hinv. rewrite Ho in Hinv. destruct Hinv as [H1 H2].
  destruct Hx as [->|(Hn & _ & ->)]; unfold inv; simpl.
  - split; [naive_solver congruence|].
    rewrite (isResourceDeleted_eq o o'); [done|]. unfold delete_condition. by rewrite Hc.
  - naive_solver congruence.
Qed.

Lemma ensureFinalizer_inv (o : O) w :
  stored w = Some o -> inv w ->
  keeps_inv (ensureFinalizer (E := callbackE O) o CommonCleanupFinalizer) w.
Proof.
  intros Ho Hinv. unfold ensureFinalizer.
  pose proof (contains_add CommonCleanupFinalizer (om_finalizers (get_meta o))) as Hadd.
  destruct (AddFinalizer _ _) as [fs [|]]; [|by wp_step].
  eapply update_inv; [done..|by rewrite GetConditions_set_meta|].
  right. unfold has_finalizer. by rewrite get_set_meta.
Qed.

Lemma removeFinalizer_inv (o : O) w :
  stored w = Some o -> inv w -> cleaned w = true ->
  keeps_inv (removeFinalizer (E := callbackE O) o CommonCleanupFinalizer) w.
Proof.
  intros Ho Hinv Hc. unfold removeFinalizer.
  destruct (RemoveFinalizer _ _) as [fs [|]]; [|by wp_step].
  eapply update_inv; [done..|by rewrite GetConditions_set_meta|by left].
Qed.

Lemma ensureDeleted_inv now original (o : O) w :
  stored w = Some original -> inv w ->
  keeps_inv ('(o', (res, err)) ← ensureDeleted now (instrumented O) o;
             finish original o' res err) w.
Proof.
  intros Ho Hinv. unfold ensureDeleted, callback. do 3 wp_step. simpl. wp_step.
  destruct x as [o1 [[res r] err]], Hx as [Hm ->]. simpl in *. wp_step.
  eapply finish_inv; [done| |].
  - unfold inv in *. simpl in *. rewrite Ho in *.
    destruct r; naive_solver.
  - intros Hd. simpl. by apply isResourceDeleted_setup in Hd as ->.
Qed.

Lemma ensureCreated_inv now given (o : O) w :
  stored w = Some o -> inv w -> has_finalizer o = true ->
  keeps_inv ('(o', (res, err)) ←
               ensureCreated now (instrumented O) (instrumented_status O given) o;
             finish o o' res err) w.
Proof.
  intros Ho Hinv Hf. unfold ensureCreated, callback.
  set (o1 := match GetConditionByType (GetConditions o) SuspendedCondition with
             | Some _ => RemoveCondition SuspendedCondition o | None => o end).
  assert (delete_condition o1 = delete_condition o) as Hd1.
  { unfold o1. case_match; [apply delete_condition_RemoveSuspended|done]. }
  do 3 wp_step. simpl. wp_step. destruct x as [o2 [[res r] err]], Hx as [[Hm2 Hd2] ->]. simpl in *.
  assert (inv (mk_world (stored w) true (cleaned w))) as Hinv1.
  { unfold inv in *. simpl in *. rewrite Ho in *. destruct Hinv; split; [congruence|done]. }
  assert (forall o3, delete_condition o3 = delete_condition o2 ->
            keeps_inv (finish (E := callbackE O) o o3 res err)
              (mk_world (stored w) true (cleaned w))) as Hfin.
  { intros o3 Hd3. eapply finish_inv; [done..|]. simpl.
    rewrite (isResourceDeleted_eq o); [|by rewrite Hd3, Hd2].
    unfold inv in Hinv. rewrite Ho in Hinv. tauto. }
  destruct given; simpl.
  - wp_step. destruct Hx as [[Hm3 Hd3] ->]. wp_step. by apply Hfin.
  - wp_step. apply Hfin. unfold setupCreateState. destruct r;
      by rewrite delete_condition_SetCondition.
Qed.

Lemma pass_inv now given k w : inv w ->
  keeps_inv (Reconcile now (instrumented O) (instrumented_status O given) k) w.
Proof.
  intros Hinv. unfold Reconcile, call_api. do 2 wp_step.
  destruct Hx as [-> Hr]. destruct x as [o|e]; [|by wp_step].
  unfold reconcile_object.
  destruct (negb _ && negb _) eqn:Hbr.
  { wp_step. eapply wp_mono; [|by apply ensureFinalizer_inv]. intros ???. by wp_step. }
  destruct (isResourceSuspended o && CanBeSuspended o).
  { unfold callback. do 2 wp_step. cbn [EnsureSuspended instrumented]. wp_step. destruct x as [o1 [res err]], Hx as [[Hm Hd] ->].
    simpl in Hm, Hd. cbn beta iota. wp_step. eapply wp_mono; [|eapply patch_inv; [done..|]].
    - intros ???. by wp_step.
    - rewrite (isResourceDeleted_eq o).
      + unfold inv in Hinv. rewrite Hr in Hinv. tauto.
      + rewrite delete_condition_SetCondition; [done|]. by destruct err. }
  case_bool_decide as Hdel.
  - destruct (has_finalizer o) eqn:Hfin; simpl; [|by wp_step].
    destruct (isResourceDeleted o) eqn:Hrd.
    + wp_step. eapply wp_mono; [|apply removeFinalizer_inv; [done..|]].
      * intros ???. by wp_step.
      * unfold inv in Hinv. rewrite Hr in Hinv. tauto.
    + by apply ensureDeleted_inv.
  - destruct (has_finalizer o) eqn:Hfin; [|done].
    by apply ensureCreated_inv.
Qed.
Lemma user_step_inv w w' : inv w -> user_step w w' -> inv w'.
Proof.
  intros Hinv Hs. unfold inv in *. destruct Hs as [o o' c d Hc Hf|o c d Hf]; simpl in *.
  - rewrite (isResourceDeleted_eq o o') by (unfold delete_condition; by rewrite Hc).
    destruct (has_finalizer o), (has_finalizer o'); naive_solver.
  - naive_solver.
Qed.

Lemma initial_inv w : initial w -> inv w.
Proof. unfold initial, inv. destruct w as [[o|] c d]; simpl; naive_solver congruence. Qed.

Lemma reachable_inv w w' : rtc lifecycle_step w w' -> inv w -> inv w'.
Proof.
  induction 1 as [|w1 w2 w3 Hs _ IH]; [done|]. intros Hinv. apply IH.
  destruct Hs as [now given k a w1 w2 Hex|w1 w2 Hu].
  - by eapply (wp_exec _ _ (fun w _ => inv w)); [apply pass_inv|].
  - by eapply user_step_inv.
Qed.

(** C1: cleanup before release.  Whatever the API server, the users and the
    controller's callbacks answer, over any number of passes: once
    [EnsureCreated] was called, the object is only ever without the cleanup
    finalizer (or gone) after some [EnsureDeleted] call answered [Success]. *)
Theorem cleanup_before_release w0 w :
  initial w0 -> rtc lifecycle_step w0 w -> created w = true ->
  (forall o, stored w = Some o -> has_finalizer o = false) ->
  cleaned w = true.
Proof.
  intros H0 Hsteps Hc Hrel.
  pose proof (reachable_inv _ _ Hsteps (initial_inv _ H0)) as Hinv.
  unfold inv in Hinv. destruct (stored w); naive_solver.
Qed.
End state_machine.
Arguments world O : clear implicits.

(** ** The calls of one pass *)

(** What a pass does with the object it read. *)
Inductive phase :=
| PhFinalizer   (* add the finalizer and stop *)
| PhSuspended   (* suspend, whether or not it is being deleted *)
| PhIgnored     (* being deleted and not ours: do nothing *)
| PhRelease     (* cleaned up: remove the finalizer *)
| PhDeleting
| PhCreating.

(** The callbacks a list of calls contains, in order. *)
Inductive callback_kind := KCreated | KDeleted | KSuspended | KStatus.
Definition callback_of {O} (c : call (sumE (lifecycleE O) (callbackE O))) : list callback_kind :=
  match c with
  | Call (inlE _) _ => []
  | Call (inrE e) _ =>
      match e with
      | CallCreated _ => [KCreated]
      | CallDeleted _ => [KDeleted]
      | CallSuspended _ => [KSuspended]
      | CallStatus _ => [KStatus]
      end
  end.
Definition callbacks {O} (h : list (call (sumE (lifecycleE O) (callbackE O)))) :
  list callback_kind := h ≫= callback_of.

(** The writes a list of calls contains. *)
Inductive write (O : Type) := WUpdate (o : O) | WPatchStatus (newObject : O).
Arguments WUpdate {O} o.
Arguments WPatchStatus {O} newObject.
Definition write_of {O} (c : call (sumE (lifecycleE O) (callbackE O))) : list (write O) :=
  match c with
  | Call (inrE _) _ => []
  | Call (inlE e) _ =>
      match e with
      | KGet _ => []
      | KUpdate o => [WUpdate o]
      | KPatchStatus n _ => [WPatchStatus n]
      end
  end.
Definition writes {O} (h : list (call (sumE (lifecycleE O) (callbackE O)))) : list (write O) :=
  h ≫= write_of.

Section one_pass.
Context {O : Type} {HObj : Object O} {HRun : RuntimeObject O}.
Context {HObjLaws : ObjectLaws O} {HRunLaws : RuntimeObjectLaws O}.
Context {HFin : FinalizerOps} {HFinLaws : FinalizerLaws}.

Definition phase_of (o : O) : phase :=
  match GetDeletionTimestamp o, has_finalizer o with
  | None, false => PhFinalizer
  | d, f =>
      if isResourceSuspended o && CanBeSuspended o then PhSuspended
      else match d with
           | None => PhCreating
           | Some _ => if f then if isResourceDeleted o then PhRelease else PhDeleting
                       else PhIgnored
           end
  end.

(** Every write of a phase is of the kind the phase allows. *)
Definition phase_writes (p : phase) (ws : list (write O)) : Prop :=
  match p with
  | PhFinalizer => exists o, ws = [WUpdate o] /\ has_finalizer o = true
  | PhIgnored => ws = []
  | PhRelease => exists o, ws = [WUpdate o] /\ has_finalizer o = false
  | PhSuspended => exists n c, ws = [WPatchStatus n] /\
      GetConditionByType (GetConditions n) SuspendedCondition = Some c
  | PhDeleting => exists n c, ws = [WPatchStatus n] /\
      GetConditionByType (GetConditions n) DeleteCondition = Some c
  | PhCreating => exists n, ws = [WPatchStatus n]
  end.
Definition phase_callbacks (p : phase) (given : bool) : list callback_kind :=
  match p with
  | PhFinalizer | PhIgnored | PhRelease => []
  | PhSuspended => [KSuspended]
  | PhDeleting => [KDeleted]
  | PhCreating => if given then [KCreated; KStatus] else [KCreated]
  end.

Local Abbreviation pass now given o :=
  (reconcile_object now (instrumented O) (instrumented_status O given) o).
Local Abbreviation traces p Q := (wp (traced any_answer) p Q []).

(** The pass, by phase. *)
Lemma phase_spec {E} now (rec : Reconciler E O) st (o : O) :
  match phase_of o with
  | PhFinalizer => has_finalizer o = false
  | PhRelease => has_finalizer o = true
  | _ => True
  end /\
  reconcile_object now rec st o =
  match phase_of o with
  | PhFinalizer =>
      err ← ensureFinalizer o CommonCleanupFinalizer; mret (ctrl_done, err)
  | PhSuspended =>
      '(o', (res, err)) ← callback (EnsureSuspended rec o);
      err' ← patchStatus (SetCondition now (suspend_condition now err) o') o err;
      mret (res, err')
  | PhIgnored => mret (ctrl_done, None)
  | PhRelease =>
      err ← removeFinalizer o CommonCleanupFinalizer;
      mret (ctrl_done, ignore_not_found err)
  | PhDeleting => '(o', (res, err)) ← ensureDeleted now rec o; finish o o' res err
  | PhCreating => '(o', (res, err)) ← ensureCreated now rec st o; finish o o' res err
  end.
Proof.
  unfold reconcile_object, phase_of.
  case_bool_decide as Hd; destruct (GetDeletionTimestamp o); try done;
    destruct (has_finalizer o); cbn [negb andb]; [..|done];
    destruct (isResourceSuspended o && CanBeSuspended o); try done.
  by destruct (isResourceDeleted o).
Qed.

Local Abbreviation as_phase p given h :=
  (callbacks h = phase_callbacks p given /\ phase_writes p (writes h)).

Lemma pass_finalizer given (o : O) : has_finalizer o = false ->
  traces (err ← ensureFinalizer (E := callbackE O) o CommonCleanupFinalizer;
          mret (ctrl_done, err)) (fun h _ => as_phase PhFinalizer given h).
Proof.
  intros Hf. unfold ensureFinalizer, call_api.
  pose proof (add_changed CommonCleanupFinalizer (om_finalizers (get_meta o))) as Hadd.
  pose proof (contains_add CommonCleanupFinalizer (om_finalizers (get_meta o))) as Hin.
  unfold has_finalizer in Hf. rewrite Hf in Hadd.
  destruct (AddFinalizer _ _) as [fs up]. simpl in *. subst up.
  wp_step. wp_step. destruct Hx as [_ ->]. wp_step. split; [done|].
  eexists; split; [done|]. unfold has_finalizer. by rewrite get_set_meta.
Qed.

Lemma pass_release given (o : O) : has_finalizer o = true ->
  traces (err ← removeFinalizer (E := callbackE O) o CommonCleanupFinalizer;
          mret (ctrl_done, ignore_not_found err)) (fun h _ => as_phase PhRelease given h).
Proof.
  intros Hf. unfold removeFinalizer, call_api.
  pose proof (remove_changed CommonCleanupFinalizer (om_finalizers (get_meta o))) as Hch.
  pose proof (contains_remove CommonCleanupFinalizer (om_finalizers (get_meta o))) as Hin.
  unfold has_finalizer in Hf. rewrite Hf in Hch.
  destruct (RemoveFinalizer _ _) as [fs up]. simpl in *. subst up.
  wp_step. wp_step. destruct Hx as [_ ->]. wp_step. split; [done|].
  eexists; split; [done|]. unfold has_finalizer. by rewrite get_set_meta.
Qed.

Lemma pass_suspended now given (o : O) :
  traces ('(o', (res, err)) ← callback (EnsureSuspended (instrumented O) o);
          err' ← patchStatus (SetCondition now (suspend_condition now err) o') o err;
          mret (res, err')) (fun h _ => as_phase PhSuspended given h).
Proof.
  unfold callback, patchStatus, call_api. do 2 wp_step.
  cbn [EnsureSuspended instrumented]. wp_step. destruct x as [o' [res err]], Hx as [_ ->].
  cbn beta iota. do 3 wp_step. destruct Hx as [_ ->].
  destruct x; do 2 wp_step; (split; [done|]); do 2 eexists; (split; [done|]);
    rewrite GetConditions_SetCondition, get_SetConditions;
    rewrite bool_decide_eq_true_2 by (by destruct err); done.
Qed.

(** What the status patch of a deleting pass says. *)
Lemma setupDeleteState_get now (o : O) r err :
  exists c, GetConditionByType (GetConditions (setupDeleteState now o r err))
              DeleteCondition = Some c.
Proof.
  unfold setupDeleteState. rewrite GetConditions_SetCondition, get_SetConditions.
  rewrite bool_decide_eq_true_2 by (by destruct r). eauto.
Qed.

Lemma wp_finish (original n : O) res err Q h :
  (forall n' perr, GetConditions n' = GetConditions n -> get_meta n' = get_meta n ->
     Q (h ++ [Call (inlE (KPatchStatus n' original)) perr])
       (res, match perr with Some e => Some e | None => err end)) ->
  wp (traced any_answer) (finish (E := callbackE O) original n res err) Q h.
Proof.
  intros HQ. unfold finish, patchStatus, call_api. do 3 wp_step. destruct Hx as [_ ->].
  assert (GetConditions (match UpdateLastReconciledAtStatus with
            | Some f => f (ReconcileAnnotationValue n).1 n | None => n end)
          = GetConditions n /\
          get_meta (match UpdateLastReconciledAtStatus with
            | Some f => f (ReconcileAnnotationValue n).1 n | None => n end)
          = get_meta n) as [Hc Hm].
  { destruct UpdateLastReconciledAtStatus as [f|] eqn:Hf; [|done].
    by rewrite (LastReconciledAt_conditions f), (LastReconciledAt_meta f). }
  destruct x as [e|]; do 2 wp_step; [apply (HQ _ (Some e))|apply (HQ _ None)]; done.
Qed.

(** What a deleting pass does: one [EnsureDeleted] call on the object marked
    as pending, then one status patch. *)
Lemma wp_pass_deleting now (o : O) Q h :
  (forall o' res r err n' perr,
     GetConditions n' = GetConditions (setupDeleteState now o' r err) ->
     Q (h ++ [Call (inrE (CallDeleted (setupDeleteState now o Pending None)))
               (o', (res, r, err));
              Call (inlE (KPatchStatus n' o)) perr])
       (res, match perr with Some e => Some e | None => err end)) ->
  wp (traced any_answer) ('(o', (res, err)) ← ensureDeleted now (instrumented O) o;
          finish (E := callbackE O) o o' res err) Q h.
Proof.
  intros HQ. unfold ensureDeleted, callback. do 3 wp_step.
  cbn [EnsureDeleted instrumented]. wp_step.
  destruct x as [o' [[res r] err]], Hx as [_ ->]. cbn beta iota. wp_step. cbn beta iota.
  apply wp_finish. intros n' perr Hc _. rewrite <-app_assoc. by apply HQ.
Qed.

Lemma pass_deleting now given (o : O) :
  traces ('(o', (res, err)) ← ensureDeleted now (instrumented O) o;
          finish (E := callbackE O) o o' res err) (fun h _ => as_phase PhDeleting given h).
Proof.
  apply wp_pass_deleting. intros o' res r err n' perr Hc. split; [done|].
  destruct (setupDeleteState_get now o' r err) as [c Hget].
  exists n', c. split; [done|]. by rewrite Hc.
Qed.

Lemma pass_creating now given (o : O) :
  traces ('(o', (res, err)) ←
            ensureCreated now (instrumented O) (instrumented_status O given) o;
          finish (E := callbackE O) o o' res err) (fun h _ => as_phase PhCreating given h).
Proof.
  unfold ensureCreated, callback. do 3 wp_step.
  cbn [EnsureCreated instrumented]. wp_step.
  destruct x as [o' [[res r] err]], Hx as [_ ->]. cbn beta iota.
  destruct given; cbn [instrumented_status].
  - do 3 wp_step. destruct Hx as [_ ->]. wp_step. apply wp_finish.
    intros n' perr _ _. split; [done|]. by exists n'.
  - wp_step. apply wp_finish. intros n' perr _ _. split; [done|]. by exists n'.
Qed.

(** C2: the calls of one pass.  The object read decides the phase, and the
    phase decides which callbacks run, in which order, and what is written:
    without the finalizer nothing runs but the update that adds it; a pass
    that releases the object runs no callback; in every other phase the one
    write is a status patch, which carries the Suspended (or Delete)
    condition of that phase. *)
Theorem pass_calls now given o :
  traces (pass now given o) (fun h _ =>
    callbacks h = phase_callbacks (phase_of o) given /\
    phase_writes (phase_of o) (writes h)).
Proof.
  destruct (phase_spec now (instrumented O) (instrumented_status O given) o) as [Hf Hp].
  rewrite Hp. destruct (phase_of o) eqn:Hph.
  - apply pass_finalizer. apply Hf.
  - apply pass_suspended.
  - by wp_step.
  - by apply pass_release.
  - apply pass_deleting.
  - apply pass_creating.
Qed.

(** The end of a deleting pass.  The status it writes marks the object as
    deleted (which lets the next pass release it) exactly when the controller's
    [EnsureDeleted] answered [Success], whatever the object said before; the
    result is the controller's and the error is the controller's unless the
    status patch itself failed. *)
Theorem deleting_pass_outcome now given o :
  phase_of o = PhDeleting ->
  traces (pass now given o) (fun h ret => exists o1 o2 res r err n perr,
    h = [Call (inrE (CallDeleted o1)) (o2, (res, r, err));
         Call (inlE (KPatchStatus n o)) perr] /\
    (isResourceDeleted n = true <-> r = Success) /\
    ret = (res, match perr with Some e => Some e | None => err end)).
Proof.
  intros Hph.
  destruct (phase_spec now (instrumented O) (instrumented_status O given) o) as [_ Hp].
  rewrite Hp, Hph.
  apply wp_pass_deleting. intros o' res r err n' perr Hc.
  do 7 eexists. split_and!; [done| |done].
  unfold isResourceDeleted. rewrite Hc. fold (isResourceDeleted (setupDeleteState now o' r err)).
  split; [apply isResourceDeleted_setup|]. intros ->. by apply isResourceDeleted_setup_Success.
Qed.
End one_pass.

(** ** An instance: a TeamRoleBinding from creation to release *)
Module TrbRun.
(** The finalizer helpers as functions on lists. *)
#[export] Instance list_finalizers : FinalizerOps := {|
  ContainsFinalizer l f := bool_decide (f ∈ l);
  AddFinalizer l f := if bool_decide (f ∈ l) then (l, false) else (l ++ [f], true);
  RemoveFinalizer l f :=
    (List.filter (fun x => negb (bool_decide (x = f))) l, bool_decide (f ∈ l)) |}.
#[export] Instance list_finalizers_laws : FinalizerLaws.
Proof.
  split; intros f l; simpl.
  - apply bool_decide_eq_true. case_bool_decide; set_solver.
  - apply bool_decide_eq_false. rewrite list_elem_of_In, filter_In.
    rewrite bool_decide_eq_true_2 by done. naive_solver.
  - by case_bool_decide.
  - done.
Qed.

Definition not_found : error := mk_error NotFound "not found".

(** An API server that never fails and a controller that always succeeds. *)
Definition handler X (e : sumE (lifecycleE TeamRoleBinding) (callbackE TeamRoleBinding) X)
    (w : world TeamRoleBinding) : X * world TeamRoleBinding :=
  match e with
  | inlE e =>
      match e in lifecycleE _ X return X * world TeamRoleBinding with
      | KGet k => (match stored w with Some o => Ok o | None => Err not_found end, w)
      | KUpdate o =>
          (None, mk_world (if negb (has_finalizer o) && bool_decide (GetDeletionTimestamp o <> None)
                           then None else Some o) (created w) (cleaned w))
      | KPatchStatus n _ =>
          match stored w with
          | Some s => (None, mk_world (Some (trb_set_conditions (GetConditions n) s))
                               (created w) (cleaned w))
          | None => (Some not_found, w)
          end
      end
  | inrE e =>
      match e in callbackE _ X return X * world TeamRoleBinding with
      | CallCreated o =>
          ((o, (ctrl_done, Success, None)), mk_world (stored w) true (cleaned w))
      | CallDeleted o =>
          ((o, (ctrl_done, Success, None)), mk_world (stored w) (created w) true)
      | CallSuspended o => ((o, (ctrl_done, None)), w)
      | CallStatus o => (o, w)
      end
  end.

Lemma handler_allowed w X e :
  api_step w X e (handler X e w).1 (handler X e w).2.
Proof.
  destruct e as [[k|o|n m]|[o|o|o|o]]; simpl; unfold well_behaved; try done.
  - by destruct (stored w).
  - case_bool_decide; simpl; [by left|].
    case_bool_decide; [by right|by left].
  - destruct (stored w) as [s|]; simpl; [|done]. by exists s, (trb_set_conditions (GetConditions n) s).
Qed.

Definition pass_world (w : world TeamRoleBinding) : world TeamRoleBinding :=
  run_world handler (Reconcile 7 (instrumented TeamRoleBinding) None (mk_key "org" "trb")) w.
Lemma pass_world_step w : lifecycle_step w (pass_world w).
Proof.
  apply (step_pass 7 false (mk_key "org" "trb")
    (run_result handler (Reconcile 7 (instrumented _) None (mk_key "org" "trb")) w)).
  apply exec_run, handler_allowed.
Qed.

Definition trb : TeamRoleBinding :=
  mk_trb (named "trb" "org")
    (mk_trb_spec "role" "team" [] [] (mk_cluster_selector "c1" "") ["ns"] true)
    (mk_trb_status [] []).
Definition deleted_trb : TeamRoleBinding := set_meta (with_deletion (Some 5%Z) (trb_meta trb)) trb.

Definition mark_deleted (w : world TeamRoleBinding) : world TeamRoleBinding :=
  mk_world ((fun o => set_meta (with_deletion (Some 5%Z) (get_meta o)) o) <$> stored w)
    (created w) (cleaned w).
Definition life (w : world TeamRoleBinding) : world TeamRoleBinding :=
  pass_world (pass_world (mark_deleted (pass_world (pass_world w)))).
Definition start : world TeamRoleBinding := mk_world (Some trb) false false.

Lemma life_steps : rtc lifecycle_step start (life start).
Proof.
  eapply rtc_l; [apply pass_world_step|]. eapply rtc_l; [apply pass_world_step|].
  eapply (rtc_l _ _ (mark_deleted (pass_world (pass_world start)))).
  { apply step_user. vm_compute. apply user_edit; [done|]. by intros. }
  eapply rtc_l; [apply pass_world_step|]. apply rtc_once, pass_world_step.
Qed.

Lemma cleanup_before_release_witness :
  created (life start) = true /\ stored (life start) = None /\ cleaned (life start) = true.
Proof.
  split; [reflexivity|]. split; [reflexivity|].
  apply (cleanup_before_release start (life start)).
  - done.
  - apply life_steps.
  - reflexivity.
  - intros o. vm_compute. discriminate.
Defined.

Lemma pass_calls_witness :
  phase_of trb = PhFinalizer /\
  wp (traced any_answer)
    (reconcile_object 7 (instrumented _) (instrumented_status _ true) trb)
    (fun h _ => callbacks h = [] /\
       exists o, writes h = [WUpdate o] /\ has_finalizer o = true) [].
Proof.
  split; [reflexivity|]. eapply wp_mono; [|apply (pass_calls 7 true trb)].
  intros h r [Hc Hw]. split; [exact Hc|exact Hw].
Defined.

Lemma deleting_pass_outcome_witness :
  phase_of (set_meta (with_finalizers [CommonCleanupFinalizer] (trb_meta deleted_trb)) deleted_trb)
    = PhDeleting /\
  forall now, wp (traced any_answer)
    (reconcile_object now (instrumented _) (instrumented_status _ true)
      (set_meta (with_finalizers [CommonCleanupFinalizer] (trb_meta deleted_trb)) deleted_trb))
    (fun h _ => length h = 2) [].
Proof.
  split; [reflexivity|]. intros now. eapply wp_mono; [|apply deleting_pass_outcome; reflexivity].
  intros h ret (o1 & o2 & res & r & err & n & perr & -> & _). reflexivity.
Defined.
End TrbRun.
