(* ===== verification/Propagation.v ===== *)
(** * Propagation: [pkg/lifecycle/propagation.go]

    Copying labels and annotations from a source object to a destination
    object: the keys are declared in annotations of the source, label keys may
    end in a wildcard, and the keys copied last time are remembered in an
    annotation of the destination so that they can be removed again.

    Go iterates over a map in an arbitrary order, which shows in the order of
    the remembered keys: [order] is the order of the iteration over the source
    labels, any permutation of the map.  [encoding/json] enters through
    [StateCodec]: the remembered keys survive a round trip when they are ASCII
    (label and annotation keys are). *)
From S2P Require Import Prelude Conditions Meta.
From Stdlib Require Import Ascii.

Definition AppliedPropagatorAnnotation : string := "greenhouse.sap/last-applied-propagator".
Definition PropagateLabelsAnnotation : string := "greenhouse.sap/propagate-labels".
Definition PropagateAnnotationsAnnotation : string := "greenhouse.sap/propagate-annotations".

Record appliedPropagatorState := mk_applied { LabelKeys : list string; AnnotationKeys : list string }.
Definition no_state : appliedPropagatorState := mk_applied [] [].

Definition ascii_key (s : string) : Prop :=
  Forall (fun c => nat_of_ascii c < 128) (String.list_ascii_of_string s).
Class StateCodec := {
  json_Marshal : appliedPropagatorState -> string;
  json_Unmarshal : string -> option appliedPropagatorState
}.
Class StateCodecLaws `{StateCodec} := {
  json_roundtrip st :
    Forall ascii_key (LabelKeys st) -> Forall ascii_key (AnnotationKeys st) ->
    json_Unmarshal (json_Marshal st) = Some st;
  json_not_empty st : json_Marshal st <> ""
}.

(** ** Declared keys *)
Definition declared_keys (annotation : string) : list string :=
  let annotation := trim_space annotation in
  if bool_decide (annotation = "") then []
  else List.filter (fun k => negb (bool_decide (k = "")))
         (trim_space <$> split "," annotation).
Definition exact_keys (keys : list string) : list string :=
  List.filter (fun k => match cut_suffix k "/*" with None => true | Some _ => false end) keys.
Definition wild_prefixes (keys : list string) : list string :=
  omap (fun k => (fun before => before +:+ "/") <$> cut_suffix k "/*") keys.
Definition wild_match (prefixes : list string) (k : string) : bool :=
  existsb (fun p => has_prefix k p) prefixes.

Definition has_key (m : strmap) (k : string) : bool := bool_decide (is_Some (m !! k)).
Definition containsLabelToPropagate (keys : list string) (srcLabels : strmap) : bool :=
  existsb (has_key srcLabels) (exact_keys keys) ||
  existsb (fun kv => wild_match (wild_prefixes keys) kv.1) (map_to_list srcLabels).
Definition containsAnnotationToPropagate (keys : list string) (srcAnnotations : strmap) : bool :=
  existsb (has_key srcAnnotations) keys.

(** ** Copying *)
Definition delete_keys (ks : list string) (m : strmap) : strmap := foldl (fun m k => delete k m) m ks.

(** The loops over the exact keys and over the source map. *)
Definition copy_exact (src : strmap) (keys : list string) (st : strmap * list string)
    : strmap * list string :=
  fold_left (fun '(dst, applied) k =>
    match src !! k with
    | Some v => (<[k := v]> dst, applied ++ [k])
    | None => (dst, applied)
    end) keys st.
Definition copy_wild (exact prefixes : list string) (order : list (string * string))
    (st : strmap * list string) : strmap * list string :=
  fold_left (fun '(dst, applied) kv =>
    if wild_match prefixes kv.1 then
      (<[kv.1 := kv.2]> dst, if slices_contains exact kv.1 then applied else applied ++ [kv.1])
    else (dst, applied)) order st.

Section propagation.
Context {S : Type} {HS : Object S} {D : Type} {HD : Object D} {HC : StateCodec}.

Definition syncTargetLabels (order : list (string * string)) (keysToPropagate : list string)
    (srcLabels dstLabels : strmap) (state : appliedPropagatorState) : strmap * list string :=
  let exact := exact_keys keysToPropagate in
  let '(dst, applied) :=
    copy_wild exact (wild_prefixes keysToPropagate) order
      (copy_exact srcLabels exact (dstLabels, [])) in
  (delete_keys (List.filter (fun prev => negb (slices_contains applied prev)) (LabelKeys state)) dst,
   applied).

Definition syncTargetAnnotations (keys : list string) (srcAnn dstAnn : strmap)
    (state : appliedPropagatorState) : strmap * list string :=
  let '(dst, applied) := copy_exact srcAnn keys (dstAnn, []) in
  (delete_keys (List.filter (fun k => negb (slices_contains keys k) ||
                                      bool_decide (default "" (srcAnn !! k) = ""))
                  (AnnotationKeys state)) dst,
   applied).

Definition applyLabels (order : list (string * string)) (labelKeys : list string)
    (srcLabels dstLabels : strmap) (state : appliedPropagatorState) : strmap * list string :=
  if bool_decide (labelKeys = []) || negb (containsLabelToPropagate labelKeys srcLabels)
  then (delete_keys (LabelKeys state) dstLabels, [])
  else syncTargetLabels order labelKeys srcLabels dstLabels state.

Definition applyAnnotations (annotationKeys : list string) (srcAnn dstAnn : strmap)
    (state : appliedPropagatorState) : strmap * list string :=
  if bool_decide (annotationKeys = []) || negb (containsAnnotationToPropagate annotationKeys srcAnn)
  then (delete_keys (AnnotationKeys state) dstAnn, [])
  else syncTargetAnnotations annotationKeys srcAnn dstAnn state.

Definition labelKeysToPropagate (src : S) : list string :=
  declared_keys (default "" (GetAnnotations src !! PropagateLabelsAnnotation)).
Definition annotationKeysToPropagate (src : S) : list string :=
  declared_keys (default "" (GetAnnotations src !! PropagateAnnotationsAnnotation)).

Definition getAppliedState (dst : D) : appliedPropagatorState :=
  let raw := default "" (GetAnnotations dst !! AppliedPropagatorAnnotation) in
  if bool_decide (raw = "") then no_state
  else default no_state (json_Unmarshal raw).
Definition storeAppliedState (state : appliedPropagatorState) (dst : D) : D :=
  SetAnnotations (<[AppliedPropagatorAnnotation := json_Marshal state]> (GetAnnotations dst)) dst.
Definition removeAppliedState (dst : D) : D :=
  SetAnnotations (delete AppliedPropagatorAnnotation (GetAnnotations dst)) dst.

Definition Apply (order : list (string * string)) (src : S) (dst : D) : D :=
  let state := getAppliedState dst in
  let '(dstLabels, appliedLabelKeys) :=
    applyLabels order (labelKeysToPropagate src) (GetLabels src) (GetLabels dst) state in
  let '(dstAnnotations, appliedAnnotationKeys) :=
    applyAnnotations (annotationKeysToPropagate src) (GetAnnotations src) (GetAnnotations dst) state in
  let dst := SetAnnotations dstAnnotations (SetLabels dstLabels dst) in
  if bool_decide (appliedLabelKeys <> []) || bool_decide (appliedAnnotationKeys <> [])
  then storeAppliedState (mk_applied appliedLabelKeys appliedAnnotationKeys) dst
  else removeAppliedState dst.

(** [CopyLabels] does not remember anything. *)
Definition copyLabels (order : list (string * string)) (keys : list string)
    (srcLabels dstLabels : strmap) : strmap :=
  (copy_wild (exact_keys keys) (wild_prefixes keys) order
     (copy_exact srcLabels (exact_keys keys) (dstLabels, []))).1.
Definition CopyLabels (order : list (string * string)) (labelKeys : list string)
    (src : S) (dst : D) : D :=
  if bool_decide (labelKeys = []) then dst
  else SetLabels (copyLabels order labelKeys (GetLabels src) (GetLabels dst)) dst.
End propagation.

(** ** Lemmas *)

(** A label key selected by the declaration. *)
Definition selected (keys : list string) (k : string) : bool :=
  slices_contains (exact_keys keys) k || wild_match (wild_prefixes keys) k.

Lemma lookup_delete_keys ks (m : strmap) k :
  delete_keys ks m !! k = if slices_contains ks k then None else m !! k.
Proof.
  unfold delete_keys, slices_contains. revert m. induction ks as [|k' ks IH]; intros m; [done|].
  cbn [foldl]. rewrite IH.
  assert (bool_decide (k ∈ k' :: ks) = bool_decide (k = k') || bool_decide (k ∈ ks)) as ->.
  { apply eq_bool_prop_intro. rewrite orb_True, !bool_decide_spec, elem_of_cons. done. }
  destruct (bool_decide_reflect (k = k')) as [->|]; simpl.
  - rewrite lookup_delete_eq. by destruct (bool_decide (k' ∈ ks)).
  - by rewrite lookup_delete_ne.
Qed.

Lemma copy_exact_lookup src keys dst applied k :
  (copy_exact src keys (dst, applied)).1 !! k =
  if slices_contains keys k then
    match src !! k with Some v => Some v | None => dst !! k end
  else dst !! k.
Proof.
  unfold copy_exact, slices_contains. revert dst applied.
  induction keys as [|k' keys IH]; intros dst applied; [done|]. cbn [fold_left].
  assert (bool_decide (k ∈ k' :: keys) = bool_decide (k = k') || bool_decide (k ∈ keys)) as ->.
  { apply eq_bool_prop_intro. rewrite orb_True, !bool_decide_spec, elem_of_cons. done. }
  destruct (src !! k') as [v|] eqn:E; rewrite IH;
    destruct (bool_decide_reflect (k = k')) as [->|]; simpl;
    rewrite ?E, ?lookup_insert_eq, ?lookup_insert_ne by done; try done;
    by destruct (bool_decide (k' ∈ keys)).
Qed.
Lemma copy_exact_applied src keys dst applied k :
  k ∈ (copy_exact src keys (dst, applied)).2 <->
  k ∈ applied \/ (k ∈ keys /\ is_Some (src !! k)).
Proof.
  unfold copy_exact. revert dst applied. induction keys as [|k' keys IH]; intros dst applied; simpl.
  { set_solver. }
  destruct (src !! k') as [v|] eqn:E; rewrite IH; rewrite ?elem_of_app, ?list_elem_of_singleton, elem_of_cons.
  - split; [|naive_solver]. intros [[?| ->]|[]]; eauto.
  - split; [naive_solver|]. intros [?|[[->|?] Hs]]; eauto. rewrite E in Hs. by destruct Hs.
Qed.

Lemma copy_wild_lookup exact prefixes order dst applied k :
  NoDup order.*1 ->
  (copy_wild exact prefixes order (dst, applied)).1 !! k =
  if wild_match prefixes k then
    match list_to_map (M := strmap) order !! k with Some v => Some v | None => dst !! k end
  else dst !! k.
Proof.
  unfold copy_wild. revert dst applied. induction order as [|[k' v'] order IH]; intros dst applied; csimpl.
  { intros _. rewrite lookup_empty. by destruct (wild_match prefixes k). }
  intros [Hk' Hnd]%NoDup_cons.
  destruct (wild_match prefixes k') eqn:Hm'; simpl; rewrite IH by done;
    destruct (wild_match prefixes k) eqn:Hm; destruct (decide (k = k')) as [->|Hne];
    rewrite ?lookup_insert_eq, ?lookup_insert_ne by done; try congruence; try done.
  by rewrite not_elem_of_list_to_map_1.
Qed.
Lemma copy_wild_applied exact prefixes order dst applied k :
  k ∈ (copy_wild exact prefixes order (dst, applied)).2 <->
  k ∈ applied \/ (k ∈ order.*1 /\ wild_match prefixes k = true /\ k ∉ exact).
Proof.
  unfold copy_wild. revert dst applied. induction order as [|[k' v'] order IH]; intros dst applied; csimpl.
  { set_solver. }
  destruct (wild_match prefixes k') eqn:Hm; rewrite IH, elem_of_cons.
  - destruct (slices_contains exact k') eqn:He; simpl.
    + apply slices_contains_true in He. naive_solver.
    + assert (k' ∉ exact) as Hne by (rewrite <-slices_contains_true; congruence).
      rewrite elem_of_app, list_elem_of_singleton. naive_solver.
  - split; [naive_solver|]. intros [?|([->|?]&?&?)]; eauto. congruence.
Qed.

(** What copying makes of one key: the source value when the key is declared
    and present, nothing when it was copied last time, else unchanged. *)
Definition propagated (declared : bool) (src dst : option string) (prev : bool) : option string :=
  match (if declared then src else None) with
  | Some v => Some v
  | None => if prev then None else dst
  end.

Lemma delete_filter_lookup (f : string -> bool) ks (m : strmap) k :
  delete_keys (List.filter f ks) m !! k = if slices_contains ks k && f k then None else m !! k.
Proof.
  rewrite lookup_delete_keys.
  assert (slices_contains (List.filter f ks) k = slices_contains ks k && f k) as ->; [|done].
  apply eq_bool_prop_intro. rewrite !Is_true_true, andb_true_iff, !slices_contains_true.
  by rewrite !list_elem_of_In, filter_In.
Qed.

Lemma containsLabel_spec keys src :
  containsLabelToPropagate keys src = true <-> exists k, selected keys k = true /\ is_Some (src !! k).
Proof.
  unfold containsLabelToPropagate, selected. rewrite orb_true_iff, !existsb_exists.
  setoid_rewrite orb_true_iff. setoid_rewrite slices_contains_true.
  unfold has_key. setoid_rewrite bool_decide_eq_true. setoid_rewrite <-list_elem_of_In.
  split.
  - intros [(k & Hk & Hs)|([k v] & Hkv & Hm)]; [eauto|]. exists k.
    apply elem_of_map_to_list in Hkv. rewrite Hkv. eauto.
  - intros (k & [Hk|Hm] & [v Hv]); [left; eauto|]. right. exists (k, v). split; [|done].
    by apply elem_of_map_to_list.
Qed.

Section apply.
Context {S : Type} {HS : Object S} {D : Type} {HD : Object D} {HDL : ObjectLaws D}.
Context {HC : StateCodec} {HCL : StateCodecLaws}.

Lemma applyLabels_spec order keys (src dst : strmap) state :
  order ≡ₚ map_to_list src ->
  (forall k, (applyLabels order keys src dst state).1 !! k =
     propagated (selected keys k) (src !! k) (dst !! k) (slices_contains (LabelKeys state) k)) /\
  (forall k, k ∈ (applyLabels order keys src dst state).2 <->
     selected keys k = true /\ is_Some (src !! k)).
Proof.
  intros Hord. unfold applyLabels.
  destruct (bool_decide (keys = []) || negb (containsLabelToPropagate keys src)) eqn:Hb.
  - assert (forall k, selected keys k = true -> src !! k = None) as Hnone.
    { intros k Hk. destruct (src !! k) eqn:E; [exfalso|done].
      apply orb_true_iff in Hb as [->%bool_decide_eq_true|Hb]; [done|].
      apply negb_true_iff in Hb. assert (containsLabelToPropagate keys src = true); [|congruence].
      apply containsLabel_spec. eauto. }
    split; intros k; simpl.
    + rewrite lookup_delete_keys. unfold propagated.
      destruct (selected keys k) eqn:Hk; [by rewrite Hnone by done|done].
    + split; [set_solver|]. intros [Hk [v Hv]]. rewrite Hnone in Hv; done.
  - unfold syncTargetLabels.
    assert (NoDup order.*1) as Hnd by (rewrite Hord; apply NoDup_fst_map_to_list).
    assert (list_to_map (M := strmap) order = src) as Hmap.
    { rewrite <-(list_to_map_to_list src). by apply list_to_map_proper. }
    assert (forall k, k ∈ order.*1 <-> is_Some (src !! k)) as Hdom.
    { intros k. rewrite Hord. rewrite list_elem_of_fmap. split.
      - intros ([k' v] & -> & H%elem_of_map_to_list). simpl. eauto.
      - intros [v Hv]. exists (k, v). by rewrite elem_of_map_to_list. }
    pose proof (copy_exact_lookup src (exact_keys keys) dst []) as Hex.
    pose proof (copy_exact_applied src (exact_keys keys) dst []) as Hea.
    destruct (copy_exact src (exact_keys keys) (dst, [])) as [d1 a1].
    pose proof (fun k => copy_wild_lookup (exact_keys keys) (wild_prefixes keys) order d1 a1 k Hnd) as Hwl.
    pose proof (copy_wild_applied (exact_keys keys) (wild_prefixes keys) order d1 a1) as Hwa.
    destruct (copy_wild _ _ order (d1, a1)) as [d2 a2]. simpl in *.
    assert (forall k, k ∈ a2 <-> selected keys k = true /\ is_Some (src !! k)) as Happ.
    { intros k. rewrite Hwa, Hea, Hdom. unfold selected. rewrite orb_true_iff, slices_contains_true.
      destruct (decide (k ∈ exact_keys keys)); set_solver. }
    split; [|done]. intros k. rewrite delete_filter_lookup, Hwl, Hex, Hmap.
    unfold propagated.
    assert (slices_contains a2 k = selected keys k && bool_decide (is_Some (src !! k))) as ->.
    { apply eq_bool_prop_intro. rewrite !Is_true_true, andb_true_iff, slices_contains_true, Happ.
      by rewrite bool_decide_eq_true. }
    unfold selected. destruct (slices_contains (exact_keys keys) k), (wild_match (wild_prefixes keys) k);
      destruct (src !! k); simpl; destruct (slices_contains (LabelKeys state) k); done.
Qed.

(** An annotation that was copied before and is now empty is removed. *)
Definition propagated_annotation (declared : bool) (src dst : option string) (prev : bool) : option string :=
  match (if declared then src else None) with
  | Some v => if prev && bool_decide (v = "") then None else Some v
  | None => if prev then None else dst
  end.

Lemma applyAnnotations_spec keys (src dst : strmap) state :
  (forall k, (applyAnnotations keys src dst state).1 !! k =
     propagated_annotation (slices_contains keys k) (src !! k) (dst !! k)
       (slices_contains (AnnotationKeys state) k)) /\
  (forall k, k ∈ (applyAnnotations keys src dst state).2 <-> k ∈ keys /\ is_Some (src !! k)).
Proof.
  unfold applyAnnotations.
  destruct (bool_decide (keys = []) || negb (containsAnnotationToPropagate keys src)) eqn:Hb.
  - assert (forall k, k ∈ keys -> src !! k = None) as Hnone.
    { intros k Hk. destruct (src !! k) eqn:E; [exfalso|done].
      apply orb_true_iff in Hb as [->%bool_decide_eq_true|Hb]; [set_solver|].
      apply negb_true_iff in Hb.
      assert (containsAnnotationToPropagate keys src = true); [|congruence].
      apply existsb_exists. exists k. rewrite <-list_elem_of_In. split; [done|].
      apply bool_decide_eq_true. eauto. }
    split; intros k; simpl.
    + rewrite lookup_delete_keys. unfold propagated_annotation.
      destruct (slices_contains keys k) eqn:Hk; [|done].
      apply slices_contains_true in Hk. by rewrite Hnone by done.
    + split; [set_solver|]. intros [Hk [v Hv]]. rewrite Hnone in Hv; done.
  - unfold syncTargetAnnotations.
    pose proof (copy_exact_lookup src keys dst []) as Hex.
    pose proof (copy_exact_applied src keys dst []) as Hea.
    destruct (copy_exact src keys (dst, [])) as [d1 a1]. simpl in *. split.
    + intros k. rewrite delete_filter_lookup, Hex. unfold propagated_annotation.
      destruct (slices_contains keys k), (src !! k); simpl;
        destruct (slices_contains (AnnotationKeys state) k); simpl; try done.
    + intros k. rewrite Hea. set_solver.
Qed.

(** What [Apply] leaves behind, key by key, and what it remembers. *)
Lemma Apply_spec order (src : S) (dst : D) :
  order ≡ₚ map_to_list (GetLabels src) ->
  (forall k, is_Some (GetLabels src !! k) -> ascii_key k) ->
  (forall k, is_Some (GetAnnotations src !! k) -> ascii_key k) ->
  let st := getAppliedState dst in
  let st' := getAppliedState (Apply order src dst) in
  (forall k, GetLabels (Apply order src dst) !! k =
     propagated (selected (labelKeysToPropagate src) k) (GetLabels src !! k) (GetLabels dst !! k)
       (slices_contains (LabelKeys st) k)) /\
  (forall k, k <> AppliedPropagatorAnnotation -> GetAnnotations (Apply order src dst) !! k =
     propagated_annotation (slices_contains (annotationKeysToPropagate src) k)
       (GetAnnotations src !! k) (GetAnnotations dst !! k) (slices_contains (AnnotationKeys st) k)) /\
  (forall k, k ∈ LabelKeys st' <->
     selected (labelKeysToPropagate src) k = true /\ is_Some (GetLabels src !! k)) /\
  (forall k, k ∈ AnnotationKeys st' <->
     k ∈ annotationKeysToPropagate src /\ is_Some (GetAnnotations src !! k)) /\
  (LabelKeys st' = [] /\ AnnotationKeys st' = [] ->
     GetAnnotations (Apply order src dst) !! AppliedPropagatorAnnotation = None).
Proof.
  intros Hord Hal Haa st. unfold Apply. fold st.
  pose proof (applyLabels_spec order (labelKeysToPropagate src) _ (GetLabels dst) st Hord) as [Hl Hla].
  pose proof (applyAnnotations_spec (annotationKeysToPropagate src) (GetAnnotations src)
                (GetAnnotations dst) st) as [Ha Haa'].
  destruct (applyLabels _ _ _ _ _) as [dl al], (applyAnnotations _ _ _ _) as [da aa]. simpl in *.
  assert (Forall ascii_key al) as Hasc1 by (apply Forall_forall; intros k [_ ?]%Hla; auto).
  assert (Forall ascii_key aa) as Hasc2 by (apply Forall_forall; intros k [_ ?]%Haa'; auto).
  set (b := bool_decide (al <> []) || bool_decide (aa <> [])).
  set (dst1 := SetAnnotations da (SetLabels dl dst)).
  assert (getAppliedState (if b then storeAppliedState (mk_applied al aa) dst1
                           else removeAppliedState dst1) = mk_applied al aa) as Hst.
  { unfold getAppliedState, storeAppliedState, removeAppliedState. destruct b eqn:Hb.
    - rewrite GetAnnotations_SetAnnotations, lookup_insert_eq. simpl.
      rewrite bool_decide_eq_false_2 by apply json_not_empty. by rewrite json_roundtrip.
    - rewrite GetAnnotations_SetAnnotations, lookup_delete_eq. simpl.
      apply orb_false_iff in Hb as [H1 H2]. rewrite bool_decide_eq_false in H1, H2.
      destruct al; [|by destruct H1]. destruct aa; [done|by destruct H2]. }
  rewrite Hst. simpl.
  assert (GetLabels (if b then storeAppliedState (mk_applied al aa) dst1
                     else removeAppliedState dst1) = dl) as ->.
  { unfold storeAppliedState, removeAppliedState, dst1. destruct b;
      by rewrite !GetLabels_SetAnnotations, GetLabels_SetLabels. }
  assert (forall k, k <> AppliedPropagatorAnnotation ->
    GetAnnotations (if b then storeAppliedState (mk_applied al aa) dst1
                    else removeAppliedState dst1) !! k = da !! k) as Hann.
  { intros k Hk. unfold storeAppliedState, removeAppliedState, dst1.
    destruct b; rewrite !GetAnnotations_SetAnnotations; [by rewrite lookup_insert_ne|by rewrite lookup_delete_ne]. }
  split_and!; [done| |done|done|].
  - intros k Hk. rewrite Hann by done. apply Ha.
  - intros [-> ->]. unfold b. simpl. unfold removeAppliedState.
    by rewrite GetAnnotations_SetAnnotations, lookup_delete_eq.
Qed.
End apply.

Section properties.
Context {S : Type} {HS : Object S} {D : Type} {HD : Object D} {HDL : ObjectLaws D}.
Context {HC : StateCodec} {HCL : StateCodecLaws}.

(** [order] is a possible iteration over the labels of [src], and the keys of
    [src] are ASCII. *)
Definition sound_order (order : list (string * string)) (src : S) : Prop :=
  order ≡ₚ map_to_list (GetLabels src) /\
  (forall k, is_Some (GetLabels src !! k) -> ascii_key k) /\
  (forall k, is_Some (GetAnnotations src !! k) -> ascii_key k).

(** C8: what [Apply] does, key by key, whatever the iteration order: a label
    that is declared (by name or by wildcard) and present in the source takes the
    source's value; a label copied last time and no longer so is removed; every
    other label of the destination stays.  What is remembered for the next time
    is exactly the set of the keys copied now. *)
Theorem Apply_labels order (src : S) (dst : D) :
  sound_order order src ->
  (forall k, GetLabels (Apply order src dst) !! k =
     match (if selected (labelKeysToPropagate src) k then GetLabels src !! k else None) with
     | Some v => Some v
     | None => if slices_contains (LabelKeys (getAppliedState dst)) k then None
               else GetLabels dst !! k
     end) /\
  (forall k, k ∈ LabelKeys (getAppliedState (Apply order src dst)) <->
     selected (labelKeysToPropagate src) k = true /\ is_Some (GetLabels src !! k)).
Proof.
  intros (Ho & Hl & Ha). destruct (Apply_spec order src dst Ho Hl Ha) as (H1 & _ & H2 & _). done.
Qed.

(** [Apply] is idempotent as long as no declared annotation of the source
    is empty: applying again, in any iteration order, changes no label, no
    annotation other than the remembered state, and not the set of keys
    remembered. *)
Theorem Apply_idempotent order order' (src : S) (dst : D) :
  sound_order order src -> sound_order order' src ->
  (forall k, k ∈ annotationKeysToPropagate src -> GetAnnotations src !! k <> Some "") ->
  let once := Apply order src dst in
  let twice := Apply order' src once in
  GetLabels twice = GetLabels once /\
  (forall k, k <> AppliedPropagatorAnnotation -> GetAnnotations twice !! k = GetAnnotations once !! k) /\
  (forall k, k ∈ LabelKeys (getAppliedState twice) <-> k ∈ LabelKeys (getAppliedState once)) /\
  (forall k, k ∈ AnnotationKeys (getAppliedState twice) <-> k ∈ AnnotationKeys (getAppliedState once)).
Proof.
  intros (Ho & Hl & Ha) (Ho' & _ & _) Hne once twice.
  destruct (Apply_spec order src dst Ho Hl Ha) as (L1 & A1 & SL1 & SA1 & _).
  destruct (Apply_spec order' src once Ho' Hl Ha) as (L2 & A2 & SL2 & SA2 & _).
  fold once in L1, A1, SL1, SA1. fold twice in L2, A2, SL2, SA2. split_and!.
  - apply map_eq. intros k. rewrite L2. unfold propagated.
    destruct (selected (labelKeysToPropagate src) k) eqn:Hs;
      destruct (GetLabels src !! k) eqn:Hv; try (by rewrite L1; unfold propagated; rewrite ?Hs, ?Hv);
      (destruct (slices_contains (LabelKeys (getAppliedState once)) k) eqn:Hc; [|done]);
      apply slices_contains_true, SL1 in Hc as [? [? ?]]; congruence.
  - intros k Hk. rewrite A2 by done. unfold propagated_annotation.
    destruct (slices_contains (annotationKeysToPropagate src) k) eqn:Hs;
      destruct (GetAnnotations src !! k) as [v|] eqn:Hv.
    + apply slices_contains_true in Hs as Hin. assert (v <> "") as Hv0.
      { intros ->. by apply (Hne k). }
      rewrite (bool_decide_eq_false_2 (v = "")) by done. rewrite andb_false_r.
      rewrite A1 by done. unfold propagated_annotation. rewrite Hs, Hv.
      rewrite (bool_decide_eq_false_2 (v = "")) by done. by rewrite andb_false_r.
    + destruct (slices_contains (AnnotationKeys (getAppliedState once)) k) eqn:Hc; [|done].
      apply slices_contains_true, SA1 in Hc as [? [? ?]]; congruence.
    + destruct (slices_contains (AnnotationKeys (getAppliedState once)) k) eqn:Hc; [|done].
      apply slices_contains_true, SA1 in Hc as [Hin _]. apply slices_contains_true in Hin. congruence.
    + destruct (slices_contains (AnnotationKeys (getAppliedState once)) k) eqn:Hc; [|done].
      apply slices_contains_true, SA1 in Hc as [_ [? ?]]. congruence.
  - intros k. by rewrite SL2, SL1.
  - intros k. by rewrite SA2, SA1.
Qed.

(** Propagation can be undone.  Applying a source and then a source that
    declares nothing removes exactly the labels that were copied (then or
    before) and the remembered state; a label the destination had of its own
    keeps its value. *)
Theorem Apply_undone order order' (src src' : S) (dst : D) :
  sound_order order src -> sound_order order' src' ->
  labelKeysToPropagate src' = [] -> annotationKeysToPropagate src' = [] ->
  let twice := Apply order' src' (Apply order src dst) in
  (forall k, GetLabels twice !! k =
     if selected (labelKeysToPropagate src) k && has_key (GetLabels src) k ||
        slices_contains (LabelKeys (getAppliedState dst)) k
     then None else GetLabels dst !! k) /\
  GetAnnotations twice !! AppliedPropagatorAnnotation = None.
Proof.
  intros (Ho & Hl & Ha) (Ho' & Hl' & Ha') Hk Hak twice.
  destruct (Apply_spec order src dst Ho Hl Ha) as (L1 & A1 & SL1 & SA1 & _).
  destruct (Apply_spec order' src' (Apply order src dst) Ho' Hl' Ha') as (L2 & A2 & SL2 & SA2 & Hrem).
  fold twice in L2, A2, SL2, SA2, Hrem. rewrite Hk in L2, SL2. rewrite Hak in SA2. split.
  - intros k. rewrite L2. unfold propagated at 1. unfold selected at 1. simpl.
    assert (slices_contains (LabelKeys (getAppliedState (Apply order src dst))) k =
            selected (labelKeysToPropagate src) k && has_key (GetLabels src) k) as ->.
    { apply eq_bool_prop_intro. rewrite !Is_true_true, andb_true_iff, slices_contains_true, SL1.
      unfold has_key. by rewrite bool_decide_eq_true. }
    rewrite L1. unfold propagated, has_key.
    destruct (selected (labelKeysToPropagate src) k); simpl;
      [|by destruct (slices_contains (LabelKeys (getAppliedState dst)) k)].
    destruct (GetLabels src !! k); simpl; [done|].
    by destruct (slices_contains (LabelKeys (getAppliedState dst)) k).
  - apply Hrem. split.
    + destruct (LabelKeys (getAppliedState twice)) as [|k l]; [done|].
      assert (k ∈ k :: l) as [Hs _]%SL2 by set_solver. done.
    + destruct (AnnotationKeys (getAppliedState twice)) as [|k l]; [done|].
      assert (k ∈ k :: l) as [Hs _]%SA2 by set_solver. set_solver.
Qed.

(** With an empty annotation [Apply] is not idempotent: a declared
    annotation whose source value is empty is copied by one call and removed by
    the next one. *)
Theorem Apply_empty_annotation_flips order order' (src : S) (dst : D) k :
  sound_order order src -> sound_order order' src ->
  k <> AppliedPropagatorAnnotation ->
  k ∈ annotationKeysToPropagate src -> GetAnnotations src !! k = Some "" ->
  k ∉ AnnotationKeys (getAppliedState dst) ->
  GetAnnotations (Apply order src dst) !! k = Some "" /\
  GetAnnotations (Apply order' src (Apply order src dst)) !! k = None.
Proof.
  intros (Ho & Hl & Ha) (Ho' & _ & _) Hk Hin Hv Hprev.
  destruct (Apply_spec order src dst Ho Hl Ha) as (_ & A1 & _ & SA1 & _).
  destruct (Apply_spec order' src (Apply order src dst) Ho' Hl Ha) as (_ & A2 & _).
  rewrite A1, A2 by done. unfold propagated_annotation. apply slices_contains_true in Hin as Hs.
  rewrite Hs, Hv.
  assert (slices_contains (AnnotationKeys (getAppliedState dst)) k = false) as ->.
  { destruct (slices_contains (AnnotationKeys (getAppliedState dst)) k) eqn:E; [|done]. by apply slices_contains_true, Hprev in E. }
  assert (slices_contains (AnnotationKeys (getAppliedState (Apply order src dst))) k = true) as ->.
  { apply slices_contains_true, SA1. split; [done|]. rewrite Hv. eauto. }
  done.
Qed.
End properties.

(** ** An instance *)
Module PropagationRun.
Definition item_sep : ascii := ascii_of_nat 255.
Definition list_sep : ascii := ascii_of_nat 254.
Definition enc_list (l : list string) : string := foldr (fun k acc => k +:+ String item_sep acc) "" l.
Definition dec_list (s : string) : list string := removelast (split item_sep s).
#[export] Instance separated_codec : StateCodec := {|
  json_Marshal st := enc_list (LabelKeys st) +:+ String list_sep (enc_list (AnnotationKeys st));
  json_Unmarshal s := match split list_sep s with
                      | [l; a] => Some (mk_applied (dec_list l) (dec_list a))
                      | _ => None
                      end |}.

Lemma ascii_no_sep c s : (128 <= nat_of_ascii c)%nat -> ascii_key s -> char_in c s = false.
Proof.
  intros Hc. unfold ascii_key. induction s as [|a s IH]; simpl; [done|].
  intros [Ha Hs]%Forall_cons. rewrite (IH Hs), orb_false_r. apply Ascii.eqb_neq. intros ->. lia.
Qed.
Lemma dec_enc_list l : Forall ascii_key l -> dec_list (enc_list l) = l.
Proof.
  unfold dec_list. induction 1 as [|k l Hk Hl IH]; [done|]. simpl.
  rewrite split_app by (apply ascii_no_sep; [vm_compute; lia|done]).
  pose proof (split_not_nil item_sep (enc_list l)). cbn [removelast].
  destruct (split item_sep (enc_list l)); [done|]. by rewrite IH.
Qed.
Lemma enc_list_no_sep l : Forall ascii_key l -> char_in list_sep (enc_list l) = false.
Proof.
  induction 1 as [|k l Hk Hl IH]; [done|]. simpl. rewrite char_in_app. simpl. rewrite IH.
  by rewrite ascii_no_sep by (done || (vm_compute; lia)).
Qed.
#[export] Instance separated_codec_laws : StateCodecLaws.
Proof.
  split.
  - intros [l a] Hl Ha. simpl in *. rewrite split_app by (by apply enc_list_no_sep).
    rewrite split_no_sep by (by apply enc_list_no_sep). by rewrite !dec_enc_list.
  - intros st. simpl. by destruct (enc_list (LabelKeys st)).
Qed.

(** Objects with metadata only. *)
#[export] Instance meta_object : Object ObjectMeta := {| get_meta m := m; set_meta m _ := m |}.
#[export] Instance meta_object_laws : ObjectLaws ObjectMeta.
Proof. done. Qed.

Definition source : ObjectMeta :=
  with_annotations {[PropagateLabelsAnnotation := "region, metadata.greenhouse.sap/*";
                     PropagateAnnotationsAnnotation := "note"; "note" := ""]}
    (with_labels {["region" := "eu"; "metadata.greenhouse.sap/bu" := "one"; "own" := "x"]}
       (named "src" "org")).
Definition bare : ObjectMeta := named "src" "org".
Definition target : ObjectMeta := with_labels {["own" := "y"; "region" := "us"]} (named "dst" "org").
Definition labels_order : list (string * string) := map_to_list (GetLabels source).

Lemma ascii_key_dec s :
  forallb (fun c => Nat.ltb (nat_of_ascii c) 128) (String.list_ascii_of_string s) = true -> ascii_key s.
Proof.
  unfold ascii_key. rewrite forallb_forall. intros H. apply Forall_forall. intros c Hc.
  apply Nat.ltb_lt, H. by apply list_elem_of_In.
Qed.
Lemma ascii_keys (m : strmap) :
  forallb (fun kv => forallb (fun c => Nat.ltb (nat_of_ascii c) 128) (String.list_ascii_of_string kv.1))
    (map_to_list m) = true ->
  forall k, is_Some (m !! k) -> ascii_key k.
Proof.
  rewrite forallb_forall. intros H k [v Hv]. apply ascii_key_dec.
  apply (H (k, v)), list_elem_of_In. by apply elem_of_map_to_list.
Qed.
Lemma source_sound : sound_order labels_order source.
Proof. split; [done|]. split; apply ascii_keys; vm_compute; reflexivity. Qed.
Lemma bare_sound : sound_order [] bare.
Proof. split; [done|]. split; apply ascii_keys; vm_compute; reflexivity. Qed.

Lemma Apply_labels_witness :
  GetLabels (Apply labels_order source target) !! "region" = Some "eu" /\
  GetLabels (Apply labels_order source target) !! "own" = Some "y".
Proof.
  destruct (Apply_labels labels_order source target source_sound) as [H _].
  split; rewrite H; vm_compute; reflexivity.
Defined.

Definition quiet_source : ObjectMeta :=
  with_annotations (<["note" := "hello"]> (GetAnnotations source)) source.
Lemma quiet_source_sound : sound_order labels_order quiet_source.
Proof. split; [done|]. split; apply ascii_keys; vm_compute; reflexivity. Qed.
Lemma Apply_idempotent_witness :
  GetLabels (Apply labels_order quiet_source (Apply labels_order quiet_source target)) =
  GetLabels (Apply labels_order quiet_source target).
Proof.
  apply (Apply_idempotent labels_order labels_order quiet_source target);
    [apply quiet_source_sound|apply quiet_source_sound|].
  intros k Hk. vm_compute in Hk. apply list_elem_of_singleton in Hk as ->. vm_compute. discriminate.
Defined.

Lemma Apply_undone_witness :
  GetLabels (Apply [] bare (Apply labels_order source target)) !! "own" = Some "y" /\
  GetLabels (Apply [] bare (Apply labels_order source target)) !! "region" = None.
Proof.
  destruct (Apply_undone labels_order [] source bare target source_sound bare_sound) as [H _];
    [reflexivity|reflexivity|].
  split; rewrite H; vm_compute; reflexivity.
Defined.

Lemma Apply_empty_annotation_flips_witness :
  GetAnnotations (Apply labels_order source target) !! "note" = Some "" /\
  GetAnnotations (Apply labels_order source (Apply labels_order source target)) !! "note" = None.
Proof.
  apply (Apply_empty_annotation_flips labels_order labels_order source target "note");
    [apply source_sound|apply source_sound|discriminate| |reflexivity|].
  - vm_compute. apply list_elem_of_here.
  - vm_compute. intros H. apply not_elem_of_nil in H. exact H.
Defined.
End PropagationRun.
