(* ===== verification/ClientUtil.v ===== *)
(** * ClientUtil: [internal/clientutil] and [internal/util/conditions.go]

    The helpers every controller uses on top of the Kubernetes client:
    [CreateOrPatch], [Patch], [PatchStatus] and [Delete] for an object type [O],
    the watch predicates, and the owner-label condition.  The client is the set
    of calls [kubeE O].  A write returns the object as the server stored it. *)
From S2P Require Import Prelude Effects Conditions Meta ApiTypes.

Inductive kubeE (O : Type) : Type -> Type :=
| KubeGet (k : objkey) : kubeE O (result O)
| KubeCreate (o : O) : kubeE O (result O)
| KubePatch (before after : O) : kubeE O (result O)
| KubeStatusPatch (before after : O) : kubeE O (result O)
| KubeDelete (o : O) : kubeE O (option error).
Arguments KubeGet {O} k.
Arguments KubeCreate {O} o.
Arguments KubePatch {O} before after.
Arguments KubeStatusPatch {O} before after.
Arguments KubeDelete {O} o.

Inductive OperationResult :=
| OperationResultNone | OperationResultCreated | OperationResultUpdated.
Inductive DeletionResult :=
| DeletionResultDeleted | DeletionResultNotFound | DeletionResultNone.

(** [IgnoreAlreadyExists] *)
Definition IgnoreAlreadyExists (err : option error) : option error :=
  if is_already_exists err then None else err.
Definition IgnoreIndexerConflict (err : option error) : option error :=
  match err with
  | None => None
  | Some e => if has_prefix (err_msg e) "indexer conflict" then None else Some e
  end.

Section clientutil.
Context {O : Type} {HObj : Object O} {HDec : EqDecision O}.

(** A mutate function changes the object through a pointer and may fail. *)
Variable mutate : O -> O * option error.

(** [patch]: the object is left as mutated when the call fails. *)
Definition patch (obj : O) (status : bool) :
    prog (kubeE O) (O * (OperationResult * option error)) :=
  let before := obj in
  let '(obj, merr) := mutate obj in
  match merr with
  | Some e => mret (obj, (OperationResultNone, Some (wrap_error "mutating object failed: " e)))
  | None =>
      if bool_decide (before = obj) then mret (obj, (OperationResultNone, None))
      else
        r ← (if status then trigger (KubeStatusPatch before obj)
             else trigger (KubePatch before obj));
        match r with
        | Err e => mret (obj, (OperationResultNone, Some e))
        | Ok obj => mret (obj, (OperationResultUpdated, None))
        end
  end.
Definition Patch (obj : O) := patch obj false.
Definition PatchStatus (obj : O) := patch obj true.

Definition marked_for_deletion (o : O) : error :=
  new_error ("the resource " +:+ GetNamespace o +:+ "/" +:+ GetName o +:+
             " already exists but is marked for deletion").

(** The object does not exist. *)
Definition create_mutated (obj : O) : prog (kubeE O) (O * (OperationResult * option error)) :=
  let '(obj, merr) := mutate obj in
  match merr with
  | Some e => mret (obj, (OperationResultNone, Some (wrap_error "mutating object failed: " e)))
  | None =>
      c ← trigger (KubeCreate obj);
      match c with
      | Err e => mret (obj, (OperationResultNone, IgnoreAlreadyExists (Some e)))
      | Ok obj => mret (obj, (OperationResultCreated, None))
      end
  end.
Definition CreateOrPatch (obj : O) :
    prog (kubeE O) (O * (OperationResult * option error)) :=
  r ← trigger (KubeGet (key_of obj));
  match r with
  | Err e =>
      if negb (is_not_found (Some e)) then mret (obj, (OperationResultNone, Some e))
      else create_mutated obj
  | Ok obj =>
      match GetDeletionTimestamp obj with
      | Some _ => mret (obj, (OperationResultNone, Some (marked_for_deletion obj)))
      | None => patch obj false
      end
  end.
End clientutil.

(** [CreateOrPatch] with a mutate function that may write to a nil map: [kube] are the
    client's calls among those of the caller, [panic] what it does then. *)
Section may_panic.
Context {O : Type} {HObj : Object O} {HDec : EqDecision O} {E : Type -> Type}.
Variable kube : forall X, kubeE O X -> E X.
Variable panic : forall A, prog E A.
Variable mutate : O -> outcome (O * option error).
Definition CreateOrPatch_may_panic (obj : O) : prog E (O * (OperationResult * option error)) :=
  let with_mutated (obj : O) (f : (O -> O * option error) -> prog (kubeE O) (O * (OperationResult * option error))) :=
    match mutate obj with
    | Panics => panic _
    | Returns r => translate kube (f (fun _ => r))
    end in
  r ← trigger (kube _ (KubeGet (key_of obj)));
  match r with
  | Err e =>
      if negb (is_not_found (Some e)) then mret (obj, (OperationResultNone, Some e))
      else with_mutated obj (fun m => create_mutated m obj)
  | Ok obj =>
      match GetDeletionTimestamp obj with
      | Some _ => mret (obj, (OperationResultNone, Some (marked_for_deletion obj)))
      | None => with_mutated obj (fun m => patch m obj false)
      end
  end.
End may_panic.

Definition Delete {O} `{Object O} (obj : O) :
    prog (kubeE O) (DeletionResult * option error) :=
  r ← trigger (KubeGet (key_of obj));
  match r with
  | Err e =>
      if is_not_found (Some e) then mret (DeletionResultNotFound, None)
      else mret (DeletionResultNone, Some e)
  | Ok obj =>
      err ← trigger (KubeDelete obj);
      match err with
      | Some e => mret (DeletionResultNone, Some e)
      | None => mret (DeletionResultDeleted, None)
      end
  end.

(** [GetOwnerReference] *)
Fixpoint find_owner (refs : list OwnerReference) (kind : string) : option OwnerReference :=
  match refs with
  | [] => None
  | ref :: refs' => if bool_decide (ref_kind ref = kind) then Some ref else find_owner refs' kind
  end.
Definition GetOwnerReference {O} `{Object O} (obj : O) (kind : string) : option OwnerReference :=
  find_owner (om_owners (get_meta obj)) kind.

(** [FilterClustersBeingDeleted] *)
Definition FilterClustersBeingDeleted (clusters : list Cluster) : list Cluster :=
  delete_func (fun c => bool_decide (GetDeletionTimestamp c <> None)) clusters.

(** ** Watch predicates

    The four functions of a [predicate.Predicate]; an update event carries the
    old and the new object, [None] standing for nil or an object of another
    type.  A function that is not set answers true. *)
Record predicate (O : Type) := mk_predicate {
  on_create : option O -> bool;
  on_update : option O -> option O -> bool;
  on_delete : option O -> bool;
  on_generic : option O -> bool
}.
Arguments mk_predicate {O} _ _ _ _.
Arguments on_create {O} _ _.
Arguments on_update {O} _ _ _.
Arguments on_delete {O} _ _.
Arguments on_generic {O} _ _.

(** [predicate.NewPredicateFuncs]: on an update the new object decides. *)
Definition NewPredicateFuncs {O} (f : option O -> bool) : predicate O :=
  mk_predicate f (fun _ new => f new) f f.

Definition PredicateClusterByAccessMode (accessMode : string) : predicate Cluster :=
  NewPredicateFuncs (fun o => match o with
    | Some c => bool_decide (AccessMode (cluster_Spec c) = accessMode)
    | None => false
    end).
Definition PredicateClusterIsReady : predicate Cluster :=
  NewPredicateFuncs (fun o => match o with
    | Some c => IsReadyTrue (cluster_conditions (cluster_Status c))
    | None => false
    end).
Definition PredicateByName {O} `{Object O} (name : string) : predicate O :=
  NewPredicateFuncs (fun o => match o with
    | Some o => bool_decide (GetName o = name) | None => false end).
(** A missing label reads as the empty string. *)
Definition PredicateHasLabelWithValue {O} `{Object O} (key value : string) : predicate O :=
  NewPredicateFuncs (fun o => match o with
    | Some o => bool_decide (default "" (GetLabels o !! key) = value) | None => false end).

Definition became_true (old new : option Condition) : bool :=
  match new with
  | None => false
  | Some n => (match old with None => true | Some o => negb (IsTrue o) end) && IsTrue n
  end.
Definition PredicateClusterReadyStatusChange : predicate Cluster :=
  mk_predicate (fun _ => false)
    (fun old new =>
       match old, new with
       | Some old, Some new =>
           became_true
             (GetConditionByType (cluster_conditions (cluster_Status old)) ReadyCondition)
             (GetConditionByType (cluster_conditions (cluster_Status new)) ReadyCondition)
       | _, _ => false
       end)
    (fun _ => false) (fun _ => false).

(** ** The owner label ([util.ComputeOwnerLabelCondition]) *)
Definition ComputeOwnerLabelCondition {O} `{Object O} (now : Z) (resourceObj : O) :
    prog (kubeE Team) Condition :=
  let namespace := GetNamespace resourceObj in
  if bool_decide (namespace = "") then
    mret (FalseCondition now OwnerLabelSetCondition ""
            "Resource namespace is required to validate the owner")
  else
    let ownerName := default "" (GetLabels resourceObj !! LabelKeyOwnedBy) in
    if bool_decide (ownerName = "") then
      mret (FalseCondition now OwnerLabelSetCondition OwnerLabelMissingReason
              ("Label " +:+ LabelKeyOwnedBy +:+ " is missing"))
    else
      r ← trigger (KubeGet (mk_key namespace ownerName));
      match r with
      | Err e =>
          if is_not_found (Some e) then
            mret (FalseCondition now OwnerLabelSetCondition OwnerLabelSetToNotExistingTeamReason
                    ("team " +:+ ownerName +:+ " does not exist in resource namespace"))
          else
            mret (FalseCondition now OwnerLabelSetCondition OwnerLabelSetToNotExistingTeamReason
                    ("team " +:+ ownerName +:+ " could not be retrieved"))
      | Ok team =>
          if bool_decide (GetLabels team !! LabelKeySupportGroup = Some "true") then
            mret (TrueCondition now OwnerLabelSetCondition "" "")
          else
            mret (FalseCondition now OwnerLabelSetCondition OwnerLabelSetToNonSupportGroupTeamReason
                    ("owner team " +:+ ownerName +:+ " should be a support group"))
      end.

(** ** The API server as a store

    For the theorems about sequences of client calls: a map from keys to stored
    objects with one writer.  A call may fail, and then changes nothing; a write
    may return an object that differs from the one sent ([accepts], defaulting
    and server-set fields); an answer NotFound or AlreadyExists tells the truth.
    As there is one writer, the merge patch from [before] to [after] stores
    [after].  [kube_step] is for kinds without a status subresource whose objects
    nobody puts a finalizer on (Secrets, RBAC objects, ServiceAccounts,
    Namespaces): a deletion that succeeds removes the object and a patch of the
    status is refused.  It is also used where a component only reads, creates and
    patches (the Organization controller's Teams and Plugins).  Kinds with
    finalizers or a status have relations of their own, made of it,
    [marked_or_removed] and [status_written]: [PluginPreset.plugin_step],
    [ClusterKubeconfig.ck_step]. *)
Section store.
Context {O : Type} {HObj : Object O} {HDec : EqDecision O}.
Variable accepts : O -> O -> Prop.
Abbreviation store := (gmap objkey O).

Definition written (o : O) (st : store) (r : result O) (st' : store) : Prop :=
  match r with
  | Err _ => st' = st
  | Ok o' => accepts o o' /\ st' = <[key_of o := o']> st
  end.
(** A patch of the status: the stored object gets the status of the one sent. *)
Definition status_written (put_status : O -> O -> O) (o : O) (st : store) (r : result O) (st' : store) : Prop :=
  match r with
  | Err _ => st' = st
  | Ok o' => exists s, st !! key_of o = Some s /\ accepts (put_status o s) o' /\ st' = <[key_of o := o']> st
  end.
(** A deletion of an object that may have finalizers: it is removed, or marked. *)
Definition marked_or_removed (k : objkey) (st st' : store) : Prop :=
  st' = delete k st \/ exists o d, st !! k = Some o /\
    st' = <[k := set_meta (with_deletion (Some d) (get_meta o)) o]> st.
Definition kube_step (st : store) X (e : kubeE O X) : X -> store -> Prop :=
  match e in kubeE _ X return X -> store -> Prop with
  | KubeGet k => fun r st' => st' = st /\
      match r with
      | Ok o => st !! k = Some o /\ key_of o = k
      | Err e => err_reason e = NotFound -> st !! k = None
      end
  | KubeCreate o => fun r st' => written o st r st' /\
      match r with
      | Ok _ => st !! key_of o = None
      | Err e => err_reason e = AlreadyExists -> is_Some (st !! key_of o)
      end
  | KubePatch b a => fun r st' => written a st r st'
  | KubeStatusPatch b a => fun r st' => st' = st /\ exists e, r = Err e
  | KubeDelete o => fun r st' =>
      match r with
      | Some e => st' = st /\ (err_reason e = NotFound -> st !! key_of o = None)
      | None => st' = delete (key_of o) st
      end
  end.

Variable mutate : O -> O * option error.
Hypothesis mutate_key : forall o, key_of (mutate o).1 = key_of o.

(** [CreateOrPatch] neither deletes nor patches a status. *)
Definition kube_write X (e : kubeE O X) : Prop :=
  match e with KubeGet _ | KubeCreate _ | KubePatch _ _ => True | _ => False end.
Lemma CreateOrPatch_calls obj : all_calls kube_write (CreateOrPatch mutate obj).
Proof.
  unfold CreateOrPatch, create_mutated, patch. by calls_steps.
Qed.

(** What [CreateOrPatch] may do to the store. *)
Definition create_or_patch_post (obj : O) (st st' : store)
    (r : O * (OperationResult * option error)) : Prop :=
  let k := key_of obj in
  match r with
  | (_, (_, Some _)) => st' = st /\ r.2.1 = OperationResultNone
  | (o, (OperationResultNone, None)) =>
      st' = st /\ st !! k = Some o /\ GetDeletionTimestamp o = None /\ mutate o = (o, None)
  | (o, (OperationResultCreated, None)) =>
      st !! k = None /\ (mutate obj).2 = None /\ accepts (mutate obj).1 o /\ st' = <[k := o]> st
  | (o, (OperationResultUpdated, None)) =>
      exists b, st !! k = Some b /\ b <> (mutate b).1 /\ (mutate b).2 = None /\
        GetDeletionTimestamp b = None /\ accepts (mutate b).1 o /\ st' = <[k := o]> st
  end.

Lemma CreateOrPatch_post obj st :
  wp kube_step (CreateOrPatch mutate obj) (create_or_patch_post obj st) st.
Proof.
  unfold CreateOrPatch. do 2 wp_step. destruct Hx as [-> Hx]. destruct x as [b|e].
  - destruct Hx as [Hx Hk].
    destruct (GetDeletionTimestamp b) eqn:Hd; [by wp_step|].
    unfold patch. pose proof (mutate_key b) as Hm. destruct (mutate b) as [a [e|]] eqn:Hab; [by wp_step|].
    simpl in Hm. case_bool_decide as Hba; [subst a; by wp_step|].
    do 2 wp_step. destruct x as [o|e]; [|by wp_step].
    destruct Hx0 as [Ha ->]. wp_step. simpl. exists b. rewrite Hab, Hm, Hk. done.
  - destruct (is_not_found (Some e)) eqn:Hnf; [|by wp_step]. cbn [negb].
    apply bool_decide_eq_true in Hnf. specialize (Hx Hnf).
    unfold create_mutated.
    pose proof (mutate_key obj) as Hm. destruct (mutate obj) as [a [e'|]] eqn:Hab; [by wp_step|].
    simpl in Hm. do 2 wp_step. destruct Hx0 as [Hw Hc]. destruct x as [o|e'].
    + destruct Hw as [Ha ->]. wp_step. simpl. rewrite Hab, Hm. done.
    + wp_step. simpl in Hw. subst w. unfold IgnoreAlreadyExists. simpl.
      case_bool_decide as Hae; [|done]. apply Hc in Hae. rewrite Hm, Hx in Hae.
      by destruct Hae.
Qed.

(** What the mutate function establishes holds of the stored object, when the server
    keeps it; no other key is touched. *)
Lemma CreateOrPatch_ensures (Pr : O -> Prop) obj st :
  (forall o, (mutate o).2 = None -> Pr (mutate o).1) ->
  (forall o o', accepts o o' -> Pr o -> Pr o') ->
  wp kube_step (CreateOrPatch mutate obj) (fun st' r =>
    (forall k, k <> key_of obj -> st' !! k = st !! k) /\
    (r.2.2 = None -> exists o, st' !! key_of obj = Some o /\ Pr o)) st.
Proof.
  intros Hm Ha. eapply wp_mono; [|apply CreateOrPatch_post].
  intros st' [o [res [e|]]] H; cbn [snd].
  { destruct res; by destruct H as [-> _]. }
  destruct res; simpl in H.
  - destruct H as (-> & Hl & _ & Ho). split; [done|]. intros _. exists o. split; [done|].
    specialize (Hm o). rewrite Ho in Hm. by apply Hm.
  - destruct H as (_ & Ho & Hac & ->). split; [intros; by rewrite lookup_insert_ne|].
    intros _. exists o. rewrite lookup_insert_eq. eauto.
  - destruct H as (b & _ & _ & Hb & _ & Hac & ->). split; [intros; by rewrite lookup_insert_ne|].
    intros _. exists o. rewrite lookup_insert_eq. eauto.
Qed.

(** The calls that change nothing. *)
Definition kube_reads X (e : kubeE O X) : Prop :=
  match e with KubeGet _ => True | _ => False end.

(** On a stored object the mutate function leaves alone, [CreateOrPatch] only reads. *)
Lemma CreateOrPatch_settled obj st o :
  st !! key_of obj = Some o -> mutate o = (o, None) ->
  safe kube_step kube_reads (CreateOrPatch mutate obj) st /\
  wp kube_step (CreateOrPatch mutate obj) (fun st' '(o', (res, err)) =>
    st' = st /\ res = OperationResultNone /\ (err = None -> o' = o)) st.
Proof.
  intros Ho Hm. unfold CreateOrPatch.
  assert (forall b, st !! key_of obj = Some b -> patch mutate b false = mret (b, (OperationResultNone, None))) as Hp.
  { intros b Hb. rewrite Ho in Hb. simplify_eq. unfold patch. rewrite Hm. by case_bool_decide. }
  split.
  - split; [done|]. intros [b|e] st' [-> Hx]; cbn [prog_mbind pbind].
    + destruct Hx as [Hb _]. rewrite (Hp b Hb). by destruct (GetDeletionTimestamp b).
    + destruct (is_not_found (Some e)) eqn:Hnf; [|done].
      apply bool_decide_eq_true in Hnf. rewrite (Hx Hnf) in Ho. done.
  - do 2 wp_step. destruct Hx as [-> Hx]. destruct x as [b|e].
    + destruct Hx as [Hb _]. rewrite (Hp b Hb).
      destruct (GetDeletionTimestamp b); wp_step; split_and!; try done. congruence.
    + destruct (is_not_found (Some e)) eqn:Hnf; [|by wp_step].
      apply bool_decide_eq_true in Hnf. rewrite (Hx Hnf) in Ho. done.
Qed.

(** C5: [CreateOrPatch] touches at most the key of its object, and converges.
    The mutate function is assumed to leave alone what the server made of its
    result.  After a call without an error the object is stored and the mutate
    function leaves it alone; a second call then sends nothing but reads, changes
    nothing that is stored, and reports no operation: without an error (of the
    read, or because the object is being deleted) it returns the stored object. *)
Theorem CreateOrPatch_converges obj st :
  (forall o o', (mutate o).2 = None -> accepts (mutate o).1 o' -> mutate o' = (o', None)) ->
  wp kube_step (CreateOrPatch mutate obj) (fun st1 '(_, (_, err1)) =>
    (forall k, k <> key_of obj -> st1 !! k = st !! k) /\
    (err1 = None -> exists o,
       st1 !! key_of obj = Some o /\ mutate o = (o, None) /\
       safe kube_step kube_reads (CreateOrPatch mutate obj) st1 /\
       wp kube_step (CreateOrPatch mutate obj) (fun st2 '(o2, (res2, err2)) =>
         st2 = st1 /\ res2 = OperationResultNone /\ (err2 = None -> o2 = o)) st1)) st.
Proof.
  intros Hstable. eapply wp_mono; [|apply CreateOrPatch_post].
  intros st1 [o1 [res1 [e|]]] H1; simpl in H1.
  { destruct res1; by destruct H1 as [-> _]. }
  assert ((forall k, k <> key_of obj -> st1 !! k = st !! k) /\
    exists o, st1 !! key_of obj = Some o /\ mutate o = (o, None)) as [Hother (o & Ho & Hm)].
  { destruct res1.
    - destruct H1 as (-> & ? & _ & ?). eauto.
    - destruct H1 as (_ & Hn & Ha & ->). split; [intros; by rewrite lookup_insert_ne|].
      exists o1. rewrite lookup_insert_eq. eauto.
    - destruct H1 as (b & _ & _ & Hn & _ & Ha & ->). split; [intros; by rewrite lookup_insert_ne|].
      exists o1. rewrite lookup_insert_eq. eauto. }
  split; [done|]. intros _. exists o. split_and!; [done..| |]; by eapply CreateOrPatch_settled.
Qed.

(** [Delete] removes the object of its key and nothing else, and is the
    identity where there is none; it makes no write unless the object exists. *)
Lemma Delete_post obj st :
  wp kube_step (Delete obj) (fun st' r =>
    match r with
    | (_, Some _) => st' = st
    | (DeletionResultNotFound, None) => st' = st /\ st !! key_of obj = None
    | (res, None) => res = DeletionResultDeleted /\ is_Some (st !! key_of obj) /\
        st' = delete (key_of obj) st
    end) st.
Proof.
  unfold Delete. do 2 wp_step. destruct Hx as [-> Hx]. destruct x as [b|e].
  - destruct Hx as [Hb Hk]. do 2 wp_step. destruct x as [e|]; simpl in Hx; wp_step; [by destruct Hx|].
    subst. rewrite Hk. split_and!; eauto.
  - destruct (is_not_found (Some e)) eqn:Hnf; wp_step; [|done].
    apply bool_decide_eq_true in Hnf. by auto.
Qed.
Lemma Delete_gone obj st :
  wp kube_step (Delete obj) (fun st' r => r.2 = None -> st' = delete (key_of obj) st) st.
Proof.
  eapply wp_mono; [|apply Delete_post].
  intros st' [[] [e|]] H Herr; simpl in *; try done; destruct_and?; try done.
  by rewrite delete_id.
Qed.
End store.
(** A server that answers every call and keeps what it is sent *)
Definition kube_serve {O} `{Object O} X (e : kubeE O X) : gmap objkey O -> X * gmap objkey O :=
  match e in kubeE _ X return gmap objkey O -> X * gmap objkey O with
  | KubeGet k => fun st =>
      (match st !! k with
       | Some o => if bool_decide (key_of o = k) then Ok o else Err (new_error "key")
       | None => Err (mk_error NotFound "not found")
       end, st)
  | KubeCreate o => fun st =>
      match st !! key_of o with
      | Some _ => (Err (mk_error AlreadyExists "exists"), st)
      | None => (Ok o, <[key_of o := o]> st)
      end
  | KubePatch _ a => fun st => (Ok a, <[key_of a := a]> st)
  | KubeStatusPatch _ _ => fun st => (Err (mk_error NotFound "the server could not find the requested resource"), st)
  | KubeDelete o => fun st => (None, delete (key_of o) st)
  end.
Lemma kube_serve_step {O} `{Object O} (accepts : O -> O -> Prop) X (e : kubeE O X) st :
  (forall o, accepts o o) -> kube_step accepts st X e (kube_serve X e st).1 (kube_serve X e st).2.
Proof.
  intros Ha. destruct e as [k|o|b a|b a|o]; cbn; try done.
  - split; [done|]. destruct (st !! k) as [o|] eqn:Hk; [|done]. by case_bool_decide.
  - destruct (st !! key_of o) as [o'|] eqn:Hk; cbn; by rewrite ?Hk.
  - eauto.
Qed.

(** The answer recorded with a [KubeGet]. *)
Definition got {O} (c : call (kubeE O)) : option (objkey * result O) :=
  match c with
  | Call e x => match e in kubeE _ X return X -> option (objkey * result O) with
                | KubeGet k => fun r => Some (k, r)
                | _ => fun _ => None
                end x
  end.
Lemma kube_get_inj {O} k k' (r r' : result O) :
  Call (KubeGet k) r = Call (KubeGet k') r' -> k = k' /\ r = r'.
Proof. intros H%(f_equal got). by injection H. Qed.

Section owner_label.
Context {O : Type} {HObj : Object O}.

(** The owner label condition.  Whatever the API server answers, the
    condition is about the OwnerLabelSet type and is never Unknown; it is True
    exactly when the object has a namespace and a non-empty owned-by label
    naming a Team of that namespace that is a support group, and then that Team
    is the only object read. *)
Theorem ComputeOwnerLabelCondition_true now (o : O) :
  wp (traced any_answer) (ComputeOwnerLabelCondition now o) (fun h c =>
    CondType c = OwnerLabelSetCondition /\ IsTrue c = negb (IsFalse c) /\
    (IsTrue c = true <-> exists name team,
       GetNamespace o <> "" /\ name <> "" /\
       GetLabels o !! LabelKeyOwnedBy = Some name /\
       h = [Call (KubeGet (mk_key (GetNamespace o) name)) (Ok team)] /\
       GetLabels team !! LabelKeySupportGroup = Some "true")) [].
Proof.
  unfold ComputeOwnerLabelCondition.
  case_bool_decide as Hns; [wp_step; simpl; naive_solver|].
  case_bool_decide as Hn.
  { wp_step. split_and!; [done..|]. split; [done|].
    intros (name & team & _ & Hne & Hl & _). by rewrite Hl in Hn. }
  destruct (GetLabels o !! LabelKeyOwnedBy) as [name|] eqn:Hl; [|done]. simpl in *.
  wp_step. destruct Hx as [_ ->]. destruct x as [team|e].
  - case_bool_decide as Hs; wp_step; (split_and!; [done..|]).
    + split; [|done]. intros _. by exists name, team.
    + split; [done|]. intros (name' & team' & _ & _ & _ & Hh & Ht).
      apply (f_equal head), (inj Some), kube_get_inj in Hh as [_ Hh]. congruence.
  - case_bool_decide; wp_step; (split_and!; [done..|]); split; try done;
      intros (name' & team' & _ & _ & _ & Hh & Ht);
      by apply (f_equal head), (inj Some), kube_get_inj in Hh as [_ Hh].
Qed.
End owner_label.

(** ** Instances *)
Definition example_team : Team :=
  mk_team (named "infra" "org") (mk_team_spec "" "idp-infra" "") (mk_team_status [] []).
Definition label_support (t : Team) : Team * option error :=
  (SetLabels (<[LabelKeySupportGroup := "true"]> (GetLabels t)) t, None).

Lemma label_support_idem t : label_support (label_support t).1 = label_support t.
Proof.
  unfold label_support, SetLabels, GetLabels. simpl. by rewrite insert_insert_eq.
Qed.

Lemma CreateOrPatch_converges_witness :
  wp (kube_step (@eq Team)) (CreateOrPatch label_support example_team)
    (fun st1 '(_, (_, err1)) => err1 = None -> exists o,
       st1 !! key_of example_team = Some o /\ label_support o = (o, None) /\
       safe (kube_step (@eq Team)) kube_reads (CreateOrPatch label_support example_team) st1) ∅.
Proof.
  eapply wp_mono; [|apply (CreateOrPatch_converges (@eq Team) label_support)].
  - intros st [o1 [res1 err1]] [_ H] He. destruct (H He) as (o & Ho & Hm & Hs & _). by exists o.
  - intros o. reflexivity.
  - intros o o' _ <-. rewrite label_support_idem. reflexivity.
Defined.

Lemma ComputeOwnerLabelCondition_true_witness :
  wp (traced any_answer)
    (ComputeOwnerLabelCondition 7 (set_meta (with_labels {[LabelKeyOwnedBy := "infra"]} (named "c1" "org"))
       (mk_cluster (named "c1" "org") (mk_cluster_spec "direct" 0) (mk_cluster_status "" None [] None))))
    (fun _ c => CondType c = OwnerLabelSetCondition) [].
Proof.
  eapply wp_mono; [|apply ComputeOwnerLabelCondition_true]. intros h c [H _]. exact H.
Defined.
