(* ===== verification/WebhookUtil.v ===== *)
(** * WebhookUtil: what the admission webhooks share ([internal/webhook/utils.go])

    Field errors, checks on names, URLs and the owner label, and the four functions a
    webhook consists of.  An admission warning is a string.  Logging has no model;
    [url.Parse] is a parameter. *)
From S2P Require Import Prelude Effects Conditions Meta ApiTypes.

(** ** Field errors ([k8s.io/apimachinery/pkg/util/validation/field]) *)
Definition required (path detail : string) : error :=
  mk_error Invalid (path +:+ ": Required value: " +:+ detail).
Definition invalid (path value detail : string) : error :=
  mk_error Invalid (path +:+ ": Invalid value: " +:+ value +:+ ": " +:+ detail).
Definition type_invalid (path value detail : string) : error :=
  mk_error Invalid (path +:+ ": Invalid value: " +:+ value +:+ ": " +:+ detail).
Definition duplicate (path value : string) : error :=
  mk_error Invalid (path +:+ ": Duplicate value: " +:+ value).
Definition forbidden (path detail : string) : error :=
  mk_error OtherReason (path +:+ ": Forbidden: " +:+ detail).
Definition field_not_found (path value : string) : error :=
  mk_error OtherReason (path +:+ ": Not found: " +:+ value).
Definition internal_error (path detail : string) : error :=
  mk_error OtherReason (path +:+ ": Internal error: " +:+ detail).
(** [path.Index(i)] *)
Definition at_index (path : string) (i : nat) : string := path +:+ "[" +:+ pretty.pretty i +:+ "]".

(** ** The functions of a webhook *)
Record WebhookFuncs (E : Type -> Type) (T : Type) := mk_webhook {
  DefaultFunc : option (T -> prog E (T * option error));
  ValidateCreateFunc : option (T -> prog E (list string * option error));
  ValidateUpdateFunc : option (T -> T -> prog E (list string * option error));
  ValidateDeleteFunc : option (T -> prog E (list string * option error))
}.
Arguments mk_webhook {E T} _ _ _ _.
Arguments DefaultFunc {E T} _.
Arguments ValidateCreateFunc {E T} _.
Arguments ValidateUpdateFunc {E T} _.
Arguments ValidateDeleteFunc {E T} _.
Section funcs.
Context {E : Type -> Type} {T : Type}.
Variable w : WebhookFuncs E T.
Definition Default (obj : T) : prog E (T * option error) :=
  match DefaultFunc w with None => mret (obj, None) | Some f => f obj end.
Definition ValidateCreate (obj : T) : prog E (list string * option error) :=
  match ValidateCreateFunc w with None => mret ([], None) | Some f => f obj end.
Definition ValidateUpdate (oldObj newObj : T) : prog E (list string * option error) :=
  match ValidateUpdateFunc w with None => mret ([], None) | Some f => f oldObj newObj end.
Definition ValidateDelete (obj : T) : prog E (list string * option error) :=
  match ValidateDeleteFunc w with None => mret ([], None) | Some f => f obj end.
End funcs.

(** ** Checks *)
Definition ValidateImmutableField (oldValue newValue path : string) : option error :=
  if negb (bool_decide (oldValue = newValue)) then Some (invalid path newValue "field is immutable")
  else None.

(** [url.Parse]: scheme and host *)
Class UrlParser := url_Parse_parts : string -> result (string * string).
Definition ValidateURL `{UrlParser} (str : string) : bool :=
  match url_Parse_parts str with
  | Err _ => false
  | Ok (scheme, host) =>
      if bool_decide (scheme = "") || bool_decide (host = "") then false
      else bool_decide (scheme = "https")
  end.

Definition InvalidateDoubleDashesInName {O} `{Object O} (obj : O) : option error :=
  if contains (GetName obj) "--" then
    Some (invalid "metadata.name" (GetName obj) "name cannot contain double dashes")
  else None.
Definition CapName {O} `{Object O} (obj : O) (length : nat) : option error :=
  if (length <? String.length (GetName obj))%nat then
    Some (invalid "metadata.name" (GetName obj) ("name must be less than or equal to " +:+ pretty.pretty length))
  else None.

(** [ValidateLabelOwnedBy]: the empty string when the owner is a support group. *)
Inductive ownerE : Type -> Type :=
| OGetTeam (k : objkey) : ownerE (result Team).
Definition owner_path : string := "metadata.labels[" +:+ LabelKeyOwnedBy +:+ "]".
Definition ValidateLabelOwnedBy {O} `{Object O} (resourceObj : O) : prog ownerE string :=
  let namespace := GetNamespace resourceObj in
  if bool_decide (namespace = "") then
    mret (err_msg (required "metadata.namespace" "namespace is required to validate the owner"))
  else
    match GetLabels resourceObj !! LabelKeyOwnedBy with
    | None => mret (err_msg (required owner_path ("label " +:+ LabelKeyOwnedBy +:+ " is required")))
    | Some ownerName =>
        if bool_decide (ownerName = "") then
          mret (err_msg (required owner_path ("label " +:+ LabelKeyOwnedBy +:+ " value is required")))
        else
          r ← trigger (OGetTeam (mk_key namespace ownerName));
          mret match r with
          | Err e =>
              if is_not_found (Some e) then
                err_msg (invalid owner_path ownerName
                           ("team " +:+ ownerName +:+ " does not exist in the resource namespace"))
              else err_msg (invalid owner_path ownerName
                              ("team " +:+ ownerName +:+ " could not be retrieved: " +:+ err_msg e))
          | Ok team =>
              if bool_decide (GetLabels team !! LabelKeySupportGroup = Some "true") then ""
              else err_msg (invalid owner_path ownerName
                              ("owner team " +:+ ownerName +:+ " should be a support group"))
          end
    end.

Lemma err_msg_required path detail : path <> "" -> err_msg (required path detail) <> "".
Proof. by destruct path. Qed.
Lemma err_msg_invalid path value detail : path <> "" -> err_msg (invalid path value detail) <> "".
Proof. by destruct path. Qed.
Definition owner_answer (c : call ownerE) : objkey * result Team :=
  match c with Call e x =>
    match e in ownerE X return X -> objkey * result Team with OGetTeam k => fun r => (k, r) end x end.
Lemma owner_answer_inj h k r k' r' :
  h ++ [Call (OGetTeam k) r] = h ++ [Call (OGetTeam k') r'] -> k = k' /\ r = r'.
Proof.
  intros [_ H]%app_inj_2; [|done]. apply (f_equal (fmap owner_answer)) in H. by injection H.
Qed.
(** The owner is accepted without a warning exactly when the Team it names was read
    and is a support group. *)
Lemma ValidateLabelOwnedBy_spec {O} `{Object O} (o : O) h :
  wp (traced any_answer) (ValidateLabelOwnedBy o) (fun h' warn =>
    warn = "" <-> exists name team,
      GetNamespace o <> "" /\ name <> "" /\ GetLabels o !! LabelKeyOwnedBy = Some name /\
      h' = h ++ [Call (OGetTeam (mk_key (GetNamespace o) name)) (Ok team)] /\
      GetLabels team !! LabelKeySupportGroup = Some "true") h.
Proof.
  unfold ValidateLabelOwnedBy.
  case_bool_decide as Hns; [wp_step; by split; [|intros (? & ? & ? & _)]|].
  destruct (GetLabels o !! LabelKeyOwnedBy) as [name|] eqn:Hl;
    [|wp_step; by split; [|intros (? & ? & _ & _ & ? & _)]].
  case_bool_decide as Hn.
  { wp_step. split; [done|]. intros (? & ? & _ & ? & [= <-] & _). done. }
  do 2 wp_step. destruct Hx as [_ ->]. apply wp_ret. destruct x as [team|e].
  - case_bool_decide as Hs; split; try done; [by exists name, team|].
    intros (name' & team' & _ & _ & _ & Hh & Ht). apply owner_answer_inj in Hh as [_ [= ->]]. done.
  - case_match; split; try done; intros (name' & team' & _ & _ & _ & Hh & _);
      by apply owner_answer_inj in Hh as [_ Hh].
Qed.
