(* ===== verification/TeamRBAC.v ===== *)
(** * TeamRBAC: [internal/controller/teamrbac/teamrolebinding_controller.go]

    The TeamRoleBinding controller: it turns a TeamRoleBinding into RBAC objects
    on the clusters it selects, records per cluster how that went, and removes
    the objects again.  The calls go to the central cluster ([CGet..., CList...,
    CTeam]) and, through a client obtained with [Connect], to remote clusters
    ([On...], tagged with the key of the cluster).  [Panic] is a nil
    dereference: it never answers.

    The status slice is modelled with its backing array where the code ranges
    over it while changing it ([pslice]). *)
From S2P Require Import Prelude Effects Conditions Meta CoreTypes ApiTypes Lifecycle ClientUtil.

(** ** RBAC objects ([k8s.io/api/rbac/v1]), with the fields the code touches *)
Definition rbac_GroupName : string := "rbac.authorization.k8s.io".
Definition UserKind : string := "User".
Definition GroupKind : string := "Group".
Record Subject := mk_subject { sub_Kind : string; sub_APIGroup : string; sub_Name : string }.
#[export] Instance Subject_eq_dec : EqDecision Subject.
Proof. solve_decision. Defined.
Record RoleRef := mk_role_ref { rr_APIGroup : string; rr_Kind : string; rr_Name : string }.
#[export] Instance RoleRef_eq_dec : EqDecision RoleRef.
Proof. solve_decision. Defined.

(** [ClusterRoleBinding] and [RoleBinding] have the same fields. *)
Record Binding := mk_binding {
  b_meta : ObjectMeta; b_RoleRef : RoleRef; b_Subjects : list Subject }.
#[export] Instance Binding_eq_dec : EqDecision Binding.
Proof. solve_decision. Defined.
#[export] Instance Binding_object : Object Binding := {|
  get_meta := b_meta; set_meta m o := mk_binding m (b_RoleRef o) (b_Subjects o) |}.
Definition empty_role_ref : RoleRef := mk_role_ref "" "" "".

(** ** The calls *)
Inductive rbacE : Type -> Type :=
| CGetTeamRole (k : objkey) : rbacE (result TeamRole)
| CTeam {X} (e : kubeE Team X) : rbacE X
| CGetCluster (k : objkey) : rbacE (result Cluster)
| CListClusters (namespace selector : string) : rbacE (result (list Cluster))
| Connect (c : objkey) : rbacE (option error)
| OnClusterRole (c : objkey) {X} (e : kubeE ClusterRole X) : rbacE X
| OnClusterRoleBinding (c : objkey) {X} (e : kubeE Binding X) : rbacE X
| OnRoleBinding (c : objkey) {X} (e : kubeE Binding X) : rbacE X
| OnCreateNamespace (c : objkey) (name : string) : rbacE (option error)
| OnListRoleBindings (c : objkey) (name : string) : rbacE (result (list Binding))
| OnListRoles (c : objkey) (key value : string) : rbacE (result (list ObjectMeta))
| OnListClusterRoleBindings (c : objkey) (key value : string) : rbacE (result (list Binding))
| Panic : rbacE Empty_set.

Definition EmptyClusterMessage : string := "Failed to get clusters for TeamRoleBinding".
Definition exposedConditions : list string :=
  [ReadyCondition; RBACReady; OwnerLabelSetCondition].

(** ** Pure parts *)
Definition isClusterScoped (trb : TeamRoleBinding) : bool :=
  bool_decide (Namespaces (trb_Spec trb) = []).

Definition resolveTeamRefs (trb : TeamRoleBinding) : list string :=
  if bool_decide (TeamRefs (trb_Spec trb) <> []) then TeamRefs (trb_Spec trb)
  else if bool_decide (TeamRef (trb_Spec trb) <> "") then [TeamRef (trb_Spec trb)]
  else [].

Definition generateSubjects (usernames mappedIDPGroups : list string) : list Subject :=
  ((fun u => mk_subject UserKind rbac_GroupName u) <$> usernames) ++
  ((fun g => mk_subject GroupKind rbac_GroupName g) <$>
     List.filter (fun g => negb (bool_decide (g = ""))) mappedIDPGroups).

Definition initRBACClusterRole (teamRole : TeamRole) : ClusterRole :=
  let roleLabels := <[LabelKeyRole := GetName teamRole]> (tr_Labels (tr_Spec teamRole)) in
  mk_cluster_role (with_labels roleLabels (named (TeamRole_GetRBACName teamRole) ""))
    (tr_Rules (tr_Spec teamRole)) (tr_AggregationRule (tr_Spec teamRole)).

Definition role_ref_to (clusterRole : ClusterRole) : RoleRef :=
  mk_role_ref rbac_GroupName "ClusterRole" (GetName clusterRole).
Definition rbacRoleBinding (trb : TeamRoleBinding) (clusterRole : ClusterRole)
    (subjects : list Subject) (namespace : string) : Binding :=
  mk_binding (with_labels {[LabelKeyRoleBinding := GetName trb]} (named (GetRBACName trb) namespace))
    (role_ref_to clusterRole) subjects.
Definition rbacClusterRoleBinding (trb : TeamRoleBinding) (clusterRole : ClusterRole)
    (subjects : list Subject) : Binding :=
  mk_binding
    (with_labels {[LabelKeyRoleBinding := GetName trb; LabelKeyRole := TeamRoleRef (trb_Spec trb)]}
       (named (GetRBACName trb) ""))
    (role_ref_to clusterRole) subjects.

(** [initTeamRoleBindingStatus] *)
Definition initTeamRoleBindingStatus (now : Z) (trb : TeamRoleBinding) : TeamRoleBinding :=
  trb_set_conditions (init_conditions now exposedConditions (trb_conditions (trb_Status trb))) trb.

(** [computeReadyCondition]; [None] when the Ready condition is nil, which the
    code dereferences. *)
Definition computeReadyCondition (status : TeamRoleBindingStatus) : option Condition :=
  match GetConditionByType (trb_conditions status) ReadyCondition with
  | None => None
  | Some readyCondition => Some (
      if contains_func (trb_propagation status) (fun ps => negb (IsTrue (ps_Condition ps)))
      then set_message "Team RBAC reconciliation failed" (set_status ConditionFalse readyCondition)
      else set_message "ready" (set_status ConditionTrue readyCondition))
  end.

Definition cluster_ready (c : Cluster) : bool := IsReadyTrue (cluster_conditions (cluster_Status c)).
Definition named_cluster (name : string) (c : Cluster) : bool := bool_decide (GetName c = name).

(** ** Remote objects *)
Section remote.
Variable c : objkey.
Definition on_cr {X} (p : prog (kubeE ClusterRole) X) : prog rbacE X :=
  translate (fun _ => OnClusterRole c) p.
Definition on_crb {X} (p : prog (kubeE Binding) X) : prog rbacE X :=
  translate (fun _ => OnClusterRoleBinding c) p.
Definition on_rb {X} (p : prog (kubeE Binding) X) : prog rbacE X :=
  translate (fun _ => OnRoleBinding c) p.

(** The mutate functions of the three [CreateOrPatch] calls. *)
Definition mutate_role (cr remote : ClusterRole) : ClusterRole * option error :=
  (mk_cluster_role (with_labels (GetLabels cr) (cr_meta remote)) (cr_Rules cr)
     (cr_AggregationRule cr), None).
Definition mutate_binding (b remote : Binding) : Binding * option error :=
  (mk_binding (with_labels (GetLabels b) (b_meta remote)) (b_RoleRef b) (b_Subjects b), None).

Definition reconcileClusterRole (cr : ClusterRole) : prog rbacE (option error) :=
  '(_, (_, err)) ← on_cr (CreateOrPatch (mutate_role cr)
                            (mk_cluster_role (named (GetName cr) "") [] None));
  mret err.
Definition reconcileClusterRoleBinding (crb : Binding) : prog rbacE (option error) :=
  '(_, (_, err)) ← on_crb (CreateOrPatch (mutate_binding crb)
                             (mk_binding (named (GetName crb) "") empty_role_ref []));
  mret err.
Definition reconcileRoleBinding (rb : Binding) (createNamespaces : bool) :
    prog rbacE (option error) :=
  '(_, (_, err)) ← on_rb (CreateOrPatch (mutate_binding rb)
                            (mk_binding (named (GetName rb) (GetNamespace rb)) empty_role_ref []));
  match err with
  | None => mret None
  | Some e =>
      if createNamespaces && is_not_found (Some e) then
        nerr ← trigger (OnCreateNamespace c (GetNamespace rb));
        match nerr with
        | Some e => mret (Some e)
        | None => mret (Some (new_error "failed to create RoleBinding, created missing namespace"))
        end
      else mret (Some e)
  end.

(** The loop of [clientutil.Delete] calls over RoleBindings. *)
Definition delete_role_bindings (rbs : list Binding) : prog rbacE (option error) :=
  r ← foreach rbs (fun (_ : unit) rb =>
        '(_, err) ← on_rb (Delete rb);
        match err with
        | Some e => mret (inr e)
        | None => mret (inl tt)
        end) tt;
  match r with inl _ => mret None | inr e => mret (Some e) end.

Definition deleteAllDeployedRoleBindings (trb : TeamRoleBinding) : prog rbacE (option error) :=
  r ← trigger (OnListRoleBindings c (GetRBACName trb));
  match r with
  | Err e => mret (ignore_not_found (Some e))
  | Ok rbs => delete_role_bindings rbs
  end.

Definition deleteClusterRoleBinding (trb : TeamRoleBinding) : prog rbacE (option error) :=
  '(_, err) ← on_crb (Delete (mk_binding (named (GetRBACName trb) "") empty_role_ref []));
  mret err.

Definition deleteClusterRole (trb : TeamRoleBinding) : prog rbacE (option error) :=
  '(_, err) ← on_cr (Delete (mk_cluster_role
                       (named (RBACPrefix +:+ TeamRoleRef (trb_Spec trb)) "") [] None));
  mret err.

Definition isRoleReferenced (trb : TeamRoleBinding) : prog rbacE (bool * option error) :=
  let role := TeamRoleRef (trb_Spec trb) in
  roles ← trigger (OnListRoles c LabelKeyRole role);
  match roles with
  | Err e => mret (true, Some e)
  | Ok (_ :: _) => mret (true, None)
  | Ok [] =>
      crbs ← trigger (OnListClusterRoleBindings c LabelKeyRole role);
      match crbs with
      | Err e => mret (true, Some e)
      | Ok (_ :: _) => mret (true, None)
      | Ok [] => mret (false, None)
      end
  end.
End remote.

(** ** The status slice and its backing array

    [slices.DeleteFunc] moves the kept entries to the front of the array it is
    given and zeroes the freed places; the range loop that is running keeps
    reading that array.  [backing old new arr] is the array after the slice of
    entries [old] became [new]. *)
Definition zero_ps : PropagationStatus := mk_ps "" (mk_condition "" "" "" None "").
Definition backing (old new arr : list PropagationStatus) : list PropagationStatus :=
  new ++ replicate (length old - length new) zero_ps ++ drop (max (length old) (length new)) arr.
Definition statuses (trb : TeamRoleBinding) : list PropagationStatus :=
  trb_propagation (trb_Status trb).
(** A change of the status slice while a loop reads its array. *)
Definition update_ranged (f : TeamRoleBinding -> TeamRoleBinding)
    (st : TeamRoleBinding * list PropagationStatus) : TeamRoleBinding * list PropagationStatus :=
  let '(trb, arr) := st in (f trb, backing (statuses trb) (statuses (f trb)) arr).

Section controller.
Variable now : Z.
(** apimachinery's conversion of a label selector *)
Variable LabelSelectorAsSelector : string -> result string.

Definition cleanupClusterNamespaces (trb : TeamRoleBinding) (cluster : Cluster) :
    prog rbacE (option error) :=
  if isClusterScoped trb then mret None
  else
    let c := key_of cluster in
    cerr ← trigger (Connect c);
    match cerr with
    | Some e => mret (Some e)
    | None =>
        r ← trigger (OnListRoleBindings c (GetRBACName trb));
        match r with
        | Err e => mret (ignore_not_found (Some e))
        | Ok rbs =>
            delete_role_bindings c
              (delete_func (fun rb => slices_contains (Namespaces (trb_Spec trb)) (GetNamespace rb)) rbs)
        end
    end.

Definition cleanupCluster (trb : TeamRoleBinding) (cluster : Cluster) :
    prog rbacE (option error) :=
  let c := key_of cluster in
  cerr ← trigger (Connect c);
  match cerr with
  | Some e => mret (Some e)
  | None =>
      derr ← (if isClusterScoped trb then deleteClusterRoleBinding c trb
              else deleteAllDeployedRoleBindings c trb);
      match derr with
      | Some e => mret (Some e)
      | None =>
          '(isReferenced, err) ← isRoleReferenced c trb;
          match err with
          | Some e => mret (Some e)
          | None => if isReferenced : bool then mret None else deleteClusterRole c trb
          end
      end
  end.

Definition getTeamRole (trb : TeamRoleBinding) : prog rbacE (result TeamRole) :=
  if bool_decide (TeamRoleRef (trb_Spec trb) = "") then
    mret (Err (new_error ("error missing teamrole reference for teamrole " +:+ GetName trb)))
  else
    r ← trigger (CGetTeamRole (mk_key (GetNamespace trb) (TeamRoleRef (trb_Spec trb))));
    match r with
    | Err e => mret (Err (wrap_error "error getting teamrole: " e))
    | Ok tr => mret (Ok tr)
    end.

(** [getTeams]: the teams found and the names of those missing. *)
Definition getTeams (trb : TeamRoleBinding) : prog rbacE (result (list Team * list string)) :=
  r ← foreach (resolveTeamRefs trb) (fun '(teams, missing) ref =>
        r ← trigger (CTeam (KubeGet (mk_key (GetNamespace trb) ref)));
        match r with
        | Err e =>
            if is_not_found (Some e) then mret (inl (teams, missing ++ [ref]))
            else mret (inr (wrap_error ("error getting team " +:+ ref +:+ ": ") e))
        | Ok team => mret (inl (teams ++ [team], missing))
        end) ([], []);
  match r with inl p => mret (Ok p) | inr e => mret (Err e) end.

(** [listClusters]: clusters selected by label that are not ready are dropped
    and noted in the status. *)
Definition not_ready_status (trb : TeamRoleBinding) (name : string) : TeamRoleBinding :=
  SetPropagationStatus now name ConditionFalse ClusterConnectionFailed "Cluster is not ready" trb.
Definition listClusters (trb : TeamRoleBinding) :
    prog rbacE (TeamRoleBinding * result (list Cluster)) :=
  let sel := trb_ClusterSelector (trb_Spec trb) in
  if bool_decide (cs_Name sel <> "") then
    r ← trigger (CGetCluster (mk_key (GetNamespace trb) (cs_Name sel)));
    match r with
    | Err e => if is_not_found (Some e) then mret (trb, Ok []) else mret (trb, Err e)
    | Ok cluster => mret (trb, Ok [cluster])
    end
  else
    match LabelSelectorAsSelector (cs_LabelSelector sel) with
    | Err e => mret (trb, Err e)
    | Ok selector =>
        r ← trigger (CListClusters (GetNamespace trb) selector);
        match r with
        | Err e => mret (trb, Err e)
        | Ok clusters =>
            let not_ready := List.filter (fun c => negb (cluster_ready c)) clusters in
            mret (fold_left (fun t c => not_ready_status t (GetName c)) not_ready trb,
                  Ok (List.filter cluster_ready clusters))
        end
    end.

(** [combineClusterLists]: on a cluster that is gone the code passes the name
    of the empty object it just failed to read. *)
Definition combineClusterLists (namespace : string) (clusters : list Cluster)
    (trb : TeamRoleBinding) : prog rbacE (TeamRoleBinding * list Cluster * option error) :=
  r ← foreach (seq 0 (length (statuses trb))) (fun '(st, clusters) i =>
        let ps := nth i st.2 zero_ps in
        if contains_func clusters (named_cluster (ClusterName ps)) then mret (inl (st, clusters))
        else
          r ← trigger (CGetCluster (mk_key namespace (ClusterName ps)));
          match r with
          | Err e =>
              if is_not_found (Some e)
              then mret (inl (update_ranged (RemovePropagationStatus "") st, clusters))
              else mret (inr (st.1, clusters, e))
          | Ok cluster => mret (inl (st, clusters ++ [cluster]))
          end) ((trb, statuses trb), clusters);
  match r with
  | inl (st, clusters) => mret (st.1, clusters, None)
  | inr (trb, clusters, e) => mret (trb, clusters, Some e)
  end.

Definition cleanupResources (trb : TeamRoleBinding) (clusters : list Cluster) :
    prog rbacE (TeamRoleBinding * option error) :=
  r ← foreach (seq 0 (length (statuses trb))) (fun st i =>
        let trb := st.1 in
        let s := nth i st.2 zero_ps in
        if negb (contains_func clusters (named_cluster (ClusterName s))) then
          r ← trigger (CGetCluster (mk_key (GetNamespace trb) (ClusterName s)));
          match r with
          | Err e =>
              if is_not_found (Some e)
              then mret (inl (update_ranged (RemovePropagationStatus (ClusterName s)) st))
              else mret (inr (trb, e))
          | Ok cluster =>
              if negb (cluster_ready cluster) then
                mret (inl (update_ranged (fun t => not_ready_status t (ClusterName s)) st))
              else
                err ← cleanupCluster trb cluster;
                match err with
                | Some e => mret (inr (trb, e))
                | None => mret (inl (update_ranged (RemovePropagationStatus (ClusterName s)) st))
                end
          end
        else
          r ← trigger (CGetCluster (mk_key (GetNamespace trb) (ClusterName s)));
          match r with
          | Err e => mret (inr (trb, e))
          | Ok cluster =>
              err ← cleanupClusterNamespaces trb cluster;
              match err with
              | Some e => mret (inr (trb, e))
              | None => mret (inl st)
              end
          end) (trb, statuses trb);
  match r with
  | inl st => mret (st.1, None)
  | inr (trb, e) => mret (trb, Some e)
  end.

(** ** [doReconcile] *)
Definition add_once (name : string) (l : list string) : list string :=
  if slices_contains l name then l else l ++ [name].
Definition propagation_failed (name reason : string) (e : error) (trb : TeamRoleBinding) :=
  SetPropagationStatus now name ConditionFalse reason (err_msg e) trb.
Definition propagation_ok (name : string) (trb : TeamRoleBinding) :=
  SetPropagationStatus now name ConditionTrue RBACReconciled "" trb.

(** The namespaced case: one RoleBinding per namespace, all of them tried. *)
Definition reconcile_namespaces (c : objkey) (trb : TeamRoleBinding) (cr : ClusterRole)
    (subjects : list Subject) : prog rbacE (list string) :=
  r ← foreach (R := Empty_set) (Namespaces (trb_Spec trb)) (fun msgs namespace =>
        err ← reconcileRoleBinding c (rbacRoleBinding trb cr subjects namespace)
                (CreateNamespaces (trb_Spec trb));
        match err with
        | Some e => mret (inl (msgs ++ [err_msg e]))
        | None => mret (inl msgs)
        end) [];
  match r with inl msgs => mret msgs | inr e => Empty_set_rect _ e end.

(** One cluster; the second component says whether it goes on the failed list. *)
Definition reconcile_cluster (cr : ClusterRole) (subjects : list Subject)
    (trb : TeamRoleBinding) (cluster : Cluster) : prog rbacE (TeamRoleBinding * bool) :=
  let c := key_of cluster in
  let name := GetName cluster in
  cerr ← trigger (Connect c);
  match cerr with
  | Some e => mret (propagation_failed name ClusterConnectionFailed e trb, true)
  | None =>
      rerr ← reconcileClusterRole c cr;
      match rerr with
      | Some e => mret (propagation_failed name ClusterRoleFailed e trb, true)
      | None =>
          if isClusterScoped trb then
            berr ← reconcileClusterRoleBinding c (rbacClusterRoleBinding trb cr subjects);
            match berr with
            | Some e => mret (propagation_failed name RoleBindingFailed e trb, true)
            | None => mret (propagation_ok name (propagation_ok name trb), false)
            end
          else
            msgs ← reconcile_namespaces c trb cr subjects;
            if bool_decide (msgs <> []) then
              mret (SetPropagationStatus now name ConditionFalse RoleBindingFailed
                      ("Failed to reconcile RoleBindings: " +:+ join ", " msgs) trb, true)
            else mret (propagation_ok name trb, false)
      end
  end.

Definition doReconcile (teamRole : TeamRole) (clusters : list Cluster) (trb : TeamRoleBinding)
    (subjects : list Subject) : prog rbacE (TeamRoleBinding * option error) :=
  let cr := initRBACClusterRole teamRole in
  r ← foreach (R := Empty_set) clusters (fun '(trb, failedClusters) cluster =>
        '(trb, failed) ← reconcile_cluster cr subjects trb cluster;
        mret (inl (trb, if failed : bool then add_once (GetName cluster) failedClusters
                        else failedClusters))) (trb, []);
  match r with
  | inr e => Empty_set_rect _ e
  | inl (trb, failedClusters) =>
      if bool_decide (failedClusters <> []) then
        let message := "Error reconciling TeamRoleBinding for clusters: " +:+ join ", " failedClusters in
        mret (SetCondition now (FalseCondition now RBACReady RBACReconcileFailed message) trb,
              Some (new_error message))
      else mret (SetCondition now (TrueCondition now RBACReady RBACReconciled "") trb, None)
  end.

(** ** The callbacks *)
Definition rbac_false (reason message : string) (trb : TeamRoleBinding) : TeamRoleBinding :=
  SetCondition now (FalseCondition now RBACReady reason message) trb.

Definition teams_not_found (missing : list string) (trb : TeamRoleBinding) : string :=
  "Team(s) " +:+ join ", " missing +:+ " not found in namespace " +:+ GetNamespace trb.
Definition teams_partly_found (missing : list string) (trb : TeamRoleBinding) : string :=
  "RBAC reconciled with available teams, but team(s) " +:+ join ", " missing +:+
  " not found in namespace " +:+ GetNamespace trb.

(** [EnsureCreated] once the clusters are known and cleaned up. *)
Definition reconcile_selected (teamRole : TeamRole) (clusters : list Cluster)
    (trb : TeamRoleBinding) : prog rbacE (TeamRoleBinding * cb_result) :=
  t ← getTeams trb;
  match t with
  | Err e => mret (trb, cb_failed e)
  | Ok (teams, missingTeams) =>
      if bool_decide (missingTeams <> []) && bool_decide (teams = []) then
        mret (rbac_false TeamNotFound (teams_not_found missingTeams trb) trb, cb_ok)
      else
        let subjects := generateSubjects (Usernames (trb_Spec trb))
                          ((fun t => MappedIDPGroup (team_Spec t)) <$> teams) in
        '(trb, err) ← doReconcile teamRole clusters trb subjects;
        match err with
        | Some e => mret (trb, cb_failed e)
        | None =>
            if bool_decide (missingTeams <> []) then
              mret (SetCondition now (TrueCondition now RBACReady RBACReconciled
                      (teams_partly_found missingTeams trb)) trb, cb_ok)
            else mret (trb, cb_ok)
        end
  end.

Definition trb_EnsureCreated (trb : TeamRoleBinding) : prog rbacE (TeamRoleBinding * cb_result) :=
  let trb := initTeamRoleBindingStatus now trb in
  tr ← getTeamRole trb;
  match tr with
  | Err e =>
      if is_not_found (Some e) then
        mret (rbac_false TeamRoleNotFound
                ("TeamRole " +:+ TeamRoleRef (trb_Spec trb) +:+ " not found in namespace " +:+
                 GetNamespace trb) trb, cb_ok)
      else mret (trb, cb_failed e)
  | Ok teamRole =>
      '(trb, r) ← listClusters trb;
      match r with
      | Err e => mret (rbac_false EmptyClusterList EmptyClusterMessage trb, cb_failed e)
      | Ok clusters =>
          '(trb, err) ← cleanupResources trb clusters;
          match err with
          | Some e => mret (trb, cb_failed e)
          | None =>
              if bool_decide (clusters = []) then
                mret (rbac_false EmptyClusterList "" trb, cb_ok)
              else reconcile_selected teamRole clusters trb
          end
      end
  end.

Definition trb_EnsureDeleted (trb : TeamRoleBinding) : prog rbacE (TeamRoleBinding * cb_result) :=
  '(trb, r) ← listClusters trb;
  match r with
  | Err e => mret (trb, cb_failed e)
  | Ok clusters =>
      '(trb, clusters, err) ← combineClusterLists (GetNamespace trb) clusters trb;
      match err with
      | Some e => mret (trb, cb_failed e)
      | None =>
          r ← foreach (R := Empty_set) clusters (fun trb cluster =>
                err ← cleanupCluster trb cluster;
                match err with
                | Some _ => mret (inl trb)
                | None => mret (inl (RemovePropagationStatus (GetName cluster) trb))
                end) trb;
          match r with
          | inr e => Empty_set_rect _ e
          | inl trb =>
              if bool_decide (statuses trb = []) then mret (trb, cb_ok)
              else mret (trb, (ctrl_done, Pending, None))
          end
      end
  end.

Definition setConditions (trb : TeamRoleBinding) : prog rbacE TeamRoleBinding :=
  match computeReadyCondition (trb_Status trb) with
  | None => PVis Panic (fun e : Empty_set => match e with end)
  | Some readyCondition =>
      ownerLabelCondition ← translate (fun _ => CTeam) (ComputeOwnerLabelCondition now trb);
      mret (trb_set_conditions
              (SetConditions now (trb_conditions (trb_Status trb))
                 [readyCondition; ownerLabelCondition]) trb)
  end.

Definition TeamRoleBindingReconciler : Reconciler rbacE TeamRoleBinding :=
  mk_reconciler _ _ trb_EnsureCreated trb_EnsureDeleted (fun trb => mret (trb, (ctrl_done, None))).

Definition trb_Reconcile `{FinalizerOps} (k : objkey) :=
  Reconcile now TeamRoleBindingReconciler (Some setConditions) k.
End controller.

(** ** What a pass may write *)

(** The binding a call creates or changes, with the cluster. *)
Definition kube_write {O X} (e : kubeE O X) : option O :=
  match e with
  | KubeCreate o | KubePatch _ o | KubeStatusPatch _ o => Some o
  | _ => None
  end.
Definition binding_write {X} (e : rbacE X) : option (objkey * Binding) :=
  match e with
  | OnClusterRoleBinding c e | OnRoleBinding c e => (fun b => (c, b)) <$> kube_write e
  | _ => None
  end.
Definition role_write {X} (e : rbacE X) : option (objkey * ClusterRole) :=
  match e with
  | OnClusterRole c e => (fun b => (c, b)) <$> kube_write e
  | _ => None
  end.
Definition binding_writes (h : list (call rbacE)) : list (objkey * Binding) :=
  h ≫= fun c => match c with Call e _ => option_list (binding_write e) end.

Definition same_spec (t t' : TeamRoleBinding) : Prop :=
  trb_meta t' = trb_meta t /\ trb_Spec t' = trb_Spec t.
#[export] Instance same_spec_preorder : PreOrder same_spec.
Proof. split; [done|]. intros a b c [] []. split; congruence. Qed.
Lemma same_spec_propagation now n s r m t : same_spec t (SetPropagationStatus now n s r m t).
Proof. done. Qed.
Lemma same_spec_remove n t : same_spec t (RemovePropagationStatus n t).
Proof. done. Qed.
Lemma same_spec_condition now c (t : TeamRoleBinding) : same_spec t (SetCondition now c t).
Proof. done. Qed.
#[export] Hint Resolve same_spec_propagation same_spec_remove same_spec_condition : greenhouse.

(** What every step of the controller keeps of the object. *)
Section kept.
Context {W : Type}.
Variable R : W -> forall X, rbacE X -> X -> W -> Prop.
Variable now : Z.
Variable selector_of : string -> result string.
Variable K : TeamRoleBinding -> Prop.
Hypothesis K_set : forall n s r m t, K t -> K (SetPropagationStatus now n s r m t).
Hypothesis K_remove : forall n t, K t -> K (RemovePropagationStatus n t).
Local Hint Resolve K_set K_remove : core.

Lemma listClusters_keeps trb w :
  K trb -> wp R (listClusters now selector_of trb) (fun _ r => K r.1) w.
Proof.
  intros Htrb. unfold listClusters. case_bool_decide; [by wp_steps|].
  wp_steps; [|done..]. simpl. generalize (List.filter (fun c => negb (cluster_ready c)) a0).
  intros l. assert (forall t, K t ->
    K (fold_left (fun t c => not_ready_status now t (GetName c)) l t)) as Hl; [|by apply Hl].
  induction l as [|c l IH]; intros t Ht; simpl; [done|]. apply IH. by apply K_set.
Qed.

Lemma cleanupResources_keeps trb clusters w :
  K trb -> wp R (cleanupResources now trb clusters) (fun _ r => K r.1) w.
Proof.
  intros Htrb. unfold cleanupResources.
  apply (wp_foreach_bind _ _ _ _ (fun _ _ st => K st.1)); [done| |].
  { intros w' st Hst. by wp_step. }
  intros i l w' [t arr] Hst. simpl in Hst.
  repeat first [wp_step | wp_skip]; simpl; auto; by apply K_set.
Qed.

Hypothesis K_cond : forall c t, CondType c = RBACReady -> K t -> K (SetCondition now c t).

Lemma doReconcile_keeps teamRole clusters trb subjects w :
  K trb -> wp R (doReconcile now teamRole clusters trb subjects) (fun _ r => K r.1) w.
Proof.
  intros Htrb. unfold doReconcile.
  apply (wp_foreach_bind _ _ _ _ (fun _ _ st => K st.1)); [done| |].
  { intros w' [t failed] Hst. wp_step; wp_step; by apply K_cond. }
  intros cl l w' [t failed] Hst. simpl in Hst. wp_step.
  eapply (wp_mono _ _ (fun _ r => K r.1)); [by intros w'' [t' b] Ht'; wp_step|].
  unfold reconcile_cluster. repeat first [wp_step | wp_skip]; simpl; unfold propagation_ok; auto;
    by apply K_set.
Qed.

Lemma EnsureCreated_keeps trb w : K (initTeamRoleBindingStatus now trb) ->
  wp R (trb_EnsureCreated now selector_of trb) (fun _ r => K r.1) w.
Proof.
  intros Htrb. unfold trb_EnsureCreated. wp_step. wp_skip.
  wp_step; [|wp_step; wp_step; [by apply K_cond|done]].
  wp_step. eapply wp_mono; [|by apply listClusters_keeps]. intros w1 [t1 r1] Ht1. simpl in Ht1.
  wp_step; [|wp_step; by apply K_cond].
  wp_step. eapply wp_mono; [|by apply cleanupResources_keeps]. intros w2 [t2 e2] Ht2. simpl in Ht2.
  wp_step; [by wp_step|]. wp_step; [wp_step; by apply K_cond|].
  unfold reconcile_selected. wp_step. wp_skip. wp_step; [|by wp_step]. wp_step.
  wp_step; [wp_step; by apply K_cond|]. wp_step.
  eapply wp_mono; [|by apply doReconcile_keeps]. intros w3 [t3 e3] Ht3. simpl in Ht3.
  repeat wp_step; try done. by apply K_cond.
Qed.
End kept.

Lemma listClusters_spec {W} (R : W -> forall X, rbacE X -> X -> W -> Prop) now sel trb w :
  wp R (listClusters now sel trb) (fun _ r => same_spec trb r.1) w.
Proof. by apply listClusters_keeps. Qed.
Lemma cleanupResources_spec {W} (R : W -> forall X, rbacE X -> X -> W -> Prop) now trb cls w :
  wp R (cleanupResources now trb cls) (fun _ r => same_spec trb r.1) w.
Proof. by apply cleanupResources_keeps. Qed.

Section privilege.
Variable now : Z.
Variable selector_of : string -> result string.

(** What the answers recorded in [h] justify for [trb]: a subject, a role, a
    cluster. *)
Definition justified_subject (h : list (call rbacE)) (trb : TeamRoleBinding) (s : Subject) : Prop :=
  (sub_Kind s = UserKind /\ sub_Name s ∈ Usernames (trb_Spec trb)) \/
  (sub_Kind s = GroupKind /\ sub_Name s <> "" /\ exists ref team,
     ref ∈ resolveTeamRefs trb /\
     Call (CTeam (KubeGet (mk_key (GetNamespace trb) ref))) (Ok team) ∈ h /\
     sub_Name s = MappedIDPGroup (team_Spec team)).
Definition justified_role (h : list (call rbacE)) (trb : TeamRoleBinding) (r : RoleRef) : Prop :=
  exists teamRole,
    Call (CGetTeamRole (mk_key (GetNamespace trb) (TeamRoleRef (trb_Spec trb)))) (Ok teamRole) ∈ h /\
    r = role_ref_to (initRBACClusterRole teamRole).
Definition justified_cluster (h : list (call rbacE)) (trb : TeamRoleBinding) (c : objkey) : Prop :=
  exists cluster, key_of cluster = c /\
    ((cs_Name (trb_ClusterSelector (trb_Spec trb)) <> "" /\
      Call (CGetCluster (mk_key (GetNamespace trb)
                          (cs_Name (trb_ClusterSelector (trb_Spec trb))))) (Ok cluster) ∈ h) \/
     (exists sel l, Call (CListClusters (GetNamespace trb) sel) (Ok l) ∈ h /\
        cluster ∈ l /\ cluster_ready cluster = true)).
Definition justified (h : list (call rbacE)) (trb : TeamRoleBinding) (w : objkey * Binding) : Prop :=
  justified_cluster h trb w.1 /\ justified_role h trb (b_RoleRef w.2) /\
  forall s, s ∈ b_Subjects w.2 -> justified_subject h trb s.

Lemma justified_mono h h' trb w : h ⊆ h' -> justified h trb w -> justified h' trb w.
Proof.
  unfold justified, justified_cluster, justified_role, justified_subject. intros Hh (Hc & Hr & Hs).
  split_and!.
  - destruct Hc as (cl & Hk & [[Hn Hc]|(sel & l & Hl & Hin)]); exists cl; split; eauto 10.
  - destruct Hr as (tr & Htr & He); eauto.
  - intros s Hin. destruct (Hs s Hin) as [?|(Hk & Hn & ref & team & Href & Ht & Hm)]; [by left|].
    right. eauto 10.
Qed.

Lemma binding_writes_app h h' : binding_writes (h ++ h') = binding_writes h ++ binding_writes h'.
Proof. unfold binding_writes. apply bind_app. Qed.

(** The parts of a pass that write no binding. *)
Definition no_binding_write X (e : rbacE X) : Prop := binding_write e = None.
Local Abbreviation quiet p := (all_calls no_binding_write p).

Lemma quiet_on_cr {X} c (p : prog _ X) : quiet (on_cr c p).
Proof.
  apply all_calls_translate. induction p as [a|Y e k IH]; [done|]. by split.
Qed.
Lemma quiet_delete_crb c (b : Binding) : quiet (on_crb c (Delete b)).
Proof. apply all_calls_translate. unfold Delete. by calls_steps. Qed.
Lemma quiet_delete_rbs c rbs : quiet (delete_role_bindings c rbs).
Proof.
  unfold delete_role_bindings. calls_step; [|by calls_steps].
  calls_step. unfold on_rb, Delete. by calls_steps.
Qed.
Lemma quiet_cleanupCluster trb cl : quiet (cleanupCluster trb cl).
Proof.
  unfold cleanupCluster, deleteClusterRoleBinding, deleteAllDeployedRoleBindings,
    isRoleReferenced, deleteClusterRole.
  repeat first [apply quiet_delete_rbs | apply quiet_delete_crb | apply quiet_on_cr | calls_step];
    done.
Qed.
Lemma quiet_cleanupClusterNamespaces trb cl : quiet (cleanupClusterNamespaces trb cl).
Proof.
  unfold cleanupClusterNamespaces. by repeat first [apply quiet_delete_rbs | calls_step].
Qed.
Lemma quiet_cleanupResources trb cls : quiet (cleanupResources now trb cls).
Proof.
  unfold cleanupResources.
  by repeat first [apply quiet_cleanupCluster | apply quiet_cleanupClusterNamespaces | calls_step].
Qed.
Lemma quiet_listClusters trb : quiet (listClusters now selector_of trb).
Proof. unfold listClusters. by calls_steps. Qed.
Lemma quiet_getTeamRole trb : quiet (getTeamRole trb).
Proof. unfold getTeamRole. by calls_steps. Qed.
Lemma quiet_getTeams trb : quiet (getTeams trb).
Proof. unfold getTeams. by calls_steps. Qed.

(** A quiet part only extends the history, without binding writes. *)
Lemma quiet_wp {A} (p : prog rbacE A) h :
  quiet p -> wp (traced any_answer) p (fun h' _ =>
    (exists l, h' = h ++ l) /\ binding_writes h' = binding_writes h) h.
Proof.
  intros Hp. apply (all_calls_wp no_binding_write _
    (fun h' => (exists l, h' = h ++ l) /\ binding_writes h' = binding_writes h)); [done| |].
  - intros h1 X e x h2 [[l ->] Hw] He [_ ->]. split; [exists (l ++ [Call e x]); by rewrite app_assoc|].
    rewrite binding_writes_app, Hw. unfold binding_writes at 2. simpl.
    unfold no_binding_write in He. rewrite He. simpl. by rewrite app_nil_r.
  - split; [exists []; by rewrite app_nil_r|done].
Qed.

Lemma getTeams_found trb h :
  wp (traced any_answer) (getTeams trb) (fun h' r =>
    match r with
    | Ok (teams, missing) => forall team, team ∈ teams -> exists ref, ref ∈ resolveTeamRefs trb /\
        Call (CTeam (KubeGet (mk_key (GetNamespace trb) ref))) (Ok team) ∈ h'
    | Err _ => True
    end) h.
Proof.
  unfold getTeams.
  apply (wp_foreach_bind _ _ _ _ (fun refs h' st => refs ⊆ resolveTeamRefs trb /\
    forall team, team ∈ st.1 -> exists ref, ref ∈ resolveTeamRefs trb /\
      Call (CTeam (KubeGet (mk_key (GetNamespace trb) ref))) (Ok team) ∈ h')).
  - split; [done|]. set_solver.
  - intros h' [teams missing] [_ H]. by wp_step.
  - intros ref refs h' [teams missing] [Hsub H]. do 2 wp_step. destruct Hx as [_ ->].
    assert (forall team, team ∈ teams -> exists ref0, ref0 ∈ resolveTeamRefs trb /\
      Call (CTeam (KubeGet (mk_key (GetNamespace trb) ref0))) (Ok team)
        ∈ h' ++ [Call (CTeam (KubeGet (mk_key (GetNamespace trb) ref))) x]) as Hold.
    { intros team (r & ? & ?)%H. exists r. set_solver. }
    destruct x as [team|e]; [wp_step|wp_step; wp_step; [|by wp_step]].
    + split; [set_solver|]. intros team' [?| ->%list_elem_of_singleton]%elem_of_app; [by apply Hold|].
      exists ref. set_solver.
    + split; [set_solver|done].
Qed.

Lemma listClusters_justified trb h :
  wp (traced any_answer) (listClusters now selector_of trb) (fun h' r =>
    match r.2 with
    | Ok clusters => forall cl, cl ∈ clusters -> justified_cluster h' trb (key_of cl)
    | Err _ => True
    end) h.
Proof.
  unfold listClusters, justified_cluster. case_bool_decide as Hn.
  - do 2 wp_step. destruct Hx as [_ ->]. destruct x as [cl|e]; [wp_step|wp_step; wp_step; simpl; set_solver].
    intros cl' ->%list_elem_of_singleton. exists cl. split; [done|]. left. set_solver.
  - wp_step; [|by wp_step]. do 2 wp_step. destruct Hx as [_ ->]. destruct x as [cls|e]; wp_step; [|done].
    intros cl Hcl. simpl in Hcl. apply list_elem_of_In, filter_In in Hcl as [Hin Hr].
    apply list_elem_of_In in Hin. exists cl. split; [done|]. right. exists a, cls. set_solver.
Qed.

(** Every write of [doReconcile] grants the computed subjects the role, on a
    selected cluster. *)
Definition grants_only (cr : ClusterRole) (subjects : list Subject) (clusters : list Cluster)
    X (e : rbacE X) : Prop :=
  forall w, binding_write e = Some w ->
    w.1 ∈ key_of <$> clusters /\ b_RoleRef w.2 = role_ref_to cr /\ b_Subjects w.2 = subjects.

Lemma create_or_patch_writes {O} `{Object O, EqDecision O} (mutate : O -> O * option error) o :
  all_calls (fun X e => forall b, kube_write e = Some b -> exists o', b = (mutate o').1)
    (CreateOrPatch mutate o).
Proof.
  unfold CreateOrPatch, create_mutated, patch. calls_step; [by calls_step|]. destruct a as [o'|e].
  - calls_step; [by calls_step|]. destruct (mutate o') as [b merr] eqn:Hm.
    destruct merr; [done|]. case_bool_decide; [done|]. calls_step; [|by calls_steps].
    calls_step. intros ? [= <-]. exists o'. by rewrite Hm.
  - calls_step; [done|]. destruct (mutate o) as [b merr] eqn:Hm. destruct merr; [done|].
    calls_step; [|by calls_steps]. calls_step. intros ? [= <-]. exists o. by rewrite Hm.
Qed.

Lemma reconcile_cluster_grants cr subjects clusters trb cl : cl ∈ clusters ->
  all_calls (grants_only cr subjects clusters) (reconcile_cluster now cr subjects trb cl).
Proof.
  intros Hcl. unfold reconcile_cluster.
  assert (forall A (p : prog rbacE A), all_calls no_binding_write p ->
            all_calls (grants_only cr subjects clusters) p) as Hq.
  { intros A p. apply all_calls_mono. unfold no_binding_write, grants_only. intros X e -> w. done. }
  assert (key_of cl ∈ key_of <$> clusters) as Hk by (by apply list_elem_of_fmap_2).
  calls_step; [by calls_step|]. calls_step; [by calls_step|]. calls_step.
  { unfold reconcileClusterRole. apply Hq. calls_step; [apply quiet_on_cr|]. by calls_steps. }
  calls_step; [by calls_step|]. calls_step.
  - calls_step; [|by calls_steps]. unfold reconcileClusterRoleBinding. calls_step; [|by calls_steps].
    apply all_calls_translate. eapply all_calls_mono; [|apply create_or_patch_writes].
    intros X e He w Hw. simpl in Hw. apply fmap_Some in Hw as (b & Hb & ->).
    apply He in Hb as (o' & ->). done.
  - calls_step; [|by calls_steps]. unfold reconcile_namespaces. calls_step; [|by calls_steps].
    calls_step. calls_step; [|by calls_steps]. unfold reconcileRoleBinding. calls_step; [|by calls_steps].
    apply all_calls_translate. eapply all_calls_mono; [|apply create_or_patch_writes].
    intros X e He w Hw. simpl in Hw. apply fmap_Some in Hw as (b & Hb & ->).
    apply He in Hb as (o' & ->). done.
Qed.

Lemma doReconcile_grants teamRole clusters trb subjects :
  all_calls (grants_only (initRBACClusterRole teamRole) subjects clusters)
    (doReconcile now teamRole clusters trb subjects).
Proof.
  unfold doReconcile. calls_step; [|by calls_steps]. calls_step.
  calls_step. calls_step; [by apply reconcile_cluster_grants|]. by calls_steps.
Qed.

Lemma justified_cluster_mono h h' trb c :
  h ⊆ h' -> justified_cluster h trb c -> justified_cluster h' trb c.
Proof.
  intros Hh (cl & Hk & [[Hn Hc]|(sel & l & Hl & Hin)]); exists cl; split; eauto 10.
Qed.

Lemma justified_same_spec h t t' w : same_spec t t' -> justified h t' w -> justified h t w.
Proof.
  unfold justified, justified_cluster, justified_role, justified_subject, resolveTeamRefs,
    GetNamespace. simpl. by intros [-> ->].
Qed.

Lemma generateSubjects_elem us gs s : s ∈ generateSubjects us gs <->
  (exists u, u ∈ us /\ s = mk_subject UserKind rbac_GroupName u) \/
  (exists g, g ∈ gs /\ g <> "" /\ s = mk_subject GroupKind rbac_GroupName g).
Proof.
  unfold generateSubjects. rewrite elem_of_app, !list_elem_of_fmap.
  setoid_rewrite list_elem_of_In at 2. setoid_rewrite filter_In.
  setoid_rewrite <-list_elem_of_In. setoid_rewrite negb_true_iff.
  setoid_rewrite bool_decide_eq_false. naive_solver.
Qed.

Lemma hist_mono {E} (h l : list (call E)) : h ⊆ h ++ l.
Proof. by apply list_subseteq_app_l. Qed.
Lemma hist_mono2 {E} (h l l' : list (call E)) : h ⊆ (h ++ l) ++ l'.
Proof. by do 2 apply list_subseteq_app_l. Qed.

(** The binding writes of [h] are justified in [h]. *)
Local Abbreviation all_justified trb h := (forall w, w ∈ binding_writes h -> justified h trb w).

Lemma no_writes_justified trb h : binding_writes h = [] -> all_justified trb h.
Proof. intros -> w Hw. by apply not_elem_of_nil in Hw. Qed.

Lemma reconcile_selected_justified teamRole clusters trb h :
  binding_writes h = [] ->
  (forall cl, cl ∈ clusters -> justified_cluster h trb (key_of cl)) ->
  justified_role h trb (role_ref_to (initRBACClusterRole teamRole)) ->
  wp (traced any_answer) (reconcile_selected now teamRole clusters trb)
    (fun h' _ => all_justified trb h') h.
Proof.
  intros Hw Hcl Hrole. unfold reconcile_selected. wp_step.
  eapply wp_mono; [|apply wp_and; [apply quiet_wp, quiet_getTeams|apply getTeams_found]].
  intros h1 t [[[l ->] Hw1] Ht]. rewrite Hw in Hw1.
  destruct t as [[teams missing]|e]; [|wp_step; by apply no_writes_justified].
  destruct (bool_decide (missing <> []) && bool_decide (teams = [])) eqn:Hbr;
    [wp_step; by apply no_writes_justified|].
  wp_step. set (subjects := generateSubjects _ _).
  eapply wp_mono; [|apply (all_calls_wp (grants_only (initRBACClusterRole teamRole) subjects clusters) _
    (fun h2 => (exists l', h2 = (h ++ l) ++ l') /\
    forall w, w ∈ binding_writes h2 -> w.1 ∈ key_of <$> clusters /\
      b_RoleRef w.2 = role_ref_to (initRBACClusterRole teamRole) /\ b_Subjects w.2 = subjects));
      [apply doReconcile_grants| |]].
  - intros h2 [trb2 err] [[l' ->] Hwr].
    assert (all_justified trb ((h ++ l) ++ l')) as Hall; [|by wp_steps].
    intros w (Hc & Hr & Hs)%Hwr. split_and!.
    + apply list_elem_of_fmap in Hc as (cl & -> & Hc). eapply justified_cluster_mono; [apply hist_mono2|by apply Hcl].
    + rewrite Hr. destruct Hrole as (tr & Htr & ?). exists tr. split; [by apply hist_mono2|done].
    + intros s. rewrite Hs. unfold subjects.
      intros [(u & Hu & ->)|(g & Hg & Hne & ->)]%generateSubjects_elem; [by left|right].
      apply list_elem_of_fmap in Hg as (team & -> & (ref & Href & Hcall)%Ht).
      split_and!; [done..|]. exists ref, team. split_and!; [done| |done]. by apply hist_mono.
  - intros h2 X e x h3 [[l' ->] Hwr] He [_ ->].
    split; [exists (l' ++ [Call e x]); by rewrite app_assoc|].
    intros w. rewrite binding_writes_app. intros [?|Hin]%elem_of_app; [by apply Hwr|].
    unfold binding_writes in Hin. simpl in Hin. rewrite app_nil_r in Hin.
    apply He. destruct (binding_write e) as [w'|]; simpl in Hin; [|by apply not_elem_of_nil in Hin].
    by apply list_elem_of_singleton in Hin as ->.
  - split; [exists []; by rewrite app_nil_r|]. rewrite Hw1. intros w Hin. by apply not_elem_of_nil in Hin.
Qed.

(** C6: no privilege beyond the spec.  Whatever the clusters answer, every
    RoleBinding and ClusterRoleBinding a creating pass writes is justified by
    what the pass read: the cluster is the one named by the spec or a ready one
    from the list of its selector; the role is the ClusterRole of the TeamRole
    the spec references; each subject is a user name of the spec or the
    non-empty IdP group of a Team that the spec references and that was found in
    the binding's own namespace. *)
Theorem EnsureCreated_grants_justified trb :
  wp (traced any_answer) (trb_EnsureCreated now selector_of trb)
    (fun h _ => forall w, w ∈ binding_writes h -> justified h trb w) [].
Proof.
  unfold trb_EnsureCreated.
  assert (same_spec trb (initTeamRoleBindingStatus now trb)) as Hsp by done.
  revert Hsp. generalize (initTeamRoleBindingStatus now trb). intros trb0 Hsp.
  unfold getTeamRole. case_bool_decide as Href.
  { wp_steps; by apply no_writes_justified. }
  do 3 wp_step. destruct Hx as [_ ->].
  destruct x as [teamRole|e]; wp_step; [|wp_step; wp_step; by apply no_writes_justified].
  set (h1 := [] ++ _).
  assert (justified_role h1 trb0 (role_ref_to (initRBACClusterRole teamRole))) as Hrole.
  { exists teamRole. split; [set_solver|done]. }
  assert (binding_writes h1 = []) as Hw1 by done. clearbody h1. wp_step.
  eapply wp_mono; [|apply wp_and; [apply wp_and; [apply quiet_wp, quiet_listClusters|
    apply listClusters_justified]|apply listClusters_spec]].
  intros h2 [trb1 r] [[[[l ->] Hw2] Hcl] Hsp1]. simpl in Hcl, Hsp1. rewrite Hw1 in Hw2.
  destruct r as [clusters|e]; [|wp_step; by apply no_writes_justified]. wp_step.
  eapply wp_mono; [|apply wp_and; [apply quiet_wp, quiet_cleanupResources|apply cleanupResources_spec]].
  intros h3 [trb2 err] [[[l' ->] Hw3] Hsp2]. simpl in Hsp2. rewrite Hw2 in Hw3.
  assert (same_spec trb0 trb2) as Hsp02 by (by etrans).
  destruct err as [e|]; [wp_step; by apply no_writes_justified|]. case_bool_decide; [wp_step; by apply no_writes_justified|].
  eapply wp_mono; [|apply reconcile_selected_justified; [done| |]].
  - intros h4 r4 Hall w Hin. eapply justified_same_spec; [exact Hsp|].
    eapply justified_same_spec; [exact Hsp02|]. by apply Hall.
  - intros cl Hin. specialize (Hcl cl Hin). eapply justified_cluster_mono; [apply hist_mono|].
    revert Hcl. unfold justified_cluster, GetNamespace. simpl. by destruct Hsp02 as [-> ->].
  - destruct Hrole as (tr & Htr & ?). exists tr.
    assert (mk_key (GetNamespace trb2) (TeamRoleRef (trb_Spec trb2)) =
            mk_key (GetNamespace trb0) (TeamRoleRef (trb_Spec trb0))) as ->
      by (unfold GetNamespace; simpl; by destruct Hsp02 as [-> ->]).
    split; [by apply hist_mono2|done].
Qed.
End privilege.

(** ** The status conditions *)
Section conditions.
Variable now : Z.
Variable selector_of : string -> result string.

Definition has_ready (t : TeamRoleBinding) : Prop :=
  is_Some (GetConditionByType (trb_conditions (trb_Status t)) ReadyCondition).
Definition not_panic X (e : rbacE X) : Prop :=
  match e with Panic => False | _ => True end.

Lemma EnsureCreated_ready {W} (R : W -> forall X, rbacE X -> X -> W -> Prop) trb w :
  wp R (trb_EnsureCreated now selector_of trb) (fun _ r => has_ready r.1) w.
Proof.
  apply EnsureCreated_keeps; [done|done| |].
  - intros c t Hc [d Hd]. unfold has_ready. simpl. rewrite get_SetConditions.
    case_bool_decide; [eauto|]. by rewrite Hd.
  - unfold has_ready. apply (init_conditions_get now exposedConditions _ ReadyCondition).
    set_solver.
Qed.

(** The status conditioner dereferences the Ready condition without a
    check; run after [EnsureCreated], as the lifecycle does, it never panics,
    whatever the object looked like and the clusters answer. *)
Theorem conditioner_never_panics trb :
  all_calls not_panic
    ('(trb', r) ← trb_EnsureCreated now selector_of trb;
     trb'' ← setConditions now trb'; mret (trb'', r)).
Proof.
  eapply (all_calls_bind_post _ (fun r => has_ready r.1)); [|apply EnsureCreated_ready|].
  - unfold trb_EnsureCreated, getTeamRole, listClusters, cleanupResources, cleanupCluster,
      cleanupClusterNamespaces, deleteClusterRoleBinding, deleteAllDeployedRoleBindings,
      isRoleReferenced, deleteClusterRole, delete_role_bindings, reconcile_selected, getTeams,
      doReconcile, reconcile_cluster, reconcileClusterRole, reconcileClusterRoleBinding,
      reconcile_namespaces, reconcileRoleBinding, on_cr, on_crb, on_rb.
    repeat first [calls_step | done | by apply all_calls_any].
  - intros [t r] [c Hc]. calls_step; [|by calls_steps].
    unfold setConditions, computeReadyCondition. simpl in Hc. rewrite Hc.
    calls_step; [|by calls_steps]. calls_step. by apply all_calls_any.
Qed.
End conditions.

(** ** Deletion *)

(** The bindings each remote cluster stores. *)
Record rbac_world := mk_rbac_world {
  w_crbs : objkey -> gmap objkey Binding;
  w_rbs : objkey -> gmap objkey Binding
}.

Definition upd {A} (c : objkey) (a : A) (f : objkey -> A) : objkey -> A :=
  fun c' => if decide (c' = c) then a else f c'.

(** Honest servers with this controller as the only writer of bindings: a
    cluster read by key has that key, lists are complete, deletions take effect. *)
Definition rbac_step (w : rbac_world) X (e : rbacE X) : X -> rbac_world -> Prop :=
  match e in rbacE X return X -> rbac_world -> Prop with
  | CGetCluster k => fun r w' => w' = w /\
      match r with Ok cl => key_of cl = k | Err _ => True end
  | CListClusters ns _ => fun r w' => w' = w /\
      match r with Ok l => forall cl, cl ∈ l -> GetNamespace cl = ns | Err _ => True end
  | OnClusterRoleBinding c e => fun x w' => exists st,
      kube_step eq (w_crbs w c) _ e x st /\ w' = mk_rbac_world (upd c st (w_crbs w)) (w_rbs w)
  | OnRoleBinding c e => fun x w' => exists st,
      kube_step eq (w_rbs w c) _ e x st /\ w' = mk_rbac_world (w_crbs w) (upd c st (w_rbs w))
  | OnListRoleBindings c name => fun r w' => w' = w /\
      match r with
      | Ok l => (forall b, b ∈ l -> GetName b = name) /\
          forall k, key_name k = name -> is_Some (w_rbs w c !! k) -> exists b, b ∈ l /\ key_of b = k
      | Err e => err_reason e = NotFound ->
          forall k, key_name k = name -> w_rbs w c !! k = None
      end
  | _ => fun _ w' => w' = w
  end.

(** No binding of [trb] is left on cluster [c]. *)
Definition unbound (trb : TeamRoleBinding) (c : objkey) (w : rbac_world) : Prop :=
  if isClusterScoped trb then w_crbs w c !! mk_key "" (GetRBACName trb) = None
  else forall ns, w_rbs w c !! mk_key ns (GetRBACName trb) = None.

(** Only bindings of that name disappeared. *)
Definition removed_only (name : string) (w w' : rbac_world) : Prop :=
  (forall c k, w_crbs w' c !! k = w_crbs w c !! k \/ (key_name k = name /\ w_crbs w' c !! k = None)) /\
  (forall c k, w_rbs w' c !! k = w_rbs w c !! k \/ (key_name k = name /\ w_rbs w' c !! k = None)).
#[export] Instance removed_only_preorder name : PreOrder (removed_only name).
Proof.
  split; [split; by left|]. intros w1 w2 w3 [Hc1 Hr1] [Hc2 Hr2]. split; intros c k.
  - destruct (Hc1 c k) as [E1|[]], (Hc2 c k) as [E2|[]]; rewrite ?E2, ?E1 in *; auto.
  - destruct (Hr1 c k) as [E1|[]], (Hr2 c k) as [E2|[]]; rewrite ?E2, ?E1 in *; auto.
Qed.

Lemma unbound_mono trb name c w w' : removed_only name w w' -> unbound trb c w -> unbound trb c w'.
Proof.
  unfold unbound. intros [Hc Hr]. destruct (isClusterScoped trb).
  - destruct (Hc c (mk_key "" (GetRBACName trb))) as [->|[_ ->]]; done.
  - intros H ns. destruct (Hr c (mk_key ns (GetRBACName trb))) as [->|[_ ->]]; done.
Qed.

Lemma wp_on_crb {A} c (p : prog (kubeE Binding) A) (Q : rbac_world -> A -> Prop) Q' w :
  wp (kube_step eq) p Q' (w_crbs w c) ->
  (forall st a w', Q' st a -> w_crbs w' c = st ->
     (forall c', c' <> c -> w_crbs w' c' = w_crbs w c') -> w_rbs w' = w_rbs w -> Q w' a) ->
  wp rbac_step (on_crb c p) Q w.
Proof.
  unfold on_crb. revert w. induction p as [a|X e k IH]; intros w Hwp HQ.
  - by eapply HQ.
  - intros x w' (st & Hst & ->). eapply IH.
    + simpl. unfold upd. rewrite decide_True by done. by apply Hwp.
    + intros st' a w' HQ' Hc Ho Hr. eapply HQ; [done|done| |done]. intros c' Hne.
      rewrite Ho by done. simpl. unfold upd. by rewrite decide_False.
Qed.
Lemma wp_on_rb {A} c (p : prog (kubeE Binding) A) (Q : rbac_world -> A -> Prop) Q' w :
  wp (kube_step eq) p Q' (w_rbs w c) ->
  (forall st a w', Q' st a -> w_rbs w' c = st ->
     (forall c', c' <> c -> w_rbs w' c' = w_rbs w c') -> w_crbs w' = w_crbs w -> Q w' a) ->
  wp rbac_step (on_rb c p) Q w.
Proof.
  unfold on_rb. revert w. induction p as [a|X e k IH]; intros w Hwp HQ.
  - by eapply HQ.
  - intros x w' (st & Hst & ->). eapply IH.
    + simpl. unfold upd. rewrite decide_True by done. by apply Hwp.
    + intros st' a w' HQ' Hc Ho Hr. eapply HQ; [done|done| |done]. intros c' Hne.
      rewrite Ho by done. simpl. unfold upd. by rewrite decide_False.
Qed.
Lemma wp_on_cr {A} c (p : prog (kubeE ClusterRole) A) (Q : rbac_world -> A -> Prop) w :
  (forall a, Q w a) -> wp rbac_step (on_cr c p) Q w.
Proof.
  intros HQ. unfold on_cr. induction p as [a|X e k IH]; [apply HQ|].
  by intros x w' ->.
Qed.

Section deletion.
Variable trb : TeamRoleBinding.
Local Abbreviation name := (GetRBACName trb).

Lemma removed_only_rbs c k w w' :
  w_rbs w' c = delete k (w_rbs w c) \/ w_rbs w' c = w_rbs w c ->
  (forall c', c' <> c -> w_rbs w' c' = w_rbs w c') -> w_crbs w' = w_crbs w ->
  key_name k = name -> removed_only name w w'.
Proof.
  intros Hd Ho Hc Hk. split; intros c' k'; [left; by rewrite Hc|].
  destruct (decide (c' = c)) as [->|Hne]; [|left; by rewrite Ho].
  destruct Hd as [->| ->]; [|by left]. destruct (decide (k' = k)) as [->|Hne].
  - right. by rewrite lookup_delete_eq.
  - left. by rewrite lookup_delete_ne.
Qed.
Lemma removed_only_crbs c k w w' :
  w_crbs w' c = delete k (w_crbs w c) \/ w_crbs w' c = w_crbs w c ->
  (forall c', c' <> c -> w_crbs w' c' = w_crbs w c') -> w_rbs w' = w_rbs w ->
  key_name k = name -> removed_only name w w'.
Proof.
  intros Hd Ho Hc Hk. split; intros c' k'; [|left; by rewrite Hc].
  destruct (decide (c' = c)) as [->|Hne]; [|left; by rewrite Ho].
  destruct Hd as [->| ->]; [|by left]. destruct (decide (k' = k)) as [->|Hne].
  - right. by rewrite lookup_delete_eq.
  - left. by rewrite lookup_delete_ne.
Qed.

(** [Delete]: the object is gone or, with an error, everything is unchanged. *)
Lemma Delete_kube {O} `{Object O, EqDecision O} (o : O) st :
  wp (kube_step eq) (Delete o) (fun st' r =>
    (st' = delete (key_of o) st \/ st' = st) /\ (r.2 = None -> st' = delete (key_of o) st)) st.
Proof.
  eapply wp_mono; [|apply wp_and; [apply Delete_post|apply Delete_gone]].
  intros st' [res err] [H1 H2]. split; [|done]. simpl in H2.
  destruct res, err; destruct_and?; auto.
Qed.

Lemma delete_role_bindings_gone c rbs w :
  (forall b, b ∈ rbs -> GetName b = name) ->
  (forall k, key_name k = name -> is_Some (w_rbs w c !! k) -> exists b, b ∈ rbs /\ key_of b = k) ->
  wp rbac_step (delete_role_bindings c rbs) (fun w' err => removed_only name w w' /\
    (err = None -> forall ns, w_rbs w' c !! mk_key ns name = None)) w.
Proof.
  intros Hn Hall. unfold delete_role_bindings.
  apply (wp_foreach_bind _ _ _ _ (fun l w' _ => removed_only name w w' /\
    (forall b, b ∈ l -> GetName b = name) /\
    forall k, key_name k = name -> is_Some (w_rbs w' c !! k) -> exists b, b ∈ l /\ key_of b = k)).
  - by split_and!.
  - intros w' [] (Hr & _ & Hk). wp_step. split; [done|]. intros _ ns.
    destruct (w_rbs w' c !! mk_key ns name) as [b|] eqn:E; [|done].
    destruct (Hk (mk_key ns name)) as (b' & Hb' & _); [done|by rewrite E|].
    by apply not_elem_of_nil in Hb'.
  - intros b l w' [] (Hr & Hnl & Hk). wp_step.
    eapply wp_on_rb; [apply Delete_kube|]. intros st [res err] w2 [Hst Hgone] Hc Ho Hcr.
    assert (removed_only name w w2) as Hr2.
    { etrans; [done|]. apply (removed_only_rbs c (key_of b)); [by rewrite Hc|done|done|].
      apply Hnl. set_solver. }
    destruct err as [e|]; wp_step; [by wp_step|].
    split_and!; [done|set_solver|]. intros k Hkn Hs. simpl in Hgone.
    rewrite Hc, Hgone in Hs by done. destruct (decide (k = key_of b)) as [->|Hne].
    { rewrite lookup_delete_eq in Hs. by destruct Hs. }
    rewrite lookup_delete_ne in Hs by done. destruct (Hk k Hkn Hs) as (b' & Hb' & <-).
    apply elem_of_cons in Hb' as [->|?]; [done|]. eauto.
Qed.

Lemma isRoleReferenced_world c w :
  wp rbac_step (isRoleReferenced c trb) (fun w' _ => w' = w) w.
Proof.
  unfold isRoleReferenced. do 2 wp_step. simpl in Hx. subst w0.
  wp_step; [wp_step; [|by wp_step]|by wp_step].
  do 2 wp_step. simpl in Hx. subst w0. by repeat wp_step.
Qed.

Lemma cleanupCluster_gone cl w :
  wp rbac_step (cleanupCluster trb cl) (fun w' err => removed_only name w w' /\
    (err = None -> unbound trb (key_of cl) w')) w.
Proof.
  unfold cleanupCluster, unbound. do 2 wp_step. simpl in Hx. subst w0.
  wp_step; [by wp_step|]. wp_step.
  eapply (wp_mono _ _ (fun w' err => removed_only name w w' /\
    (err = None -> unbound trb (key_of cl) w'))).
  { intros w1 err [Hr Hg]. unfold unbound in Hg. wp_step; [by wp_step|]. wp_step.
    eapply wp_mono; [|apply isRoleReferenced_world]. intros w2 [b e2] ->.
    wp_step; [by wp_step|]. wp_step; [wp_step; naive_solver|].
    unfold deleteClusterRole. wp_step. apply wp_on_cr. intros [res e3]. wp_step. naive_solver. }
  unfold unbound. destruct (isClusterScoped trb).
  - unfold deleteClusterRoleBinding. wp_step. eapply wp_on_crb; [apply Delete_kube|].
    intros st [res err] w2 [Hst Hgone] Hc Ho Hcr. wp_step. split.
    + by apply (removed_only_crbs (key_of cl) (mk_key "" name)); [rewrite Hc|..].
    + intros ->. rewrite Hc, Hgone by done. apply lookup_delete_eq.
  - unfold deleteAllDeployedRoleBindings. do 2 wp_step. destruct Hx as [-> Hx].
    destruct x0 as [rbs|e].
    + destruct Hx as [Hn Hall]. by apply delete_role_bindings_gone.
    + wp_step. split; [done|]. unfold ignore_not_found. simpl. case_bool_decide as Hnf; [|done].
      intros _ ns. by apply Hx.
Qed.
End deletion.

(** ** [EnsureDeleted] *)
Definition names (t : TeamRoleBinding) : list string := ClusterName <$> statuses t.

Lemma names_set now n s r m t x : x ∈ names t -> x ∈ names (SetPropagationStatus now n s r m t).
Proof.
  unfold names, statuses. simpl. generalize (NewCondition now RBACReady s r m). intros c.
  induction (trb_propagation (trb_Status t)) as [|ps l IH]; csimpl; [set_solver|].
  case_bool_decide; csimpl; rewrite !elem_of_cons; naive_solver.
Qed.
Lemma names_remove n t x : x ∈ names (RemovePropagationStatus n t) <-> x ∈ names t /\ x <> n.
Proof.
  unfold names, statuses. simpl. rewrite !list_elem_of_fmap.
  setoid_rewrite delete_func_elem. setoid_rewrite bool_decide_eq_false. naive_solver.
Qed.

Section ensure_deleted.
Context {W : Type}.
Variable R : W -> forall X, rbacE X -> X -> W -> Prop.
Variable now : Z.
Variable selector_of : string -> result string.
(** what holds of the clusters read *)
Variable good : Cluster -> Prop.

Lemma listClusters_good trb w :
  (forall w n cl w', n <> "" -> n = cs_Name (trb_ClusterSelector (trb_Spec trb)) ->
     R w _ (CGetCluster (mk_key (GetNamespace trb) n)) (Ok cl) w' -> good cl) ->
  (forall w sel l w', R w _ (CListClusters (GetNamespace trb) sel) (Ok l) w' ->
     forall cl, cl ∈ l -> good cl) ->
  wp R (listClusters now selector_of trb) (fun _ r =>
    match r.2 with Ok l => forall cl, cl ∈ l -> good cl | Err _ => True end) w.
Proof.
  intros Hget Hlist. unfold listClusters. case_bool_decide as Hn.
  - do 3 wp_step; [|by wp_step; wp_step; simpl; set_solver].
    subst x. apply Hget in Hx; [|done..]. wp_step. simpl. set_solver.
  - wp_step; [|by wp_step]. do 3 wp_step; [|done]. subst x. wp_step. simpl.
    intros cl [Hin _]%list_elem_of_In%filter_In. apply list_elem_of_In in Hin. eauto.
Qed.

Variable K : TeamRoleBinding -> Prop.
Hypothesis K_remove : forall t, K t -> K (RemovePropagationStatus "" t).

Lemma combineClusterLists_keeps trb clusters w :
  (forall w n cl w', R w _ (CGetCluster (mk_key (GetNamespace trb) n)) (Ok cl) w' -> good cl) ->
  K trb -> (forall cl, cl ∈ clusters -> good cl) ->
  wp R (combineClusterLists (GetNamespace trb) clusters trb) (fun _ r =>
    K r.1.1 /\ forall cl, cl ∈ r.1.2 -> good cl) w.
Proof.
  intros Hget HK Hg. unfold combineClusterLists.
  apply (wp_foreach_bind _ _ _ _ (fun _ _ st => K st.1.1 /\ forall cl, cl ∈ st.2 -> good cl));
    [done| |].
  { intros w' [st cls] Hst. by wp_step. }
  intros i l w' [[t arr] cls] [Ht Hcl]. simpl in Ht, Hcl.
  wp_step; [by wp_step|]. wp_step. wp_step. wp_step.
  - subst x. apply Hget in Hx. wp_step. split; [done|]. simpl. set_solver.
  - wp_step; wp_step; [split; [by apply K_remove|done]|by wp_step].
Qed.
End ensure_deleted.

Section deletion_theorems.
Variable now : Z.
Variable selector_of : string -> result string.

(** C7: no binding survives a successful deletion.  With honest servers and no
    other writer, [EnsureDeleted] removes only bindings named after the
    TeamRoleBinding, and when it answers Success, none of them is left on any
    cluster the status recorded. *)
Theorem EnsureDeleted_removes_bindings trb w :
  wp rbac_step (trb_EnsureDeleted now selector_of trb) (fun w' r =>
    removed_only (GetRBACName trb) w w' /\
    (r.2.1.2 = Success -> forall n, n ∈ names trb -> n <> "" ->
       unbound trb (mk_key (GetNamespace trb) n) w')) w.
Proof.
  set (K := fun t => same_spec trb t /\ forall n, n ∈ names trb -> n <> "" -> n ∈ names t).
  set (good := fun cl => GetNamespace (O := Cluster) cl = GetNamespace trb).
  assert (forall n s r m t, K t -> K (SetPropagationStatus now n s r m t)) as HKset.
  { intros n s r m t [Hsp Hn]. split; [by etrans|]. intros x Hx Hne. apply names_set. auto. }
  assert (forall t, K t -> K (RemovePropagationStatus "" t)) as HKrem.
  { intros t [Hsp Hn]. split; [by etrans|]. intros x Hx Hne. apply names_remove. auto. }
  assert (forall w n cl w', rbac_step w _ (CGetCluster (mk_key (GetNamespace trb) n)) (Ok cl) w' ->
            good cl) as Hget by (intros w1 n cl w' [_ [= ? ?]]; done).
  assert (forall A (p : prog rbacE A) w0, all_calls (fun X e =>
     match e with OnClusterRoleBinding _ _ | OnRoleBinding _ _ => False | _ => True end) p ->
     wp rbac_step p (fun w' _ => w' = w0) w0) as Hstill.
  { intros A p w0 Hp. eapply (all_calls_wp _ _ (fun w' => w' = w0)); [exact Hp| |done].
    intros w1 X e x w2 -> He Hs. destruct e; simpl in Hs; naive_solver. }
  unfold trb_EnsureDeleted. wp_step.
  eapply wp_mono; [|apply wp_and; [apply (listClusters_keeps _ _ _ K HKset trb); by split|apply wp_and;
    [apply (listClusters_good _ now selector_of good)|apply Hstill]]].
  2: { intros w1 n cl w' _ _. apply Hget. }
  2: { intros w1 sel l w' [_ Hl]. exact Hl. }
  2: { unfold listClusters. by calls_steps. }
  intros w1 [t1 r1] [HK1 [Hg1 ->]]. simpl in HK1, Hg1.
  destruct r1 as [clusters|e]; [|by wp_step]. wp_step.
  assert (GetNamespace t1 = GetNamespace trb) as Hns.
  { destruct HK1 as [[Hm _] _]. unfold GetNamespace. simpl. by rewrite Hm. }
  eapply wp_mono; [|apply wp_and; [apply (combineClusterLists_keeps _ good K HKrem);
    [rewrite Hns; exact Hget|done|done]|apply Hstill]].
  2: { unfold combineClusterLists. by calls_steps. }
  intros w2 [[t2 cls2] e2] [[HK2 Hg2] ->]. simpl in HK2, Hg2.
  wp_step; [by wp_step|].
  apply (wp_foreach_bind _ _ _ _ (fun l w' t => same_spec trb t /\ (forall cl, cl ∈ l -> good cl) /\
    removed_only (GetRBACName trb) w w' /\
    forall n, n ∈ names trb -> n <> "" -> n ∈ names t \/ unbound trb (mk_key (GetNamespace trb) n) w')).
  - destruct HK2. split_and!; [done..|]. auto.
  - intros w' t (Hsp & _ & Hr & Hn). wp_step; wp_step; (split; [done|]); [|done].
    intros _ n Hin Hne. destruct (Hn n Hin Hne) as [Hin'|]; [|done].
    apply bool_decide_eq_true in Heqb. unfold names in Hin'. rewrite Heqb in Hin'. set_solver.
  - intros cl l w' t (Hsp & Hgl & Hr & Hn). wp_step.
    eapply wp_mono; [|apply cleanupCluster_gone]. intros w3 err [Hr3 Hgone].
    assert (GetRBACName t = GetRBACName trb) as Hname.
    { destruct Hsp as [Hm _]. unfold GetRBACName, GetName. simpl. by rewrite Hm. }
    rewrite Hname in Hr3.
    assert (removed_only (GetRBACName trb) w w3) as Hr' by (by etrans).
    assert (forall n, n ∈ names t \/ unbound trb (mk_key (GetNamespace trb) n) w' ->
              n ∈ names t \/ unbound trb (mk_key (GetNamespace trb) n) w3) as Hstep.
    { intros n [?|?]; [by left|right]. eapply unbound_mono; [exact Hr3|done]. }
    destruct err as [e|]; wp_step.
    { split_and!; [done|set_solver|done|]. auto. }
    split_and!; [by etrans|set_solver|done|]. intros n Hin Hne. rewrite names_remove.
    destruct (Hstep n (Hn n Hin Hne)) as [Hin'|?]; [|by right].
    destruct (decide (n = GetName cl)) as [->|]; [right|by left].
    assert (key_of cl = mk_key (GetNamespace trb) (GetName cl)) as <-.
    { unfold key_of. by rewrite (Hgl cl) by set_solver. }
    specialize (Hgone eq_refl). unfold unbound, isClusterScoped in *.
    rewrite Hname in Hgone. destruct Hsp as [_ Hs]. by rewrite Hs in Hgone.
Qed.

(** Nobody answers with the cluster [k]: it is gone. *)
Definition cluster_gone (k : objkey) (w : unit) X (e : rbacE X) : X -> unit -> Prop :=
  match e in rbacE X return X -> unit -> Prop with
  | CGetCluster k' => fun r _ =>
      match r with Ok cl => key_of cl = k' /\ k' <> k | Err e => k' = k -> err_reason e = NotFound end
  | CListClusters ns _ => fun r _ =>
      match r with Ok l => forall cl, cl ∈ l -> GetNamespace cl = ns /\ key_of cl <> k | Err _ => True end
  | _ => fun _ _ => True
  end.

(** A TeamRoleBinding whose status records a cluster that no longer exists
    is never deleted: [EnsureDeleted] does not answer Success as long as the
    cluster is gone, because it drops the entry of the empty name it failed to
    read instead of the entry of that cluster. *)
Theorem EnsureDeleted_stuck_on_gone_cluster trb n :
  n ∈ names trb -> n <> "" ->
  wp (cluster_gone (mk_key (GetNamespace trb) n)) (trb_EnsureDeleted now selector_of trb)
    (fun _ r => r.2.1.2 <> Success) tt.
Proof.
  intros Hin Hne.
  set (K := fun t => same_spec trb t /\ n ∈ names t).
  set (good := fun cl => GetName (O := Cluster) cl <> n).
  set (R := cluster_gone (mk_key (GetNamespace trb) n)).
  assert (forall x s r m t, K t -> K (SetPropagationStatus now x s r m t)) as HKset.
  { intros x s r m t [Hsp Hn]. split; [by etrans|]. by apply names_set. }
  assert (forall t, K t -> K (RemovePropagationStatus "" t)) as HKrem.
  { intros t [Hsp Hn]. split; [by etrans|]. by apply names_remove. }
  assert (forall w x cl w', R w _ (CGetCluster (mk_key (GetNamespace trb) x)) (Ok cl) w' -> good cl) as Hget.
  { intros w1 x cl w' [[= Hns Hx] Hk] Hg. unfold good in *. congruence. }
  unfold trb_EnsureDeleted. wp_step.
  eapply wp_mono; [|apply wp_and; [apply (listClusters_keeps _ _ _ K HKset trb); by split|
    apply (listClusters_good _ now selector_of good)]].
  2: { intros w1 x cl w' _ _. apply Hget. }
  2: { intros w1 sel l w' Hl cl Hcl Hg. destruct (Hl cl Hcl) as [Hns Hk]. apply Hk.
       unfold key_of. by rewrite Hns, Hg. }
  intros w1 [t1 r1] [HK1 Hg1]. simpl in HK1, Hg1. destruct r1 as [clusters|e]; [|by wp_step].
  assert (GetNamespace t1 = GetNamespace trb) as Hns.
  { destruct HK1 as [[Hm _] _]. unfold GetNamespace. simpl. by rewrite Hm. }
  wp_step. eapply wp_mono; [|apply (combineClusterLists_keeps _ good K HKrem);
    [rewrite Hns; exact Hget|done|done]].
  intros w2 [[t2 cls2] e2] [[Hsp2 HK2] Hg2]. simpl in HK2, Hg2.
  wp_step; [by wp_step|].
  apply (wp_foreach_bind _ _ _ _ (fun l _ t => n ∈ names t /\ forall cl, cl ∈ l -> good cl)).
  - done.
  - intros w' t [Hn _]. wp_step; wp_step; [|done]. exfalso.
    apply bool_decide_eq_true in Heqb. unfold names in Hn. rewrite Heqb in Hn. set_solver.
  - intros cl l w' t [Hn Hgl]. wp_step. wp_skip. wp_step; wp_step; (split; [|set_solver]); [done|].
    apply names_remove. split; [done|]. intros ->. by apply (Hgl cl); [set_solver|].
Qed.
End deletion_theorems.

(** ** What the status says after [doReconcile] *)
Fixpoint find_ps (n : string) (l : list PropagationStatus) : option PropagationStatus :=
  match l with
  | [] => None
  | ps :: l' => if bool_decide (ClusterName ps = n) then Some ps else find_ps n l'
  end.
Definition reported (t : TeamRoleBinding) (n : string) : option string :=
  (fun ps => CondStatus (ps_Condition ps)) <$> find_ps n (statuses t).

Lemma reported_set now n s r m t x :
  reported (SetPropagationStatus now n s r m t) x = if decide (x = n) then Some s else reported t x.
Proof.
  unfold reported, statuses. simpl. generalize (trb_propagation (trb_Status t)). intros l.
  induction l as [|ps l IH]; simpl.
  - case_bool_decide; destruct (decide (x = n)); naive_solver.
  - destruct (bool_decide_reflect (ClusterName ps = n)) as [<-|Hn]; simpl.
    + case_bool_decide as Hx.
      * rewrite decide_True by done. simpl. by case_bool_decide.
      * by rewrite decide_False by congruence.
    + case_bool_decide as Hx; [|done]. rewrite decide_False by congruence. done.
Qed.

Section reports.
Context {W : Type}.
Variable R : W -> forall X, rbacE X -> X -> W -> Prop.
Variable now : Z.

Lemma reconcile_cluster_reports cr subjects t cl w :
  wp R (reconcile_cluster now cr subjects t cl) (fun _ r => forall x,
    reported r.1 x = if decide (x = GetName cl)
                     then Some (if r.2 then ConditionFalse else ConditionTrue)
                     else reported t x) w.
Proof.
  unfold reconcile_cluster, propagation_failed, propagation_ok.
  repeat first [wp_step | wp_skip]; intros y; simpl; rewrite ?reported_set; try done.
  by destruct (decide (y = GetName cl)).
Qed.

(** The status tells what happened.  For clusters of distinct names, every
    cluster tried ends with an entry; [doReconcile] returns no error exactly when
    all of them are True, the entries of other clusters are untouched, and the
    RBACReady condition is True exactly when there is no error. *)
Theorem doReconcile_reports teamRole clusters trb subjects w :
  NoDup (GetName <$> clusters) ->
  wp R (doReconcile now teamRole clusters trb subjects) (fun _ '(t, err) =>
    (err = None <-> forall cl, cl ∈ clusters -> reported t (GetName cl) = Some ConditionTrue) /\
    (forall cl, cl ∈ clusters -> is_Some (reported t (GetName cl))) /\
    (forall x, x ∉ GetName <$> clusters -> reported t x = reported trb x) /\
    (exists c, GetConditionByType (trb_conditions (trb_Status t)) RBACReady = Some c /\
       (IsTrue c = true <-> err = None))) w.
Proof.
  intros Hnd. unfold doReconcile.
  apply (wp_foreach_bind _ _ _ _ (fun l _ '(t, failed) => exists done, clusters = done ++ l /\
    (failed = [] <-> forall cl, cl ∈ done -> reported t (GetName cl) = Some ConditionTrue) /\
    (forall cl, cl ∈ done -> is_Some (reported t (GetName cl))) /\
    (forall x, x ∉ GetName <$> done -> reported t x = reported trb x))).
  - exists []. split_and!; [done| |set_solver|done]. split; [set_solver|done].
  - intros w' [t failed] (done_ & -> & Hf & Hs & Ho). rewrite app_nil_r in *.
    assert (forall c, reported (SetCondition now c t) = reported t) as Hrep by done.
    case_bool_decide as Hfail; wp_step; rewrite Hrep; (split_and!; [|done..|]).
    + split; [done|]. by intros H%Hf.
    + simpl. rewrite get_SetConditions. eexists; split; [done|]. by split.
    + naive_solver.
    + simpl. rewrite get_SetConditions. eexists; split; [done|]. by split.
  - intros cl l w' [t failed] (done_ & -> & Hf & Hs & Ho). wp_step.
    eapply wp_mono; [|apply reconcile_cluster_reports]. intros w2 [t2 b] Ht2. simpl in Ht2.
    wp_step. exists (done_ ++ [cl]). rewrite <-app_assoc. split; [done|].
    rewrite fmap_app in Hnd. csimpl in Hnd. apply NoDup_app in Hnd as (_ & Hdis & Hnd).
    assert (forall cl', cl' ∈ done_ -> GetName cl' <> GetName cl) as Hne.
    { intros cl' Hin Heq. apply (Hdis (GetName cl')); [by apply list_elem_of_fmap_2|]. set_solver. }
    assert (forall cl', cl' ∈ done_ -> reported t2 (GetName cl') = reported t (GetName cl')) as Hold.
    { intros cl' Hin. rewrite Ht2, decide_False; auto. }
    assert (reported t2 (GetName cl) = Some (if b then ConditionFalse else ConditionTrue)) as Hnew.
    { by rewrite Ht2, decide_True. }
    split_and!.
    + destruct b.
      * split; [|intros H; specialize (H cl); rewrite Hnew in H; by exfalso; set_solver].
        unfold add_once. destruct (slices_contains failed (GetName cl)) eqn:E.
        -- apply slices_contains_true in E. intros ->. set_solver.
        -- by destruct failed.
      * rewrite Hf. setoid_rewrite elem_of_app. setoid_rewrite list_elem_of_singleton. split.
        -- intros H cl' [Hin| ->]; [rewrite Hold|]; auto.
        -- intros H cl' Hin. rewrite <-Hold; auto.
    + intros cl' [Hin| ->%list_elem_of_singleton]%elem_of_app; [rewrite Hold; auto|]. rewrite Hnew. eauto.
    + intros y Hy. rewrite fmap_app in Hy. csimpl in Hy.
      rewrite Ht2, decide_False by set_solver. apply Ho. set_solver.
Qed.
End reports.

(** ** Watches: which TeamRoleBindings a change of another object enqueues *)
Inductive enqueueE : Type -> Type :=
| EListByField (field value namespace : string) : enqueueE (result (list TeamRoleBinding))
| EListInNamespace (namespace : string) : enqueueE (result (list TeamRoleBinding)).

Definition RolebindingTeamRoleRefField : string := ".spec.teamRoleRef".
Definition RolebindingTeamRefsField : string := ".spec.teamRefs".
(** The index functions of [SetupWithManager]. *)
Definition index_of (field : string) (trb : TeamRoleBinding) : list string :=
  if bool_decide (field = RolebindingTeamRefsField) then resolveTeamRefs trb
  else if bool_decide (field = RolebindingTeamRoleRefField) then
    (if bool_decide (TeamRoleRef (trb_Spec trb) = "") then [] else [TeamRoleRef (trb_Spec trb)])
  else [].

Inductive watched := WTeamRole (o : TeamRole) | WTeam (o : Team) | WOther.
Definition list_requests (e : enqueueE (result (list TeamRoleBinding))) :
    prog enqueueE (list objkey) :=
  r ← trigger e;
  match r with
  | Err _ => mret []
  | Ok items => mret (key_of <$> items)
  end.
Definition enqueueTeamRoleBindingsFor (o : watched) : prog enqueueE (list objkey) :=
  match o with
  | WTeamRole o => list_requests (EListByField RolebindingTeamRoleRefField (GetName o) (GetNamespace o))
  | WTeam o => list_requests (EListByField RolebindingTeamRefsField (GetName o) (GetNamespace o))
  | WOther => mret []
  end.
Definition enqueueAllTeamRoleBindingsInNamespace (namespace : string) : prog enqueueE (list objkey) :=
  list_requests (EListInNamespace namespace).

(** The index answers with exactly the stored objects whose index function
    returns the value, or fails ([fails]). *)
Definition indexed (stored : list TeamRoleBinding) (fails : bool) (w : unit) X (e : enqueueE X) :
    X -> unit -> Prop :=
  match e in enqueueE X return X -> unit -> Prop with
  | EListByField f v ns => fun r _ =>
      match r with
      | Ok l => forall t, t ∈ l <-> t ∈ stored /\ GetNamespace t = ns /\ v ∈ index_of f t
      | Err _ => fails = true
      end
  | EListInNamespace ns => fun r _ =>
      match r with
      | Ok l => forall t, t ∈ l <-> t ∈ stored /\ GetNamespace t = ns
      | Err _ => fails = true
      end
  end.

(** No change is missed.  When the index answers, a change of a Team
    enqueues exactly the TeamRoleBindings of its namespace that resolve to a
    reference to it (the deprecated single reference counts only when the list
    is empty). *)
Theorem Team_change_enqueues stored team w :
  wp (indexed stored false) (enqueueTeamRoleBindingsFor (WTeam team)) (fun _ reqs =>
    forall k, k ∈ reqs <-> exists t, t ∈ stored /\ key_of t = k /\
      GetNamespace t = GetNamespace team /\ GetName team ∈ resolveTeamRefs t) w.
Proof.
  unfold enqueueTeamRoleBindingsFor, list_requests. do 2 wp_step. destruct x as [l|e]; [|done].
  wp_step. simpl in Hx. intros k. rewrite list_elem_of_fmap. split.
  - intros (t & -> & Ht). apply Hx in Ht as (? & ? & Hi). exists t. done.
  - intros (t & ? & <- & ? & ?). exists t. split; [done|]. apply Hx. done.
Qed.

(** ** Two divergences *)

(** Every cluster read by name is gone. *)
Definition all_gone (w : unit) X (e : rbacE X) : X -> unit -> Prop :=
  match e in rbacE X return X -> unit -> Prop with
  | CGetCluster _ => fun r _ => match r with Ok _ => False | Err e => err_reason e = NotFound end
  | _ => fun _ _ => True
  end.

(** [cleanupResources] skips entries: the loop ranges over the array that
    [RemovePropagationStatus] compacts in place.  With two clusters in the status
    that are both gone and not selected, one pass removes only the first. *)
Theorem cleanupResources_skips now trb a b :
  statuses trb = [a; b] -> ClusterName a <> ClusterName b -> ClusterName b <> "" ->
  wp all_gone (cleanupResources now trb []) (fun _ r => r.2 = None ->
    statuses r.1 = [b]) tt.
Proof.
  intros Hs Hne Hb. unfold cleanupResources. rewrite Hs. simpl.
  intros [cl|e] w1 Hx; simpl in Hx; [done|]. rewrite bool_decide_eq_true_2 by done.
  unfold update_ranged. rewrite Hs. simpl.
  assert (statuses (RemovePropagationStatus (ClusterName a) trb) = [b]) as Hs1.
  { unfold statuses in *. simpl. rewrite Hs. unfold delete_func. simpl.
    rewrite bool_decide_eq_true_2 by done. simpl.
    by rewrite bool_decide_eq_false_2 by congruence. }
  rewrite Hs1. simpl. intros [cl|e'] w2 Hx'; simpl in Hx'; [done|].
  rewrite bool_decide_eq_true_2 by done. simpl. wp_step. intros _.
  unfold statuses in Hs1 |- *. simpl in Hs1 |- *. rewrite Hs1. unfold delete_func. simpl.
  by rewrite bool_decide_eq_false_2.
Qed.

(** Nothing carries the role label but objects that are not listed. *)
Definition no_role_label (h : list (call rbacE)) X (e : rbacE X) : X -> Prop :=
  match e in rbacE X return X -> Prop with
  | OnListRoles _ _ _ => fun r => match r with Ok l => l = [] | Err _ => True end
  | OnListClusterRoleBindings _ _ _ => fun r => match r with Ok l => l = [] | Err _ => True end
  | _ => fun _ => True
  end.

(** A ClusterRole in use is deleted.  The RoleBindings that a namespaced
    TeamRoleBinding creates refer to the ClusterRole of their TeamRole but do
    not carry the label by which [isRoleReferenced] looks for references; so
    with no Role and no ClusterRoleBinding labelled, a successful clean-up of
    any other TeamRoleBinding of that role deletes the ClusterRole (unless it is
    already gone), whatever RoleBindings refer to it. *)
Theorem ClusterRole_deleted_while_bound trb other teamRole subjects ns cl :
  GetName teamRole = TeamRoleRef (trb_Spec trb) ->
  let b := rbacRoleBinding other (initRBACClusterRole teamRole) subjects ns in
  let role := RBACPrefix +:+ TeamRoleRef (trb_Spec trb) in
  rr_Name (b_RoleRef b) = role /\ GetLabels b !! LabelKeyRole = None /\
  wp (traced no_role_label) (cleanupCluster trb cl) (fun h err => err = None ->
    exists r, Call (OnClusterRole (key_of cl) (KubeGet (mk_key "" role))) r ∈ h /\
      match r with
      | Ok cr => Call (OnClusterRole (key_of cl) (KubeDelete cr)) None ∈ h
      | Err e => err_reason e = NotFound
      end) [].
Proof.
  intros Hname b role. split_and!; [unfold b, role; by rewrite <-Hname|done|].
  unfold cleanupCluster. do 2 wp_step. destruct Hx as [_ ->]. wp_step; [by wp_step|].
  wp_step. wp_skip. wp_step; [by wp_step|]. wp_step.
  unfold isRoleReferenced. do 2 wp_step. destruct Hx as [Hx ->].
  destruct x0 as [l|e]; simpl in Hx; [subst l|by do 2 wp_step].
  do 2 wp_step. destruct Hx as [Hx ->]. destruct x0 as [l|e]; simpl in Hx; [subst l|by do 2 wp_step].
  wp_step. cbn beta iota. unfold deleteClusterRole, on_cr. wp_step. wp_step.
  unfold Delete. do 2 wp_step. destruct Hx as [_ ->]. destruct x0 as [cr|e].
  - do 2 wp_step. destruct Hx as [_ ->]. destruct x0 as [e|]; do 2 wp_step; [done|].
    intros _. exists (Ok cr). set_solver.
  - destruct (is_not_found (Some e)) eqn:Hnf; do 2 wp_step; [|done].
    intros _. exists (Err e). apply bool_decide_eq_true in Hnf. set_solver.
Qed.

(** ** Instances *)
Definition example_ps (n : string) : PropagationStatus :=
  mk_ps n (NewCondition 1 RBACReady ConditionTrue RBACReconciled "").
Definition example_trb (ps : list PropagationStatus) : TeamRoleBinding :=
  mk_trb (named "trb" "org")
    (mk_trb_spec "viewer" "" ["infra"] [] (mk_cluster_selector "" "env=qa") ["ns"] true)
    (mk_trb_status [] ps).
Definition example_cluster (n : string) : Cluster :=
  mk_cluster (named n "org") (mk_cluster_spec "direct" 0) (mk_cluster_status "" None [] None).
Definition example_role : TeamRole :=
  mk_team_role (named "viewer" "org") (mk_team_role_spec [mk_rule [""] ["pods"] ["get"] []] None ∅).

Lemma EnsureDeleted_stuck_on_gone_cluster_witness :
  wp (cluster_gone (mk_key "org" "c1"))
    (trb_EnsureDeleted 7 (fun s => Ok s) (example_trb [example_ps "c1"]))
    (fun _ r => r.2.1.2 <> Success) tt.
Proof.
  apply (EnsureDeleted_stuck_on_gone_cluster 7 (fun s => Ok s) (example_trb [example_ps "c1"]) "c1").
  - apply list_elem_of_singleton. reflexivity.
  - discriminate.
Defined.

Lemma cleanupResources_skips_witness :
  wp all_gone (cleanupResources 7 (example_trb [example_ps "c1"; example_ps "c2"]) [])
    (fun _ r => r.2 = None -> statuses r.1 = [example_ps "c2"]) tt.
Proof.
  apply (cleanupResources_skips 7 _ (example_ps "c1")); [reflexivity|discriminate|discriminate].
Defined.

Lemma ClusterRole_deleted_while_bound_witness :
  GetLabels (rbacRoleBinding (example_trb []) (initRBACClusterRole example_role) [] "ns")
    !! LabelKeyRole = None.
Proof.
  destruct (ClusterRole_deleted_while_bound (example_trb []) (example_trb []) example_role [] "ns"
              (example_cluster "c1")) as (_ & H & _); [reflexivity|exact H].
Defined.

Lemma doReconcile_reports_witness :
  wp (traced any_answer)
    (doReconcile 7 example_role [example_cluster "c1"; example_cluster "c2"] (example_trb []) [])
    (fun _ r => is_Some (reported r.1 "c2")) [].
Proof.
  eapply wp_mono; [|apply doReconcile_reports].
  - intros h [t err] (_ & H & _). apply (H (example_cluster "c2")).
    apply list_elem_of_further, list_elem_of_here.
  - vm_compute. apply NoDup_cons. split; [|apply NoDup_singleton].
    intros H%list_elem_of_singleton. discriminate.
Defined.
