(* ===== verification/Authz.v ===== *)
(** * Authz: [cmd/authz/authorization.go]

    The authorization webhook: it answers a SubjectAccessReview by comparing
    the owner of the requested object with the support groups of the user, or,
    for a ServiceAccount of the object's namespace, with the owner of the
    ServiceAccount.  The REST mapper and the Kubernetes API are calls; metrics
    and logs have no model, and the decoded request body is an input. *)
From S2P Require Import Prelude Effects Conditions Meta ApiTypes.

Definition supportGroupClaimPrefix : string := "support-group:".
Definition reasonNoSupportGroupClaims : string := "no_support_group_claims".
Definition reasonNoOwnedByLabel : string := "no_owned_by_label".
Definition reasonSupportGroupMismatch : string := "support_group_mismatch".
Definition reasonObjectNotFound : string := "object_not_found".
Definition reasonKindResolutionFailed : string := "kind_resolution_failed".
Definition reasonServiceAccountNotFound : string := "service_account_not_found".

(** [authv1.ResourceAttributes] and the parts of the review the code reads. *)
Record ResourceAttributes := mk_attrs {
  attr_Namespace : string; attr_Verb : string; attr_Group : string;
  attr_Version : string; attr_Resource : string; attr_Name : string }.
Record SubjectAccessReview := mk_review {
  review_User : string; review_Groups : list string;
  review_Attributes : option ResourceAttributes }.
(** [schema.GroupVersionResource] *)
Record GVR := mk_gvr { gvr_Group : string; gvr_Version : string; gvr_Resource : string }.

Inductive authzE : Type -> Type :=
| AGetServiceAccount (k : objkey) : authzE (result ObjectMeta)
| AKindFor (r : GVR) : authzE (result string)
| AGetObject (gvk : string) (k : objkey) : authzE (result ObjectMeta)
| AGetTeam (k : objkey) : authzE (result Team).

(** What is written to the HTTP response. *)
Inductive response :=
| HttpError (status : Z) (msg : string)
| ReviewStatus (allowed : bool) (reason : string).

Definition extractServiceAccountName (username namespace : string) : string :=
  default "" (cut_prefix username ("system:serviceaccount:" +:+ namespace +:+ ":")).

(** Errors carry the reason code used for the metrics. *)
Definition denied := (string * string)%type.

Definition getSupportGroups (username : string) (groups : list string) (namespace : string) :
    prog authzE (list string + denied) :=
  let serviceAccountName := extractServiceAccountName username namespace in
  if bool_decide (serviceAccountName <> "") then
    r ← trigger (AGetServiceAccount (mk_key namespace serviceAccountName));
    match r with
    | Err _ => mret (inr (reasonServiceAccountNotFound,
                          "ServiceAccount " +:+ serviceAccountName +:+ " not found"))
    | Ok sa =>
        match om_labels sa !! LabelKeyOwnedBy with
        | None => mret (inr (reasonNoOwnedByLabel, "ServiceAccount missing owned-by label"))
        | Some teamName => mret (inl [teamName])
        end
    end
  else
    let userSupportGroups := omap (fun g => cut_prefix g supportGroupClaimPrefix) groups in
    if bool_decide (userSupportGroups = []) then
      mret (inr (reasonNoSupportGroupClaims,
                 "user has no support-group claims and is not an authorized ServiceAccount"))
    else mret (inl userSupportGroups).

Definition gvr_of (attrs : ResourceAttributes) : GVR :=
  mk_gvr (attr_Group attrs)
    (if bool_decide (attr_Version attrs <> "") && bool_decide (attr_Version attrs <> "*")
     then attr_Version attrs else "")
    (attr_Resource attrs).

Definition fetchResourceWithOwnership (attrs : ResourceAttributes) :
    prog authzE (string + denied) :=
  k ← trigger (AKindFor (gvr_of attrs));
  match k with
  | Err e => mret (inr (reasonKindResolutionFailed, err_msg e))
  | Ok gvk =>
      r ← trigger (AGetObject gvk (mk_key (attr_Namespace attrs) (attr_Name attrs)));
      match r with
      | Err e => mret (inr (reasonObjectNotFound, err_msg e))
      | Ok obj =>
          match om_labels obj !! LabelKeyOwnedBy with
          | None => mret (inr (reasonNoOwnedByLabel, "resource has no owned-by label"))
          | Some ownedByValue => mret (inl ownedByValue)
          end
      end
  end.

Definition validateTeam (namespace teamName : string) : prog authzE (option denied) :=
  r ← trigger (AGetTeam (mk_key namespace teamName));
  match r with
  | Err e => mret (Some (reasonObjectNotFound,
      "team " +:+ teamName +:+ " referenced in owned-by label does not exist: " +:+ err_msg e))
  | Ok team =>
      if bool_decide (GetLabels team !! LabelKeySupportGroup = Some "true") then mret None
      else mret (Some (reasonObjectNotFound, "team " +:+ teamName +:+ " is not a support-group"))
  end.

(** allowed, reason code, owner, message *)
Definition authorizeAccess (attrs : ResourceAttributes) (supportGroups : list string) :
    prog authzE (bool * string * string * string) :=
  o ← fetchResourceWithOwnership attrs;
  match o with
  | inr (code, msg) => mret (false, code, "", "failed to fetch object: " +:+ msg)
  | inl ownedByValue =>
      v ← validateTeam (attr_Namespace attrs) ownedByValue;
      match v with
      | Some (code, msg) => mret (false, code, "", msg)
      | None =>
          if slices_contains supportGroups ownedByValue then
            mret (true, "", ownedByValue, "authorized to access resource owned by " +:+ ownedByValue)
          else mret (false, reasonSupportGroupMismatch, "", "support-group does not match resource owner")
      end
  end.

Definition MethodPost : string := "POST".
Definition handleAuthorize (method : string) (body : result SubjectAccessReview) :
    prog authzE response :=
  if negb (bool_decide (method = MethodPost)) then mret (HttpError 405 "invalid method")
  else
    match body with
    | Err e => mret (HttpError 400 ("decode: " +:+ err_msg e))
    | Ok review =>
        match review_Attributes review with
        | None => mret (ReviewStatus false "missing resource name in request")
        | Some attrs =>
            if bool_decide (attr_Name attrs = "") then
              mret (ReviewStatus false "missing resource name in request")
            else
              g ← getSupportGroups (review_User review) (review_Groups review) (attr_Namespace attrs);
              match g with
              | inr (_, msg) => mret (ReviewStatus false msg)
              | inl supportGroups =>
                  '(allowed, _, _, message) ← authorizeAccess attrs supportGroups;
                  mret (ReviewStatus allowed message)
              end
        end
    end.

(** ** Who is allowed what

    A fixed state of the cluster: what each call answers. *)
Record view := mk_view {
  v_sa : objkey -> result ObjectMeta;
  v_kind : GVR -> result string;
  v_object : string -> objkey -> result ObjectMeta;
  v_team : objkey -> result Team
}.
Definition view_answer (v : view) {X} (e : authzE X) : X :=
  match e with
  | AGetServiceAccount k => v_sa v k
  | AKindFor r => v_kind v r
  | AGetObject gvk k => v_object v gvk k
  | AGetTeam k => v_team v k
  end.
Definition answers (v : view) (w : unit) X (e : authzE X) (x : X) (w' : unit) : Prop :=
  x = view_answer v e.

Definition owner_of (v : view) (attrs : ResourceAttributes) : option string :=
  match v_kind v (gvr_of attrs) with
  | Err _ => None
  | Ok gvk => match v_object v gvk (mk_key (attr_Namespace attrs) (attr_Name attrs)) with
              | Err _ => None
              | Ok obj => om_labels obj !! LabelKeyOwnedBy
              end
  end.
Definition is_support_group (v : view) (namespace team : string) : Prop :=
  exists t, v_team v (mk_key namespace team) = Ok t /\
    GetLabels t !! LabelKeySupportGroup = Some "true".

(** The identity of the requester speaks for [team] in [namespace]. *)
Definition speaks_for (v : view) (user : string) (groups : list string)
    (namespace team : string) : Prop :=
  (exists sa m, sa <> "" /\ user = "system:serviceaccount:" +:+ namespace +:+ ":" +:+ sa /\
     v_sa v (mk_key namespace sa) = Ok m /\ om_labels m !! LabelKeyOwnedBy = Some team) \/
  ((forall sa, user = "system:serviceaccount:" +:+ namespace +:+ ":" +:+ sa -> sa = "") /\
   (supportGroupClaimPrefix +:+ team) ∈ groups).

Lemma extract_Some user ns sa : sa <> "" ->
  extractServiceAccountName user ns = sa <-> user = "system:serviceaccount:" +:+ ns +:+ ":" +:+ sa.
Proof.
  intros Hsa. unfold extractServiceAccountName.
  assert (forall r, cut_prefix user ("system:serviceaccount:" +:+ ns +:+ ":") = Some r <->
            user = "system:serviceaccount:" +:+ ns +:+ ":" +:+ r) as Hc.
  { intros r. rewrite cut_prefix_Some. by rewrite !append_assoc. }
  destruct (cut_prefix _ _) as [r|] eqn:E; cbn [default from_option id].
  - pose proof (proj1 (Hc r) eq_refl) as Hu. split; [by intros ->|]. intros H. rewrite H in Hu.
    by do 3 apply append_inj_l in Hu.
  - split; [congruence|]. by intros H%Hc.
Qed.

Lemma getSupportGroups_spec v user groups ns w :
  wp (answers v) (getSupportGroups user groups ns) (fun _ r =>
    match r with
    | inl l => forall team, team ∈ l <-> speaks_for v user groups ns team
    | inr _ => forall team, ~ speaks_for v user groups ns team
    end) w.
Proof.
  unfold getSupportGroups, speaks_for.
  destruct (bool_decide_reflect (extractServiceAccountName user ns <> "")) as [Hsa|Hsa].
  - assert (user = "system:serviceaccount:" +:+ ns +:+ ":" +:+ extractServiceAccountName user ns) as Hu
      by (by apply extract_Some).
    set (sa := extractServiceAccountName user ns) in *. clearbody sa.
    assert (forall sa', user = "system:serviceaccount:" +:+ ns +:+ ":" +:+ sa' -> sa' = sa) as Huniq.
    { intros sa' H. rewrite Hu in H. by do 3 apply append_inj_l in H. }
    do 2 wp_step. unfold answers in Hx. cbn [view_answer] in Hx.
    destruct x as [m|e].
    + destruct (om_labels m !! LabelKeyOwnedBy) as [team|] eqn:Hl; wp_step.
      * intros team'. rewrite list_elem_of_singleton. split.
        -- intros ->. left. eauto 10.
        -- intros [(sa' & m' & _ & ->%Huniq & Hm & Hl')|[Hno _]]; [congruence|].
           by destruct Hsa; apply Hno.
      * intros team' [(sa' & m' & _ & ->%Huniq & Hm & Hl')|[Hno _]]; [congruence|].
        by destruct Hsa; apply Hno.
    + wp_step. intros team' [(sa' & m' & _ & ->%Huniq & Hm & Hl')|[Hno _]]; [congruence|].
      by destruct Hsa; apply Hno.
  - assert (forall sa, user = "system:serviceaccount:" +:+ ns +:+ ":" +:+ sa -> sa = "") as Hno.
    { intros sa H. destruct (decide (sa = "")) as [|Hne]; [done|].
      apply (extract_Some user ns sa Hne) in H. rewrite H in Hsa. by destruct Hsa. }
    assert (forall team, team ∈ omap (fun g => cut_prefix g supportGroupClaimPrefix) groups <->
              (supportGroupClaimPrefix +:+ team) ∈ groups) as Hg.
    { intros team. rewrite list_elem_of_omap. setoid_rewrite cut_prefix_Some. naive_solver. }
    case_bool_decide as Hempty; wp_step.
    + intros team [(sa & m & Hne & Hu & _)|[_ Hin]]; [by apply Hno in Hu|].
      apply Hg in Hin. rewrite Hempty in Hin. by apply not_elem_of_nil in Hin.
    + intros team. rewrite Hg. split; [by right|].
      intros [(sa & m & Hne & Hu & _)|[_ Hin]]; [by apply Hno in Hu|done].
Qed.

Lemma authorizeAccess_spec v attrs groups w :
  wp (answers v) (authorizeAccess attrs groups) (fun _ r =>
    r.1.1.1 = true <-> exists team, owner_of v attrs = Some team /\
      is_support_group v (attr_Namespace attrs) team /\ team ∈ groups) w.
Proof.
  unfold authorizeAccess, fetchResourceWithOwnership, validateTeam, owner_of, is_support_group.
  do 3 wp_step. unfold answers in Hx. cbn [view_answer] in Hx. rewrite <-Hx. clear Hx.
  destruct x as [gvk|e]; [|do 2 wp_step; simpl; naive_solver].
  do 2 wp_step. unfold answers in Hx. cbn [view_answer] in Hx. rewrite <-Hx. clear Hx.
  destruct x as [obj|e]; [|do 2 wp_step; simpl; naive_solver].
  destruct (om_labels obj !! LabelKeyOwnedBy) as [owner|] eqn:Hl; wp_step; cbn beta iota;
    [|wp_step; simpl; naive_solver].
  do 3 wp_step. unfold answers in Hx. cbn [view_answer] in Hx.
  destruct x as [team|e].
  - case_bool_decide as Hsg; wp_step; cbn beta iota.
    + destruct (slices_contains groups owner) eqn:Hc; wp_step; simpl.
      * apply slices_contains_true in Hc. split; [|done]. intros _. exists owner.
        split; [done|]. split; [|done]. by exists team.
      * split; [done|]. intros (t & [= <-] & _ & Hin). apply slices_contains_true in Hin. congruence.
    + wp_step. simpl. split; [done|]. intros (t & [= <-] & (t' & Ht' & Hs) & _).
      rewrite <-Hx in Ht'. congruence.
  - wp_step. cbn beta iota. wp_step. simpl. split; [done|].
    intros (t & [= <-] & (t' & Ht' & Hs) & _). congruence.
Qed.

Lemma handleAuthorize_decides v review w :
  wp (answers v) (handleAuthorize MethodPost (Ok review)) (fun _ r =>
    exists allowed reason, r = ReviewStatus allowed reason /\
    (allowed = true <-> exists attrs team,
       review_Attributes review = Some attrs /\ attr_Name attrs <> "" /\
       owner_of v attrs = Some team /\ is_support_group v (attr_Namespace attrs) team /\
       speaks_for v (review_User review) (review_Groups review) (attr_Namespace attrs) team)) w.
Proof.
  unfold handleAuthorize. rewrite bool_decide_eq_true_2 by done. cbn [negb].
  destruct (review_Attributes review) as [attrs|]; [|wp_step; do 2 eexists; split; [done|]; naive_solver].
  case_bool_decide as Hn; [wp_step; do 2 eexists; split; [done|]; naive_solver|].
  wp_step. eapply wp_mono; [|apply getSupportGroups_spec]. intros w1 g Hg.
  destruct g as [groups|[code msg]].
  - wp_step. eapply wp_mono; [|apply authorizeAccess_spec].
    intros w2 [[[allowed code] owner] msg] Ha. simpl in Ha. wp_step.
    do 2 eexists. split; [done|]. rewrite Ha. setoid_rewrite Hg. naive_solver.
  - wp_step. do 2 eexists. split; [done|]. split; [done|].
    intros (attrs' & team & [= <-] & _ & _ & _ & Hs). by apply Hg in Hs.
Qed.
(** The authorization decision.  A POST with a well-formed review is
    allowed exactly when it names an object, that object exists and is labelled
    as owned by a Team, that Team exists in the object's namespace and is a
    support group, and the requester speaks for it: a ServiceAccount of the
    namespace only through its own owned-by label (its group claims are not
    consulted), anybody else only through a support-group claim. *)
Theorem handleAuthorize_allowed v review w :
  wp (answers v) (handleAuthorize MethodPost (Ok review)) (fun _ r =>
    exists allowed reason, r = ReviewStatus allowed reason /\
    (allowed = true <-> exists attrs team,
       review_Attributes review = Some attrs /\ attr_Name attrs <> "" /\
       owner_of v attrs = Some team /\ is_support_group v (attr_Namespace attrs) team /\
       speaks_for v (review_User review) (review_Groups review) (attr_Namespace attrs) team)) w.
Proof. apply handleAuthorize_decides. Qed.

(** The webhook fails closed: whatever the API server answers, a request
    that is not a POST, has no readable body or names no object is not allowed,
    and an allowed answer always follows the reads of the object and of its
    owning Team. *)
Theorem handleAuthorize_closed method body :
  wp (traced any_answer) (handleAuthorize method body) (fun h r =>
    forall reason, r = ReviewStatus true reason ->
      method = MethodPost /\ exists review attrs gvk obj owner team,
        body = Ok review /\ review_Attributes review = Some attrs /\ attr_Name attrs <> "" /\
        Call (AGetObject gvk (mk_key (attr_Namespace attrs) (attr_Name attrs))) (Ok obj) ∈ h /\
        om_labels obj !! LabelKeyOwnedBy = Some owner /\
        Call (AGetTeam (mk_key (attr_Namespace attrs) owner)) (Ok team) ∈ h /\
        GetLabels team !! LabelKeySupportGroup = Some "true") [].
Proof.
  unfold handleAuthorize. case_bool_decide as Hm; cbn [negb]; [|by wp_step].
  destruct body as [review|e]; [|by wp_step].
  destruct (review_Attributes review) as [attrs|] eqn:Hattrs; [|by wp_step].
  case_bool_decide as Hn; [by wp_step|]. wp_step. wp_skip.
  destruct a as [groups|[code msg]]; [|by wp_step].
  unfold authorizeAccess, fetchResourceWithOwnership, validateTeam.
  do 4 wp_step. destruct Hx as [_ ->]. destruct x as [gvk|e]; [|by repeat (wp_step; cbn beta iota)].
  do 2 wp_step. destruct Hx as [_ ->]. destruct x as [obj|e]; [|by repeat (wp_step; cbn beta iota)].
  destruct (om_labels obj !! LabelKeyOwnedBy) as [owner|] eqn:Hl; wp_step; cbn beta iota;
    [|by repeat (wp_step; cbn beta iota)].
  do 3 wp_step. destruct Hx as [_ ->]. destruct x as [team|e]; [|by repeat (wp_step; cbn beta iota)].
  case_bool_decide as Hs; wp_step; cbn beta iota; [|by repeat (wp_step; cbn beta iota)].
  destruct (slices_contains groups owner); repeat (wp_step; cbn beta iota); [|done].
  intros reason _. split; [done|]. exists review, attrs, gvk, obj, owner, team. set_solver.
Qed.
