(* ===== verification/OciMirror.v ===== *)
(** * OciMirror: [internal/ocimirror]

    Redirecting image references to the registry mirrors of an Organization:
    extracting references from rendered manifests ([ociref.go]), resolving them
    against the mirror configuration ([registry_mirror.go]), rewriting them and
    replicating them by fetching their manifests ([image_mirror.go]).
    go-containerregistry's [name.ParseReference] and the YAML decoder are
    parameters.  [utilerrors.NewAggregate] is nil exactly for the empty list, so
    the list of errors stands for the aggregate. *)
From S2P Require Import Prelude Effects Conditions Meta.
From stdpp Require Import sorting.
From Stdlib Require Import Ascii.

(** ** References in manifests

    The regular expression [(?m)^[\s-]*image:[\t ]+Q?([^\s Q]+)Q?\s*$], Q a quote of
    either kind, never matches across lines in a way that changes the captured
    group, so it is applied line by line. *)
Definition re_space (c : ascii) : bool :=
  existsb (Ascii.eqb c) (ascii_of_nat <$> [9; 10; 12; 13; 32])%nat.
Definition re_quote (c : ascii) : bool :=
  Ascii.eqb c (ascii_of_nat 34) || Ascii.eqb c (ascii_of_nat 39).
Fixpoint drop_while (f : ascii -> bool) (s : string) : string :=
  match s with
  | EmptyString => EmptyString
  | String c s' => if f c then drop_while f s' else s
  end.
Fixpoint take_while (f : ascii -> bool) (s : string) : string :=
  match s with
  | EmptyString => EmptyString
  | String c s' => if f c then String c (take_while f s') else EmptyString
  end.
Definition drop_one (f : ascii -> bool) (s : string) : string :=
  match s with String c s' => if f c then s' else s | EmptyString => s end.
Definition re_blank (c : ascii) : bool :=
  Ascii.eqb c (ascii_of_nat 9) || Ascii.eqb c (ascii_of_nat 32).
Definition ref_char (c : ascii) : bool := negb (re_space c) && negb (re_quote c).
Definition line_ref (line : string) : option string :=
  match cut_prefix (drop_while (fun c => re_space c || Ascii.eqb c "-") line) "image:" with
  | None => None
  | Some rest =>
      let value := drop_one re_quote (drop_while re_blank rest) in
      let ref := take_while ref_char value in
      if bool_decide (drop_while re_blank rest <> rest) && bool_decide (ref <> "") &&
         bool_decide (drop_while re_space (drop_one re_quote (drop_while ref_char value)) = "")
      then Some ref else None
  end.
Definition newline : ascii := ascii_of_nat 10.
Definition ExtractUniqueOCIRefs (manifests : string) : list string :=
  merge_sort String.le (remove_dups (omap line_ref (Prelude.split newline manifests))).

(** ** References and mirrors *)
Inductive identifier := Tag (t : string) | Digest (d : string).
Record parsed_ref := mk_parsed_ref {
  RegistryStr : string; RepositoryStr : string; ref_identifier : identifier }.
Class RefParser := ParseReference : string -> option parsed_ref.
Definition DefaultRegistry : string := "index.docker.io".

Record RegistryMirror := mk_mirror { BaseDomain : string; SubPath : string }.
Record RegistryMirrorConfig := mk_mirror_config {
  PrimaryMirror : string;
  RegistryMirrors : gmap string RegistryMirror;
  SecretName : string
}.
Record ResolvedOCIRef := mk_resolved {
  res_Registry : string; res_Mirror : RegistryMirror;
  res_Repository : string; res_TagOrDigest : string }.
Record ImageTransform := mk_transform { Original : string; Mirrored : string }.

Section refs.
Context {HParse : RefParser}.

Definition SplitOCIRef (imageRef : string) : string * string * string :=
  match ParseReference imageRef with
  | None => ("docker.io", imageRef, "")
  | Some ref =>
      let registry := if bool_decide (RegistryStr ref = DefaultRegistry) then "docker.io"
                      else RegistryStr ref in
      (registry, RepositoryStr ref,
       match ref_identifier ref with Tag t => ":" +:+ t | Digest d => "@" +:+ d end)
  end.

(** [None] is the nil configuration. *)
Definition ResolveOCIRef (c : option RegistryMirrorConfig) (imageRef : string) : option ResolvedOCIRef :=
  match c with
  | None => None
  | Some c =>
      let '(registry, repo, tagOrDigest) := SplitOCIRef imageRef in
      match RegistryMirrors c !! registry with
      | None => None
      | Some mirror => Some (mk_resolved registry mirror repo tagOrDigest)
      end
  end.

(** The checks of one entry of the map, and the loop over it in the given order. *)
Definition validate_mirror (registry : string) (m : RegistryMirror) : option error :=
  if bool_decide (registry = "") then Some (new_error "registry name cannot be empty")
  else if bool_decide (BaseDomain m = "") then
    Some (new_error ("baseDomain cannot be empty for registry " +:+ registry))
  else if bool_decide (SubPath m = "") then
    Some (new_error ("subPath cannot be empty for registry " +:+ registry))
  else None.
Definition validateRegistryMirrorConfig (order : list (string * RegistryMirror))
    (config : RegistryMirrorConfig) : option error :=
  if bool_decide (PrimaryMirror config = "") then Some (new_error "primaryMirror cannot be empty")
  else if bool_decide (RegistryMirrors config = ∅) then
    Some (new_error "registryMirrors cannot be empty")
  else first_some (fun '(r, m) => validate_mirror r m) order.

Definition buildMirroredOCIRef (c : RegistryMirrorConfig) (imageRef : string) : string :=
  match ResolveOCIRef (Some c) imageRef with
  | None => ""
  | Some r => PrimaryMirror c +:+ "/" +:+ SubPath (res_Mirror r) +:+ "/" +:+ res_Repository r +:+
              res_TagOrDigest r
  end.

(** replicationRef and returnRef, both empty when the registry is no mirror. *)
Definition buildReplicationRef (c : RegistryMirrorConfig) (ociRef : string) : string * string :=
  let '(registry, repo, tagOrDigest) := SplitOCIRef ociRef in
  if bool_decide (registry = PrimaryMirror c) then (ociRef, ociRef)
  else if existsb (fun m => bool_decide (BaseDomain m.2 = registry)) (map_to_list (RegistryMirrors c))
  then (PrimaryMirror c +:+ "/" +:+ repo +:+ tagOrDigest, ociRef)
  else ("", "").

Definition transform_of (r : ResolvedOCIRef) : ImageTransform :=
  mk_transform (res_Registry r +:+ "/" +:+ res_Repository r)
    (BaseDomain (res_Mirror r) +:+ "/" +:+ SubPath (res_Mirror r) +:+ "/" +:+ res_Repository r).
(** The references of several manifest sets, set by set. *)
Definition all_refs (manifestSets : list string) : list string := manifestSets ≫= ExtractUniqueOCIRefs.
Definition add_transform (c : RegistryMirrorConfig) (transforms : list ImageTransform)
    (imageRef : string) : list ImageTransform :=
  match ResolveOCIRef (Some c) imageRef with
  | None => transforms
  | Some r =>
      let t := transform_of r in
      if contains_func transforms (fun t' => bool_decide (Original t' = Original t)) then transforms
      else transforms ++ [t]
  end.
Definition BuildImageTransformations (c : RegistryMirrorConfig) (manifestSets : list string) :
    list ImageTransform :=
  fold_left (add_transform c) (all_refs manifestSets) [].

(** ** Replication *)
Inductive mirrorE : Type -> Type :=
| FetchManifest (ref : string) (insecure : bool) : mirrorE (result string).

(** the LOCAL_REGISTRY environment variable *)
Variable local_registry : option string.
Definition CheckIfLocalRegistry (url : string) : bool :=
  match local_registry with None => false | Some reg => contains url reg end.

Definition triggerReplication (ref : string) : prog mirrorE (result string) :=
  r ← trigger (FetchManifest ref (CheckIfLocalRegistry ref));
  match r with
  | Err e => mret (Err (wrap_error ("failed to fetch manifest for " +:+ ref +:+ ": ") e))
  | Ok manifest => mret (Ok manifest)
  end.

Definition EnsureChartReplicated (c : RegistryMirrorConfig) (ociRef : string) :
    prog mirrorE (string * result string) :=
  let '(replicationRef, returnRef) := buildReplicationRef c ociRef in
  if bool_decide (replicationRef = "") then mret ("", Ok "")
  else r ← triggerReplication replicationRef; mret (returnRef, r).

Definition EnsureImageReplicated (c : RegistryMirrorConfig) (ociRef : string) :
    prog mirrorE (string * result string) :=
  let mirroredRef := buildMirroredOCIRef c ociRef in
  if bool_decide (mirroredRef <> "") then
    r ← triggerReplication mirroredRef; mret (mirroredRef, r)
  else EnsureChartReplicated c ociRef.

(** The references in order, each once. *)
Definition dedup (l : list string) : list string :=
  fold_left (fun seen r => if slices_contains seen r then seen else seen ++ [r]) l [].
Definition ReplicateOCIArtifacts (c : RegistryMirrorConfig) (alreadyReplicated : list string)
    (manifestSets : list string) : prog mirrorE (list string * list error) :=
  let imageRefs := dedup (all_refs manifestSets) in
  if bool_decide (imageRefs = []) then mret ([], [])
  else
    r ← foreach (R := Empty_set) imageRefs (fun '(replicated, errs) imageRef =>
          if slices_contains alreadyReplicated imageRef then
            mret (inl (replicated ++ [imageRef], errs))
          else
            '(replicatedRef, r) ← EnsureImageReplicated c imageRef;
            match r with
            | Err e => mret (inl (replicated, errs ++ [wrap_error (imageRef +:+ ": ") e]))
            | Ok _ =>
                if bool_decide (replicatedRef = "") then mret (inl (replicated, errs))
                else mret (inl (replicated ++ [imageRef], errs))
            end) ([], []);
    match r with
    | inr e => Empty_set_rect _ e
    | inl (replicated, errs) => mret (merge_sort String.le replicated, errs)
    end.
End refs.

(** ** Reading the configuration *)
Inductive mirror_configE : Type -> Type :=
| GetOrganization (name : string) : mirror_configE (result string)   (* its Spec.ConfigMapRef *)
| GetConfigMap (k : objkey) : mirror_configE (result strmap)
| GetSecret (k : objkey) : mirror_configE (result strmap).

Definition registryMirrorConfigKey : string := "containerRegistryConfig".
Section config.
(** [yaml.Unmarshal] into a [RegistryMirrorConfig], with the order in which the
    map of mirrors is then iterated. *)
Variable yaml_Unmarshal : string -> result (RegistryMirrorConfig * list (string * RegistryMirror)).

Definition GetRegistryMirrorConfig (orgName : string) :
    prog mirror_configE (result (option RegistryMirrorConfig)) :=
  o ← trigger (GetOrganization orgName);
  match o with
  | Err e =>
      if is_not_found (Some e) then mret (Err (new_error ("organization " +:+ orgName +:+ " not found")))
      else mret (Err (wrap_error ("failed to get organization " +:+ orgName +:+ ": ") e))
  | Ok ref =>
      if bool_decide (ref = "") then mret (Ok None)
      else
        m ← trigger (GetConfigMap (mk_key orgName ref));
        match m with
        | Err e =>
            if is_not_found (Some e) then
              mret (Err (new_error ("organization ConfigMap " +:+ ref +:+
                                    " not found in namespace " +:+ orgName)))
            else mret (Err (wrap_error ("failed to get organization ConfigMap " +:+ ref +:+ ": ") e))
        | Ok data =>
            match data !! registryMirrorConfigKey with
            | None => mret (Ok None)
            | Some text =>
                match yaml_Unmarshal text with
                | Err e => mret (Err (wrap_error "failed to parse registry mirror configuration: " e))
                | Ok (config, order) =>
                    match validateRegistryMirrorConfig order config with
                    | Some e => mret (Err (wrap_error "invalid registry mirror configuration: " e))
                    | None => mret (Ok (Some config))
                    end
                end
            end
        end
  end.
End config.

Definition getAuthFromSecret (secretName namespace : string) :
    prog mirror_configE (result (string * string)) :=
  r ← trigger (GetSecret (mk_key namespace secretName));
  match r with
  | Err e => mret (Err (wrap_error ("failed to get secret " +:+ namespace +:+ "/" +:+ secretName +:+ ": ") e))
  | Ok data =>
      let username := default "" (data !! "username") in
      let password := default "" (data !! "password") in
      if bool_decide (username = "") || bool_decide (password = "") then
        mret (Err (new_error ("secret " +:+ namespace +:+ "/" +:+ secretName +:+
                              " missing username or password")))
      else mret (Ok (username, password))
  end.
(** The credentials of [NewImageMirror]; [None] is anonymous access. *)
Definition NewImageMirror_auth (config : RegistryMirrorConfig) (namespace : string) :
    prog mirror_configE (result (option (string * string))) :=
  if bool_decide (SecretName config <> "") then
    r ← getAuthFromSecret (SecretName config) namespace;
    match r with
    | Err e => mret (Err (wrap_error ("failed to read registry mirror credentials from secret " +:+
                          namespace +:+ "/" +:+ SecretName config +:+ ": ") e))
    | Ok a => mret (Ok (Some a))
    end
  else mret (Ok None).

(** ** Lemmas *)
Lemma ExtractUniqueOCIRefs_elem manifests r :
  r ∈ ExtractUniqueOCIRefs manifests <->
  exists line, line ∈ Prelude.split newline manifests /\ line_ref line = Some r.
Proof.
  unfold ExtractUniqueOCIRefs. rewrite merge_sort_Permutation, elem_of_remove_dups.
  by rewrite list_elem_of_omap.
Qed.
Lemma line_ref_not_empty line r : line_ref line = Some r -> r <> "".
Proof.
  unfold line_ref. destruct (cut_prefix _ _) as [rest|]; [|done].
  case_match eqn:Hb; [|done]. intros [= <-]. rewrite !andb_true_iff, !bool_decide_eq_true in Hb.
  naive_solver.
Qed.

Lemma drop_while_app f s t :
  Forall (fun c => f c = true) (String.list_ascii_of_string s) ->
  drop_while f (s +:+ t) = drop_while f t.
Proof. induction s as [|c s IH]; simpl; [done|]. intros [-> H]%Forall_cons. auto. Qed.
Lemma take_while_all f s t :
  Forall (fun c => f c = true) (String.list_ascii_of_string s) ->
  (match t with String c _ => f c = false | EmptyString => True end) ->
  take_while f (s +:+ t) = s /\ drop_while f (s +:+ t) = t.
Proof.
  induction s as [|c s IH]; simpl.
  - intros _ Ht. destruct t as [|c t]; simpl; [done|]. by rewrite Ht.
  - intros [-> H]%Forall_cons Ht. destruct (IH H Ht) as [-> ->]. done.
Qed.

Definition plain_ref (r : string) : Prop :=
  r <> "" /\ Forall (fun c => ref_char c = true) (String.list_ascii_of_string r).
Definition indentation (s : string) : Prop :=
  Forall (fun c => re_space c || Ascii.eqb c "-" = true) (String.list_ascii_of_string s).

Lemma ref_char_head r : plain_ref r ->
  exists c s, r = String c s /\ re_quote c = false /\ re_blank c = false.
Proof.
  intros [Hne Hr]. destruct r as [|c s]; [done|]. exists c, s. split; [done|].
  simpl in Hr. apply Forall_cons in Hr as [Hc _]. unfold ref_char in Hc.
  apply andb_true_iff in Hc as [Hs Hq]. apply negb_true_iff in Hs, Hq. split; [done|].
  unfold re_space, re_blank in *. simpl in Hs. rewrite !orb_false_iff in Hs.
  apply orb_false_iff. tauto.
Qed.

Lemma space_not_quote c : re_space c = true -> re_quote c = false.
Proof.
  unfold re_space, re_quote. rewrite existsb_exists. intros (d & Hd & <-%Ascii.eqb_eq).
  simpl in Hd. by destruct_or!; subst; try done.
Qed.
Lemma blanks_dropped b :
  Forall (fun c => re_space c = true) (String.list_ascii_of_string b) -> drop_while re_space b = "".
Proof. intros H. rewrite <-(append_nil_r b). by rewrite drop_while_app. Qed.
Lemma blanks_head b : Forall (fun c => re_space c = true) (String.list_ascii_of_string b) ->
  match b with String c _ => ref_char c = false /\ re_quote c = false | EmptyString => True end.
Proof.
  destruct b as [|c b]; [done|]. simpl. intros [Hc _]%Forall_cons.
  unfold ref_char. rewrite Hc. split; [done|]. by apply space_not_quote.
Qed.

(** The value part of an image line. *)
Lemma image_value quote r blank :
  plain_ref r -> (quote = "" \/ exists q, quote = String q "" /\ re_quote q = true) ->
  Forall (fun c => re_space c = true) (String.list_ascii_of_string blank) ->
  let x := quote +:+ r +:+ quote +:+ blank in
  drop_while re_blank x = x /\ drop_one re_quote x = r +:+ quote +:+ blank /\
  take_while ref_char (r +:+ quote +:+ blank) = r /\
  drop_while re_space (drop_one re_quote (drop_while ref_char (r +:+ quote +:+ blank))) = "".
Proof.
  intros Hr Hq Hb x. destruct (ref_char_head r Hr) as (c & s & Hcs & Hc1 & Hc2).
  pose proof (blanks_head blank Hb) as Hhead.
  destruct Hq as [->|(q & -> & Hq)]; simpl in x.
  - assert (match blank with String c _ => ref_char c = false | EmptyString => True end) as Ht
      by (destruct blank; naive_solver).
    destruct (take_while_all ref_char r blank (proj2 Hr) Ht) as [Htk Hdr]. simpl.
    rewrite Htk, Hdr. split_and!; [|..|done|].
    + unfold x. rewrite Hcs. simpl. by rewrite Hc2.
    + unfold x. rewrite Hcs. simpl. by rewrite Hc1.
    + rewrite <-(blanks_dropped blank Hb). f_equal. destruct blank as [|b blank]; [done|].
      simpl. by destruct Hhead as [_ ->].
  - assert (ref_char q = false) as Hrq by (unfold ref_char; rewrite Hq; by rewrite andb_false_r).
    destruct (take_while_all ref_char r (String q blank) (proj2 Hr) Hrq) as [Htk Hdr]. simpl.
    rewrite Htk, Hdr. simpl. rewrite Hq. split_and!; [|done..|].
    + assert (re_blank q = false) as ->; [|done].
      unfold re_blank. apply orb_false_iff. unfold re_quote in Hq.
      apply orb_true_iff in Hq as [->%Ascii.eqb_eq| ->%Ascii.eqb_eq]; done.
    + by apply blanks_dropped.
Qed.

Section properties.
Context {HParse : RefParser}.

(** References are found.  A line that is an indentation, [image:], a
    reference (bare or in quotes) and trailing blanks yields the reference; the
    references of a manifest come sorted and without duplicates. *)
Theorem image_lines_extracted manifests indent r quote blank :
  indentation indent -> plain_ref r ->
  (quote = "" \/ exists q, quote = String q "" /\ re_quote q = true) ->
  Forall (fun c => re_space c = true) (String.list_ascii_of_string blank) ->
  (indent +:+ "image: " +:+ quote +:+ r +:+ quote +:+ blank) ∈ Prelude.split newline manifests ->
  r ∈ ExtractUniqueOCIRefs manifests /\ NoDup (ExtractUniqueOCIRefs manifests) /\
  Sorted String.le (ExtractUniqueOCIRefs manifests).
Proof.
  intros Hi Hr Hq Hb Hin. split_and!.
  - apply ExtractUniqueOCIRefs_elem. eexists. split; [done|]. clear Hin.
    destruct (image_value quote r blank Hr Hq Hb) as (H1 & H2 & H3 & H4).
    unfold line_ref. rewrite drop_while_app by done.
    set (x := quote +:+ r +:+ quote +:+ blank) in *. cbn [String.append drop_while re_space].
    change (cut_prefix _ "image:") with (Some (String " " x)).
    cbn beta iota. change (drop_while re_blank (String " " x)) with (drop_while re_blank x).
    rewrite H1, H2, H3, H4. rewrite !bool_decide_eq_true_2; try done.
    + by destruct Hr.
    + intros E. by apply (f_equal String.length) in E; simpl in E; lia.
  - unfold ExtractUniqueOCIRefs. rewrite merge_sort_Permutation. apply NoDup_remove_dups.
  - unfold ExtractUniqueOCIRefs. apply (Sorted_merge_sort String.le).
Qed.

Lemma transforms_fold c refs acc :
  NoDup (Original <$> acc) ->
  let res := fold_left (add_transform c) refs acc in
  NoDup (Original <$> res) /\ (forall t, t ∈ acc -> t ∈ res) /\
  (forall t, t ∈ res -> t ∈ acc \/ exists ref r, ref ∈ refs /\
     ResolveOCIRef (Some c) ref = Some r /\ t = transform_of r) /\
  (forall ref r, ref ∈ refs -> ResolveOCIRef (Some c) ref = Some r ->
     exists t, t ∈ res /\ Original t = Original (transform_of r)).
Proof.
  revert acc. induction refs as [|ref refs IH]; intros acc Hnd; simpl.
  { split_and!; [done|done|auto|]. intros ref r Hin. by apply not_elem_of_nil in Hin. }
  set (acc' := add_transform c acc ref).
  assert (NoDup (Original <$> acc') /\ (forall t, t ∈ acc -> t ∈ acc') /\
    (forall t, t ∈ acc' -> t ∈ acc \/ exists r, ResolveOCIRef (Some c) ref = Some r /\ t = transform_of r) /\
    (forall r, ResolveOCIRef (Some c) ref = Some r -> exists t, t ∈ acc' /\ Original t = Original (transform_of r)))
    as (Hnd' & Hkeep & Hnew & Hcov).
  { unfold acc', add_transform. destruct (ResolveOCIRef (Some c) ref) as [r|]; [|by split_and!; eauto].
    destruct (contains_func _ _) eqn:Hc.
    - apply contains_func_true in Hc as (t & Ht & Ho%bool_decide_eq_true).
      split_and!; eauto. intros r' [= <-]. eauto.
    - split_and!.
      + rewrite fmap_app. apply NoDup_app. split_and!; [done| |apply NoDup_singleton].
        intros x Hx Hx'. csimpl in Hx'. apply list_elem_of_singleton in Hx' as ->.
        apply list_elem_of_fmap in Hx as (t & Ho & Ht).
        assert (contains_func acc (fun t' => bool_decide (Original t' = Original (transform_of r))) = true);
          [|congruence].
        apply contains_func_true. exists t. split; [done|]. by apply bool_decide_eq_true.
      + set_solver.
      + intros t. rewrite elem_of_app, list_elem_of_singleton. naive_solver.
      + intros r' [= <-]. exists (transform_of r). split; [set_solver|done]. }
  destruct (IH acc' Hnd') as (H1 & H2 & H3 & H4). split_and!.
  - done.
  - auto.
  - intros t [?|(ref' & r & Hin & Hr & Ht)]%H3.
    + destruct (Hnew t) as [?|(r & ? & ?)]; [done|by left|]. right. exists ref, r. set_solver.
    + right. exists ref', r. set_solver.
  - intros ref' r [->|Hin]%elem_of_cons Hr; [|by eapply H4].
    destruct (Hcov r Hr) as (t & Ht & Ho). eauto.
Qed.

(** C9: the image rewrites.  Each upstream name is rewritten once; every rewrite
    comes from a reference of the manifests whose registry has a mirror, and
    points to that mirror with the repository unchanged; and every such
    reference has its upstream name rewritten. *)
Theorem BuildImageTransformations_spec c sets :
  NoDup (Original <$> BuildImageTransformations c sets) /\
  (forall t, t ∈ BuildImageTransformations c sets -> exists ref registry repo tag mirror,
     ref ∈ all_refs sets /\ SplitOCIRef ref = (registry, repo, tag) /\
     RegistryMirrors c !! registry = Some mirror /\
     Original t = registry +:+ "/" +:+ repo /\
     Mirrored t = BaseDomain mirror +:+ "/" +:+ SubPath mirror +:+ "/" +:+ repo) /\
  (forall ref registry repo tag mirror,
     ref ∈ all_refs sets -> SplitOCIRef ref = (registry, repo, tag) ->
     RegistryMirrors c !! registry = Some mirror ->
     exists t, t ∈ BuildImageTransformations c sets /\ Original t = registry +:+ "/" +:+ repo).
Proof.
  unfold BuildImageTransformations.
  destruct (transforms_fold c (all_refs sets) [] (NoDup_nil_2)) as (H1 & _ & H3 & H4).
  split_and!; [done| |].
  - intros t [Hin|(ref & r & Hin & Hr & ->)]%H3; [by apply not_elem_of_nil in Hin|].
    unfold ResolveOCIRef in Hr. destruct (SplitOCIRef ref) as [[registry repo] tag] eqn:Hs.
    destruct (RegistryMirrors c !! registry) as [mirror|] eqn:Hm; [|done]. simplify_eq.
    exists ref, registry, repo, tag, mirror. done.
  - intros ref registry repo tag mirror Hin Hs Hm.
    destruct (H4 ref (mk_resolved registry mirror repo tag)) as (t & Ht & Ho); [done| |eauto].
    unfold ResolveOCIRef. by rewrite Hs, Hm.
Qed.

(** What is fetched to replicate a reference, if anything. *)
Definition target_of (c : RegistryMirrorConfig) (ref : string) : option string :=
  if bool_decide (buildMirroredOCIRef c ref <> "") then Some (buildMirroredOCIRef c ref)
  else if bool_decide ((buildReplicationRef c ref).1 <> "") then Some (buildReplicationRef c ref).1
  else None.

Lemma buildReplicationRef_return c ref : (buildReplicationRef c ref).1 <> "" ->
  (buildReplicationRef c ref).2 = ref.
Proof.
  unfold buildReplicationRef. destruct (SplitOCIRef ref) as [[registry repo] tag].
  repeat case_match; done.
Qed.

Lemma EnsureImageReplicated_spec lr c ref h : ref <> "" ->
  wp (traced any_answer) (EnsureImageReplicated lr c ref) (fun h' r =>
    match target_of c ref with
    | None => h' = h /\ r = ("", Ok "")
    | Some t => exists ins ans, h' = h ++ [Call (FetchManifest t ins) ans] /\
        match ans with
        | Ok _ => r.1 <> "" /\ exists m, r.2 = Ok m
        | Err _ => exists e, r.2 = Err e
        end
    end) h.
Proof.
  intros Href. unfold EnsureImageReplicated, EnsureChartReplicated, target_of, triggerReplication.
  case_bool_decide as Hm.
  - do 3 wp_step. destruct Hx as [_ ->]. destruct x as [m|e]; do 2 wp_step; do 2 eexists; (split; [done|]); simpl; eauto.
  - destruct (buildReplicationRef c ref) as [target ret] eqn:Hb. cbn [fst].
    pose proof (buildReplicationRef_return c ref) as Hret. rewrite Hb in Hret. simpl in Hret.
    destruct (decide (target = "")) as [->|Ht].
    { rewrite bool_decide_eq_true_2 by done. rewrite bool_decide_eq_false_2 by naive_solver. by wp_step. }
    rewrite (bool_decide_eq_false_2 (target = "")) by done.
    rewrite bool_decide_eq_true_2 by done. rewrite Hret by done.
    do 3 wp_step. destruct Hx as [_ ->]. destruct x as [m|e]; do 2 wp_step; do 2 eexists; (split; [done|]); simpl; eauto.
Qed.

Lemma dedup_elem l r : r ∈ dedup l <-> r ∈ l.
Proof.
  unfold dedup.
  assert (forall acc, r ∈ fold_left (fun seen r => if slices_contains seen r then seen else seen ++ [r]) l acc
            <-> r ∈ acc \/ r ∈ l) as H; [|rewrite H; set_solver].
  induction l as [|x l IH]; intros acc; simpl; [set_solver|]. rewrite IH.
  destruct (slices_contains acc x) eqn:E; [apply slices_contains_true in E|]; set_solver.
Qed.
Lemma all_refs_not_empty sets r : r ∈ all_refs sets -> r <> "".
Proof.
  unfold all_refs. rewrite list_elem_of_bind. intros (m & Hr & _).
  apply ExtractUniqueOCIRefs_elem in Hr as (line & _ & Hl). by eapply line_ref_not_empty.
Qed.

(** Replication.  Only mirror references of images found in the manifests
    and not yet replicated are fetched; a reference is reported as replicated
    only if it was before or its fetch succeeded; and without errors every
    reference of the manifests that was replicated before or has a mirror
    reference is reported, in sorted order. *)
Theorem ReplicateOCIArtifacts_spec lr c already sets :
  wp (traced any_answer) (ReplicateOCIArtifacts lr c already sets) (fun h '(replicated, errs) =>
    (forall t ins ans, Call (FetchManifest t ins) ans ∈ h -> exists ref, ref ∈ all_refs sets /\
       ref ∉ already /\ target_of c ref = Some t) /\
    (forall ref, ref ∈ replicated -> ref ∈ all_refs sets /\
       (ref ∈ already \/ exists t ins m, target_of c ref = Some t /\
          Call (FetchManifest t ins) (Ok m) ∈ h)) /\
    (errs = [] -> forall ref, ref ∈ all_refs sets ->
       ref ∈ already \/ is_Some (target_of c ref) -> ref ∈ replicated) /\
    Sorted String.le replicated) [].
Proof.
  unfold ReplicateOCIArtifacts.
  assert (forall r, r ∈ dedup (all_refs sets) <-> r ∈ all_refs sets) as Hd by (intros; apply dedup_elem).
  case_bool_decide as Hempty.
  { wp_step. rewrite Hempty in Hd. split_and!; [set_solver|set_solver| |constructor].
    intros _ ref Hin. by apply Hd in Hin. }
  apply (wp_foreach_bind _ _ _ _ (fun l h '(replicated, errs) =>
    exists done_, dedup (all_refs sets) = done_ ++ l /\
    (forall t ins ans, Call (FetchManifest t ins) ans ∈ h -> exists ref, ref ∈ all_refs sets /\
       ref ∉ already /\ target_of c ref = Some t) /\
    (forall ref, ref ∈ replicated -> ref ∈ all_refs sets /\
       (ref ∈ already \/ exists t ins m, target_of c ref = Some t /\
          Call (FetchManifest t ins) (Ok m) ∈ h)) /\
    (errs = [] -> forall ref, ref ∈ done_ ->
       ref ∈ already \/ is_Some (target_of c ref) -> ref ∈ replicated))).
  - exists []. split_and!; [done|..]; set_solver.
  - intros h [replicated errs] (done_ & Heq & H1 & H2 & H3). wp_step. rewrite app_nil_r in Heq.
    split_and!; [done| | |apply (Sorted_merge_sort String.le)].
    + intros ref. rewrite merge_sort_Permutation. apply H2.
    + intros He ref Hin Hor. rewrite merge_sort_Permutation. apply H3; [done| |done].
      rewrite <-Heq. by apply Hd.
  - intros ref l h [replicated errs] (done_ & Heq & H1 & H2 & H3).
    assert (ref ∈ all_refs sets) as Hin by (apply Hd; rewrite Heq; set_solver).
    assert (ref <> "") as Hne by (by eapply all_refs_not_empty).
    assert (dedup (all_refs sets) = (done_ ++ [ref]) ++ l) as Heq' by (by rewrite <-app_assoc).
    destruct (slices_contains already ref) eqn:Hal.
    { apply slices_contains_true in Hal. wp_step. exists (done_ ++ [ref]).
      split_and!; [done|done|set_solver|set_solver]. }
    assert (ref ∉ already) as Hna by (rewrite <-slices_contains_true; congruence).
    wp_step. eapply wp_mono; [|by apply EnsureImageReplicated_spec].
    intros h' [rref ans] Hspec. destruct (target_of c ref) as [t|] eqn:Ht.
    + destruct Hspec as (ins & a & -> & Ha).
      assert (forall t' ins' ans', Call (FetchManifest t' ins') ans' ∈ h ++ [Call (FetchManifest t ins) a] ->
        exists ref, ref ∈ all_refs sets /\ ref ∉ already /\ target_of c ref = Some t') as H1'.
      { intros t' ins' ans' [?|Hc%list_elem_of_singleton]%elem_of_app; [by eapply H1|].
        injection Hc as -> _ _. eauto. }
      assert (forall ref0, ref0 ∈ replicated -> ref0 ∈ all_refs sets /\
        (ref0 ∈ already \/ exists t0 ins0 m, target_of c ref0 = Some t0 /\
          Call (FetchManifest t0 ins0) (Ok m) ∈ h ++ [Call (FetchManifest t ins) a])) as H2'.
      { intros ref0 [? [?|(t0 & ins0 & m & ? & ?)]]%H2; [by auto|]. split; [done|right].
        exists t0, ins0, m. set_solver. }
      destruct a as [m|e]; simpl in Ha.
      * destruct Ha as [Hr (m' & ->)]. simpl in Hr.
        rewrite bool_decide_eq_false_2 by done. wp_step. exists (done_ ++ [ref]).
        split_and!; [done|done| |set_solver].
        intros ref0 [?| ->%list_elem_of_singleton]%elem_of_app; [by apply H2'|].
        split; [done|right]. exists t, ins, m. split; [done|]. set_solver.
      * destruct Ha as (e' & ->). wp_step. exists (done_ ++ [ref]).
        split_and!; [done|done|done|]. intros Herr. by destruct errs.
    + destruct Hspec as [-> [= -> ->]]. rewrite bool_decide_eq_true_2 by done. wp_step.
      exists (done_ ++ [ref]). split_and!; [done|done|done|].
      intros Herr ref0 [?| ->%list_elem_of_singleton]%elem_of_app; [by apply H3|].
      rewrite Ht. intros [?|[? [=]]]. done.
Qed.

(** An accepted configuration is complete, whatever the order in which the
    map is checked, and an incomplete one is rejected: a primary mirror, at
    least one registry, and for each a name, a base domain and a sub-path. *)
Theorem validateRegistryMirrorConfig_spec order c :
  order ≡ₚ map_to_list (RegistryMirrors c) ->
  validateRegistryMirrorConfig order c = None <->
  PrimaryMirror c <> "" /\ RegistryMirrors c <> ∅ /\
  forall r m, RegistryMirrors c !! r = Some m -> r <> "" /\ BaseDomain m <> "" /\ SubPath m <> "".
Proof.
  intros Hord. unfold validateRegistryMirrorConfig.
  case_bool_decide; [naive_solver|]. case_bool_decide; [naive_solver|].
  assert (forall l, first_some (fun '(r, m) => validate_mirror r m) l = None <->
            forall r m, (r, m) ∈ l -> validate_mirror r m = None) as Hfs.
  { induction l as [|[r m] l IH]; simpl; [set_solver|].
    destruct (validate_mirror r m) as [e|] eqn:Hv.
    - split; [done|]. intros H'. rewrite <-(H' r m); [done|set_solver].
    - unfold first_some in IH. rewrite IH. setoid_rewrite elem_of_cons. naive_solver. }
  rewrite Hfs. setoid_rewrite Hord. setoid_rewrite elem_of_map_to_list.
  assert (forall r m, validate_mirror r m = None <-> r <> "" /\ BaseDomain m <> "" /\ SubPath m <> "") as Hm.
  { intros r m. unfold validate_mirror. repeat case_bool_decide; naive_solver. }
  setoid_rewrite Hm. naive_solver.
Qed.
End properties.

(** ** Instances *)
Module MirrorRun.
Definition manifest : string := "  - image: ghcr.io/app" +:+ String newline "".
Lemma image_lines_extracted_witness : "ghcr.io/app" ∈ ExtractUniqueOCIRefs manifest.
Proof.
  apply (image_lines_extracted manifest "  - " "ghcr.io/app" "" "").
  - repeat constructor.
  - split; [discriminate|repeat constructor].
  - left. reflexivity.
  - constructor.
  - apply list_elem_of_here.
Defined.

Definition config : RegistryMirrorConfig :=
  mk_mirror_config "mirror.example" {["ghcr.io" := mk_mirror "mirror.example" "ghcr"]} "".
Lemma validateRegistryMirrorConfig_spec_witness :
  validateRegistryMirrorConfig (map_to_list (RegistryMirrors config)) config = None.
Proof.
  apply (validateRegistryMirrorConfig_spec (map_to_list (RegistryMirrors config)) config).
  - reflexivity.
  - split; [discriminate|]. split; [discriminate|]. intros r m H. unfold config in H. cbn in H.
    apply lookup_singleton_Some in H as [<- <-]. split; [discriminate|]. split; discriminate.
Defined.
End MirrorRun.
