(* ===== verification/PluginTypes.v ===== *)
(** * PluginTypes: [Plugin] and [PluginPreset] ([api/v1alpha1])

    The two resources with the methods of their Go types and their instances of
    [Object] and [RuntimeObject].  A JSON value is its raw text, a label selector
    its serialised form, a timestamp an integer; a nil pointer is [None]. *)
From S2P Require Import Prelude Conditions Meta.

Record PluginDefinitionReference := mk_pdr { pdr_Name : string; pdr_Kind : string }.
#[export] Instance PluginDefinitionReference_eq_dec : EqDecision PluginDefinitionReference.
Proof. solve_decision. Defined.
Record HelmChartReference := mk_hcr {
  hcr_Name : string; hcr_Repository : string; hcr_Version : string }.
#[export] Instance HelmChartReference_eq_dec : EqDecision HelmChartReference.
Proof. solve_decision. Defined.
Definition HelmChartReference_String (h : HelmChartReference) : string :=
  hcr_Repository h +:+ "/" +:+ hcr_Name h +:+ ":" +:+ hcr_Version h.
Record SecretKeyReference := mk_skr { skr_Name : string; skr_Key : string }.
#[export] Instance SecretKeyReference_eq_dec : EqDecision SecretKeyReference.
Proof. solve_decision. Defined.
Record UIApplicationReference := mk_uar {
  uar_URL : string; uar_Name : string; uar_Version : string }.
#[export] Instance UIApplicationReference_eq_dec : EqDecision UIApplicationReference.
Proof. solve_decision. Defined.
Record PluginRef := mk_plugin_ref { pr_Name : string; pr_PluginPreset : string }.
#[export] Instance PluginRef_eq_dec : EqDecision PluginRef.
Proof. solve_decision. Defined.
Record WaitForItem := mk_wait_for { wf_PluginRef : PluginRef }.
#[export] Instance WaitForItem_eq_dec : EqDecision WaitForItem.
Proof. solve_decision. Defined.

(** ** Option values *)
Record ExternalValueSource := mk_evs {
  evs_Kind : string;
  evs_Name : string;
  evs_Selector : option string;   (* pointer to metav1.LabelSelector *)
  evs_Expression : string
}.
#[export] Instance ExternalValueSource_eq_dec : EqDecision ExternalValueSource.
Proof. solve_decision. Defined.
Record PluginValueFromSource := mk_vfs {
  vf_Secret : option SecretKeyReference; vf_Ref : option ExternalValueSource }.
#[export] Instance PluginValueFromSource_eq_dec : EqDecision PluginValueFromSource.
Proof. solve_decision. Defined.
Record PluginOptionValue := mk_ov {
  ov_Name : string;
  ov_Value : option string;       (* pointer to apiextensionsv1.JSON *)
  ov_ValueFrom : option PluginValueFromSource;
  ov_Expression : option string
}.
#[export] Instance PluginOptionValue_eq_dec : EqDecision PluginOptionValue.
Proof. solve_decision. Defined.
Definition ValueJSON (v : PluginOptionValue) : string := default "" (ov_Value v).

(** the values of a PluginPreset, of types of their own *)
Record PluginPresetPluginValueFromSource := mk_pvfs {
  pvf_Secret : option SecretKeyReference; pvf_Ref : option ExternalValueSource }.
#[export] Instance PluginPresetPluginValueFromSource_eq_dec :
  EqDecision PluginPresetPluginValueFromSource.
Proof. solve_decision. Defined.
Record PluginPresetPluginOptionValue := mk_pov {
  pov_Name : string;
  pov_Value : option string;
  pov_ValueFrom : option PluginPresetPluginValueFromSource;
  pov_Expression : option string
}.
#[export] Instance PluginPresetPluginOptionValue_eq_dec : EqDecision PluginPresetPluginOptionValue.
Proof. solve_decision. Defined.

(** [util.ConvertToPluginOptionValues] and back ([internal/util/plugin.go]):
    of the value sources only the secret is kept, and expressions are dropped. *)
Definition ConvertToPluginOptionValues (presetValues : list PluginPresetPluginOptionValue) :
    list PluginOptionValue :=
  (fun pv => mk_ov (pov_Name pv) (pov_Value pv)
               ((fun vf => mk_vfs (pvf_Secret vf) None) <$> pov_ValueFrom pv) None) <$> presetValues.
Definition ConvertToPresetOptionValues (values : list PluginOptionValue) :
    list PluginPresetPluginOptionValue :=
  (fun v => mk_pov (ov_Name v) (ov_Value v)
              ((fun vf => mk_pvfs (vf_Secret vf) None) <$> ov_ValueFrom v) None) <$> values.

Record IgnoreDifference := mk_ignore {
  id_Group : string; id_Version : string; id_Kind : string; id_Name : string;
  id_Paths : list string }.
#[export] Instance IgnoreDifference_eq_dec : EqDecision IgnoreDifference.
Proof. solve_decision. Defined.

(** ** Plugin *)
Record PluginSpec := mk_plugin_spec {
  PluginDefinitionRef : PluginDefinitionReference;
  DisplayName : string;
  OptionValues : list PluginOptionValue;
  plugin_ClusterName : string;
  ReleaseNamespace : string;
  ReleaseName : string;
  plugin_DeletionPolicy : string;
  plugin_WaitFor : list WaitForItem;
  IgnoreDifferences : list IgnoreDifference
}.
#[export] Instance PluginSpec_eq_dec : EqDecision PluginSpec.
Proof. solve_decision. Defined.
Definition empty_plugin_spec : PluginSpec := mk_plugin_spec (mk_pdr "" "") "" [] "" "" "" "" [] [].

Definition ServiceTypeService : string := "service".
Definition ServiceTypeIngress : string := "ingress".
Record Service := mk_service {
  svc_Namespace : string; svc_Name : string; svc_Port : Z;
  svc_Protocol : option string; svc_Type : string }.
#[export] Instance Service_eq_dec : EqDecision Service.
Proof. solve_decision. Defined.
Record HelmReleaseStatus := mk_hrs {
  hrs_Status : string; FirstDeployed : Z; LastDeployed : Z;
  PluginOptionChecksum : string; hrs_Diff : string }.
#[export] Instance HelmReleaseStatus_eq_dec : EqDecision HelmReleaseStatus.
Proof. solve_decision. Defined.
Record PluginStatus := mk_plugin_status {
  plugin_HelmReleaseStatus : option HelmReleaseStatus;
  plugin_Version : string;
  plugin_HelmChart : option HelmChartReference;
  UIApplication : option UIApplicationReference;
  Weight : option Z;
  plugin_Description : string;
  ExposedServices : gmap string Service;
  plugin_conditions : StatusConditions;
  LastReconciledAt : string;
  TrackedObjects : list string;
  ImageReplication : list string
}.
#[export] Instance PluginStatus_eq_dec : EqDecision PluginStatus.
Proof. solve_decision. Defined.
Definition empty_plugin_status : PluginStatus :=
  mk_plugin_status None "" None None None "" ∅ [] "" [] [].
Record Plugin := mk_plugin {
  plugin_meta : ObjectMeta; plugin_Spec : PluginSpec; plugin_Status : PluginStatus }.
#[export] Instance Plugin_eq_dec : EqDecision Plugin.
Proof. solve_decision. Defined.
#[export] Instance Plugin_object : Object Plugin := {|
  get_meta := plugin_meta;
  set_meta m o := mk_plugin m (plugin_Spec o) (plugin_Status o) |}.
#[export] Instance Plugin_object_laws : ObjectLaws Plugin.
Proof. by split; intros; repeat match goal with o : Plugin |- _ => destruct o end. Qed.

Definition plugin_set_status (s : PluginStatus) (p : Plugin) : Plugin :=
  mk_plugin (plugin_meta p) (plugin_Spec p) s.
Definition plugin_set_conditions (sc : StatusConditions) (p : Plugin) : Plugin :=
  let s := plugin_Status p in
  plugin_set_status (mk_plugin_status (plugin_HelmReleaseStatus s) (plugin_Version s)
    (plugin_HelmChart s) (UIApplication s) (Weight s) (plugin_Description s)
    (ExposedServices s) sc (LastReconciledAt s) (TrackedObjects s) (ImageReplication s)) p.
Definition plugin_set_last_reconciled (v : string) (p : Plugin) : Plugin :=
  let s := plugin_Status p in
  plugin_set_status (mk_plugin_status (plugin_HelmReleaseStatus s) (plugin_Version s)
    (plugin_HelmChart s) (UIApplication s) (Weight s) (plugin_Description s)
    (ExposedServices s) (plugin_conditions s) v (TrackedObjects s) (ImageReplication s)) p.
#[export] Instance Plugin_runtime : RuntimeObject Plugin := {|
  GetConditions o := plugin_conditions (plugin_Status o);
  SetCondition now c o :=
    plugin_set_conditions (SetConditions now (plugin_conditions (plugin_Status o)) [c]) o;
  RemoveCondition t o :=
    plugin_set_conditions (remove_condition t (plugin_conditions (plugin_Status o))) o;
  CanBeSuspended _ := true;
  UpdateLastReconciledAtStatus := Some plugin_set_last_reconciled |}.
#[export] Instance Plugin_runtime_laws : RuntimeObjectLaws Plugin.
Proof. split; try done; by intros f v o [= <-]. Qed.

(** [Plugin.GetReleaseName] *)
Definition GetReleaseName (p : Plugin) : string :=
  if bool_decide (ReleaseName (plugin_Spec p) <> "") then ReleaseName (plugin_Spec p)
  else GetName p.

(** ** PluginPreset *)
Record PluginPresetPluginSpec := mk_preset_plugin_spec {
  pps_PluginDefinitionRef : PluginDefinitionReference;
  pps_DisplayName : string;
  pps_OptionValues : list PluginPresetPluginOptionValue;
  pps_ReleaseNamespace : string;
  pps_ReleaseName : string;
  pps_DeletionPolicy : string;
  pps_IgnoreDifferences : list IgnoreDifference
}.
#[export] Instance PluginPresetPluginSpec_eq_dec : EqDecision PluginPresetPluginSpec.
Proof. solve_decision. Defined.
Record ClusterOptionOverride := mk_coo {
  coo_ClusterName : string; Overrides : list PluginPresetPluginOptionValue }.
#[export] Instance ClusterOptionOverride_eq_dec : EqDecision ClusterOptionOverride.
Proof. solve_decision. Defined.
Record PluginPresetSpec := mk_preset_spec {
  preset_Plugin : PluginPresetPluginSpec;
  preset_ClusterSelector : string;   (* metav1.LabelSelector *)
  ClusterOptionOverrides : list ClusterOptionOverride;
  preset_WaitFor : list WaitForItem;
  preset_DeletionPolicy : string
}.
#[export] Instance PluginPresetSpec_eq_dec : EqDecision PluginPresetSpec.
Proof. solve_decision. Defined.
Record ManagedPluginStatus := mk_mps { mps_PluginName : string; mps_ReadyCondition : Condition }.
#[export] Instance ManagedPluginStatus_eq_dec : EqDecision ManagedPluginStatus.
Proof. solve_decision. Defined.
Record PluginPresetStatus := mk_preset_status {
  preset_conditions : StatusConditions;
  PluginStatuses : list ManagedPluginStatus;
  TotalPlugins : nat;
  ReadyPlugins : nat;
  FailedPlugins : nat;
  PluginDefinitionVersion : string
}.
#[export] Instance PluginPresetStatus_eq_dec : EqDecision PluginPresetStatus.
Proof. solve_decision. Defined.
Record PluginPreset := mk_preset {
  preset_meta : ObjectMeta; preset_Spec : PluginPresetSpec; preset_Status : PluginPresetStatus }.
#[export] Instance PluginPreset_eq_dec : EqDecision PluginPreset.
Proof. solve_decision. Defined.
#[export] Instance PluginPreset_object : Object PluginPreset := {|
  get_meta := preset_meta;
  set_meta m o := mk_preset m (preset_Spec o) (preset_Status o) |}.
#[export] Instance PluginPreset_object_laws : ObjectLaws PluginPreset.
Proof. by split; intros; repeat match goal with o : PluginPreset |- _ => destruct o end. Qed.

Definition preset_set_status (s : PluginPresetStatus) (p : PluginPreset) : PluginPreset :=
  mk_preset (preset_meta p) (preset_Spec p) s.
Definition preset_set_conditions (sc : StatusConditions) (p : PluginPreset) : PluginPreset :=
  let s := preset_Status p in
  preset_set_status (mk_preset_status sc (PluginStatuses s) (TotalPlugins s) (ReadyPlugins s)
    (FailedPlugins s) (PluginDefinitionVersion s)) p.
#[export] Instance PluginPreset_runtime : RuntimeObject PluginPreset := {|
  GetConditions o := preset_conditions (preset_Status o);
  SetCondition now c o :=
    preset_set_conditions (SetConditions now (preset_conditions (preset_Status o)) [c]) o;
  RemoveCondition t o :=
    preset_set_conditions (remove_condition t (preset_conditions (preset_Status o))) o;
  CanBeSuspended _ := false;
  UpdateLastReconciledAtStatus := None |}.
#[export] Instance PluginPreset_runtime_laws : RuntimeObjectLaws PluginPreset.
Proof. by split. Qed.

(** ** Conditions and reasons *)
Definition PluginReconcileFailed : string := "PluginReconcileFailed".
Definition PluginDefinitionNotFound : string := "PluginDefinitionNotFound".
Definition PluginSkippedCondition : string := "PluginSkipped".
Definition PluginFailedCondition : string := "PluginFailed".
Definition AllPluginsReadyCondition : string := "AllPluginsReady".
Definition PluginDefinitionNotFoundCondition : string := "PluginDefinitionNotFound".

Lemma ConvertToPluginOptionValues_names l :
  ov_Name <$> ConvertToPluginOptionValues l = pov_Name <$> l.
Proof. unfold ConvertToPluginOptionValues. rewrite <-list_fmap_compose. done. Qed.
