(* ===== verification/PluginDefinitions.v ===== *)
(** * PluginDefinitions: [PluginDefinition], [ClusterPluginDefinition] and their lookup

    The two kinds of plugin definition ([api/v1alpha1]) share their spec; what a
    Plugin references is resolved by [internal/common/plugindefinition.go]. *)
From S2P Require Import Prelude Effects Conditions Meta PluginTypes ClientUtil.

Definition PluginDefinitionKind : string := "PluginDefinition".
Definition ClusterPluginDefinitionKind : string := "ClusterPluginDefinition".

(** [PluginOptionType] *)
Definition PluginOptionTypeString : string := "string".
Definition PluginOptionTypeSecret : string := "secret".
Definition PluginOptionTypeBool : string := "bool".
Definition PluginOptionTypeInt : string := "int".
Definition PluginOptionTypeList : string := "list".
Definition PluginOptionTypeMap : string := "map".
Record PluginOption := mk_option {
  opt_Name : string;
  opt_Default : option string;    (* pointer to apiextensionsv1.JSON *)
  opt_Description : string;
  opt_DisplayName : string;
  opt_Required : bool;
  opt_Type : string;
  opt_Regex : string
}.
#[export] Instance PluginOption_eq_dec : EqDecision PluginOption.
Proof. solve_decision. Defined.
Record PluginDefinitionSpec := mk_pd_spec {
  pd_DisplayName : string;
  pd_Description : string;
  pd_HelmChart : option HelmChartReference;
  pd_UIApplication : option UIApplicationReference;
  pd_Options : list PluginOption;
  pd_Version : string;
  pd_Weight : option Z;
  pd_Icon : string;
  pd_DocsURL : string;
  pd_DocMarkDownUrl : string
}.
#[export] Instance PluginDefinitionSpec_eq_dec : EqDecision PluginDefinitionSpec.
Proof. solve_decision. Defined.
Record LastSyncedArtifact := mk_artifact {
  la_Registry : string; la_ChartName : string; la_Version : string; la_Digest : string;
  la_ReplicationStatus : string }.
#[export] Instance LastSyncedArtifact_eq_dec : EqDecision LastSyncedArtifact.
Proof. solve_decision. Defined.

(** Both kinds have a status of the same two fields. *)
Record PluginDefinitionStatus := mk_pd_status {
  pd_conditions : StatusConditions; pd_LastSyncedArtifact : option LastSyncedArtifact }.
#[export] Instance PluginDefinitionStatus_eq_dec : EqDecision PluginDefinitionStatus.
Proof. solve_decision. Defined.
Record PluginDefinition := mk_pd {
  pd_meta : ObjectMeta; pd_Spec : PluginDefinitionSpec; pd_Status : PluginDefinitionStatus }.
#[export] Instance PluginDefinition_eq_dec : EqDecision PluginDefinition.
Proof. solve_decision. Defined.
Record ClusterPluginDefinition := mk_cpd {
  cpd_meta : ObjectMeta; cpd_Spec : PluginDefinitionSpec; cpd_Status : PluginDefinitionStatus }.
#[export] Instance ClusterPluginDefinition_eq_dec : EqDecision ClusterPluginDefinition.
Proof. solve_decision. Defined.
#[export] Instance PluginDefinition_object : Object PluginDefinition := {|
  get_meta := pd_meta; set_meta m o := mk_pd m (pd_Spec o) (pd_Status o) |}.
#[export] Instance ClusterPluginDefinition_object : Object ClusterPluginDefinition := {|
  get_meta := cpd_meta; set_meta m o := mk_cpd m (cpd_Spec o) (cpd_Status o) |}.

(** [common.GenericPluginDefinition]: either of the two, with the methods the
    code calls on it. *)
Inductive GenericPluginDefinition :=
| GenPluginDefinition (pd : PluginDefinition)
| GenClusterPluginDefinition (cpd : ClusterPluginDefinition).
Definition gen_meta (d : GenericPluginDefinition) : ObjectMeta :=
  match d with GenPluginDefinition pd => pd_meta pd | GenClusterPluginDefinition cpd => cpd_meta cpd end.
Definition gen_conditions (d : GenericPluginDefinition) : StatusConditions :=
  match d with
  | GenPluginDefinition pd => pd_conditions (pd_Status pd)
  | GenClusterPluginDefinition cpd => pd_conditions (cpd_Status cpd)
  end.
Definition gen_GetPluginDefinitionSpec (d : GenericPluginDefinition) : PluginDefinitionSpec :=
  match d with GenPluginDefinition pd => pd_Spec pd | GenClusterPluginDefinition cpd => cpd_Spec cpd end.
Definition gen_FluxHelmChartResourceName (d : GenericPluginDefinition) : string :=
  match pd_HelmChart (gen_GetPluginDefinitionSpec d) with
  | None => ""
  | Some chart => om_name (gen_meta d) +:+ "-" +:+ hcr_Version chart
  end.

(** ** Lookup *)
Inductive definitionE : Type -> Type :=
| GetPluginDefinition (k : objkey) : definitionE (result PluginDefinition)
| GetClusterPluginDefinition (k : objkey) : definitionE (result ClusterPluginDefinition).

(** The two lookups differ in the text of their errors and in the check for
    readiness. *)
Definition GetPluginDefinitionSpec (ref : PluginDefinitionReference) (resourceNamespace : string) :
    prog definitionE (result PluginDefinitionSpec) :=
  let name := pdr_Name ref in
  if bool_decide (pdr_Kind ref = PluginDefinitionKind) then
    r ← trigger (GetPluginDefinition (mk_key resourceNamespace name));
    mret match r with
    | Err e =>
        if is_not_found (Some e) then
          Err (new_error ("PluginDefinition " +:+ name +:+ " does not exist in namespace " +:+
                          resourceNamespace))
        else Err (new_error ("failed to get PluginDefinition " +:+ name +:+ " from namespace " +:+
                             resourceNamespace +:+ ": " +:+ err_msg e))
    | Ok pd => Ok (pd_Spec pd)
    end
  else if bool_decide (pdr_Kind ref = ClusterPluginDefinitionKind) then
    r ← trigger (GetClusterPluginDefinition (mk_key "" name));
    mret match r with
    | Err e =>
        if is_not_found (Some e) then
          Err (new_error ("ClusterPluginDefinition " +:+ name +:+ " does not exist"))
        else Err (new_error ("failed to get ClusterPluginDefinition " +:+ name +:+ ": " +:+ err_msg e))
    | Ok cpd => Ok (cpd_Spec cpd)
    end
  else if bool_decide (pdr_Kind ref = "") then
    mret (Err (new_error "PluginDefinitionRef.Kind has not been set"))
  else mret (Err (new_error ("unsupported PluginDefinition kind: " +:+ pdr_Kind ref))).

Definition isPluginDefinitionReady (d : GenericPluginDefinition) : option error :=
  let what := "PluginDefinition " +:+ om_namespace (gen_meta d) +:+ "/" +:+ om_name (gen_meta d) in
  match GetConditionByType (gen_conditions d) ReadyCondition with
  | None => Some (new_error (what +:+ " is not Ready"))
  | Some readyCond =>
      if negb (bool_decide (CondStatus readyCond = ConditionTrue)) then
        Some (new_error (what +:+ " is not Ready: " +:+ CondMessage readyCond))
      else None
  end.
Definition ready_or_error (d : GenericPluginDefinition) : result GenericPluginDefinition :=
  match isPluginDefinitionReady d with Some e => Err e | None => Ok d end.

Definition GetPluginDefinitionFromPlugin (ref : PluginDefinitionReference)
    (resourceNamespace : string) : prog definitionE (result GenericPluginDefinition) :=
  let name := pdr_Name ref in
  let what := resourceNamespace +:+ "/" +:+ name in
  if bool_decide (pdr_Kind ref = PluginDefinitionKind) then
    r ← trigger (GetPluginDefinition (mk_key resourceNamespace name));
    mret match r with
    | Err e =>
        if is_not_found (Some e) then Err (new_error ("PluginDefinition " +:+ what +:+ " does not exist"))
        else Err (new_error ("failed to get PluginDefinition " +:+ what +:+ ": " +:+ err_msg e))
    | Ok pd => ready_or_error (GenPluginDefinition pd)
    end
  else if bool_decide (pdr_Kind ref = ClusterPluginDefinitionKind) then
    r ← trigger (GetClusterPluginDefinition (mk_key "" name));
    mret match r with
    | Err e =>
        if is_not_found (Some e) then
          Err (new_error ("ClusterPluginDefinition " +:+ what +:+ " does not exist"))
        else Err (new_error ("failed to get ClusterPluginDefinition " +:+ what +:+ ": " +:+ err_msg e))
    | Ok cpd => ready_or_error (GenClusterPluginDefinition cpd)
    end
  else if bool_decide (pdr_Kind ref = "") then
    mret (Err (new_error "PluginDefinitionRef.Kind has not been set"))
  else mret (Err (new_error ("unsupported PluginDefinition kind: " +:+ pdr_Kind ref))).
