(* ===== verification/OptionTypes.v ===== *)
(** * OptionTypes: the types of plugin options ([api/v1alpha1/plugindefinition_types.go])

    An option of a plugin definition has a type; its default and the values Plugins
    give to it are JSON documents.  [IsValid] checks a default by decoding it into the
    Go type, [IsValidValue] checks a value by the dynamic type of what it decodes to.
    Parsing JSON and reading a floating point literal are the parameters of
    [JsonDecoder]; what [encoding/json] makes of a document for each target type is
    written out. *)
From S2P Require Import Prelude Meta PluginTypes PluginDefinitions.
From Stdlib Require Import Ascii ZArith.

#[local] Set Warnings "-register-all".
(** A JSON document; a number is kept as its literal. *)
Inductive json :=
| JNull
| JBool (b : bool)
| JNumber (literal : string)
| JString (s : string)
| JList (l : list json)
| JMap (m : list (string * json)).
Class JsonDecoder := {
  json_Parse : string -> result json;
  (** [strconv.ParseFloat] accepts the literal *)
  float64_literal : string -> bool
}.

(** ** Integers: [strconv.ParseInt(literal, 10, 64)] *)
Definition digit (a : ascii) : option Z :=
  let n := nat_of_ascii a in
  if (48 <=? n)%nat && (n <=? 57)%nat then Some (Z.of_nat (n - 48)) else None.
Fixpoint parse_digits (acc : Z) (s : string) : option Z :=
  match s with
  | EmptyString => Some acc
  | String a s => d ← digit a; parse_digits (10 * acc + d) s
  end.
Definition int64_min : Z := - 2 ^ 63.
Definition int64_max : Z := 2 ^ 63 - 1.
Definition ParseInt (literal : string) : option Z :=
  z ← match literal with
      | EmptyString => None
      | String a s =>
          if Ascii.eqb a "-"%char then if bool_decide (s = "") then None else Z.opp <$> parse_digits 0 s
          else parse_digits 0 literal
      end;
  if (int64_min <=? z)%Z && (z <=? int64_max)%Z then Some z else None.

Section options.
Context {Json : JsonDecoder}.

Definition type_error (target : string) : error := new_error ("json: cannot unmarshal into Go value of type " +:+ target).
(** Decoding into an interface: every number of the document must fit a [float64]. *)
Fixpoint decodes_any (j : json) : bool :=
  match j with
  | JNumber l => float64_literal l
  | JList l => forallb decodes_any l
  | JMap m => forallb (fun p => decodes_any p.2) m
  | _ => true
  end.
(** [json.Unmarshal] into a variable of the type; null leaves it as it is. *)
Definition Unmarshal_bool (j : json) : result bool :=
  match j with JBool b => Ok b | JNull => Ok false | _ => Err (type_error "bool") end.
Definition Unmarshal_int (j : json) : result Z :=
  match j with
  | JNumber l => match ParseInt l with Some z => Ok z | None => Err (type_error "int") end
  | JNull => Ok 0%Z
  | _ => Err (type_error "int")
  end.
Definition Unmarshal_string (j : json) : result string :=
  match j with JString s => Ok s | JNull => Ok "" | _ => Err (type_error "string") end.
Definition Unmarshal_list (j : json) : result (list json) :=
  match j with
  | JList l => if forallb decodes_any l then Ok l else Err (type_error "float64")
  | JNull => Ok []
  | _ => Err (type_error "[]interface {}")
  end.
Definition Unmarshal_map (j : json) : result (list (string * json)) :=
  match j with
  | JMap m => if forallb (fun p => decodes_any p.2) m then Ok m else Err (type_error "float64")
  | JNull => Ok []
  | _ => Err (type_error "map[string]interface {}")
  end.
Definition Unmarshal_any (j : json) : result json :=
  if decodes_any j then Ok j else Err (type_error "float64").

Definition err_of {A} (r : result A) : option error := match r with Ok _ => None | Err e => Some e end.
(** [json.Unmarshal(raw, &v)] *)
Definition decode {A} (into : json -> result A) (raw : string) : result A :=
  match json_Parse raw with Err e => Err e | Ok j => into j end.

(** [PluginOption.IsValid] *)
Definition IsValid (p : PluginOption) : option error :=
  match opt_Default p with
  | None => None
  | Some raw =>
      let t := opt_Type p in
      if bool_decide (t = PluginOptionTypeBool) then err_of (decode Unmarshal_bool raw)
      else if bool_decide (t = PluginOptionTypeInt) then err_of (decode Unmarshal_int raw)
      else if bool_decide (t = PluginOptionTypeString) then err_of (decode Unmarshal_string raw)
      else if bool_decide (t = PluginOptionTypeList) then err_of (decode Unmarshal_list raw)
      else if bool_decide (t = PluginOptionTypeMap) then err_of (decode Unmarshal_map raw)
      else if bool_decide (t = PluginOptionTypeSecret) then
        match decode Unmarshal_string raw with
        | Err e => Some e
        | Ok s =>
            if negb (bool_decide (s = ""))
            then Some (new_error ("option " +:+ opt_Name p +:+ " is a secret value, no default is allowed"))
            else None
        end
      else Some (new_error ("unknown type " +:+ t))
  end.

(** The Go type [%T] prints. *)
Definition go_type (j : json) : string :=
  match j with
  | JNull => "<nil>" | JBool _ => "bool" | JNumber _ => "float64" | JString _ => "string"
  | JList _ => "[]interface {}" | JMap _ => "map[string]interface {}"
  end.
(** [PluginOption.IsValidValue] *)
Definition IsValidValue (p : PluginOption) (raw : string) : option error :=
  match decode Unmarshal_any raw with
  | Err e => Some e
  | Ok actVal =>
      let t := opt_Type p in
      let mismatch what :=
        Some (new_error ("option " +:+ opt_Name p +:+ " " +:+ what +:+ ", got " +:+ go_type actVal)) in
      if bool_decide (t = PluginOptionTypeBool) then
        match actVal with JBool _ => None | _ => mismatch "is a bool value" end
      else if bool_decide (t = PluginOptionTypeInt) then
        match actVal with JNumber _ => None | _ => mismatch "is an int value" end
      else if bool_decide (t = PluginOptionTypeString) then
        match actVal with JString _ => None | _ => mismatch "is a string value" end
      else if bool_decide (t = PluginOptionTypeList) then
        match actVal with JList _ => None | _ => mismatch "is a list value" end
      else if bool_decide (t = PluginOptionTypeMap) then
        match actVal with JMap _ => None | _ => mismatch "is a map value" end
      else if bool_decide (t = PluginOptionTypeSecret) then
        Some (new_error ("option " +:+ opt_Name p +:+
                         " is a secret value, that should be derived from a secret reference"))
      else mismatch "has unknown type"
  end.

(** [PluginOption.DefaultValue]; [None] is the nil receiver.  A missing default is
    dereferenced, a map has no case. *)
Definition DefaultValue (p : option PluginOption) : outcome (result (option json)) :=
  match p with
  | None => Returns (Ok None)
  | Some p =>
      let t := opt_Type p in
      let with_default {A} (into : json -> result A) (value : A -> json) :=
        match opt_Default p with
        | None => Panics
        | Some raw => Returns (match decode into raw with Err e => Err e | Ok v => Ok (Some (value v)) end)
        end in
      if bool_decide (t = PluginOptionTypeBool) then with_default Unmarshal_bool JBool
      else if bool_decide (t = PluginOptionTypeInt) then
        with_default Unmarshal_int (fun z => JNumber (pretty.pretty z))
      else if bool_decide (t = PluginOptionTypeSecret) || bool_decide (t = PluginOptionTypeString) then
        with_default Unmarshal_string JString
      else if bool_decide (t = PluginOptionTypeList) then with_default Unmarshal_list JList
      else Returns (Err (new_error ("unknown type " +:+ t)))
  end.
End options.

(** ** Numbers *)
Lemma parse_pretty_go (x : N) s :
  parse_digits 0 (pretty.pretty_N_go x s) = parse_digits (Z.of_N x) s.
Proof.
  revert s. induction (N.lt_wf_0 x) as [x _ IH]. intros s.
  destruct (decide (x = 0)%N) as [->|Hx]; [done|].
  rewrite pretty.pretty_N_go_step by lia. rewrite IH by (apply N.div_lt; lia).
  cbn [parse_digits].
  assert (digit (pretty.pretty_N_char (x `mod` 10)) = Some (Z.of_N (x `mod` 10))) as ->.
  { assert (x `mod` 10 < 10)%N as Hm by (apply N.mod_lt; lia).
    revert Hm. generalize (x `mod` 10)%N. intros m Hm.
    assert (m = 0 \/ m = 1 \/ m = 2 \/ m = 3 \/ m = 4 \/ m = 5 \/ m = 6 \/ m = 7 \/ m = 8 \/ m = 9)%N
      by lia. naive_solver. }
  cbn [mbind option_bind]. f_equal. pose proof (N.div_mod x 10 ltac:(lia)) as Hd. lia.
Qed.
Lemma parse_pretty_N (x : N) : parse_digits 0 (pretty.pretty x) = Some (Z.of_N x).
Proof.
  unfold pretty.pretty, pretty.pretty_N. destruct (decide (x = 0)%N) as [->|]; [done|].
  by rewrite parse_pretty_go.
Qed.
Lemma pretty_N_no_dash (x : N) s : pretty.pretty x <> "-" +:+ s.
Proof.
  unfold pretty.pretty, pretty.pretty_N. destruct (decide (x = 0)%N) as [->|]; [done|].
  by apply pretty.pretty_N_go_ne_dash.
Qed.
(** A literal is read back to the number it was printed from, within the bounds of a
    64-bit integer, and refused outside. *)
Lemma ParseInt_pretty (z : Z) :
  ParseInt (pretty.pretty z) = if (int64_min <=? z)%Z && (z <=? int64_max)%Z then Some z else None.
Proof.
  assert (forall x : N, match pretty.pretty x with
    | EmptyString => None
    | String a s => if Ascii.eqb a "-"%char then if bool_decide (s = "") then None else Z.opp <$> parse_digits 0 s
                    else parse_digits 0 (pretty.pretty x) end = Some (Z.of_N x)) as HN.
  { intros x. pose proof (parse_pretty_N x) as Hp. pose proof (pretty_N_no_dash x) as Hd.
    destruct (pretty.pretty x) as [|a s] eqn:Ex; [|].
    - exfalso. injection Hp as Hp. assert (x = 0%N) as -> by lia. done.
    - destruct (Ascii.eqb_spec a "-"%char) as [->|]; [|done]. by destruct (Hd s). }
  unfold ParseInt. destruct z as [|p|p]; [done|..].
  - change (pretty.pretty (Z.pos p)) with (pretty.pretty (N.pos p)). by rewrite HN.
  - change (pretty.pretty (Z.neg p)) with (String "-"%char (pretty.pretty (N.pos p))).
    cbv beta iota. change ("-" =? "-")%char with true. cbv beta iota.
    rewrite bool_decide_false, parse_pretty_N; [done|].
    intros He. specialize (HN (N.pos p)). by rewrite He in HN.
Qed.

(** ** Defaults and values *)
Section spec.
Context {Json : JsonDecoder}.
(** A literal that fits an integer fits a floating point number. *)
Hypothesis int_is_float : forall l z, ParseInt l = Some z -> float64_literal l = true.

Lemma decode_Ok {A} (into : json -> result A) raw j :
  json_Parse raw = Ok j -> decode into raw = into j.
Proof. unfold decode. by intros ->. Qed.
Lemma decode_accepts {A} (into : json -> result A) raw :
  err_of (decode into raw) = None <-> exists j v, json_Parse raw = Ok j /\ into j = Ok v.
Proof.
  unfold decode. destruct (json_Parse raw) as [j|e]; cbn.
  - destruct (into j) eqn:E; cbn; split; try done; [by eauto|].
    intros (j' & v & [= <-] & Hv). congruence.
  - split; [done|]. by intros (j & v & ? & _).
Qed.
(** The documents an option accepts as a value, by its type. *)
Definition value_of_type (t : string) (j : json) : Prop :=
  decodes_any j = true /\
  match j with
  | JNull => False
  | JBool _ => t = PluginOptionTypeBool
  | JNumber _ => t = PluginOptionTypeInt
  | JString _ => t = PluginOptionTypeString
  | JList _ => t = PluginOptionTypeList
  | JMap _ => t = PluginOptionTypeMap
  end.
Definition parses_as (raw : string) (Pr : json -> Prop) : Prop :=
  match json_Parse raw with Ok j => Pr j | Err _ => False end.
Lemma IsValidValue_None p raw :
  IsValidValue p raw = None <-> parses_as raw (value_of_type (opt_Type p)).
Proof.
  unfold IsValidValue, decode, parses_as, value_of_type. destruct (json_Parse raw) as [j|e]; [|done].
  unfold Unmarshal_any. destruct (decodes_any j); [|by split; [|intros []]].
  cbv zeta. generalize (opt_Type p). intros t.
  repeat (case_bool_decide; [subst t; destruct j; split; by try intros [_ ?]|]).
  destruct j; split; try done; by intros [_ ?].
Qed.
(** The defaults an option accepts, by its type. *)
Definition default_of_type (t : string) (j : json) : Prop :=
  if bool_decide (t = PluginOptionTypeSecret) then j = JNull \/ j = JString ""
  else match j with
       | JNull => t ∈ [PluginOptionTypeBool; PluginOptionTypeInt; PluginOptionTypeString;
                       PluginOptionTypeList; PluginOptionTypeMap]
       | JNumber l => t = PluginOptionTypeInt /\ is_Some (ParseInt l)
       | _ => value_of_type t j
       end.
Lemma IsValid_None p raw : opt_Default p = Some raw ->
  IsValid p = None <-> parses_as raw (default_of_type (opt_Type p)).
Proof.
  intros Hd. unfold IsValid, decode, parses_as, default_of_type, value_of_type. rewrite Hd.
  cbv zeta. generalize (opt_Type p). intros t.
  destruct (json_Parse raw) as [j|e]; [|by repeat case_bool_decide].
  destruct (decide (t = PluginOptionTypeSecret)) as [->|Hs].
  { rewrite !bool_decide_false, !bool_decide_true by done.
    destruct j; cbn; split; try done; try (by intros []); [by left|..].
    - case_bool_decide; [intros _; right; by f_equal|done].
    - intros [|[= ->]]; done. }
  rewrite (bool_decide_false (t = PluginOptionTypeSecret)) by done.
  repeat (case_bool_decide; [subst t|]).
  - destruct j; cbn; split; try done; try (by intros []). intros _. set_solver.
  - destruct j; cbn; split; try done; try (by intros []); [set_solver|..].
    + destruct (ParseInt literal); [by eauto|done].
    + intros [_ [z ->]]. done.
  - destruct j; cbn; split; try done; try (by intros []). set_solver.
  - destruct j; cbn; split; try done; try (by intros []); [set_solver|..].
    + destruct (forallb _ _); done.
    + intros [-> _]. done.
  - destruct j; cbn; split; try done; try (by intros []); [set_solver|..].
    + destruct (forallb _ _); done.
    + intros [-> _]. done.
  - destruct j; cbn; split; try done; try (by intros []). set_solver.
Qed.

(** C17: a default the definition's webhook accepts is a value the Plugin's webhook
    accepts, which matters because defaulting copies it into the Plugin, in every case
    but two: a default of null, which no type accepts as a value, and a default for a
    secret option, where only the empty string passes the one check and nothing passes
    the other. *)
Theorem default_is_value p raw :
  opt_Default p = Some raw -> IsValid p = None ->
  (IsValidValue p raw = None <-> json_Parse raw <> Ok JNull /\ opt_Type p <> PluginOptionTypeSecret).
Proof using int_is_float.
  intros Hd Hv. apply (IsValid_None p raw Hd) in Hv. rewrite IsValidValue_None.
  unfold parses_as, default_of_type in *. destruct (json_Parse raw) as [j|e]; [|done].
  case_bool_decide as Hs.
  { split; [|by intros [_ ?]]. rewrite Hs. unfold value_of_type.
    by destruct Hv as [->| ->]; intros [_ ?]. }
  split.
  - intros H. split; [|done]. intros [= ->]. by destruct H.
  - intros [Hn _]. destruct j as [| |l| | |]; [done| | |done..]; [done|].
    destruct Hv as [-> [z Hz]]. split; [|done]. cbn. by eapply int_is_float.
Qed.

(** Integer options are 64 bits wide as defaults only.  The default [z], written in
    decimal, is accepted exactly within the bounds of a 64-bit integer and then read
    back as [z]; the same document as a value of a Plugin is accepted beyond the bounds
    too, and so is every number with a fraction or an exponent. *)
Theorem int_option_bounds p (z : Z) :
  json_Parse (pretty.pretty z) = Ok (JNumber (pretty.pretty z)) ->
  opt_Default p = Some (pretty.pretty z) -> opt_Type p = PluginOptionTypeInt ->
  (IsValid p = None <-> (int64_min <= z <= int64_max)%Z) /\
  ((int64_min <= z <= int64_max)%Z ->
   DefaultValue (Some p) = Returns (Ok (Some (JNumber (pretty.pretty z))))) /\
  (forall raw l, json_Parse raw = Ok (JNumber l) ->
   IsValidValue p raw = None <-> float64_literal l = true).
Proof using int_is_float.
  intros Hp Hd Ht. split; [|split].
  - rewrite (IsValid_None p _ Hd). unfold parses_as, default_of_type. rewrite Hp, Ht, bool_decide_false by done.
    rewrite ParseInt_pretty. destruct (Z.leb_spec int64_min z), (Z.leb_spec z int64_max); cbn;
      split; try lia; try done; by intros [_ []].
  - intros [H1 H2]. unfold DefaultValue. rewrite Ht, Hd. cbn. unfold decode. rewrite Hp. cbn.
    rewrite ParseInt_pretty. apply Z.leb_le in H1, H2. by rewrite H1, H2.
  - intros raw l Hl. rewrite IsValidValue_None. unfold parses_as, value_of_type. rewrite Hl, Ht. cbn.
    split; [by intros []|done].
Qed.
End spec.

(** ** Instances *)
Module OptionRun.
#[local] Instance decoder : JsonDecoder := {|
  json_Parse s := if bool_decide (s = "null") then Ok JNull
                  else if bool_decide (s = "") then Err (new_error "unexpected end of JSON input")
                  else Ok (JNumber s);
  float64_literal l := true |}.
Definition replicas : PluginOption := mk_option "replicas" (Some "3") "" "" true PluginOptionTypeInt "".
Lemma default_is_value_witness : IsValidValue replicas "3" = None.
Proof.
  refine (proj2 (default_is_value _ replicas "3" eq_refl _) _).
  - intros l z _. reflexivity.
  - vm_compute. reflexivity.
  - vm_compute. split; discriminate.
Defined.
Lemma int_option_bounds_witness : IsValid replicas = None.
Proof.
  refine (proj2 (proj1 (int_option_bounds _ replicas 3 _ eq_refl eq_refl)) _).
  - intros l z _. reflexivity.
  - vm_compute. reflexivity.
  - vm_compute. split; discriminate.
Defined.
End OptionRun.
