(* ===== verification/HelmValues.v ===== *)
(** * HelmValues: [internal/helm/values.go], [utils.go], [cel.go] and the value part of [helm.go]

    How the option values of a Plugin are put together: the defaults of its
    definition, its own values, the values Greenhouse adds about the
    organization, and the values read from secrets.  Slices are modelled as
    values; the code also changes the slice it is given, which its callers do not
    read again.

    [encoding/json] on strings ([Marshal], [MarshalList]), Helm's [strvals],
    the CEL evaluator and the sort of a slice by name ([sort.Slice] is not
    stable) are parameters. *)
From S2P Require Import Prelude Effects Conditions Meta ApiTypes PluginTypes PluginDefinitions.
From stdpp Require Import sorting.

Inductive valuesE : Type -> Type :=
| VDefinition {X} (e : definitionE X) : valuesE X
| VListClusters (namespace : string) : valuesE (result (list Cluster))
| VListTeams (namespace : string) : valuesE (result (list Team))
| VGetCluster (k : objkey) : valuesE (result Cluster)
| VGetSecret (k : objkey) : valuesE (result (option strmap)).   (* the secret's Data *)

(** ** Merging *)

(** Only the [Value] of an existing entry is overwritten. *)
Fixpoint setOrAppendNameValue (valueSlice : list PluginOptionValue) (v : PluginOptionValue) :
    list PluginOptionValue :=
  match valueSlice with
  | [] => [v]
  | val :: rest =>
      if bool_decide (ov_Name val = ov_Name v)
      then mk_ov (ov_Name val) (ov_Value v) (ov_ValueFrom val) (ov_Expression val) :: rest
      else val :: setOrAppendNameValue rest v
  end.
Definition MergePluginOptionValues (dst src : list PluginOptionValue) : list PluginOptionValue :=
  fold_left setOrAppendNameValue src dst.

(** [sort.Slice] by name. *)
Definition name_le (v v' : PluginOptionValue) : Prop := String.le (ov_Name v) (ov_Name v').
Class SortByName := sort_by_name : list PluginOptionValue -> list PluginOptionValue.
Class SortByNameLaws `{SortByName} := {
  sort_by_name_perm l : sort_by_name l ≡ₚ l;
  sort_by_name_sorted l : Sorted name_le (sort_by_name l)
}.

(** The defaults of the definition. *)
Definition default_values (options : list PluginOption) : list PluginOptionValue :=
  omap (fun o => (fun d => mk_ov (opt_Name o) (Some d) None None) <$> opt_Default o) options.
(** A definition without options has a nil list; the values are then returned as
    they are. *)
Definition MergePluginAndPluginOptionValueSlice `{SortByName} (pluginOptions : list PluginOption)
    (pluginOptionValues : list PluginOptionValue) : list PluginOptionValue :=
  if bool_decide (pluginOptions = []) then pluginOptionValues
  else sort_by_name (MergePluginOptionValues (default_values pluginOptions) pluginOptionValues).

(** [extractMetadataKey]: the empty string when the label is not a metadata label. *)
Definition extractMetadataKey (labelKey : string) : string :=
  match cut_prefix labelKey LabelKeyMetadataPrefix with Some result => result | None => "" end.

Section values.
Context {HSort : SortByName}.
Variable Marshal : string -> string.
Variable MarshalList : list string -> string.
(** the order in which Go iterates over a map *)
Variable map_order : strmap -> list (string * string).
(** [common.DNSDomain] *)
Variable DNSDomain : string.

Definition plain_value (name raw : string) : PluginOptionValue := mk_ov name (Some raw) None None.
Definition stringSliceToHelmValue (theSlice : list string) : string :=
  MarshalList (merge_sort String.le theSlice).

Definition metadata_values (labels : strmap) : list PluginOptionValue :=
  omap (fun '(key, value) =>
    let metadataKey := extractMetadataKey key in
    if bool_decide (metadataKey <> "")
    then Some (plain_value ("global.greenhouse.metadata." +:+ metadataKey) (Marshal value))
    else None) (map_order labels).
Definition cluster_values (namespace clusterName : string) : prog valuesE (list PluginOptionValue) :=
  if bool_decide (clusterName <> "") then
    r ← trigger (VGetCluster (mk_key namespace clusterName));
    mret (plain_value "global.greenhouse.clusterName" (Marshal clusterName) ::
          match r with Ok cluster => metadata_values (GetLabels cluster) | Err _ => [] end)
  else mret [].
Definition owner_values (labels : strmap) : list PluginOptionValue :=
  let owner := default "" (labels !! LabelKeyOwnedBy) in
  if bool_decide (owner <> "") then [plain_value "global.greenhouse.ownedBy" (Marshal owner)] else [].

Definition GetGreenhouseValues (p : Plugin) : prog valuesE (result (list PluginOptionValue)) :=
  let namespace := GetNamespace p in
  clusters ← trigger (VListClusters namespace);
  match clusters with
  | Err e => mret (Err e)
  | Ok clusters =>
      teams ← trigger (VListTeams namespace);
      match teams with
      | Err e => mret (Err e)
      | Ok teams =>
          ofCluster ← cluster_values namespace (plugin_ClusterName (plugin_Spec p));
          mret (Ok ([plain_value "global.greenhouse.clusterNames"
                       (stringSliceToHelmValue (GetName <$> clusters));
                     plain_value "global.greenhouse.teamNames"
                       (stringSliceToHelmValue (GetName <$> teams));
                     plain_value "global.greenhouse.organizationName" (Marshal namespace)] ++
                    ofCluster ++
                    [plain_value "global.greenhouse.baseDomain" (Marshal DNSDomain)] ++
                    owner_values (GetLabels p)))
      end
  end.

Definition GetPluginOptionValuesForPlugin (plugin : Plugin) :
    prog valuesE (result (list PluginOptionValue)) :=
  spec ← translate (fun _ => VDefinition)
           (GetPluginDefinitionSpec (PluginDefinitionRef (plugin_Spec plugin)) (GetNamespace plugin));
  match spec with
  | Err e => mret (Err e)
  | Ok spec =>
      let values :=
        MergePluginAndPluginOptionValueSlice (pd_Options spec) (OptionValues (plugin_Spec plugin)) in
      greenhouseValues ← GetGreenhouseValues plugin;
      match greenhouseValues with
      | Err e => mret (Err e)
      | Ok gv => mret (Ok (MergePluginOptionValues values gv))
      end
  end.

(** ** Secrets *)
Definition getValueFromSecret (namespace secretName secretKey : string) :
    prog valuesE (result string) :=
  r ← trigger (VGetSecret (mk_key namespace secretName));
  match r with
  | Err e => mret (Err e)
  | Ok None => mret (Err (new_error ("secret " +:+ namespace +:+ "/" +:+ secretName +:+ " is empty")))
  | Ok (Some data) =>
      match data !! secretKey with
      | None => mret (Err (new_error ("secret " +:+ namespace +:+ "/" +:+ secretName +:+
                                      " does not contain key " +:+ secretKey)))
      | Some val => mret (Ok val)
      end
  end.
Definition resolve_secret (namespace : string) (val : PluginOptionValue) :
    prog valuesE (result PluginOptionValue) :=
  match ov_ValueFrom val ≫= vf_Secret with
  | None => mret (Ok val)
  | Some ref =>
      r ← getValueFromSecret namespace (skr_Name ref) (skr_Key ref);
      match r with
      | Err e => mret (Err e)
      | Ok s => mret (Ok (mk_ov (ov_Name val) (Some (Marshal s)) (ov_ValueFrom val) (ov_Expression val)))
      end
  end.
Definition resolvePluginOptionValueFrom (namespace : string) (optionValues : list PluginOptionValue) :
    prog valuesE (result (list PluginOptionValue)) :=
  r ← foreach optionValues (fun acc val =>
        r ← resolve_secret namespace val;
        match r with
        | Err e => mret (inr e)
        | Ok val => mret (inl (acc ++ [val]))
        end) [];
  match r with inl vals => mret (Ok vals) | inr e => mret (Err e) end.

(** What [CalculatePluginOptionChecksum] hashes. *)
Definition checksum_input (values : list PluginOptionValue) : string :=
  String.concat "" ((fun v =>
    ov_Name v +:+
    match ov_Value v, ov_Expression v, ov_ValueFrom v ≫= vf_Ref with
    | Some raw, _, _ => raw
    | None, Some e, _ => e
    | None, None, Some ref => evs_Name ref +:+ evs_Kind ref +:+ evs_Expression ref
    | None, None, None => ""
    end) <$> values).
(** [sha256.Sum256] and [hex.EncodeToString] *)
Variable sha256_hex : string -> string.
Definition CalculatePluginOptionChecksum (plugin : Plugin) : prog valuesE (result string) :=
  r ← resolvePluginOptionValueFrom (GetNamespace plugin) (OptionValues (plugin_Spec plugin));
  match r with
  | Err e => mret (Err e)
  | Ok values => mret (Ok (sha256_hex (checksum_input (sort_by_name values))))
  end.

(** ** Expressions *)
Context {Values : Type}.
Variable no_values : Values.
(** Helm's [strvals.ParseJSON] of ["name=json"] into a map *)
Variable ParseJSON : string -> Values -> result Values.
(** [cel.EvaluateExpression] *)
Variable EvaluateExpression : string -> Values -> result string.

Definition ConvertFlatValuesToHelmValues (values : list PluginOptionValue) : result Values :=
  fold_left (fun helmValues v =>
    helmValues ← helmValues; ParseJSON (ov_Name v +:+ "=" +:+ ValueJSON v) helmValues)
    values (Ok no_values).
Definition BuildTemplateData (optionValues : list PluginOptionValue) : result Values :=
  match ConvertFlatValuesToHelmValues
          (List.filter (fun v => has_prefix (ov_Name v) "global.greenhouse") optionValues) with
  | Err e => Err (wrap_error "failed to convert values to helm structure: " e)
  | Ok templateData => Ok templateData
  end.
(** [NewCELResolver]: the resolver is its template data. *)
Definition NewCELResolver (optionValues : list PluginOptionValue) : result Values :=
  match BuildTemplateData optionValues with
  | Err e => Err (wrap_error "failed to build template data: " e)
  | Ok templateData => Ok templateData
  end.
Definition ResolveExpression (templateData : Values) (optionValue : PluginOptionValue)
    (expressionEvaluationEnabled : bool) : result PluginOptionValue :=
  match ov_Expression optionValue with
  | None => Ok optionValue
  | Some expression =>
      if negb expressionEvaluationEnabled
      then Ok (plain_value (ov_Name optionValue) (Marshal expression))
      else match EvaluateExpression expression templateData with
           | Err e => Err (wrap_error ("failed to evaluate expression for option " +:+
                                       ov_Name optionValue +:+ ": ") e)
           | Ok json => Ok (plain_value (ov_Name optionValue) json)
           end
  end.
End values.

(** ** Lemmas *)
Fixpoint find_value (name : string) (l : list PluginOptionValue) : option PluginOptionValue :=
  match l with
  | [] => None
  | v :: l' => if bool_decide (ov_Name v = name) then Some v else find_value name l'
  end.
(** What an entry becomes when a value of the same name is merged over it. *)
Definition overlay (src dst : option PluginOptionValue) : option PluginOptionValue :=
  match src, dst with
  | Some s, Some d => Some (mk_ov (ov_Name d) (ov_Value s) (ov_ValueFrom d) (ov_Expression d))
  | Some s, None => Some s
  | None, _ => dst
  end.
Abbreviation names := (fmap (M := list) ov_Name).

Lemma find_value_name n l v : find_value n l = Some v -> ov_Name v = n.
Proof. induction l as [|w l IH]; simpl; [done|]. case_bool_decide; [by intros [= <-]|done]. Qed.
Lemma find_value_elem n l v : find_value n l = Some v -> v ∈ l.
Proof. induction l as [|w l IH]; simpl; [done|]. case_bool_decide; [intros [= <-]|]; set_solver. Qed.
Lemma find_value_None n l : find_value n l = None <-> n ∉ names l.
Proof.
  induction l as [|w l IH]; csimpl; [set_solver|]. rewrite not_elem_of_cons, <-IH.
  case_bool_decide; naive_solver.
Qed.
Lemma find_value_NoDup n l v : NoDup (names l) -> v ∈ l -> ov_Name v = n -> find_value n l = Some v.
Proof.
  induction l as [|w l IH]; csimpl; [set_solver|].
  intros [Hw Hl]%NoDup_cons [->|Hv]%elem_of_cons Hn; [by rewrite bool_decide_eq_true_2|].
  rewrite bool_decide_eq_false_2; [by apply IH|]. intros Hwn. apply Hw. rewrite Hwn, <-Hn.
  by apply list_elem_of_fmap_2.
Qed.
Lemma find_value_perm n l l' : NoDup (names l) -> l ≡ₚ l' -> find_value n l = find_value n l'.
Proof.
  intros Hl Hp. assert (NoDup (names l')) as Hl' by (by rewrite <-Hp).
  destruct (find_value n l) as [v|] eqn:Hv; symmetry.
  - apply find_value_NoDup; [done| |by eapply find_value_name].
    rewrite <-Hp. by eapply find_value_elem.
  - apply find_value_None. rewrite <-Hp. by apply find_value_None.
Qed.
Lemma find_setOrAppend n l v :
  find_value n (setOrAppendNameValue l v) =
  if bool_decide (ov_Name v = n) then overlay (Some v) (find_value n l) else find_value n l.
Proof.
  induction l as [|w l IH]; simpl; [by case_bool_decide|].
  destruct (decide (ov_Name w = ov_Name v)) as [Hw|Hw].
  - rewrite (bool_decide_eq_true_2 (_ = _)) by done. simpl.
    repeat case_bool_decide; try congruence; done.
  - rewrite (bool_decide_eq_false_2 (ov_Name w = ov_Name v)) by done. simpl. rewrite IH.
    repeat case_bool_decide; try congruence; done.
Qed.
Lemma names_setOrAppend n l v : n ∈ names (setOrAppendNameValue l v) <-> n = ov_Name v \/ n ∈ names l.
Proof.
  induction l as [|w l IH]; csimpl; [set_solver|]. case_bool_decide; csimpl; set_solver.
Qed.
Lemma setOrAppend_NoDup l v : NoDup (names l) -> NoDup (names (setOrAppendNameValue l v)).
Proof.
  induction l as [|w l IH]; csimpl; [intros; apply NoDup_singleton|].
  intros [Hw Hl]%NoDup_cons. case_bool_decide; csimpl; apply NoDup_cons; [done|].
  split; [rewrite names_setOrAppend; naive_solver|auto].
Qed.
Lemma Merge_NoDup dst src : NoDup (names dst) -> NoDup (names (MergePluginOptionValues dst src)).
Proof.
  unfold MergePluginOptionValues. revert dst. induction src as [|v src IH]; intros dst H; [done|].
  simpl. by apply IH, setOrAppend_NoDup.
Qed.
Lemma find_Merge n dst src : NoDup (names src) ->
  find_value n (MergePluginOptionValues dst src) = overlay (find_value n src) (find_value n dst).
Proof.
  unfold MergePluginOptionValues. revert dst. induction src as [|v src IH]; intros dst; [done|].
  csimpl. intros [Hv Hsrc]%NoDup_cons. rewrite IH by done. rewrite find_setOrAppend.
  case_bool_decide as Hn; [|done]. subst n. apply find_value_None in Hv. by rewrite Hv.
Qed.
Lemma default_values_names options :
  NoDup (opt_Name <$> options) -> NoDup (names (default_values options)).
Proof.
  induction options as [|o options IH]; csimpl; [intros; constructor|].
  intros [Ho H]%NoDup_cons. unfold default_values in *. csimpl.
  destruct (opt_Default o) as [d|]; csimpl; [|by apply IH].
  apply NoDup_cons. split; [|by apply IH].
  intros (v & Hn & (o' & Ho' & (d' & Hd & ->)%fmap_Some)%list_elem_of_omap)%list_elem_of_fmap.
  simpl in Hn. apply Ho. rewrite Hn. by apply list_elem_of_fmap_2.
Qed.
Lemma find_default_values options o d :
  NoDup (opt_Name <$> options) -> o ∈ options -> opt_Default o = Some d ->
  find_value (opt_Name o) (default_values options) = Some (mk_ov (opt_Name o) (Some d) None None).
Proof.
  intros Hnd Ho Hd. apply find_value_NoDup; [by apply default_values_names| |done].
  apply list_elem_of_omap. exists o. by rewrite Hd.
Qed.

Section merge.
Context {HSort : SortByName} {HSortLaws : SortByNameLaws}.

Lemma find_Merge_options n options values :
  NoDup (opt_Name <$> options) -> NoDup (names values) ->
  find_value n (MergePluginAndPluginOptionValueSlice options values) =
  overlay (find_value n values) (find_value n (default_values options)).
Proof.
  intros Ho Hv. unfold MergePluginAndPluginOptionValueSlice.
  case_bool_decide as He; [subst; simpl; by destruct (find_value n values)|].
  rewrite <-(find_value_perm n (MergePluginOptionValues (default_values options) values)).
  - by apply find_Merge.
  - by apply Merge_NoDup, default_values_names.
  - by rewrite sort_by_name_perm.
Qed.

Lemma Merge_options_NoDup options values :
  NoDup (opt_Name <$> options) -> NoDup (names values) ->
  NoDup (names (MergePluginAndPluginOptionValueSlice options values)).
Proof.
  intros Ho Hv. unfold MergePluginAndPluginOptionValueSlice. case_bool_decide; [done|].
  rewrite sort_by_name_perm. by apply Merge_NoDup, default_values_names.
Qed.
End merge.

(** ** What Greenhouse adds *)
Section greenhouse.
Context {HSort : SortByName} {HSortLaws : SortByNameLaws}.
Variable Marshal : string -> string.
Variable MarshalList : list string -> string.
Variable map_order : strmap -> list (string * string).
Hypothesis map_order_perm : forall m, map_order m ≡ₚ map_to_list m.
Variable DNSDomain : string.

Lemma extractMetadataKey_spec key k :
  k <> "" -> extractMetadataKey key = k <-> key = LabelKeyMetadataPrefix +:+ k.
Proof.
  intros Hk. unfold extractMetadataKey. rewrite <-cut_prefix_Some.
  destruct (cut_prefix key LabelKeyMetadataPrefix); split; congruence.
Qed.
Lemma metadata_values_elem labels v :
  v ∈ metadata_values Marshal map_order labels <->
  exists k x, labels !! (LabelKeyMetadataPrefix +:+ k) = Some x /\ k <> "" /\
    v = plain_value ("global.greenhouse.metadata." +:+ k) (Marshal x).
Proof.
  unfold metadata_values. rewrite list_elem_of_omap. split.
  - intros ([key x] & Hin & H). rewrite map_order_perm, elem_of_map_to_list in Hin.
    case_bool_decide as Hk; [|done]. apply (inj Some) in H. subst v.
    exists (extractMetadataKey key), x. split_and!; [|done..].
    by rewrite <-(proj1 (extractMetadataKey_spec key _ Hk)).
  - intros (k & x & Hin & Hk & ->). exists (LabelKeyMetadataPrefix +:+ k, x).
    rewrite map_order_perm, elem_of_map_to_list. split; [done|].
    rewrite (proj2 (extractMetadataKey_spec _ k Hk) eq_refl). by rewrite bool_decide_eq_true_2.
Qed.
Lemma metadata_values_NoDup labels : NoDup (names (metadata_values Marshal map_order labels)).
Proof.
  unfold metadata_values.
  assert (NoDup (map_order labels).*1) as Hnd.
  { rewrite map_order_perm. apply NoDup_fst_map_to_list. }
  induction (map_order labels) as [|[key x] l IH]; [constructor|].
  apply NoDup_cons in Hnd as [Hkey Hnd]. cbn [omap list_omap].
  case_bool_decide as Hk; [|by apply IH]. apply NoDup_cons. split; [|by apply IH].
  intros (v & Hn & ([key' x'] & Hin & Hv)%list_elem_of_omap)%list_elem_of_fmap.
  case_bool_decide as Hk'; [|done]. apply (inj Some) in Hv. subst v.
  apply append_inj_l in Hn. apply Hkey. cbn [fst].
  rewrite (proj1 (extractMetadataKey_spec key _ Hk) eq_refl), Hn,
    <-(proj1 (extractMetadataKey_spec key' _ Hk') eq_refl).
  by apply (list_elem_of_fmap_2 fst _ (key', x')).
Qed.

(** The answers of a trace that the values come from. *)
Definition answered_clusters (c : call valuesE) : option (list Cluster) :=
  match c with Call e x =>
    match e in valuesE X return X -> option (list Cluster) with
    | VListClusters _ => fun r => match r with Ok l => Some l | Err _ => None end
    | _ => fun _ => None
    end x
  end.
Definition answered_teams (c : call valuesE) : option (list Team) :=
  match c with Call e x =>
    match e in valuesE X return X -> option (list Team) with
    | VListTeams _ => fun r => match r with Ok l => Some l | Err _ => None end
    | _ => fun _ => None
    end x
  end.
Definition answered_cluster (c : call valuesE) : option Cluster :=
  match c with Call e x =>
    match e in valuesE X return X -> option Cluster with
    | VGetCluster _ => fun r => match r with Ok l => Some l | Err _ => None end
    | _ => fun _ => None
    end x
  end.
Definition value_of (name : string) (l : list PluginOptionValue) : option string :=
  find_value name l ≫= ov_Value.

(** The value Greenhouse gives a name, from what the API server answered. *)
Definition greenhouse_value (p : Plugin) (clusters : list Cluster) (teams : list Team)
    (cluster : option Cluster) (name : string) : option string :=
  if bool_decide (name = "global.greenhouse.clusterNames")
  then Some (MarshalList (merge_sort String.le (GetName <$> clusters)))
  else if bool_decide (name = "global.greenhouse.teamNames")
  then Some (MarshalList (merge_sort String.le (GetName <$> teams)))
  else if bool_decide (name = "global.greenhouse.organizationName") then Some (Marshal (GetNamespace p))
  else if bool_decide (name = "global.greenhouse.baseDomain") then Some (Marshal DNSDomain)
  else if bool_decide (name = "global.greenhouse.clusterName") then
    let c := plugin_ClusterName (plugin_Spec p) in
    if bool_decide (c = "") then None else Some (Marshal c)
  else if bool_decide (name = "global.greenhouse.ownedBy") then
    let t := default "" (GetLabels p !! LabelKeyOwnedBy) in
    if bool_decide (t = "") then None else Some (Marshal t)
  else
    k ← cut_prefix name "global.greenhouse.metadata.";
    if bool_decide (k = "") then None
    else c ← cluster; Marshal <$> GetLabels c !! (LabelKeyMetadataPrefix +:+ k).

Definition greenhouse_list (p : Plugin) (clusters : list Cluster) (teams : list Team)
    (cluster : option Cluster) : list PluginOptionValue :=
  [plain_value "global.greenhouse.clusterNames"
     (stringSliceToHelmValue MarshalList (GetName <$> clusters));
   plain_value "global.greenhouse.teamNames"
     (stringSliceToHelmValue MarshalList (GetName <$> teams));
   plain_value "global.greenhouse.organizationName" (Marshal (GetNamespace p))] ++
  (if bool_decide (plugin_ClusterName (plugin_Spec p) <> "")
   then plain_value "global.greenhouse.clusterName" (Marshal (plugin_ClusterName (plugin_Spec p))) ::
        match cluster with Some c => metadata_values Marshal map_order (GetLabels c) | None => [] end
   else []) ++
  [plain_value "global.greenhouse.baseDomain" (Marshal DNSDomain)] ++
  owner_values Marshal (GetLabels p).

Lemma find_value_app n l l' :
  find_value n (l ++ l') = match find_value n l with Some v => Some v | None => find_value n l' end.
Proof. induction l as [|v l IH]; simpl; [done|]. by case_bool_decide. Qed.

Lemma find_metadata n labels :
  find_value n (metadata_values Marshal map_order labels) =
  k ← cut_prefix n "global.greenhouse.metadata.";
  if bool_decide (k = "") then None
  else (fun x => plain_value n (Marshal x)) <$> labels !! (LabelKeyMetadataPrefix +:+ k).
Proof.
  destruct (find_value n _) as [v|] eqn:Hv.
  - pose proof (find_value_name _ _ _ Hv) as Hn.
    apply find_value_elem, metadata_values_elem in Hv as (k & x & Hl & Hk & ->). subst n.
    cbn [ov_Name plain_value]. rewrite cut_prefix_app. cbn [mbind option_bind].
    by rewrite bool_decide_eq_false_2, Hl by done.
  - destruct (cut_prefix n _) as [k|] eqn:Hk; [|done]. cbn [mbind option_bind].
    apply cut_prefix_Some in Hk as ->. case_bool_decide; [done|].
    destruct (labels !! _) as [x|] eqn:Hl; [|done]. exfalso.
    apply find_value_None in Hv. apply Hv, list_elem_of_fmap.
    eexists. split; [|apply metadata_values_elem; eauto]. done.
Qed.

Lemma metadata_other n labels :
  cut_prefix n "global.greenhouse.metadata." = None ->
  n ∉ names (metadata_values Marshal map_order labels).
Proof. intros Hn. apply find_value_None. by rewrite find_metadata, Hn. Qed.

(** The names added for the cluster: its own name and its metadata. *)
Definition cluster_list (p : Plugin) (cluster : option Cluster) : list PluginOptionValue :=
  if bool_decide (plugin_ClusterName (plugin_Spec p) <> "")
  then plain_value "global.greenhouse.clusterName" (Marshal (plugin_ClusterName (plugin_Spec p))) ::
       match cluster with Some c => metadata_values Marshal map_order (GetLabels c) | None => [] end
  else [].
Definition outside_cluster (n : string) : Prop :=
  cut_prefix n "global.greenhouse.metadata." = None /\ n <> "global.greenhouse.clusterName".
Lemma cluster_list_names p cluster n : outside_cluster n -> n ∉ names (cluster_list p cluster).
Proof.
  intros [Hn Hne]. unfold cluster_list. case_bool_decide; [|apply not_elem_of_nil].
  rewrite fmap_cons. apply not_elem_of_cons. split; [done|].
  destruct cluster; [by apply metadata_other|apply not_elem_of_nil].
Qed.
Lemma cluster_list_NoDup p cluster : NoDup (names (cluster_list p cluster)).
Proof.
  unfold cluster_list. case_bool_decide; [|constructor]. rewrite fmap_cons.
  apply NoDup_cons. destruct cluster; [|split; [apply not_elem_of_nil|constructor]].
  split; [by apply metadata_other|apply metadata_values_NoDup].
Qed.
Lemma owner_values_names (p : Plugin) n :
  n ∈ names (owner_values Marshal (GetLabels p)) -> n = "global.greenhouse.ownedBy".
Proof. unfold owner_values. case_bool_decide; csimpl; set_solver. Qed.
Lemma owner_values_NoDup (p : Plugin) : NoDup (names (owner_values Marshal (GetLabels p))).
Proof. unfold owner_values. case_bool_decide; csimpl; [apply NoDup_singleton|constructor]. Qed.

Lemma greenhouse_list_NoDup p clusters teams cluster :
  NoDup (names (greenhouse_list p clusters teams cluster)).
Proof.
  unfold greenhouse_list. fold (cluster_list p cluster). rewrite !fmap_app.
  apply NoDup_app. split_and!.
  - cbn. by apply (bool_decide_eq_true_1 _).
  - intros n Hn HC. assert (outside_cluster n /\ n <> "global.greenhouse.baseDomain" /\
      n <> "global.greenhouse.ownedBy") as (Ho & Hb & Hw).
    { cbn in Hn. rewrite !elem_of_cons in Hn. by destruct Hn as [->|[->|[->|[]%not_elem_of_nil]]]. }
    apply elem_of_app in HC as [HC|HC]; [by apply (cluster_list_names p cluster n)|].
    apply elem_of_app in HC as [->%list_elem_of_singleton|HC]; [done|].
    by apply owner_values_names in HC.
  - apply NoDup_app. split_and!; [apply cluster_list_NoDup| |].
    + intros n HC Hn. apply (cluster_list_names p cluster n); [|done].
      apply elem_of_app in Hn as [->%list_elem_of_singleton|Hn]; [done|].
      by apply owner_values_names in Hn as ->.
    + apply NoDup_app. split_and!; [apply NoDup_singleton| |apply owner_values_NoDup].
      intros n ->%list_elem_of_singleton Hn. by apply owner_values_names in Hn.
Qed.

Lemma find_cluster_list p cluster name :
  find_value name (cluster_list p cluster) =
  let c := plugin_ClusterName (plugin_Spec p) in
  if bool_decide (c = "") then None
  else if bool_decide (name = "global.greenhouse.clusterName")
  then Some (plain_value "global.greenhouse.clusterName" (Marshal c))
  else cl ← cluster; find_value name (metadata_values Marshal map_order (GetLabels cl)).
Proof.
  unfold cluster_list. cbn zeta.
  destruct (decide (plugin_ClusterName (plugin_Spec p) = "")) as [Hc|Hc].
  - by rewrite bool_decide_eq_false_2, bool_decide_eq_true_2 by auto.
  - rewrite bool_decide_eq_true_2 by done. rewrite (bool_decide_eq_false_2 (_ = "")) by done.
    cbn [find_value ov_Name plain_value]. rewrite (bool_decide_ext _ (name = "global.greenhouse.clusterName")) by done.
    case_bool_decide; [done|]. by destruct cluster.
Qed.
Lemma find_owner_values (p : Plugin) name :
  value_of name (owner_values Marshal (GetLabels p)) =
  if bool_decide (name = "global.greenhouse.ownedBy") then
    let t := default "" (GetLabels p !! LabelKeyOwnedBy) in
    if bool_decide (t = "") then None else Some (Marshal t)
  else None.
Proof.
  unfold owner_values, value_of. cbn zeta.
  case_bool_decide as Ht; [rewrite (bool_decide_eq_false_2 (_ = "")) by done|].
  - cbn [find_value ov_Name plain_value].
    rewrite (bool_decide_ext (_ = name) (name = "global.greenhouse.ownedBy")) by done.
    by case_bool_decide.
  - rewrite Ht. by case_bool_decide.
Qed.

Lemma value_of_greenhouse_list p clusters teams cluster name :
  (plugin_ClusterName (plugin_Spec p) = "" -> cluster = None) ->
  value_of name (greenhouse_list p clusters teams cluster) =
  greenhouse_value p clusters teams cluster name.
Proof.
  intros Hc. pose proof (find_owner_values p name) as Ho.
  unfold value_of, greenhouse_list, greenhouse_value in *.
  fold (cluster_list p cluster). rewrite !find_value_app, find_cluster_list.
  cbn [find_value ov_Name plain_value]. cbn zeta in *.
  repeat (case_bool_decide; subst; try done).
  all: destruct cluster as [c|]; [try discriminate (Hc ltac:(assumption))|];
    cbn [mbind option_bind]; rewrite ?find_metadata; try done; rewrite ?Ho; try done.
  all: destruct (cut_prefix name _) as [k|]; [|done]; cbn [mbind option_bind];
    case_bool_decide; try done.
  by destruct (GetLabels c !! _).
Qed.

(** What a trace says the API server answered. *)
Definition answers (l : list (call valuesE)) (clusters : list Cluster) (teams : list Team)
    (cluster : option Cluster) : Prop :=
  omap answered_clusters l = [clusters] /\ omap answered_teams l = [teams] /\
  omap answered_cluster l = option_list cluster.

Lemma GetGreenhouseValues_post p h :
  wp (traced any_answer) (GetGreenhouseValues Marshal MarshalList map_order DNSDomain p)
    (fun h' r => match r with
       | Err _ => True
       | Ok gv => exists l clusters teams cluster, h' = h ++ l /\ answers l clusters teams cluster /\
           (plugin_ClusterName (plugin_Spec p) = "" -> cluster = None) /\
           gv = greenhouse_list p clusters teams cluster
       end) h.
Proof.
  unfold GetGreenhouseValues. do 2 wp_step. destruct x as [clusters|e]; [|by wp_step].
  do 2 wp_step. destruct x as [teams|e]; [|by wp_step].
  destruct Hx as [_ ->], Hx0 as [_ ->]. unfold cluster_values, greenhouse_list, cluster_list.
  case_bool_decide as Hc; do 3 wp_step.
  - destruct Hx as [_ ->]. rewrite <-!app_assoc. wp_step.
    destruct x as [c|e].
    + eexists _, clusters, teams, (Some c). split; [done|]. by split_and!.
    + eexists _, clusters, teams, None. split; [done|]. by split_and!.
  - rewrite <-!app_assoc. eexists _, clusters, teams, None. split; [done|]. by split_and!.
Qed.

Lemma answers_app l l' clusters teams cluster :
  answers l' clusters teams cluster ->
  omap answered_clusters l = [] -> omap answered_teams l = [] -> omap answered_cluster l = [] ->
  answers (l ++ l') clusters teams cluster.
Proof.
  intros (Hc & Ht & Hl) E1 E2 E3. unfold answers. by rewrite !omap_app, E1, E2, E3.
Qed.

Lemma greenhouse_list_set p clusters teams cluster :
  Forall (fun v => is_Some (ov_Value v)) (greenhouse_list p clusters teams cluster).
Proof.
  unfold greenhouse_list, owner_values.
  repeat case_bool_decide; repeat (apply Forall_app; split);
    repeat (apply Forall_cons; split; [by eexists|]); try done;
    (destruct cluster; [|done]; apply Forall_forall;
     intros v (k & x & _ & _ & ->)%metadata_values_elem; by eexists).
Qed.

Lemma definition_answers ref namespace h :
  wp (traced any_answer) (translate (fun _ => VDefinition) (GetPluginDefinitionSpec ref namespace))
    (fun h' _ => exists l, h' = h ++ l /\ omap answered_clusters l = [] /\
       omap answered_teams l = [] /\ omap answered_cluster l = []) h.
Proof.
  unfold GetPluginDefinitionSpec. wp_step.
  repeat case_bool_decide; wp_steps; try (by exists []; rewrite app_nil_r);
    destruct Hx as [_ ->]; eexists; by split_and!.
Qed.

Lemma value_of_Merge n dst src :
  NoDup (names src) -> (forall v, v ∈ src -> is_Some (ov_Value v)) ->
  value_of n (MergePluginOptionValues dst src) =
  match value_of n src with Some raw => Some raw | None => value_of n dst end.
Proof.
  intros Hnd Hv. unfold value_of. rewrite find_Merge by done.
  destruct (find_value n src) as [v|] eqn:Hf; simpl.
  - destruct (Hv v) as [raw Hr]; [by eapply find_value_elem|]. rewrite Hr.
    by destruct (find_value n dst).
  - by destruct (find_value n dst).
Qed.
End greenhouse.

(** ** Properties *)
Section properties.
Context {HSort : SortByName} {HSortLaws : SortByNameLaws}.

(** Merging is last-writer-wins on the value, and only on the value: for
    every option name, the merged list has at most one entry, absent exactly when
    neither the defaults of the definition, the Plugin nor Greenhouse name it; its
    value is that of Greenhouse, else of the Plugin, else the default, while its
    [valueFrom] and [expression] are those of the FIRST of default, Plugin and
    Greenhouse to name it. *)
Theorem merged_option options user greenhouse n :
  NoDup (opt_Name <$> options) -> NoDup (names user) -> NoDup (names greenhouse) ->
  let merged := MergePluginOptionValues
                  (MergePluginAndPluginOptionValueSlice options user) greenhouse in
  NoDup (names merged) /\
  find_value n merged =
    overlay (find_value n greenhouse)
      (overlay (find_value n user) (find_value n (default_values options))).
Proof.
  intros Ho Hu Hg merged. subst merged. split.
  - by apply Merge_NoDup, Merge_options_NoDup.
  - by rewrite find_Merge, find_Merge_options.
Qed.

(** An option with a default cannot be set from an expression or a secret:
    when the definition gives the option a default and the Plugin sets it without
    a literal value, the merged entry has neither value, [valueFrom] nor
    expression. *)
Theorem default_hides_expression options user greenhouse o d v :
  NoDup (opt_Name <$> options) -> NoDup (names user) -> NoDup (names greenhouse) ->
  o ∈ options -> opt_Default o = Some d ->
  find_value (opt_Name o) user = Some v -> ov_Value v = None ->
  opt_Name o ∉ names greenhouse ->
  find_value (opt_Name o)
    (MergePluginOptionValues (MergePluginAndPluginOptionValueSlice options user) greenhouse) =
  Some (mk_ov (opt_Name o) None None None).
Proof.
  intros Ho Hu Hg Hin Hd Hv Hnone Hno.
  rewrite find_Merge, find_Merge_options by done.
  apply find_value_None in Hno. by rewrite Hno, Hv, (find_default_values _ _ d), <-Hnone.
Qed.

Variable Marshal : string -> string.
Variable MarshalList : list string -> string.
Variable map_order : strmap -> list (string * string).
Hypothesis map_order_perm : forall m, map_order m ≡ₚ map_to_list m.
Variable DNSDomain : string.

(** The values about the organization are Greenhouse's alone: whatever the
    Plugin and its definition set, and whatever the API server answers, every name
    Greenhouse gives a value - cluster and team names, organization, base domain,
    cluster name, the cluster's metadata labels, the owner - has in the result
    exactly the value computed from the objects of the Plugin's own namespace. *)
Theorem greenhouse_values_win plugin :
  wp (traced any_answer)
    (GetPluginOptionValuesForPlugin Marshal MarshalList map_order DNSDomain plugin)
    (fun h r => match r with
       | Err _ => True
       | Ok values => exists clusters teams cluster, answers h clusters teams cluster /\
           forall n raw, greenhouse_value Marshal MarshalList DNSDomain plugin clusters teams cluster n
                           = Some raw -> value_of n values = Some raw
       end) [].
Proof.
  unfold GetPluginOptionValuesForPlugin. wp_step.
  eapply wp_mono; [|apply definition_answers]. intros h spec (l & -> & H1 & H2 & H3).
  destruct spec as [spec|e]; [|by wp_step]. wp_step.
  eapply wp_mono; [|by apply GetGreenhouseValues_post].
  intros h r Hr. destruct r as [gv|e]; [|by wp_step].
  destruct Hr as (l' & clusters & teams & cluster & -> & Ha & Hc & ->). wp_step.
  exists clusters, teams, cluster. split; [by apply answers_app|]. intros n raw Hn.
  rewrite value_of_Merge; [|by apply greenhouse_list_NoDup|].
  - by rewrite value_of_greenhouse_list, Hn.
  - by apply Forall_forall, greenhouse_list_set.
Qed.
End properties.

(** ** A concrete instance *)
Module ValuesRun.
#[local] Instance name_le_dec : RelDecision name_le.
Proof. intros v v'. unfold name_le. apply _. Defined.
#[local] Instance sort_merge : SortByName := merge_sort name_le.
Lemma name_le_total : Total name_le.
Proof. intros v v'. unfold name_le. apply (total String.le). Qed.
#[local] Instance sort_merge_laws : SortByNameLaws.
Proof.
  split; intros l; unfold sort_by_name, sort_merge.
  - apply merge_sort_Permutation.
  - apply Sorted_merge_sort, name_le_total.
Qed.

Definition replicas : PluginOption := mk_option "replicas" (Some "1") "" "" false "int" "".
Definition image : PluginOption := mk_option "image" None "" "" true "string" "".
Definition by_expression : list PluginOptionValue :=
  [mk_ov "replicas" None None (Some "size(global.greenhouse.clusterNames)");
   mk_ov "image" (Some "x") None None].
Definition org_values : list PluginOptionValue :=
  [plain_value "global.greenhouse.organizationName" "org"].

Example merged_list :
  MergePluginOptionValues (MergePluginAndPluginOptionValueSlice [replicas; image] by_expression)
    org_values =
  [mk_ov "image" (Some "x") None None; mk_ov "replicas" None None None;
   plain_value "global.greenhouse.organizationName" "org"].
Proof. vm_compute. reflexivity. Qed.

Lemma merged_option_witness :
  NoDup (names (MergePluginOptionValues
    (MergePluginAndPluginOptionValueSlice [replicas; image] by_expression) org_values)).
Proof.
  apply (merged_option [replicas; image] by_expression org_values "image");
    by apply (bool_decide_eq_true_1 _).
Defined.

Lemma default_hides_expression_witness :
  find_value "replicas" (MergePluginOptionValues
    (MergePluginAndPluginOptionValueSlice [replicas; image] by_expression) org_values) =
  Some (mk_ov "replicas" None None None).
Proof.
  apply (default_hides_expression [replicas; image] by_expression org_values replicas "1"
           (mk_ov "replicas" None None (Some "size(global.greenhouse.clusterNames)")));
    solve [done | by apply (bool_decide_eq_true_1 _)].
Defined.

Definition quoted (s : string) : string := s.
Definition some_plugin : Plugin :=
  mk_plugin (named "p" "org")
    (mk_plugin_spec (mk_pdr "def" PluginDefinitionKind) "" by_expression "c1" "" "" "" [] [])
    empty_plugin_status.
Lemma greenhouse_values_win_witness :
  wp (traced any_answer)
    (GetPluginOptionValuesForPlugin quoted (Prelude.join ",") map_to_list "example.com" some_plugin)
    (fun h r => match r with
       | Err _ => True
       | Ok values => exists clusters teams cluster, answers h clusters teams cluster /\
           forall n raw, greenhouse_value quoted (Prelude.join ",") "example.com" some_plugin clusters teams
                           cluster n = Some raw -> value_of n values = Some raw
       end) [].
Proof. apply greenhouse_values_win. done. Defined.
End ValuesRun.
