(* ===== verification/PluginWebhook.v ===== *)
(** * PluginWebhook: admission of Plugins, PluginPresets and plugin definitions
      ([internal/webhook/v1alpha1/plugin_webhook.go], [pluginpreset_webhook.go],
      [plugindefinition_webhook.go])

    The webhooks run before an object is stored: a mutating one sets defaults, a
    validating one refuses.  Their calls read Teams, definitions, Clusters, Plugins and
    what [HelmValues] reads; [HPanic] is the dereference of a nil pointer.  The rule of
    Helm for release names, [apierrors.NewInvalid] and [encoding/json] are parameters.
    Error texts hold the JSON document where the code prints the decoded value. *)
From S2P Require Import Prelude Effects Conditions Meta ApiTypes ClientUtil WebhookUtil PluginTypes PluginDefinitions OptionTypes HelmValues.

Inductive pluginHookE : Type -> Type :=
| HOwner {X} (e : ownerE X) : pluginHookE X
| HDefinition {X} (e : definitionE X) : pluginHookE X
| HValues {X} (e : valuesE X) : pluginHookE X
| HGetCluster (k : objkey) : pluginHookE (result Cluster)
| HListPlugins (labelKey name namespace : string) : pluginHookE (result (list Plugin))
| HPanic : pluginHookE Empty_set.

Class HookLibs := {
  (** [chartutil.ValidateReleaseName] *)
  chartutil_ValidateReleaseName : string -> option error;
  (** [apierrors.NewInvalid] for an object's name *)
  NewInvalid : string -> list error -> error;
  hook_Marshal : string -> string;
  hook_MarshalList : list string -> string;
  (** the order in which Go ranges over a map *)
  hook_map_order : strmap -> list (string * string);
  (** the size of a [metav1.LabelSelector] *)
  selector_Size : string -> nat
}.

Definition pluginsAllowedInCentralCluster : list string :=
  ["alerts"; "doop"; "heureka"; "kube-monitoring"; "kubeconfig-generator"; "perses";
   "permission-manager"; "repo-guard"; "service-proxy"; "teams2slack"; "thanos"].
Definition VaultPrefix : string := "vault+kvv2:///".
Definition definition_name_path : string := "spec.pluginDefinitionRef.name".
Definition definition_kind_path : string := "spec.pluginDefinitionRef.kind".

Section webhooks.
Context {Libs : HookLibs} {Json : JsonDecoder} {HSort : SortByName}.
Variable DNSDomain : string.
Local Abbreviation P := (prog pluginHookE).
Definition hook_panic {A} : P A := PVis HPanic (fun e : Empty_set => match e with end).
Definition owner_warning {O} `{Object O} (o : O) : P string :=
  translate (fun _ => HOwner) (ValidateLabelOwnedBy o).
Definition owner_warnings (what warn : string) : list string :=
  if negb (bool_decide (warn = "")) then [what +:+ " should have a support-group Team set as its owner"; warn]
  else [].

(** The webhook's own lookup: the text of its errors differs from [common]'s. *)
Definition getPluginDefinitionSpec (plugin : Plugin) : P (result PluginDefinitionSpec) :=
  let ref := PluginDefinitionRef (plugin_Spec plugin) in
  if bool_decide (pdr_Kind ref = PluginDefinitionKind) then
    r ← trigger (HDefinition (GetPluginDefinition (mk_key (GetNamespace plugin) (pdr_Name ref))));
    mret match r with Err e => Err e | Ok pd => Ok (pd_Spec pd) end
  else if bool_decide (pdr_Kind ref = ClusterPluginDefinitionKind) then
    r ← trigger (HDefinition (GetClusterPluginDefinition (mk_key "" (pdr_Name ref))));
    mret match r with Err e => Err e | Ok cpd => Ok (cpd_Spec cpd) end
  else mret (Err (new_error "unsupported PluginDefinition kind")).

(** ** Defaults *)
Definition with_kind (plugin : Plugin) : Plugin :=
  let s := plugin_Spec plugin in
  let ref := PluginDefinitionRef s in
  if bool_decide (pdr_Kind ref = "") then
    mk_plugin (plugin_meta plugin)
      (mk_plugin_spec (mk_pdr (pdr_Name ref) PluginDefinitionKind) (DisplayName s) (OptionValues s)
         (plugin_ClusterName s) (ReleaseNamespace s) (ReleaseName s) (plugin_DeletionPolicy s)
         (plugin_WaitFor s) (IgnoreDifferences s)) (plugin_Status plugin)
  else plugin.
(** The labels a definition is found by. *)
Definition definition_labels (ref : PluginDefinitionReference) (labels : strmap) : strmap :=
  if bool_decide (pdr_Kind ref = PluginDefinitionKind) then
    <[LabelKeyPluginDefinition := pdr_Name ref]> (delete LabelKeyClusterPluginDefinition labels)
  else if bool_decide (pdr_Kind ref = ClusterPluginDefinitionKind) then
    <[LabelKeyClusterPluginDefinition := pdr_Name ref]> (delete LabelKeyPluginDefinition labels)
  else labels.
Definition with_plugin_labels (plugin : Plugin) : Plugin :=
  SetLabels (definition_labels (PluginDefinitionRef (plugin_Spec plugin))
    (delete LabelKeyPlugin
       (<[LabelKeyCluster := plugin_ClusterName (plugin_Spec plugin)]> (GetLabels plugin)))) plugin.
Definition with_display_name (plugin : Plugin) : Plugin :=
  let s := plugin_Spec plugin in
  if bool_decide (DisplayName s = "") then
    mk_plugin (plugin_meta plugin)
      (mk_plugin_spec (PluginDefinitionRef s) (trim_space (ReplaceAll (GetName plugin) "-" " "))
         (OptionValues s) (plugin_ClusterName s) (ReleaseNamespace s) (ReleaseName s)
         (plugin_DeletionPolicy s) (plugin_WaitFor s) (IgnoreDifferences s)) (plugin_Status plugin)
  else plugin.
Definition with_option_values (ovs : list PluginOptionValue) (plugin : Plugin) : Plugin :=
  let s := plugin_Spec plugin in
  mk_plugin (plugin_meta plugin)
    (mk_plugin_spec (PluginDefinitionRef s) (DisplayName s) ovs (plugin_ClusterName s)
       (ReleaseNamespace s) (ReleaseName s) (plugin_DeletionPolicy s) (plugin_WaitFor s)
       (IgnoreDifferences s)) (plugin_Status plugin).
Definition with_release (namespace name : string) (plugin : Plugin) : Plugin :=
  let s := plugin_Spec plugin in
  mk_plugin (plugin_meta plugin)
    (mk_plugin_spec (PluginDefinitionRef s) (DisplayName s) (OptionValues s) (plugin_ClusterName s)
       namespace name (plugin_DeletionPolicy s) (plugin_WaitFor s) (IgnoreDifferences s))
    (plugin_Status plugin).
(** The end of [DefaultPlugin]: namespace and name of the release. *)
Definition release_namespace (plugin : Plugin) : string :=
  if bool_decide (ReleaseNamespace (plugin_Spec plugin) = "") then GetNamespace plugin
  else ReleaseNamespace (plugin_Spec plugin).
Definition release_name (spec : PluginDefinitionSpec) (plugin : Plugin) : result string :=
  if negb (bool_decide (ReleaseName (plugin_Spec plugin) = "")) then Ok (ReleaseName (plugin_Spec plugin))
  else match plugin_HelmReleaseStatus (plugin_Status plugin) with
       | Some _ => Ok (GetName plugin)
       | None =>
           match pd_HelmChart spec with
           | None => Err (internal_error definition_name_path
               ("PluginDefinition " +:+ pdr_Name (PluginDefinitionRef (plugin_Spec plugin)) +:+
                " does not have a HelmChart"))
           | Some chart => Ok (hcr_Name chart)
           end
       end.
Definition default_release (spec : PluginDefinitionSpec) (plugin : Plugin) : Plugin * option error :=
  if bool_decide (pd_UIApplication spec <> None) && bool_decide (pd_HelmChart spec = None) then (plugin, None)
  else match release_name spec plugin with
       | Err e => (with_release (release_namespace plugin) (ReleaseName (plugin_Spec plugin)) plugin, Some e)
       | Ok name => (with_release (release_namespace plugin) name plugin, None)
       end.
Definition DefaultPlugin (plugin : Plugin) : P (Plugin * option error) :=
  if bool_decide (pdr_Name (PluginDefinitionRef (plugin_Spec plugin)) = "") then
    mret (plugin, Some (required definition_name_path "PluginDefinition name must be set"))
  else
    let plugin := with_kind plugin in
    r ← getPluginDefinitionSpec plugin;
    match r with
    | Err e =>
        mret (plugin, Some (if contains (err_msg e) "unsupported"
          then invalid definition_kind_path (pdr_Kind (PluginDefinitionRef (plugin_Spec plugin)))
                 "unsupported PluginDefinition kind"
          else e))
    | Ok pluginDefinitionSpec =>
        let plugin := with_display_name (with_plugin_labels plugin) in
        ovs ← translate (fun _ => HValues)
          (GetPluginOptionValuesForPlugin hook_Marshal hook_MarshalList hook_map_order DNSDomain plugin);
        match ovs with
        | Err e => mret (plugin, Some e)
        | Ok optionValues => mret (default_release pluginDefinitionSpec (with_option_values optionValues plugin))
        end
    end.

(** ** Option values *)
Definition hasExactlyOneValueSource (val : PluginOptionValue) : bool :=
  let sources := [bool_decide (ov_Value val <> None); bool_decide (ov_ValueFrom val <> None);
                  bool_decide (ov_Expression val <> None)] in
  (length (List.filter (fun isSet => isSet) sources) =? 1)%nat.

(** A value of an option of type secret; [ValueFrom.Secret] is dereferenced. *)
Definition validate_secret_value (path : string) (val : PluginOptionValue) : outcome (list error) :=
  match ov_Value val, ov_ValueFrom val with
  | Some raw, _ =>
      let decoded := decode Unmarshal_string raw in
      let valStr := match decoded with Ok s => s | Err _ => "" end in
      Returns
        ((match decoded with Err e => [type_invalid (path +:+ ".value") "*****" (err_msg e)] | Ok _ => [] end) ++
         (if negb (contains valStr VaultPrefix) then
            [type_invalid (path +:+ ".value") "*****"
               ("optionValue " +:+ ov_Name val +:+
                " of type secret without secret reference must use value with vault reference prefixed by schema " +:+
                VaultPrefix)]
          else []))
  | None, Some vf =>
      match vf_Secret vf with
      | None => Panics
      | Some secret =>
          if bool_decide (skr_Name secret = "") then
            Returns [required (path +:+ ".valueFrom.name")
              ("optionValue " +:+ ov_Name val +:+ " of type secret must reference a secret by name")]
          else if bool_decide (skr_Key secret = "") then
            Returns [required (path +:+ ".valueFrom.key")
              ("optionValue " +:+ ov_Name val +:+ " of type secret must reference a key in a secret")]
          else Returns []
      end
  | None, None => Returns []
  end.
(** One value that bears the name of the option. *)
Definition validate_value (pluginOption : PluginOption) (path : string) (val : PluginOptionValue) :
    outcome (list error) :=
  if negb (hasExactlyOneValueSource val) then
    Returns [required path ("must provide exactly one of value, valueFrom, or expression for value " +:+ ov_Name val)]
  else if bool_decide (opt_Type pluginOption = PluginOptionTypeSecret) then validate_secret_value path val
  else match ov_Value val with
       | None => Returns []
       | Some raw =>
           match IsValidValue pluginOption raw with
           | None => Returns []
           | Some e => Returns [invalid (path +:+ ".value") raw (err_msg e)]
           end
       end.
(** The loop over the values, from index [idx]: the errors and whether the option is set. *)
Fixpoint validate_option (pluginOption : PluginOption) (path : string) (idx : nat)
    (optionValues : list PluginOptionValue) : outcome (list error * bool) :=
  match optionValues with
  | [] => Returns ([], false)
  | val :: rest =>
      if negb (bool_decide (opt_Name pluginOption = ov_Name val))
      then validate_option pluginOption path (S idx) rest
      else
        errs ← validate_value pluginOption (at_index path idx) val;
        '(errs', _) ← validate_option pluginOption path (S idx) rest;
        Returns (errs ++ errs', true)
  end.
Fixpoint validate_options (options : list PluginOption) (optionValues : list PluginOptionValue)
    (pluginDefinitionName : string) (checkRequiredOptions : bool) (path : string) : outcome (list error) :=
  match options with
  | [] => Returns []
  | pluginOption :: rest =>
      '(errs, isOptionValueSet) ← validate_option pluginOption path 0 optionValues;
      errs' ← validate_options rest optionValues pluginDefinitionName checkRequiredOptions path;
      Returns (errs ++
        (if checkRequiredOptions && opt_Required pluginOption && negb isOptionValueSet then
           [required path ("Option '" +:+ opt_Name pluginOption +:+ "' is required by PluginDefinition '" +:+
                           pluginDefinitionName +:+ "'")]
         else []) ++ errs')
  end.
Definition validatePluginOptionValues (optionValues : list PluginOptionValue) (pluginDefinitionName : string)
    (pluginDefinitionSpec : PluginDefinitionSpec) (checkRequiredOptions : bool) (optionsFieldPath : string) :
    outcome (list error) :=
  validate_options (pd_Options pluginDefinitionSpec) optionValues pluginDefinitionName
    checkRequiredOptions optionsFieldPath.

(** ** Dependencies *)

(** The loop of [validateWaitForPluginRefs] from index [i], with the names and presets
    seen so far and where they were seen first. *)
Fixpoint validate_wait_for (i : nat) (items : list WaitForItem) (isPluginInCentralCluster : bool)
    (seenPluginNames seenPluginPresets : gmap string nat) : list error :=
  match items with
  | [] => []
  | item :: rest =>
      let name := pr_Name (wf_PluginRef item) in
      let preset := pr_PluginPreset (wf_PluginRef item) in
      let path i := at_index "spec.waitFor" i +:+ ".pluginRef" in
      let next := validate_wait_for (S i) rest isPluginInCentralCluster in
      if negb (bool_decide (name = "")) && negb (bool_decide (preset = "")) then
        invalid (path i +:+ ".name") name
          "pluginRef.name and pluginRef.pluginPreset are mutually exclusive" ::
        next seenPluginNames seenPluginPresets
      else if negb (bool_decide (name = "")) then
        match seenPluginNames !! name with
        | Some first =>
            duplicate (path first +:+ ".name") name :: duplicate (path i +:+ ".name") name ::
            next seenPluginNames seenPluginPresets
        | None => next (<[name := i]> seenPluginNames) seenPluginPresets
        end
      else if negb (bool_decide (preset = "")) then
        if isPluginInCentralCluster then
          invalid (path i +:+ ".pluginPreset") preset
            "plugins running in the central cluster cannot have PluginPreset dependencies" ::
          next seenPluginNames seenPluginPresets
        else
          match seenPluginPresets !! preset with
          | Some first =>
              duplicate (path first +:+ ".pluginPreset") preset :: duplicate (path i +:+ ".pluginPreset") preset ::
              next seenPluginNames seenPluginPresets
          | None => next seenPluginNames (<[preset := i]> seenPluginPresets)
          end
      else required (path i) "either pluginRef.name or pluginRef.pluginPreset must be set" ::
           next seenPluginNames seenPluginPresets
  end.
Definition validateWaitForPluginRefs (items : list WaitForItem) (isPluginInCentralCluster : bool) : list error :=
  validate_wait_for 0 items isPluginInCentralCluster ∅ ∅.

(** ** Plugins *)
Definition validateReleaseName (name : string) : option error :=
  if bool_decide (name = "") then None else chartutil_ValidateReleaseName name.
Definition release_name_errors (path name : string) : list error :=
  match validateReleaseName name with Some e => [invalid path name (err_msg e)] | None => [] end.

Definition validatePluginForCluster (plugin : Plugin) (pluginDefinitionSpec : PluginDefinitionSpec) :
    P (option error) :=
  let s := plugin_Spec plugin in
  if bool_decide (pd_HelmChart pluginDefinitionSpec = None) || bool_decide (GetNamespace plugin = "greenhouse")
  then mret None
  else if bool_decide (plugin_ClusterName s = "") &&
          slices_contains pluginsAllowedInCentralCluster (pdr_Name (PluginDefinitionRef s)) then
    mret (if negb (bool_decide (ReleaseNamespace s = GetNamespace plugin)) then
      Some (forbidden "spec.releaseNamespace"
        "plugins running in the central cluster can only be deployed in the same namespace as the plugin")
      else None)
  else if bool_decide (plugin_ClusterName s = "") then
    mret (Some (required "spec.clusterName" "the clusterName must be set"))
  else
    r ← trigger (HGetCluster (mk_key (GetNamespace plugin) (plugin_ClusterName s)));
    mret match r with
    | Ok _ => None
    | Err e =>
        if is_not_found (Some e) then Some (field_not_found "spec.clusterName" (plugin_ClusterName s))
        else Some (internal_error "spec.clusterName" (err_msg e))
    end.

(** The error for a definition that cannot be read. *)
Definition definition_error (plugin : Plugin) (e : error) : error :=
  let ref := PluginDefinitionRef (plugin_Spec plugin) in
  if is_not_found (Some e) then
    invalid definition_name_path (pdr_Name ref)
      ("PluginDefinition " +:+ pdr_Name ref +:+ " does not exist in namespace " +:+ GetNamespace plugin)
  else if contains (err_msg e) "unsupported" then
    invalid definition_kind_path (pdr_Kind ref) "unsupported PluginDefinitionKind"
  else invalid definition_name_path (pdr_Name ref)
         ("PluginDefinition " +:+ pdr_Name ref +:+ " could not be retrieved from namespace " +:+
          GetNamespace plugin +:+ ": " +:+ err_msg e).

Definition ValidateCreatePlugin (plugin : Plugin) : P (list string * option error) :=
  warn ← owner_warning plugin;
  let allWarns := owner_warnings "Plugin" warn in
  let s := plugin_Spec plugin in
  let ref := PluginDefinitionRef s in
  let allErrs :=
    (if bool_decide (pdr_Name ref = "")
     then [invalid definition_name_path (pdr_Name ref) "PluginDefinition name must be set"] else []) ++
    (if bool_decide (pdr_Kind ref = "")
     then [invalid definition_kind_path (pdr_Kind ref) "PluginDefinition kind must be set"] else []) ++
    release_name_errors "spec.releaseName" (ReleaseName s) ++
    validateWaitForPluginRefs (plugin_WaitFor s) (bool_decide (plugin_ClusterName s = "")) in
  if (0 <? length allErrs)%nat then mret (allWarns, Some (NewInvalid (GetName plugin) allErrs))
  else
    r ← getPluginDefinitionSpec plugin;
    match r with
    | Err e => mret (allWarns, Some (definition_error plugin e))
    | Ok pluginDefinitionSpec =>
        match validatePluginOptionValues (OptionValues s) (pdr_Name ref) pluginDefinitionSpec true
                "spec.optionValues" with
        | Panics => hook_panic
        | Returns errList =>
            if (0 <? length errList)%nat then mret (allWarns, Some (NewInvalid (GetName plugin) errList))
            else
              err ← validatePluginForCluster plugin pluginDefinitionSpec;
              mret (allWarns, err)
        end
    end.

Definition validateOwnerReference (plugin : Plugin) : list string :=
  match GetOwnerReference plugin "PluginPreset" with
  | Some ref => ["Plugin is managed by PluginPreset '" +:+ ref_name ref +:+
                 "'. Plugin will be reconciled to the desired state specified in the PluginPreset."]
  | None => []
  end.
(** [validation.ValidateImmutableField] of strings *)
Definition immutable_errors (newValue oldValue path : string) : list error :=
  if negb (bool_decide (newValue = oldValue)) then [invalid path newValue "field is immutable"] else [].

Definition ValidateUpdatePlugin (oldPlugin plugin : Plugin) : P (list string * option error) :=
  warn ← owner_warning plugin;
  let allWarns := validateOwnerReference oldPlugin ++ owner_warnings "Plugin" warn in
  let s := plugin_Spec plugin in
  let old := plugin_Spec oldPlugin in
  let allErrs := immutable_errors (plugin_ClusterName old) (plugin_ClusterName s) "spec.clusterName" ++
    validateWaitForPluginRefs (plugin_WaitFor s) (bool_decide (plugin_ClusterName s = "")) in
  r ← getPluginDefinitionSpec plugin;
  match r with
  | Err e => mret (allWarns, Some (definition_error plugin e))
  | Ok pluginDefinitionSpec =>
      let allErrs := allErrs ++
        (if negb (bool_decide (ReleaseNamespace old = ""))
         then immutable_errors (ReleaseNamespace old) (ReleaseNamespace s) "spec.releaseNamespace" else []) ++
        release_name_errors "spec.releaseName" (ReleaseName s) in
      match validatePluginOptionValues (OptionValues s) (pdr_Name (PluginDefinitionRef s))
              pluginDefinitionSpec true "spec.optionValues" with
      | Panics => hook_panic
      | Returns errList =>
          if (0 <? length errList)%nat then mret (allWarns, Some (NewInvalid (GetName plugin) errList))
          else
            let allErrs := allErrs ++
              (if bool_decide (ReleaseName old = "") &&
                  bool_decide (plugin_HelmReleaseStatus (plugin_Status plugin) <> None) &&
                  bool_decide (pd_UIApplication pluginDefinitionSpec = None) &&
                  negb (bool_decide (GetName plugin = ReleaseName s))
               then [forbidden "spec.releaseName" "ReleaseName for existing Plugin cannot be changed"] else []) in
            mret (allWarns, if (0 <? length allErrs)%nat then Some (NewInvalid (GetName plugin) allErrs) else None)
      end
  end.
Definition ValidateDeletePlugin (plugin : Plugin) : P (list string * option error) := mret ([], None).
Definition PluginWebhook : WebhookFuncs pluginHookE Plugin :=
  mk_webhook (Some DefaultPlugin) (Some ValidateCreatePlugin) (Some ValidateUpdatePlugin) (Some ValidateDeletePlugin).

(** ** PluginPresets *)
Definition DefaultPluginPreset (preset : PluginPreset) : P (PluginPreset * option error) :=
  let s := preset_Spec preset in
  let p := preset_Plugin s in
  let ref := pps_PluginDefinitionRef p in
  let ref := if bool_decide (pdr_Kind ref = "") then mk_pdr (pdr_Name ref) PluginDefinitionKind else ref in
  let preset := mk_preset (preset_meta preset)
    (mk_preset_spec
       (mk_preset_plugin_spec ref (pps_DisplayName p) (pps_OptionValues p) (pps_ReleaseNamespace p)
          (pps_ReleaseName p) (pps_DeletionPolicy p) (pps_IgnoreDifferences p))
       (preset_ClusterSelector s) (ClusterOptionOverrides s) (preset_WaitFor s) (preset_DeletionPolicy s))
    (preset_Status preset) in
  mret (SetLabels (definition_labels ref (GetLabels preset)) preset, None).
Definition ValidateCreatePluginPreset (preset : PluginPreset) : P (list string * option error) :=
  warn ← owner_warning preset;
  let allWarns := owner_warnings "PluginPreset" warn in
  let s := preset_Spec preset in
  let ref := pps_PluginDefinitionRef (preset_Plugin s) in
  let allErrs :=
    (if bool_decide (pdr_Name ref = "")
     then [invalid "spec.plugin.pluginDefinitionRef.name" (pdr_Name ref) "PluginDefinition name must be set"] else []) ++
    (if bool_decide (pdr_Kind ref = "")
     then [invalid "spec.plugin.pluginDefinitionRef.kind" (pdr_Kind ref) "PluginDefinition kind must be set"] else []) ++
    (if (selector_Size (preset_ClusterSelector s) =? 0)%nat
     then [invalid "spec.clusterSelector" (preset_ClusterSelector s) "ClusterSelector must be set"] else []) ++
    release_name_errors "spec.plugin.releaseName" (pps_ReleaseName (preset_Plugin s)) ++
    validateWaitForPluginRefs (preset_WaitFor s) false in
  mret (allWarns, if (0 <? length allErrs)%nat then Some (NewInvalid (GetName preset) allErrs) else None).
Definition ValidateUpdatePluginPreset (oldPreset preset : PluginPreset) : P (list string * option error) :=
  warn ← owner_warning preset;
  let allErrs := validateWaitForPluginRefs (preset_WaitFor (preset_Spec preset)) false in
  mret (owner_warnings "PluginPreset" warn,
        if (0 <? length allErrs)%nat then Some (NewInvalid (GetName preset) allErrs) else None).
Definition PluginPresetWebhook : WebhookFuncs pluginHookE PluginPreset :=
  mk_webhook (Some DefaultPluginPreset) (Some ValidateCreatePluginPreset) (Some ValidateUpdatePluginPreset) None.

(** Not called by the webhook: the options of a preset, without the check for required ones. *)
Definition convertPresetToPluginOptionValues (presetValues : list PluginPresetPluginOptionValue) :
    list PluginOptionValue :=
  (fun pv => mk_ov (pov_Name pv) (pov_Value pv)
     ((fun vf => mk_vfs (pvf_Secret vf) None) <$> pov_ValueFrom pv) (pov_Expression pv)) <$> presetValues.
Fixpoint validate_overrides (idx : nat) (overrides : list ClusterOptionOverride) (pluginDefinitionName : string)
    (spec : PluginDefinitionSpec) : outcome (list error) :=
  match overrides with
  | [] => Returns []
  | o :: rest =>
      errs ← validatePluginOptionValues (convertPresetToPluginOptionValues (Overrides o)) pluginDefinitionName
               spec false (at_index "spec.clusterOptionOverrides" idx +:+ ".overrides");
      errs' ← validate_overrides (S idx) rest pluginDefinitionName spec;
      Returns (errs ++ errs')
  end.
Definition validatePluginOptionValuesForPreset (preset : PluginPreset) (pluginDefinitionName : string)
    (spec : PluginDefinitionSpec) : outcome (list error) :=
  errs ← validatePluginOptionValues
    (convertPresetToPluginOptionValues (pps_OptionValues (preset_Plugin (preset_Spec preset))))
    pluginDefinitionName spec false "spec.plugin.optionValues";
  errs' ← validate_overrides 0 (ClusterOptionOverrides (preset_Spec preset)) pluginDefinitionName spec;
  Returns (errs ++ errs').

(** ** Plugin definitions *)
Definition validatePluginDefinitionMustSpecifyVersion (spec : PluginDefinitionSpec) : option error :=
  if bool_decide (pd_Version spec = "") then
    Some (required "spec.version" "PluginDefinition without spec.version is invalid.")
  else None.
Definition validatePluginDefinitionMustSpecifyHelmChartOrUIApplication (spec : PluginDefinitionSpec)
    (name : string) : option error :=
  if bool_decide (pd_HelmChart spec = None) && bool_decide (pd_UIApplication spec = None) then
    Some (NewInvalid name [required "spec.helmChart.uiApplication"
      "A PluginDefinition without both spec.helmChart and spec.uiApplication is invalid."])
  else None.
Fixpoint validate_defaults (options : list PluginOption) (name : string) : option error :=
  match options with
  | [] => None
  | option :: rest =>
      match IsValid option with
      | Some _ => Some (NewInvalid name [invalid "spec.options.name" (opt_Name option)
          "A PluginOption Default must match the specified Type, and defaults are not allowed in PluginOptions of the 'Secret' type."])
      | None => validate_defaults rest name
      end
  end.
Definition validatePluginDefinitionOptionValueAndType (spec : PluginDefinitionSpec) (name : string) : option error :=
  validate_defaults (pd_Options spec) name.
Definition validateCreate (spec : PluginDefinitionSpec) (name : string) : option error :=
  match validatePluginDefinitionMustSpecifyHelmChartOrUIApplication spec name with
  | Some e => Some e
  | None =>
      match validatePluginDefinitionMustSpecifyVersion spec with
      | Some e => Some e
      | None => validatePluginDefinitionOptionValueAndType spec name
      end
  end.
Definition validateUpdate (spec : PluginDefinitionSpec) (name : string) : option error :=
  match validatePluginDefinitionMustSpecifyHelmChartOrUIApplication spec name with
  | Some e => Some e
  | None =>
      match validatePluginDefinitionMustSpecifyVersion spec with
      | Some e => Some e
      | None => validatePluginDefinitionOptionValueAndType spec name
      end
  end.
Definition validateDelete (labelKey name namespace : string) : P (list string * option error) :=
  r ← trigger (HListPlugins labelKey name namespace);
  mret ([], match r with
  | Err e => ignore_not_found (Some e)
  | Ok [] => None
  | Ok (p :: rest) =>
      let pluginName := GetName p +:+
        (if (0 <? length rest)%nat then " and " +:+ pretty.pretty (length rest) +:+ " more" else "") in
      Some (new_error ("PluginDefinition " +:+ name +:+ " is still in use by Plugin " +:+ pluginName))
  end).
Definition PluginDefinitionWebhook : WebhookFuncs pluginHookE PluginDefinition :=
  mk_webhook (Some (fun pd => mret (pd, None)))
    (Some (fun pd => mret ([], validateCreate (pd_Spec pd) (GetName pd))))
    (Some (fun _ pd => mret ([], validateUpdate (pd_Spec pd) (GetName pd))))
    (Some (fun pd => validateDelete LabelKeyPluginDefinition (GetName pd) (GetNamespace pd))).
Definition ClusterPluginDefinitionWebhook : WebhookFuncs pluginHookE ClusterPluginDefinition :=
  mk_webhook (Some (fun cpd => mret (cpd, None)))
    (Some (fun cpd => mret ([], validateCreate (cpd_Spec cpd) (GetName cpd))))
    (Some (fun _ cpd => mret ([], validateUpdate (cpd_Spec cpd) (GetName cpd))))
    (Some (fun cpd => validateDelete LabelKeyClusterPluginDefinition (GetName cpd) "")).
End webhooks.

(** ** What the validation of option values accepts *)
Section values_spec.
Context {Json : JsonDecoder}.

Definition one_source (val : PluginOptionValue) : Prop :=
  match ov_Value val, ov_ValueFrom val, ov_Expression val with
  | Some _, None, None | None, Some _, None | None, None, Some _ => True
  | _, _, _ => False
  end.
Lemma hasExactlyOneValueSource_spec val : hasExactlyOneValueSource val = true <-> one_source val.
Proof.
  unfold hasExactlyOneValueSource, one_source.
  by destruct (ov_Value val), (ov_ValueFrom val), (ov_Expression val).
Qed.
(** A value fits an option: a secret comes from Vault or from a key of a Secret, every
    other type is that of the document; what an expression yields is not checked. *)
Definition value_fits (o : PluginOption) (val : PluginOptionValue) : Prop :=
  one_source val /\
  if bool_decide (opt_Type o = PluginOptionTypeSecret) then
    match ov_Value val, ov_ValueFrom val with
    | Some raw, _ => exists s, decode Unmarshal_string raw = Ok s /\ contains s VaultPrefix = true
    | None, Some vf => exists secret, vf_Secret vf = Some secret /\ skr_Name secret <> "" /\ skr_Key secret <> ""
    | None, None => True
    end
  else match ov_Value val with Some raw => IsValidValue o raw = None | None => True end.
(** The reference to an object instead of a Secret, for an option of type secret. *)
Definition value_crashes (o : PluginOption) (val : PluginOptionValue) : Prop :=
  opt_Type o = PluginOptionTypeSecret /\ one_source val /\
  exists vf, ov_ValueFrom val = Some vf /\ vf_Secret vf = None.

Lemma validate_value_spec o path val :
  match validate_value o path val with
  | Panics => value_crashes o val
  | Returns errs => ~ value_crashes o val /\ (errs = [] <-> value_fits o val)
  end.
Proof.
  unfold validate_value, value_fits, value_crashes. pose proof (hasExactlyOneValueSource_spec val) as H1.
  destruct (hasExactlyOneValueSource val); cbn [negb].
  2:{ split; [|split; [done|]]; [intros (_ & H & _)|intros [H _]]; apply H1 in H; done. }
  assert (one_source val) as Ho by by apply H1. clear H1.
  case_bool_decide as Ht.
  - unfold validate_secret_value. pose proof Ho as Hs. unfold one_source in Hs.
    destruct (ov_Value val) as [raw|], (ov_ValueFrom val) as [vf|]; try done.
    + split; [by intros (_ & _ & ? & [=] & _)|].
      destruct (decode Unmarshal_string raw) as [s|e].
      * destruct (contains s VaultPrefix) eqn:Hc; cbn; split; try done; [by eauto|].
        intros (_ & s' & [= <-] & ?). congruence.
      * cbn. split; [done|]. by intros (_ & s' & [=] & _).
    + destruct (vf_Secret vf) as [secret|] eqn:Hsec; [|by eauto].
      assert (~ (opt_Type o = PluginOptionTypeSecret /\ one_source val /\
        exists vf0, Some vf = Some vf0 /\ vf_Secret vf0 = None)) by
        (intros (_ & _ & ? & [= <-] & ?); congruence).
      repeat case_bool_decide; (split; [done|]); split; try done;
        try (intros (_ & ? & [= <-] & ? & ?); done).
      intros _. by eauto 6.
    + split; [by intros (_ & _ & ? & [=] & _)|done].
  - assert (~ (opt_Type o = PluginOptionTypeSecret /\ one_source val /\
              exists vf, ov_ValueFrom val = Some vf /\ vf_Secret vf = None)) by by intros [? _].
    destruct (ov_Value val) as [raw|]; [|done].
    destruct (IsValidValue o raw); (split; [done|]); split; try done. by intros [_ ?].
Qed.
Lemma validate_option_spec o path idx ovs :
  match validate_option o path idx ovs with
  | Panics => exists val, val ∈ ovs /\ ov_Name val = opt_Name o /\ value_crashes o val
  | Returns (errs, isSet) =>
      (forall val, val ∈ ovs -> ov_Name val = opt_Name o -> ~ value_crashes o val) /\
      (errs = [] <-> forall val, val ∈ ovs -> ov_Name val = opt_Name o -> value_fits o val) /\
      (isSet = true <-> opt_Name o ∈ names ovs)
  end.
Proof.
  revert idx. induction ovs as [|val ovs IH]; intros idx; cbn [validate_option].
  { split_and!; [set_solver|split; [set_solver|done]|split; [done|set_solver]]. }
  case_bool_decide as Hn; cbn [negb].
  - pose proof (validate_value_spec o (at_index path idx) val) as Hv.
    destruct (validate_value _ _ _) as [errs|]; cbn [mbind outcome_mbind]; [|exists val; set_solver].
    specialize (IH (S idx)). destruct (validate_option _ _ _ ovs) as [[errs' isSet]|]; cbn.
    + destruct Hv as [Hc Hf], IH as (Hc' & Hf' & _). split_and!.
      * intros v [->|Hin]%elem_of_cons; [done|by apply Hc'].
      * rewrite app_nil, Hf, Hf'. setoid_rewrite elem_of_cons. naive_solver.
      * split; [|done]. intros _. rewrite Hn. csimpl. set_solver.
    + destruct IH as (v & Hin & ? & ?). exists v. set_solver.
  - specialize (IH (S idx)). destruct (validate_option _ _ _ ovs) as [[errs' isSet]|].
    + destruct IH as (Hc & Hf & Hs). split_and!.
      * intros v [->|Hin]%elem_of_cons; [done|by apply Hc].
      * rewrite Hf. setoid_rewrite elem_of_cons. naive_solver.
      * rewrite Hs. csimpl. rewrite elem_of_cons. naive_solver.
    + destruct IH as (v & Hin & ? & ?). exists v. set_solver.
Qed.

(** C16: what the webhooks accept as option values.  Against a definition, the check
    returns no error exactly when every value that bears the name of an option has one
    source and fits the option's type, and every required option is set; values of
    other names are not looked at.  It crashes exactly when some option of type secret
    is given a reference to an object instead of a Secret. *)
Theorem validatePluginOptionValues_spec ovs name spec checkRequired path :
  match validatePluginOptionValues ovs name spec checkRequired path with
  | Panics => exists o val, o ∈ pd_Options spec /\ val ∈ ovs /\ ov_Name val = opt_Name o /\ value_crashes o val
  | Returns errs =>
      (forall o val, o ∈ pd_Options spec -> val ∈ ovs -> ov_Name val = opt_Name o -> ~ value_crashes o val) /\
      (errs = [] <-> forall o, o ∈ pd_Options spec ->
         (forall val, val ∈ ovs -> ov_Name val = opt_Name o -> value_fits o val) /\
         (checkRequired = true -> opt_Required o = true -> opt_Name o ∈ names ovs))
  end.
Proof.
  unfold validatePluginOptionValues. induction (pd_Options spec) as [|o options IH]; cbn [validate_options].
  { split; [set_solver|]. split; [set_solver|done]. }
  pose proof (validate_option_spec o path 0 ovs) as Ho.
  destruct (validate_option _ _ _ _) as [[errs isSet]|]; cbn [mbind outcome_mbind].
  2:{ destruct Ho as (val & ? & ? & ?). exists o, val. set_solver. }
  destruct Ho as (Hc & Hf & Hs).
  destruct (validate_options options _ _ _ _) as [errs'|]; cbn.
  2:{ destruct IH as (o' & val & ? & ? & ? & ?). exists o', val. set_solver. }
  destruct IH as [Hc' Hf']. split.
  { intros o' val [->|Hin]%elem_of_cons; [by apply Hc|by apply Hc']. }
  assert ((if checkRequired && opt_Required o && negb isSet then
             [required path ("Option '" +:+ opt_Name o +:+ "' is required by PluginDefinition '" +:+ name +:+ "'")]
           else []) = [] <->
          (checkRequired = true -> opt_Required o = true -> opt_Name o ∈ names ovs)) as Hr.
  { rewrite <-Hs. destruct checkRequired, (opt_Required o), isSet; cbn; naive_solver. }
  rewrite !app_nil, Hf, Hr, Hf'. setoid_rewrite elem_of_cons. naive_solver.
Qed.
End values_spec.

(** ** Dependencies *)
Definition item_ok (central : bool) (item : WaitForItem) : Prop :=
  let r := wf_PluginRef item in
  pr_Name r <> "" /\ pr_PluginPreset r = "" \/
  pr_Name r = "" /\ pr_PluginPreset r <> "" /\ central = false.
Definition not_blank (s : string) : bool := negb (bool_decide (s = "")).
Definition waited_names (items : list WaitForItem) : list string :=
  List.filter not_blank ((fun item => pr_Name (wf_PluginRef item)) <$> items).
Definition waited_presets (items : list WaitForItem) : list string :=
  List.filter not_blank ((fun item => pr_PluginPreset (wf_PluginRef item)) <$> items).
Definition unseen (l : list string) (seen : gmap string nat) : Prop :=
  NoDup l /\ forall s, s ∈ l -> seen !! s = None.

Lemma unseen_cons s l seen i :
  unseen (s :: l) seen <-> seen !! s = None /\ unseen l (<[s := i]> seen).
Proof.
  unfold unseen. rewrite NoDup_cons. split.
  - intros [[Hs Hl] H]. split; [apply H; set_solver|]. split; [done|].
    intros t Ht. rewrite lookup_insert_ne by (intros ->; done). apply H. set_solver.
  - intros [Hs [Hl H]]. split; [split; [|done]|].
    + intros Hin. specialize (H s Hin). by rewrite lookup_insert_eq in H.
    + intros t [->|Ht]%elem_of_cons; [done|]. specialize (H t Ht).
      by apply lookup_insert_None in H as [? _].
Qed.
Lemma waited_names_cons item items : waited_names (item :: items) =
  if bool_decide (pr_Name (wf_PluginRef item) = "") then waited_names items
  else pr_Name (wf_PluginRef item) :: waited_names items.
Proof. unfold waited_names. csimpl. unfold not_blank at 1. by case_bool_decide. Qed.
Lemma waited_presets_cons item items : waited_presets (item :: items) =
  if bool_decide (pr_PluginPreset (wf_PluginRef item) = "") then waited_presets items
  else pr_PluginPreset (wf_PluginRef item) :: waited_presets items.
Proof. unfold waited_presets. csimpl. unfold not_blank at 1. by case_bool_decide. Qed.
Lemma validate_wait_for_nil i items central sn sp :
  validate_wait_for i items central sn sp = [] <->
  Forall (item_ok central) items /\ unseen (waited_names items) sn /\ unseen (waited_presets items) sp.
Proof.
  revert i sn sp. induction items as [|item items IH]; intros i sn sp; cbn [validate_wait_for].
  { split; [intros _|done]. split_and!; [constructor|split; [constructor|set_solver]..]. }
  rewrite Forall_cons, waited_names_cons, waited_presets_cons. unfold item_ok at 1. cbv zeta.
  set (name := pr_Name (wf_PluginRef item)). set (preset := pr_PluginPreset (wf_PluginRef item)).
  destruct (bool_decide_reflect (name = "")) as [Hn|Hn];
    destruct (bool_decide_reflect (preset = "")) as [Hp|Hp]; cbn [negb andb].
  - split; [done|]. by intros [[[[? _]|[_ [? _]]] _] _].
  - destruct central; [split; [done|]; by intros [[[[? _]|(_ & _ & [=])] _] _]|].
    destruct (sp !! preset) eqn:Hs.
    + split; [done|]. intros (_ & _ & [_ H]). rewrite H in Hs by set_solver. done.
    + rewrite IH, (unseen_cons _ _ sp i). tauto.
  - destruct (sn !! name) eqn:Hs.
    + split; [done|]. intros (_ & [_ H] & _). rewrite H in Hs by set_solver. done.
    + rewrite IH, (unseen_cons _ _ sn i). tauto.
  - split; [done|]. by intros [[[[_ ?]|[? _]] _] _].
Qed.
(** The dependencies of a Plugin are accepted exactly when each names a Plugin or a
    preset, not both, no name and no preset appears twice, and a Plugin of the central
    cluster waits for no preset. *)
Lemma validateWaitForPluginRefs_nil items central :
  validateWaitForPluginRefs items central = [] <->
  Forall (item_ok central) items /\ NoDup (waited_names items) /\ NoDup (waited_presets items).
Proof.
  unfold validateWaitForPluginRefs. rewrite validate_wait_for_nil. unfold unseen.
  setoid_rewrite lookup_empty. tauto.
Qed.

(** ** Defaulting *)
Section defaulting.
Context {Libs : HookLibs} {HSort : SortByName} {HSortLaws : SortByNameLaws}.
Variable DNSDomain : string.
Hypothesis map_order_perm : forall m, hook_map_order m ≡ₚ map_to_list m.

(** What the API server holds while the webhooks run. *)
Record view := mk_view {
  view_team : objkey -> result Team;
  view_pd : objkey -> result PluginDefinition;
  view_cpd : objkey -> result ClusterPluginDefinition;
  view_clusters : string -> result (list Cluster);
  view_teams : string -> result (list Team);
  view_cluster : objkey -> result Cluster;
  view_secret : objkey -> result (option strmap);
  view_plugins : list Plugin
}.
Definition answer_definition (v : view) X (e : definitionE X) : option X :=
  match e with
  | GetPluginDefinition k => Some (view_pd v k)
  | GetClusterPluginDefinition k => Some (view_cpd v k)
  end.
Definition answer_values (v : view) X (e : valuesE X) : option X :=
  match e with
  | VDefinition e => answer_definition v _ e
  | VListClusters ns => Some (view_clusters v ns)
  | VListTeams ns => Some (view_teams v ns)
  | VGetCluster k => Some (view_cluster v k)
  | VGetSecret k => Some (view_secret v k)
  end.
Definition selected_plugin (labelKey name namespace : string) (p : Plugin) : bool :=
  bool_decide (GetLabels p !! labelKey = Some name) &&
  (bool_decide (namespace = "") || bool_decide (GetNamespace p = namespace)).
Definition answer (v : view) X (e : pluginHookE X) : option X :=
  match e with
  | HOwner e => match e with OGetTeam k => Some (view_team v k) end
  | HDefinition e => answer_definition v _ e
  | HValues e => answer_values v _ e
  | HGetCluster k => Some (view_cluster v k)
  | HListPlugins key name ns => Some (Ok (List.filter (selected_plugin key name ns) (view_plugins v)))
  | HPanic => None
  end.

(** The definition a reference means. *)
Definition definition_of (v : view) (ref : PluginDefinitionReference) (namespace : string) :
    option PluginDefinitionSpec :=
  if bool_decide (pdr_Kind ref = PluginDefinitionKind) then
    match view_pd v (mk_key namespace (pdr_Name ref)) with Ok pd => Some (pd_Spec pd) | Err _ => None end
  else if bool_decide (pdr_Kind ref = ClusterPluginDefinitionKind) then
    match view_cpd v (mk_key "" (pdr_Name ref)) with Ok cpd => Some (cpd_Spec cpd) | Err _ => None end
  else None.
Lemma eval_getPluginDefinitionSpec v p :
  exists r, eval (answer v) (getPluginDefinitionSpec p) = Some r /\
    match r with
    | Ok spec => definition_of v (PluginDefinitionRef (plugin_Spec p)) (GetNamespace p) = Some spec
    | Err _ => definition_of v (PluginDefinitionRef (plugin_Spec p)) (GetNamespace p) = None
    end.
Proof.
  unfold getPluginDefinitionSpec, definition_of. case_bool_decide.
  - rewrite eval_bind, eval_trigger. cbn. eexists. split; [done|]. by destruct (view_pd _ _).
  - case_bool_decide; [|by eexists].
    rewrite eval_bind, eval_trigger. cbn. eexists. split; [done|]. by destruct (view_cpd _ _).
Qed.
Lemma eval_definition_values v ref ns :
  exists r, eval (fun X e => answer_values v X (VDefinition e)) (GetPluginDefinitionSpec ref ns) = Some r /\
    match r with
    | Ok spec => definition_of v ref ns = Some spec
    | Err _ => definition_of v ref ns = None
    end.
Proof.
  unfold GetPluginDefinitionSpec, definition_of. case_bool_decide.
  - rewrite eval_bind, eval_trigger. cbn. eexists. split; [done|].
    destruct (view_pd _ _); [done|]. by case_bool_decide.
  - case_bool_decide.
    + rewrite eval_bind, eval_trigger. cbn. eexists. split; [done|].
      destruct (view_cpd _ _); [done|]. by case_bool_decide.
    + case_bool_decide; by eexists.
Qed.

(** The values Greenhouse adds to a Plugin. *)
Definition added_values (v : view) (p : Plugin) : option (list PluginOptionValue) :=
  match view_clusters v (GetNamespace p), view_teams v (GetNamespace p) with
  | Ok clusters, Ok teams =>
      Some (greenhouse_list hook_Marshal hook_MarshalList hook_map_order DNSDomain p clusters teams
        (if bool_decide (plugin_ClusterName (plugin_Spec p) = "") then None
         else match view_cluster v (mk_key (GetNamespace p) (plugin_ClusterName (plugin_Spec p))) with
              | Ok c => Some c | Err _ => None end))
  | _, _ => None
  end.
Lemma eval_GetGreenhouseValues v p :
  exists r, eval (answer_values v)
      (GetGreenhouseValues hook_Marshal hook_MarshalList hook_map_order DNSDomain p) = Some r /\
    match r with Ok gv => added_values v p = Some gv | Err _ => added_values v p = None end.
Proof.
  unfold GetGreenhouseValues, added_values. rewrite eval_bind, eval_trigger. cbn [answer_values].
  destruct (view_clusters _ _) as [clusters|]; [|by eexists].
  rewrite eval_bind, eval_trigger. cbn [answer_values]. destruct (view_teams _ _) as [teams|]; [|by eexists].
  rewrite eval_bind. unfold cluster_values, greenhouse_list.
  case_bool_decide as Hc.
  - rewrite eval_bind, eval_trigger. cbn. eexists. split; [done|].
    rewrite (bool_decide_false (_ = "")) by done. by destruct (view_cluster _ _).
  - cbn. eexists. split; [done|]. done.
Qed.
(** The option values of a defaulted Plugin. *)
Definition defaulted_values (v : view) (p : Plugin) : option (list PluginOptionValue) :=
  match definition_of v (PluginDefinitionRef (plugin_Spec p)) (GetNamespace p), added_values v p with
  | Some spec, Some gv =>
      Some (MergePluginOptionValues
              (MergePluginAndPluginOptionValueSlice (pd_Options spec) (OptionValues (plugin_Spec p))) gv)
  | _, _ => None
  end.
Lemma eval_GetPluginOptionValues v p :
  exists r, eval (answer_values v)
      (GetPluginOptionValuesForPlugin hook_Marshal hook_MarshalList hook_map_order DNSDomain p) = Some r /\
    match r with Ok l => defaulted_values v p = Some l | Err _ => defaulted_values v p = None end.
Proof.
  unfold GetPluginOptionValuesForPlugin, defaulted_values. rewrite eval_bind, eval_translate.
  destruct (eval_definition_values v (PluginDefinitionRef (plugin_Spec p)) (GetNamespace p)) as (r & -> & Hr).
  destruct r as [spec|e]; rewrite Hr; [|by eexists].
  rewrite eval_bind. destruct (eval_GetGreenhouseValues v p) as (r & -> & Hg).
  destruct r as [gv|e]; rewrite Hg; by eexists.
Qed.

(** A Plugin up to its option values and its release. *)
Definition prepared (p : Plugin) : Plugin := with_display_name (with_plugin_labels (with_kind p)).
Lemma eval_DefaultPlugin v p p1 :
  eval (answer v) (DefaultPlugin DNSDomain p) = Some (p1, None) <->
  pdr_Name (PluginDefinitionRef (plugin_Spec p)) <> "" /\
  exists spec l,
    definition_of v (PluginDefinitionRef (plugin_Spec (with_kind p))) (GetNamespace p) = Some spec /\
    defaulted_values v (prepared p) = Some l /\
    default_release spec (with_option_values l (prepared p)) = (p1, None).
Proof.
  unfold DefaultPlugin. case_bool_decide as Hn; [split; [done|by intros []]|]. cbv zeta.
  rewrite eval_bind. destruct (eval_getPluginDefinitionSpec v (with_kind p)) as (r & -> & Hr).
  assert (GetNamespace (with_kind p) = GetNamespace p) as Hns
    by (unfold with_kind; by case_bool_decide). rewrite Hns in Hr.
  destruct r as [spec|e]; rewrite Hr.
  2:{ split; [by case_match|]. by intros (_ & ? & ? & [=] & _). }
  rewrite eval_bind, eval_translate. fold (prepared p).
  destruct (eval_GetPluginOptionValues v (prepared p)) as (r & Hv & Hl).
  change (eval _ (GetPluginOptionValuesForPlugin _ _ _ _ (prepared p))) with
    (eval (answer_values v) (GetPluginOptionValuesForPlugin hook_Marshal hook_MarshalList hook_map_order DNSDomain (prepared p))).
  rewrite Hv.
  destruct r as [l|e]; rewrite Hl.
  - rewrite eval_ret. split.
    + intros [= H]. eauto 6.
    + intros (_ & ? & ? & [= <-] & [= <-] & H). by rewrite H.
  - rewrite eval_ret. split; [done|]. by intros (_ & ? & ? & _ & [=] & _).
Qed.

Lemma overlay_again g o d :
  overlay g (overlay (overlay g (overlay o d)) d) = overlay g (overlay o d).
Proof. destruct g as [[]|], o as [[]|], d as [[]|]; done. Qed.
Lemma find_value_ext_perm l l' :
  NoDup (names l) -> NoDup (names l') -> (forall n, find_value n l = find_value n l') -> l ≡ₚ l'.
Proof.
  intros Hl Hl' H. apply NoDup_Permutation; [by eapply NoDup_fmap_1|by eapply NoDup_fmap_1|].
  intros v. split; intros Hv.
  - apply (find_value_elem (ov_Name v)). rewrite <-H. by apply find_value_NoDup.
  - apply (find_value_elem (ov_Name v)). rewrite H. by apply find_value_NoDup.
Qed.
Lemma added_values_NoDup v p gv : added_values v p = Some gv -> NoDup (names gv).
Proof using map_order_perm HSortLaws.
  unfold added_values. destruct (view_clusters _ _); [|done]. destruct (view_teams _ _); [|done].
  intros [= <-]. by apply greenhouse_list_NoDup.
Qed.
Lemma merged_again options ovs gv :
  NoDup (opt_Name <$> options) -> NoDup (names ovs) -> NoDup (names gv) ->
  let once := MergePluginOptionValues (MergePluginAndPluginOptionValueSlice options ovs) gv in
  MergePluginOptionValues (MergePluginAndPluginOptionValueSlice options once) gv ≡ₚ once.
Proof using HSortLaws.
  intros Ho Hv Hg once.
  assert (NoDup (names once)) as H1 by by apply Merge_NoDup, Merge_options_NoDup.
  apply find_value_ext_perm; [by apply Merge_NoDup, Merge_options_NoDup|done|].
  intros n. unfold once at 2. rewrite !find_Merge by done. rewrite !find_Merge_options by done.
  unfold once. rewrite find_Merge, find_Merge_options by done. apply overlay_again.
Qed.

Lemma definition_labels_idem ref c labels :
  let l := definition_labels ref (delete LabelKeyPlugin (<[LabelKeyCluster := c]> labels)) in
  definition_labels ref (delete LabelKeyPlugin (<[LabelKeyCluster := c]> l)) = l.
Proof.
  cbv zeta. apply map_eq. intros k. unfold definition_labels.
  destruct (bool_decide_reflect (pdr_Kind ref = PluginDefinitionKind)) as [_|_];
    [|destruct (bool_decide_reflect (pdr_Kind ref = ClusterPluginDefinitionKind)) as [_|_]];
    destruct (decide (k = LabelKeyPluginDefinition)) as [H1|H1];
    destruct (decide (k = LabelKeyClusterPluginDefinition)) as [H2|H2];
    destruct (decide (k = LabelKeyPlugin)) as [H3|H3];
    destruct (decide (k = LabelKeyCluster)) as [H4|H4]; subst; try done;
    by simplify_map_eq.
Qed.
Lemma set_same_labels (p : Plugin) labels : GetLabels p = labels -> SetLabels labels p = p.
Proof.
  intros <-. unfold SetLabels, GetLabels. destruct p as [m s st]. cbn. f_equal. by destruct m.
Qed.
(** Preparing a defaulted Plugin again changes nothing. *)
Lemma prepared_again p l ns n :
  pdr_Kind (PluginDefinitionRef (plugin_Spec (with_kind p))) <> "" ->
  let p1 := with_release ns n (with_option_values l (prepared p)) in prepared p1 = p1.
Proof using DNSDomain.
  intros Hk p1.
  assert (PluginDefinitionRef (plugin_Spec p1) = PluginDefinitionRef (plugin_Spec (with_kind p))) as Href
    by (unfold p1, prepared, with_display_name; by case_bool_decide).
  assert (with_kind p1 = p1) as H1.
  { unfold with_kind at 1. rewrite Href. by rewrite bool_decide_false. }
  assert (with_plugin_labels p1 = p1) as H2.
  { unfold with_plugin_labels. apply set_same_labels. rewrite Href.
    assert (GetLabels p1 = GetLabels (with_plugin_labels (with_kind p)) /\
            plugin_ClusterName (plugin_Spec p1) = plugin_ClusterName (plugin_Spec (with_kind p))) as [-> ->]
      by (unfold p1, prepared, with_display_name; by case_bool_decide).
    unfold with_plugin_labels. rewrite GetLabels_SetLabels. symmetry. apply definition_labels_idem. }
  unfold prepared at 1. rewrite H1, H2. unfold with_display_name at 1.
  case_bool_decide as Hd; [|done].
  assert (trim_space (ReplaceAll (GetName p1) "-" " ") = "") as Ht; [|rewrite Ht; by destruct p1 as [m [] st]; cbn in *; subst].
  assert (GetName p1 = GetName (with_plugin_labels (with_kind p))) as ->
    by (unfold p1, prepared, with_display_name; by case_bool_decide).
  revert Hd. clear. unfold p1, prepared, with_display_name.
  case_bool_decide as Hd'; [|intros Hd; by destruct Hd']. intros Hd. exact Hd.
Qed.

Lemma default_release_shape spec q p1 :
  default_release spec q = (p1, None) ->
  (exists ns n, p1 = with_release ns n q) /\
  forall l, default_release spec (with_option_values l p1) = (with_option_values l p1, None).
Proof.
  unfold default_release. destruct (_ && _).
  { intros [= <-]. split; [|done]. exists (ReleaseNamespace (plugin_Spec q)), (ReleaseName (plugin_Spec q)).
    by destruct q as [m [] st]. }
  destruct (release_name spec q) as [n|] eqn:Hn; [|done]. intros [= <-]. split; [by eexists _, _|]. intros l.
  set (q' := with_option_values l (with_release (release_namespace q) n q)).
  assert (release_name spec q' = Ok n) as ->.
  { unfold release_name in *. change (ReleaseName (plugin_Spec q')) with n.
    destruct (bool_decide_reflect (n = "")) as [->|]; cbn [negb]; [|done].
    destruct (bool_decide_reflect (ReleaseName (plugin_Spec q) = "")) as [|Hne]; cbn [negb] in Hn; [exact Hn|].
    by injection Hn. }
  assert (release_namespace q' = release_namespace q) as ->; [|done].
  unfold release_namespace at 1. change (ReleaseNamespace (plugin_Spec q')) with (release_namespace q).
  change (GetNamespace q') with (GetNamespace q).
  case_bool_decide as He; [|done]. revert He. unfold release_namespace. by case_bool_decide.
Qed.
(** Defaulting a Plugin is stable.  What the mutating webhook makes of a Plugin it
    makes of it again: run on its own result while the API server holds the same
    objects, it succeeds and changes nothing but the order of the option values. *)
Theorem DefaultPlugin_stable v p p1 spec :
  definition_of v (PluginDefinitionRef (plugin_Spec (with_kind p))) (GetNamespace p) = Some spec ->
  NoDup (opt_Name <$> pd_Options spec) -> NoDup (names (OptionValues (plugin_Spec p))) ->
  eval (answer v) (DefaultPlugin DNSDomain p) = Some (p1, None) ->
  exists ovs, ovs ≡ₚ OptionValues (plugin_Spec p1) /\
    eval (answer v) (DefaultPlugin DNSDomain p1) = Some (with_option_values ovs p1, None).
Proof using map_order_perm HSortLaws.
  intros Hspec Hopt Hovs H. apply eval_DefaultPlugin in H as (Hname & spec' & l & Hs' & Hl & Hrel).
  rewrite Hspec in Hs'. injection Hs' as <-.
  assert (pdr_Kind (PluginDefinitionRef (plugin_Spec (with_kind p))) <> "") as Hkind.
  { intros Hk. unfold definition_of in Hspec. by rewrite Hk in Hspec. }
  destruct (default_release_shape _ _ _ Hrel) as [(ns & n & Hp1) Hagain].
  pose proof (prepared_again p l ns n Hkind) as Hprep. cbv zeta in Hprep. rewrite <-Hp1 in Hprep.
  set (q := prepared p) in *.
  assert (PluginDefinitionRef (plugin_Spec q) = PluginDefinitionRef (plugin_Spec (with_kind p)) /\
          GetNamespace q = GetNamespace p /\ OptionValues (plugin_Spec q) = OptionValues (plugin_Spec p))
    as (Href & Hns & Hov).
  { unfold q, prepared, with_display_name, with_kind. by repeat case_bool_decide. }
  unfold defaulted_values in Hl. rewrite Href, Hns, Hov, Hspec in Hl.
  destruct (added_values v q) as [gv|] eqn:Hgv; [|done]. injection Hl as <-.
  pose proof (added_values_NoDup _ _ _ Hgv) as Hgnd.
  set (l := MergePluginOptionValues _ gv) in *.
  assert (definition_of v (PluginDefinitionRef (plugin_Spec p1)) (GetNamespace p1) = Some spec) as Hspec1.
  { rewrite <-Hspec, <-Href, <-Hns. by subst p1. }
  exists (MergePluginOptionValues (MergePluginAndPluginOptionValueSlice (pd_Options spec) l) gv).
  split; [subst p1; by apply merged_again|].
  apply eval_DefaultPlugin. split.
  { replace (pdr_Name _) with (pdr_Name (PluginDefinitionRef (plugin_Spec p))); [done|].
    transitivity (pdr_Name (PluginDefinitionRef (plugin_Spec q))); [|by subst p1].
    rewrite Href. unfold with_kind. by case_bool_decide. }
  assert (with_kind p1 = p1) as Hk1.
  { unfold with_kind. rewrite bool_decide_false; [done|]. intros Hk. apply Hkind.
    rewrite <-Href, <-Hk. by subst p1. }
  exists spec, (MergePluginOptionValues (MergePluginAndPluginOptionValueSlice (pd_Options spec) l) gv).
  rewrite Hk1, Hprep. split; [done|]. split; [|apply Hagain].
  unfold defaulted_values. rewrite Hspec1.
  assert (added_values v p1 = Some gv) as ->; [rewrite <-Hgv; by subst p1|]. by subst p1.
Qed.
End defaulting.

(** ** Definitions in use *)
Section in_use.
Context {Libs : HookLibs} {Json : JsonDecoder} {HSort : SortByName}.
Variable DNSDomain : string.

Lemma elem_of_filter_In {A} (f : A -> bool) l a : a ∈ List.filter f l <-> a ∈ l /\ f a = true.
Proof. by rewrite !list_elem_of_In, filter_In. Qed.
Lemma validateDelete_answer v key name ns :
  exists r, eval (answer v) (validateDelete key name ns) = Some ([], r) /\
    (is_Some r <-> exists p, p ∈ view_plugins v /\ selected_plugin key name ns p = true).
Proof.
  unfold validateDelete. rewrite eval_bind, eval_trigger. cbn [answer].
  setoid_rewrite <-elem_of_filter_In.
  destruct (List.filter (selected_plugin key name ns) (view_plugins v)) as [|p l];
    (eexists; split; [by rewrite eval_ret|]); split.
  - by intros [? ?].
  - by intros [? []%not_elem_of_nil].
  - intros _. exists p. set_solver.
  - by eexists.
Qed.

(** The labels a defaulted Plugin carries. *)
Lemma DefaultPlugin_labels v p p1 :
  eval (answer v) (DefaultPlugin DNSDomain p) = Some (p1, None) ->
  let ref := PluginDefinitionRef (plugin_Spec p1) in
  pdr_Kind ref = PluginDefinitionKind /\ GetLabels p1 !! LabelKeyPluginDefinition = Some (pdr_Name ref) /\
    GetLabels p1 !! LabelKeyClusterPluginDefinition = None \/
  pdr_Kind ref = ClusterPluginDefinitionKind /\
    GetLabels p1 !! LabelKeyClusterPluginDefinition = Some (pdr_Name ref) /\
    GetLabels p1 !! LabelKeyPluginDefinition = None.
Proof.
  intros (_ & spec & l & Hspec & _ & Hrel)%eval_DefaultPlugin.
  apply default_release_shape in Hrel as [(ns & n & ->) _].
  assert (PluginDefinitionRef (plugin_Spec (prepared p)) = PluginDefinitionRef (plugin_Spec (with_kind p)) /\
          GetLabels (prepared p) = GetLabels (with_plugin_labels (with_kind p))) as [Href Hlab].
  { unfold prepared, with_display_name, with_kind. by repeat case_bool_decide. }
  cbn [plugin_Spec with_release with_option_values PluginDefinitionRef].
  change (GetLabels (with_release _ _ _)) with (GetLabels (prepared p)). rewrite Href, Hlab.
  unfold with_plugin_labels. rewrite GetLabels_SetLabels. unfold definition_labels.
  unfold definition_of in Hspec.
  case_bool_decide as Hk; [left; split_and!; [done|by simplify_map_eq..]|].
  case_bool_decide as Hk'; [right; split_and!; [done|by simplify_map_eq..]|done].
Qed.

(** A plugin definition is kept while a Plugin uses it.  As long as a Plugin that
    went through defaulting exists with its labels, the webhook refuses to delete the
    definition it refers to: the one of its namespace, or the cluster-wide one.  It
    refuses only on account of such a label. *)
Theorem used_definition_kept v p p1 v' :
  eval (answer v) (DefaultPlugin DNSDomain p) = Some (p1, None) -> p1 ∈ view_plugins v' ->
  let ref := PluginDefinitionRef (plugin_Spec p1) in
  (pdr_Kind ref = PluginDefinitionKind /\
   (forall pd, GetName pd = pdr_Name ref -> GetNamespace pd = GetNamespace p1 ->
      exists e, eval (answer v') (ValidateDelete (PluginDefinitionWebhook) pd) = Some ([], Some e)) \/
   pdr_Kind ref = ClusterPluginDefinitionKind /\
   (forall cpd, GetName cpd = pdr_Name ref ->
      exists e, eval (answer v') (ValidateDelete (ClusterPluginDefinitionWebhook) cpd) = Some ([], Some e))) /\
  (forall pd e, eval (answer v') (ValidateDelete (PluginDefinitionWebhook) pd) = Some ([], Some e) ->
     exists p, p ∈ view_plugins v' /\ GetLabels p !! LabelKeyPluginDefinition = Some (GetName pd)).
Proof.
  intros H Hin ref. pose proof (DefaultPlugin_labels _ _ _ H) as Hl. fold ref in Hl. split.
  - destruct Hl as [(Hk & Hl & _)|(Hk & Hl & _)]; [left|right]; (split; [done|]).
    + intros pd Hn Hns. cbn [ValidateDelete ValidateDeleteFunc PluginDefinitionWebhook].
      destruct (validateDelete_answer v' LabelKeyPluginDefinition (GetName pd) (GetNamespace pd)) as (r & -> & Hr).
      destruct (proj2 Hr) as [e ->]; [|by exists e]. exists p1. split; [done|]. unfold selected_plugin.
      rewrite Hl, Hn, Hns. apply andb_true_iff. split; [by apply bool_decide_true|].
      apply orb_true_iff. right. by apply bool_decide_true.
    + intros cpd Hn. cbn [ValidateDelete ValidateDeleteFunc ClusterPluginDefinitionWebhook].
      destruct (validateDelete_answer v' LabelKeyClusterPluginDefinition (GetName cpd) "") as (r & -> & Hr).
      destruct (proj2 Hr) as [e ->]; [|by exists e]. exists p1. split; [done|]. unfold selected_plugin.
      rewrite Hl, Hn. apply andb_true_iff. split; [by apply bool_decide_true|done].
  - intros pd e. cbn [ValidateDelete ValidateDeleteFunc PluginDefinitionWebhook].
    destruct (validateDelete_answer v' LabelKeyPluginDefinition (GetName pd) (GetNamespace pd)) as (r & -> & Hr).
    intros [= ->]. destruct (proj1 Hr) as (q & Hq & Hs); [by eexists|]. exists q. split; [done|].
    unfold selected_plugin in Hs. by apply andb_true_iff in Hs as [Hs%bool_decide_eq_true _].
Qed.
End in_use.

(** ** Instances *)
Module HookRun.
#[local] Existing Instance HelmValues.ValuesRun.sort_merge.
#[local] Existing Instance HelmValues.ValuesRun.sort_merge_laws.
#[local] Instance libs : HookLibs := {|
  chartutil_ValidateReleaseName _ := None; NewInvalid name errs := new_error (name +:+ " is invalid");
  hook_Marshal s := "'" +:+ s +:+ "'"; hook_MarshalList l := join "," l;
  hook_map_order := map_to_list; selector_Size := String.length |}.
#[local] Instance decoder : JsonDecoder := {|
  json_Parse s := Ok (JNumber s); float64_literal _ := true |}.
Definition nginx : PluginDefinition :=
  mk_pd (named "nginx" "org")
    (mk_pd_spec "" "" (Some (mk_hcr "ingress-nginx" "oci://charts" "1.0")) None
       [mk_option "replicas" (Some "3") "" "" true PluginOptionTypeInt ""] "1.0" None "" "" "")
    (mk_pd_status [] None).
Definition cluster_view (plugins : list Plugin) : view :=
  mk_view (fun _ => Err (mk_error NotFound "no team"))
    (fun k => if bool_decide (k = mk_key "org" "nginx") then Ok nginx else Err (mk_error NotFound "no definition"))
    (fun _ => Err (mk_error NotFound "no definition")) (fun _ => Ok []) (fun _ => Ok [])
    (fun _ => Err (mk_error NotFound "no cluster")) (fun _ => Err (mk_error NotFound "no secret")) plugins.
Definition submitted : Plugin :=
  mk_plugin (named "nginx-eu" "org")
    (mk_plugin_spec (mk_pdr "nginx" "") "" [mk_ov "host" (Some "'h'") None None] "eu" "" "" "" [] [])
    empty_plugin_status.
Definition admitted : Plugin :=
  match eval (answer (cluster_view [])) (DefaultPlugin "example.com" submitted) with
  | Some (p, None) => p
  | _ => submitted
  end.
Example admitted_spec :
  ReleaseName (plugin_Spec admitted) = "ingress-nginx" /\ ReleaseNamespace (plugin_Spec admitted) = "org" /\
  DisplayName (plugin_Spec admitted) = "nginx eu" /\
  (ov_Name <$> OptionValues (plugin_Spec admitted)) =
    ["host"; "replicas"; "global.greenhouse.clusterNames"; "global.greenhouse.teamNames";
     "global.greenhouse.organizationName"; "global.greenhouse.clusterName"; "global.greenhouse.baseDomain"].
Proof. vm_compute. done. Qed.

Lemma DefaultPlugin_stable_witness :
  exists ovs, ovs ≡ₚ OptionValues (plugin_Spec admitted) /\
    eval (answer (cluster_view [])) (DefaultPlugin "example.com" admitted) =
      Some (with_option_values ovs admitted, None).
Proof.
  apply (DefaultPlugin_stable "example.com" (fun m => Permutation_refl (map_to_list m))
           (cluster_view []) submitted admitted (pd_Spec nginx)).
  - vm_compute. reflexivity.
  - apply (bool_decide_unpack _). vm_compute. exact I.
  - apply (bool_decide_unpack _). vm_compute. exact I.
  - vm_compute. reflexivity.
Defined.
Lemma used_definition_kept_witness :
  exists p, p ∈ view_plugins (cluster_view [admitted]) /\
    (forall pd e, eval (answer (cluster_view [admitted])) (ValidateDelete (PluginDefinitionWebhook) pd) = Some ([], Some e) ->
     exists p, p ∈ [admitted] /\ GetLabels p !! LabelKeyPluginDefinition = Some (GetName pd)).
Proof.
  exists admitted. split; [apply list_elem_of_here|].
  refine (proj2 (used_definition_kept "example.com" (cluster_view []) submitted admitted (cluster_view [admitted]) _ _)).
  - vm_compute. reflexivity.
  - apply list_elem_of_here.
Defined.
End HookRun.
