(* ===== verification/PluginPreset.v ===== *)
(** * PluginPreset: [internal/controller/plugin/pluginpreset_controller.go]
    and [pluginpreset_values_resolver.go]

    The PluginPreset controller keeps one Plugin per selected cluster: it deletes
    Plugins whose cluster is no longer selected, creates or updates those of the
    selected clusters, leaves Plugins alone that do not carry its label, and counts
    how they are doing.

    Parameters: [controllerutil.CreateOrUpdate] with its documented contract
    ([CreateOrUpdateLaws], stated over the store of Plugins), the owner reference
    functions of [controllerutil], the conversion of label selectors,
    [utilerrors.NewAggregate], and what an API error says about its causes. *)
From S2P Require Import Prelude Effects Conditions Meta ApiTypes Lifecycle Propagation ClientUtil PluginTypes PluginDefinitions HelmValues.
From stdpp Require Import pretty.

Inductive presetE : Type -> Type :=
| PValues {X} (e : valuesE X) : presetE X
| PPlugin {X} (e : kubeE Plugin X) : presetE X
| PUpdatePlugin (p : Plugin) : presetE (result Plugin)
| PListPlugins (namespace presetName : string) : presetE (result (list Plugin))
| PListClusters (namespace selector : string) : presetE (result (list Cluster))
| PTeam {X} (e : kubeE Team X) : presetE X
| PPanic : presetE Empty_set.

Definition presetExposedConditions : list string :=
  [ReadyCondition; PluginSkippedCondition; PluginFailedCondition; AllPluginsReadyCondition;
   PluginDefinitionNotFoundCondition; ClusterListEmpty; OwnerLabelSetCondition].

(** ** Pure parts *)
Definition isPluginManagedByPreset (plugin : Plugin) (presetName : string) : bool :=
  bool_decide (default "" (GetLabels plugin !! LabelKeyPluginPreset) = presetName).
Definition buildPluginName (pluginPresetName clusterName : string) : string :=
  pluginPresetName +:+ "-" +:+ clusterName.
Definition generatePluginName (p : PluginPreset) (cluster : Cluster) : string :=
  buildPluginName (GetName p) (GetName cluster).

Definition getReleaseName (plugin : Plugin) (preset : PluginPreset) : string :=
  if bool_decide (ReleaseName (plugin_Spec plugin) <> "") then ReleaseName (plugin_Spec plugin)
  else match plugin_HelmReleaseStatus (plugin_Status plugin) with
       | Some _ => GetName plugin
       | None => pps_ReleaseName (preset_Plugin (preset_Spec preset))
       end.

Definition isPluginDefinitionNotFoundError (err : option error) : bool :=
  is_not_found err &&
  match err with Some e => contains (err_msg e) "spec.PluginDefinitionRef.name" | None => false end.

Definition pluginSpecFromPluginPreset (preset : PluginPreset) (cluster : string) : PluginSpec :=
  let p := preset_Plugin (preset_Spec preset) in
  mk_plugin_spec (pps_PluginDefinitionRef p) (pps_DisplayName p)
    (ConvertToPluginOptionValues (pps_OptionValues p)) cluster (pps_ReleaseNamespace p) ""
    (pps_DeletionPolicy p) (preset_WaitFor (preset_Spec preset)) (pps_IgnoreDifferences p).
Definition with_values (vals : list PluginOptionValue) (releaseName : string) (s : PluginSpec) :
    PluginSpec :=
  mk_plugin_spec (PluginDefinitionRef s) (DisplayName s) vals (plugin_ClusterName s)
    (ReleaseNamespace s) releaseName (plugin_DeletionPolicy s) (plugin_WaitFor s)
    (IgnoreDifferences s).

Definition preset_values (p : PluginPreset) : list PluginPresetPluginOptionValue :=
  pps_OptionValues (preset_Plugin (preset_Spec p)).
Definition preset_set_values (vals : list PluginPresetPluginOptionValue) (p : PluginPreset) :
    PluginPreset :=
  let s := preset_Spec p in
  let ps := preset_Plugin s in
  mk_preset (preset_meta p)
    (mk_preset_spec
       (mk_preset_plugin_spec (pps_PluginDefinitionRef ps) (pps_DisplayName ps) vals
          (pps_ReleaseNamespace ps) (pps_ReleaseName ps) (pps_DeletionPolicy ps)
          (pps_IgnoreDifferences ps))
       (preset_ClusterSelector s) (ClusterOptionOverrides s) (preset_WaitFor s)
       (preset_DeletionPolicy s))
    (preset_Status p).

(** The body of the loop over the overrides of a cluster. *)
Definition apply_override (vals : list PluginPresetPluginOptionValue)
    (overrideValue : PluginPresetPluginOptionValue) : list PluginPresetPluginOptionValue :=
  match index_func vals (fun value => bool_decide (pov_Name value = pov_Name overrideValue)) with
  | None => vals ++ [overrideValue]
  | Some valueIndex => <[valueIndex := overrideValue]> vals
  end.
Definition applyOverridesToPreset (preset : PluginPreset) (clusterName : string) : PluginPreset :=
  let overrides := ClusterOptionOverrides (preset_Spec preset) in
  match index_func overrides (fun o => bool_decide (coo_ClusterName o = clusterName)) with
  | None => preset
  | Some index =>
      preset_set_values
        (fold_left apply_override
           (match overrides !! index with Some o => Overrides o | None => [] end)
           (preset_values preset)) preset
  end.

Definition initPluginPresetStatus (now : Z) (p : PluginPreset) : PluginPreset :=
  preset_set_conditions
    (init_conditions now presetExposedConditions (preset_conditions (preset_Status p))) p.

(** [computeReadyCondition]; [None] when a condition it dereferences is nil. *)
Definition compute_not_ready (readyCondition : Condition) (message : string) : Condition :=
  set_message message (set_status ConditionFalse readyCondition).
Definition computeReadyCondition (conditions : StatusConditions) : option Condition :=
  readyCondition ← GetConditionByType conditions ReadyCondition;
  failedCond ← GetConditionByType conditions PluginFailedCondition;
  if IsTrue failedCond then
    Some (compute_not_ready readyCondition
            (if bool_decide (CondReason failedCond = PluginDefinitionNotFound)
             then CondMessage failedCond else "Plugin reconciliation failed"))
  else
    notFound ← GetConditionByType conditions PluginDefinitionNotFoundCondition;
    if IsTrue notFound then Some (compute_not_ready readyCondition (CondMessage notFound))
    else
      clusterListEmpty ← GetConditionByType conditions ClusterListEmpty;
      if IsTrue clusterListEmpty
      then Some (compute_not_ready readyCondition "No cluster matches ClusterSelector")
      else
        let ready := set_message "ready" (set_status ConditionTrue readyCondition) in
        match GetConditionByType conditions AllPluginsReadyCondition with
        | None => Some ready
        | Some allPluginsReady =>
            if IsFalse allPluginsReady
            then Some (compute_not_ready readyCondition (CondMessage allPluginsReady))
            else Some ready
        end.

(** [errors.Join]: the status reason is that of the first error that has one. *)
Definition errors_Join (errs : list error) : error :=
  mk_error
    (default OtherReason (first_some (fun e =>
       if bool_decide (err_reason e = OtherReason) then None else Some (err_reason e)) errs))
    (Prelude.join (String (Ascii.ascii_of_nat 10) "") (err_msg <$> errs)).


(** ** Code of other projects *)
Class PresetLibs := {
  (** [controllerutil.SetControllerReference] and [RemoveOwnerReference]: the new
      owner references of the Plugin *)
  SetControllerReference : PluginPreset -> Plugin -> result (list OwnerReference);
  RemoveOwnerReference : PluginPreset -> Plugin -> result (list OwnerReference);
  (** [controllerutil.CreateOrUpdate]: the mutate function, the object *)
  CreateOrUpdate : (Plugin -> prog presetE (Plugin * option error)) -> Plugin ->
    prog presetE (Plugin * option error);
  NewAggregate : list error -> option error;
  (** [errors.As] to a [StatusError]: the message of its first cause *)
  first_cause : error -> option string;
  LabelSelectorAsSelector : string -> result string
}.

Section controller.
Variable now : Z.
Context {Libs : PresetLibs} {HC : StateCodec}.
(** see [HelmValues] *)
Variable Marshal : string -> string.
Variable MarshalList : list string -> string.
Variable map_order : strmap -> list (string * string).
Variable DNSDomain : string.
Context {Values : Type}.
Variable no_values : Values.
Variable ParseJSON : string -> Values -> result Values.
Variable EvaluateExpression : string -> Values -> result string.
Variable ExpressionEvaluationEnabled : bool.

(** ** Option values *)
Definition has_expression (ov : PluginPresetPluginOptionValue) : bool :=
  bool_decide (pov_Expression ov <> None).
Definition resolve_option (templateData : Values) (optionValue : PluginPresetPluginOptionValue) :
    result PluginOptionValue :=
  match pov_Expression optionValue with
  | Some expression =>
      match EvaluateExpression expression templateData with
      | Err e => Err (wrap_error ("failed to evaluate expression for option " +:+
                                  pov_Name optionValue +:+ ": ") e)
      | Ok evaluatedValue => Ok (mk_ov (pov_Name optionValue) (Some evaluatedValue) None None)
      end
  | None =>
      Ok (mk_ov (pov_Name optionValue) (pov_Value optionValue)
            ((fun vf => mk_vfs (pvf_Secret vf) None) <$> pov_ValueFrom optionValue) None)
  end.
Fixpoint resolve_options (templateData : Values) (l : list PluginPresetPluginOptionValue) :
    result (list PluginOptionValue) :=
  match l with
  | [] => Ok []
  | ov :: l' =>
      match resolve_option templateData ov with
      | Err e => Err e
      | Ok v => match resolve_options templateData l' with
                | Err e => Err e
                | Ok vs => Ok (v :: vs)
                end
      end
  end.
Definition resolveExpressionsForPreset (preset : PluginPreset) (cluster : Cluster) :
    prog presetE (result (list PluginOptionValue)) :=
  if negb (existsb has_expression (preset_values preset)) then
    mret (Ok (ConvertToPluginOptionValues (preset_values preset)))
  else
    let tempPlugin :=
      mk_plugin (with_labels (GetLabels preset) (named (GetName preset) (GetNamespace preset)))
        (mk_plugin_spec (mk_pdr "" "") "" [] (GetName cluster) "" "" "" [] []) empty_plugin_status in
    r ← translate (fun _ => PValues)
          (GetGreenhouseValues Marshal MarshalList map_order DNSDomain tempPlugin);
    match r with
    | Err e => mret (Err (wrap_error "failed to get greenhouse values: " e))
    | Ok greenhouseValuesList =>
        match BuildTemplateData no_values ParseJSON greenhouseValuesList with
        | Err e => mret (Err (wrap_error "failed to build template data: " e))
        | Ok templateData => mret (resolve_options templateData (preset_values preset))
        end
    end.
Definition resolvePluginOptionValuesForPreset (preset : PluginPreset) (cluster : Cluster) :
    prog presetE (result (list PluginOptionValue)) :=
  if ExpressionEvaluationEnabled then resolveExpressionsForPreset preset cluster
  else match List.find has_expression (preset_values preset) with
       | Some ov => mret (Err (new_error ("option " +:+ pov_Name ov +:+
           " has expression but expressionEvaluationEnabled is disabled for PluginPreset controller")))
       | None => mret (Ok (ConvertToPluginOptionValues (preset_values preset)))
       end.

(** ** Creating and updating *)

(** The mutate function of [reconcilePluginPreset]. *)
Definition mutate_plugin (preset : PluginPreset) (cluster : Cluster) (plugin : Plugin) :
    prog presetE (Plugin * option error) :=
  let plugin := SetLabels (<[LabelKeyPluginPreset := GetName preset]> (GetLabels plugin)) plugin in
  match SetControllerReference preset plugin with
  | Err e => mret (plugin, Some e)
  | Ok refs =>
      let plugin := set_meta (with_owners refs (get_meta plugin)) plugin in
      let releaseName := getReleaseName plugin preset in
      r ← resolvePluginOptionValuesForPreset (applyOverridesToPreset preset (GetName cluster)) cluster;
      match r with
      | Err e => mret (plugin, Some (wrap_error ("failed to resolve option values for plugin " +:+
                                                 GetName plugin +:+ ": ") e))
      | Ok resolvedValues =>
          let spec := with_values resolvedValues releaseName
                        (pluginSpecFromPluginPreset preset (GetName cluster)) in
          mret (Apply (map_order (GetLabels preset)) preset
                  (mk_plugin (plugin_meta plugin) spec (plugin_Status plugin)), None)
      end
  end.

(** One iteration of the loop of [reconcilePluginPreset]. *)
Inductive cluster_outcome :=
| ClusterDone                                  (* nothing to report *)
| ClusterSkipped (name : string)
| ClusterFailed (message : string) (e : error)
| ClusterNoDefinition
| ClusterAborts (e : error).                   (* the function returns the error *)

Definition reconcile_existing (preset : PluginPreset) (cluster : Cluster) (plugin : Plugin) :
    prog presetE cluster_outcome :=
  '(plugin, err) ← CreateOrUpdate (mutate_plugin preset cluster) plugin;
  match err with
  | None => mret ClusterDone
  | Some e =>
      if isPluginDefinitionNotFoundError (Some e) then mret ClusterNoDefinition
      else mret (ClusterFailed (GetName plugin +:+ ": " +:+ default (err_msg e) (first_cause e)) e)
  end.
Definition reconcile_plugin (preset : PluginPreset) (cluster : Cluster) :
    prog presetE cluster_outcome :=
  let name := generatePluginName preset cluster in
  r ← trigger (PPlugin (KubeGet (mk_key (GetNamespace preset) name)));
  if bool_decide (GetDeletionTimestamp cluster <> None) then mret ClusterDone
  else match r with
  | Ok plugin =>
      if negb (isPluginManagedByPreset plugin (GetName preset))
      then mret (ClusterSkipped (GetName plugin))
      else reconcile_existing preset cluster plugin
  | Err e =>
      if is_not_found (Some e) then
        reconcile_existing preset cluster
          (mk_plugin (named name (GetNamespace preset)) empty_plugin_spec empty_plugin_status)
      else mret (ClusterAborts e)
  end.

Definition preset_condition (c : Condition) (p : PluginPreset) : PluginPreset := SetCondition now c p.
Definition no_definition (preset : PluginPreset) : PluginPreset :=
  preset_condition (FalseCondition now PluginSkippedCondition "" "")
    (preset_condition (TrueCondition now PluginFailedCondition PluginDefinitionNotFound
       ("PluginDefinition referenced by this PluginPreset does not exist: " +:+
        pdr_Name (pps_PluginDefinitionRef (preset_Plugin (preset_Spec preset))))) preset).
Definition report_skipped (skipped : list string) (preset : PluginPreset) : PluginPreset :=
  preset_condition
    (if bool_decide (skipped <> [])
     then TrueCondition now PluginSkippedCondition "" ("Skipped existing plugins: " +:+ Prelude.join ", " skipped)
     else FalseCondition now PluginSkippedCondition "" "") preset.
Definition report_failed (failed : list string) (preset : PluginPreset) : PluginPreset :=
  preset_condition
    (if bool_decide (failed <> [])
     then TrueCondition now PluginFailedCondition PluginReconcileFailed (Prelude.join "; " failed)
     else FalseCondition now PluginFailedCondition "" "") preset.

Definition reconcilePluginPreset (preset : PluginPreset) (clusters : list Cluster) :
    prog presetE (PluginPreset * option error) :=
  r ← foreach clusters (fun '(allErrs, skipped, failed) cluster =>
        o ← reconcile_plugin preset cluster;
        mret match o with
        | ClusterDone => inl (allErrs, skipped, failed)
        | ClusterSkipped n => inl (allErrs, skipped ++ [n], failed)
        | ClusterFailed msg e => inl (allErrs ++ [e], skipped, failed ++ [msg])
        | ClusterNoDefinition => inr (no_definition preset, None)
        | ClusterAborts e => inr (preset, Some e)
        end) ([], [], []);
  match r with
  | inr res => mret res
  | inl (allErrs, skipped, failed) =>
      mret (report_failed failed (report_skipped skipped preset), NewAggregate allErrs)
  end.

(** ** Listing, cleaning up, counting *)
Definition listPlugins (preset : PluginPreset) : prog presetE (result (list Plugin)) :=
  trigger (PListPlugins (GetNamespace preset) (GetName preset)).
Definition listClusters (preset : PluginPreset) : prog presetE (result (list Cluster)) :=
  match LabelSelectorAsSelector (preset_ClusterSelector (preset_Spec preset)) with
  | Err e => mret (Err e)
  | Ok selector => trigger (PListClusters (GetNamespace preset) selector)
  end.
(** [slices.ContainsFunc] over the clusters. *)
Definition validCluster (clusters : list Cluster) (p : Plugin) : bool :=
  contains_func clusters (fun c => bool_decide (plugin_ClusterName (plugin_Spec p) = GetName c)).
Definition delete_plugin (p : Plugin) : prog presetE (option error) :=
  err ← trigger (PPlugin (KubeDelete p)); mret (ignore_not_found err).
Definition cleanupPlugins (preset : PluginPreset) (clusters : list Cluster) :
    prog presetE (option error) :=
  r ← listPlugins preset;
  match r with
  | Err e => mret (Some e)
  | Ok plugins =>
      r ← foreach plugins (fun (_ : unit) p =>
            if validCluster clusters p then mret (inl tt)
            else
              err ← delete_plugin p;
              match err with Some e => mret (inr e) | None => mret (inl tt) end) tt;
      match r with inl _ => mret None | inr e => mret (Some e) end
  end.

(** One Plugin of the status loop: its status and whether it is ready. *)
Definition plugin_status_of (plugin : Plugin) : option (ManagedPluginStatus * bool) :=
  (fun c => (mk_mps (GetName plugin) c, IsTrue c)) <$>
  GetConditionByType (plugin_conditions (plugin_Status plugin)) ReadyCondition.
Definition count_statuses (l : list (ManagedPluginStatus * bool)) (b : bool) : nat :=
  length (List.filter (fun x => Bool.eqb x.2 b) l).
Definition set_plugin_statuses (statuses : list (ManagedPluginStatus * bool))
    (preset : PluginPreset) : PluginPreset :=
  let ready := count_statuses statuses true in
  let preset := preset_set_status
    (mk_preset_status (preset_conditions (preset_Status preset)) statuses.*1 (length statuses)
       ready (count_statuses statuses false) (PluginDefinitionVersion (preset_Status preset))) preset in
  preset_condition
    (if bool_decide (0 < length statuses) && bool_decide (ready = length statuses)
     then TrueCondition now AllPluginsReadyCondition "" "All plugins are ready"
     else FalseCondition now AllPluginsReadyCondition ""
            (pretty ready +:+ " of " +:+ pretty (length statuses) +:+ " plugins are ready")) preset.
Definition reconcilePluginStatuses (preset : PluginPreset) :
    prog presetE (PluginPreset * option error) :=
  r ← listPlugins preset;
  match r with
  | Err e => mret (preset, Some e)
  | Ok plugins => mret (set_plugin_statuses (omap plugin_status_of plugins) preset, None)
  end.

Definition set_version (v : string) (preset : PluginPreset) : PluginPreset :=
  let s := preset_Status preset in
  preset_set_status (mk_preset_status (preset_conditions s) (PluginStatuses s) (TotalPlugins s)
    (ReadyPlugins s) (FailedPlugins s) v) preset.
Definition reconcilePluginDefinitionVersion (preset : PluginPreset) : prog presetE PluginPreset :=
  r ← translate (fun _ e => PValues (VDefinition e))
        (GetPluginDefinitionSpec (pps_PluginDefinitionRef (preset_Plugin (preset_Spec preset)))
           (GetNamespace preset));
  match r with
  | Err e =>
      mret (preset_condition (TrueCondition now PluginDefinitionNotFoundCondition
              PluginDefinitionNotFound (err_msg e)) (set_version "" preset))
  | Ok spec =>
      mret (preset_condition (FalseCondition now PluginDefinitionNotFoundCondition "" "")
              (set_version (pd_Version spec) preset))
  end.

(** ** The callbacks *)
Definition cluster_list_condition (clusters : list Cluster) : Condition :=
  if bool_decide (clusters = [])
  then TrueCondition now ClusterListEmpty "" "No cluster matches ClusterSelector"
  else FalseCondition now ClusterListEmpty "" "".

Definition preset_EnsureCreated (preset : PluginPreset) : prog presetE (PluginPreset * cb_result) :=
  let preset := initPluginPresetStatus now preset in
  r ← listClusters preset;
  match r with
  | Err e =>
      mret (preset_condition (TrueCondition now ClusterListEmpty ""
              ("Invalid ClusterSelector: " +:+ err_msg e)) preset, cb_failed e)
  | Ok clusters =>
      let preset := preset_condition (cluster_list_condition clusters) preset in
      err ← cleanupPlugins preset clusters;
      match err with
      | Some e => mret (preset, cb_failed e)
      | None =>
          '(preset, err) ← reconcilePluginPreset preset (FilterClustersBeingDeleted clusters);
          match err with
          | Some e => mret (preset, cb_failed e)
          | None =>
              '(preset, err) ← reconcilePluginStatuses preset;
              match err with
              | Some e => mret (preset, cb_failed e)
              | None => mret (preset, cb_ok)
              end
          end
      end
  end.

(** The mutate function that retains a Plugin. *)
Definition mutate_retain (preset : PluginPreset) (plugin : Plugin) : Plugin * option error :=
  if bool_decide (om_owners (get_meta plugin) = []) then (plugin, None)
  else match RemoveOwnerReference preset plugin with
       | Err e => (plugin, Some e)
       | Ok refs => (set_meta (with_owners refs (get_meta plugin)) plugin, None)
       end.
Definition failed_for (what : string) (preset : PluginPreset) (errs : list error) : error :=
  wrap_error ("failed to " +:+ what +:+ " plugins for " +:+ GetNamespace preset +:+ "/" +:+
              GetName preset +:+ ": ") (errors_Join errs).

Definition retain_plugins (preset : PluginPreset) (plugins : list Plugin) :
    prog presetE (list error) :=
  r ← foreach (R := Empty_set) plugins (fun errs plugin =>
        if isPluginManagedByPreset plugin (GetName preset) then
          '(_, (_, err)) ← translate (fun _ => PPlugin) (Patch (mutate_retain preset) plugin);
          mret (inl (errs ++ option_list err))
        else mret (inl errs)) [];
  match r with inl errs => mret errs | inr e => Empty_set_rect _ e end.
Definition delete_plugins (plugins : list Plugin) : prog presetE (list error) :=
  r ← foreach (R := Empty_set) plugins (fun errs plugin =>
        err ← delete_plugin plugin;
        mret (inl (errs ++ option_list err))) [];
  match r with inl errs => mret errs | inr e => Empty_set_rect _ e end.

Definition preset_EnsureDeleted (preset : PluginPreset) : prog presetE (PluginPreset * cb_result) :=
  r ← listPlugins preset;
  match r with
  | Err e => mret (preset, cb_failed e)
  | Ok plugins =>
      if bool_decide (preset_DeletionPolicy (preset_Spec preset) = DeletionPolicyRetain) then
        errs ← retain_plugins preset plugins;
        if bool_decide (errs <> []) then
          mret (preset, cb_failed (failed_for "process retained" preset errs))
        else mret (preset, cb_ok)
      else
        errs ← delete_plugins plugins;
        if bool_decide (errs <> []) then
          mret (preset, (ctrl_done, Pending, Some (failed_for "delete" preset errs)))
        else if bool_decide (plugins <> []) then mret (preset, (ctrl_done, Pending, None))
        else mret (preset, cb_ok)
  end.

Definition preset_setConditions (preset : PluginPreset) : prog presetE PluginPreset :=
  preset ← reconcilePluginDefinitionVersion preset;
  match computeReadyCondition (preset_conditions (preset_Status preset)) with
  | None => PVis PPanic (fun e : Empty_set => match e with end)
  | Some readyCondition =>
      ownerLabelCondition ← translate (fun _ => PTeam) (ComputeOwnerLabelCondition now preset);
      mret (preset_set_conditions
              (SetConditions now (preset_conditions (preset_Status preset))
                 [readyCondition; ownerLabelCondition]) preset)
  end.

Definition PluginPresetReconciler : Reconciler presetE PluginPreset :=
  mk_reconciler _ _ preset_EnsureCreated preset_EnsureDeleted
    (fun preset => mret (preset, (ctrl_done, None))).
Definition preset_Reconcile `{FinalizerOps} (k : objkey) :=
  Reconcile now PluginPresetReconciler (Some preset_setConditions) k.
End controller.

(** ** The store of Plugins

    The world is what the API server stores as Plugins, with the controller as its
    only writer.  A write may store more than was sent ([accepts]: defaulting); a
    deletion removes the object or, when somebody holds a finalizer, marks it; an
    answer NotFound tells the truth; a list answers exactly the Plugins of the namespace that carry the label.  Every
    call may fail and then changes nothing.  [selected] is what the cluster list
    answers. *)
Abbreviation plugins := (gmap objkey Plugin).
Section store.
Variable accepts : Plugin -> Plugin -> Prop.
Variable selected : list Cluster.

Definition marked (d : Z) (p : Plugin) : Plugin := set_meta (with_deletion (Some d) (get_meta p)) p.
Definition deleted : objkey -> plugins -> plugins -> Prop := marked_or_removed.
Definition put_plugin_status (p stored : Plugin) : Plugin :=
  mk_plugin (plugin_meta stored) (plugin_Spec stored) (plugin_Status p).
Definition plugin_step (st : plugins) X (e : kubeE Plugin X) : X -> plugins -> Prop :=
  match e in kubeE _ X return X -> plugins -> Prop with
  | KubeDelete p => fun r st' =>
      match r with
      | Some e => st' = st /\ (err_reason e = NotFound -> st !! key_of p = None)
      | None => deleted (key_of p) st st'
      end
  | KubeStatusPatch _ p => fun r st' => status_written accepts put_plugin_status p st r st'
  | e => kube_step accepts st _ e
  end.
Definition preset_step (st : plugins) X (e : presetE X) : X -> plugins -> Prop :=
  match e in presetE X return X -> plugins -> Prop with
  | PValues _ => fun _ st' => st' = st
  | PPlugin e => plugin_step st _ e
  | PUpdatePlugin p => fun r st' => written accepts p st r st'
  | PListPlugins namespace presetName => fun r st' => st' = st /\
      match r with
      | Ok l => forall p, p ∈ l <-> st !! key_of p = Some p /\ GetNamespace p = namespace /\
                  GetLabels p !! LabelKeyPluginPreset = Some presetName
      | Err _ => True
      end
  | PListClusters _ _ => fun r st' => st' = st /\
      match r with Ok l => l = selected | Err _ => True end
  | PTeam _ => fun _ st' => st' = st
  | PPanic => fun _ _ => False
  end.

(** What [CreateOrUpdate] may do, given what its mutate function does: after a
    success the key of the object holds the mutated object as the server stored
    it, or the old one where mutating it changes nothing; a failure changes
    nothing, and no other key is touched. *)
Definition upsert_post (F : Plugin -> Plugin -> Prop) (obj : Plugin) (st st' : plugins)
    (r : Plugin * option error) : Prop :=
  let k := key_of obj in
  match r with
  | (_, Some _) => st' = st
  | (o', None) => exists o m,
      ((o = obj /\ st !! k = None) \/ (st !! k = Some o /\ key_of o = k)) /\ F o m /\ key_of m = k /\
      ((accepts m o' /\ st' = <[k := o']> st) \/ (m = o /\ o' = o /\ st !! k = Some o /\ st' = st))
  end.
End store.

Class PresetLibsLaws `{PresetLibs} := {
  CreateOrUpdate_spec accepts selected f obj st F :
    (forall o, wp (preset_step accepts selected) (f o)
                 (fun st' r => st' = st /\ (r.2 = None -> F o r.1)) st) ->
    wp (preset_step accepts selected) (CreateOrUpdate f obj)
      (fun st' r => upsert_post accepts F obj st st' r) st;
  NewAggregate_None errs : NewAggregate errs = None <-> errs = []
}.

(** ** Lemmas *)
Definition unmanaged (preset : PluginPreset) (p : Plugin) : Prop :=
  isPluginManagedByPreset p (GetName preset) = false \/ GetNamespace p <> GetNamespace preset.
Definition managed (preset : PluginPreset) (p : Plugin) : Prop :=
  GetNamespace p = GetNamespace preset /\
  GetLabels p !! LabelKeyPluginPreset = Some (GetName preset).
Definition plugin_key (preset : PluginPreset) (cl : Cluster) : objkey :=
  mk_key (GetNamespace preset) (generatePluginName preset cl).

Lemma managed_not_unmanaged preset p : managed preset p -> unmanaged preset p -> False.
Proof.
  unfold managed, unmanaged, isPluginManagedByPreset. intros [Hn Hl] [H|H]; [|done].
  rewrite Hl in H. by apply bool_decide_eq_false in H.
Qed.
Lemma managed_is preset p : managed preset p -> isPluginManagedByPreset p (GetName preset) = true.
Proof. intros [_ Hl]. apply bool_decide_eq_true. by rewrite Hl. Qed.
Lemma plugin_key_inj preset cl cl' :
  plugin_key preset cl = plugin_key preset cl' -> GetName cl = GetName cl'.
Proof.
  unfold plugin_key, generatePluginName, buildPluginName.
  intros [= H]. apply append_inj_l in H. by injection H.
Qed.

Section mutating.
Variable now : Z.
Context {Libs : PresetLibs} {LibsLaws : PresetLibsLaws} {HC : StateCodec}.
Variable Marshal : string -> string.
Variable MarshalList : list string -> string.
Variable map_order : strmap -> list (string * string).
Variable DNSDomain : string.
Context {Values : Type}.
Variable no_values : Values.
Variable ParseJSON : string -> Values -> result Values.
Variable EvaluateExpression : string -> Values -> result string.
Variable ExpressionEvaluationEnabled : bool.

Local Abbreviation resolve_values := (resolvePluginOptionValuesForPreset Marshal MarshalList map_order
  DNSDomain no_values ParseJSON EvaluateExpression ExpressionEvaluationEnabled).
Local Abbreviation mutate := (mutate_plugin Marshal MarshalList map_order DNSDomain no_values
  ParseJSON EvaluateExpression ExpressionEvaluationEnabled).
Local Abbreviation EnsureCreated := (preset_EnsureCreated now Marshal MarshalList map_order DNSDomain
  no_values ParseJSON EvaluateExpression ExpressionEvaluationEnabled).
Local Abbreviation reconcile_one := (reconcile_plugin Marshal MarshalList map_order DNSDomain
  no_values ParseJSON EvaluateExpression ExpressionEvaluationEnabled).
Local Abbreviation reconcile_all := (reconcilePluginPreset now Marshal MarshalList map_order DNSDomain
  no_values ParseJSON EvaluateExpression ExpressionEvaluationEnabled).

(** *** The mutate function *)
Definition mutated (preset : PluginPreset) (cl : Cluster) (o m : Plugin) : Prop :=
  key_of m = key_of o /\ plugin_ClusterName (plugin_Spec m) = GetName cl /\
  ReleaseName (plugin_Spec m) = getReleaseName o preset /\ plugin_Status m = plugin_Status o.

Lemma Apply_plugin order (preset : PluginPreset) (p : Plugin) :
  let m := Apply order preset p in
  plugin_Spec m = plugin_Spec p /\ plugin_Status m = plugin_Status p /\ key_of m = key_of p.
Proof.
  unfold Apply, storeAppliedState, removeAppliedState.
  destruct (applyLabels _ _ _ _ _), (applyAnnotations _ _ _ _). by destruct (_ || _).
Qed.

Lemma mutate_plugin_post {W} (R : W -> forall X, presetE X -> X -> W -> Prop) preset cl o w :
  wp R (mutate preset cl o) (fun _ r => r.2 = None -> mutated preset cl o r.1) w.
Proof.
  unfold mutate_plugin. destruct (SetControllerReference _ _) as [refs|e]; [|by wp_step].
  wp_step. wp_skip. wp_step; wp_step; [|done]. intros _. cbn [fst].
  pose proof (Apply_plugin (map_order (GetLabels preset)) preset) as HA.
  unfold mutated. edestruct HA as (-> & -> & ->). done.
Qed.

Definition reads_only X (e : presetE X) : Prop :=
  match e with PValues _ => True | _ => False end.
Lemma GetGreenhouseValues_reads p : all_calls reads_only
  (translate (fun _ => PValues) (GetGreenhouseValues Marshal MarshalList map_order DNSDomain p)).
Proof. unfold GetGreenhouseValues, cluster_values. by calls_steps. Qed.
Lemma mutate_plugin_reads preset cl o : all_calls reads_only (mutate preset cl o).
Proof.
  unfold mutate_plugin, resolvePluginOptionValuesForPreset, resolveExpressionsForPreset.
  by repeat first [apply GetGreenhouseValues_reads | calls_step].
Qed.

Lemma mutate_plugin_store accepts selected preset cl st o :
  wp (preset_step accepts selected) (mutate preset cl o)
    (fun st' r => st' = st /\ (r.2 = None -> mutated preset cl o r.1)) st.
Proof.
  apply wp_and; [|apply mutate_plugin_post].
  apply (all_calls_wp reads_only _ (fun st' => st' = st)); [apply mutate_plugin_reads| |done].
  intros st1 X e x st2 -> He. by destruct e.
Qed.

End mutating.

Section pruning.
Variable accepts : Plugin -> Plugin -> Prop.
Variable selected : list Cluster.
Variable preset : PluginPreset.
Variable st0 : plugins.
Local Abbreviation step := (preset_step accepts selected).

(** *** What a pass keeps of the store *)

Definition consistent (st : plugins) : Prop := forall k p, st !! k = Some p -> key_of p = k.
Definition gone_or_marked (k : objkey) (st : plugins) : Prop :=
  forall q, st !! k = Some q -> GetDeletionTimestamp q <> None.
Definition pruned (k : objkey) (st : plugins) : Prop :=
  exists p, st0 !! k = Some p /\ managed preset p /\ validCluster selected p = false /\
    gone_or_marked k st.
Definition made (cls : list Cluster) (k : objkey) : Prop :=
  exists cl, cl ∈ cls /\ GetDeletionTimestamp cl = None /\ k = plugin_key preset cl.
(** unmanaged Plugins are untouched; what changed was pruned or is the Plugin of
    a cluster in [cls] *)
Record kept (cls : list Cluster) (st : plugins) : Prop := mk_kept {
  kept_consistent : consistent st;
  kept_unmanaged : forall k p, st0 !! k = Some p -> unmanaged preset p -> st !! k = Some p;
  kept_changed : forall k, st !! k = st0 !! k \/ pruned k st \/ made cls k
}.

Lemma deleted_ne k k' st st' : deleted k st st' -> k <> k' -> st' !! k' = st !! k'.
Proof.
  intros [->|(p & d & _ & ->)] Hne; [by rewrite lookup_delete_ne|by rewrite lookup_insert_ne].
Qed.
Lemma deleted_gone k st st' : deleted k st st' -> gone_or_marked k st'.
Proof.
  unfold gone_or_marked. intros [->|(p & d & _ & ->)] q.
  - by rewrite lookup_delete_eq.
  - by rewrite lookup_insert_eq; intros [= <-].
Qed.
Lemma deleted_consistent k st st' : deleted k st st' -> consistent st -> consistent st'.
Proof.
  intros Hd Hc k' q Hq. destruct (decide (k = k')) as [->|Hne].
  - destruct Hd as [->|(p & d & Hp & ->)].
    + by rewrite lookup_delete_eq in Hq.
    + rewrite lookup_insert_eq in Hq. simplify_eq. by apply Hc in Hp.
  - rewrite (deleted_ne k k' st st') in Hq by done. by apply Hc.
Qed.

Lemma kept_delete cls st st' p :
  kept cls st -> st0 !! key_of p = Some p -> managed preset p -> validCluster selected p = false ->
  deleted (key_of p) st st' -> kept cls st'.
Proof.
  intros [Hc Hu Hch] Hp Hm Hv Hd. split.
  - by eapply deleted_consistent.
  - intros k q Hq Huq. destruct (decide (key_of p = k)) as [<-|Hne].
    + rewrite Hp in Hq. simplify_eq. by destruct (managed_not_unmanaged preset q).
    + rewrite (deleted_ne (key_of p) k st st') by done. by apply Hu.
  - intros k. destruct (decide (key_of p = k)) as [<-|Hne].
    + right. left. exists p. split_and!; [done..|]. by eapply deleted_gone.
    + unfold pruned, gone_or_marked. rewrite (deleted_ne (key_of p) k st st') by done. apply Hch.
Qed.

(** The store after the Plugin of [cl] was written. *)
Definition served (st : plugins) (cl : Cluster) : Prop :=
  exists p, st !! plugin_key preset cl = Some p /\
    (unmanaged preset p \/ plugin_ClusterName (plugin_Spec p) = GetName cl).
Definition reconciled (cl : Cluster) (st st' : plugins) : Prop :=
  st' = st \/ exists p, st' = <[plugin_key preset cl := p]> st /\ key_of p = plugin_key preset cl /\
    plugin_ClusterName (plugin_Spec p) = GetName cl /\
    forall q, st !! plugin_key preset cl = Some q -> ~ unmanaged preset q.

Lemma kept_reconciled cls cl st st' :
  kept cls st -> cl ∈ cls -> GetDeletionTimestamp cl = None -> reconciled cl st st' -> kept cls st'.
Proof.
  intros [Hc Hu Hch] Hcl Hd [->|(p & -> & Hk & Hn & Hq)]; [done|]. split.
  - intros k q. destruct (decide (plugin_key preset cl = k)) as [<-|Hne].
    + rewrite lookup_insert_eq. by intros [= <-].
    + rewrite lookup_insert_ne by done. apply Hc.
  - intros k q Hkq Huq. rewrite lookup_insert_ne; [by apply Hu|]. intros <-.
    by apply (Hq q); [apply Hu|].
  - intros k. destruct (decide (plugin_key preset cl = k)) as [<-|Hne].
    + right. right. by exists cl.
    + unfold pruned, gone_or_marked. rewrite lookup_insert_ne by done. apply Hch.
Qed.
Lemma served_reconciled cl cl' st st' : reconciled cl st st' -> served st cl' -> served st' cl'.
Proof.
  intros [->|(p & -> & Hk & Hn & Hq)] (q & Hkq & Hsv); [by exists q|].
  destruct (decide (plugin_key preset cl = plugin_key preset cl')) as [He|Hne].
  - exists p. rewrite He, lookup_insert_eq. split; [done|]. right.
    by rewrite Hn; apply plugin_key_inj with preset.
  - exists q. by rewrite lookup_insert_ne.
Qed.

(** no Plugin of the preset is left for a cluster that is not selected *)
Definition cleaned (st : plugins) : Prop :=
  forall k p, st !! k = Some p -> managed preset p ->
    validCluster selected p = true \/ GetDeletionTimestamp p <> None.
Lemma cleaned_reconciled cl st st' :
  cl ∈ selected -> reconciled cl st st' -> cleaned st -> cleaned st'.
Proof.
  intros Hcl [->|(p & -> & Hk & Hn & _)] Hc k q Hq Hm; [by eapply Hc|].
  destruct (decide (plugin_key preset cl = k)) as [<-|Hne].
  - rewrite lookup_insert_eq in Hq. simplify_eq. left. apply contains_func_true.
    exists cl. by rewrite bool_decide_eq_true.
  - rewrite lookup_insert_ne in Hq by done. by eapply Hc.
Qed.

(** *** Cleaning up *)
Lemma gone_deleted k k' st st' : deleted k st st' -> gone_or_marked k' st -> gone_or_marked k' st'.
Proof.
  intros Hd Hg. destruct (decide (k = k')) as [<-|Hne]; [by eapply deleted_gone|].
  unfold gone_or_marked. by rewrite (deleted_ne k k' st st').
Qed.
Lemma delete_plugin_post p st :
  wp step (delete_plugin p) (fun st' err =>
    match err with
    | Some _ => st' = st
    | None => deleted (key_of p) st st' \/ (st' = st /\ st !! key_of p = None)
    end) st.
Proof.
  unfold delete_plugin. do 2 wp_step. destruct x as [e|]; wp_step; unfold ignore_not_found; simpl.
  - destruct Hx as [-> Hx]. case_bool_decide; auto.
  - auto.
Qed.

Lemma cleanup_post :
  consistent st0 ->
  wp step (cleanupPlugins preset selected) (fun st' err => kept [] st' /\ (err = None -> cleaned st')) st0.
Proof.
  intros Hc0. assert (kept [] st0) as Hk0 by (split; auto).
  unfold cleanupPlugins, listPlugins. do 2 wp_step. destruct Hx as [-> Hx].
  destruct x as [l|e]; [|wp_step; by split].
  apply (wp_foreach_bind _ _ _ _ (fun rest st _ => kept [] st /\ (forall p, p ∈ rest -> p ∈ l) /\
    (forall p, p ∈ l -> p ∈ rest \/ validCluster selected p = true \/ gone_or_marked (key_of p) st))).
  - split_and!; [done..|]. auto.
  - intros st [] (Hk & _ & Hl). wp_step. split; [done|]. intros _ k q Hq Hm.
    pose proof (kept_consistent _ _ Hk k q Hq) as Hkq. subst k.
    destruct (kept_changed _ _ Hk (key_of q)) as [He|[(p & _ & _ & _ & Hg)|(cl & []%not_elem_of_nil & _)]].
    + rewrite He in Hq. destruct (Hl q) as [[]%not_elem_of_nil|[?|Hg]]; [|by left|].
      * by apply Hx.
      * right. apply Hg. by rewrite He.
    + right. by apply Hg.
  - intros p rest st [] (Hk & Hin & Hl). destruct (validCluster selected p) eqn:Hv.
    + wp_step. split_and!; [done|set_solver|]. intros q Hq. destruct (Hl q Hq) as [[->|?]%elem_of_cons|?]; auto.
    + wp_step. eapply wp_mono; [|apply delete_plugin_post]. intros st' [e|] Hd; wp_step; [subst; by split|].
      assert (p ∈ l) as (Hp & Hm)%Hx by (apply Hin; left).
      assert (gone_or_marked (key_of p) st' /\ kept [] st' /\
              forall k, gone_or_marked k st -> gone_or_marked k st') as (Hg & Hk' & Hgs).
      { destruct Hd as [Hd|[-> Hn]].
        - split_and!; [by eapply deleted_gone|by eapply kept_delete|]. intros k. by eapply gone_deleted.
        - split_and!; [|done..]. intros q. by rewrite Hn. }
      split_and!; [done|set_solver|]. intros q Hq.
      destruct (Hl q Hq) as [[->|?]%elem_of_cons|[?|?]]; eauto.
Qed.
End pruning.

(** *** A missing definition *)
Definition no_definition_reported (p : PluginPreset) : Prop :=
  exists c, GetConditionByType (preset_conditions (preset_Status p)) PluginFailedCondition = Some c /\
    IsTrue c = true /\ CondReason c = PluginDefinitionNotFound.

Lemma no_definition_reported_set now p : no_definition_reported (no_definition now p).
Proof.
  unfold no_definition_reported, no_definition, preset_condition. cbn.
  rewrite SetConditions_get_other by set_solver. rewrite get_SetConditions. cbn.
  eexists. split; [done|]. done.
Qed.
Lemma no_definition_reported_other now p c :
  CondType c <> PluginFailedCondition -> no_definition_reported p ->
  no_definition_reported (preset_condition now c p).
Proof.
  intros Hc (d & Hd & H). exists d. split; [|done]. unfold preset_condition. cbn.
  rewrite SetConditions_get_other; [done|]. csimpl. set_solver.
Qed.

Section reconciling.
Variable now : Z.
Context {Libs : PresetLibs} {LibsLaws : PresetLibsLaws} {HC : StateCodec}.
Variable Marshal : string -> string.
Variable MarshalList : list string -> string.
Variable map_order : strmap -> list (string * string).
Variable DNSDomain : string.
Context {Values : Type}.
Variable no_values : Values.
Variable ParseJSON : string -> Values -> result Values.
Variable EvaluateExpression : string -> Values -> result string.
Variable ExpressionEvaluationEnabled : bool.

Local Abbreviation resolve_values := (resolvePluginOptionValuesForPreset Marshal MarshalList map_order
  DNSDomain no_values ParseJSON EvaluateExpression ExpressionEvaluationEnabled).
Local Abbreviation mutate := (mutate_plugin Marshal MarshalList map_order DNSDomain no_values
  ParseJSON EvaluateExpression ExpressionEvaluationEnabled).
Local Abbreviation EnsureCreated := (preset_EnsureCreated now Marshal MarshalList map_order DNSDomain
  no_values ParseJSON EvaluateExpression ExpressionEvaluationEnabled).
Local Abbreviation reconcile_one := (reconcile_plugin Marshal MarshalList map_order DNSDomain
  no_values ParseJSON EvaluateExpression ExpressionEvaluationEnabled).
Local Abbreviation reconcile_all := (reconcilePluginPreset now Marshal MarshalList map_order DNSDomain
  no_values ParseJSON EvaluateExpression ExpressionEvaluationEnabled).

Variable accepts : Plugin -> Plugin -> Prop.
Hypothesis accepts_key : forall o o', accepts o o' -> key_of o' = key_of o.
Hypothesis accepts_cluster : forall o o', accepts o o' ->
  plugin_ClusterName (plugin_Spec o') = plugin_ClusterName (plugin_Spec o).
Variable selected : list Cluster.
Variable preset : PluginPreset.
Variable st0 : plugins.
Local Abbreviation step := (preset_step accepts selected).
Local Abbreviation kept := (kept selected preset st0).
Local Abbreviation reconciled := (reconciled preset).
Local Abbreviation served := (served preset).
Local Abbreviation cleaned := (cleaned selected preset).

(** *** One cluster *)
Definition outcome_post (cl : Cluster) (st : plugins) (o : cluster_outcome) : Prop :=
  match o with ClusterDone | ClusterSkipped _ => served st cl | _ => True end.

Lemma upsert_reconciled cl obj st st' r :
  key_of obj = plugin_key preset cl ->
  (forall q, st !! plugin_key preset cl = Some q -> ~ unmanaged preset q) ->
  upsert_post accepts (mutated preset cl) obj st st' r ->
  reconciled cl st st' /\ (r.2 = None -> served st' cl).
Proof.
  intros Hk Hq. unfold upsert_post. rewrite Hk. destruct r as [o' [e|]]; [by intros ->; split; [left|]|].
  intros (o & m & _ & (Hm & Hcl & _) & Hkm & [[Ha ->]|(-> & -> & Ho & ->)]).
  - assert (plugin_ClusterName (plugin_Spec o') = GetName cl) as Hcl'
      by (by rewrite (accepts_cluster _ _ Ha)).
    split.
    + right. exists o'. split_and!; [done| |done|done]. by rewrite (accepts_key _ _ Ha).
    + intros _. exists o'. rewrite lookup_insert_eq. auto.
  - split; [by left|]. intros _. exists o. auto.
Qed.

Lemma reconcile_existing_post cl obj st :
  key_of obj = plugin_key preset cl ->
  (forall q, st !! plugin_key preset cl = Some q -> ~ unmanaged preset q) ->
  wp step (reconcile_existing Marshal MarshalList map_order DNSDomain no_values ParseJSON
             EvaluateExpression ExpressionEvaluationEnabled preset cl obj)
    (fun st' o => reconciled cl st st' /\ outcome_post cl st' o) st.
Proof.
  intros Hk Hq. unfold reconcile_existing. wp_step.
  eapply wp_mono; [|apply (CreateOrUpdate_spec accepts selected _ obj st (mutated preset cl));
                    intros o; apply mutate_plugin_store].
  intros st' [o' err] Hpost. apply (upsert_reconciled cl) in Hpost as [Hr Hs]; [|done..].
  destruct err as [e|]; [|wp_step; by split; [|apply Hs]]. wp_step; by wp_step.
Qed.

Lemma reconcile_plugin_post cl st :
  GetDeletionTimestamp cl = None ->
  wp step (reconcile_one preset cl) (fun st' o => reconciled cl st st' /\ outcome_post cl st' o) st.
Proof.
  intros Hd. unfold reconcile_plugin. do 2 wp_step. destruct Hx as [-> Hx].
  rewrite Hd, bool_decide_eq_false_2 by (by intros []). destruct x as [plugin|e].
  - destruct Hx as [Hp Hk]. wp_step.
    + wp_step. split; [by left|]. exists plugin. split; [done|]. do 2 left. by apply negb_true_iff.
    + apply reconcile_existing_post; [done|]. fold (plugin_key preset cl) in Hp. intros q Hq.
      rewrite Hp in Hq. simplify_eq. intros [Hu|Hu]; [by rewrite Hu in Heqb|].
      apply Hu. by apply (f_equal key_namespace) in Hk.
  - wp_step; [|wp_step; by split; [left|]].
    apply bool_decide_eq_true in Heqb. specialize (Hx Heqb).
    apply reconcile_existing_post; [done|]. intros q Hq.
    fold (plugin_key preset cl) in Hx. by rewrite Hx in Hq.
Qed.

(** *** The loop over the clusters *)
Definition pass_post (cls : list Cluster) (st : plugins) (p' : PluginPreset) (err : option error) : Prop :=
  kept cls st /\ cleaned st /\ (err = None -> no_definition_reported p' \/ forall cl, cl ∈ cls -> served st cl).

Lemma reconcile_all_post cls st :
  (forall cl, cl ∈ cls -> GetDeletionTimestamp cl = None /\ cl ∈ selected) ->
  kept cls st -> cleaned st ->
  wp step (reconcile_all preset cls) (fun st' '(p', err) => pass_post cls st' p' err) st.
Proof.
  intros Hd Hk Hcn. unfold reconcilePluginPreset.
  apply (wp_foreach_bind _ _ _ _ (fun rest st '(errs, skipped, failed) => kept cls st /\ cleaned st /\
    (forall cl, cl ∈ rest -> cl ∈ cls) /\
    (errs = [] -> forall cl, cl ∈ cls -> cl ∈ rest \/ served st cl))).
  - split_and!; [done..|]. auto.
  - intros st' [[errs skipped] failed] (Hk' & Hc' & _ & H). wp_step. split_and!; [done|done|].
    intros Herr. apply NewAggregate_None in Herr. right. intros cl Hcl.
    by destruct (H Herr cl Hcl) as [?%not_elem_of_nil|].
  - intros cl rest st1 [[errs skipped] failed] (Hk1 & Hc1 & Hin & H1). wp_step.
    assert (cl ∈ cls) as Hcl by (apply Hin; left). destruct (Hd cl Hcl) as [Hd1 Hsel].
    eapply wp_mono; [|by apply reconcile_plugin_post]. intros st2 o [Hr Ho]. wp_step.
    assert (kept cls st2) as Hk2 by (by eapply kept_reconciled).
    assert (cleaned st2) as Hc2 by (by eapply cleaned_reconciled).
    assert (forall cl', cl' ∈ cls -> served st2 cl -> cl' ∈ cl :: rest \/ served st1 cl' ->
              cl' ∈ rest \/ served st2 cl') as Hstep.
    { intros cl' _ Hs [[->|?]%elem_of_cons|Hs']; auto. right. by eapply served_reconciled. }
    destruct o; cbn beta iota.
    + split_and!; [done|done|set_solver|]. intros He cl' Hcl'. by apply Hstep; [..|apply H1].
    + split_and!; [done|done|set_solver|]. intros He cl' Hcl'. by apply Hstep; [..|apply H1].
    + split_and!; [done|done|set_solver|]. by intros []%app_eq_nil.
    + wp_step. split_and!; [done|done|]. intros _. left. apply no_definition_reported_set.
    + wp_step. by split_and!.
Qed.


End reconciling.

Section theorems.
Variable now : Z.
Context {Libs : PresetLibs} {LibsLaws : PresetLibsLaws} {HC : StateCodec}.
Variable Marshal : string -> string.
Variable MarshalList : list string -> string.
Variable map_order : strmap -> list (string * string).
Variable DNSDomain : string.
Context {Values : Type}.
Variable no_values : Values.
Variable ParseJSON : string -> Values -> result Values.
Variable EvaluateExpression : string -> Values -> result string.
Variable ExpressionEvaluationEnabled : bool.
Local Abbreviation EnsureCreated := (preset_EnsureCreated now Marshal MarshalList map_order DNSDomain
  no_values ParseJSON EvaluateExpression ExpressionEvaluationEnabled).
Variable accepts : Plugin -> Plugin -> Prop.
Hypothesis accepts_key : forall o o', accepts o o' -> key_of o' = key_of o.
Hypothesis accepts_cluster : forall o o', accepts o o' ->
  plugin_ClusterName (plugin_Spec o') = plugin_ClusterName (plugin_Spec o).
Variable selected : list Cluster.

Lemma kept_mono preset st0 cls cls' st :
  cls ⊆ cls' -> kept selected preset st0 cls st -> kept selected preset st0 cls' st.
Proof.
  intros Hsub [Hc Hu Hch]. split; [done..|]. intros k.
  destruct (Hch k) as [?|[?|(cl & ? & ?)]]; auto. right. right. exists cl. set_solver.
Qed.
Lemma kept_nil preset st0 cls st : kept selected preset st0 [] st -> kept selected preset st0 cls st.
Proof. apply kept_mono. intros x []%not_elem_of_nil. Qed.
Lemma FilterClustersBeingDeleted_elem cls cl :
  cl ∈ FilterClustersBeingDeleted cls <-> cl ∈ cls /\ GetDeletionTimestamp cl = None.
Proof.
  unfold FilterClustersBeingDeleted. rewrite delete_func_elem, bool_decide_eq_false.
  split; intros [? H]; split; [done|by apply dec_stable|done|]. intros Hn. by apply Hn.
Qed.

Lemma EnsureCreated_post preset st0 :
  consistent st0 ->
  wp (preset_step accepts selected) (EnsureCreated preset) (fun st' '(p', (_, res, err)) =>
    kept selected preset st0 selected st' /\
    (res = Success -> cleaned selected preset st' /\
       (no_definition_reported p' \/
        forall cl, cl ∈ selected -> GetDeletionTimestamp cl = None -> served preset st' cl))) st0.
Proof.
  intros Hc0. unfold preset_EnsureCreated, listClusters.
  assert (forall st (p : PluginPreset) e, kept selected preset st0 selected st ->
    wp (preset_step accepts selected) (mret (p, cb_failed e)) (fun st' '(p', (_, res, err)) =>
      kept selected preset st0 selected st' /\
      (res = Success -> cleaned selected preset st' /\
       (no_definition_reported p' \/
        forall cl, cl ∈ selected -> GetDeletionTimestamp cl = None -> served preset st' cl))) st)
    as Hfail by (intros st p e Hk; by wp_step).
  assert (kept selected preset st0 selected st0) as Hk0 by (split; auto).
  wp_step. destruct (LabelSelectorAsSelector _) as [sel|e]; [|wp_step; by apply Hfail].
  wp_step. destruct Hx as [-> Hx]. destruct x as [cls|e]; [|by apply Hfail]. subst cls.
  set (p1 := preset_condition now (cluster_list_condition now selected) (initPluginPresetStatus now preset)).
  assert (forall cls st, kept selected p1 st0 cls st -> kept selected preset st0 cls st) as Hsame
    by (intros ?? []; by split).
  wp_step. eapply wp_mono; [|apply (cleanup_post accepts selected p1 st0 Hc0)].
  intros st1 err [Hk1 Hcl1]. destruct err as [e|]; [by apply Hfail, kept_nil, Hsame|].
  specialize (Hcl1 eq_refl). wp_step.
  eapply wp_mono; [|apply (reconcile_all_post now Marshal MarshalList map_order DNSDomain no_values
    ParseJSON EvaluateExpression ExpressionEvaluationEnabled accepts accepts_key accepts_cluster
    selected p1 st0); [|by apply kept_nil|done]; intros cl [? ?]%FilterClustersBeingDeleted_elem; done].
  intros st2 [p2 err] (Hk2 & Hcl2 & Hs2). assert (kept selected preset st0 selected st2) as Hk2'.
  { eapply kept_mono; [|by apply Hsame]. by intros cl [? _]%FilterClustersBeingDeleted_elem. }
  destruct err as [e|]; [by apply Hfail|]. unfold reconcilePluginStatuses, listPlugins. do 3 wp_step.
  destruct Hx as [-> _]. destruct x as [l|e]; wp_step; [|by apply Hfail]. wp_step.
  split; [done|]. intros _. split; [done|]. destruct (Hs2 eq_refl) as [Hn|Hs].
  - left. unfold set_plugin_statuses. apply no_definition_reported_other; [|done]. by case_if.
  - right. intros cl Hin Hd. by apply Hs, FilterClustersBeingDeleted_elem.
Qed.

(** C10: a pass touches nothing but its own Plugins: starting from any stored
    Plugins, whatever fails on the way, a Plugin without the preset's label (or of
    another namespace) is stored unchanged, and every key whose Plugin changed
    either held a Plugin of this preset whose cluster is not selected, which is now
    gone or being deleted, or is the generated key of a selected cluster that is
    not being deleted. *)
Theorem EnsureCreated_touches_own preset st0 :
  consistent st0 ->
  wp (preset_step accepts selected) (EnsureCreated preset) (fun st' _ =>
    (forall k p, st0 !! k = Some p -> unmanaged preset p -> st' !! k = Some p) /\
    forall k, st' !! k = st0 !! k \/ pruned selected preset st0 k st' \/ made preset selected k) st0.
Proof.
  intros Hc. eapply wp_mono; [|by apply EnsureCreated_post].
  by intros st' [p' [[r res] err]] [[_ Hu Hch] _].
Qed.

End theorems.

(** ** Deletion *)
Section deletion.
Context {Libs : PresetLibs}.
Variable accepts : Plugin -> Plugin -> Prop.
Variable selected : list Cluster.
Variable preset : PluginPreset.
Variable st0 : plugins.
Local Abbreviation step := (preset_step accepts selected).

(** A Plugin that was retained. *)
Definition retained (st : plugins) (p : Plugin) : Prop :=
  exists q, st !! key_of p = Some q /\
    ((om_owners (get_meta p) = [] /\ q = p) \/
     exists refs, RemoveOwnerReference preset p = Ok refs /\
       let p' := set_meta (with_owners refs (get_meta p)) p in (q = p /\ p' = p) \/ accepts p' q).

Lemma retain_one p st :
  st !! key_of p = Some p \/ retained st p ->
  wp step (translate (fun _ => PPlugin) (Patch (mutate_retain preset) p)) (fun st' '(_, (_, err)) =>
    (st' = st \/ (err = None /\ exists q, st' = <[key_of p := q]> st)) /\
    (err = None -> retained st' p)) st.
Proof.
  intros Hp. wp_step. unfold Patch, patch, mutate_retain.
  assert (forall p', p' = p -> (om_owners (get_meta p) = [] \/
            exists refs, RemoveOwnerReference preset p = Ok refs /\
              p' = set_meta (with_owners refs (get_meta p)) p) -> retained st p) as Hsame.
  { intros p' -> Ho. destruct Hp as [Hp|]; [|done]. exists p. split; [done|].
    destruct Ho as [Ho|(refs & Hr & He)]; [by left|]. right. exists refs. split; [done|]. by left. }
  case_bool_decide as Ho.
  - rewrite bool_decide_eq_true_2 by done. wp_step. split; [by left|]. intros _. eauto.
  - destruct (RemoveOwnerReference preset p) as [refs|e] eqn:Hr; [|wp_step; by split; [left|]].
    case_bool_decide as He; [wp_step; split; [by left|]; intros _; eauto|].
    wp_step. wp_step. unfold preset_step, plugin_step, kube_step, written in Hx.
    destruct x as [q|e]; wp_step; [|by subst; split; [left|]]. destruct Hx as [Ha ->].
    split; [right; split; [done|by exists q]|]. intros _. exists q. rewrite lookup_insert_eq. split; [done|].
    right. exists refs. split; [done|]. by right.
Qed.

Definition same_keys (st : plugins) : Prop := forall k, is_Some (st !! k) <-> is_Some (st0 !! k).

Lemma retain_plugins_post l :
  (forall p, p ∈ l <-> st0 !! key_of p = Some p /\ managed preset p) ->
  wp step (retain_plugins preset l) (fun st errs =>
    same_keys st /\ (forall k p, st0 !! k = Some p -> unmanaged preset p -> st !! k = Some p) /\
    (errs = [] -> forall p, p ∈ l -> retained st p)) st0.
Proof.
  intros Hl. unfold retain_plugins.
  apply (wp_foreach_bind _ _ _ _ (fun rest st errs => (forall p, p ∈ rest -> p ∈ l) /\ same_keys st /\
    (forall k p, st0 !! k = Some p -> unmanaged preset p -> st !! k = Some p) /\
    (forall p, p ∈ l -> retained st p \/ (st !! key_of p = Some p /\ (p ∈ rest \/ errs <> []))))).
  - split_and!; [done|done|done|]. intros p Hp. right. split; [by apply Hl|by left].
  - intros st errs (_ & Hk & Hu & H). wp_step. split_and!; [done|done|]. intros -> p Hp.
    destruct (H p Hp) as [?|(_ & [[]%not_elem_of_nil|?])]; done.
  - intros p rest st errs (Hin & Hk & Hu & H).
    assert (p ∈ l) as Hpl by (apply Hin; left). destruct (proj1 (Hl p) Hpl) as [Hp0 Hm].
    rewrite (managed_is _ _ Hm).
    wp_step. eapply wp_mono; [|apply retain_one; destruct (H p Hpl) as [?|[? _]]; auto].
    intros st' [o [res err]] [Hst Hret]. wp_step.
    assert (forall k, k <> key_of p -> st' !! k = st !! k) as Hother.
    { intros k Hne. destruct Hst as [->|(_ & q & ->)]; [done|]. by rewrite lookup_insert_ne. }
    split_and!; [set_solver| | |].
    + intros k. destruct (decide (k = key_of p)) as [->|Hne]; [|by rewrite Hother].
      rewrite Hp0. split; [eauto|]. intros _.
      destruct Hst as [->|(_ & q & ->)]; [by apply Hk; rewrite Hp0|rewrite lookup_insert_eq; eauto].
    + intros k q Hq Huq. destruct (decide (k = key_of p)) as [->|Hne]; [|by rewrite Hother; auto].
      rewrite Hp0 in Hq. simplify_eq. by destruct (managed_not_unmanaged preset q).
    + intros q Hq. destruct (decide (key_of q = key_of p)) as [He|Hne].
      * assert (q = p) as -> by (apply Hl in Hq as [Hq _]; rewrite He, Hp0 in Hq; by simplify_eq).
        destruct err as [e|]; [|by left; apply Hret].
        destruct Hst as [->|[? _]]; [|done].
        destruct (H p Hpl) as [?|[? _]]; [by left|]. right. split; [done|]. right.
        by intros []%app_eq_nil.
      * destruct (H q Hq) as [(q' & Hq' & Hr)|(Hq' & Hr)].
        -- left. exists q'. by rewrite Hother.
        -- right. rewrite Hother by done. split; [done|].
           destruct Hr as [[->|?]%elem_of_cons|Hr]; [done|by left|right]. by intros []%app_eq_nil.
Qed.
Lemma delete_plugins_post l :
  (forall p, p ∈ l <-> st0 !! key_of p = Some p /\ managed preset p) ->
  wp step (delete_plugins l) (fun st errs =>
    (forall k p, st0 !! k = Some p -> unmanaged preset p -> st !! k = Some p) /\
    (l = [] -> st = st0) /\
    (errs = [] -> forall p, p ∈ l -> gone_or_marked (key_of p) st)) st0.
Proof.
  intros Hl. unfold delete_plugins.
  apply (wp_foreach_bind _ _ _ _ (fun rest st errs => (forall p, p ∈ rest -> p ∈ l) /\
    (l = [] -> st = st0) /\
    (forall k p, st0 !! k = Some p -> unmanaged preset p -> st !! k = Some p) /\
    (errs = [] -> forall p, p ∈ l -> p ∈ rest \/ gone_or_marked (key_of p) st))).
  - split_and!; try done. auto.
  - intros st errs (_ & H0 & Hu & H). wp_step. split_and!; [done|done|]. intros He p Hp.
    by destruct (H He p Hp) as [[]%not_elem_of_nil|].
  - intros p rest st errs (Hin & H0 & Hu & H). assert (p ∈ l) as Hpl by (apply Hin; left).
    destruct (proj1 (Hl p) Hpl) as [Hp Hm]. wp_step.
    eapply wp_mono; [|apply delete_plugin_post]. intros st' err Hd. wp_step.
    assert (forall k, k <> key_of p -> st' !! k = st !! k) as Hother.
    { intros k Hne. destruct err; [by rewrite Hd|]. destruct Hd as [Hd|[-> _]]; [|done].
      by eapply deleted_ne. }
    split_and!; [set_solver|by intros ->; apply not_elem_of_nil in Hpl| |].
    + intros k q Hq Huq. destruct (decide (k = key_of p)) as [->|Hne]; [|by rewrite Hother; auto].
      rewrite Hp in Hq. simplify_eq. by destruct (managed_not_unmanaged preset q).
    + intros He q Hq. apply app_eq_nil in He as [He Herr]. destruct err; [done|].
      destruct Hd as [Hd|[-> Hn]].
      * destruct (H He q Hq) as [[->|?]%elem_of_cons|Hg]; [right; by eapply deleted_gone|by left|].
        right. by eapply gone_deleted.
      * destruct (H He q Hq) as [[->|?]%elem_of_cons|Hg]; auto. right. intros r. by rewrite Hn.
Qed.

(** Deleting a preset.  Whatever fails, Plugins it does not manage stay as they
    are.  With the policy Retain no Plugin is deleted, and success means that every
    Plugin of the preset lost its owner reference; otherwise success means that the
    preset had no Plugin left and nothing was changed, and a pass without an error
    leaves each of its Plugins gone or being deleted. *)
Theorem EnsureDeleted_releases :
  consistent st0 ->
  wp step (preset_EnsureDeleted preset) (fun st '(p', (_, res, err)) => p' = preset /\
    (forall k p, st0 !! k = Some p -> unmanaged preset p -> st !! k = Some p) /\
    if bool_decide (preset_DeletionPolicy (preset_Spec preset) = DeletionPolicyRetain) then
      same_keys st /\
      (res = Success -> forall k p, st0 !! k = Some p -> managed preset p -> retained st p)
    else
      (res = Success -> st = st0 /\ forall k p, st0 !! k = Some p -> ~ managed preset p) /\
      (err = None -> forall k p, st0 !! k = Some p -> managed preset p -> gone_or_marked k st)) st0.
Proof.
  intros Hc. unfold preset_EnsureDeleted, listPlugins. do 2 wp_step. destruct Hx as [-> Hx].
  destruct x as [l|e]; [|wp_step; split_and!; [done|done|]; by case_bool_decide].
  assert (forall k p, st0 !! k = Some p -> managed preset p -> p ∈ l) as Hin.
  { intros k p Hp Hm. apply Hx. pose proof (Hc k p Hp) as <-. by split. }
  case_bool_decide.
  - wp_step. eapply wp_mono; [|by apply retain_plugins_post]. intros st errs (Hk & Hu & Hr).
    case_bool_decide as He; wp_step; split_and!; try done.
    intros _ k p Hp Hm. by apply Hr, (Hin k).
  - wp_step. eapply wp_mono; [|by apply delete_plugins_post]. intros st errs (Hu & H0 & Hd).
    case_bool_decide as He; [by wp_step|].
    assert (forall k p, st0 !! k = Some p -> managed preset p -> gone_or_marked k st) as Hg.
    { intros k p Hp Hm. rewrite <-(Hc k p Hp). by apply Hd, (Hin k). }
    case_bool_decide as Hl; wp_step; split_and!; try done.
    subst l. intros _. split; [by apply H0|].
    intros k p Hp Hm. apply Hin in Hp; [|done]. by apply not_elem_of_nil in Hp.
Qed.
End deletion.

(** ** Status conditions and counts *)
Section status.
Variable now : Z.
Context {Libs : PresetLibs} {HC : StateCodec}.
Variable Marshal : string -> string.
Variable MarshalList : list string -> string.
Variable map_order : strmap -> list (string * string).
Variable DNSDomain : string.
Context {Values : Type}.
Variable no_values : Values.
Variable ParseJSON : string -> Values -> result Values.
Variable EvaluateExpression : string -> Values -> result string.
Variable ExpressionEvaluationEnabled : bool.
Local Abbreviation EnsureCreated := (preset_EnsureCreated now Marshal MarshalList map_order DNSDomain
  no_values ParseJSON EvaluateExpression ExpressionEvaluationEnabled).

(** Every exposed condition is present. *)
Definition all_exposed (sc : StatusConditions) : Prop :=
  forall t, t ∈ presetExposedConditions -> is_Some (GetConditionByType sc t).
Definition exposed (p : PluginPreset) : Prop := all_exposed (preset_conditions (preset_Status p)).
Definition preset_not_panic X (e : presetE X) : Prop :=
  match e with PPanic => False | _ => True end.

Lemma exposed_condition c p : exposed p -> exposed (preset_condition now c p).
Proof.
  intros He t Ht. destruct (He t Ht) as [d Hd]. cbn. rewrite get_SetConditions.
  case_bool_decide; [eauto|]. by rewrite Hd.
Qed.
Lemma exposed_statuses l p : exposed p -> exposed (set_plugin_statuses now l p).
Proof. intros He. by apply exposed_condition. Qed.
Local Hint Resolve exposed_condition exposed_statuses : core.

Lemma EnsureCreated_exposed {W} (R : W -> forall X, presetE X -> X -> W -> Prop) preset w :
  wp R (EnsureCreated preset) (fun _ r => exposed r.1) w.
Proof.
  unfold preset_EnsureCreated.
  assert (exposed (initPluginPresetStatus now preset)) as Hi by (intros t; apply init_conditions_get).
  revert Hi. generalize (initPluginPresetStatus now preset) as p. intros p Hp.
  wp_step. wp_skip. wp_step; [|wp_step; by apply exposed_condition].
  wp_step. wp_skip. wp_step; [wp_step; by apply exposed_condition|]. wp_step.
  apply wp_mono with (Q := fun _ r => exposed r.1).
  - intros w2 [p2 err] Hp2. wp_step; [by wp_step|]. wp_step.
    unfold reconcilePluginStatuses. wp_step. wp_skip. wp_step; wp_step; wp_step; cbn [fst] in *; auto.
  - unfold reconcilePluginPreset.
    apply (wp_foreach_bind _ _ _ _ (fun _ _ _ => True)); [done| |].
    + intros w3 [[errs skipped] failed] _. wp_step. cbn [fst]. unfold report_failed, report_skipped. by repeat apply exposed_condition.
    + intros cl rest w3 [[errs skipped] failed] _. wp_step.
      eapply wp_mono; [intros w4 o _|apply wp_true]. wp_step. destruct o; try done; wp_step; cbn [fst]; unfold no_definition; by repeat apply exposed_condition.
Qed.

Lemma computeReadyCondition_exposed sc : all_exposed sc -> exists c, computeReadyCondition sc = Some c /\
  (IsTrue c = true <->
    forall t d, GetConditionByType sc t = Some d ->
      (t = AllPluginsReadyCondition -> IsFalse d = false) /\
      (t ∈ [PluginFailedCondition; PluginDefinitionNotFoundCondition; ClusterListEmpty] ->
       IsTrue d = false)).
Proof.
  intros He.
  destruct (He ReadyCondition) as [c Hc]; [set_solver|].
  destruct (He PluginFailedCondition) as [f Hf]; [set_solver|].
  destruct (He PluginDefinitionNotFoundCondition) as [n Hn]; [set_solver|].
  destruct (He ClusterListEmpty) as [e Hem]; [set_solver|].
  destruct (He AllPluginsReadyCondition) as [a Ha]; [set_solver|].
  unfold computeReadyCondition. rewrite Hc, Hf, Hn, Hem, Ha. cbn [mbind option_bind].
  destruct (IsTrue f) eqn:Ef; [|destruct (IsTrue n) eqn:En; [|destruct (IsTrue e) eqn:Ee;
    [|destruct (IsFalse a) eqn:Ea]]]; (eexists; split; [done|]); split; try done; intros H.
  - destruct (H PluginFailedCondition f Hf) as [_ H']. rewrite H' in Ef; set_solver.
  - destruct (H PluginDefinitionNotFoundCondition n Hn) as [_ H']. rewrite H' in En; set_solver.
  - destruct (H ClusterListEmpty e Hem) as [_ H']. rewrite H' in Ee; set_solver.
  - destruct (H AllPluginsReadyCondition a Ha) as [H' _]. by rewrite H' in Ea.
  - intros t d Hd. split; [intros ->; congruence|].
    intros [->|[->|[->|[]%not_elem_of_nil]%elem_of_cons]%elem_of_cons]%elem_of_cons; congruence.
Qed.

(** The status conditioner dereferences four conditions without a check; run
    after [EnsureCreated], as the lifecycle does, it never panics, whatever the
    object looked like and the API server answers; and the Ready condition it
    computes is True exactly when no plugin failed, the plugin definition was found,
    the cluster list is not empty and AllPluginsReady is not False. *)
Theorem preset_conditioner_never_panics {W} (R : W -> forall X, presetE X -> X -> W -> Prop) preset w :
  wp R (EnsureCreated preset) (fun _ r =>
    all_calls preset_not_panic (preset_setConditions now r.1) /\
    exists c, computeReadyCondition (preset_conditions (preset_Status r.1)) = Some c /\
      (IsTrue c = true <->
        forall t d, GetConditionByType (preset_conditions (preset_Status r.1)) t = Some d ->
          (t = AllPluginsReadyCondition -> IsFalse d = false) /\
          (t ∈ [PluginFailedCondition; PluginDefinitionNotFoundCondition; ClusterListEmpty] ->
           IsTrue d = false))) w.
Proof.
  eapply wp_mono; [|apply EnsureCreated_exposed]. intros w' [p r] Hp. cbn [fst] in *.
  split; [|by apply computeReadyCondition_exposed].
  unfold preset_setConditions.
  eapply (all_calls_bind_post _ exposed).
  - unfold reconcilePluginDefinitionVersion, GetPluginDefinitionSpec. by calls_steps.
  - unfold reconcilePluginDefinitionVersion. wp_step. wp_skip. wp_step; wp_step; by apply exposed_condition.
  - intros p' Hp'. destruct (computeReadyCondition_exposed _ Hp') as (c & -> & _).
    calls_step; [|by calls_steps]. calls_step. by apply all_calls_any.
Qed.

Lemma count_statuses_total l : count_statuses l true + count_statuses l false = length l.
Proof.
  unfold count_statuses. induction l as [|[s b] l IH]; [done|]. simpl. destruct b; simpl; lia.
Qed.
Lemma count_statuses_all l : count_statuses l true = length l <-> forall s b, (s, b) ∈ l -> b = true.
Proof.
  unfold count_statuses. induction l as [|[s b] l IH]; [split; [by intros _ ?? []%not_elem_of_nil|done]|].
  simpl. pose proof (count_statuses_total l) as Ht. unfold count_statuses in Ht.
  destruct b; simpl.
  - split; [|intros H; f_equal; apply IH; set_solver].
    intros [= H] s' b' [[= -> ->]|Hin]%elem_of_cons; [done|]. by eapply IH.
  - split; [lia|]. intros H. by specialize (H s false ltac:(left)).
Qed.

(** The counts in the status add up: after a successful count there is one
    status per listed Plugin whose Ready condition is set, in the order of the
    list; ready and failed Plugins together are the total, the ready ones being
    exactly those whose Ready condition is True, and AllPluginsReady is True
    exactly when there is a Plugin and none failed. *)
Theorem reconcilePluginStatuses_counts preset h :
  wp (traced any_answer) (reconcilePluginStatuses now preset) (fun h' '(p, err) =>
    let s := preset_Status p in
    err = None -> exists l, h' = h ++ [Call (PListPlugins (GetNamespace preset) (GetName preset)) (Ok l)] /\
      PluginStatuses s = omap (fun q =>
        mk_mps (GetName q) <$> GetConditionByType (plugin_conditions (plugin_Status q)) ReadyCondition) l /\
      TotalPlugins s = length (PluginStatuses s) /\
      ReadyPlugins s = length (List.filter (fun m => IsTrue (mps_ReadyCondition m)) (PluginStatuses s)) /\
      (ReadyPlugins s + FailedPlugins s = TotalPlugins s)%nat /\
      exists c, GetConditionByType (preset_conditions s) AllPluginsReadyCondition = Some c /\
        (IsTrue c = true <-> (0 < TotalPlugins s)%nat /\ FailedPlugins s = 0%nat)) h.
Proof.
  unfold reconcilePluginStatuses, listPlugins. do 2 wp_step. destruct Hx as [_ ->].
  destruct x as [l|e]; wp_step; [|done]. intros _. exists l. split; [done|].
  set (ss := omap plugin_status_of l). pose proof (count_statuses_total ss) as Ht.
  unfold set_plugin_statuses, preset_condition. cbn -[count_statuses length].
  assert (ss.*1 = omap (fun q => mk_mps (GetName q) <$>
            GetConditionByType (plugin_conditions (plugin_Status q)) ReadyCondition) l /\
          length (List.filter (fun m => IsTrue (mps_ReadyCondition m)) ss.*1) = count_statuses ss true) as [<- Hr].
  { subst ss. clear Ht. unfold count_statuses. induction l as [|q l [IH1 IH2]]; [done|]. csimpl.
    destruct (plugin_status_of q) as [[m b]|] eqn:Hq; unfold plugin_status_of in Hq;
      destruct (GetConditionByType _ ReadyCondition) as [c|]; simpl in Hq; simplify_eq; [|by split].
    csimpl. rewrite <-IH1. split; [done|]. destruct (IsTrue c); csimpl; by rewrite IH2. }
  rewrite length_fmap, Hr. split_and!; [done..|].
  rewrite get_SetConditions, bool_decide_eq_true_2 by (by case_if).
  eexists. split; [done|].
  match goal with |- context [set_ltt ?t _] => generalize t end. intros t.
  repeat case_bool_decide; cbn [andb]; (split; [done || lia|]); done || lia.
Qed.
End status.

(** ** Cluster-specific overrides *)
Fixpoint find_option (name : string) (l : list PluginPresetPluginOptionValue) :
    option PluginPresetPluginOptionValue :=
  match l with
  | [] => None
  | v :: l' => if bool_decide (pov_Name v = name) then Some v else find_option name l'
  end.
(** The overrides of the first entry for the cluster. *)
Definition overrides_for (preset : PluginPreset) (clusterName : string) :
    list PluginPresetPluginOptionValue :=
  match List.find (fun o => bool_decide (coo_ClusterName o = clusterName))
          (ClusterOptionOverrides (preset_Spec preset)) with
  | Some o => Overrides o
  | None => []
  end.

Lemma apply_override_cons v vals o :
  apply_override (v :: vals) o =
  if bool_decide (pov_Name v = pov_Name o) then o :: vals else v :: apply_override vals o.
Proof.
  unfold apply_override. cbn [index_func]. case_bool_decide; [done|].
  by destruct (index_func vals _).
Qed.
Lemma find_apply_override n vals o :
  find_option n (apply_override vals o) =
  if bool_decide (pov_Name o = n) then Some o else find_option n vals.
Proof.
  induction vals as [|v vals IH]; [done|]. rewrite apply_override_cons.
  destruct (decide (pov_Name v = pov_Name o)) as [He|Hne].
  - rewrite bool_decide_eq_true_2 by done. simpl. rewrite He. by case_bool_decide.
  - rewrite (bool_decide_eq_false_2 (pov_Name v = pov_Name o)) by done. simpl. rewrite IH.
    repeat case_bool_decide; congruence.
Qed.
Lemma apply_override_names n vals o :
  n ∈ pov_Name <$> apply_override vals o <-> n = pov_Name o \/ n ∈ pov_Name <$> vals.
Proof.
  induction vals as [|v vals IH]; [csimpl; set_solver|]. rewrite apply_override_cons.
  case_bool_decide; csimpl; set_solver.
Qed.
Lemma apply_override_NoDup vals o :
  NoDup (pov_Name <$> vals) -> NoDup (pov_Name <$> apply_override vals o).
Proof.
  induction vals as [|v vals IH]; [intros; apply NoDup_singleton|]. rewrite apply_override_cons.
  csimpl. intros [Hv Hn]%NoDup_cons. case_bool_decide as He; csimpl; apply NoDup_cons.
  - by rewrite <-He.
  - split; [rewrite apply_override_names; naive_solver|auto].
Qed.
Lemma find_option_app n l l' :
  find_option n (l ++ l') =
  match find_option n l with Some v => Some v | None => find_option n l' end.
Proof. induction l as [|v l IH]; simpl; [done|]. by case_bool_decide. Qed.
Lemma find_overrides n ovs vals :
  find_option n (fold_left apply_override ovs vals) =
  match find_option n (reverse ovs) with Some o => Some o | None => find_option n vals end.
Proof.
  revert vals. induction ovs as [|o ovs IH]; intros vals; [done|]. cbn [fold_left].
  rewrite IH, find_apply_override, reverse_cons, find_option_app. simpl.
  destruct (find_option n (reverse ovs)); [done|]. by case_bool_decide.
Qed.

Lemma index_func_find {A} (f : A -> bool) l :
  match index_func l f with
  | Some i => exists a, l !! i = Some a /\ List.find f l = Some a
  | None => List.find f l = None
  end.
Proof.
  induction l as [|a l IH]; simpl; [done|]. destruct (f a); [by exists a|].
  by destruct (index_func l f).
Qed.

(** Overrides are applied by name: for the cluster's overrides (the first entry
    that names the cluster, none if there is none) the resulting option values
    answer every lookup by option name with the last override of that name, and with
    the preset's own value when there is none; nothing else of the preset changes,
    and names stay unique. *)
Theorem applyOverridesToPreset_lookup preset clusterName :
  let result := applyOverridesToPreset preset clusterName in
  let ovs := overrides_for preset clusterName in
  (forall n, find_option n (preset_values result) =
     match find_option n (reverse ovs) with
     | Some o => Some o | None => find_option n (preset_values preset) end) /\
  preset_set_values (preset_values preset) result = preset /\
  (NoDup (pov_Name <$> preset_values preset) -> NoDup (pov_Name <$> preset_values result)).
Proof.
  cbn zeta. unfold applyOverridesToPreset, overrides_for.
  pose proof (index_func_find (fun o => bool_decide (coo_ClusterName o = clusterName))
    (ClusterOptionOverrides (preset_Spec preset))) as Hi.
  assert (preset_set_values (preset_values preset) preset = preset) as Hid
    by (by destruct preset as [? [[]] ?]).
  destruct (index_func _ _) as [i|]; [|by rewrite Hi].
  destruct Hi as (o & -> & ->). split_and!.
  - intros n. apply find_overrides.
  - exact Hid.
  - intros Hn. cbn. revert Hn. generalize (preset_values preset).
    induction (Overrides o) as [|v ovs IH]; intros vals Hn; [done|].
    cbn [fold_left]. by apply IH, apply_override_NoDup.
Qed.

(** ** Watches ([enqueue...] functions) *)
Inductive presetListE : Type -> Type :=
| ListPresets (namespace : option string) (label : option (string * string)) :
    presetListE (result (list PluginPreset)).
Definition listPluginPresetAsReconcileRequests (namespace : option string)
    (label : option (string * string)) : prog presetListE (list objkey) :=
  r ← trigger (ListPresets namespace label);
  match r with Err _ => mret [] | Ok presets => mret (key_of <$> presets) end.
Definition enqueueAllPluginPresetsInNamespace {O} `{Object O} (obj : O) :=
  listPluginPresetAsReconcileRequests (Some (GetNamespace obj)) None.
Definition enqueuePluginPresetsForPluginDefinition {O} `{Object O} (obj : O) :=
  listPluginPresetAsReconcileRequests (Some (GetNamespace obj))
    (Some (LabelKeyPluginDefinition, GetName obj)).
Definition enqueuePluginPresetsForClusterPluginDefinition {O} `{Object O} (obj : O) :=
  listPluginPresetAsReconcileRequests None (Some (LabelKeyClusterPluginDefinition, GetName obj)).

(** ** A concrete instance *)
Module PresetRun.
#[local] Existing Instance PropagationRun.separated_codec.
Definition upsert (f : Plugin -> prog presetE (Plugin * option error)) (obj : Plugin) :
    prog presetE (Plugin * option error) :=
  r ← trigger (PPlugin (KubeGet (key_of obj)));
  match r with
  | Err e =>
      if negb (is_not_found (Some e)) then mret (obj, Some e)
      else
        '(m, err) ← f obj;
        match err with
        | Some e => mret (m, Some e)
        | None =>
            if negb (bool_decide (key_of m = key_of obj)) then mret (m, Some (new_error "key"))
            else
              c ← trigger (PPlugin (KubeCreate m));
              match c with Err e => mret (m, Some e) | Ok o => mret (o, None) end
        end
  | Ok old =>
      '(m, err) ← f old;
      match err with
      | Some e => mret (m, Some e)
      | None =>
          if negb (bool_decide (key_of m = key_of obj)) then mret (m, Some (new_error "key"))
          else if bool_decide (m = old) then mret (old, None)
          else
            u ← trigger (PUpdatePlugin m);
            match u with Err e => mret (m, Some e) | Ok o => mret (o, None) end
      end
  end.
#[local] Instance libs : PresetLibs := {|
  SetControllerReference p _ := Ok [mk_ref "PluginPreset" (GetName p) (om_uid (get_meta p)) true];
  RemoveOwnerReference p q :=
    Ok (List.filter (fun r => negb (bool_decide (ref_name r = GetName p))) (om_owners (get_meta q)));
  CreateOrUpdate := upsert;
  NewAggregate errs := match errs with [] => None | e :: _ => Some e end;
  first_cause _ := None;
  LabelSelectorAsSelector s := Ok s
|}.

Lemma upsert_spec accepts selected f obj st F :
  (forall o, wp (preset_step accepts selected) (f o)
               (fun st' r => st' = st /\ (r.2 = None -> F o r.1)) st) ->
  wp (preset_step accepts selected) (upsert f obj)
    (fun st' r => upsert_post accepts F obj st st' r) st.
Proof.
  intros Hf. unfold upsert. do 2 wp_step. destruct Hx as [-> Hx]. destruct x as [old|e].
  - destruct Hx as [Hold Hk]. wp_step. eapply wp_mono; [|apply Hf].
    intros st1 [m [e|]] [-> HF]; [by wp_step|]. specialize (HF eq_refl). wp_step; [by wp_step|].
    apply negb_false_iff, bool_decide_eq_true in Heqb. case_bool_decide as Hm.
    + wp_step. exists old, m. subst m.
      split_and!; [by right|done|done|by right].
    + do 2 wp_step. destruct x as [o|e]; wp_step; [|done].
      cbn in Hx. destruct Hx as [Ha ->]. exists old, m. rewrite Heqb.
      split_and!; [by right|done|done|by left].
  - wp_step; [by wp_step|]. apply negb_false_iff, bool_decide_eq_true in Heqb.
    specialize (Hx Heqb). wp_step. eapply wp_mono; [|apply Hf].
    intros st1 [m [e'|]] [-> HF]; [by wp_step|]. specialize (HF eq_refl). wp_step; [by wp_step|].
    apply negb_false_iff, bool_decide_eq_true in Heqb0.
    do 2 wp_step. destruct Hx0 as [Hw Hc]. destruct x as [o|e']; wp_step; [|done].
    destruct Hw as [Ha ->]. exists obj, m. rewrite Heqb0.
    split_and!; [by left|done|done|by left].
Qed.
#[local] Instance libs_laws : PresetLibsLaws.
Proof. split; [intros; by apply upsert_spec|]. by intros []. Qed.

Definition example_preset : PluginPreset :=
  mk_preset (named "kube-monitoring" "org")
    (mk_preset_spec (mk_preset_plugin_spec (mk_pdr "kube-monitoring" PluginDefinitionKind) ""
       [mk_pov "replicas" (Some "1") None None] "monitoring" "prom" "" [])
       "env=prod" [mk_coo "c1" [mk_pov "replicas" (Some "3") None None]] [] DeletionPolicyDelete)
    (mk_preset_status [] [] 0 0 0 "").
Definition example_cluster (n : string) : Cluster :=
  mk_cluster (named n "org") (mk_cluster_spec "direct" 0) (mk_cluster_status "" None [] None).
Definition example_plugin (name cluster : string) (labels : strmap) : Plugin :=
  mk_plugin (with_labels labels (named name "org"))
    (mk_plugin_spec (mk_pdr "x" "") "" [] cluster "" "" "" [] []) empty_plugin_status.
Definition own : strmap := {[LabelKeyPluginPreset := "kube-monitoring"]}.
(** A Plugin of somebody else under a generated name, and a dangling one. *)
Definition example_store : plugins :=
  list_to_map ((fun p => (key_of p, p)) <$>
    [example_plugin "kube-monitoring-c2" "c2" ∅; example_plugin "kube-monitoring-c9" "c9" own]).
Definition selected : list Cluster := [example_cluster "c1"; example_cluster "c2"].

Lemma example_consistent : consistent example_store.
Proof.
  intros k p Hp. unfold example_store in Hp. apply elem_of_list_to_map_2 in Hp.
  apply list_elem_of_fmap in Hp as (q & [= -> ->] & _). done.
Qed.

(** A server that answers every call, and a run against it ([None] on a panic). *)
Fixpoint run_store {A} (handler : forall X, presetE X -> plugins -> option (X * plugins))
    (p : prog presetE A) (st : plugins) : option (A * plugins) :=
  match p with
  | PRet a => Some (a, st)
  | PVis e k => '(x, st) ← handler _ e st; run_store handler (k x) st
  end.
Definition serve (X : Type) (e : presetE X) : plugins -> option (X * plugins) :=
  match e in presetE X return plugins -> option (X * plugins) with
  | PValues e =>
      match e in valuesE X return plugins -> option (X * plugins) with
      | VDefinition e =>
          match e in definitionE X return plugins -> option (X * plugins) with
          | GetPluginDefinition _ => fun st => Some (Err (new_error "down"), st)
          | GetClusterPluginDefinition _ => fun st => Some (Err (new_error "down"), st)
          end
      | VListClusters _ => fun st => Some (Ok selected, st)
      | VListTeams _ => fun st => Some (Ok [], st)
      | VGetCluster _ => fun st => Some (Err (new_error "down"), st)
      | VGetSecret _ => fun st => Some (Err (new_error "down"), st)
      end
  | PPlugin e =>
      match e in kubeE _ X return plugins -> option (X * plugins) with
      | KubeGet k => fun st =>
          Some (match st !! k with Some p => Ok p | None => Err (mk_error NotFound "not found") end, st)
      | KubeCreate p => fun st => Some (Ok p, <[key_of p := p]> st)
      | KubePatch _ p => fun st => Some (Ok p, <[key_of p := p]> st)
      | KubeStatusPatch _ p => fun st => None
      | KubeDelete p => fun st => Some (None, delete (key_of p) st)
      end
  | PUpdatePlugin p => fun st => Some (Ok p, <[key_of p := p]> st)
  | PListPlugins n name => fun st =>
      Some (Ok (List.filter (fun p => isPluginManagedByPreset p name) (snd <$> map_to_list st)), st)
  | PListClusters _ _ => fun st => Some (Ok selected, st)
  | PTeam e =>
      match e in kubeE _ X return plugins -> option (X * plugins) with
      | KubeGet _ => fun st => Some (Err (new_error "down"), st)
      | KubeCreate t => fun st => Some (Ok t, st)
      | KubePatch _ t => fun st => Some (Ok t, st)
      | KubeStatusPatch _ t => fun st => Some (Ok t, st)
      | KubeDelete _ => fun st => Some (None, st)
      end
  | PPanic => fun _ => None
  end.
Definition quoted (s : string) : string := s.
Definition no_json (_ : string) (v : unit) : result unit := Ok v.
Definition no_cel (_ : string) (_ : unit) : result string := Err (new_error "no CEL").
Definition created_pass :=
  run_store serve (preset_EnsureCreated 7 quoted (Prelude.join ",") map_to_list "example.com" tt
                     no_json no_cel false example_preset) example_store.

(** The Plugin of [c1] is created with its override, the one of [c2] is not ours,
    the dangling one is deleted. *)
Example created_pass_result :
  (fun '((p, r), st) =>
    (r, (fun kv => (key_name kv.1, OptionValues (plugin_Spec kv.2))) <$> map_to_list st,
     CondMessage <$> GetConditionByType (preset_conditions (preset_Status p)) PluginSkippedCondition))
    <$> created_pass =
  Some (cb_ok,
        [("kube-monitoring-c1", [mk_ov "replicas" (Some "3") None None]); ("kube-monitoring-c2", [])],
        Some "Skipped existing plugins: kube-monitoring-c2").
Proof. vm_compute. reflexivity. Qed.

Lemma same_key (o o' : Plugin) : o = o' -> key_of o' = key_of o.
Proof. by intros ->. Qed.
Lemma same_cluster (o o' : Plugin) : o = o' ->
  plugin_ClusterName (plugin_Spec o') = plugin_ClusterName (plugin_Spec o).
Proof. by intros ->. Qed.

Lemma EnsureCreated_touches_own_witness :
  wp (preset_step (@eq Plugin) selected)
    (preset_EnsureCreated 7 quoted (Prelude.join ",") map_to_list "example.com" tt no_json no_cel false
       example_preset)
    (fun st' _ => forall k p, example_store !! k = Some p -> unmanaged example_preset p ->
                    st' !! k = Some p) example_store.
Proof.
  eapply wp_mono; [|exact (EnsureCreated_touches_own 7 quoted (Prelude.join ",") map_to_list
    "example.com" tt no_json no_cel false (@eq Plugin) same_key same_cluster selected example_preset
    example_store example_consistent)].
  intros st' r [H _]. exact H.
Defined.


Lemma EnsureDeleted_releases_witness :
  wp (preset_step (@eq Plugin) selected) (preset_EnsureDeleted example_preset)
    (fun _ r => r.1 = example_preset) example_store.
Proof.
  eapply wp_mono; [|exact (EnsureDeleted_releases (@eq Plugin) selected example_preset example_store
    example_consistent)].
  intros st' [p' [[r res] err]] [H _]. exact H.
Defined.
End PresetRun.
