(* ===== verification/KubeConfig.v ===== *)
(** * KubeConfig: cluster secrets ([internal/clientutil/config.go], [util.go], [client_getter.go])

    A cluster is reached with the kubeconfig kept in a Secret: the one Greenhouse
    generated, else the one the user provided.  What [clientcmd] makes of the bytes
    is the caller's parameter. *)
From S2P Require Import Prelude Conditions Meta.

Definition SecretTypeKubeConfig : string := "greenhouse.sap/kubeconfig".
Definition SecretTypeOIDCConfig : string := "greenhouse.sap/oidc".
Definition KubeConfigKey : string := "kubeconfig".
Definition GreenHouseKubeConfigKey : string := "greenhousekubeconfig".

(** [corev1.Secret]; a value of [Data] may be a nil slice. *)
Record Secret := mk_secret {
  secret_meta : ObjectMeta;
  secret_Type : string;
  secret_Data : gmap string (option string)
}.
#[export] Instance Secret_eq_dec : EqDecision Secret.
Proof. solve_decision. Defined.
#[export] Instance Secret_object : Object Secret := {|
  get_meta := secret_meta;
  set_meta m o := mk_secret m (secret_Type o) (secret_Data o) |}.
#[export] Instance Secret_object_laws : ObjectLaws Secret.
Proof. by split; intros; repeat match goal with o : Secret |- _ => destruct o end. Qed.

Definition IsSecretContainsKey (s : Secret) (key : string) : bool :=
  match secret_Data s !! key with Some (Some _) => true | _ => false end.
(** [secret.Data[key]] *)
Definition secret_value (s : Secret) (key : string) : string :=
  default "" (default None (secret_Data s !! key)).

Definition no_kubeconfig (s : Secret) : error :=
  new_error ("secret " +:+ GetNamespace s +:+ "/" +:+ GetName s +:+ " does not contain a kubeconfig").

Definition ValidateSecretForKubeConfig (secret : Secret) : option error :=
  if negb (bool_decide (secret_Type secret = SecretTypeKubeConfig))
     && negb (bool_decide (secret_Type secret = SecretTypeOIDCConfig)) then
    Some (new_error ("secret " +:+ GetNamespace secret +:+ "/" +:+ GetName secret +:+
                     " is not of type " +:+ SecretTypeKubeConfig))
  else if negb (IsSecretContainsKey secret GreenHouseKubeConfigKey)
          && negb (IsSecretContainsKey secret KubeConfigKey) then Some (no_kubeconfig secret)
  else None.

(** [kubeConfigGetterFromSecret]: the bytes handed to [clientcmd]. *)
Definition kubeConfigGetterFromSecret (secret : Secret) : result string :=
  match ValidateSecretForKubeConfig secret with
  | Some e => Err e
  | None =>
      if IsSecretContainsKey secret GreenHouseKubeConfigKey then
        Ok (secret_value secret GreenHouseKubeConfigKey)
      else if IsSecretContainsKey secret KubeConfigKey then
        Ok (secret_value secret KubeConfigKey)
      else Err (no_kubeconfig secret)
  end.

(** A Secret that passes the validation yields a kubeconfig, and Greenhouse's own
    takes precedence over the user's. *)
Lemma kubeConfigGetterFromSecret_spec secret cfg :
  kubeConfigGetterFromSecret secret = Ok cfg <->
  ValidateSecretForKubeConfig secret = None /\
  (secret_Data secret !! GreenHouseKubeConfigKey = Some (Some cfg) \/
   IsSecretContainsKey secret GreenHouseKubeConfigKey = false /\
   secret_Data secret !! KubeConfigKey = Some (Some cfg)).
Proof.
  unfold kubeConfigGetterFromSecret, secret_value.
  destruct (ValidateSecretForKubeConfig secret) eqn:Hv; [naive_solver|].
  unfold IsSecretContainsKey.
  destruct (secret_Data secret !! GreenHouseKubeConfigKey) as [[c|]|];
    destruct (secret_Data secret !! KubeConfigKey) as [[c'|]|]; cbn; naive_solver.
Qed.
