(* ===== verification/AccessWebhook.v ===== *)
(** * AccessWebhook: admission of Teams, TeamRoles, TeamRoleBindings, Clusters, Secrets and
      ServiceAccounts ([internal/webhook/v1alpha1], [internal/webhook/v1alpha2])

    A webhook's calls read the owning Team, the ClusterPluginDefinitions or the
    TeamRoleBindings of a role.  What [clientcmd] makes of a kubeconfig and the size of a
    label selector are parameters, as is the order in which Go ranges over labels. *)
From S2P Require Import Prelude Effects Conditions Meta ApiTypes ClientUtil WebhookUtil PluginDefinitions KubeConfig CoreTypes.
From stdpp Require Import sorting.

Inductive accessHookE : Type -> Type :=
| AOwner {X} (e : ownerE X) : accessHookE X
| AListClusterPluginDefinitions : accessHookE (result (list ClusterPluginDefinition))
| AListBindingsOfRole (role namespace : string) : accessHookE (result (list TeamRoleBinding)).

Class AccessLibs := {
  (** [len(MatchLabels)] and [len(MatchExpressions)] of a [metav1.LabelSelector] *)
  MatchLabels_len : string -> nat;
  MatchExpressions_len : string -> nat;
  (** [clientcmd.Load] and [ConfirmUsable] of its current context *)
  clientcmd_Config : Type;
  clientcmd_Load : string -> result clientcmd_Config;
  clientcmd_ConfirmUsable : clientcmd_Config -> option error;
  access_map_order : strmap -> list (string * string)
}.

(** [apierrors.NewForbidden] *)
Definition NewForbidden (resource name : string) (e : error) : error :=
  mk_error Forbidden (resource +:+ " " +:+ name +:+ " is forbidden: " +:+ err_msg e).

Definition GroupName : string := "greenhouse.sap".
Definition SecretTypeOrganization : string := "greenhouse.sap/orgsecret".
Definition SecretAPIServerURLAnnotation : string := "oidc.greenhouse.sap/api-server-url".
Definition SecretAPIServerCAKey : string := "ca.crt".
Definition errAggregationRuleAndRulesExclusive : string :=
  ".spec.rules and .spec.aggregationRule are mutually exclusive".

(** [slices.Compact] *)
Fixpoint compact (l : list string) : list string :=
  match l with
  | a :: (b :: _) as l' => if bool_decide (a = b) then compact l' else a :: compact l'
  | _ => l
  end.

(** ** [base64.StdEncoding.DecodeString], as far as its error goes *)
Definition base64_alphabet : string :=
  "ABCDEFGHIJKLMNOPQRSTUVWXYZabcdefghijklmnopqrstuvwxyz0123456789+/".
Definition base64_char (c : Ascii.ascii) : bool := char_in c base64_alphabet.
Definition base64_newline (c : Ascii.ascii) : bool :=
  let n := Ascii.nat_of_ascii c in Nat.eqb n 10 || Nat.eqb n 13.
Definition base64_pad (c : Ascii.ascii) : bool := Ascii.eqb c (Ascii.ascii_of_nat 61).
(** Whether the bytes, without newlines, are groups of four of which the last may be padded. *)
Fixpoint base64_groups (l : list Ascii.ascii) : bool :=
  match l with
  | [] => true
  | a :: b :: c :: d :: l' =>
      base64_char a && base64_char b &&
      (if base64_pad c then base64_pad d && bool_decide (l' = [])
       else base64_char c &&
         (if base64_pad d then bool_decide (l' = []) else base64_char d && base64_groups l'))
  | _ => false
  end.
Definition base64_DecodeString (s : string) : option error :=
  if base64_groups (List.filter (fun c => negb (base64_newline c)) (String.list_ascii_of_string s))
  then None else Some (new_error "illegal base64 data").

Section webhooks.
Context {Libs : AccessLibs} {Url : UrlParser}.
Local Abbreviation P := (prog accessHookE).
Definition access_owner_warning {O} `{Object O} (o : O) : P string :=
  translate (fun _ => AOwner) (ValidateLabelOwnedBy o).
Definition access_owner_warnings (what warn : string) : list string :=
  if negb (bool_decide (warn = "")) then [what +:+ " should have a support-group Team set as its owner"; warn]
  else [].

(** ** Team *)
Definition DefaultTeam (team : Team) : P (Team * option error) := mret (team, None).
Definition validate_label_key (whitelist : gset string) (key : string) : option error :=
  if has_prefix key GroupName then
    let suffix := default key (cut_prefix key (GroupName +:+ "/")) in
    if bool_decide (suffix ∈ whitelist) then None
    else Some (forbidden ("metadata.labels." +:+ key)
                 "Only pluginDefinition names as greenhouse labels allowed.")
  else None.
Definition validateGreenhouseLabels (team : Team) : P (option error) :=
  r ← trigger AListClusterPluginDefinitions;
  match r with
  | Err e => 
      mret (if is_not_found (Some e)
            then first_some (fun kv => validate_label_key {["support-group"]} kv.1)
                   (access_map_order (GetLabels team))
            else Some e)
  | Ok pluginDefinitions =>
      mret (first_some (fun kv =>
              validate_label_key ({["support-group"]} ∪ list_to_set (GetName <$> pluginDefinitions)) kv.1)
              (access_map_order (GetLabels team)))
  end.
Definition validateJoinURL (team : Team) : option error :=
  if bool_decide (JoinURL (team_Spec team) = "") then None
  else if negb (ValidateURL (JoinURL (team_Spec team))) then
    Some (invalid "spec.joinUrl" (JoinURL (team_Spec team))
            "JoinURL must be a valid 'http:' or 'https:' URL, like 'https://example.com'.")
  else None.
Definition ValidateCreateTeam (team : Team) : P (list string * option error) :=
  err ← validateGreenhouseLabels team;
  match err with
  | Some e => mret ([], Some e)
  | None => mret ([], validateJoinURL team)
  end.
Definition ValidateUpdateTeam (oldTeam team : Team) : P (list string * option error) :=
  err ← validateGreenhouseLabels team;
  match err with
  | Some e => mret ([], Some e)
  | None => mret ([], validateJoinURL team)
  end.
Definition ValidateDeleteTeam (team : Team) : P (list string * option error) := mret ([], None).
Definition TeamWebhook : WebhookFuncs accessHookE Team :=
  mk_webhook (Some DefaultTeam) (Some ValidateCreateTeam) (Some ValidateUpdateTeam)
    (Some ValidateDeleteTeam).

(** ** TeamRole *)
Definition DefaultRole (role : TeamRole) : P (TeamRole * option error) := mret (role, None).
Definition isRulesAndAggregationRuleExclusive (role : TeamRole) : option error :=
  if negb (bool_decide (length (tr_Rules (tr_Spec role)) = 0))
     && negb (bool_decide (tr_AggregationRule (tr_Spec role) = None))
  then Some (new_error errAggregationRuleAndRulesExclusive) else None.
Definition ValidateCreateRole (role : TeamRole) : P (list string * option error) :=
  mret ([], isRulesAndAggregationRuleExclusive role).
Definition ValidateUpdateRole (oldRole role : TeamRole) : P (list string * option error) :=
  mret ([], isRulesAndAggregationRuleExclusive role).
Definition isRoleReferenced (r : TeamRole) : P (result bool) :=
  l ← trigger (AListBindingsOfRole (GetName r) (GetNamespace r));
  match l with
  | Err e => mret (Err e)
  | Ok items => mret (Ok (0 <? length items)%nat)
  end.
Definition ValidateDeleteRole (r : TeamRole) : P (list string * option error) :=
  isReferenced ← isRoleReferenced r;
  match isReferenced with
  | Err e => mret ([], Some e)
  | Ok true =>
      mret ([], Some (NewForbidden "TeamRole" (GetName r)
                        (new_error "role is still referenced by a rolebinding")))
  | Ok false => mret ([], None)
  end.
Definition TeamRoleWebhook : WebhookFuncs accessHookE TeamRole :=
  mk_webhook (Some DefaultRole) (Some ValidateCreateRole) (Some ValidateUpdateRole)
    (Some ValidateDeleteRole).
(** The field index the lookup relies on ([SetupTeamRoleWebhookWithManager]). *)
Definition role_index (trb : TeamRoleBinding) : list string :=
  if bool_decide (TeamRoleRef (trb_Spec trb) = "") then [] else [TeamRoleRef (trb_Spec trb)].

(** ** TeamRoleBinding *)
Definition set_team_refs (l : list string) (trb : TeamRoleBinding) : TeamRoleBinding :=
  let s := trb_Spec trb in
  mk_trb (trb_meta trb)
    (mk_trb_spec (TeamRoleRef s) (TeamRef s) l (Usernames s) (trb_ClusterSelector s) (Namespaces s)
       (CreateNamespaces s)) (trb_Status trb).
Definition default_team_refs (teamRef : string) (teamRefs : list string) : list string :=
  let refs := if negb (bool_decide (teamRef = "")) && negb (slices_contains teamRefs teamRef)
              then teamRefs ++ [teamRef] else teamRefs in
  let refs := delete_func (fun s => bool_decide (trim_space s = "")) refs in
  compact (merge_sort String.le refs).
Definition DefaultRoleBinding (trb : TeamRoleBinding) : P (TeamRoleBinding * option error) :=
  mret (set_team_refs (default_team_refs (TeamRef (trb_Spec trb)) (TeamRefs (trb_Spec trb))) trb, None).
Definition deprecationWarnings (trb : TeamRoleBinding) : list string :=
  if negb (bool_decide (TeamRef (trb_Spec trb) = ""))
  then ["spec.teamRef is deprecated, use spec.teamRefs instead"] else [].
Definition validateClusterSelector (rb : TeamRoleBinding) : option error :=
  let cs := trb_ClusterSelector (trb_Spec rb) in
  let nlabels := MatchLabels_len (cs_LabelSelector cs) in
  let nexprs := MatchExpressions_len (cs_LabelSelector cs) in
  if negb (bool_decide (cs_Name cs = "")) && ((0 <? nlabels)%nat || (0 <? nexprs)%nat) then
    Some (invalid "spec.clusterSelector.name" (cs_Name cs)
            "cannot specify both spec.clusterSelector.Name and spec.clusterSelector.labelSelector")
  else if bool_decide (cs_Name cs = "") && ((nlabels =? 0)%nat && (nexprs =? 0)%nat) then
    Some (invalid "spec.clusterSelector.name" (cs_Name cs)
            "must specify either spec.clusterSelector.name or spec.clusterSelector.labelSelector")
  else None.
Definition isClusterScoped (trb : TeamRoleBinding) : bool :=
  bool_decide (length (Namespaces (trb_Spec trb)) = 0).
Definition ValidateCreateRoleBinding (rb : TeamRoleBinding) : P (list string * option error) :=
  match validateClusterSelector rb with
  | Some e => mret ([], Some e)
  | None =>
      warn ← access_owner_warning rb;
      mret (deprecationWarnings rb ++ access_owner_warnings "TeamRoleBinding" warn, None)
  end.
Definition ValidateUpdateRoleBinding (oldRB curRB : TeamRoleBinding) : P (list string * option error) :=
  let refuse path detail :=
    mret ([], Some (NewForbidden "TeamRoleBinding" (GetName oldRB) (forbidden path detail))) in
  if negb (bool_decide (validateClusterSelector curRB = None)) then
    refuse "spec" "must contain either spec.clusterSelector.name or spec.clusterSelector.labelSelector"
  else if negb (bool_decide (TeamRoleRef (trb_Spec oldRB) = TeamRoleRef (trb_Spec curRB))) then
    refuse "spec.teamRoleRef" "cannot change TeamRoleRef of an existing TeamRoleBinding"
  else if isClusterScoped oldRB && negb (isClusterScoped curRB) then
    refuse "spec.namespaces"
      "cannot change existing TeamRoleBinding from cluster-scoped to namespace-scoped by adding namespaces"
  else if negb (isClusterScoped oldRB) && isClusterScoped curRB then
    refuse "spec.namespaces" "cannot remove all namespaces in existing TeamRoleBinding"
  else
    warn ← access_owner_warning curRB;
    mret (access_owner_warnings "TeamRoleBinding" warn, None).
Definition ValidateDeleteRoleBinding (rb : TeamRoleBinding) : P (list string * option error) :=
  mret ([], None).
Definition TeamRoleBindingWebhook : WebhookFuncs accessHookE TeamRoleBinding :=
  mk_webhook (Some DefaultRoleBinding) (Some ValidateCreateRoleBinding)
    (Some ValidateUpdateRoleBinding) (Some ValidateDeleteRoleBinding).

(** ** Cluster *)
Definition DefaultCluster (cluster : Cluster) : P (Cluster * option error) :=
  mret (SetLabels (<[LabelKeyCluster := GetName cluster]> (GetLabels cluster)) cluster, None).
Definition ValidateCreateCluster (cluster : Cluster) : P (list string * option error) :=
  match InvalidateDoubleDashesInName cluster with
  | Some e => mret ([], Some e)
  | None =>
      match CapName cluster 40 with
      | Some e => mret ([], Some e)
      | None =>
          warn ← access_owner_warning cluster;
          mret (access_owner_warnings "Cluster" warn, None)
      end
  end.
Definition ValidateUpdateCluster (oldCluster cluster : Cluster) : P (list string * option error) :=
  warn ← access_owner_warning cluster;
  mret (access_owner_warnings "Cluster" warn, None).
Definition ClusterWebhook : WebhookFuncs accessHookE Cluster :=
  mk_webhook (Some DefaultCluster) (Some ValidateCreateCluster) (Some ValidateUpdateCluster) None.

(** ** Secret *)
Definition greenhouseSecretTypes : list string :=
  [SecretTypeKubeConfig; SecretTypeOIDCConfig; SecretTypeOrganization].
Definition DefaultSecret (secret : Secret) : P (Secret * option error) := mret (secret, None).
Definition validateSecretGreenHouseType (secret : Secret) : option error :=
  if negb (bool_decide (secret_Type secret = SecretTypeKubeConfig)) then None
  else match CapName secret 40 with
  | Some e => Some e
  | None =>
      match InvalidateDoubleDashesInName secret with
      | Some e => Some e
      | None =>
          if negb (IsSecretContainsKey secret KubeConfigKey) then
            Some (required ("data." +:+ KubeConfigKey)
                    "This type of secrets without Data.kubeconfig is invalid.")
          else None
      end
  end.
Definition validateGreenhouseOIDCType (secret : Secret) : option error :=
  let serverURL := GetAnnotations secret !! SecretAPIServerURLAnnotation in
  if bool_decide (serverURL = None) || negb (ValidateURL (default "" serverURL)) then
    Some (required ("metadata." +:+ SecretAPIServerURLAnnotation)
            "The secret is missing the APIServerURL annotation.")
  else if bool_decide (secret_Data secret !! SecretAPIServerCAKey = None) then
    Some (required ("data." +:+ SecretAPIServerCAKey)
            "The secret is missing the certificate authority key.")
  else let cert := secret_value secret SecretAPIServerCAKey in
  if bool_decide (String.length cert = 0) then
    Some (required ("data." +:+ SecretAPIServerCAKey)
            "The certificate authority key must not be empty.")
  else if negb (bool_decide (base64_DecodeString cert = None)) then
    Some (invalid ("data." +:+ SecretAPIServerCAKey) "CERTIFICATE"
            "The certificate authority key must be base64-encoded.")
  else None.
Definition validateKubeConfig (kubeconfig : string) : option error :=
  match clientcmd_Load kubeconfig with
  | Err e => Some e
  | Ok apiConfig => clientcmd_ConfirmUsable apiConfig
  end.
(** One case of the switch: the value of a key must be there and usable. *)
Definition validate_kubeconfig_key (secret : Secret) (key : string) : option error :=
  let v := secret_value secret key in
  if bool_decide (String.length v = 0) then
    Some (required ("data." +:+ key) ("The " +:+ key +:+ " could not be empty."))
  else match validateKubeConfig v with
       | Some _ => Some (invalid ("data." +:+ key) v
                           ("The provided " +:+ key +:+ " is invalid or not usable."))
       | None => None
       end.
Definition validateKubeconfigInSecret (secret : Secret) : option error :=
  if IsSecretContainsKey secret KubeConfigKey then validate_kubeconfig_key secret KubeConfigKey
  else if IsSecretContainsKey secret GreenHouseKubeConfigKey then
    validate_kubeconfig_key secret GreenHouseKubeConfigKey
  else None.
Definition ValidateCreateSecret (secret : Secret) : P (list string * option error) :=
  if negb (slices_contains greenhouseSecretTypes (secret_Type secret)) then mret ([], None)
  else if bool_decide (secret_Type secret = SecretTypeOIDCConfig) then
    mret ([], validateGreenhouseOIDCType secret)
  else match validateSecretGreenHouseType secret with
  | Some e => mret ([], Some e)
  | None =>
      match validateKubeconfigInSecret secret with
      | Some e => mret ([], Some e)
      | None =>
          warn ← access_owner_warning secret;
          mret (access_owner_warnings "Secret" warn, None)
      end
  end.
Definition ValidateUpdateSecret (oldSecret secret : Secret) : P (list string * option error) :=
  if negb (slices_contains greenhouseSecretTypes (secret_Type secret)) then mret ([], None)
  else if bool_decide (secret_Type secret = SecretTypeOIDCConfig) then
    mret ([], validateGreenhouseOIDCType secret)
  else match validateSecretGreenHouseType secret with
  | Some e => mret ([], Some e)
  | None =>
      match validateKubeconfigInSecret secret with
      | Some e => mret ([], Some e)
      | None =>
          warn ← access_owner_warning secret;
          mret (access_owner_warnings "Secret" warn, None)
      end
  end.
Definition ValidateDeleteSecret (secret : Secret) : P (list string * option error) := mret ([], None).
Definition SecretWebhook : WebhookFuncs accessHookE Secret :=
  mk_webhook (Some DefaultSecret) (Some ValidateCreateSecret) (Some ValidateUpdateSecret)
    (Some ValidateDeleteSecret).

(** ** ServiceAccount *)
Definition validateOwnedByLabelImmutable (oldSA newSA : ServiceAccount) : option error :=
  match GetLabels oldSA !! LabelKeyOwnedBy with
  | None => None
  | Some oldOwner =>
      let newOwner := default "" (GetLabels newSA !! LabelKeyOwnedBy) in
      if bool_decide (oldOwner = newOwner) then None
      else Some (NewForbidden "serviceaccounts" (GetName newSA)
                   (forbidden ("metadata.labels[" +:+ LabelKeyOwnedBy +:+ "]")
                      "label is immutable and cannot be changed or removed once set"))
  end.
Definition ValidateUpdateServiceAccount (oldSA newSA : ServiceAccount) :
    P (list string * option error) :=
  mret ([], validateOwnedByLabelImmutable oldSA newSA).
Definition ServiceAccountWebhook : WebhookFuncs accessHookE ServiceAccount :=
  mk_webhook None None (Some ValidateUpdateServiceAccount) None.
End webhooks.

(** ** TeamRoleBindings *)
Lemma compact_cons a b l :
  compact (a :: b :: l) = if bool_decide (a = b) then compact (b :: l) else a :: compact (b :: l).
Proof. done. Qed.
Lemma compact_elem l a : a ∈ compact l <-> a ∈ l.
Proof.
  induction l as [|b [|c l] IH]; [done..|].
  rewrite compact_cons. case_bool_decide as Hb; [subst c|]; rewrite !elem_of_cons, ?IH, ?elem_of_cons; naive_solver.
Qed.
Lemma compact_head a l : exists l', compact (a :: l) = a :: l'.
Proof.
  revert a. induction l as [|b l IH]; intros a; [by exists []|].
  destruct (IH b) as [l' Hl']. rewrite compact_cons. case_bool_decide as Hb; [subst b; by exists l'|eauto].
Qed.
Lemma compact_sorted l : StronglySorted String.le l -> StronglySorted String.le (compact l) /\ NoDup (compact l).
Proof.
  induction l as [|a [|b l] IH]; intros Hs.
  - repeat constructor.
  - split; [done|]. cbn. constructor; [apply not_elem_of_nil|constructor].
  - apply StronglySorted_inv in Hs as [Hs Ha]. destruct (IH Hs) as [Hs' Hd]. rewrite compact_cons.
    case_bool_decide as Hb; [done|].
    assert (Hle : Forall (String.le a) (compact (b :: l))).
    { apply Forall_forall. intros x Hx. rewrite compact_elem in Hx. rewrite Forall_forall in Ha. by apply Ha. }
    split; [by constructor|]. constructor; [|done]. rewrite compact_elem. intros Hin.
    apply elem_of_cons in Hin as [->|Hin]; [done|]. apply Hb, (anti_symm String.le).
    + inversion Ha; subst. done.
    + apply StronglySorted_inv in Hs as [_ Hs]. rewrite Forall_forall in Hs. by apply Hs.
Qed.
Lemma compact_NoDup l : NoDup l -> compact l = l.
Proof.
  induction l as [|a [|b l] IH]; intros Hd; [done..|]. rewrite compact_cons.
  apply NoDup_cons in Hd as [Ha Hd]. rewrite bool_decide_eq_false_2 by set_solver.
  f_equal. by apply IH.
Qed.
Lemma merge_sort_sorted l : StronglySorted String.le l -> merge_sort String.le l = l.
Proof.
  intros Hs. apply (StronglySorted_unique String.le); [|done|apply merge_sort_Permutation].
  apply (StronglySorted_merge_sort String.le).
Qed.
Lemma delete_func_id {A} (f : A -> bool) l : (forall a, a ∈ l -> f a = false) -> delete_func f l = l.
Proof.
  unfold delete_func. induction l as [|a l IH]; intros Hf; [done|]. cbn.
  rewrite (Hf a) by left. cbn. f_equal. apply IH. intros b Hb. apply Hf. by right.
Qed.
Lemma default_team_refs_elem teamRef refs r :
  r ∈ default_team_refs teamRef refs <-> trim_space r <> "" /\ (r ∈ refs \/ r = teamRef).
Proof.
  unfold default_team_refs. rewrite compact_elem, merge_sort_Permutation, delete_func_elem, bool_decide_eq_false.
  case_bool_decide as Ht; cbn [negb andb].
  { subst teamRef. split; [naive_solver|]. intros [Hr [Hin | ->]]; [done|]. by destruct Hr. }
  destruct (slices_contains refs teamRef) eqn:Hc; cbn [negb].
  - apply slices_contains_true in Hc. naive_solver.
  - rewrite elem_of_app, list_elem_of_singleton. naive_solver.
Qed.
Lemma default_team_refs_shape teamRef refs :
  StronglySorted String.le (default_team_refs teamRef refs) /\ NoDup (default_team_refs teamRef refs).
Proof. apply compact_sorted, (StronglySorted_merge_sort String.le). Qed.
Lemma default_team_refs_again teamRef refs :
  default_team_refs teamRef (default_team_refs teamRef refs) = default_team_refs teamRef refs.
Proof.
  set (l := default_team_refs teamRef refs).
  assert (Hl : delete_func (fun s => bool_decide (trim_space s = "")) l = l).
  { apply delete_func_id. intros a [Ha _]%default_team_refs_elem. by apply bool_decide_eq_false. }
  assert (Hadd : delete_func (fun s => bool_decide (trim_space s = ""))
      (if negb (bool_decide (teamRef = "")) && negb (slices_contains l teamRef)
       then l ++ [teamRef] else l) = l).
  { case_if; [|done]. apply andb_true_iff in Heqb as [Ht Hc].
    apply negb_true_iff, not_true_iff_false in Hc. rewrite slices_contains_true in Hc.
    unfold delete_func in *. rewrite List.filter_app, Hl. cbn.
    destruct (bool_decide_reflect (trim_space teamRef = "")) as [Hb|Hb]; cbn; [by rewrite app_nil_r|].
    destruct Hc. apply default_team_refs_elem. auto. }
  unfold default_team_refs at 1. rewrite Hadd.
  destruct (default_team_refs_shape teamRef refs) as [Hs Hd]. fold l in Hs, Hd.
  rewrite merge_sort_sorted by done. by apply compact_NoDup.
Qed.

Section rolebindings.
Context {Libs : AccessLibs} {Url : UrlParser}.
(** Defaulting a TeamRoleBinding leaves its Team references sorted, without duplicates
    and without blanks, and they are exactly the non-blank references the user listed
    together with the deprecated single one.  Nothing else of the object changes, and
    defaulting it again changes nothing. *)
Theorem DefaultRoleBinding_refs trb :
  exists trb', Default TeamRoleBindingWebhook trb = mret (trb', None) /\
    trb' = set_team_refs (TeamRefs (trb_Spec trb')) trb /\
    StronglySorted String.le (TeamRefs (trb_Spec trb')) /\ NoDup (TeamRefs (trb_Spec trb')) /\
    (forall r, r ∈ TeamRefs (trb_Spec trb') <->
       trim_space r <> "" /\ (r ∈ TeamRefs (trb_Spec trb) \/ r = TeamRef (trb_Spec trb))) /\
    Default TeamRoleBindingWebhook trb' = mret (trb', None).
Proof.
  eexists. split_and!; [done|done|apply default_team_refs_shape|apply default_team_refs_shape| |].
  { intros r. apply default_team_refs_elem. }
  cbn. unfold DefaultRoleBinding. do 2 f_equal. unfold set_team_refs at 1. cbn. 
  by rewrite default_team_refs_again.
Qed.

(** ** The life of a TeamRoleBinding *)
Definition selects_once (rb : TeamRoleBinding) : Prop :=
  let cs := trb_ClusterSelector (trb_Spec rb) in
  cs_Name cs = "" <->
  MatchLabels_len (cs_LabelSelector cs) <> 0 \/ MatchExpressions_len (cs_LabelSelector cs) <> 0.
Lemma validateClusterSelector_None rb : validateClusterSelector rb = None <-> selects_once rb.
Proof.
  unfold validateClusterSelector, selects_once.
  destruct (bool_decide_reflect (cs_Name (trb_ClusterSelector (trb_Spec rb)) = "")) as [Hn|Hn]; cbn [negb andb];
    destruct (MatchLabels_len _), (MatchExpressions_len _); cbn; naive_solver.
Qed.
Lemma isClusterScoped_true rb : isClusterScoped rb = true <-> Namespaces (trb_Spec rb) = [].
Proof. unfold isClusterScoped. rewrite bool_decide_eq_true. by rewrite length_zero_iff_nil. Qed.

(** What an accepted update satisfies; it is also all it has to. *)
Definition update_ok (oldRB curRB : TeamRoleBinding) : Prop :=
  selects_once curRB /\ TeamRoleRef (trb_Spec curRB) = TeamRoleRef (trb_Spec oldRB) /\
  (Namespaces (trb_Spec curRB) = [] <-> Namespaces (trb_Spec oldRB) = []).
Lemma ValidateUpdateRoleBinding_accepts oldRB curRB h :
  wp (traced any_answer) (ValidateUpdateRoleBinding oldRB curRB) (fun _ '(_, err) =>
    err = None <-> update_ok oldRB curRB) h.
Proof.
  unfold ValidateUpdateRoleBinding, update_ok.
  pose proof (isClusterScoped_true oldRB) as Ho. pose proof (isClusterScoped_true curRB) as Hc.
  pose proof (validateClusterSelector_None curRB) as Hs.
  destruct (bool_decide_reflect (validateClusterSelector curRB = None)) as [Hsel|Hsel]; cbn [negb];
    [|apply wp_ret; cbn; naive_solver].
  destruct (bool_decide_reflect (TeamRoleRef (trb_Spec oldRB) = TeamRoleRef (trb_Spec curRB)))
    as [Href|Href]; cbn [negb]; [|apply wp_ret; cbn; naive_solver].
  destruct (isClusterScoped oldRB), (isClusterScoped curRB); cbn [negb andb];
    try (apply wp_ret; cbn; naive_solver).
  all: apply wp_bind; unfold access_owner_warning; wp_skip; apply wp_ret; cbn; naive_solver.
Qed.
Lemma ValidateCreateRoleBinding_accepts rb h :
  wp (traced any_answer) (ValidateCreateRoleBinding rb) (fun _ '(_, err) =>
    err = None <-> selects_once rb) h.
Proof.
  unfold ValidateCreateRoleBinding. pose proof (validateClusterSelector_None rb) as Hs.
  destruct (validateClusterSelector rb); [apply wp_ret; cbn; naive_solver|].
  apply wp_bind; wp_skip. apply wp_ret; cbn; naive_solver.
Qed.
(** What the webhooks let through: a submitted object is defaulted, then validated,
    whatever their reads are answered. *)
Definition admits {T} (w : WebhookFuncs accessHookE T) (old : option T) (sub cur : T) : Prop :=
  exists h h0 h' warns,
    exec (traced any_answer) (Default w sub) h (cur, None) h0 /\
    exec (traced any_answer)
      match old with Some old => ValidateUpdate w old cur | None => ValidateCreate w cur end
      h0 (warns, None) h'.
(** The versions of one object after it was created as the first one. *)
Inductive versions {T} (w : WebhookFuncs accessHookE T) : T -> T -> Prop :=
| v_created sub cur : admits w None sub cur -> versions w cur cur
| v_updated first old sub cur :
    versions w first old -> admits w (Some old) sub cur -> versions w first cur.
Definition normal_refs (rb : TeamRoleBinding) : Prop :=
  StronglySorted String.le (TeamRefs (trb_Spec rb)) /\ NoDup (TeamRefs (trb_Spec rb)) /\
  (forall r, r ∈ TeamRefs (trb_Spec rb) -> trim_space r <> "") /\
  (trim_space (TeamRef (trb_Spec rb)) <> "" -> TeamRef (trb_Spec rb) ∈ TeamRefs (trb_Spec rb)).
Lemma defaulted_refs sub cur h h0 :
  exec (traced any_answer) (Default TeamRoleBindingWebhook sub) h (cur, None) h0 -> normal_refs cur.
Proof.
  cbn. intros [[= ->] _]. unfold normal_refs. cbn.
  split_and!; try apply default_team_refs_shape.
  - by intros r [Hr _]%default_team_refs_elem.
  - intros Hr. apply default_team_refs_elem. auto.
Qed.
Lemma admits_rolebinding old sub cur :
  admits TeamRoleBindingWebhook old sub cur ->
  normal_refs cur /\
  match old with Some old => update_ok old cur | None => selects_once cur end.
Proof.
  intros (h & h0 & h' & warns & Hd & Hv). split; [by eapply defaulted_refs|].
  destruct old as [old|].
  - by apply (wp_exec _ _ _ _ _ _ (ValidateUpdateRoleBinding_accepts old cur h0) Hv).
  - by apply (wp_exec _ _ _ _ _ _ (ValidateCreateRoleBinding_accepts cur h0) Hv).
Qed.
(** C18: whatever is submitted over its life and whatever the webhooks' reads answer, every
    stored version of a TeamRoleBinding selects Clusters in exactly one way, lists its
    Teams without blanks and duplicates (the deprecated reference included), and keeps
    the role and the scope - cluster-wide or in namespaces - it was created with. *)
Theorem rolebinding_versions first cur :
  versions TeamRoleBindingWebhook first cur ->
  selects_once cur /\ normal_refs cur /\
  TeamRoleRef (trb_Spec cur) = TeamRoleRef (trb_Spec first) /\
  (Namespaces (trb_Spec cur) = [] <-> Namespaces (trb_Spec first) = []).
Proof.
  induction 1 as [sub cur Ha|first old sub cur Hv IH Ha]; apply admits_rolebinding in Ha as [Hr Ha].
  - done.
  - destruct Ha as (Hs & Href & Hn), IH as (_ & _ & Href' & Hn').
    split_and!; [done|done|congruence|by rewrite Hn].
Qed.

(** ** Roles in use *)
Definition answer_bindings (stored : list TeamRoleBinding) X (e : accessHookE X) : option X :=
  match e with
  | AListBindingsOfRole role ns =>
      Some (Ok (List.filter (fun rb => slices_contains (role_index rb) role &&
                               bool_decide (GetNamespace rb = ns)) stored))
  | _ => None
  end.
Lemma ValidateDeleteRole_answer stored r :
  eval (answer_bindings stored) (ValidateDelete TeamRoleWebhook r) =
  Some ([], if existsb (fun rb => slices_contains (role_index rb) (GetName r) &&
                                  bool_decide (GetNamespace rb = GetNamespace r)) stored
            then Some (NewForbidden "TeamRole" (GetName r)
                         (new_error "role is still referenced by a rolebinding"))
            else None).
Proof.
  change (ValidateDelete TeamRoleWebhook r) with (ValidateDeleteRole r).
  unfold ValidateDeleteRole, isRoleReferenced. rewrite !eval_bind, eval_trigger. cbn.
  match goal with |- context [existsb ?f stored] => set (g := f) end.
  replace (existsb g stored) with (0 <? length (List.filter g stored))%nat.
  { by destruct (length (List.filter g stored)). }
  induction stored as [|rb l IH]; [done|]. cbn. by destruct (g rb).
Qed.
(** The deletion of a TeamRole is refused as long as a TeamRoleBinding of its namespace
    that was created for it is stored - whatever updates that binding went through. *)
Theorem bound_role_kept stored r first rb :
  versions TeamRoleBindingWebhook first rb -> rb ∈ stored -> GetNamespace rb = GetNamespace r ->
  TeamRoleRef (trb_Spec first) = GetName r -> GetName r <> "" ->
  eval (answer_bindings stored) (ValidateDelete TeamRoleWebhook r) =
  Some ([], Some (NewForbidden "TeamRole" (GetName r)
                    (new_error "role is still referenced by a rolebinding"))).
Proof.
  intros Hv Hin Hns Href Hname. rewrite ValidateDeleteRole_answer.
  assert (Hcur : TeamRoleRef (trb_Spec rb) = GetName r).
  { rewrite <- Href. clear -Hv. induction Hv as [|first old sub cur Hv IH Ha]; [done|].
    apply admits_rolebinding in Ha as [_ (_ & Ha & _)]. congruence. }
  replace (existsb _ stored) with true; [done|]. symmetry. apply existsb_exists.
  exists rb. split; [by apply list_elem_of_In|]. unfold role_index.
  rewrite Hcur, bool_decide_eq_false_2, Hns by done.
  apply andb_true_iff. rewrite slices_contains_true, bool_decide_eq_true. split; [by left|done].
Qed.
End rolebindings.

Section secrets.
Context {Libs : AccessLibs} {Url : UrlParser}.
Definition good_kubeconfig (secret : Secret) (key : string) : Prop :=
  exists cfg, secret_Data secret !! key = Some (Some cfg) /\ cfg <> "" /\ validateKubeConfig cfg = None.
Lemma validate_kubeconfig_key_None secret key :
  IsSecretContainsKey secret key = true ->
  validate_kubeconfig_key secret key = None <-> good_kubeconfig secret key.
Proof.
  unfold IsSecretContainsKey, validate_kubeconfig_key, good_kubeconfig, secret_value.
  destruct (secret_Data secret !! key) as [[cfg|]|]; try done. intros _. cbn.
  destruct cfg as [|a cfg]; cbn; [naive_solver|].
  destruct (validateKubeConfig (String a cfg)) eqn:Hv; naive_solver.
Qed.
Lemma validateKubeconfigInSecret_None secret :
  validateKubeconfigInSecret secret = None <->
  if IsSecretContainsKey secret KubeConfigKey then good_kubeconfig secret KubeConfigKey
  else IsSecretContainsKey secret GreenHouseKubeConfigKey = true ->
       good_kubeconfig secret GreenHouseKubeConfigKey.
Proof.
  unfold validateKubeconfigInSecret.
  destruct (IsSecretContainsKey secret KubeConfigKey) eqn:Hk; [by apply validate_kubeconfig_key_None|].
  destruct (IsSecretContainsKey secret GreenHouseKubeConfigKey) eqn:Hg; [|naive_solver].
  rewrite validate_kubeconfig_key_None by done. naive_solver.
Qed.
Definition short_name {O} `{Object O} (o : O) : Prop :=
  String.length (GetName o) <= 40 /\ contains (GetName o) "--" = false.
Lemma name_checks {O} `{Object O} (o : O) :
  CapName o 40 = None /\ InvalidateDoubleDashesInName o = None <-> short_name o.
Proof.
  unfold CapName, InvalidateDoubleDashesInName, short_name.
  destruct (Nat.ltb_spec 40 (String.length (GetName o))), (contains (GetName o) "--");
    split; intros [? ?]; try done; lia.
Qed.
(** What a Secret of each Greenhouse type must look like. *)
Definition oidc_ok (secret : Secret) : Prop :=
  exists url cert, GetAnnotations secret !! SecretAPIServerURLAnnotation = Some url /\
    ValidateURL url = true /\ secret_Data secret !! SecretAPIServerCAKey = Some (Some cert) /\
    cert <> "" /\ base64_DecodeString cert = None.
Definition kubeconfig_ok (secret : Secret) : Prop :=
  short_name secret /\ good_kubeconfig secret KubeConfigKey.
Definition organization_ok (secret : Secret) : Prop :=
  if IsSecretContainsKey secret KubeConfigKey then good_kubeconfig secret KubeConfigKey
  else IsSecretContainsKey secret GreenHouseKubeConfigKey = true ->
       good_kubeconfig secret GreenHouseKubeConfigKey.
Definition secret_ok (secret : Secret) : Prop :=
  (secret_Type secret = SecretTypeOIDCConfig -> oidc_ok secret) /\
  (secret_Type secret = SecretTypeKubeConfig -> kubeconfig_ok secret) /\
  (secret_Type secret = SecretTypeOrganization -> organization_ok secret).
Local Ltac refuted := split; [done|]; intros (? & ? & ? & ? & ? & ? & ?); congruence.
Lemma validateGreenhouseOIDCType_None secret :
  validateGreenhouseOIDCType secret = None <-> oidc_ok secret.
Proof.
  unfold validateGreenhouseOIDCType, oidc_ok, secret_value.
  destruct (GetAnnotations secret !! SecretAPIServerURLAnnotation) as [url|]; [|refuted].
  rewrite bool_decide_eq_false_2 by done. cbn [from_option id orb].
  destruct (ValidateURL url) eqn:Hu; cbn [negb]; [|refuted].
  destruct (secret_Data secret !! SecretAPIServerCAKey) as [[cert|]|]; [|refuted..].
  rewrite bool_decide_eq_false_2 by done. cbn [from_option id].
  destruct cert as [|a cert]; [refuted|]. rewrite bool_decide_eq_false_2 by done.
  destruct (bool_decide_reflect (base64_DecodeString (String a cert) = None)) as [Hb|Hb];
    cbn [negb]; [|refuted].
  split; [|done]. intros _. by exists url, (String a cert).
Qed.
Lemma validateSecretGreenHouseType_None secret :
  validateSecretGreenHouseType secret = None <->
  (secret_Type secret = SecretTypeKubeConfig ->
   short_name secret /\ IsSecretContainsKey secret KubeConfigKey = true).
Proof.
  unfold validateSecretGreenHouseType. rewrite <- (name_checks secret).
  case_bool_decide as Ht; cbn; [|naive_solver].
  destruct (CapName secret 40), (InvalidateDoubleDashesInName secret),
    (IsSecretContainsKey secret KubeConfigKey); cbn; naive_solver.
Qed.
(** The checks of both handlers. *)
Definition secret_checks (secret : Secret) : option error :=
  if negb (slices_contains greenhouseSecretTypes (secret_Type secret)) then None
  else if bool_decide (secret_Type secret = SecretTypeOIDCConfig) then validateGreenhouseOIDCType secret
  else match validateSecretGreenHouseType secret with
       | Some e => Some e
       | None => validateKubeconfigInSecret secret
       end.
Lemma good_contains secret key :
  good_kubeconfig secret key -> IsSecretContainsKey secret key = true.
Proof. unfold IsSecretContainsKey. by intros (cfg & -> & _). Qed.
Lemma secret_checks_None secret : secret_checks secret = None <-> secret_ok secret.
Proof.
  unfold secret_checks, secret_ok, greenhouseSecretTypes, slices_contains.
  destruct (decide (secret_Type secret = SecretTypeOIDCConfig)) as [Ht|Ho].
  { rewrite Ht, bool_decide_eq_true_2 by set_solver. rewrite bool_decide_eq_true_2 by done. cbn [negb].
    rewrite validateGreenhouseOIDCType_None. split; [intros ?; by split_and!|]. by intros [H _]; apply H. }
  rewrite (bool_decide_eq_false_2 _ Ho).
  destruct (decide (secret_Type secret = SecretTypeKubeConfig)) as [Ht|Hk].
  { pose proof (validateSecretGreenHouseType_None secret) as Hs.
    pose proof (validateKubeconfigInSecret_None secret) as Hk.
    rewrite Ht in *. rewrite bool_decide_eq_true_2 by set_solver. cbn [negb]. unfold kubeconfig_ok.
    destruct (validateSecretGreenHouseType secret) as [e|].
    - split; [done|]. intros (_ & [Hn Hgood]%(fun f => f eq_refl) & _).
      apply Hs. intros _. split; [done|]. by apply good_contains.
    - destruct Hs as [[Hn Hkey]%(fun f => f eq_refl eq_refl) _]. rewrite Hkey in Hk. rewrite Hk.
      split; [intros ?; by split_and!|]. by intros (_ & [_ H]%(fun f => f eq_refl) & _). }
  assert (Hs : validateSecretGreenHouseType secret = None) by (by apply validateSecretGreenHouseType_None).
  rewrite Hs. pose proof (validateKubeconfigInSecret_None secret) as Hkc. fold (organization_ok secret) in Hkc.
  destruct (decide (secret_Type secret = SecretTypeOrganization)) as [Ht|Horg].
  { rewrite Ht, bool_decide_eq_true_2 by set_solver. cbn [negb].
    rewrite Hkc. split; [intros ?; by split_and!|]. by intros (_ & _ & H); apply H. }
  rewrite bool_decide_eq_false_2 by set_solver. cbn. tauto.
Qed.
Lemma ValidateCreateSecret_checks secret h :
  wp (traced any_answer) (ValidateCreateSecret secret)
    (fun _ '(_, err) => err = secret_checks secret) h.
Proof.
  unfold ValidateCreateSecret, secret_checks.
  destruct (slices_contains _ _); cbn [negb]; [|by apply wp_ret].
  case_bool_decide; [by apply wp_ret|].
  destruct (validateSecretGreenHouseType secret); [by apply wp_ret|].
  destruct (validateKubeconfigInSecret secret); [by apply wp_ret|].
  apply wp_bind. wp_skip. by apply wp_ret.
Qed.
(** A Secret is stored exactly when it fits its type, on creation and on update: an OIDC
    Secret names an https API server and holds a non-empty base64 certificate; a
    kubeconfig Secret has a name of at most 40 bytes without double dashes and a usable
    user kubeconfig; an organization Secret may lack both kubeconfigs, but the one that
    is looked at must be usable; other types are not looked at. *)
Theorem secret_admission secret old h :
  wp (traced any_answer) (ValidateCreate SecretWebhook secret)
    (fun _ '(_, err) => err = None <-> secret_ok secret) h /\
  wp (traced any_answer) (ValidateUpdate SecretWebhook old secret)
    (fun _ '(_, err) => err = None <-> secret_ok secret) h.
Proof.
  assert (Hc : wp (traced any_answer) (ValidateCreateSecret secret)
    (fun _ '(_, err) => err = None <-> secret_ok secret) h); [|done].
  eapply wp_mono; [|apply ValidateCreateSecret_checks].
  intros h' [warns err] ->. apply secret_checks_None.
Qed.
(** The client of the Cluster of an admitted kubeconfig Secret finds a kubeconfig; it is
    the user's, checked one unless the Secret holds Greenhouse's own, which wins although
    no webhook looks at it: whatever bytes it is, the Secret is admitted just the same. *)
Theorem admitted_kubeconfig_client secret :
  secret_Type secret = SecretTypeKubeConfig -> secret_ok secret ->
  (exists cfg, kubeConfigGetterFromSecret secret = Ok cfg /\
     (IsSecretContainsKey secret GreenHouseKubeConfigKey = false -> validateKubeConfig cfg = None)) /\
  forall own, let secret' := mk_secret (secret_meta secret) (secret_Type secret)
                  (<[GreenHouseKubeConfigKey := Some own]> (secret_Data secret)) in
    secret_ok secret' /\ kubeConfigGetterFromSecret secret' = Ok own.
Proof.
  intros Ht (_ & [Hn (cfg & Hd & Hne & Hv)]%(fun f => f Ht) & _). split.
  - unfold kubeConfigGetterFromSecret, ValidateSecretForKubeConfig, IsSecretContainsKey, secret_value.
    rewrite Ht, Hd. cbn. destruct (secret_Data secret !! GreenHouseKubeConfigKey) as [[own|]|];
      cbn; eexists; split; try done.
  - intros own secret'. split.
    + split_and!; cbn; rewrite Ht; [done| |done]. intros _. split; [done|].
      exists cfg. cbn. by rewrite lookup_insert_ne.
    + unfold kubeConfigGetterFromSecret, ValidateSecretForKubeConfig, IsSecretContainsKey, secret_value.
      cbn. rewrite Ht, lookup_insert_eq. done.
Qed.
End secrets.

Section owners_and_teams.
Context {Libs : AccessLibs} {Url : UrlParser}.
Lemma ServiceAccount_update old cur h :
  wp (traced any_answer) (ValidateUpdate ServiceAccountWebhook old cur) (fun _ '(_, err) =>
    err = None <-> forall owner, GetLabels old !! LabelKeyOwnedBy = Some owner ->
                     owner = default "" (GetLabels cur !! LabelKeyOwnedBy)) h.
Proof.
  apply wp_ret. unfold validateOwnedByLabelImmutable.
  destruct (GetLabels old !! LabelKeyOwnedBy) as [owner|]; [|naive_solver].
  destruct (bool_decide_reflect (owner = default "" (GetLabels cur !! LabelKeyOwnedBy)));
    split; try done; [congruence|]. intros H. by specialize (H owner eq_refl).
Qed.
(** The owner a ServiceAccount was given stays its owner through every later update;
    only an empty label value, which names nobody, can still be taken off. *)
Theorem owner_label_fixed first cur :
  versions ServiceAccountWebhook first cur ->
  (forall owner, owner <> "" -> GetLabels first !! LabelKeyOwnedBy = Some owner ->
     GetLabels cur !! LabelKeyOwnedBy = Some owner) /\
  (GetLabels cur !! LabelKeyOwnedBy = Some "" -> forall cur',
     GetLabels cur' !! LabelKeyOwnedBy = None -> versions ServiceAccountWebhook first cur').
Proof.
  intros Hv. split.
  - intros owner Hne Hf. induction Hv as [|first old sub cur Hv IH Ha]; [done|]. specialize (IH Hf).
    destruct Ha as (h & h0 & h' & warns & _ & He).
    pose proof (proj1 (wp_exec _ _ _ _ _ _ (ServiceAccount_update old cur h0) He) eq_refl _ IH) as Ho.
    destruct (GetLabels cur !! LabelKeyOwnedBy); cbn in Ho; congruence.
  - intros He cur' Hn. apply (v_updated _ _ cur cur'); [done|]. exists [], [], [], [].
    split; [done|]. cbn. unfold validateOwnedByLabelImmutable. rewrite He, Hn. done.
Qed.

(** ** Teams *)
Definition allowed_label (definitions : list ClusterPluginDefinition) (key : string) : Prop :=
  has_prefix key GroupName = true ->
  exists name, (key = GroupName +:+ "/" +:+ name \/
                key = name /\ cut_prefix key (GroupName +:+ "/") = None) /\
    (name = "support-group" \/ exists cpd, cpd ∈ definitions /\ GetName cpd = name).
Lemma validate_label_key_None definitions key :
  validate_label_key ({["support-group"]} ∪ list_to_set (GetName <$> definitions)) key = None <->
  allowed_label definitions key.
Proof.
  unfold validate_label_key, allowed_label.
  destruct (has_prefix key GroupName); [|naive_solver].
  assert (Hin : forall name, name ∈@{gset string} {["support-group"]} ∪ list_to_set (GetName <$> definitions) <->
    name = "support-group" \/ exists cpd, cpd ∈ definitions /\ GetName cpd = name).
  { intros name. rewrite elem_of_union, elem_of_singleton, elem_of_list_to_set, list_elem_of_fmap. naive_solver. }
  transitivity (default key (cut_prefix key (GroupName +:+ "/")) ∈@{gset string}
                  {["support-group"]} ∪ list_to_set (GetName <$> definitions)).
  { case_bool_decide; naive_solver. }
  rewrite Hin. destruct (cut_prefix key (GroupName +:+ "/")) as [name|] eqn:Hc; cbn [from_option id].
  - apply cut_prefix_Some in Hc as Hk. split.
    + intros Hn _. exists name. split; [left; by rewrite Hk, append_assoc|done].
    + intros (name' & [Hk'|[_ Hk']] & Hn)%(fun f => f eq_refl); [|done].
      rewrite Hk, append_assoc in Hk'. by apply append_inj_l, append_inj_l in Hk' as ->.
  - split.
    + intros Hn _. exists key. auto.
    + intros (name' & [Hk'|[-> _]] & Hn)%(fun f => f eq_refl); [|done].
      rewrite Hk', <- append_assoc, cut_prefix_app in Hc. done.
Qed.
Lemma first_some_None {A B} (f : A -> option B) l :
  first_some f l = None <-> forall a, a ∈ l -> f a = None.
Proof.
  unfold first_some. induction l as [|a l IH]; cbn; [by split; [intros _ a Ha%elem_of_nil|]|].
  setoid_rewrite elem_of_cons. destruct (f a) eqn:Ha; cbn; naive_solver.
Qed.
Definition answer_definitions (r : result (list ClusterPluginDefinition)) X (e : accessHookE X) : option X :=
  match e with AListClusterPluginDefinitions => Some r | _ => None end.
Definition team_ok (definitions : list ClusterPluginDefinition) (team : Team) : Prop :=
  (forall key value, GetLabels team !! key = Some value -> allowed_label definitions key) /\
  (JoinURL (team_Spec team) <> "" -> ValidateURL (JoinURL (team_Spec team)) = true).
Lemma label_keys_None definitions labels :
  (forall m, access_map_order m ≡ₚ map_to_list m) ->
  first_some (fun kv => validate_label_key ({["support-group"]} ∪ list_to_set (GetName <$> definitions)) kv.1)
    (access_map_order labels) = None <->
  forall key value, labels !! key = Some value -> allowed_label definitions key.
Proof.
  intros Hm. rewrite first_some_None. setoid_rewrite <- validate_label_key_None. setoid_rewrite Hm. split.
  - intros H key value Hk. by apply (H (key, value)), elem_of_map_to_list.
  - intros H [key value] Hk%elem_of_map_to_list. by apply (H key value).
Qed.
Lemma validateJoinURL_None team :
  validateJoinURL team = None <->
  (JoinURL (team_Spec team) <> "" -> ValidateURL (JoinURL (team_Spec team)) = true).
Proof.
  unfold validateJoinURL.
  destruct (bool_decide_reflect (JoinURL (team_Spec team) = "")); [naive_solver|].
  destruct (ValidateURL _); cbn; naive_solver.
Qed.
(** The answers of the API server that leave the webhook without definitions. *)
Definition listed (r : result (list ClusterPluginDefinition)) : result (list ClusterPluginDefinition) :=
  match r with Err e => if is_not_found (Some e) then Ok [] else Err e | Ok l => Ok l end.
(** A Team is stored exactly when every label of it that begins with the name of the
    API group names the support-group marker or an existing ClusterPluginDefinition, and
    its join URL is empty or an https one; a failed read of the definitions refuses the
    Team with that error, a missing resource counts as no definitions.  Creation and
    update decide alike. *)
Theorem team_admission team old r :
  (forall m, access_map_order m ≡ₚ map_to_list m) ->
  exists err, eval (answer_definitions r) (ValidateCreate TeamWebhook team) = Some ([], err) /\
    eval (answer_definitions r) (ValidateUpdate TeamWebhook old team) = Some ([], err) /\
    match listed r with
    | Ok definitions => err = None <-> team_ok definitions team
    | Err e => err = Some e
    end.
Proof.
  intros Hm. change (ValidateUpdate TeamWebhook old team) with (ValidateCreate TeamWebhook team).
  assert (H : exists err, eval (answer_definitions r) (ValidateCreateTeam team) = Some ([], err) /\
    match listed r with
    | Ok definitions => err = None <-> team_ok definitions team
    | Err e => err = Some e
    end); [|by destruct H as (err & ? & ?); exists err].
  unfold ValidateCreateTeam, validateGreenhouseLabels, team_ok. rewrite !eval_bind, eval_trigger. cbn.
  pose proof (validateJoinURL_None team) as Hj.
  destruct r as [definitions|e]; cbn [listed]; rewrite eval_ret.
  - pose proof (label_keys_None definitions (GetLabels team) Hm) as Hl.
    destruct (first_some _ _) as [e|]; rewrite eval_ret; eexists; (split; [done|]); naive_solver.
  - cbn [is_not_found]. destruct (bool_decide (err_reason e = NotFound)); [|by rewrite eval_ret; eexists].
    pose proof (label_keys_None [] (GetLabels team) Hm) as Hl. cbn in Hl. rewrite (right_id_L ∅ (∪)) in Hl.
    destruct (first_some _ _) as [e'|]; rewrite eval_ret; eexists; (split; [done|]); naive_solver.
Qed.
End owners_and_teams.

(** ** Concrete runs *)
Module AccessRun.
#[local] Instance libs : AccessLibs := {|
  MatchLabels_len := String.length; MatchExpressions_len _ := 0;
  clientcmd_Config := string;
  clientcmd_Load s := if contains s "clusters" then Ok s else Err (new_error "no clusters");
  clientcmd_ConfirmUsable s := if contains s "context" then None else Some (new_error "no context");
  access_map_order := map_to_list |}.
#[local] Instance urls : UrlParser := fun s =>
  match cut_prefix s "https://" with Some host => Ok ("https", host) | None => Ok ("", "") end.
Definition submitted : TeamRoleBinding :=
  mk_trb (named "viewers" "acme")
    (mk_trb_spec "viewer" "b-team" ["z-team"; " "; "b-team"; "z-team"] []
       (mk_cluster_selector "prod" "") ["apps"] false) (mk_trb_status [] []).
Definition stored : TeamRoleBinding := set_team_refs ["b-team"; "z-team"] submitted.
Definition resubmitted : TeamRoleBinding :=
  mk_trb (named "viewers" "acme")
    (mk_trb_spec "viewer" "" ["c-team"] [] (mk_cluster_selector "" "env=prod") ["apps"; "jobs"] true)
    (mk_trb_status [] []).
Lemma stored_admitted : admits TeamRoleBindingWebhook None submitted stored.
Proof.
  exists [], [], []. eexists. split; [done|]. vm_compute. by split.
Qed.
Lemma owned_admitted :
  admits TeamRoleBindingWebhook (Some stored) resubmitted resubmitted.
Proof. exists [], [], []. eexists. split; [done|]. vm_compute. by split. Qed.
Lemma rolebinding_versions_witness :
  versions TeamRoleBindingWebhook stored resubmitted /\ selects_once resubmitted.
Proof.
  assert (Hv : versions TeamRoleBindingWebhook stored resubmitted).
  { eapply v_updated; [apply (v_created _ submitted)|]; [apply stored_admitted|apply owned_admitted]. }
  split; [done|]. by apply (rolebinding_versions _ _ Hv).
Defined.
Lemma bound_role_kept_witness :
  let viewer := mk_team_role (named "viewer" "acme") (mk_team_role_spec [mk_rule [""] ["pods"] ["get"] []] None ∅) in
  eval (answer_bindings [resubmitted]) (ValidateDelete TeamRoleWebhook viewer) =
  Some ([], Some (NewForbidden "TeamRole" "viewer"
                    (new_error "role is still referenced by a rolebinding"))).
Proof.
  intros viewer. apply (bound_role_kept [resubmitted] viewer stored resubmitted); [|by left|done..].
  eapply v_updated; [apply (v_created _ submitted)|]; [apply stored_admitted|apply owned_admitted].
Defined.
Definition kubeconfig_secret : Secret :=
  mk_secret (named "prod-eu" "acme") SecretTypeKubeConfig {["kubeconfig" := Some "clusters context"]}.
Lemma admitted_kubeconfig_client_witness :
  kubeConfigGetterFromSecret
    (mk_secret (secret_meta kubeconfig_secret) SecretTypeKubeConfig
       (<[GreenHouseKubeConfigKey := Some "not a kubeconfig"]> (secret_Data kubeconfig_secret))) =
  Ok "not a kubeconfig".
Proof.
  apply (admitted_kubeconfig_client kubeconfig_secret eq_refl).
  split_and!; [done| |done]. intros _. split; [by split; [vm_compute; lia|]|].
  by exists "clusters context".
Defined.
Definition owned (owner : string) (name : string) : ServiceAccount :=
  mk_sa (with_labels {[LabelKeyOwnedBy := owner]} (named name "acme")).
Definition relabelled : ServiceAccount :=
  mk_sa (with_labels {[LabelKeyOwnedBy := "sre"; "app" := "ci"]} (named "ci" "acme")).
Lemma owner_label_fixed_witness :
  GetLabels relabelled !! LabelKeyOwnedBy = Some "sre".
Proof.
  apply (owner_label_fixed (owned "sre" "ci") relabelled).
  - eapply v_updated; [apply (v_created _ (owned "sre" "ci"))|]; exists [], [], [], []; by vm_compute.
  - done.
  - done.
Defined.
Definition labelled_team : Team :=
  mk_team (with_labels {["greenhouse.sap/support-group" := "true"; "greenhouse.sap/doop" := "x"]}
             (named "sre" "acme")) (mk_team_spec "" "" "http://join.example") (mk_team_status [] []).
Definition doop : ClusterPluginDefinition :=
  mk_cpd (named "doop" "") (mk_pd_spec "" "" None None [] "1.0.0" None "" "" "") (mk_pd_status [] None).
Lemma team_admission_witness :
  exists err, eval (answer_definitions (Ok [doop])) (ValidateCreate TeamWebhook labelled_team) = Some ([], err) /\
    (err = None <-> team_ok [doop] labelled_team).
Proof.
  destruct (team_admission labelled_team labelled_team (Ok [doop])) as (err & H & _ & Hok); [by intros m|].
  exists err. split; [exact H|exact Hok].
Defined.
End AccessRun.
