(* ===== verification/Base64.v ===== *)
(** * Base64: [encoding/base64] of Go's standard library

    [StdEncoding] decodes and encodes, the latter with and without padding.  Decoding
    what was encoded gives it back. *)
From S2P Require Import Prelude AccessWebhook.
From Stdlib Require Import Ascii.

(** ** [base64.StdEncoding.DecodeString] *)
Fixpoint index_of (c : ascii) (s : string) (n : nat) : option nat :=
  match s with
  | EmptyString => None
  | String c' s => if Ascii.eqb c c' then Some n else index_of c s (S n)
  end.
Definition base64_value (c : ascii) : option nat := index_of c base64_alphabet 0.
Definition byte0 (a b : nat) : ascii := ascii_of_nat (a * 4 + b / 16).
Definition byte1 (b c : nat) : ascii := ascii_of_nat (b mod 16 * 16 + c / 4).
Definition byte2 (c d : nat) : ascii := ascii_of_nat (c mod 4 * 64 + d).
Fixpoint base64_bytes (l : list ascii) : option (list ascii) :=
  match l with
  | [] => Some []
  | a :: b :: c :: d :: l' =>
      a ← base64_value a; b ← base64_value b;
      if base64_pad c then
        if base64_pad d && bool_decide (l' = []) then Some [byte0 a b] else None
      else
        c ← base64_value c;
        if base64_pad d then if bool_decide (l' = []) then Some [byte0 a b; byte1 b c] else None
        else d ← base64_value d; rest ← base64_bytes l'; Some (byte0 a b :: byte1 b c :: byte2 c d :: rest)
  | _ => None
  end.
Definition DecodeString (s : string) : result string :=
  match base64_bytes (List.filter (fun c => negb (base64_newline c)) (String.list_ascii_of_string s)) with
  | Some l => Ok (String.string_of_list_ascii l)
  | None => Err (new_error "illegal base64 data")
  end.

(** ** [EncodeToString], with or without padding *)
Definition base64_digit (n : nat) : ascii := default zero (String.get n base64_alphabet).
Definition pad_char : ascii := ascii_of_nat 61.
Fixpoint base64_encode (padding : bool) (l : list ascii) : list ascii :=
  let pad n := if padding then replicate n pad_char else [] in
  match l with
  | [] => []
  | [a] =>
      let a := nat_of_ascii a in
      base64_digit (a / 4) :: base64_digit (a mod 4 * 16) :: pad 2
  | [a; b] =>
      let a := nat_of_ascii a in let b := nat_of_ascii b in
      base64_digit (a / 4) :: base64_digit (a mod 4 * 16 + b / 16) :: base64_digit (b mod 16 * 4) :: pad 1
  | a :: b :: c :: l =>
      let a := nat_of_ascii a in let b := nat_of_ascii b in let c := nat_of_ascii c in
      base64_digit (a / 4) :: base64_digit (a mod 4 * 16 + b / 16) ::
      base64_digit (b mod 16 * 4 + c / 64) :: base64_digit (c mod 64) :: base64_encode padding l
  end.
Definition EncodeToString (padding : bool) (s : string) : string :=
  String.string_of_list_ascii (base64_encode padding (String.list_ascii_of_string s)).

(** ** Round trip *)
Definition digit_ok (n : nat) : bool :=
  bool_decide (base64_value (base64_digit n) = Some n) && negb (base64_pad (base64_digit n)) &&
  negb (base64_newline (base64_digit n)).
Lemma digits_ok n : n < 64 -> digit_ok n = true.
Proof.
  intros Hn. assert (forallb digit_ok (seq 0 64) = true) as H by (vm_compute; reflexivity).
  rewrite forallb_forall in H. apply H, in_seq. lia.
Qed.
Lemma digit_spec n : n < 64 ->
  base64_value (base64_digit n) = Some n /\ base64_pad (base64_digit n) = false /\
  base64_newline (base64_digit n) = false.
Proof.
  intros Hn%digits_ok. unfold digit_ok in Hn.
  apply andb_true_iff in Hn as [[H1%bool_decide_eq_true H2%negb_true_iff]%andb_true_iff H3%negb_true_iff]. done.
Qed.
Lemma byte_bound (a : ascii) : nat_of_ascii a < 256.
Proof. apply nat_ascii_bounded. Qed.
Lemma ascii_of_eq n a : n = nat_of_ascii a -> ascii_of_nat n = a.
Proof. intros ->. apply ascii_nat_embedding. Qed.
Lemma div_digit x y k : k <> 0 -> y < k -> (x * k + y) / k = x.
Proof. intros Hk Hy. rewrite Nat.div_add_l, (Nat.div_small y) by lia. lia. Qed.
Lemma mod_digit x y k : k <> 0 -> y < k -> (x * k + y) mod k = y.
Proof. intros Hk Hy. rewrite Nat.add_comm, Nat.Div0.mod_add. by apply Nat.mod_small. Qed.
Lemma div_lt n m k : n < m * k -> k <> 0 -> n / k < m.
Proof. intros. apply Nat.Div0.div_lt_upper_bound. lia. Qed.
(** The bytes of a group, from its digits. *)
Section group.
Variable a b c : ascii.
Abbreviation x := (nat_of_ascii a).
Abbreviation y := (nat_of_ascii b).
Abbreviation z := (nat_of_ascii c).
Lemma high_digits : x / 4 < 64 /\ x mod 4 * 16 + y / 16 < 64 /\ y mod 16 * 4 + z / 64 < 64 /\ z mod 64 < 64 /\
  x mod 4 * 16 < 64 /\ y mod 16 * 4 < 64.
Proof.
  pose proof (byte_bound a). pose proof (byte_bound b). pose proof (byte_bound c).
  pose proof (div_lt x 64 4). pose proof (div_lt y 16 16). pose proof (div_lt z 4 64).
  pose proof (Nat.mod_upper_bound x 4). pose proof (Nat.mod_upper_bound y 16).
  pose proof (Nat.mod_upper_bound z 64). lia.
Qed.
Lemma first_byte n : n < 16 -> byte0 (x / 4) (x mod 4 * 16 + n) = a.
Proof.
  intros Hn. unfold byte0. apply ascii_of_eq. rewrite div_digit by lia. pose proof (Nat.div_mod_eq x 4). lia.
Qed.
Lemma second_byte n : n < 4 -> byte1 (x mod 4 * 16 + y / 16) (y mod 16 * 4 + n) = b.
Proof.
  intros Hn. unfold byte1. apply ascii_of_eq. pose proof (byte_bound b). pose proof (div_lt y 16 16).
  rewrite mod_digit, div_digit by lia. pose proof (Nat.div_mod_eq y 16). lia.
Qed.
Lemma third_byte : byte2 (y mod 16 * 4 + z / 64) (z mod 64) = c.
Proof.
  unfold byte2. apply ascii_of_eq. pose proof (byte_bound c). pose proof (div_lt z 4 64).
  rewrite mod_digit by lia. pose proof (Nat.div_mod_eq z 64). lia.
Qed.
End group.

Lemma list_ind3 {A} (P : list A -> Prop) :
  P [] -> (forall a, P [a]) -> (forall a b, P [a; b]) -> (forall a b c l, P l -> P (a :: b :: c :: l)) ->
  forall l, P l.
Proof. intros H0 H1 H2 H3. fix IH 1. intros [|a [|b [|c l]]]; [exact H0|apply H1|apply H2|apply H3, IH]. Qed.
Lemma base64_round l : base64_bytes (base64_encode true l) = Some l.
Proof.
  induction l as [|a|a b|a b c l IH] using list_ind3; [done|..]; cbn [base64_encode replicate base64_bytes].
  - destruct (high_digits a zero zero) as (H1 & _ & _ & _ & H2 & _).
    rewrite (proj1 (digit_spec _ H1)), (proj1 (digit_spec _ H2)). cbn [mbind option_bind].
    change (base64_pad pad_char) with true. rewrite bool_decide_eq_true_2 by done. cbn [andb].
    rewrite <-(Nat.add_0_r (nat_of_ascii a mod 4 * 16)). by rewrite first_byte by lia.
  - destruct (high_digits a b zero) as (H1 & H2 & _ & _ & _ & H3).
    destruct (digit_spec _ H3) as (Hv & Hp & _).
    rewrite (proj1 (digit_spec _ H1)), (proj1 (digit_spec _ H2)). cbn [mbind option_bind]. rewrite Hp, Hv.
    cbn [mbind option_bind]. change (base64_pad pad_char) with true. rewrite bool_decide_eq_true_2 by done.
    rewrite first_byte by (apply div_lt; [apply (byte_bound b)|lia]).
    rewrite <-(Nat.add_0_r (nat_of_ascii b mod 16 * 4)). by rewrite second_byte by lia.
  - destruct (high_digits a b c) as (H1 & H2 & H3 & H4 & _).
    destruct (digit_spec _ H3) as (Hv3 & Hp3 & _), (digit_spec _ H4) as (Hv4 & Hp4 & _).
    rewrite (proj1 (digit_spec _ H1)), (proj1 (digit_spec _ H2)). cbn [mbind option_bind].
    rewrite Hp3, Hv3. cbn [mbind option_bind]. rewrite Hp4, Hv4. cbn [mbind option_bind]. rewrite IH. cbn [mbind option_bind].
    rewrite first_byte by (apply div_lt; [apply (byte_bound b)|lia]).
    rewrite second_byte by (apply div_lt; [apply (byte_bound c)|lia]). by rewrite third_byte.
Qed.
Lemma base64_no_newline l : List.filter (fun c => negb (base64_newline c)) (base64_encode true l) = base64_encode true l.
Proof.
  assert (forall n, n < 64 -> base64_newline (base64_digit n) = false) as Hd by (intros; by apply digit_spec).
  induction l as [|a|a b|a b c l IH] using list_ind3; [done|..]; cbn [base64_encode replicate List.filter].
  - destruct (high_digits a zero zero) as (H1 & _ & _ & _ & H2 & _). by rewrite !Hd.
  - destruct (high_digits a b zero) as (H1 & H2 & _ & _ & _ & H3). by rewrite !Hd.
  - destruct (high_digits a b c) as (H1 & H2 & H3 & H4 & _). rewrite !Hd by done. cbn [negb]. by rewrite IH.
Qed.
(** Decoding gives back what was encoded, for every string of bytes. *)
Theorem DecodeString_EncodeToString s : DecodeString (EncodeToString true s) = Ok s.
Proof.
  unfold DecodeString, EncodeToString.
  rewrite String.list_ascii_of_string_of_list_ascii, base64_no_newline, base64_round.
  by rewrite String.string_of_list_ascii_of_string.
Qed.
