(* ===== verification/Artifactory.v ===== *)
(** * Artifactory: the cache of fetched artifacts ([internal/flux/artifact.go])

    An artifact is downloaded once and kept in a directory per source, in a file named
    after its digest.  The calls are those of package [os], of the HTTP client that
    retries, and of the mutex; the environment and the tar reader are parameters.
    [filepath.Join] is written out.  The theorems are about a file system that may fail at
    any call, through any sequence of reads, saves and pruning calls: [os.WriteFile] then
    leaves a prefix of the content, as its documentation says. *)
From S2P Require Import Prelude Effects.
From Stdlib Require Import Ascii ZArith.

(** ** [path/filepath] *)
Definition slash : ascii := "/"%char.
(** The components of a path without empty and "." ones, ".." taken back. *)
Definition push_component (rooted : bool) (acc : list string) (c : string) : list string :=
  if bool_decide (c = "") || bool_decide (c = ".") then acc
  else if bool_decide (c = "..") then
    match last acc with
    | Some c' => if bool_decide (c' = "..") then acc ++ [c] else removelast acc
    | None => if rooted then [] else [c]
    end
  else acc ++ [c].
Definition components (rooted : bool) (path : string) : list string :=
  fold_left (push_component rooted) (split slash path) [].
Definition print_path (rooted : bool) (cs : list string) : string :=
  if rooted then "/" +:+ join "/" cs else if bool_decide (cs = []) then "." else join "/" cs.
Definition Clean (path : string) : string :=
  let rooted := has_prefix path "/" in print_path rooted (components rooted path).
Definition Join (elems : list string) : string :=
  match List.filter (fun e => negb (bool_decide (e = ""))) elems with
  | [] => ""
  | l => Clean (join "/" l)
  end.
(** Up to the last slash, cleaned. *)
Definition Dir (path : string) : string :=
  match List.rev (split slash path) with
  | [] | [_] => "."
  | _ :: d => Clean (join "/" (List.rev d) +:+ "/")
  end.

(** ** Calls *)
Record response := mk_response {
  resp_StatusCode : Z; resp_Status : string; resp_ContentLength : Z; resp_Body : result string }.
(** The error of a missing file has the reason [NotFound]. *)
Inductive artifactE : Type -> Type :=
| ALock : artifactE unit
| AUnlock : artifactE unit
| AReadFile (path : string) : artifactE (result string)
| AStat (path : string) : artifactE (option error)
| AMkdirAll (path : string) : artifactE (option error)
| AWriteFile (path content : string) : artifactE (option error)
| AReadDir (path : string) : artifactE (result (list (string * bool)))
| ARemove (path : string) : artifactE (option error)
| ANewRequest (url : string) : artifactE (option error)
| ADo (url : string) : artifactE (result response).
(** What the tar reader yields: entries, then the end or an error. *)
Inductive tar_type := TypeReg | TypeDir | TypeOther.
Record tar_entry := mk_entry { te_Name : string; te_Type : tar_type; te_Data : result string }.
(** [url.URL] with the fields that are read or written *)
Record parsed_url := mk_purl { pu_Scheme : string; pu_Host : string; pu_rest : string }.
Class ArtifactLibs := {
  gzip_NewReader : string -> result string;
  tar_entries : string -> list tar_entry * option error;
  json_files : gmap string string -> result string;
  purl_Parse : string -> result parsed_url;
  purl_String : parsed_url -> string;
  (** the environment variable ARTIFACT_DOMAIN *)
  artifact_domain : option string
}.

Section artifactory.
Context {Libs : ArtifactLibs}.
Variable storageBasePath : string.
Local Abbreviation P := (prog artifactE).
Definition artifact_path (artifactID digest : string) : string := Join [storageBasePath; artifactID; digest].

Definition replaceArtifactDomain (artifactURL : string) : string :=
  match artifact_domain with
  | None => artifactURL
  | Some override =>
      if bool_decide (override = "") then artifactURL
      else match purl_Parse artifactURL with
        | Err _ => artifactURL
        | Ok parsed =>
            if bool_decide (pu_Host parsed = "") then artifactURL
            else
              purl_String
                (match purl_Parse override with
                 | Ok o => if bool_decide (pu_Host o = "") then mk_purl (pu_Scheme parsed) override (pu_rest parsed)
                           else mk_purl (pu_Scheme o) (pu_Host o) (pu_rest parsed)
                 | Err _ => mk_purl (pu_Scheme parsed) override (pu_rest parsed)
                 end)
        end
  end.
Definition add_entry (files : result (gmap string string)) (e : tar_entry) : result (gmap string string) :=
  files ← files;
  match te_Type e with
  | TypeReg =>
      match te_Data e with
      | Ok data => Ok (<[te_Name e := data]> files)
      | Err er => Err (wrap_error ("failed to read file " +:+ te_Name e +:+ " from tar: ") er)
      end
  | TypeDir | TypeOther => Ok files
  end.
Definition extractTarGz (body : string) : result (gmap string string) :=
  match gzip_NewReader body with
  | Err e => Err (wrap_error "failed to create gzip reader: " e)
  | Ok gzr =>
      let '(entries, end_error) := tar_entries gzr in
      files ← fold_left add_entry entries (Ok ∅);
      match end_error with Some e => Err (wrap_error "error reading tar: " e) | None => Ok files end
  end.
Definition short_read (r : response) (body : string) : bool :=
  (0 <=? resp_ContentLength r)%Z && negb (Z.of_nat (String.length body) =? resp_ContentLength r)%Z.
Definition download (srcURL : string) : P (result string) :=
  let srcURL := replaceArtifactDomain srcURL in
  rerr ← trigger (ANewRequest srcURL);
  match rerr with
  | Some e => mret (Err e)
  | None =>
      r ← trigger (ADo srcURL);
      mret match r with
      | Err e => Err (wrap_error "failed to download file: " e)
      | Ok resp =>
          if negb (resp_StatusCode resp =? 200)%Z then Err (new_error ("bad response: " +:+ resp_Status resp))
          else match resp_Body resp with
            | Err e => Err (wrap_error "failed to read response body: " e)
            | Ok body => if short_read resp body then Err (new_error ("short read from " +:+ srcURL)) else Ok body
            end
      end
  end.
Definition fetchFromSource (srcURL : string) : P (result (gmap string string)) :=
  r ← download srcURL;
  mret match r with Err e => Err e | Ok body => extractTarGz body end.

(** A missing file is reported as [os.ErrNotExist]. *)
Definition not_exist : error := mk_error NotFound "file does not exist".
Definition fetchFromFileSystem (artifactID digest : string) : P (result string) :=
  if bool_decide (digest = "") then mret (Err (new_error "digest must not be empty"))
  else
    r ← trigger (AReadFile (artifact_path artifactID digest));
    mret match r with
    | Ok data => Ok data
    | Err e => if is_not_found (Some e) then Err not_exist
               else Err (wrap_error "failed to read artifact file: " e)
    end.
(** From the cache, or else from the source, by [fetch]. *)
Definition cached_or (artifactID digest : string) (fetch : P (result string)) : P (result string) :=
  r ← fetchFromFileSystem artifactID digest;
  match r with
  | Ok data => mret (Ok data)
  | Err e => if negb (is_not_found (Some e)) then mret (Err (wrap_error "failed to fetch artifact from filesystem: " e))
             else fetch
  end.
Definition Get (artifactID srcURL digest : string) : P (result string) :=
  cached_or artifactID digest
    (r ← fetchFromSource srcURL;
     mret match r with
     | Err e => Err (wrap_error "failed to fetch artifact from source: " e)
     | Ok files =>
         match json_files files with
         | Err e => Err (wrap_error "failed to marshal artifact content: " e)
         | Ok content => Ok content
         end
     end).
(** Between [Lock] and the deferred [Unlock]. *)
Definition locked {A} (p : P A) : P A :=
  _ ← trigger ALock;
  a ← p;
  _ ← trigger AUnlock;
  mret a.
Definition GetRaw (artifactID srcURL digest : string) : P (result string) :=
  locked (cached_or artifactID digest (download srcURL)).
Definition saveToFileSystem (artifactID digest content : string) : P (option error) :=
  if bool_decide (artifactID = "") then mret (Some (new_error "artifactID must not be empty"))
  else if bool_decide (digest = "") then mret (Some (new_error "digest must not be empty"))
  else if bool_decide (content = "") then mret (Some (new_error "content must not be empty"))
  else
    locked
      (let filePath := artifact_path artifactID digest in
       serr ← trigger (AStat filePath);
       match serr with
       | None => mret None
       | Some e =>
           if negb (is_not_found (Some e)) then
             mret (Some (wrap_error ("failed to check if artifact " +:+ filePath +:+ " exists: ") e))
           else
             merr ← trigger (AMkdirAll (Dir filePath));
             match merr with
             | Some e => mret (Some (wrap_error "failed to create artifact directory: " e))
             | None =>
                 werr ← trigger (AWriteFile filePath content);
                 mret (match werr with Some e => Some (wrap_error "failed to write artifact file: " e) | None => None end)
             end
       end).
Definition Save (artifactID digest content : string) : P (option error) :=
  saveToFileSystem artifactID digest content.
Definition delete_entry (dir keepDigest : string) (_ : unit) (e : string * bool) : P (unit + option error) :=
  let '(name, isDir) := e in
  if isDir || bool_decide (name = keepDigest) then mret (inl tt)
  else
    let target := Join [dir; name] in
    rerr ← trigger (ARemove target);
    mret match rerr with
    | None => inl tt
    | Some er => if is_not_found (Some er) then inl tt
                 else inr (Some (wrap_error ("failed to delete artifact file " +:+ target +:+ ": ") er))
    end.
Definition deleteAllExceptFromFileSystem (artifactID keepDigest : string) : P (option error) :=
  locked
    (let dir := Join [storageBasePath; artifactID] in
     r ← trigger (AReadDir dir);
     match r with
     | Err e => if is_not_found (Some e) then mret None
                else mret (Some (wrap_error "failed to read artifact directory: " e))
     | Ok entries =>
         l ← foreach entries (delete_entry dir keepDigest) tt;
         mret match l with inl _ => None | inr err => err end
     end).
Definition DeleteAllExcept (artifactID digest : string) : P (option error) :=
  deleteAllExceptFromFileSystem artifactID digest.
End artifactory.

(** ** Paths *)
(** A path in normal form: every component is kept by the step that adds it. *)
Inductive normal (rooted : bool) : list string -> Prop :=
| normal_nil : normal rooted []
| normal_snoc cs c : normal rooted cs -> char_in slash c = false ->
    push_component rooted cs c = cs ++ [c] -> normal rooted (cs ++ [c]).
Lemma normal_removelast rooted cs : normal rooted cs -> normal rooted (removelast cs).
Proof. destruct 1; [constructor|]. by rewrite removelast_last. Qed.
Lemma push_normal rooted cs c :
  char_in slash c = false -> normal rooted cs -> normal rooted (push_component rooted cs c).
Proof.
  intros Hc Hn. destruct (push_component rooted cs c) eqn:Hp; [constructor|]. rewrite <-Hp.
  pose proof Hp as Hp'. unfold push_component in Hp |- *.
  destruct (bool_decide (c = "") || _) eqn:He; [done|].
  assert (push_component rooted cs c = cs ++ [c] -> normal rooted (cs ++ [c])) as Hadd by (intros; by constructor).
  unfold push_component in Hadd. rewrite He in Hadd.
  destruct (bool_decide (c = "..")); [|by apply Hadd]. destruct (last cs) as [c'|] eqn:Hl.
  - destruct (bool_decide (c' = "..")); [by apply Hadd|by apply normal_removelast].
  - destruct rooted; [constructor|]. apply last_None in Hl as ->. by apply Hadd.
Qed.
Lemma fold_push_normal rooted l cs :
  Forall (fun c => char_in slash c = false) l -> normal rooted cs ->
  normal rooted (fold_left (push_component rooted) l cs).
Proof. intros Hl. revert cs. induction Hl; intros cs Hn; cbn; [done|]. auto using push_normal. Qed.
Lemma components_normal rooted path : normal rooted (components rooted path).
Proof.
  apply fold_push_normal; [|constructor]. apply Forall_forall. intros c. apply elem_of_split_no_sep.
Qed.
Lemma normal_fixed rooted cs : normal rooted cs -> fold_left (push_component rooted) cs [] = cs.
Proof. induction 1 as [|cs c _ IH _ Hp]; [done|]. rewrite fold_left_app. cbn. by rewrite IH. Qed.
Lemma normal_no_slash rooted cs : normal rooted cs -> Forall (fun c => char_in slash c = false) cs.
Proof. induction 1; [constructor|]. apply Forall_app. by repeat constructor. Qed.
Lemma normal_not_empty rooted cs : normal rooted cs -> Forall (fun c => c <> "" /\ c <> ".") cs.
Proof.
  induction 1 as [|cs c _ IH _ Hp]; [constructor|]. apply Forall_app. split; [done|]. constructor; [|constructor].
  split; intros ->; [change (cs = cs ++ [""]) in Hp|change (cs = cs ++ ["."]) in Hp]; apply (f_equal length) in Hp; rewrite length_app in Hp; cbn in Hp; lia.
Qed.

(** A name [filepath.Join] takes as it is. *)
Definition plain (name : string) : Prop :=
  char_in slash name = false /\ name <> "" /\ name <> "." /\ name <> "..".
Lemma push_plain rooted cs c : plain c -> push_component rooted cs c = cs ++ [c].
Proof. intros (_ & H1 & H2 & H3). unfold push_component. by rewrite !bool_decide_eq_false_2. Qed.
Lemma components_child rooted path name :
  plain name -> components rooted (path +:+ "/" +:+ name) = components rooted path ++ [name].
Proof.
  intros Hp. unfold components. assert (split slash (path +:+ "/" +:+ name) = split slash path ++ [name]) as ->.
  { destruct Hp as [Hn _]. clear -Hn. rewrite <-(join_split slash path) at 1.
    rewrite <-(split_join slash (split slash path ++ [name])).
    - f_equal. unfold join. pose proof (split_not_nil slash path) as Hne. revert Hne.
      generalize (split slash path). induction l as [|x l IH]; [done|]. intros _. destruct l as [|y l]; [done|].
      cbn [app String.concat] in *. rewrite !append_assoc. f_equal. f_equal. by apply IH.
    - by destruct (split slash path).
    - apply Forall_app. split; [|by repeat constructor]. apply Forall_forall. intros c. apply elem_of_split_no_sep. }
  rewrite fold_left_app. cbn. by apply push_plain.
Qed.
Abbreviation rooted p := (has_prefix p "/").
Lemma print_path_snoc r cs name : print_path r (cs ++ [name]) = (if r then "/" else "") +:+ join "/" (cs ++ [name]).
Proof. unfold print_path. destruct r; [done|]. rewrite bool_decide_eq_false_2; [done|]. by destruct cs. Qed.
Lemma rooted_app p q : p <> "" -> rooted (p +:+ q) = rooted p.
Proof.
  destruct p as [|a p]; [done|]. intros _. unfold has_prefix. cbn [String.append String.prefix].
  destruct (ascii_dec _ _); [|done]. by destruct p, q.
Qed.
Lemma Clean_child p name :
  p <> "" -> plain name -> Clean (p +:+ "/" +:+ name) = print_path (rooted p) (components (rooted p) p ++ [name]).
Proof. intros Hp Hn. unfold Clean. rewrite rooted_app by done. by rewrite components_child. Qed.
Lemma split_join_normal r cs : normal r cs -> cs <> [] -> split slash (join "/" cs) = cs.
Proof. intros Hn Hc. apply split_join; [done|]. by eapply normal_no_slash. Qed.
Lemma normal_head r c cs : normal r (c :: cs) -> rooted (join "/" (c :: cs)) = false /\ join "/" (c :: cs) <> "".
Proof.
  intros Hn. pose proof (normal_no_slash _ _ Hn) as Hs. pose proof (normal_not_empty _ _ Hn) as He.
  apply Forall_cons in Hs as [Hs _]. apply Forall_cons in He as [[He _] _]. destruct c as [|a c]; [done|].
  cbn in Hs. apply orb_false_elim in Hs as [Ha _]. apply Ascii.eqb_neq in Ha. unfold slash in Ha. unfold join, has_prefix.
  destruct cs; (split; [|done]); cbn [String.concat String.append String.prefix]; destruct (ascii_dec "/" a); congruence.
Qed.
Lemma Clean_facts p : p <> "" ->
  Clean p <> "" /\ rooted (Clean p) = rooted p /\
  components (rooted p) (Clean p) = components (rooted p) p.
Proof.
  intros _. unfold Clean. pose proof (components_normal (rooted p) p) as Hn. revert Hn.
  destruct (rooted p); generalize (components true p), (components false p); intros ct cf Hn; unfold print_path.
  - split; [done|]. split; [by destruct (join "/" ct)|]. unfold components. cbn [split String.append].
    change (Ascii.eqb "/" slash) with true. cbn [fold_left]. change (push_component true [] "") with (@nil string).
    destruct ct as [|c ct]; [done|]. rewrite (split_join_normal true) by done. by apply normal_fixed.
  - case_bool_decide as Hc; [by subst|]. destruct cf as [|c cf]; [done|]. destruct (normal_head _ _ _ Hn) as [H1 H2].
    split; [done|]. split; [done|]. unfold components. rewrite (split_join_normal false) by done. by apply normal_fixed.
Qed.
Definition joined (base id : string) : string := if bool_decide (id = "") then base else base +:+ "/" +:+ id.
Lemma joined_not_empty base id : base <> "" -> joined base id <> "".
Proof. intros Hb. unfold joined. case_bool_decide; [done|]. by destruct base. Qed.
Lemma Join_pair base id : base <> "" -> Join [base; id] = Clean (joined base id).
Proof.
  intros Hb. unfold Join, joined. cbn [List.filter]. rewrite (bool_decide_eq_false_2 (base = "")) by done. cbn [negb].
  by destruct (bool_decide (id = "")).
Qed.
Lemma Join_triple base id name :
  base <> "" -> plain name -> Join [base; id; name] = Clean (joined base id +:+ "/" +:+ name).
Proof.
  intros Hb (_ & Hne & _). unfold Join, joined. cbn [List.filter].
  rewrite (bool_decide_eq_false_2 (base = "")), (bool_decide_eq_false_2 (name = "")) by done. cbn [negb].
  destruct (bool_decide (id = "")); cbn [negb]; unfold join; cbn [String.concat]; by rewrite ?append_assoc.
Qed.
Lemma Join_base base id : base <> "" -> Join [base; id] <> "".
Proof. intros Hb. rewrite Join_pair by done. apply Clean_facts. by apply joined_not_empty. Qed.
Lemma Join_name dir name : dir <> "" -> plain name ->
  Join [dir; name] = print_path (rooted dir) (components (rooted dir) dir ++ [name]).
Proof.
  intros Hd Hn. rewrite Join_pair by done. unfold joined. rewrite bool_decide_eq_false_2 by apply Hn. by apply Clean_child.
Qed.
Lemma Join_child base id name :
  base <> "" -> plain name -> Join [Join [base; id]; name] = Join [base; id; name].
Proof.
  intros Hb Hn. rewrite Join_name, Join_triple, Join_pair by auto using Join_base.
  pose proof (joined_not_empty base id Hb) as Hj. destruct (Clean_facts _ Hj) as (_ & -> & ->). by rewrite Clean_child.
Qed.
Lemma Join_child_inj dir name name' :
  dir <> "" -> plain name -> plain name' -> Join [dir; name] = Join [dir; name'] -> name = name'.
Proof.
  intros Hd Hn Hn' H. rewrite !Join_name, !print_path_snoc in H by done. apply append_inj_l in H.
  assert (forall n, plain n -> split slash (join "/" (components (rooted dir) dir ++ [n])) = components (rooted dir) dir ++ [n]) as Hs.
  { intros n Hp. apply (split_join_normal (rooted dir)); [|by destruct (components _ _)].
    constructor; [apply components_normal|apply Hp|by apply push_plain]. }
  apply (f_equal (split slash)) in H. rewrite !Hs in H by done. by apply app_inj_tail in H as [_ ->].
Qed.

Lemma join_app x l name : join "/" ((x :: l) ++ [name]) = join "/" (x :: l) +:+ "/" +:+ name.
Proof.
  revert x. unfold join. induction l as [|y l IH]; intros x; [done|]. cbn [app String.concat] in *.
  rewrite IH, !append_assoc. done.
Qed.
Lemma split_trailing r cs : normal r cs -> cs <> [] -> split slash (join "/" cs +:+ "/") = cs ++ [""].
Proof.
  intros Hn Hc. rewrite <-(split_join slash (cs ++ [""])); [|by destruct cs|].
  - destruct cs as [|c cs]; [done|]. by rewrite join_app.
  - apply Forall_app. split; [by eapply normal_no_slash|by repeat constructor].
Qed.
Lemma components_trailing r cs :
  normal r cs -> cs <> [] -> components r (join "/" cs +:+ "/") = cs.
Proof.
  intros Hn Hc. unfold components. rewrite (split_trailing r) by done. by rewrite fold_left_app, normal_fixed.
Qed.
Lemma split_print r cs : normal r cs -> cs <> [] ->
  split slash (print_path r cs) = (if r then [""] else []) ++ cs.
Proof.
  intros Hn Hc. unfold print_path. destruct r.
  - cbn [String.append split]. change (Ascii.eqb "/" slash) with true. cbv iota. by rewrite (split_join_normal true).
  - rewrite bool_decide_eq_false_2 by done. by apply (split_join_normal false).
Qed.
Lemma Dir_child r cs name :
  normal r cs -> plain name -> Dir (print_path r (cs ++ [name])) = print_path r cs.
Proof.
  intros Hn Hp. assert (normal r (cs ++ [name])) as Hn' by (constructor; [done|apply Hp|by apply push_plain]).
  unfold Dir. rewrite split_print, app_assoc, rev_app_distr by (done || by destruct cs). cbn [List.rev app].
  destruct cs as [|c cs].
  { by destruct r. }
  assert (List.rev ((if r then [""] else []) ++ c :: cs) <> []) as Hne.
  { intros H%(f_equal (@length string)). rewrite length_rev, length_app in H. by destruct r. }
  destruct (List.rev ((if r then [""] else []) ++ c :: cs)) as [|x l] eqn:Hl; [done|]. rewrite <-Hl, rev_involutive.
  pose proof (normal_head r c cs Hn) as [H1 H2]. destruct r; cbn [app].
  - change (join "/" ("" :: c :: cs)) with ("/" +:+ join "/" (c :: cs)). unfold Clean. rewrite append_assoc.
    rewrite has_prefix_app. cbv zeta. f_equal.
    transitivity (components true (join "/" (c :: cs) +:+ "/")); [done|]. by apply components_trailing.
  - unfold Clean. rewrite rooted_app, H1 by done. cbv zeta. f_equal. by apply components_trailing.
Qed.

(** ** The file system *)
Inductive node := File (content : string) | Directory.
Abbreviation fs := (gmap string node).
Definition is_directory (n : node) : bool := match n with Directory => true | File _ => false end.
(** Missing directories are made, nothing else. *)
Definition made_dirs (path : string) (w w' : fs) : Prop :=
  forall q, w' !! q = w !! q \/ w !! q = None /\ w' !! q = Some Directory /\ (q = path \/ exists r, path = q +:+ "/" +:+ r).
Definition missing {A} (w : fs) (path : string) (r : result A) : Prop :=
  match r with Err e => is_not_found (Some e) = true -> w !! path = None | Ok _ => True end.
Definition lists (w : fs) (dir : string) (l : list (string * bool)) : Prop :=
  NoDup l.*1 /\ Forall (fun e => plain e.1) l /\
  forall name isDir, plain name ->
    (name, isDir) ∈ l <-> exists n, w !! Join [dir; name] = Some n /\ isDir = is_directory n.
Definition fs_step (w : fs) X (e : artifactE X) : X -> fs -> Prop :=
  match e in artifactE X return X -> fs -> Prop with
  | AReadFile p => fun r w' => w' = w /\ missing w p r /\ (forall c, r = Ok c -> w !! p = Some (File c))
  | AStat p => fun err w' => w' = w /\
      match err with
      | None => is_Some (w !! p)
      | Some e => is_not_found (Some e) = true -> w !! p = None
      end
  | AMkdirAll p => fun _ w' => made_dirs p w w'
  | AWriteFile p c => fun err w' =>
      match err with
      | None => w' = <[p := File c]> w
      | Some _ => w' = w \/ exists c' rest, c = c' +:+ rest /\ w' = <[p := File c']> w
      end
  | AReadDir d => fun r w' => w' = w /\
      match r with
      | Ok l => lists w d l
      | Err e => is_not_found (Some e) = true -> forall name, plain name -> w !! Join [d; name] = None
      end
  | ARemove p => fun err w' =>
      match err with
      | None => w' = delete p w
      | Some e => w' = w /\ (is_not_found (Some e) = true -> w !! p = None)
      end
  | _ => fun _ w' => w' = w
  end.

(** ** What the operations do to the files *)
Section cache.
Context {Libs : ArtifactLibs}.
Variable storageBasePath : string.
Hypothesis base_given : storageBasePath <> "".
Abbreviation path id digest := (artifact_path storageBasePath id digest).
Abbreviation dir id := (Join [storageBasePath; id]).

Lemma print_path_longer r cs name rest :
  normal r cs -> plain name -> print_path r (cs ++ [name]) +:+ rest <> print_path r cs.
Proof.
  intros Hn (_ & Hne & Hdot & _) Heq. destruct cs as [|c cs].
  - assert (String.length name <> 0)%nat as Hl by (by destruct name).
    destruct r; cbn in Heq; [destruct name; by injection Heq|].
    destruct name as [|a name]; [done|]. cbn in Heq. injection Heq as -> Heq. by destruct name.
  - rewrite print_path_snoc, join_app in Heq. unfold print_path in Heq. rewrite bool_decide_eq_false_2 in Heq by done.
    apply (f_equal String.length) in Heq. destruct r; rewrite !length_append in Heq; cbn [String.length] in Heq;
      rewrite ?length_append in Heq; cbn in Heq; lia.
Qed.
Lemma path_child id digest : plain digest -> path id digest = Join [dir id; digest].
Proof. intros Hd. symmetry. by apply Join_child. Qed.
Lemma made_dirs_path id digest w w' :
  plain digest -> made_dirs (Dir (path id digest)) w w' -> w' !! path id digest = w !! path id digest.
Proof.
  intros Hd Hm. rewrite path_child, Join_name in Hm |- * by auto using Join_base.
  set (r := rooted (dir id)) in *. set (cs := components r (dir id)) in *.
  assert (normal r cs) as Hn by apply components_normal. rewrite Dir_child in Hm by done.
  destruct (Hm (print_path r (cs ++ [digest]))) as [|(_ & _ & [H|[rest H]])]; [done|..]; exfalso.
  - apply (print_path_longer r cs digest "" Hn Hd). by rewrite append_nil_r.
  - by apply (print_path_longer r cs digest ("/" +:+ rest) Hn Hd).
Qed.

Lemma locked_fs {A} (p : prog artifactE A) Q w : wp fs_step p Q w -> wp fs_step (locked p) Q w.
Proof.
  intros H. unfold locked. do 2 wp_step. cbn in Hx. subst. wp_step. eapply wp_mono; [|exact H]. intros w1 a Ha.
  do 2 wp_step. cbn in Hx. subst. by wp_step.
Qed.
Lemma download_fs url w : wp fs_step (download url) (fun w' _ => w' = w) w.
Proof.
  unfold download. do 2 wp_step. cbn in Hx. subst. wp_step; [by wp_step|]. do 2 wp_step. cbn in Hx. subst. by wp_step.
Qed.
(** [Get] and [GetRaw] read; a stored file is all they can answer with. *)
Lemma cached_or_fs id digest fetch w :
  wp fs_step fetch (fun w' _ => w' = w) w ->
  wp fs_step (cached_or storageBasePath id digest fetch) (fun w' r => w' = w /\
    forall c, w !! path id digest = Some (File c) -> r = Ok c \/ exists e, r = Err e) w.
Proof.
  intros Hf. unfold cached_or, fetchFromFileSystem. wp_step. destruct (bool_decide (digest = "")).
  { wp_step. wp_step; [|done]. wp_step. split; [done|]. intros c _. right. by eexists. }
  do 2 wp_step. destruct Hx as (-> & Hm & Hc). wp_step. destruct x as [c|e].
  { wp_step. split; [done|]. intros c' Hc'. left. specialize (Hc c eq_refl). congruence. }
  cbn in Hm. destruct (is_not_found (Some e)) eqn:Hnf; cbn [negb is_not_found].
  - change (is_not_found (Some not_exist)) with true. cbn [negb]. eapply wp_mono; [|exact Hf]. intros w' r ->.
    split; [done|]. intros c Hc'. rewrite Hm in Hc' by done. done.
  - cbn in Hnf |- *. rewrite Hnf.
    cbn [negb]. wp_step. split; [done|]. intros c _. right. by eexists.
Qed.
Lemma Get_fs id url digest w :
  wp fs_step (Get storageBasePath id url digest) (fun w' r => w' = w /\
    forall c, w !! path id digest = Some (File c) -> r = Ok c \/ exists e, r = Err e) w.
Proof.
  apply cached_or_fs. unfold fetchFromSource. do 2 wp_step. eapply wp_mono; [|apply download_fs]. intros w' r ->.
  do 2 wp_step. by repeat case_some.
Qed.
(** [Save] writes the file of the digest when nothing is there, and makes directories. *)
Definition others_kept (p : string) (w w' : fs) : Prop :=
  forall q, q <> p -> w' !! q = w !! q \/ w !! q = None /\ w' !! q = Some Directory.
Definition saved (p content : string) (w w' : fs) (err : option error) : Prop :=
  match err with
  | None => is_Some (w !! p) /\ w' = w \/ w !! p = None /\ w' !! p = Some (File content)
  | Some _ => w' !! p = w !! p \/
      w !! p = None /\ exists c rest, content = c +:+ rest /\ w' !! p = Some (File c)
  end.
Lemma Save_fs id digest content w :
  plain digest ->
  wp fs_step (Save storageBasePath id digest content) (fun w' err =>
    others_kept (path id digest) w w' /\ saved (path id digest) content w w' err) w.
Proof.
  intros Hd. assert (forall p, others_kept p w w) as Hsame by (intros p q _; by left).
  unfold Save, saveToFileSystem. do 3 (wp_step; [wp_step; split; [done|by left]|]). apply locked_fs.
  do 2 wp_step. destruct Hx as [-> Hx]. destruct x as [e|].
  2: { wp_step. split; [done|]. by left. }
  destruct (is_not_found (Some e)) eqn:Hnf; cbn [negb].
  2: { wp_step. split; [done|]. by left. }
  specialize (Hx eq_refl). do 2 wp_step. rename w0 into w1. cbn in Hx0.
  pose proof (made_dirs_path id digest w w1 Hd Hx0) as Hp.
  assert (others_kept (path id digest) w w1) as Ho.
  { intros q _. destruct (Hx0 q) as [|(? & ? & _)]; [by left|by right]. }
  destruct x as [e'|]. { wp_step. split; [done|by left]. }
  do 2 wp_step. cbn in Hx1. wp_step. destruct x as [e'|]; cbn [saved].
  - destruct Hx1 as [->|(c & rest & Hc & ->)]; [by split; [|left]|]. split.
    + intros q Hq. rewrite lookup_insert_ne by done. by apply Ho.
    + right. split; [done|]. exists c, rest. by rewrite lookup_insert_eq.
  - subst. split; [|by right; rewrite lookup_insert_eq]. intros q Hq. rewrite lookup_insert_ne by done. by apply Ho.
Qed.
(** [DeleteAllExcept] removes the other files of the directory, and nothing else. *)
Definition pruned (d keep : string) (names : list string) (w w' : fs) : Prop :=
  forall q, w' !! q = w !! q \/
    exists name, name ∈ names /\ plain name /\ name <> keep /\ q = Join [d; name] /\ w' !! q = None.
Lemma delete_entries_fs d keep l w :
  Forall (fun e => plain e.1) l ->
  wp fs_step (foreach l (delete_entry d keep) tt) (fun w' r =>
    pruned d keep (l.*1) w w' /\ r <> inr None /\
    (r = inl tt -> forall name, (name, false) ∈ l -> name <> keep -> w' !! Join [d; name] = None)) w.
Proof.
  revert w. induction l as [|[name isDir] l IH]; intros w Hl; cbn [foreach].
  { wp_step. split; [by left|]. split; [done|]. intros _ name H. by apply elem_of_nil in H. }
  apply Forall_cons in Hl as [Hn Hl]. cbn [fst] in Hn. wp_step.
  assert (forall w1, pruned d keep [name] w w1 ->
    ((name, false) = (name, isDir) -> name <> keep -> w1 !! Join [d; name] = None) ->
    wp fs_step (foreach l (delete_entry d keep) tt) (fun w' r =>
      pruned d keep (((name, isDir) :: l).*1) w w' /\ r <> inr None /\
      (r = inl tt -> forall n, (n, false) ∈ (name, isDir) :: l -> n <> keep -> w' !! Join [d; n] = None)) w1) as Hnext.
  { intros w1 H1 Hg. eapply wp_mono; [|by apply IH]. intros w' r (Hp & Hn' & Hr). split; [|split; [exact Hn'|]].
    - intros q. destruct (Hp q) as [->|(n & Hin & H)]; [|right; exists n; split; [by right|done]].
      destruct (H1 q) as [|(n & ->%list_elem_of_singleton & H)]; [by left|].
      right. exists name. split; [by left|]. destruct H as (? & ? & -> & ?). split_and!; try done.
    - intros Hok n [Heq|Hin]%elem_of_cons Hne; [|by apply Hr]. injection Heq as -> <-. specialize (Hg eq_refl Hne).
      destruct (Hp (Join [d; name])) as [->|(m & _ & _ & _ & _ & Hm)]; done. }
  unfold delete_entry at 1. destruct (isDir || bool_decide (name = keep)) eqn:Hb.
  { wp_step. apply Hnext; [by left|]. intros [= <-] Hne. cbn in Hb. by apply bool_decide_eq_true in Hb. }
  apply orb_false_elim in Hb as [-> Hb%bool_decide_eq_false].
  do 2 wp_step. wp_step. destruct x as [e|].
  - destruct Hx as [-> Hx]. destruct (is_not_found (Some e)) eqn:Hnf.
    + apply Hnext; [by left|]. intros _ _. by apply Hx.
    + wp_step. split; [by left|done].
  - cbn in Hx. subst w0. apply Hnext; [|intros _ _; apply lookup_delete_eq]. intros q.
    destruct (decide (q = Join [d; name])) as [->|Hq]; [|left; by apply lookup_delete_ne].
    right. exists name. split; [by left|]. split_and!; try done. apply lookup_delete_eq.
Qed.
Lemma DeleteAllExcept_fs id keep w :
  wp fs_step (DeleteAllExcept storageBasePath id keep) (fun w' err =>
    (forall q, w' !! q = w !! q \/ exists name, plain name /\ name <> keep /\ q = path id name /\ w' !! q = None) /\
    (err = None -> forall name c, plain name -> name <> keep -> w' !! path id name <> Some (File c))) w.
Proof.
  unfold DeleteAllExcept, deleteAllExceptFromFileSystem. apply locked_fs. do 2 wp_step. destruct Hx as [-> Hx].
  destruct x as [l|e].
  - destruct Hx as (_ & Hpl & Hx). wp_step. eapply wp_mono; [|by apply delete_entries_fs]. intros w' r (Hp & Hnn & Hr). wp_step. split.
    + intros q. destruct (Hp q) as [|(n & _ & H & Hk & -> & Hg)]; [by left|]. right. exists n. by rewrite path_child.
    + intros Herr name c Hn Hne Hc. destruct r as [[]|err]; [|].
      2: { by subst err. }
      rewrite path_child in Hc by done. specialize (Hr eq_refl name).
      destruct (Hp (Join [dir id; name])) as [He|(m & _ & _ & _ & _ & Hg)]; [|congruence].
      rewrite He in Hc. rewrite Hr in He; [congruence| |done]. apply Hx; [done|]. by eexists.
  - assert (forall q, w !! q = w !! q \/ exists name, plain name /\ name <> keep /\ q = path id name /\ w !! q = None) as Hs by (by left).
    destruct (is_not_found (Some e)); wp_step; (split; [done|]); [|done]. intros _ name c Hn _.
    rewrite path_child, Hx by done. done.
Qed.

(** ** The cache over time

    Any operations on any artifacts; [DeleteAllExcept] keeps the file of an artifact and
    digest when it is called for that digest, or for another directory. *)
Inductive cache_op :=
| OpGet (id url digest : string)
| OpGetRaw (id url digest : string)
| OpSave (id digest content : string)
| OpDeleteAllExcept (id keep : string).
Definition cache_step (id0 digest0 : string) (w w' : fs) : Prop :=
  exists op, match op with
  | OpGet id url digest => exists r, exec fs_step (Get storageBasePath id url digest) w r w'
  | OpGetRaw id url digest => exists r, exec fs_step (GetRaw storageBasePath id url digest) w r w'
  | OpSave id digest content => plain digest /\ exists r, exec fs_step (Save storageBasePath id digest content) w r w'
  | OpDeleteAllExcept id keep =>
      (id = id0 /\ keep = digest0 \/ forall name, plain name -> path id name <> path id0 digest0) /\
      exists r, exec fs_step (DeleteAllExcept storageBasePath id keep) w r w'
  end.
Lemma other_name_path id keep n : plain keep -> plain n -> n <> keep -> path id keep <> path id n.
Proof.
  intros Hk Hn Hne Heq. apply Hne. rewrite !path_child in Heq by done. symmetry.
  eapply Join_child_inj; [|done..|exact Heq]. by apply Join_base.
Qed.
Lemma kept_by_pruning id keep w :
  plain keep ->
  wp fs_step (DeleteAllExcept storageBasePath id keep) (fun w' _ => w' !! path id keep = w !! path id keep) w.
Proof.
  intros Hk. eapply wp_mono; [|apply DeleteAllExcept_fs]. intros w' err [Hq _].
  destruct (Hq (path id keep)) as [|(n & Hn & Hne & Heq & _)]; [done|]. by destruct (other_name_path id keep n).
Qed.
Lemma GetRaw_fs id url digest w :
  wp fs_step (GetRaw storageBasePath id url digest) (fun w' r => w' = w /\
    forall c, w !! path id digest = Some (File c) -> r = Ok c \/ exists e, r = Err e) w.
Proof. apply locked_fs, cached_or_fs, download_fs. Qed.
(** A file that is there is never written again. *)
Lemma cache_step_keeps id digest c w w' :
  plain digest -> cache_step id digest w w' -> w !! path id digest = Some (File c) -> w' !! path id digest = Some (File c).
Proof.
  intros Hpl ([id' url d|id' url d|id' d content|id' keep] & H) Hp.
  - destruct H as (r & H). apply (wp_exec _ _ _ _ _ _ (Get_fs id' url d w)) in H as [-> _]. done.
  - destruct H as (r & H). apply (wp_exec _ _ _ _ _ _ (GetRaw_fs id' url d w)) in H as [-> _]. done.
  - destruct H as (Hd & r & H). apply (wp_exec _ _ _ _ _ _ (Save_fs id' d content w Hd)) in H as [Ho Hs].
    destruct (decide (path id digest = path id' d)) as [Heq|Hne].
    + rewrite Heq in Hp |- *. destruct r as [e|]; cbn in Hs.
      * destruct Hs as [->|[Hn _]]; [done|congruence].
      * destruct Hs as [[_ ->]|[Hn _]]; [done|congruence].
    + destruct (Ho _ Hne) as [->|[Hn _]]; [done|congruence].
  - destruct H as ([[-> ->]|Hother] & r & H).
    + apply (wp_exec _ _ _ _ _ _ (kept_by_pruning id digest w Hpl)) in H. by rewrite H.
    + apply (wp_exec _ _ _ _ _ _ (DeleteAllExcept_fs id' keep w)) in H as [Hq _].
      destruct (Hq (path id digest)) as [->|(n & Hn & _ & Heq & _)]; [done|]. by destruct (Hother n Hn).
Qed.
Lemma cache_steps_keep id digest c w w' :
  plain digest -> rtc (cache_step id digest) w w' ->
  w !! path id digest = Some (File c) -> w' !! path id digest = Some (File c).
Proof. intros Hd. induction 1; [done|]. intros H'. eauto using cache_step_keeps. Qed.

(** A file that is there is served without a request: what is answered otherwise is the
    failure of the read. *)
Definition no_request X (e : artifactE X) : Prop :=
  match e with ANewRequest _ | ADo _ => False | _ => True end.
Definition served (content : string) (w w' : fs) (r : result string) : Prop :=
  w' = w /\ (r = Ok content \/ exists e, is_not_found (Some e) = false /\
    r = Err (wrap_error "failed to fetch artifact from filesystem: " (wrap_error "failed to read artifact file: " e))).
Lemma cached_served id digest content fetch w :
  plain digest -> w !! path id digest = Some (File content) ->
  safe fs_step no_request (cached_or storageBasePath id digest fetch) w /\
  wp fs_step (cached_or storageBasePath id digest fetch) (served content w) w.
Proof.
  intros (_ & Hd & _) Hw. unfold cached_or. apply safe_wp_bind.
  { apply safe_all_calls. unfold fetchFromFileSystem. by calls_steps. }
  unfold fetchFromFileSystem. rewrite bool_decide_eq_false_2 by done. do 2 wp_step. destruct Hx as (-> & Hm & Hc).
  wp_step. destruct x as [c|e].
  - split; [done|]. wp_step. split; [done|]. left. specialize (Hc c eq_refl). congruence.
  - cbn in Hm. destruct (is_not_found (Some e)) eqn:Hnf; [specialize (Hm Hnf); congruence|].
    assert (is_not_found (Some (wrap_error "failed to read artifact file: " e)) = false) as -> by done. cbn [negb].
    split; [done|]. wp_step. split; [done|]. right. by exists e.
Qed.
Lemma locked_served content (p : prog artifactE (result string)) w :
  safe fs_step no_request p w /\ wp fs_step p (served content w) w ->
  safe fs_step no_request (locked p) w /\ wp fs_step (locked p) (served content w) w.
Proof.
  intros [Hs Hw]. unfold locked. apply safe_wp_bind; [by split|]. wp_step. cbn in Hx. subst.
  apply safe_wp_bind; [done|]. eapply wp_mono; [|exact Hw]. intros w1 r Hr.
  apply safe_wp_bind; [by split|]. wp_step. cbn in Hx. subst. split; [done|]. by wp_step.
Qed.
(** C28: what is cached is what was saved.  After a [Save] without error into an empty
    place, and whatever is then saved, fetched or pruned for any artifacts, with
    whichever calls failing, as long as pruning this artifact keeps its digest, [Get] and
    [GetRaw] send no request and write nothing: they answer with exactly that content,
    or with the error of the read of the file. *)
Theorem saved_is_served id digest content w w1 w2 url :
  plain digest -> w !! path id digest = None ->
  exec fs_step (Save storageBasePath id digest content) w None w1 ->
  rtc (cache_step id digest) w1 w2 ->
  (safe fs_step no_request (Get storageBasePath id url digest) w2 /\
   wp fs_step (Get storageBasePath id url digest) (served content w2) w2) /\
  (safe fs_step no_request (GetRaw storageBasePath id url digest) w2 /\
   wp fs_step (GetRaw storageBasePath id url digest) (served content w2) w2).
Proof.
  intros Hd Hw Hs Hops.
  apply (wp_exec _ _ _ _ _ _ (Save_fs id digest content w Hd)) in Hs as [_ Hs]. cbn in Hs.
  destruct Hs as [[Hsome _]|[_ H1]]; [rewrite Hw in Hsome; by destruct Hsome|].
  pose proof (cache_steps_keep _ _ _ _ _ Hd Hops H1) as H2.
  split; [|apply locked_served]; by apply cached_served.
Qed.
(** A failed save is served.  [os.WriteFile] may fail after it wrote a part of the
    content.  [Save] reports the error but leaves the file, and no digest is ever
    compared: from then on [Get] answers with the part and [Save] of the whole content
    reports success and writes nothing, whatever else is saved, fetched or pruned, until the
    file itself is pruned. *)
Theorem failed_save_served id digest part rest w :
  plain digest -> id <> "" -> part +:+ rest <> "" -> w !! path id digest = None ->
  exists e w1, exec fs_step (Save storageBasePath id digest (part +:+ rest)) w (Some e) w1 /\
  forall w2, rtc (cache_step id digest) w1 w2 ->
    (forall url, exec fs_step (Get storageBasePath id url digest) w2 (Ok part) w2) /\
    exec fs_step (Save storageBasePath id digest (part +:+ rest)) w2 None w2 /\
    forall w3, exec fs_step (Save storageBasePath id digest (part +:+ rest)) w2 None w3 -> w3 = w2.
Proof.
  intros Hd Hid Hc Hw. pose proof Hd as (_ & Hne & _).
  exists (wrap_error "failed to write artifact file: " (new_error "no space left on device")).
  exists (<[path id digest := File part]> w). split.
  - unfold Save, saveToFileSystem. rewrite !bool_decide_eq_false_2 by done.
    exists tt, w. split; [done|]. exists (Some (mk_error NotFound "")), w. split; [by split|].
    exists None, w. split; [intros q; by left|]. exists (Some (new_error "no space left on device")), (<[path id digest := File part]> w).
    split; [right; exists part, rest; by split|]. by exists tt, (<[path id digest := File part]> w).
  - intros w2 Hops. assert (w2 !! path id digest = Some (File part)) as H2.
    { eapply cache_steps_keep; [exact Hd|exact Hops|]. apply lookup_insert_eq. }
    split; [|split].
    + intros url. unfold Get, cached_or, fetchFromFileSystem. rewrite bool_decide_eq_false_2 by done.
      exists (Ok part), w2. split; [|done]. split; [done|]. split; [done|]. by intros c [= <-].
    + unfold Save, saveToFileSystem. rewrite !bool_decide_eq_false_2 by done.
      exists tt, w2. split; [done|]. exists None, w2. split; [by split|]. by exists tt, w2.
    + intros w3 H3. apply (wp_exec _ _ _ _ _ _ (Save_fs id digest _ w2 Hd)) in H3 as [_ H3]. cbn in H3.
      destruct H3 as [[_ ->]|[Hn _]]; [done|congruence].
Qed.
(** Pruning.  [DeleteAllExcept] removes nothing but files of the artifact's directory
    under another name, whatever fails; without an error no other file is left there.
    The file of the digest to keep and every other directory stay as they are. *)
Theorem pruned_to_digest id keep w :
  wp fs_step (DeleteAllExcept storageBasePath id keep) (fun w' err =>
    (plain keep -> w' !! path id keep = w !! path id keep) /\
    (forall q, (forall name, plain name -> q <> path id name) -> w' !! q = w !! q) /\
    (err = None -> forall name c, plain name -> name <> keep -> w' !! path id name <> Some (File c))) w.
Proof.
  eapply wp_mono; [|apply DeleteAllExcept_fs]. intros w' err [Hq He]. split; [|split; [|exact He]].
  - intros Hk. destruct (Hq (path id keep)) as [|(n & Hn & Hne & Heq & _)]; [done|]. by destruct (other_name_path id keep n).
  - intros q Hno. destruct (Hq q) as [|(n & Hn & _ & -> & _)]; [done|]. by destruct (Hno n).
Qed.
End cache.

(** ** Concrete runs *)
Module CacheRun.
#[local] Instance libs : ArtifactLibs := {|
  gzip_NewReader := Ok; tar_entries s := ([mk_entry "plugin.yaml" TypeReg (Ok s)], None);
  json_files m := Ok (match m !! "plugin.yaml" with Some s => s | None => "" end);
  purl_Parse s := Ok (mk_purl "" "" s); purl_String := pu_rest; artifact_domain := None |}.
Definition base : string := "/data".
Definition id : string := "acme/github-com-o-r-main-1".
Definition file : string := "/data/acme/github-com-o-r-main-1/d1".
Lemma d1_plain : plain "d1".
Proof. by vm_compute. Qed.
Lemma saved_once : exec fs_step (Save base id "d1" "whole") ∅ None {[file := File "whole"]}.
Proof.
  exists tt, ∅. split; [done|]. exists (Some (mk_error NotFound "")), ∅. split; [by split|].
  exists None, ∅. split; [intros q; by left|]. exists None, {[file := File "whole"]}. split; [done|].
  by exists tt, {[file := File "whole"]}.
Qed.
(** The artifact is pruned to its digest, and then read. *)
Lemma pruned_step : cache_step base id "d1" {[file := File "whole"]} {[file := File "whole"]}.
Proof.
  exists (OpDeleteAllExcept id "d1"). split; [by left|].
  exists (Some (wrap_error "failed to read artifact directory: " (mk_error OtherReason "denied"))).
  exists tt, {[file := File "whole"]}. split; [done|].
  exists (Err (mk_error OtherReason "denied")), {[file := File "whole"]}. split; [by split|].
  by exists tt, {[file := File "whole"]}.
Qed.
Lemma saved_is_served_witness :
  wp fs_step (Get base id "https://flux/a.tar.gz" "d1") (fun w r =>
    w = {[file := File "whole"]} /\ (r = Ok "whole" \/ exists e, r = Err e)) {[file := File "whole"]} /\
  safe fs_step no_request (GetRaw base id "https://flux/a.tar.gz" "d1") {[file := File "whole"]}.
Proof.
  destruct (saved_is_served base ltac:(done)
    id "d1" "whole" ∅ {[file := File "whole"]} {[file := File "whole"]} "https://flux/a.tar.gz"
    d1_plain (lookup_empty _) saved_once (rtc_once _ _ pruned_step)) as [[_ Hg] [Hr _]].
  split; [|exact Hr]. eapply wp_mono; [|exact Hg]. intros w r [-> [->|(e & _ & ->)]]; (split; [reflexivity|]); eauto.
Defined.
Lemma failed_save_served_witness : exists e w1,
  exec fs_step (Save base id "d1" "whole") ∅ (Some e) w1 /\ exec fs_step (Get base id "https://flux/a.tar.gz" "d1") w1 (Ok "wh") w1.
Proof.
  destruct (failed_save_served base ltac:(done) id "d1" "wh" "ole" ∅ d1_plain ltac:(done) ltac:(done) (lookup_empty _)) as (e & w1 & H1 & H2).
  exists e, w1. split; [exact H1|]. by apply H2.
Defined.
Lemma pruned_to_digest_witness :
  wp fs_step (DeleteAllExcept base id "d1") (fun w' _ => w' !! file = Some (File "whole")) {[file := File "whole"]}.
Proof.
  eapply wp_mono; [|apply (pruned_to_digest base ltac:(done) id "d1" {[file := File "whole"]})].
  intros w' err (H & _ & _). exact (H d1_plain).
Defined.
End CacheRun.
