(* ===== verification/OrgAccess.v ===== *)
(** * OrgAccess: who may do what in an Organization ([internal/rbac])

    The names of the roles of an Organization, the rules granted to administrators,
    cluster and plugin administrators, members and the ServiceAccount of its catalogs.
    [grants] is the meaning Kubernetes documents for a rule; it is a specification, no
    code of the repository evaluates rules.  The theorems compare what the roles grant. *)
From S2P Require Import Prelude CoreTypes AccessWebhook.

(** ** Names *)
Definition OrganizationAdminRoleName (orgName : string) : string := "role:" +:+ orgName +:+ ":admin".
Definition OrganizationClusterAdminRoleName (orgName : string) : string :=
  "role:" +:+ orgName +:+ ":cluster-admin".
Definition OrganizationPluginAdminRoleName (orgName : string) : string :=
  "role:" +:+ orgName +:+ ":plugin-admin".
Definition OrganizationRoleName (orgName : string) : string := "organization:" +:+ orgName.
Definition OrgCatalogServiceAccountName (orgName : string) : string := orgName +:+ "-catalog-sa".
Definition OrgCatalogRoleName (orgName : string) : string := orgName +:+ "-catalog-role".
Definition GetTeamRoleName (teamName : string) : string := "team:" +:+ teamName.

(** ** Rules *)
Definition read_verbs : list string := ["get"; "list"; "watch"].
Definition crud_verbs : list string := ["get"; "list"; "watch"; "update"; "patch"; "delete"; "create"].
(** [corev1.GroupName] *)
Definition corev1_GroupName : string := "".
(** The groups of [v1alpha1] and of [v1alpha2]. *)
Definition v1alpha1_Group : string := GroupName.
Definition v1alpha2_Group : string := GroupName.

Definition OrganizationMemberPolicyRules : list PolicyRule :=
  [mk_rule [v1alpha1_Group; v1alpha2_Group]
     ["clusters"; "clusterkubeconfigs"; "plugins"; "pluginpresets"; "catalogs"; "plugindefinitions";
      "teams"; "teamroles"; "teamrolebindings"] read_verbs []].
Definition OrganizationPluginAdminPolicyRules : list PolicyRule :=
  OrganizationMemberPolicyRules ++
  [mk_rule [v1alpha1_Group] ["plugins"; "pluginpresets"; "catalogs"; "plugindefinitions"] crud_verbs [];
   mk_rule [corev1_GroupName] ["secrets"] ["create"; "update"; "patch"] []].
Definition OrganizationClusterAdminPolicyRules : list PolicyRule :=
  OrganizationMemberPolicyRules ++
  [mk_rule [v1alpha1_Group; v1alpha2_Group] ["clusters"; "teamroles"; "teamrolebindings"] crud_verbs [];
   mk_rule [corev1_GroupName] ["secrets"] ["create"; "update"; "patch"] []].
Definition OrganizationAdminPolicyRules : list PolicyRule :=
  [mk_rule [v1alpha1_Group] ["teams"] crud_verbs [];
   mk_rule [corev1_GroupName] ["secrets"]
     ["get"; "list"; "watch"; "create"; "update"; "patch"; "delete"] [];
   mk_rule ["rbac.authorization.k8s.io"] ["rolebindings"] ["create"] [];
   mk_rule ["monitoring.coreos.com"] ["alertmanagers"; "alertmanagerconfigs"] read_verbs [];
   mk_rule [""] ["pods"; "pods/log"; "replicasets"; "deployments"; "statefulsets"; "daemonsets";
                 "cronjobs"; "jobs"; "configmaps"] read_verbs []] ++
  OrganizationClusterAdminPolicyRules ++ OrganizationPluginAdminPolicyRules.
Definition OrganizationMemberClusterRolePolicyRules (organizationName : string) : list PolicyRule :=
  [mk_rule [v1alpha1_Group] ["organizations"] read_verbs [organizationName];
   mk_rule [v1alpha1_Group] ["clusterplugindefinitions"] read_verbs []].
Definition OrganizationAdminClusterRolePolicyRules (organizationName : string) : list PolicyRule :=
  OrganizationMemberClusterRolePolicyRules organizationName ++
  [mk_rule [v1alpha1_Group] ["organizations"] ["get"; "list"; "watch"; "update"; "patch"] [organizationName]].
Definition OrgCatalogPolicyRules (resources : list string) : list PolicyRule :=
  [mk_rule [v1alpha1_Group] resources ["*"] []].

(** ** What a rule grants *)
Record request := mk_request { rq_Verb : string; rq_APIGroup : string; rq_Resource : string; rq_Name : string }.
Definition matches (l : list string) (x : string) : bool := bool_decide ("*" ∈ l) || bool_decide (x ∈ l).
Definition names_match (l : list string) (x : string) : bool := bool_decide (l = []) || bool_decide (x ∈ l).
Definition rule_grants (q : request) (r : PolicyRule) : bool :=
  matches (pr_Verbs r) (rq_Verb q) && matches (pr_APIGroups r) (rq_APIGroup q) &&
  matches (pr_Resources r) (rq_Resource q) && names_match (pr_ResourceNames r) (rq_Name q).
Definition grants (rules : list PolicyRule) (q : request) : bool := existsb (rule_grants q) rules.

Lemma grants_app rules rules' q : grants (rules ++ rules') q = grants rules q || grants rules' q.
Proof. apply existsb_app. Qed.
Lemma grants_cons r rules q : grants (r :: rules) q = rule_grants q r || grants rules q.
Proof. done. Qed.
Lemma matches_true l x : matches l x = true <-> "*" ∈ l \/ x ∈ l.
Proof. unfold matches. rewrite orb_true_iff, !bool_decide_eq_true. done. Qed.
Lemma names_match_true l x : names_match l x = true <-> l = [] \/ x ∈ l.
Proof. unfold names_match. rewrite orb_true_iff, !bool_decide_eq_true. done. Qed.
Lemma rule_grants_true q r : rule_grants q r = true <->
  ("*" ∈ pr_Verbs r \/ rq_Verb q ∈ pr_Verbs r) /\
  ("*" ∈ pr_APIGroups r \/ rq_APIGroup q ∈ pr_APIGroups r) /\
  ("*" ∈ pr_Resources r \/ rq_Resource q ∈ pr_Resources r) /\
  (pr_ResourceNames r = [] \/ rq_Name q ∈ pr_ResourceNames r).
Proof.
  unfold rule_grants. rewrite !andb_true_iff, !matches_true, names_match_true. tauto.
Qed.

Lemma grants_true rules q : grants rules q = true <-> exists r, r ∈ rules /\ rule_grants q r = true.
Proof.
  unfold grants. rewrite existsb_exists. split; intros (r & Hr & H); exists r; split; try done;
    by apply list_elem_of_In.
Qed.
Lemma grants_Forall (P : PolicyRule -> Prop) rules q :
  Forall P rules -> grants rules q = true -> exists r, P r /\ rule_grants q r = true.
Proof. intros Hall (r & Hr & Hg)%grants_true. rewrite Forall_forall in Hall. eauto. Qed.

(** A rule without wildcards grants nothing outside its lists. *)
Definition no_wildcard (r : PolicyRule) : Prop :=
  "*" ∉ pr_Verbs r /\ "*" ∉ pr_APIGroups r /\ "*" ∉ pr_Resources r.
#[export] Instance no_wildcard_dec r : Decision (no_wildcard r).
Proof. unfold no_wildcard. apply _. Defined.
Lemma rule_grants_listed q r : no_wildcard r -> rule_grants q r = true ->
  rq_Verb q ∈ pr_Verbs r /\ rq_APIGroup q ∈ pr_APIGroups r /\ rq_Resource q ∈ pr_Resources r /\
  (pr_ResourceNames r = [] \/ rq_Name q ∈ pr_ResourceNames r).
Proof. intros (Hv & Hg & Hr) (H1 & H2 & H3 & H4)%rule_grants_true. naive_solver. Qed.

(** Whatever a list of rules without wildcards grants satisfies [P], when each rule's
    combinations do. *)
Definition rule_within (P : string -> string -> string -> bool) (r : PolicyRule) : bool :=
  bool_decide (no_wildcard r) &&
  forallb (fun v => forallb (fun g => forallb (P v g) (pr_Resources r)) (pr_APIGroups r)) (pr_Verbs r).
Lemma grants_within P rules q :
  forallb (rule_within P) rules = true -> grants rules q = true ->
  P (rq_Verb q) (rq_APIGroup q) (rq_Resource q) = true.
Proof.
  intros Hall (r & Hr & Hg)%grants_true. rewrite forallb_forall in Hall.
  apply list_elem_of_In, Hall in Hr. apply andb_true_iff in Hr as [Hw Hr].
  apply bool_decide_eq_true in Hw. apply (rule_grants_listed _ _ Hw) in Hg as (Hv & Hgr & Hres & _).
  rewrite forallb_forall in Hr. apply list_elem_of_In, Hr in Hv.
  rewrite forallb_forall in Hv. apply list_elem_of_In, Hv in Hgr.
  rewrite forallb_forall in Hgr. by apply Hgr, list_elem_of_In.
Qed.

Definition is_read (verb : string) : bool := bool_decide (verb ∈ read_verbs).
Definition is_secret (group resource : string) : bool :=
  bool_decide (group = corev1_GroupName) && bool_decide (resource = "secrets").
Definition writes_secret (verb : string) : bool := bool_decide (verb ∈ ["create"; "update"; "patch"]).
(** The rules for the namespace of an Organization, from most to least access. *)
Definition namespace_roles : list (list PolicyRule) :=
  [OrganizationAdminPolicyRules; OrganizationClusterAdminPolicyRules;
   OrganizationPluginAdminPolicyRules; OrganizationMemberPolicyRules].

(** C24: separation of access.  In its namespace a member of an Organization only reads,
    and only resources of Greenhouse; cluster and plugin administrators may besides
    create and change Secrets but read or delete none, and change no Team; nobody but an
    administrator does.  What a member may do the two kinds of administrators may do, and
    what they may do an administrator may do.  No role changes an Organization in the
    namespace rules; cluster-wide, a member reads only the Organization of that name and
    the shared definitions, and an administrator may change that Organization but not
    create or delete it. *)
Theorem access_separation orgName q :
  let may rules := grants rules q in
  let v := rq_Verb q in let g := rq_APIGroup q in let r := rq_Resource q in
  (may OrganizationMemberPolicyRules = true -> is_read v = true /\ g = GroupName) /\
  (may OrganizationClusterAdminPolicyRules || may OrganizationPluginAdminPolicyRules = true ->
     (is_secret g r = true /\ writes_secret v = true) \/
     (g = GroupName /\ (r = "teams" -> is_read v = true))) /\
  (may OrganizationMemberPolicyRules = true ->
     may OrganizationClusterAdminPolicyRules = true /\ may OrganizationPluginAdminPolicyRules = true) /\
  (may OrganizationClusterAdminPolicyRules || may OrganizationPluginAdminPolicyRules = true ->
     may OrganizationAdminPolicyRules = true) /\
  (forall rules, rules ∈ namespace_roles -> r = "organizations" -> may rules = false) /\
  (may (OrganizationMemberClusterRolePolicyRules orgName) = true ->
     may (OrganizationAdminClusterRolePolicyRules orgName) = true /\ is_read v = true /\
     (r = "clusterplugindefinitions" \/ r = "organizations" /\ rq_Name q = orgName)) /\
  (may (OrganizationAdminClusterRolePolicyRules orgName) = true -> is_read v = false ->
     r = "organizations" /\ rq_Name q = orgName /\ (v = "update" \/ v = "patch")).
Proof.
  cbv zeta. split_and!.
  - intros H. apply (grants_within (fun v g _ => is_read v && bool_decide (g = GroupName))) in H; [|done].
    apply andb_true_iff in H as [? ?%bool_decide_eq_true]. done.
  - intros H. rewrite <-grants_app in H.
    apply (grants_within (fun v g r => (is_secret g r && writes_secret v) ||
      (bool_decide (g = GroupName) && (negb (bool_decide (r = "teams")) || is_read v)))) in H; [|done].
    apply orb_true_iff in H as [[? ?]%andb_true_iff|[?%bool_decide_eq_true H]%andb_true_iff]; [by left|].
    right. split; [done|]. intros Hr. by rewrite (bool_decide_eq_true_2 _ Hr) in H.
  - intros H. unfold OrganizationClusterAdminPolicyRules, OrganizationPluginAdminPolicyRules.
    by rewrite !grants_app, H.
  - intros H. unfold OrganizationAdminPolicyRules. by rewrite !grants_app, H, orb_true_r.
  - intros rules Hin Hr. apply not_true_is_false. intros H.
    apply (grants_within (fun _ _ r => negb (bool_decide (r = "organizations")))) in H;
      [by rewrite (bool_decide_eq_true_2 _ Hr) in H|].
    clear -Hin. unfold namespace_roles in Hin. rewrite !elem_of_cons, elem_of_nil in Hin.
    by destruct Hin as [->|[->|[->|[->|[]]]]].
  - intros H. split; [unfold OrganizationAdminClusterRolePolicyRules; by rewrite grants_app, H|].
    unfold OrganizationMemberClusterRolePolicyRules, grants in H. cbn [existsb] in H.
    rewrite orb_false_r in H. unfold is_read. rewrite bool_decide_eq_true.
    apply orb_true_iff in H as [H|H]; (apply rule_grants_listed in H as (? & _ & Hr & Hn);
      [|by apply (bool_decide_unpack _)]); cbn in *; set_solver.
  - intros H Hv. unfold OrganizationAdminClusterRolePolicyRules, OrganizationMemberClusterRolePolicyRules, grants in H.
    cbn [existsb app] in H. rewrite orb_false_r in H. unfold is_read in Hv. apply bool_decide_eq_false in Hv.
    rewrite !orb_true_iff in H. destruct H as [H|[H|H]]; (apply rule_grants_listed in H as (Hw & _ & Hr & Hn);
      [|by apply (bool_decide_unpack _)]); cbn in *; set_solver.
Qed.

(** The comments say administrators may view Deployments and Jobs, and that Secrets may
    not be retrieved: the rule names the core group, where there are none of the former,
    and lists the verbs that retrieve the latter. *)
Lemma administrators_view verb name :
  grants OrganizationAdminPolicyRules (mk_request verb "apps" "deployments" name) = false /\
  grants OrganizationAdminPolicyRules (mk_request verb "batch" "jobs" name) = false /\
  grants OrganizationAdminPolicyRules (mk_request "get" "" "secrets" name) = true.
Proof.
  split_and!; [| |done]; apply not_true_is_false; intros H;
    (by apply (grants_within (fun _ g _ => negb (bool_decide (g = "apps") || bool_decide (g = "batch")))) in H).
Qed.
