(* ===== verification/ClusterController.v ===== *)
(** * ClusterController: remote clusters
      ([internal/controller/cluster/cluster_controller.go], [cluster_status.go],
      [internal/controller/cluster/utils], [internal/common/permissions.go])

    The controller of a Cluster keeps what Greenhouse needs on the remote cluster - a
    ClusterRoleBinding, a namespace, a ServiceAccount - and a fresh token in the Secret of
    the Cluster; its conditioner reports what it finds there.  Calls that begin with [R]
    go to the remote cluster, [CConnect] builds the client for it, [CPanic] is a write to
    a nil map.  An object read from the API server has a nil map exactly where the map is
    empty.

    Times are nanoseconds since the epoch, a [time.Duration] is a 64-bit count of
    nanoseconds.  clientcmd, go-jose and the decoding of claims are parameters, as is
    [controllerutil.SetOwnerReference]; metrics, events and logs have no model. *)
From S2P Require Import Prelude Effects Conditions Meta CoreTypes ApiTypes Lifecycle ClientUtil PluginTypes KubeConfig.
From Stdlib Require Import ZArith.

Definition SecretOIDCConfigGeneratedOnAnnotation : string := "oidc.greenhouse.sap/oidc-token-last-updated".
Definition OIDCAudience : string := "greenhouse".
Definition ClusterAccessModeDirect : string := "direct".
Definition AllNodesReady : string := "AllNodesReady".
Definition PayloadSchedulable : string := "PayloadSchedulable".
Definition KubeConfigValid : string := "KubeConfigValid".
Definition PermissionsVerified : string := "PermissionsVerified".
Definition ManagedResourcesDeployed : string := "ManagedResourcesDeployed".
Definition clusterK8sVersionUnknown : string := "unknown".
Definition controlPlaneNodeLabel : string := "node-role.kubernetes.io/control-plane".
Definition CRoleKind : string := "ClusterRole".
Definition CRoleRef : string := "cluster-admin".
Definition ServiceAccountName : string := "greenhouse".

(** ** Machine integers and durations *)
Definition int64 (z : Z) : Z := ((z + 2 ^ 63) mod 2 ^ 64 - 2 ^ 63)%Z.
Definition Second : Z := 1000000000.
Definition Hour : Z := (3600 * Second)%Z.
Definition DefaultRequeueInterval : Z := (600 * Second)%Z.
(** [time.Duration(hours) * time.Hour] *)
Definition hours (h : Z) : Z := int64 (h * Hour)%Z.
(** [int64(d / time.Second)] *)
Definition seconds_of (d : Z) : Z := Z.quot d Second.

(** ** Kubeconfigs ([clientcmdapi.Config], [rest.Config]) *)
Record RestConfig := mk_rest { rest_Host : string; rest_CAData : string; rest_BearerToken : string }.
Record ApiCluster := mk_api_cluster {
  ac_Server : string; ac_CertificateAuthorityData : string; ac_TLSServerName : string; ac_ProxyURL : string }.
Record ApiContext := mk_api_context { ax_Cluster : string; ax_AuthInfo : string; ax_Namespace : string }.
Record ApiAuthInfo := mk_api_auth {
  aa_Token : string; aa_ClientCertificateData : option string; aa_ClientKeyData : option string }.
Record ApiConfig := mk_api_config {
  api_Clusters : gmap string ApiCluster; api_Contexts : gmap string ApiContext;
  api_AuthInfos : gmap string ApiAuthInfo; api_CurrentContext : string }.

Record KubeConfigHelper := mk_helper {
  h_Host : string; h_CAData : string; h_BearerToken : string; h_Username : string;
  h_Namespace : string; h_TLSServerName : string; h_ProxyURL : string;
  h_ClientCertData : option string; h_ClientKeyData : option string }.
Definition RestConfigToAPIConfig (kubeconfig : KubeConfigHelper) (clusterName : string) : ApiConfig :=
  let auth := if negb (bool_decide (h_BearerToken kubeconfig = ""))
              then {[h_Username kubeconfig := mk_api_auth (h_BearerToken kubeconfig) None None]} else ∅ in
  mk_api_config
    {[clusterName := mk_api_cluster (h_Host kubeconfig) (h_CAData kubeconfig)
                       (h_TLSServerName kubeconfig) (h_ProxyURL kubeconfig)]}
    {[clusterName := mk_api_context clusterName (h_Username kubeconfig) (h_Namespace kubeconfig)]}
    (match h_ClientCertData kubeconfig, h_ClientKeyData kubeconfig with
     | Some cert, Some key => <[h_Username kubeconfig := mk_api_auth "" (Some cert) (Some key)]> auth
     | _, _ => auth
     end)
    clusterName.

Class ClusterLibs := {
  (** the REST config [clientcmd] makes of a kubeconfig, for the namespace of the getter *)
  clientcmd_ClientConfig : string -> string -> result RestConfig;
  clientcmd_Write : ApiConfig -> result string;
  (** [jose.ParseSigned]: the payload *)
  jose_ParseSigned : string -> option string;
  (** [json.Unmarshal] into the claims: the expiry *)
  Unmarshal_claims : string -> option Z;
  (** [metav1.Now().Format(time.DateTime)] *)
  format_now : Z -> string;
  (** [controllerutil.SetOwnerReference] with an owner of the kind *)
  SetOwnerReference : string -> ObjectMeta -> ObjectMeta -> result (list OwnerReference)
}.

(** ** Nodes *)
Record NodeCondition := mk_node_condition {
  nc_Type : string; nc_Status : string; nc_Message : string; nc_LastTransitionTime : time }.
Record Node := mk_node { node_meta : ObjectMeta; Unschedulable : bool; node_conditions : list NodeCondition }.
#[export] Instance Node_object : Object Node := {|
  get_meta := node_meta; set_meta m o := mk_node m (Unschedulable o) (node_conditions o) |}.
Definition NodeReady : string := "Ready".

(** ** Permissions ([internal/common/permissions.go]) *)
Record Permission := mk_permission {
  perm_Name : string; perm_Verb : string; perm_APIGroup : string; perm_Resource : string }.
Definition greenhousePermissions : list Permission :=
  [mk_permission "createCluster" "create" "greenhouse.sap" "clusters";
   mk_permission "deleteCluster" "delete" "greenhouse.sap" "clusters";
   mk_permission "updateCluster" "update" "greenhouse.sap" "clusters";
   mk_permission "patchCluster" "patch" "greenhouse.sap" "clusters";
   mk_permission "createSecret" "create" "" "secrets";
   mk_permission "updateSecret" "update" "" "secrets";
   mk_permission "patchSecret" "patch" "" "secrets"].
Definition clientClusterPermissions : list Permission := [mk_permission "clusterAdmin" "*" "*" "*"].
(** An access review, of the caller itself when the user is empty. *)
Inductive reviewE : Type -> Type :=
| CreateAccessReview (user namespace : string) (p : Permission) : reviewE (result bool).
Definition canI (user namespace : string) (permission : Permission) : prog reviewE bool :=
  r ← trigger (CreateAccessReview user namespace permission);
  mret (match r with Err _ => false | Ok allowed => allowed end).
Fixpoint checkPermissionMap (permissionMap : list Permission) (user namespace : string) :
    prog reviewE (list Permission) :=
  match permissionMap with
  | [] => mret []
  | permission :: rest =>
      ok ← canI user namespace permission;
      missing ← checkPermissionMap rest user namespace;
      mret (if negb ok then permission :: missing else missing)
  end.
Definition CheckGreenhousePermission := checkPermissionMap greenhousePermissions.
Definition CheckClientClusterPermission := checkPermissionMap clientClusterPermissions.

(** ** Calls *)
Inductive clusterE : Type -> Type :=
| CSecret {X} (e : kubeE Secret X) : clusterE X
| CTeam {X} (e : kubeE Team X) : clusterE X
| CListPlugins (namespace cluster : string) : clusterE (result (list Plugin))
| CDeletePlugin (p : Plugin) : clusterE (option error)
| CCreateToken (serviceAccount : objkey) (audiences : list string) (seconds : Z) :
    clusterE (result (string * time))
| CConnect (cfg : RestConfig) : clusterE (option error)
| RClusterRoleBinding {X} (e : kubeE ClusterRoleBinding X) : clusterE X
| RNamespace {X} (e : kubeE Namespace X) : clusterE X
| RServiceAccount {X} (e : kubeE ServiceAccount X) : clusterE X
| RCreateToken (serviceAccount : objkey) (audiences : list string) (seconds : Z) :
    clusterE (result (string * time))
| RReview {X} (e : reviewE X) : clusterE X
| RListNodes : clusterE (result (list Node))
| RServerVersion : clusterE (result string)
| CPanic : clusterE Empty_set.

Section cluster.
Context {Libs : ClusterLibs}.
Variable now : Z.
(** [RenewRemoteClusterBearerTokenAfter] of the reconciler *)
Variable renewAfter : Z.
Local Abbreviation P := (prog clusterE).
Definition cluster_panic {A} : P A := PVis CPanic (fun e : Empty_set => match e with end).

(** ** Access to the remote cluster ([clientutil.RestClientGetter])

    The getter reads the kubeconfig from the Secret object it was made from. *)
Record getter := mk_getter { g_Secret : Secret; g_Namespace : string }.
Definition NewRestClientGetterFromSecret (secret : Secret) (namespace : string) : result getter :=
  match ValidateSecretForKubeConfig secret with
  | Some e => Err e
  | None => Ok (mk_getter secret (if bool_decide (namespace = "") then "default" else namespace))
  end.
(** [ToRawKubeConfigLoader().ClientConfig()] *)
Definition ClientConfig (g : getter) : result RestConfig :=
  match kubeConfigGetterFromSecret (g_Secret g) with
  | Err e => Err e
  | Ok kubeconfig => clientcmd_ClientConfig kubeconfig (g_Namespace g)
  end.
Definition getter_ToRESTConfig (g : getter) : result RestConfig :=
  match ClientConfig g with
  | Err e => Err (wrap_error "RestClientGetter has no valid KubeConfig: " e)
  | Ok cfg => Ok cfg
  end.
Definition NewK8sClientFromRestClientGetter (g : getter) : P (option error) :=
  match getter_ToRESTConfig g with
  | Err e => mret (Some e)
  | Ok cfg => trigger (CConnect cfg)
  end.

(** ** Tokens ([utils/token.go]) *)
Record TokenRequest := mk_token { tr_Token : string; tr_ExpirationTimestamp : time }.

Definition shouldSkipTokenRenewal (g : getter) (cluster : Cluster) : bool :=
  let fallback :=
    match BearerTokenExpirationTimestamp (cluster_Status cluster) with
    | None => false
    | Some t => bool_decide (now + renewAfter < t)%Z
    end in
  match getter_ToRESTConfig g with
  | Err _ => false
  | Ok remoteRestConfig =>
      match jose_ParseSigned (rest_BearerToken remoteRestConfig) with
      | None => fallback
      | Some jwtPayload =>
          match Unmarshal_claims jwtPayload with
          | None => fallback
          | Some expiry => bool_decide (now + renewAfter < expiry * Second)%Z
          end
      end
  end.
Definition as_token (r : result (string * time)) : result TokenRequest :=
  match r with Err e => Err e | Ok (token, expiration) => Ok (mk_token token expiration) end.
(** [createTokenRequest]: a Secret of another type leaves the status of the request empty. *)
Definition createTokenRequest (validity : Z) (secretType : string) (cluster : Cluster) : P (result TokenRequest) :=
  let seconds := seconds_of validity in
  if bool_decide (secretType = SecretTypeKubeConfig) then
    r ← trigger (RCreateToken (mk_key (GetNamespace cluster) ServiceAccountName) [] seconds);
    mret (as_token r)
  else if bool_decide (secretType = SecretTypeOIDCConfig) then
    r ← trigger (CCreateToken (mk_key (GetNamespace cluster) (GetName cluster)) [OIDCAudience] seconds);
    mret (as_token r)
  else mret (Ok (mk_token "" None)).
(** [None]: the token is still valid. *)
Definition GenerateTokenRequest (validity : Z) (g : getter) (cluster : Cluster) (secret : Secret) :
    P (result (option TokenRequest)) :=
  if negb (IsSecretContainsKey secret GreenHouseKubeConfigKey) then
    r ← createTokenRequest validity (secret_Type secret) cluster;
    mret (match r with Err e => Err e | Ok t => Ok (Some t) end)
  else if shouldSkipTokenRenewal g cluster then mret (Ok None)
  else
    r ← createTokenRequest validity (secret_Type secret) cluster;
    mret (match r with Err e => Err e | Ok t => Ok (Some t) end).
Definition GenerateNewClientKubeConfig (g : getter) (bearerToken : string) (cluster : Cluster) : result string :=
  match ClientConfig g with
  | Err e => Err (wrap_error ("failed to load kube clientConfig for cluster " +:+ GetName cluster +:+ ": ") e)
  | Ok restConfig =>
      match clientcmd_Write (RestConfigToAPIConfig
              (mk_helper (rest_Host restConfig) (rest_CAData restConfig) bearerToken ServiceAccountName
                 (GetNamespace cluster) "" "" None None) (GetName cluster)) with
      | Err e => Err (wrap_error ("failed to generate kubeconfig for cluster " +:+ GetName cluster +:+ ": ") e)
      | Ok kubeconfig => Ok kubeconfig
      end
  end.

(** ** What Greenhouse keeps on the remote cluster *)
Definition wanted_crb (cluster : Cluster) : ClusterRoleBinding :=
  mk_crb (named ServiceAccountName "")
    [mk_rbac_subject "" rbacv1_ServiceAccountKind ServiceAccountName (GetNamespace cluster)]
    (rbacv1_GroupName, CRoleKind, CRoleRef).
Definition reconcileClusterRoleBindingInRemoteCluster (cluster : Cluster) : P (result ClusterRoleBinding) :=
  '(crb, (_, err)) ← translate (fun _ => RClusterRoleBinding)
     (CreateOrPatch (fun crb => (crb, None)) (wanted_crb cluster));
  mret (match err with Some e => Err e | None => Ok crb end).
Definition reconcileNamespaceInRemoteCluster (cluster : Cluster) : P (option error) :=
  '(_, (_, err)) ← translate (fun _ => RNamespace)
     (CreateOrPatch (fun ns => (ns, None)) (mk_namespace (named (GetNamespace cluster) "")));
  mret err.
Definition mutate_remote_sa (crb : ClusterRoleBinding) (sa : ServiceAccount) : ServiceAccount * option error :=
  match SetOwnerReference "ClusterRoleBinding" (get_meta crb) (get_meta sa) with
  | Err e => (sa, Some e)
  | Ok owners => (mk_sa (with_owners owners (sa_meta sa)), None)
  end.
Definition reconcileServiceAccountInRemoteCluster (crb : ClusterRoleBinding) (cluster : Cluster) : P (option error) :=
  '(_, (_, err)) ← translate (fun _ => RServiceAccount)
     (CreateOrPatch (mutate_remote_sa crb) (mk_sa (named ServiceAccountName (GetNamespace cluster))));
  mret err.

(** The Secret gets the new kubeconfig; its maps are written in place. *)
Definition write_kubeconfig (secretType kubeconfig : string) (secret : Secret) : outcome (Secret * option error) :=
  if bool_decide (secretType = SecretTypeOIDCConfig) && bool_decide (GetAnnotations secret = ∅) then Panics
  else if bool_decide (secret_Data secret = ∅) then Panics
  else
    let secret := if bool_decide (secretType = SecretTypeOIDCConfig)
                  then SetAnnotations (<[SecretOIDCConfigGeneratedOnAnnotation := format_now now]> (GetAnnotations secret)) secret
                  else secret in
    Returns (mk_secret (secret_meta secret) (secret_Type secret)
               (<[GreenHouseKubeConfigKey := Some kubeconfig]> (secret_Data secret)), None).
Definition set_expiration (t : time) (cluster : Cluster) : Cluster :=
  let s := cluster_Status cluster in
  mk_cluster (cluster_meta cluster) (cluster_Spec cluster)
    (mk_cluster_status (KubernetesVersion s) t (cluster_conditions s) (cluster_Nodes s)).
Definition token_validity (cluster : Cluster) : Z := hours (MaxTokenValidity (cluster_Spec cluster)).
Definition reconcileServiceAccountToken (g : getter) (cluster : Cluster) (clusterSecret : Secret) :
    P (Cluster * option error) :=
  let cluster := SetDefaultTokenValidityIfNeeded cluster in
  r ← GenerateTokenRequest (token_validity cluster) g cluster clusterSecret;
  match r with
  | Err e => mret (cluster, Some e)
  | Ok None => mret (cluster, None)
  | Ok (Some tokenRequest) =>
      if negb (bool_decide (AccessMode (cluster_Spec cluster) = ClusterAccessModeDirect)) then
        mret (cluster, Some (new_error ("unknown access mode " +:+ AccessMode (cluster_Spec cluster))))
      else
        match GenerateNewClientKubeConfig g (tr_Token tokenRequest) cluster with
        | Err e => mret (cluster, Some e)
        | Ok generatedKubeConfig =>
            r ← trigger (CSecret (KubeGet (key_of cluster)));
            match r with
            | Err e => mret (cluster, Some e)
            | Ok kubeConfigSecret =>
                '(_, (_, err)) ← CreateOrPatch_may_panic (fun _ => CSecret) (fun _ => cluster_panic)
                   (write_kubeconfig (secret_Type clusterSecret) generatedKubeConfig) kubeConfigSecret;
                match err with
                | Some e => mret (cluster, Some e)
                | None => mret (set_expiration (tr_ExpirationTimestamp tokenRequest) cluster, None)
                end
            end
        end
  end.

(** ** The callbacks *)
Definition is_oidc (secret : Secret) : bool := bool_decide (secret_Type secret = SecretTypeOIDCConfig).
(** From the ClusterRoleBinding to the final token of [EnsureCreated]. *)
Definition bootstrap_remote (g : getter) (cluster : Cluster) (clusterSecret : Secret) : P (Cluster * cb_result) :=
  crb ← (if negb (is_oidc clusterSecret)
         then r ← reconcileClusterRoleBindingInRemoteCluster cluster;
              mret (match r with Err e => Err e | Ok crb => Ok (Some crb) end)
         else mret (Ok None));
  match crb with
  | Err e => mret (cluster, cb_failed e)
  | Ok crb =>
      err ← reconcileNamespaceInRemoteCluster cluster;
      match err with
      | Some e => mret (cluster, cb_failed e)
      | None =>
          err ← match crb with
                | Some crb => reconcileServiceAccountInRemoteCluster crb cluster
                | None => mret None
                end;
          match err with
          | Some e => mret (cluster, cb_failed e)
          | None =>
              '(cluster, err) ← reconcileServiceAccountToken g cluster clusterSecret;
              mret (cluster, match err with
                             | Some e => cb_failed e
                             | None => (mk_ctrl_result false DefaultRequeueInterval, Success, None)
                             end)
          end
      end
  end.
Definition cluster_EnsureCreated (cluster : Cluster) : P (Cluster * cb_result) :=
  if negb (bool_decide (AccessMode (cluster_Spec cluster) = ClusterAccessModeDirect)) then
    mret (cluster, (ctrl_done, Failed, None))
  else
    r ← trigger (CSecret (KubeGet (key_of cluster)));
    match r with
    | Err e => mret (cluster, cb_failed e)
    | Ok clusterSecret =>
        match NewRestClientGetterFromSecret clusterSecret (GetNamespace cluster) with
        | Err e => mret (cluster, cb_failed e)
        | Ok g =>
            err ← NewK8sClientFromRestClientGetter g;
            match err with
            | Some e => mret (cluster, cb_failed e)
            | None =>
                '(cluster, err) ← (if is_oidc clusterSecret
                                   then reconcileServiceAccountToken g cluster clusterSecret
                                   else mret (cluster, None));
                match err with
                | Some e => mret (cluster, cb_failed e)
                | None => bootstrap_remote g cluster clusterSecret
                end
            end
        end
    end.

Definition deleteClusterRoleBindingInRemoteCluster : P (option error) :=
  let ignored err := is_unauthorized err || is_not_found err || is_forbidden err in
  r ← trigger (RClusterRoleBinding (KubeGet (mk_key "" ServiceAccountName)));
  match r with
  | Err e => mret (if ignored (Some e) then None else Some e)
  | Ok crb =>
      err ← trigger (RClusterRoleBinding (KubeDelete crb));
      mret (if ignored err then None else err)
  end.
(** The loop of [deletePlugins]; the last answer is the error it returns. *)
Fixpoint delete_plugins (l : list Plugin) (count : nat) (err : option error) : P (nat * option error) :=
  match l with
  | [] => mret (count, err)
  | plugin :: rest =>
      err ← trigger (CDeletePlugin plugin);
      if negb (bool_decide (ignore_not_found err = None)) then mret (count, err)
      else delete_plugins rest (S count) err
  end.
Definition deletePlugins (cluster : Cluster) : P (nat * option error) :=
  r ← trigger (CListPlugins (GetNamespace cluster) (GetName cluster));
  match r with
  | Err e => mret (0, Some e)
  | Ok items => delete_plugins items 0 None
  end.
Definition cluster_EnsureDeleted (cluster : Cluster) : P (Cluster * cb_result) :=
  let c := GetConditionByType (cluster_conditions (cluster_Status cluster)) KubeConfigValid in
  if match c with Some c => IsFalse c | None => false end then mret (cluster, cb_ok)
  else
    '(deletionCount, err) ← deletePlugins cluster;
    match err with
    | Some e => mret (cluster, cb_failed e)
    | None =>
        if (0 <? deletionCount)%nat then
          mret (cluster, (mk_ctrl_result false (10 * Second), Pending, None))
        else
          r ← trigger (CSecret (KubeGet (key_of cluster)));
          match r with
          | Err e => mret (cluster, cb_failed e)
          | Ok kubeConfigSecret =>
              if is_oidc kubeConfigSecret then mret (cluster, cb_ok)
              else
                match NewRestClientGetterFromSecret kubeConfigSecret (GetNamespace cluster) with
                | Err e => mret (cluster, cb_failed e)
                | Ok g =>
                    err ← NewK8sClientFromRestClientGetter g;
                    match err with
                    | Some e => mret (cluster, cb_failed e)
                    | None =>
                        err ← deleteClusterRoleBindingInRemoteCluster;
                        mret (cluster, match err with Some e => cb_failed e | None => cb_ok end)
                    end
                end
          end
    end.
Definition cluster_EnsureSuspended (cluster : Cluster) : P (Cluster * (ctrl_result * option error)) :=
  mret (cluster, (ctrl_done, None)).

(** ** The status of a cluster ([cluster_status.go]) *)
Definition getClusterSecretAndClientGetter (cluster : Cluster) : P (result (Secret * getter)) :=
  r ← trigger (CSecret (KubeGet (key_of cluster)));
  mret (match r with
        | Err e => Err (wrap_error "failed to get cluster secret: " e)
        | Ok clusterSecret =>
            match NewRestClientGetterFromSecret clusterSecret (GetNamespace clusterSecret) with
            | Err e => Err (wrap_error "failed to create REST client getter: " e)
            | Ok g => Ok (clusterSecret, g)
            end
        end).
Definition GetKubernetesVersion (g : getter) : P (result string) :=
  match getter_ToRESTConfig g with
  | Err e => mret (Err e)
  | Ok _ => trigger RServerVersion
  end.
Definition reconcileKubeConfigValid (g : getter) : P (Condition * string) :=
  r ← GetKubernetesVersion g;
  mret (match r with
        | Err e => (FalseCondition now KubeConfigValid "" (err_msg e), clusterK8sVersionUnknown)
        | Ok version => (TrueCondition now KubeConfigValid "" "", version)
        end).

(** [NodeStatus] when the node is unschedulable or not reported ready. *)
Fixpoint find_node_ready (l : list NodeCondition) : option NodeCondition :=
  match l with
  | [] => None
  | c :: l => if bool_decide (nc_Type c = NodeReady) then Some c else find_node_ready l
  end.
Definition getNodeStatusIfNodeNotReady (node : Node) : option NodeStatus :=
  if Unschedulable node then Some (mk_node_status (GetName node) "Node is unschedulable" (Some now))
  else match find_node_ready (node_conditions node) with
       | None => None
       | Some readyCondition =>
           if bool_decide (nc_Status readyCondition = ConditionTrue) then None
           else Some (mk_node_status (GetName node) (nc_Message readyCondition)
                        (nc_LastTransitionTime readyCondition))
       end.
(** One step of the loop over the nodes. *)
Definition count_node (s : Condition * Nodes) (node : Node) : Condition * Nodes :=
  let '(c, nodes) := s in
  match GetLabels node !! controlPlaneNodeLabel with
  | Some _ => (c, nodes)
  | None =>
      match getNodeStatusIfNodeNotReady node with
      | None => (c, mk_nodes (nodes_Total nodes + 1) (nodes_Ready nodes + 1) (nodes_NotReady nodes))
      | Some nodeStatus =>
          let msg := if negb (bool_decide (CondMessage c = "")) then CondMessage c +:+ ", " else CondMessage c in
          (set_message (msg +:+ GetName node +:+ " not ready") (set_status ConditionFalse c),
           mk_nodes (nodes_Total nodes + 1) (nodes_Ready nodes) (nodes_NotReady nodes ++ [nodeStatus]))
      end
  end.
Definition reconcileNodeStatus (g : getter) : P (Condition * option Nodes) :=
  err ← NewK8sClientFromRestClientGetter g;
  match err with
  | Some e => mret (FalseCondition now AllNodesReady "" (err_msg e), None)
  | None =>
      r ← trigger RListNodes;
      mret (match r with
            | Err e => (FalseCondition now AllNodesReady "" (err_msg e), None)
            | Ok items =>
                let '(c, nodes) := fold_left count_node items
                  (TrueCondition now AllNodesReady "" "", mk_nodes 0 0 []) in
                (c, Some nodes)
            end)
  end.

Definition reconcilePermissions (g : getter) : P Condition :=
  err ← NewK8sClientFromRestClientGetter g;
  match err with
  | Some e => mret (FalseCondition now PermissionsVerified "" (err_msg e))
  | None =>
      missing ← translate (fun _ => RReview) (CheckClientClusterPermission "" "");
      mret (if (0 <? length missing)%nat
            then FalseCondition now PermissionsVerified "" "missing cluster admin permission"
            else TrueCondition now PermissionsVerified "" "ServiceAccount has cluster admin permissions")
  end.
(** A missing object, or the error of reading it, as the condition. *)
Definition not_deployed (e : error) (what : string) : Condition :=
  FalseCondition now ManagedResourcesDeployed ""
    (if is_not_found (Some e) then what +:+ " not found in remote cluster" else err_msg e).
Definition reconcileBootstrapResources (g : getter) (secret : option Secret) : P Condition :=
  match secret with
  | None => mret (UnknownCondition now ManagedResourcesDeployed "" "managed resources could not be validated")
  | Some secret =>
      err ← NewK8sClientFromRestClientGetter g;
      match err with
      | Some e => mret (FalseCondition now ManagedResourcesDeployed "" (err_msg e))
      | None =>
          ns ← trigger (RNamespace (KubeGet (mk_key "" (GetNamespace secret))));
          match ns with
          | Err e => mret (not_deployed e ("Namespace " +:+ GetNamespace secret))
          | Ok _ =>
              if is_oidc secret then mret (TrueCondition now ManagedResourcesDeployed "" "")
              else
                sa ← trigger (RServiceAccount (KubeGet (mk_key (GetNamespace secret) ServiceAccountName)));
                match sa with
                | Err e => mret (not_deployed e ("ServiceAccount " +:+ ServiceAccountName +:+
                                                 " in namespace " +:+ GetNamespace secret))
                | Ok _ =>
                    crb ← trigger (RClusterRoleBinding (KubeGet (mk_key "" ServiceAccountName)));
                    mret (match crb with
                          | Err e => not_deployed e ("ClusterRoleBinding " +:+ ServiceAccountName)
                          | Ok _ => TrueCondition now ManagedResourcesDeployed "" ""
                          end)
                end
          end
      end
  end.
Fixpoint reconcileReadyStatus (conditions : list Condition) : Condition :=
  match conditions with
  | [] => NewCondition now ReadyCondition ConditionTrue "" ""
  | condition :: rest =>
      if IsFalse condition then
        NewCondition now ReadyCondition ConditionFalse ""
          (if negb (bool_decide (CondMessage condition = "")) then CondMessage condition
           else "cannot access cluster")
      else reconcileReadyStatus rest
  end.

(** What the conditioner finds on the cluster: nodes, permissions, resources, schedulability. *)
Record findings := mk_findings {
  f_AllNodesReady : Condition; f_ClusterAccessible : Condition; f_ResourcesDeployed : Condition;
  f_PayloadSchedulable : Condition; f_Nodes : option Nodes }.
Definition kubeconfig_invalid : findings :=
  mk_findings
    (UnknownCondition now AllNodesReady "" "kubeconfig not valid - cannot know node status")
    (UnknownCondition now PermissionsVerified "" "kubeconfig not valid - cannot validate cluster access")
    (UnknownCondition now ManagedResourcesDeployed "" "kubeconfig not valid - cannot validate managed resources")
    (FalseCondition now PayloadSchedulable "" "kubeconfig not valid - payloads cannot be scheduled") None.
Definition all_not_ready (nodes : option Nodes) : bool :=
  match nodes with
  | Some nodes => bool_decide (Z.of_nat (length (nodes_NotReady nodes)) = nodes_Total nodes)
  | None => false
  end.
Definition inspect (g : getter) (clusterSecret : Secret) : P findings :=
  '(allNodesReady, nodes) ← reconcileNodeStatus g;
  clusterAccessible ← reconcilePermissions g;
  resourcesDeployed ← reconcileBootstrapResources g (Some clusterSecret);
  mret (mk_findings allNodesReady clusterAccessible resourcesDeployed
    (if all_not_ready nodes then FalseCondition now PayloadSchedulable "" "all nodes are not ready"
     else TrueCondition now PayloadSchedulable "" "") nodes).
Definition cluster_setConditions (cluster : Cluster) : P Cluster :=
  r ← getClusterSecretAndClientGetter cluster;
  '(kubeConfigValid, k8sVersion) ← match r with
    | Err e => mret (FalseCondition now KubeConfigValid "" (err_msg e), clusterK8sVersionUnknown)
    | Ok (_, g) => reconcileKubeConfigValid g
    end;
  f ← match r with
      | Ok (clusterSecret, g) =>
          if IsFalse kubeConfigValid then mret kubeconfig_invalid else inspect g clusterSecret
      | Err _ => mret kubeconfig_invalid
      end;
  let ready := reconcileReadyStatus [kubeConfigValid; f_ResourcesDeployed f] in
  ownerLabel ← translate (fun _ => CTeam) (ComputeOwnerLabelCondition now cluster);
  let conditions := [ready; f_AllNodesReady f; kubeConfigValid; ownerLabel; f_ClusterAccessible f;
                     f_ResourcesDeployed f; f_PayloadSchedulable f] in
  let s := cluster_Status cluster in
  mret (mk_cluster (cluster_meta cluster) (cluster_Spec cluster)
    (mk_cluster_status k8sVersion (BearerTokenExpirationTimestamp s)
       (SetConditions now (cluster_conditions s) conditions) (f_Nodes f))).

Definition RemoteClusterReconciler : Reconciler clusterE Cluster :=
  mk_reconciler _ _ cluster_EnsureCreated cluster_EnsureDeleted cluster_EnsureSuspended.
Definition cluster_Reconcile `{FinalizerOps} (k : objkey) :=
  Reconcile now RemoteClusterReconciler (Some cluster_setConditions) k.
End cluster.
