(* ===== verification/ClusterSafety.v ===== *)
(** * ClusterSafety: theorems on the controller of Clusters

    What the status of a Cluster says, when tokens are renewed and for how long they are
    requested, what Greenhouse keeps on a remote cluster and what deletion removes. *)
From S2P Require Import Prelude Effects Conditions Meta CoreTypes ApiTypes Lifecycle ClientUtil PluginTypes KubeConfig ClusterController.
From Stdlib Require Import ZArith.

(** ** The status *)
Section status.
Context {Libs : ClusterLibs}.
Variable now : Z.

(** Nodes that count: those outside the control plane. *)
Definition worker (node : Node) : bool :=
  match GetLabels node !! controlPlaneNodeLabel with Some _ => false | None => true end.
Definition node_ready (node : Node) : bool :=
  match getNodeStatusIfNodeNotReady now node with None => true | Some _ => false end.
Definition workers (items : list Node) : list Node := List.filter worker items.
Definition counted (items : list Node) : Nodes :=
  mk_nodes (Z.of_nat (length (workers items)))
    (Z.of_nat (length (List.filter node_ready (workers items))))
    (omap (getNodeStatusIfNodeNotReady now) (workers items)).
Definition nodes_add (n m : Nodes) : Nodes :=
  mk_nodes (nodes_Total n + nodes_Total m) (nodes_Ready n + nodes_Ready m) (nodes_NotReady n ++ nodes_NotReady m).
Definition counted_one (node : Node) : Nodes :=
  match getNodeStatusIfNodeNotReady now node with
  | None => mk_nodes 1 1 []
  | Some s => mk_nodes 1 0 [s]
  end.
Lemma counted_cons node items :
  counted (node :: items) = if worker node then nodes_add (counted_one node) (counted items) else counted items.
Proof.
  unfold counted, workers, nodes_add, counted_one. cbn [List.filter].
  destruct (worker node); [|done]. cbn [List.filter omap list_omap length]. unfold node_ready at 1.
  destruct (getNodeStatusIfNodeNotReady now node); cbn; f_equal; lia.
Qed.
Lemma nodes_add_assoc n m k : nodes_add (nodes_add n m) k = nodes_add n (nodes_add m k).
Proof. unfold nodes_add. cbn. by rewrite !Z.add_assoc, app_assoc. Qed.
Lemma count_nodes items c n :
  exists c', fold_left (count_node now) items (c, n) = (c', nodes_add n (counted items)) /\
    CondType c' = CondType c /\
    (nodes_NotReady (counted items) = [] -> c' = c) /\
    (nodes_NotReady (counted items) <> [] -> CondStatus c' = ConditionFalse).
Proof.
  revert c n. induction items as [|node items IH]; intros c n; cbn [fold_left].
  { exists c. unfold nodes_add, counted. cbn. rewrite !Z.add_0_r, app_nil_r. by destruct n. }
  rewrite counted_cons. unfold count_node at 2, worker.
  destruct (GetLabels node !! controlPlaneNodeLabel); [apply IH|].
  unfold counted_one. rewrite <- nodes_add_assoc.
  destruct (getNodeStatusIfNodeNotReady now node) as [s|].
  - edestruct IH as (c' & -> & Ht & Hnil & Hcons). exists c'. split_and!; [|done|done|].
    + f_equal. unfold nodes_add. cbn. by rewrite Z.add_0_r.
    + intros _. destruct (decide (nodes_NotReady (counted items) = [])) as [Hn|Hn]; [by rewrite (Hnil Hn)|auto].
  - edestruct IH as (c' & -> & Ht & Hnil & Hcons). exists c'. split_and!; [|done..].
    f_equal. unfold nodes_add. cbn. by rewrite app_nil_r.
Qed.
Lemma counted_sum items :
  (nodes_Total (counted items) =
   nodes_Ready (counted items) + Z.of_nat (length (nodes_NotReady (counted items))))%Z.
Proof.
  unfold counted. cbn. induction (workers items) as [|node l IH]; [done|].
  cbn [List.filter omap list_omap length]. unfold node_ready at 1.
  destruct (getNodeStatusIfNodeNotReady now node); cbn [length]; lia.
Qed.
End status.

Section conditioner.
Context {Libs : ClusterLibs}.
Variable now : Z.
Definition cond_is (t s : string) (c : Cluster) : Prop :=
  exists d, GetConditionByType (cluster_conditions (cluster_Status c)) t = Some d /\ CondStatus d = s.
Lemma cond_is_set sc l c s (cl : Cluster) :
  cluster_conditions (cluster_Status cl) = SetConditions now sc l -> NoDup (CondType <$> l) -> c ∈ l ->
  cond_is (CondType c) s cl <-> CondStatus c = s.
Proof.
  intros Hcl Hl Hc. unfold cond_is. rewrite Hcl.
  destruct (SetConditions_get_in now sc l c Hl Hc) as (d & -> & (_ & Hs & _)%Equal_true).
  split; [intros (? & [= <-] & <-); done|]. intros <-. by exists d.
Qed.

Lemma owner_label_type {O} `{Object O} {W} (R : W -> forall X, kubeE Team X -> X -> W -> Prop) (o : O) w :
  wp R (ComputeOwnerLabelCondition now o) (fun _ c => CondType c = OwnerLabelSetCondition) w.
Proof.
  unfold ComputeOwnerLabelCondition. case_bool_decide; [by apply wp_ret|].
  case_bool_decide; [by apply wp_ret|]. do 2 wp_step. destruct x as [team|e].
  - case_bool_decide; by apply wp_ret.
  - destruct (is_not_found _); by apply wp_ret.
Qed.

Abbreviation read h e x := (Call e x ∈ h).
(** What the conditioner has found, with the calls it made. *)
Definition nodes_found (h : list (call clusterE)) (c : Condition) (nodes : option Nodes) : Prop :=
  CondType c = AllNodesReady /\
  match nodes with
  | None => CondStatus c = ConditionFalse
  | Some n => exists items, read h RListNodes (Ok items) /\ n = counted now items /\
      CondStatus c = if bool_decide (nodes_NotReady n = []) then ConditionTrue else ConditionFalse
  end.
Lemma reconcileNodeStatus_found g h :
  wp (traced any_answer) (reconcileNodeStatus now g) (fun h' '(c, nodes) => nodes_found h' c nodes) h.
Proof.
  unfold reconcileNodeStatus, NewK8sClientFromRestClientGetter. wp_step.
  eapply wp_mono; [|apply wp_true]. intros h1 [e|] _; [by apply wp_ret|].
  do 2 wp_step. destruct Hx as [_ ->]. apply wp_ret. destruct x as [items|e]; [|done].
  pose proof (count_nodes now items (TrueCondition now AllNodesReady "" "") (mk_nodes 0 0 []))
    as (c & -> & Ht & Hnil & Hcons).
  split; [done|]. exists items. split; [set_solver|].
  replace (nodes_add (mk_nodes 0 0 []) (counted now items)) with (counted now items)
    by (unfold nodes_add; by destruct (counted now items)).
  split; [done|]. case_bool_decide as Hn; [by rewrite (Hnil Hn)|auto].
Qed.
Lemma reconcilePermissions_type g h :
  wp (traced any_answer) (reconcilePermissions now g) (fun h' c => CondType c = PermissionsVerified) h.
Proof.
  unfold reconcilePermissions. wp_step. wp_skip. destruct a; [by apply wp_ret|].
  wp_step. wp_skip. apply wp_ret. by case_if.
Qed.
Definition decided (t : string) (c : Condition) : Prop :=
  CondType c = t /\ (CondStatus c = ConditionTrue \/ CondStatus c = ConditionFalse).
Lemma reconcileBootstrapResources_decided g secret h :
  wp (traced any_answer) (reconcileBootstrapResources now g (Some secret))
    (fun h' c => decided ManagedResourcesDeployed c) h.
Proof.
  unfold reconcileBootstrapResources, decided. wp_step. wp_skip. destruct a; [apply wp_ret; cbn; auto|].
  do 2 wp_step. destruct x; [|apply wp_ret; cbn; auto].
  destruct (is_oidc secret); [apply wp_ret; cbn; auto|].
  do 2 wp_step. destruct x; [|apply wp_ret; cbn; auto].
  do 2 wp_step. apply wp_ret. destruct x; cbn; auto.
Qed.
Lemma nodes_found_mono h l c nodes : nodes_found h c nodes -> nodes_found (h ++ l) c nodes.
Proof.
  unfold nodes_found. intros [Ht Hn]. split; [done|]. destruct nodes as [n|]; [|done].
  destruct Hn as (items & Hi & Hn). exists items. split; [set_solver|done].
Qed.
(** What holds of the findings of a valid kubeconfig. *)
Definition found (h : list (call clusterE)) (f : findings) : Prop :=
  nodes_found h (f_AllNodesReady f) (f_Nodes f) /\ CondType (f_ClusterAccessible f) = PermissionsVerified /\
  decided ManagedResourcesDeployed (f_ResourcesDeployed f) /\ CondType (f_PayloadSchedulable f) = PayloadSchedulable /\
  CondStatus (f_PayloadSchedulable f) = if all_not_ready (f_Nodes f) then ConditionFalse else ConditionTrue.
Lemma inspect_found g secret h :
  wp (traced any_answer) (inspect now g secret) (fun h' f => found h' f) h.
Proof.
  unfold inspect. wp_step. eapply wp_mono; [|apply reconcileNodeStatus_found].
  intros h1 [c nodes] Hn. wp_step.
  eapply wp_mono; [|apply wp_and; [apply reconcilePermissions_type|apply wp_traced_extends]].
  intros h2 perms [Hp [l2 ->]]. wp_step.
  eapply wp_mono; [|apply wp_and; [apply reconcileBootstrapResources_decided|apply wp_traced_extends]].
  intros h3 res [Hr [l3 ->]]. apply wp_ret. unfold found. cbn.
  split_and!; [by do 2 apply nodes_found_mono|done|exact Hr|by case_if|by destruct (all_not_ready nodes)].
Qed.
Definition report (h : list (call clusterE)) (c : Cluster) : Prop :=
  (cond_is KubeConfigValid ConditionTrue c \/ cond_is KubeConfigValid ConditionFalse c) /\
  (cond_is KubeConfigValid ConditionTrue c -> exists v, read h RServerVersion (Ok v) /\ KubernetesVersion (cluster_Status c) = v) /\
  (cond_is ReadyCondition ConditionTrue c <->
     cond_is KubeConfigValid ConditionTrue c /\ cond_is ManagedResourcesDeployed ConditionTrue c) /\
  (cond_is PayloadSchedulable ConditionTrue c <->
     cond_is KubeConfigValid ConditionTrue c /\
     forall n, cluster_Nodes (cluster_Status c) = Some n -> nodes_Ready n <> 0%Z) /\
  match cluster_Nodes (cluster_Status c) with
  | None => ~ cond_is AllNodesReady ConditionTrue c
  | Some n => (exists items, read h RListNodes (Ok items) /\ n = counted now items) /\
      (nodes_Total n = nodes_Ready n + Z.of_nat (length (nodes_NotReady n)))%Z /\
      (cond_is AllNodesReady ConditionTrue c <-> nodes_NotReady n = [])
  end.
Lemma ready_status a b :
  CondStatus (reconcileReadyStatus now [a; b]) = ConditionTrue <->
  CondStatus a <> ConditionFalse /\ CondStatus b <> ConditionFalse.
Proof.
  cbn [reconcileReadyStatus]. unfold IsFalse.
  do 2 (case_bool_decide; [split; [done|by intros []]|]). done.
Qed.
(** The conditioner's last step: what was found determines the report. *)
Lemma conditions_report h valid version f owner (c : Cluster) :
  CondType owner = OwnerLabelSetCondition ->
  (IsFalse valid = false /\ valid = TrueCondition now KubeConfigValid "" "" /\
     read h RServerVersion (Ok version) /\ found h f \/
   valid = FalseCondition now KubeConfigValid "" (CondMessage valid) /\ f = kubeconfig_invalid now) ->
  report h (mk_cluster (cluster_meta c) (cluster_Spec c)
    (mk_cluster_status version (BearerTokenExpirationTimestamp (cluster_Status c))
       (SetConditions now (cluster_conditions (cluster_Status c))
          [reconcileReadyStatus now [valid; f_ResourcesDeployed f]; f_AllNodesReady f; valid; owner;
           f_ClusterAccessible f; f_ResourcesDeployed f; f_PayloadSchedulable f]) (f_Nodes f))).
Proof.
  intros Ho Hf. set (ready := reconcileReadyStatus now [valid; f_ResourcesDeployed f]).
  match goal with |- report _ ?c => set (c' := c) end.
  assert (Htypes : CondType ready = ReadyCondition /\ CondType valid = KubeConfigValid /\
    CondType (f_AllNodesReady f) = AllNodesReady /\ CondType (f_ClusterAccessible f) = PermissionsVerified /\
    CondType (f_ResourcesDeployed f) = ManagedResourcesDeployed /\
    CondType (f_PayloadSchedulable f) = PayloadSchedulable).
  { split; [unfold ready; cbn; by repeat case_if|].
    destruct Hf as [(_ & -> & _ & [Hn _] & Ha & [Hr _] & Hp & _)|[-> ->]]; by split_and!. }
  destruct Htypes as (T1 & T2 & T3 & T4 & T5 & T6).
  assert (Hcond : forall d s, d ∈ [ready; f_AllNodesReady f; valid; owner; f_ClusterAccessible f;
    f_ResourcesDeployed f; f_PayloadSchedulable f] -> cond_is (CondType d) s c' <-> CondStatus d = s).
  { intros d s Hd. eapply cond_is_set; [done| |exact Hd]. cbn [fmap list_fmap].
    rewrite T1, T2, T3, T4, T5, T6, Ho. apply (bool_decide_unpack _). by vm_compute. }
  pose proof (fun s => Hcond ready s ltac:(set_solver)) as H1. rewrite T1 in H1.
  pose proof (fun s => Hcond valid s ltac:(set_solver)) as H2. rewrite T2 in H2.
  pose proof (fun s => Hcond (f_AllNodesReady f) s ltac:(set_solver)) as H3. rewrite T3 in H3.
  pose proof (fun s => Hcond (f_ResourcesDeployed f) s ltac:(set_solver)) as H5. rewrite T5 in H5.
  pose proof (fun s => Hcond (f_PayloadSchedulable f) s ltac:(set_solver)) as H6. rewrite T6 in H6.
  pose proof (ready_status valid (f_ResourcesDeployed f)) as Hrdy. fold ready in Hrdy. clearbody ready.
  clear Hcond. unfold report. rewrite !H1, !H2, !H5, !H6. unfold c' in H3 |- *. clear H1 H2 H5 H6 c'. cbn [cluster_Status cluster_Nodes KubernetesVersion].
  destruct Hf as [(Hvf & Hv & Hread & (Hnf & _ & [_ Hdec] & _ & Hs))|[Hv ->]].
  - assert (Hvs : CondStatus valid = ConditionTrue) by (by rewrite Hv). rewrite Hvs.
    split; [by left|]. split; [by exists version|].
    split.
    { rewrite Hrdy, Hvs.
      destruct Hdec as [-> | ->]; split; try done; by intros []. }
    assert (Hsum : forall n, f_Nodes f = Some n ->
      (nodes_Total n = nodes_Ready n + Z.of_nat (length (nodes_NotReady n)))%Z).
    { intros n Hn. destruct Hnf as [_ Hnf]. rewrite Hn in Hnf. destruct Hnf as (items & _ & -> & _).
      apply counted_sum. }
    split.
    { rewrite Hs. destruct (f_Nodes f) as [n|]; [|by split; [|done]; intros _; split].
      specialize (Hsum n eq_refl). cbn. case_bool_decide as Hall; split; try done.
      - intros [_ Hr]. exfalso. apply (Hr n eq_refl). lia.
      - intros _. split; [done|]. intros ? [= <-]. lia. }
    destruct Hnf as [_ Hnf]. destruct (f_Nodes f) as [n|]; cbv beta iota; [|rewrite H3, Hnf; done].
    destruct Hnf as (items & Hi & Hn & Hst). split; [by exists items|]. split; [by apply Hsum|].
    rewrite H3, Hst. case_bool_decide; naive_solver.
  - assert (Hvs : CondStatus valid = ConditionFalse) by (by rewrite Hv). rewrite Hvs.
    cbn in H3 |- *. rewrite H3. split; [by right|]. split; [done|].
    split; [|split; [|done]].
    + rewrite Hrdy, Hvs. split; intros []; done.
    + split; [done|]. by intros [].
Qed.
(** The rest of the conditioner, once the kubeconfig is judged. *)
Definition finish (c : Cluster) (valid : Condition) (version : string) (f : findings) : prog clusterE Cluster :=
  ownerLabel ← translate (fun _ => CTeam) (ComputeOwnerLabelCondition now c);
  mret (mk_cluster (cluster_meta c) (cluster_Spec c)
    (mk_cluster_status version (BearerTokenExpirationTimestamp (cluster_Status c))
       (SetConditions now (cluster_conditions (cluster_Status c))
          [reconcileReadyStatus now [valid; f_ResourcesDeployed f]; f_AllNodesReady f; valid; ownerLabel;
           f_ClusterAccessible f; f_ResourcesDeployed f; f_PayloadSchedulable f]) (f_Nodes f))).
Lemma found_mono h l f : found h f -> found (h ++ l) f.
Proof. intros (Hn & H). split; [by apply nodes_found_mono|done]. Qed.
Lemma finish_report c valid version f h :
  (forall l, IsFalse valid = false /\ valid = TrueCondition now KubeConfigValid "" "" /\
     read (h ++ l) RServerVersion (Ok version) /\ found (h ++ l) f \/
   valid = FalseCondition now KubeConfigValid "" (CondMessage valid) /\ f = kubeconfig_invalid now) ->
  wp (traced any_answer) (finish c valid version f) report h.
Proof.
  intros Hf. unfold finish. apply wp_bind.
  eapply wp_mono; [|apply wp_and; [apply wp_translate, owner_label_type|apply wp_traced_extends]].
  intros h1 owner [Ho [l ->]]. apply wp_ret. by apply conditions_report.
Qed.
Lemma finish_invalid c msg version h :
  wp (traced any_answer) (finish c (FalseCondition now KubeConfigValid "" msg) version (kubeconfig_invalid now)) report h.
Proof. apply finish_report. by right. Qed.
Lemma finish_valid c version f h :
  read h RServerVersion (Ok version) -> found h f ->
  wp (traced any_answer) (finish c (TrueCondition now KubeConfigValid "" "") version f) report h.
Proof.
  intros Hr Hf. apply finish_report. intros l. left. split_and!; [done|done|set_solver|by apply found_mono].
Qed.
(** C20: what the status of a Cluster says after the conditioner ran, whatever the clusters
    answer.  KubeConfigValid is decided and True only with a version read from the
    cluster; Ready is True exactly when the kubeconfig is valid and the managed resources
    were found; the node counts are those of the listed nodes outside the control plane
    (the API type says Total is the number of all the nodes), add up, and AllNodesReady
    is True exactly when none of these nodes is missing; payloads can be
    scheduled exactly when the kubeconfig is valid and the listed nodes, if the list was
    read, are not all unready - so not on a cluster without workers. *)
Theorem cluster_setConditions_report c :
  wp (traced any_answer) (cluster_setConditions now c) report [].
Proof.
  unfold cluster_setConditions, getClusterSecretAndClientGetter. do 3 wp_step. destruct Hx as [_ ->].
  wp_step.
  match goal with |- wp _ (mbind _ match ?r with _ => _ end) _ _ => destruct r as [[secret g]|e] end.
  - wp_step. unfold reconcileKubeConfigValid, GetKubernetesVersion. wp_step.
    destruct (getter_ToRESTConfig g) as [cfg|e]; [|wp_step; wp_step; by apply finish_invalid].
    wp_step. destruct Hx as [_ ->]. wp_step.
    destruct x0 as [v|e]; [|by apply finish_invalid].
    cbn [fst snd]. wp_step. change (IsFalse (TrueCondition now KubeConfigValid "" "")) with false. cbv iota.
    eapply wp_mono; [|apply wp_and; [apply inspect_found|apply wp_traced_extends]].
    intros h1 f [Hf [l ->]]. apply finish_valid; [set_solver|done].
  - wp_step. wp_step. by apply finish_invalid.
Qed.
End conditioner.

(** ** Tokens *)
(** For [h] hours of [MaxTokenValidity], a token is asked for [s] seconds. *)
Definition wanted_seconds (h s : Z) : Prop :=
  (h = 0%Z -> s = (72 * 3600)%Z) /\
  ((0 < h <= 2562047)%Z -> s = (h * 3600)%Z) /\
  ((2562047 < h < 2 ^ 31)%Z -> s <> (h * 3600)%Z).
Lemma seconds_wanted cluster :
  wanted_seconds (MaxTokenValidity (cluster_Spec cluster))
    (seconds_of (token_validity (SetDefaultTokenValidityIfNeeded cluster))).
Proof.
  set (h := MaxTokenValidity (cluster_Spec cluster)).
  assert (Heq : token_validity (SetDefaultTokenValidityIfNeeded cluster) =
                hours (if bool_decide (h = 0%Z) then MaxTokenValidityDefault else h)).
  { unfold token_validity, SetDefaultTokenValidityIfNeeded. fold h.
    destruct (bool_decide_reflect (h = 0%Z)); done. }
  rewrite Heq. clear Heq. split_and!.
  - intros ->. by vm_compute.
  - intros Hh. rewrite bool_decide_eq_false_2 by lia. unfold seconds_of, hours, int64, Hour, Second.
    rewrite Z.mod_small by lia.
    replace (h * (3600 * 1000000000) + 2 ^ 63 - 2 ^ 63)%Z with (h * 3600 * 1000000000)%Z by lia.
    apply Z.quot_mul. lia.
  - intros Hh. rewrite bool_decide_eq_false_2 by lia. unfold seconds_of, hours, int64, Second.
    pose proof (Z.mod_pos_bound (h * Hour + 2 ^ 63) (2 ^ 64) ltac:(lia)) as Hm.
    set (d := ((h * Hour + 2 ^ 63) mod 2 ^ 64 - 2 ^ 63)%Z) in *.
    assert (Hd : (d < 2 ^ 63)%Z) by (unfold d; lia). intros Hq.
    pose proof (Z.quot_rem' d 1000000000) as He.
    pose proof (Z.rem_bound_abs d 1000000000 ltac:(lia)) as Hr. lia.
Qed.

Section tokens.
Context {Libs : ClusterLibs}.
Variable now renewAfter : Z.
Definition token_call {X} (e : clusterE X) : bool :=
  match e with CCreateToken _ _ _ | RCreateToken _ _ _ => true | _ => false end.
Definition is_token (c : call clusterE) : bool := match c with Call e _ => token_call e end.
(** The number of tokens requested. *)
Definition tokens (h : list (call clusterE)) : nat := length (List.filter is_token h).
Lemma tokens_snoc h X (e : clusterE X) x : tokens (h ++ [Call e x]) = tokens h + if token_call e then 1 else 0.
Proof.
  unfold tokens. rewrite List.filter_app, length_app. cbn. by destruct (token_call e).
Qed.
Definition no_token X (e : clusterE X) : Prop := token_call e = false.
Lemma no_token_wp {A} (p : prog clusterE A) h :
  all_calls no_token p -> wp (traced any_answer) p (fun h' _ => tokens h' = tokens h) h.
Proof.
  intros Hp. apply (all_calls_wp no_token (traced any_answer) (fun h' => tokens h' = tokens h)); [done| |done].
  intros h1 X e x h2 H1 He [_ ->]. rewrite tokens_snoc. unfold no_token in He. rewrite He. lia.
Qed.
Lemma create_or_patch_no_token {O} `{Object O, EqDecision O} (lift : forall X, kubeE O X -> clusterE X) mutate (o : O) :
  (forall X (e : kubeE O X), token_call (lift X e) = false) ->
  all_calls no_token (translate lift (CreateOrPatch mutate o)).
Proof. intros Hl. apply all_calls_translate, all_calls_any. intros X e. apply Hl. Qed.
Lemma may_panic_no_token kc ty (s : Secret) :
  all_calls no_token (CreateOrPatch_may_panic (fun _ => CSecret) (fun _ => cluster_panic) (write_kubeconfig now ty kc) s).
Proof.
  assert (Hp : forall o (f : (Secret -> Secret * option error) -> prog (kubeE Secret) (Secret * (OperationResult * option error))),
    all_calls no_token match write_kubeconfig now ty kc o with
      | Returns r => translate (fun _ => CSecret) (f (fun _ => r)) | Panics => cluster_panic end).
  { intros o f. destruct (write_kubeconfig now ty kc o).
    - apply all_calls_translate, all_calls_any. done.
    - unfold cluster_panic. apply all_calls_vis; [done|intros []]. }
  unfold CreateOrPatch_may_panic. calls_step; [by calls_step|]. destruct a as [o|e].
  - destruct (GetDeletionTimestamp o); [calls_step|apply (Hp o (fun m => patch m o false))].
  - destruct (negb _); [calls_step|apply (Hp s (fun m => create_mutated m s))].
Qed.

(** Whether a pass asks for a token. *)
Definition renewal_due (g : getter) (cluster : Cluster) (secret : Secret) : bool :=
  negb (IsSecretContainsKey secret GreenHouseKubeConfigKey) ||
  negb (shouldSkipTokenRenewal now renewAfter g cluster).
Definition known_type (secret : Secret) : Prop :=
  secret_Type secret = SecretTypeKubeConfig \/ secret_Type secret = SecretTypeOIDCConfig.
Lemma createTokenRequest_tokens validity secret cluster h : known_type secret ->
  wp (traced any_answer) (createTokenRequest validity (secret_Type secret) cluster)
    (fun h' _ => tokens h' = S (tokens h)) h.
Proof.
  unfold createTokenRequest. intros [-> | ->].
  - rewrite bool_decide_eq_true_2 by done. do 2 wp_step. destruct Hx as [_ ->]. apply wp_ret.
    rewrite tokens_snoc. cbn. lia.
  - rewrite bool_decide_eq_false_2 by done. rewrite bool_decide_eq_true_2 by done.
    do 2 wp_step. destruct Hx as [_ ->]. apply wp_ret. rewrite tokens_snoc. cbn. lia.
Qed.
Lemma GenerateTokenRequest_tokens validity g cluster secret h : known_type secret ->
  wp (traced any_answer) (GenerateTokenRequest now renewAfter validity g cluster secret) (fun h' r =>
    tokens h' = tokens h + (if renewal_due g cluster secret then 1 else 0) /\
    (renewal_due g cluster secret = false -> r = Ok None) /\
    (renewal_due g cluster secret = true -> r <> Ok None)) h.
Proof.
  intros Ht. unfold GenerateTokenRequest, renewal_due.
  assert (Hnew : wp (traced any_answer)
    (r ← createTokenRequest validity (secret_Type secret) cluster;
     mret (match r with Err e => Err e | Ok t => Ok (Some t) end))
    (fun h' r => tokens h' = tokens h + 1 /\ r <> Ok None) h).
  { wp_step. eapply wp_mono; [|by apply createTokenRequest_tokens]. intros h' r Hr. apply wp_ret.
    cbv beta in Hr. split; [lia|by destruct r]. }
  destruct (IsSecretContainsKey secret GreenHouseKubeConfigKey); cbn [negb orb].
  2: { eapply wp_mono; [|exact Hnew]. by intros h' r [? ?]. }
  destruct (shouldSkipTokenRenewal now renewAfter g cluster); cbn [negb].
  - apply wp_ret. split; [lia|done].
  - eapply wp_mono; [|exact Hnew]. by intros h' r [? ?].
Qed.
Definition defaulted (cluster : Cluster) : Cluster := SetDefaultTokenValidityIfNeeded cluster.
Lemma renewal_due_defaulted g cluster secret :
  renewal_due g (defaulted cluster) secret = renewal_due g cluster secret.
Proof. unfold defaulted, SetDefaultTokenValidityIfNeeded. by case_if. Qed.
(** One round of the token: at most one request, and none exactly when it is not due. *)
Lemma reconcileServiceAccountToken_tokens g cluster secret h : known_type secret ->
  wp (traced any_answer) (reconcileServiceAccountToken now renewAfter g cluster secret) (fun h' '(cluster', err) =>
    tokens h' = tokens h + (if renewal_due g cluster secret then 1 else 0) /\
    key_of cluster' = key_of cluster /\
    (renewal_due g cluster secret = false -> cluster' = defaulted cluster)) h.
Proof.
  intros Ht. unfold reconcileServiceAccountToken. fold (defaulted cluster).
  rewrite <- (renewal_due_defaulted g cluster secret).
  assert (Hk : key_of (defaulted cluster) = key_of cluster)
    by (unfold defaulted, SetDefaultTokenValidityIfNeeded; by case_if).
  rewrite <- Hk. clear Hk. generalize (defaulted cluster) as cl. intros cl. wp_step.
  eapply wp_mono; [|by apply GenerateTokenRequest_tokens]. intros h1 r (H1 & Hno & Hyes).
  destruct r as [[t|]|e]; [|by apply wp_ret..].
  wp_step; [by apply wp_ret|]. wp_step; [|by apply wp_ret].
  assert (Hdue : renewal_due g cl secret = true) by (destruct (renewal_due g cl secret); naive_solver).
  do 2 wp_step. destruct Hx as [_ ->].
  destruct x as [kcs|e]; [|apply wp_ret; rewrite tokens_snoc; split_and!; [cbn; lia|done|congruence]].
  wp_step. eapply wp_mono; [|apply no_token_wp, may_panic_no_token].
  intros h2 [o [res err]] H2. rewrite tokens_snoc in H2.
  destruct err; apply wp_ret; (split; [cbn in *; lia|]; split; [done|congruence]).
Qed.
(** The token in use says when it expires. *)
Definition expiry_readable (g : getter) : Prop :=
  exists cfg payload exp, getter_ToRESTConfig g = Ok cfg /\
    jose_ParseSigned (rest_BearerToken cfg) = Some payload /\ Unmarshal_claims payload = Some exp.
Lemma renewal_due_readable g c1 c2 secret :
  expiry_readable g -> renewal_due g c1 secret = renewal_due g c2 secret.
Proof.
  intros (cfg & payload & exp & Hc & Hj & He). unfold renewal_due, shouldSkipTokenRenewal. by rewrite Hc, Hj, He.
Qed.
Lemma NewRestClientGetter_type secret ns g :
  NewRestClientGetterFromSecret secret ns = Ok g -> known_type secret.
Proof.
  unfold NewRestClientGetterFromSecret, ValidateSecretForKubeConfig, known_type.
  do 2 (case_bool_decide; [auto|]). done.
Qed.
Lemma connect_no_token g : all_calls no_token (NewK8sClientFromRestClientGetter g).
Proof. unfold NewK8sClientFromRestClientGetter. calls_steps; done. Qed.
Lemma bootstrap_remote_tokens g cluster secret h : known_type secret ->
  wp (traced any_answer) (bootstrap_remote now renewAfter g cluster secret) (fun h' '(_, (_, outcome, _)) =>
    outcome = Success -> tokens h' = tokens h + (if renewal_due g cluster secret then 1 else 0)) h.
Proof.
  intros Ht. unfold bootstrap_remote, cb_failed. wp_step.
  eapply wp_mono; [|apply no_token_wp].
  2: { destruct (is_oidc secret); cbn [negb]; [calls_step|]. unfold reconcileClusterRoleBindingInRemoteCluster.
       calls_step; [|by calls_steps]. calls_step; [by apply create_or_patch_no_token|]. destruct a as [? [? ?]]. calls_steps. }
  intros h1 crb H1. destruct crb as [crb|e]; [|by apply wp_ret]. wp_step.
  eapply wp_mono; [|apply no_token_wp].
  2: { unfold reconcileNamespaceInRemoteCluster. calls_step; [by apply create_or_patch_no_token|].
       destruct a as [? [? ?]]. calls_steps. }
  intros h2 err H2. destruct err; [by apply wp_ret|]. wp_step.
  eapply wp_mono; [|apply no_token_wp].
  2: { destruct crb; [|calls_step]. unfold reconcileServiceAccountInRemoteCluster.
       calls_step; [by apply create_or_patch_no_token|]. destruct a as [? [? ?]]. calls_steps. }
  intros h3 err H3. destruct err; [by apply wp_ret|]. wp_step.
  eapply wp_mono; [|by apply reconcileServiceAccountToken_tokens].
  intros h4 [cluster' err] (H4 & _). destruct err; apply wp_ret; [done|]. cbn in *. lia.
Qed.
(** How many tokens one creating pass requests, when it succeeds.  With a user's
    kubeconfig one, exactly when the token in use runs out within the renewal period or
    Greenhouse has no kubeconfig yet.  With OIDC none when it is not due, but two
    when it is (and its expiry can be read): the second round looks at the Secret as it
    was read before the first one renewed it. *)
Theorem cluster_EnsureCreated_tokens cluster :
  wp (traced any_answer) (cluster_EnsureCreated now renewAfter cluster) (fun h' '(_, (_, outcome, _)) =>
    outcome = Success -> exists secret g rest,
      h' = Call (CSecret (KubeGet (key_of cluster))) (Ok secret) :: rest /\
      NewRestClientGetterFromSecret secret (GetNamespace cluster) = Ok g /\
      (is_oidc secret = false -> tokens h' = if renewal_due g cluster secret then 1 else 0) /\
      (is_oidc secret = true -> expiry_readable g -> tokens h' = if renewal_due g cluster secret then 2 else 0) /\
      (IsSecretContainsKey secret GreenHouseKubeConfigKey = false -> 0 < tokens h')) [].
Proof.
  unfold cluster_EnsureCreated, cb_failed. wp_step; [by apply wp_ret|]. do 2 wp_step. destruct Hx as [_ ->].
  cbn [app]. destruct x as [secret|e]; [|by apply wp_ret].
  destruct (NewRestClientGetterFromSecret secret (GetNamespace cluster)) as [g|e] eqn:Hg; [|by apply wp_ret].
  pose proof (NewRestClientGetter_type _ _ _ Hg) as Ht.
  set (h0 := [Call (CSecret (KubeGet (key_of cluster))) (Ok secret)]).
  match goal with |- wp _ ?p _ _ => set (prog := p) end.
  assert (Hp : wp (traced any_answer) prog (fun h' '(_, (_, outcome, _)) => outcome = Success ->
    (is_oidc secret = false -> tokens h' = if renewal_due g cluster secret then 1 else 0) /\
    (is_oidc secret = true -> expiry_readable g -> tokens h' = if renewal_due g cluster secret then 2 else 0) /\
    (IsSecretContainsKey secret GreenHouseKubeConfigKey = false -> 0 < tokens h')) h0).
  { subst prog. wp_step. eapply wp_mono; [|apply no_token_wp, connect_no_token].
    intros h1 err H1. change (tokens h0) with 0 in H1. destruct err; [by apply wp_ret|]. wp_step.
    destruct (is_oidc secret) eqn:Ho.
    - eapply wp_mono; [|by apply reconcileServiceAccountToken_tokens].
      intros h2 [c2 err] (H2 & _). destruct err; [by apply wp_ret|].
      eapply wp_mono; [|by apply bootstrap_remote_tokens].
      intros h3 [c3 [[res outcome] err]] H3 Hs. specialize (H3 Hs). split_and!; [done| |].
      + intros _ Hr. rewrite (renewal_due_readable g c2 cluster secret Hr) in H3.
        destruct (renewal_due g cluster secret); lia.
      + intros Hk. rewrite H3, H2. unfold renewal_due. rewrite Hk. cbn. lia.
    - apply wp_ret. eapply wp_mono; [|by apply bootstrap_remote_tokens].
      intros h3 [c3 [[res outcome] err]] H3 Hs. specialize (H3 Hs). split_and!; [intros _; lia|done|].
      intros Hk. rewrite H3. unfold renewal_due. rewrite Hk. cbn. lia. }
  eapply wp_mono; [|apply wp_and; [exact Hp|apply wp_traced_extends]].
  intros h' [c' [[res outcome] err]] [H [l ->]] Hs. destruct (H Hs) as (Ha & Hb & Hc).
  exists secret, g, l. by split_and!.
Qed.

(** What a token is asked for: on the remote cluster or not, the ServiceAccount, the
    audiences and the seconds. *)
Definition asked (c : call clusterE) : option (bool * objkey * list string * Z) :=
  match c with
  | Call e _ => match e with
                | RCreateToken k audiences seconds => Some (true, k, audiences, seconds)
                | CCreateToken k audiences seconds => Some (false, k, audiences, seconds)
                | _ => None
                end
  end.
Lemma asked_tokens h : length (omap asked h) = tokens h.
Proof.
  unfold tokens. induction h as [|[X e x] h IH]; [done|]. cbn. destruct e; cbn; by rewrite IH.
Qed.
Definition wanted_token (cluster : Cluster) (secret : Secret) (a : bool * objkey * list string * Z) : Prop :=
  let '(remote, account, audiences, seconds) := a in
  wanted_seconds (MaxTokenValidity (cluster_Spec cluster)) seconds /\
  if remote
  then secret_Type secret = SecretTypeKubeConfig /\
       account = mk_key (GetNamespace cluster) "greenhouse" /\ audiences = []
  else secret_Type secret = SecretTypeOIDCConfig /\ account = key_of cluster /\ audiences = ["greenhouse"].
Definition asks_wanted (cluster : Cluster) (secret : Secret) X (e : clusterE X) : Prop :=
  forall x a, asked (Call e x) = Some a -> wanted_token cluster secret a.
Lemma no_token_asks_wanted cluster secret X (e : clusterE X) : no_token X e -> asks_wanted cluster secret X e.
Proof. unfold no_token, asks_wanted. by destruct e. Qed.
(** The two rounds of OIDC see the same Cluster, but for a default that was set. *)
Definition same_wanted (c c' : Cluster) : Prop :=
  key_of c' = key_of c /\
  (MaxTokenValidity (cluster_Spec c') = MaxTokenValidity (cluster_Spec c) \/
   MaxTokenValidity (cluster_Spec c) = 0%Z /\ MaxTokenValidity (cluster_Spec c') = MaxTokenValidityDefault).
Lemma wanted_token_same c c' secret a : same_wanted c c' -> wanted_token c' secret a -> wanted_token c secret a.
Proof.
  intros [Hk Hv]. destruct a as [[[remote k] auds] s]. unfold wanted_token, wanted_seconds.
  assert (GetNamespace c' = GetNamespace c) as -> by by injection Hk. rewrite Hk.
  destruct Hv as [-> | [-> ->]]; [done|]. unfold MaxTokenValidityDefault. intros [Hw Hr]. split; [|done].
  split_and!; [intros _; destruct Hw as (_ & Hw & _); rewrite Hw; lia|lia..].
Qed.
Lemma defaulted_same c : same_wanted c (defaulted c).
Proof.
  unfold same_wanted, defaulted, SetDefaultTokenValidityIfNeeded.
  destruct (bool_decide_reflect (MaxTokenValidity (cluster_Spec c) = 0%Z)); cbn [negb]; [|by auto]. by split; [|right].
Qed.
Lemma GenerateTokenRequest_asks g cluster secret :
  all_calls (asks_wanted cluster secret)
    (GenerateTokenRequest now renewAfter (token_validity (SetDefaultTokenValidityIfNeeded cluster)) g
       (SetDefaultTokenValidityIfNeeded cluster) secret).
Proof.
  assert (all_calls (asks_wanted cluster secret)
    (createTokenRequest (token_validity (SetDefaultTokenValidityIfNeeded cluster)) (secret_Type secret)
       (SetDefaultTokenValidityIfNeeded cluster))) as Hc.
  { destruct (defaulted_same cluster) as [Hk _]. unfold defaulted in Hk. injection Hk as Hns Hn.
    unfold createTokenRequest. rewrite Hns, Hn.
    destruct (bool_decide_reflect (secret_Type secret = SecretTypeKubeConfig)) as [Ht|_].
    { calls_steps. intros x a [= <-]. split; [apply seconds_wanted|done]. }
    destruct (bool_decide_reflect (secret_Type secret = SecretTypeOIDCConfig)) as [Ht|_]; [|done].
    calls_steps. intros x a [= <-]. split; [apply seconds_wanted|done]. }
  unfold GenerateTokenRequest. calls_steps; done.
Qed.
Lemma no_token_wanted {A} cluster secret (p : prog clusterE A) :
  all_calls no_token p -> all_calls (asks_wanted cluster secret) p.
Proof. apply all_calls_mono. intros X e. apply no_token_asks_wanted. Qed.
Lemma reconcileServiceAccountToken_asks g cluster secret :
  all_calls (asks_wanted cluster secret) (reconcileServiceAccountToken now renewAfter g cluster secret).
Proof.
  unfold reconcileServiceAccountToken. calls_step; [apply GenerateTokenRequest_asks|].
  apply no_token_wanted. destruct a as [[tk|]|e]; [|done..]. calls_step; [done|]. calls_step; [|done].
  calls_step; [by calls_step|]. destruct a0 as [kcs|e]; [|done].
  calls_step; [apply may_panic_no_token|]. destruct a0 as [? [? []]]; done.
Qed.
Lemma reconcileServiceAccountToken_same {W} (R : W -> forall X, clusterE X -> X -> W -> Prop) g cluster secret w :
  wp R (reconcileServiceAccountToken now renewAfter g cluster secret) (fun _ r => same_wanted cluster r.1) w.
Proof.
  unfold reconcileServiceAccountToken. pose proof (defaulted_same cluster) as Hd. unfold defaulted in Hd.
  wp_step. wp_skip. destruct a as [[tk|]|e]; [|by wp_step..]. wp_step; [by wp_step|]. wp_step; [|by wp_step].
  wp_step. wp_skip. destruct a0 as [kcs|e]; [|by wp_step]. wp_step. wp_skip. destruct a0 as [? [? []]]; by wp_step.
Qed.
Lemma bootstrap_remote_asks g cluster secret :
  all_calls (asks_wanted cluster secret) (bootstrap_remote now renewAfter g cluster secret).
Proof.
  unfold bootstrap_remote, cb_failed. calls_step.
  { apply no_token_wanted. destruct (is_oidc secret); cbn [negb]; [calls_step|].
    unfold reconcileClusterRoleBindingInRemoteCluster.
    calls_step; [|by calls_steps]. calls_step; [by apply create_or_patch_no_token|]. destruct a as [? [? ?]]. calls_steps. }
  destruct a as [crb|e]; [|calls_step]. calls_step.
  { apply no_token_wanted. unfold reconcileNamespaceInRemoteCluster.
    calls_step; [by apply create_or_patch_no_token|]. destruct a as [? [? ?]]. calls_steps. }
  destruct a as [e|]; [calls_step|]. calls_step.
  { apply no_token_wanted. destruct crb; [|calls_step]. unfold reconcileServiceAccountInRemoteCluster.
    calls_step; [by apply create_or_patch_no_token|]. destruct a as [? [? ?]]. calls_steps. }
  destruct a as [e|]; [calls_step|]. calls_step; [apply reconcileServiceAccountToken_asks|]. by destruct a.
Qed.
(** The calls after the Secret was read. *)
Lemma all_calls_asked {A} cluster secret (p : prog clusterE A) h :
  all_calls (asks_wanted cluster secret) p -> Forall (wanted_token cluster secret) (omap asked h) ->
  wp (traced any_answer) p (fun h' _ => Forall (wanted_token cluster secret) (omap asked h')) h.
Proof.
  intros Hp. apply (all_calls_wp (asks_wanted cluster secret) (traced any_answer) (fun h => Forall (wanted_token cluster secret) (omap asked h))); [done|].
  intros h1 X e x h2 H1 He [_ ->]. rewrite omap_app. apply Forall_app. split; [done|].
  unfold omap, list_omap. destruct (asked (Call e x)) as [a|] eqn:Ha; [|by constructor]. constructor; [by eapply He|constructor].
Qed.

Lemma secret_get_inj k (s s' : Secret) :
  Call (CSecret (KubeGet k)) (Ok s) = Call (CSecret (KubeGet k)) (Ok s') -> s = s'.
Proof.
  intros H%(f_equal (fun c => match c with
    | Call e x => match e in clusterE X return X -> option (result Secret) with
        | CSecret e => match e in kubeE _ X return X -> option (result Secret) with
            | KubeGet _ => Some | _ => fun _ => None end
        | _ => fun _ => None end x end)). by injection H.
Qed.
Lemma cluster_EnsureCreated_asks cluster :
  wp (traced any_answer) (cluster_EnsureCreated now renewAfter cluster) (fun h _ =>
    omap asked h <> [] -> exists secret,
      head h = Some (Call (CSecret (KubeGet (key_of cluster))) (Ok secret)) /\
      Forall (wanted_token cluster secret) (omap asked h)) [].
Proof.
  unfold cluster_EnsureCreated, cb_failed. wp_step; [by apply wp_ret|]. do 2 wp_step. destruct Hx as [_ ->].
  cbn [app]. destruct x as [secret|e]; [|by apply wp_ret].
  destruct (NewRestClientGetterFromSecret secret (GetNamespace cluster)) as [g|e]; [|by apply wp_ret].
  eapply wp_mono; [|apply wp_and; [apply (all_calls_asked cluster secret); [|by constructor]|apply wp_traced_extends]].
  { intros h r [H [l ->]] _. by exists secret. }
  calls_step; [apply no_token_wanted, connect_no_token|]. destruct a as [e|]; [done|].
  apply (all_calls_bind_post _ (fun r => same_wanted cluster r.1)).
  - calls_step; [apply reconcileServiceAccountToken_asks|done].
  - wp_step; [apply reconcileServiceAccountToken_same|]. apply wp_ret. by split; [|left].
  - intros [c1 [e|]] Hs; [done|]. cbn in Hs. eapply all_calls_mono; [|apply bootstrap_remote_asks].
    intros X e He x a Ha. eapply wanted_token_same; [exact Hs|by eapply He].
Qed.

(** C21: what tokens a pass asks for and for how long, whatever the clusters answer.
    Every request goes, by the type of the Secret the pass read, to the remote
    cluster's ServiceAccount or to the Cluster's own with the audience of Greenhouse.
    [MaxTokenValidity] hours are multiplied into a 64-bit count of nanoseconds: within
    the bounds the CRD sets (24 to 72), and up to 2562047 hours, a request is for
    exactly that many seconds, and 72 hours stand for a missing value; any larger 32-bit
    value overflows and asks for something else.  A pass that succeeds on a Secret
    without Greenhouse's kubeconfig did ask for one. *)
Theorem token_seconds_bounds cluster :
  wp (traced any_answer) (cluster_EnsureCreated now renewAfter cluster) (fun h '(_, (_, outcome, _)) =>
    (omap asked h <> [] -> exists secret,
       head h = Some (Call (CSecret (KubeGet (key_of cluster))) (Ok secret)) /\
       Forall (wanted_token cluster secret) (omap asked h)) /\
    (outcome = Success -> forall secret,
       head h = Some (Call (CSecret (KubeGet (key_of cluster))) (Ok secret)) ->
       IsSecretContainsKey secret GreenHouseKubeConfigKey = false -> omap asked h <> [])) [].
Proof.
  eapply wp_mono; [|apply wp_and; [apply cluster_EnsureCreated_tokens|apply cluster_EnsureCreated_asks]].
  intros h [c' [[res outcome] err]] [Hn H]. split; [exact H|]. intros Ho secret Hh Hk.
  destruct (Hn Ho) as (s & g & rest & -> & _ & _ & _ & Hpos). apply (inj Some) in Hh as Heq.
  apply secret_get_inj in Heq as ->. specialize (Hpos Hk). rewrite <- asked_tokens in Hpos.
  intros Hnil. rewrite Hnil in Hpos. cbn in Hpos. lia.
Qed.
End tokens.

(** ** Deletion *)
Section deletion.
Context {Libs : ClusterLibs}.
Definition plugin_deletes (h : list (call clusterE)) : list (Plugin * option error) :=
  omap (fun c => match c with
    | Call e x => match e in clusterE X return X -> option (Plugin * option error) with
                  | CDeletePlugin p => fun err => Some (p, err)
                  | _ => fun _ => None
                  end x
    end) h.
Lemma plugin_deletes_app h h' : plugin_deletes (h ++ h') = plugin_deletes h ++ plugin_deletes h'.
Proof. apply omap_app. Qed.
Lemma plugin_deletes_of ds : plugin_deletes ((fun d => Call (CDeletePlugin d.1) d.2) <$> ds) = ds.
Proof. unfold plugin_deletes. induction ds as [|[p err] ds IH]; [done|]. cbn in *. by f_equal. Qed.
(** The answers the loop goes on with. *)
Definition accepted (err : option error) : Prop := ignore_not_found err = None.
Lemma last_default {A} (a d d' : A) l : List.last (a :: l) d = List.last (a :: l) d'.
Proof. revert a. induction l as [|b l IH]; [done|]. intros a. apply (IH b). Qed.
Lemma last_cons_default {A} (a d : A) l : List.last (a :: l) d = List.last l a.
Proof. destruct l as [|b l]; [done|]. apply (last_default b d a l). Qed.
Lemma delete_plugins_spec l count err h :
  wp (traced any_answer) (delete_plugins l count err) (fun h' '(n, err') => exists ds,
    h' = h ++ ((fun d => Call (CDeletePlugin d.1) d.2) <$> ds) /\ ds.*1 `prefix_of` l /\ err' = List.last ds.*2 err /\
    (accepted err -> accepted err' -> ds.*1 = l /\ n = count + length l /\ Forall accepted ds.*2)) h.
Proof.
  revert count err h. induction l as [|p l IH]; intros count err h; cbn [delete_plugins].
  { apply wp_ret. exists []. cbn. rewrite app_nil_r. split_and!; [done..|]. intros _ _. split_and!; [done|lia|constructor]. }
  do 2 wp_step. destruct Hx as [_ ->]. destruct (bool_decide_reflect (ignore_not_found x = None)) as [Ha|Ha]; cbn [negb].
  - eapply wp_mono; [|apply IH]. intros h' [n err'] (ds & -> & Hds & -> & Hn). exists ((p, x) :: ds).
    rewrite <- app_assoc. split; [done|]. split; [by apply prefix_cons|].
    split; [symmetry; apply last_cons_default|]. intros _ Hacc.
    destruct Hn as (Hd & Hn & HF); [done|exact Hacc|]. cbn. split_and!; [by rewrite Hd|lia|by constructor].
  - apply wp_ret. exists [(p, x)]. cbn. split; [done|]. split; [by apply prefix_cons, prefix_nil|]. done.
Qed.
(** How deletion proceeds, whatever the clusters answer.  With a kubeconfig reported
    invalid nothing is called and the Cluster may go.  Otherwise it may go only after a
    list that showed no Plugin on it, and then either the Secret is OIDC's or the binding
    was looked up and, where there was one, deleted (answers NotFound, Unauthorized and
    Forbidden count); it waits only after every listed Plugin was deleted.  An answer NotFound to
    the last deletion is returned as a failure, to an earlier one it is not. *)
Theorem cluster_EnsureDeleted_order cluster :
  let ignored err := is_unauthorized err || is_not_found err || is_forbidden err = true in
  let listed items h := Call (CListPlugins (GetNamespace cluster) (GetName cluster)) (Ok items) ∈ h in
  wp (traced any_answer) (cluster_EnsureDeleted cluster) (fun h '(c, (_, outcome, err)) =>
    c = cluster /\
    if match GetConditionByType (cluster_conditions (cluster_Status cluster)) KubeConfigValid with
       | Some c => IsFalse c | None => false end
    then outcome = Success /\ h = []
    else match outcome with
    | Success => listed [] h /\
       ((exists secret, Call (CSecret (KubeGet (key_of cluster))) (Ok secret) ∈ h /\ is_oidc secret = true) \/
        (exists crb derr, Call (RClusterRoleBinding (KubeGet (mk_key "" ServiceAccountName))) (Ok crb) ∈ h /\
           Call (RClusterRoleBinding (KubeDelete crb)) derr ∈ h /\ (derr = None \/ ignored derr)) \/
        (exists e, Call (RClusterRoleBinding (KubeGet (mk_key "" ServiceAccountName))) (Err e) ∈ h /\ ignored (Some e)))
    | Pending => exists items, items <> [] /\ listed items h /\
        (plugin_deletes h).*1 = items /\ Forall accepted (plugin_deletes h).*2 /\ List.last (plugin_deletes h).*2 None = None
    | Failed => err <> None
    end) [].
Proof.
  cbv zeta. unfold cluster_EnsureDeleted, cb_failed, cb_ok.
  destruct (match GetConditionByType _ _ with Some c => IsFalse c | None => false end); [by apply wp_ret|].
  unfold deletePlugins. wp_step. do 2 wp_step. destruct Hx as [_ ->]. cbn [app].
  set (list := Call _ x). destruct x as [items|e]; [|by do 2 apply wp_ret].
  eapply wp_mono; [|apply delete_plugins_spec]. intros h1 [n err] (ds & -> & Hpre & Herr & Hds).
  destruct err as [e|]; [by apply wp_ret|]. destruct (Hds eq_refl eq_refl) as (Hd & -> & HF). clear Hds Hpre.
  destruct (0 <? _)%nat eqn:Hn.
  { apply wp_ret. split; [done|]. exists items. apply Nat.ltb_lt in Hn. cbn in Hn.
    assert (plugin_deletes ([list] ++ ((fun d => Call (CDeletePlugin d.1) d.2) <$> ds)) = ds) as ->.
    { by rewrite plugin_deletes_app, plugin_deletes_of. }
    split_and!; [intros ->; cbn in Hn; lia|set_solver|done..]. }
  apply Nat.ltb_ge in Hn. destruct items; [|cbn in Hn; lia]. clear Hn Herr HF.
  destruct ds; [|done]. cbn [fmap list_fmap app]. clear Hd.
  do 2 wp_step. destruct Hx as [_ ->]. destruct x as [secret|e]; [|by apply wp_ret].
  destruct (is_oidc secret) eqn:Ho; [apply wp_ret; split; [done|]; split; [set_solver|]; left; exists secret; set_solver|].
  destruct (NewRestClientGetterFromSecret _ _) as [g|e]; [|by apply wp_ret].
  wp_step. eapply wp_mono; [|apply wp_traced_extends]. intros h2 err [l ->]. destruct err; [by apply wp_ret|].
  unfold deleteClusterRoleBindingInRemoteCluster. do 3 wp_step. destruct Hx as [_ ->].
  destruct x as [crb|e].
  - do 2 wp_step. destruct Hx as [_ ->].
    destruct (_ || _ || _) eqn:Hi; [|destruct x as [e|]; [by apply wp_ret|]]; apply wp_ret; (split; [done|]);
      (split; [set_solver|]); right; left; exists crb; [exists x|exists None]; split_and!; try set_solver; auto.
  - destruct (_ || _ || _) eqn:Hi; apply wp_ret; (split; [done|]); [|done].
    split; [set_solver|]. right; right. exists e. split; [set_solver|done].
Qed.
End deletion.
