(* ===== verification/ClusterProvision.v ===== *)
(** * ClusterProvision: what the controller of Clusters writes, against a specification

    The abstract specification of a creating pass is a relation on the stored objects
    ([provisions]): which objects of the remote cluster and which Secret may differ
    afterwards and how.  The detailed program refines it, call by call, over stores that
    may fail at any call; deletion has its own specification.  A written kubeconfig is
    read back by the next pass. *)
From S2P Require Import Prelude Effects Conditions Meta CoreTypes ApiTypes Lifecycle ClientUtil PluginTypes KubeConfig ClusterController ClusterSafety.
From Stdlib Require Import ZArith.

(** ** Stores *)
Record cluster_world := mk_cluster_world {
  cw_secrets : gmap objkey Secret;
  cw_bindings : gmap objkey ClusterRoleBinding;
  cw_namespaces : gmap objkey Namespace;
  cw_accounts : gmap objkey ServiceAccount }.

(** One object of a store is there afterwards; every other one is what it was. *)
Definition ensured {O} (k : objkey) (fresh : O -> Prop) (kept : O -> O -> Prop) (st st' : gmap objkey O) : Prop :=
  (forall k', k' <> k -> st' !! k' = st !! k') /\
  exists o, st' !! k = Some o /\ match st !! k with None => fresh o | Some b => kept b o end.
Definition only_at {O} (k : objkey) (st st' : gmap objkey O) : Prop :=
  forall k', k' <> k -> st' !! k' = st !! k'.

Section provision.
Context {Libs : ClusterLibs}.
Variable now renewAfter : Z.
(** What the server returns for what it was sent: the fields at stake are kept. *)
Definition accepts_secret (o o' : Secret) : Prop :=
  key_of o' = key_of o /\ secret_Data o' = secret_Data o /\ secret_Type o' = secret_Type o.
Definition accepts_crb (o o' : ClusterRoleBinding) : Prop :=
  crb_Subjects o' = crb_Subjects o /\ crb_RoleRef o' = crb_RoleRef o.
Definition accepts_ns (o o' : Namespace) : Prop := True.
Definition accepts_sa (o o' : ServiceAccount) : Prop := om_owners (sa_meta o') = om_owners (sa_meta o).

Definition cluster_step (w : cluster_world) X (e : clusterE X) : X -> cluster_world -> Prop :=
  match e in clusterE X return X -> cluster_world -> Prop with
  | CSecret e => fun x w' => exists s, kube_step accepts_secret (cw_secrets w) _ e x s /\
      w' = mk_cluster_world s (cw_bindings w) (cw_namespaces w) (cw_accounts w)
  | RClusterRoleBinding e => fun x w' => exists s, kube_step accepts_crb (cw_bindings w) _ e x s /\
      w' = mk_cluster_world (cw_secrets w) s (cw_namespaces w) (cw_accounts w)
  | RNamespace e => fun x w' => exists s, kube_step accepts_ns (cw_namespaces w) _ e x s /\
      w' = mk_cluster_world (cw_secrets w) (cw_bindings w) s (cw_accounts w)
  | RServiceAccount e => fun x w' => exists s, kube_step accepts_sa (cw_accounts w) _ e x s /\
      w' = mk_cluster_world (cw_secrets w) (cw_bindings w) (cw_namespaces w) s
  | _ => fun _ w' => w' = w
  end.
Ltac by_lens get put H :=
  apply wp_translate; by eapply (wp_lens _ _ get put);
    [..|exact H]; try by intros []; try by intros ? []; try by intros ? ? [].
Lemma crb_lens {A} (p : prog (kubeE ClusterRoleBinding) A) Q w :
  wp (kube_step accepts_crb) p
    (fun s a => Q (mk_cluster_world (cw_secrets w) s (cw_namespaces w) (cw_accounts w)) a) (cw_bindings w) ->
  wp cluster_step (translate (fun _ => RClusterRoleBinding) p) Q w.
Proof.
  intros H. by_lens cw_bindings (fun s w => mk_cluster_world (cw_secrets w) s (cw_namespaces w) (cw_accounts w)) H.
Qed.
Lemma ns_lens {A} (p : prog (kubeE Namespace) A) Q w :
  wp (kube_step accepts_ns) p
    (fun s a => Q (mk_cluster_world (cw_secrets w) (cw_bindings w) s (cw_accounts w)) a) (cw_namespaces w) ->
  wp cluster_step (translate (fun _ => RNamespace) p) Q w.
Proof.
  intros H. by_lens cw_namespaces (fun s w => mk_cluster_world (cw_secrets w) (cw_bindings w) s (cw_accounts w)) H.
Qed.
Lemma sa_lens {A} (p : prog (kubeE ServiceAccount) A) Q w :
  wp (kube_step accepts_sa) p
    (fun s a => Q (mk_cluster_world (cw_secrets w) (cw_bindings w) (cw_namespaces w) s) a) (cw_accounts w) ->
  wp cluster_step (translate (fun _ => RServiceAccount) p) Q w.
Proof.
  intros H. by_lens cw_accounts (fun s w => mk_cluster_world (cw_secrets w) (cw_bindings w) (cw_namespaces w) s) H.
Qed.
Lemma secret_lens {A} (p : prog (kubeE Secret) A) Q w :
  wp (kube_step accepts_secret) p
    (fun s a => Q (mk_cluster_world s (cw_bindings w) (cw_namespaces w) (cw_accounts w)) a) (cw_secrets w) ->
  wp cluster_step (translate (fun _ => CSecret) p) Q w.
Proof.
  intros H. by_lens cw_secrets (fun s w => mk_cluster_world s (cw_bindings w) (cw_namespaces w) (cw_accounts w)) H.
Qed.

(** [CreateOrPatch] meets [ensured]. *)
Lemma CreateOrPatch_ensured {O} `{Object O, EqDecision O} (accepts : O -> O -> Prop) mutate (obj : O) st
    (fresh : O -> Prop) (kept : O -> O -> Prop) :
  (forall o, key_of (mutate o).1 = key_of o) ->
  (forall o, accepts (mutate obj).1 o -> (mutate obj).2 = None -> fresh o) ->
  (forall o, mutate o = (o, None) -> kept o o) ->
  (forall b o, b <> (mutate b).1 -> (mutate b).2 = None -> accepts (mutate b).1 o -> kept b o) ->
  wp (kube_step accepts) (CreateOrPatch mutate obj) (fun st' '(o, (_, err)) =>
    only_at (key_of obj) st st' /\
    (err = None -> st' !! key_of obj = Some o /\ ensured (key_of obj) fresh kept st st')) st.
Proof.
  intros Hkey Hfresh Hsame Hkept. eapply wp_mono; [|by apply CreateOrPatch_post].
  intros st' [o [res [e|]]] Hp.
  { split; [|done]. destruct res; by destruct Hp as [-> _]. }
  unfold ensured, only_at. destruct res; cbn in Hp.
  - destruct Hp as (-> & Ho & _ & Hm). split; [done|]. intros _. split; [done|]. split; [done|].
    exists o. rewrite Ho. eauto.
  - destruct Hp as (Hn & Hm & Ha & ->). rewrite lookup_insert_eq.
    split; [by intros; rewrite lookup_insert_ne|]. intros _. split; [done|].
    split; [by intros; rewrite lookup_insert_ne|]. exists o. rewrite Hn. eauto.
  - destruct Hp as (b & Hb & Hne & Hm & _ & Ha & ->). rewrite lookup_insert_eq.
    split; [by intros; rewrite lookup_insert_ne|]. intros _. split; [done|].
    split; [by intros; rewrite lookup_insert_ne|]. exists o. rewrite Hb. eauto.
Qed.
(** Calls that touch no store. *)
Definition storeless X (e : clusterE X) : Prop :=
  match e with CSecret _ | RClusterRoleBinding _ | RNamespace _ | RServiceAccount _ => False | _ => True end.
Lemma storeless_wp {A} (p : prog clusterE A) w :
  all_calls storeless p -> wp cluster_step p (fun w' _ => w' = w) w.
Proof.
  intros Hp. apply (all_calls_wp storeless cluster_step (fun w' => w' = w)); [done| |done].
  intros w1 X e x w2 -> He H. by destruct e.
Qed.

(** ** The Secret *)
Definition secret_renewed (k : objkey) (st st' : gmap objkey Secret) : Prop :=
  st' = st \/ exists b o kubeconfig, st !! k = Some b /\ st' = <[k := o]> st /\
    secret_Type o = secret_Type b /\
    secret_Data o = <[GreenHouseKubeConfigKey := Some kubeconfig]> (secret_Data b).
Lemma secret_renewed_trans k st1 st2 st3 :
  secret_renewed k st1 st2 -> secret_renewed k st2 st3 -> secret_renewed k st1 st3.
Proof.
  intros [->|(b & o & kc & Hb & -> & Ht & Hd)] [->|(b' & o' & kc' & Hb' & -> & Ht' & Hd')]; unfold secret_renewed; eauto 10.
  rewrite lookup_insert_eq in Hb'. injection Hb' as <-. right. exists b, o', kc'.
  rewrite insert_insert_eq, Ht', Hd', Hd, insert_insert_eq. done.
Qed.
Lemma secret_renewed_same k st st' secret :
  secret_renewed k st st' -> st !! k = Some secret ->
  exists secret', st' !! k = Some secret' /\ secret_Type secret' = secret_Type secret.
Proof.
  intros [->|(b & o & kc & Hb & -> & Ht & _)] Hs; [eauto|]. rewrite Hs in Hb. injection Hb as <-.
  exists o. by rewrite lookup_insert_eq.
Qed.
Lemma write_kubeconfig_shape ty kc b r :
  write_kubeconfig now ty kc b = Returns r ->
  exists o, r = (o, None) /\ key_of o = key_of b /\ secret_Type o = secret_Type b /\
    secret_Data o = <[GreenHouseKubeConfigKey := Some kc]> (secret_Data b).
Proof.
  unfold write_kubeconfig. case_if; [done|]. case_if; [done|]. intros [= <-]. eexists. split; [done|].
  by case_if.
Qed.
Definition with_secrets (s : gmap objkey Secret) (w : cluster_world) : cluster_world :=
  mk_cluster_world s (cw_bindings w) (cw_namespaces w) (cw_accounts w).
(** In every outcome at most the kubeconfig of the Cluster's Secret is new. *)
Definition token_frame (k : objkey) (w w' : cluster_world) : Prop :=
  exists s, secret_renewed k (cw_secrets w) s /\ w' = with_secrets s w.
Lemma token_frame_refl k w : token_frame k w w.
Proof. exists (cw_secrets w). split; [by left|by destruct w]. Qed.
Lemma token_frame_trans k w1 w2 w3 : token_frame k w1 w2 -> token_frame k w2 w3 -> token_frame k w1 w3.
Proof.
  intros (s & Hs & ->) (s' & Hs' & ->). exists s'. split; [|done]. by eapply secret_renewed_trans.
Qed.
Lemma may_panic_renews ty kc k o w : key_of o = k -> is_Some (cw_secrets w !! k) ->
  wp cluster_step (CreateOrPatch_may_panic (fun _ => CSecret) (fun _ => cluster_panic) (write_kubeconfig now ty kc) o)
    (fun w' _ => token_frame k w w') w.
Proof.
  intros <- [o0 Ho]. unfold CreateOrPatch_may_panic.
  assert (Hid : mk_cluster_world (cw_secrets w) (cw_bindings w) (cw_namespaces w) (cw_accounts w) = w)
    by by destruct w.
  do 2 wp_step. destruct Hx as (s & [-> Hx] & ->). rewrite Hid. destruct x as [b|e].
  2: { wp_step; [by apply wp_ret, token_frame_refl|]. apply negb_false_iff, bool_decide_eq_true in Heqb.
       rewrite (Hx Heqb) in Ho. done. }
  destruct Hx as [Hb Hk]. destruct (GetDeletionTimestamp b); [by apply wp_ret, token_frame_refl|].
  destruct (write_kubeconfig now ty kc b) as [r|] eqn:Hw; [|apply wp_vis; intros []].
  destruct (write_kubeconfig_shape _ _ _ _ Hw) as (a & -> & Hka & Hta & Hda).
  apply secret_lens. unfold patch. case_bool_decide; [wp_step; by rewrite Hid; apply token_frame_refl|].
  do 2 wp_step. destruct x as [o'|e]; wp_step; [|cbn in Hx; subst; rewrite Hid; apply token_frame_refl].
  destruct Hx as [(Hk' & Hd' & Ht') ->]. exists (<[key_of a := o']> (cw_secrets w)). split; [|done].
  right. exists b, o', kc. by rewrite Hka, Hk, Ht', Hd'.
Qed.
Lemma token_storeless validity g cluster secret :
  all_calls storeless (GenerateTokenRequest now renewAfter validity g cluster secret).
Proof. unfold GenerateTokenRequest, createTokenRequest. calls_steps; done. Qed.
Lemma reconcileServiceAccountToken_frame g cluster secret w :
  wp cluster_step (reconcileServiceAccountToken now renewAfter g cluster secret) (fun w' '(cluster', _) =>
    token_frame (key_of cluster) w w' /\ GetNamespace cluster' = GetNamespace cluster /\ key_of cluster' = key_of cluster) w.
Proof.
  unfold reconcileServiceAccountToken. set (cl := SetDefaultTokenValidityIfNeeded cluster).
  assert (get_meta cl = get_meta cluster) as Hm by (unfold cl, SetDefaultTokenValidityIfNeeded; by case_if).
  assert (key_of cl = key_of cluster /\ GetNamespace cl = GetNamespace cluster) as [Hk Hn]
    by (unfold key_of, GetNamespace, GetName; by rewrite Hm).
  pose proof (token_frame_refl (key_of cluster) w) as Hr.
  wp_step. eapply wp_mono; [|apply storeless_wp, token_storeless]. intros w1 r ->.
  destruct r as [[t|]|e]; [|by apply wp_ret..].
  wp_step; [by apply wp_ret|]. wp_step; [|by apply wp_ret].
  do 2 wp_step. destruct Hx as (st & [-> Hx] & ->). replace (mk_cluster_world _ _ _ _) with w by by destruct w.
  destruct x as [kcs|e]; [|by apply wp_ret]. destruct Hx as [Hs Hks]. wp_step.
  eapply wp_mono; [|apply may_panic_renews; [exact Hks|by exists kcs]].
  intros w2 [o [res err]] Hw. rewrite Hk in Hw. by destruct err; apply wp_ret.
Qed.

(** ** The specification of a creating pass *)
Definition crb_key : objkey := mk_key "" ServiceAccountName.
Definition ns_key (cluster : Cluster) : objkey := mk_key "" (GetNamespace cluster).
Definition sa_key (cluster : Cluster) : objkey := mk_key (GetNamespace cluster) ServiceAccountName.
Definition admin_binding (cluster : Cluster) (crb : ClusterRoleBinding) : Prop :=
  crb_Subjects crb = [mk_rbac_subject "" rbacv1_ServiceAccountKind ServiceAccountName (GetNamespace cluster)] /\
  crb_RoleRef crb = (rbacv1_GroupName, CRoleKind, CRoleRef).
(** The ServiceAccount is owned by the binding, on top of the owners it had. *)
Definition owned_by (crb : ClusterRoleBinding) (before : ObjectMeta) (sa : ServiceAccount) : Prop :=
  SetOwnerReference "ClusterRoleBinding" (get_meta crb) before = Ok (om_owners (sa_meta sa)).
Definition account_of (crb : ClusterRoleBinding) (cluster : Cluster) (st st' : gmap objkey ServiceAccount) : Prop :=
  ensured (sa_key cluster) (owned_by crb (named ServiceAccountName (GetNamespace cluster)))
    (fun b => owned_by crb (sa_meta b)) st st'.
Definition cluster_frame (cluster : Cluster) (w w' : cluster_world) : Prop :=
  only_at (key_of cluster) (cw_secrets w) (cw_secrets w') /\ only_at crb_key (cw_bindings w) (cw_bindings w') /\
  only_at (ns_key cluster) (cw_namespaces w) (cw_namespaces w') /\
  only_at (sa_key cluster) (cw_accounts w) (cw_accounts w').
Definition provisions (oidc : bool) (cluster : Cluster) (w w' : cluster_world) : Prop :=
  secret_renewed (key_of cluster) (cw_secrets w) (cw_secrets w') /\
  ensured (ns_key cluster) (fun _ => True) eq (cw_namespaces w) (cw_namespaces w') /\
  if oidc then cw_bindings w' = cw_bindings w /\ cw_accounts w' = cw_accounts w
  else ensured crb_key (admin_binding cluster) eq (cw_bindings w) (cw_bindings w') /\
       exists crb, cw_bindings w' !! crb_key = Some crb /\ account_of crb cluster (cw_accounts w) (cw_accounts w').

Lemma reconcile_crb_spec cluster w :
  wp cluster_step (reconcileClusterRoleBindingInRemoteCluster cluster) (fun w' r => exists s,
    w' = mk_cluster_world (cw_secrets w) s (cw_namespaces w) (cw_accounts w) /\ only_at crb_key (cw_bindings w) s /\
    forall crb, r = Ok crb -> s !! crb_key = Some crb /\ ensured crb_key (admin_binding cluster) eq (cw_bindings w) s) w.
Proof.
  unfold reconcileClusterRoleBindingInRemoteCluster. wp_step. apply crb_lens.
  eapply wp_mono; [|apply (CreateOrPatch_ensured accepts_crb (fun crb => (crb, None)) (wanted_crb cluster) (cw_bindings w)
    (admin_binding cluster) eq); [done|by intros o []|done|by intros b o []]].
  intros s [o [res err]] [Ho Hs]. apply wp_ret. exists s. split; [done|]. split; [done|].
  destruct err; [done|]. intros crb [= <-]. by apply Hs.
Qed.
Lemma reconcile_ns_spec cluster w :
  wp cluster_step (reconcileNamespaceInRemoteCluster cluster) (fun w' err => exists s,
    w' = mk_cluster_world (cw_secrets w) (cw_bindings w) s (cw_accounts w) /\ only_at (ns_key cluster) (cw_namespaces w) s /\
    (err = None -> ensured (ns_key cluster) (fun _ => True) eq (cw_namespaces w) s)) w.
Proof.
  unfold reconcileNamespaceInRemoteCluster. wp_step. apply ns_lens.
  eapply wp_mono; [|apply (CreateOrPatch_ensured accepts_ns (fun ns => (ns, None))
    (mk_namespace (named (GetNamespace cluster) "")) (cw_namespaces w) (fun _ => True) eq); [done..|by intros b o []]].
  intros s [o [res err]] [Ho Hs]. apply wp_ret. exists s. split; [done|]. split; [done|]. intros ->. by apply Hs.
Qed.
Lemma mutate_remote_sa_owned crb b o :
  (mutate_remote_sa crb b).2 = None -> accepts_sa (mutate_remote_sa crb b).1 o -> owned_by crb (sa_meta b) o.
Proof.
  unfold mutate_remote_sa, accepts_sa, owned_by. change (get_meta b) with (sa_meta b).
  destruct (SetOwnerReference _ _ (sa_meta b)) as [owners|e]; [|done]. by intros _ ->.
Qed.
Lemma reconcile_sa_spec crb cluster w :
  wp cluster_step (reconcileServiceAccountInRemoteCluster crb cluster) (fun w' err => exists s,
    w' = mk_cluster_world (cw_secrets w) (cw_bindings w) (cw_namespaces w) s /\ only_at (sa_key cluster) (cw_accounts w) s /\
    (err = None -> account_of crb cluster (cw_accounts w) s)) w.
Proof.
  unfold reconcileServiceAccountInRemoteCluster. wp_step. apply sa_lens.
  eapply wp_mono; [|apply (CreateOrPatch_ensured accepts_sa (mutate_remote_sa crb)
    (mk_sa (named ServiceAccountName (GetNamespace cluster))) (cw_accounts w)
    (owned_by crb (named ServiceAccountName (GetNamespace cluster))) (fun b => owned_by crb (sa_meta b)))].
  - intros s [o [res err]] [Ho Hs]. apply wp_ret. exists s. split; [done|]. split; [done|]. intros ->. by apply Hs.
  - intros o. unfold mutate_remote_sa. by destruct (SetOwnerReference _ _ _).
  - intros o Ha Hn. by apply mutate_remote_sa_owned in Ha.
  - intros o Ho. apply mutate_remote_sa_owned; by rewrite Ho.
  - intros b o _ Hn Ha. by apply mutate_remote_sa_owned.
Qed.

Lemma provisions_key oidc c c' w w' : key_of c = key_of c' -> provisions oidc c w w' -> provisions oidc c' w w'.
Proof.
  intros Hk. assert (GetNamespace c = GetNamespace c') as Hn by exact (f_equal key_namespace Hk).
  unfold provisions, account_of, admin_binding, ns_key, sa_key. by rewrite Hk, Hn.
Qed.
Lemma cluster_frame_key c c' w w' : key_of c = key_of c' -> cluster_frame c w w' -> cluster_frame c' w w'.
Proof.
  intros Hk. assert (GetNamespace c = GetNamespace c') as Hn by exact (f_equal key_namespace Hk).
  unfold cluster_frame, ns_key, sa_key. by rewrite Hk, Hn.
Qed.
Lemma secret_renewed_only_at k st st' : secret_renewed k st st' -> only_at k st st'.
Proof. intros [->|(b & o & kc & _ & -> & _)] k' Hk; [done|]. by rewrite lookup_insert_ne. Qed.
Lemma only_at_refl {O} k (st : gmap objkey O) : only_at k st st.
Proof. done. Qed.
#[local] Hint Resolve secret_renewed_only_at only_at_refl : core.
Lemma frame_secrets cluster s w : secret_renewed (key_of cluster) (cw_secrets w) s -> cluster_frame cluster w (with_secrets s w).
Proof. intros H. unfold cluster_frame. cbn. eauto. Qed.

Ltac stopped := apply wp_ret; split; [unfold cluster_frame; cbn; by eauto 6|done].
Lemma bootstrap_remote_spec g cluster secret w0 w : token_frame (key_of cluster) w0 w ->
  wp cluster_step (bootstrap_remote now renewAfter g cluster secret) (fun w' '(_, (_, outcome, _)) =>
    cluster_frame cluster w0 w' /\ (outcome = Success -> provisions (is_oidc secret) cluster w0 w')) w.
Proof.
  intros (s1 & H1 & ->). unfold bootstrap_remote, cb_failed. apply wp_bind.
  eapply (wp_mono _ _ (fun w' r => exists b, w' = mk_cluster_world s1 b (cw_namespaces w0) (cw_accounts w0) /\
    only_at crb_key (cw_bindings w0) b /\
    match r with
    | Err _ => True
    | Ok None => is_oidc secret = true /\ b = cw_bindings w0
    | Ok (Some crb) => is_oidc secret = false /\ b !! crb_key = Some crb /\
        ensured crb_key (admin_binding cluster) eq (cw_bindings w0) b
    end)).
  2: { destruct (is_oidc secret); cbn [negb]; [apply wp_ret; by exists (cw_bindings w0)|].
       wp_step. eapply wp_mono; [|apply reconcile_crb_spec]. intros w' r (b & -> & Hb & Hr). apply wp_ret.
       exists b. split; [done|]. split; [done|]. destruct r as [crb|]; [|done]. by destruct (Hr crb eq_refl). }
  intros w' [crb|e] (b & -> & Hb & Hcrb); [|stopped].
  apply wp_bind. eapply wp_mono; [|apply reconcile_ns_spec].
  intros w' err (n & -> & Hn & Hns). cbn in Hn, Hns |- *.
  destruct err; [stopped|]. specialize (Hns eq_refl). apply wp_bind.
  eapply (wp_mono _ _ (fun w' err => exists a, w' = mk_cluster_world s1 b n a /\
    only_at (sa_key cluster) (cw_accounts w0) a /\
    (err = None -> match crb with Some crb => account_of crb cluster (cw_accounts w0) a | None => a = cw_accounts w0 end))).
  2: { destruct crb as [crb|]; [|apply wp_ret; cbn; eauto].
       eapply wp_mono; [|apply reconcile_sa_spec]. by intros w' err (a & -> & Ha & Hr); exists a. }
  intros w' err (a & -> & Ha & Hsa).
  destruct err; [stopped|]. specialize (Hsa eq_refl). apply wp_bind.
  eapply wp_mono; [|apply reconcileServiceAccountToken_frame].
  intros w' [c2 err] ((s2 & H2 & ->) & _).
  pose proof (secret_renewed_trans _ _ _ _ H1 H2) as Hs. clear H1 H2.
  destruct err; apply wp_ret; unfold cluster_frame, provisions; cbn; (split; [by eauto 6|]); [done|].
  intros _. split; [done|]. split; [done|]. destruct crb as [crb|].
  - destruct Hcrb as (-> & ? & ?). split; [done|]. by exists crb.
  - by destruct Hcrb as [-> ->].
Qed.

(** C19: a creating pass refines its specification, over stores that may fail at any call.
    Whatever happens only the Secret of the Cluster and, on the remote cluster, one
    ClusterRoleBinding, one Namespace and one ServiceAccount differ.  A successful pass
    leaves the namespace there; without OIDC also the binding of cluster-admin to the
    ServiceAccount and that ServiceAccount owned by the stored binding, with OIDC
    neither is touched; the Secret differs at most in its kubeconfig and metadata.  An existing namespace
    or binding is never corrected. *)
Theorem cluster_EnsureCreated_refines cluster w :
  wp cluster_step (cluster_EnsureCreated now renewAfter cluster) (fun w' '(_, (_, outcome, _)) =>
    cluster_frame cluster w w' /\
    (outcome = Success -> exists secret, cw_secrets w !! key_of cluster = Some secret /\
       provisions (is_oidc secret) cluster w w')) w.
Proof.
  assert (Hid : mk_cluster_world (cw_secrets w) (cw_bindings w) (cw_namespaces w) (cw_accounts w) = w)
    by by destruct w.
  assert (Hf : cluster_frame cluster w w) by done.
  unfold cluster_EnsureCreated, cb_failed. wp_step; [by apply wp_ret|].
  do 2 wp_step. destruct Hx as (st & [-> Hx] & ->). rewrite Hid. destruct x as [secret|e]; [|by apply wp_ret].
  destruct Hx as [Hs _]. destruct (NewRestClientGetterFromSecret _ _) as [g|e]; [|by apply wp_ret].
  apply wp_bind. eapply wp_mono; [|apply storeless_wp; unfold NewK8sClientFromRestClientGetter; calls_steps; done].
  intros w' err ->. destruct err; [by apply wp_ret|]. apply wp_bind.
  eapply (wp_mono _ _ (fun w' '(c, _) => token_frame (key_of cluster) w w' /\ key_of c = key_of cluster)).
  2: { destruct (is_oidc secret); [|apply wp_ret; split; [apply token_frame_refl|done]].
       eapply wp_mono; [|apply reconcileServiceAccountToken_frame]. by intros w' [c err] (? & ? & ?). }
  intros w' [c [e|]] [Hw Hk].
  { apply wp_ret. split; [|done]. destruct Hw as (s & Hr & ->). by apply frame_secrets. }
  eapply wp_mono; [|apply bootstrap_remote_spec; by rewrite Hk].
  intros w2 [c2 [[res outcome] err]] [H1 H2]. split; [by eapply cluster_frame_key|].
  intros Ho. exists secret. split; [done|]. eapply provisions_key; eauto.
Qed.
End provision.
