(* ===== verification/ClusterBootstrap.v ===== *)
(** * ClusterBootstrap: from a Secret to a Cluster
      ([internal/controller/cluster/bootstrap_controller.go])

    A Secret of a kubeconfig or OIDC type is registered as a Cluster of the same name.
    An OIDC Secret first gets a kubeconfig: a ServiceAccount, a short-lived token for it,
    and the server and certificate the Secret names; it is written again when the
    certificate changes.  The theorems compose the controller with the webhook that admits
    Secrets, and one pass with the next one.

    [controllerutil.CreateOrUpdate] is a call, with its documented contract as a step over
    the stored Clusters.  [BPanic] is a write to a nil map.  encoding/base64 decodes for
    real. *)
From S2P Require Import Prelude Effects Conditions Meta CoreTypes ApiTypes Lifecycle Propagation ClientUtil KubeConfig WebhookUtil AccessWebhook Base64 ClusterController ClusterProvision.
From Stdlib Require Import ZArith Ascii.

Definition ClusterConnectivityAnnotation : string := "greenhouse.sap/cluster-connectivity".
Definition ClusterConnectivityKubeconfig : string := "kubeconfig".
Definition ClusterConnectivityOIDC : string := "oidc".

(** ** Calls *)
Inductive bootE : Type -> Type :=
| BSecret {X} (e : kubeE Secret X) : bootE X
| BUpdateSecret (s : Secret) : bootE (result Secret)
| BServiceAccount {X} (e : kubeE ServiceAccount X) : bootE X
| BCreateToken (serviceAccount : objkey) (audiences : list string) (seconds : Z) : bootE (result (string * time))
| BGetCluster (k : objkey) : bootE (result Cluster)
| BCreateOrUpdateCluster (mutate : Cluster -> Cluster) (cluster : Cluster) : bootE (option error)
| BPanic : bootE Empty_set.

Section bootstrap.
Context {Libs : ClusterLibs} {HC : StateCodec}.
Variable now : Z.
Variable map_order : strmap -> list (string * string).
Local Abbreviation P := (prog bootE).
Definition boot_panic {A} : P A := PVis BPanic (fun e : Empty_set => match e with end).

(** [controllerutil.SetOwnerReference] inside a mutate function *)
Definition owned_account (secret : Secret) (sa : ServiceAccount) : ServiceAccount * option error :=
  match SetOwnerReference "Secret" (get_meta secret) (get_meta sa) with
  | Err e => (sa, Some e)
  | Ok owners => (mk_sa (with_owners owners (sa_meta sa)), None)
  end.
Definition owned_secret (cluster : Cluster) (secret : Secret) : Secret * option error :=
  match SetOwnerReference "Cluster" (get_meta cluster) (get_meta secret) with
  | Err e => (secret, Some e)
  | Ok owners => (set_meta (with_owners owners (get_meta secret)) secret, None)
  end.

(** The kubeconfig of an OIDC Secret. *)
Definition oidc_helper (secret : Secret) (cert token : string) : KubeConfigHelper :=
  mk_helper (default "" (GetAnnotations secret !! SecretAPIServerURLAnnotation)) cert token
    ("system:serviceaccount:" +:+ GetNamespace secret +:+ ":" +:+ GetName secret) (GetNamespace secret) "" "" None None.
Definition with_kubeconfig (kubeconfig : string) (secret : Secret) : Secret :=
  SetAnnotations (<[SecretOIDCConfigGeneratedOnAnnotation := format_now now]> (GetAnnotations secret))
    (mk_secret (secret_meta secret) (secret_Type secret)
       (<[GreenHouseKubeConfigKey := Some kubeconfig]> (secret_Data secret))).
Definition createKubeConfigKey (secret : Secret) : P (option error) :=
  match DecodeString (secret_value secret SecretAPIServerCAKey) with
  | Err e => mret (Some (wrap_error "failed decoding certificate data: " e))
  | Ok certDecoded =>
      r ← trigger (BCreateToken (key_of secret) [OIDCAudience] 600);
      match r with
      | Err e => mret (Some (wrap_error "failed creating token request for OIDC config: " e))
      | Ok (token, _) =>
          match clientcmd_Write (RestConfigToAPIConfig (oidc_helper secret certDecoded token) (GetName secret)) with
          | Err e => mret (Some (wrap_error ("failed to generate kubeconfig for cluster " +:+ GetName secret +:+ ": ") e))
          | Ok kubeconfig =>
              if bool_decide (secret_Data secret = ∅) || bool_decide (GetAnnotations secret = ∅) then boot_panic
              else
                r ← trigger (BUpdateSecret (with_kubeconfig kubeconfig secret));
                mret (match r with Err e => Some e | Ok _ => None end)
          end
      end
  end.
Definition compareCAWithKubeConfigCA (secret : Secret) : result bool :=
  g ← NewRestClientGetterFromSecret secret (GetNamespace secret);
  restConfig ← getter_ToRESTConfig g;
  match DecodeString (secret_value secret SecretAPIServerCAKey) with
  | Err e => Err (wrap_error "failed decoding certificate data from secret: " e)
  | Ok secretCertBytes => Ok (bool_decide (secretCertBytes = rest_CAData restConfig))
  end.

(** ** The Cluster *)
Definition getCluster (kubeConfigSecret : Secret) : P (Cluster * option error) :=
  r ← trigger (BGetCluster (key_of kubeConfigSecret));
  let empty := mk_cluster (named "" "") (mk_cluster_spec "" 0) (mk_cluster_status "" None [] None) in
  mret (match r with Err e => (empty, ignore_not_found (Some e)) | Ok cluster => (cluster, None) end).
Definition connectivity (secret : Secret) (annotations : strmap) : strmap :=
  if bool_decide (secret_Type secret = SecretTypeKubeConfig)
  then <[ClusterConnectivityAnnotation := ClusterConnectivityKubeconfig]> annotations
  else if bool_decide (secret_Type secret = SecretTypeOIDCConfig)
  then <[ClusterConnectivityAnnotation := ClusterConnectivityOIDC]> annotations
  else annotations.
Definition set_name (k : objkey) (cluster : Cluster) : Cluster :=
  let m := cluster_meta cluster in
  set_meta (mk_meta (key_name k) (key_namespace k) (om_uid m) (om_generation m) (om_labels m)
              (om_annotations m) (om_finalizers m) (om_owners m) (om_deletion m)) cluster.
Definition mutate_cluster (kubeConfigSecret : Secret) (annotations : strmap) (cluster : Cluster) : Cluster :=
  let cluster := SetAnnotations annotations cluster in
  let cluster := mk_cluster (cluster_meta cluster)
                   (mk_cluster_spec ClusterAccessModeDirect (MaxTokenValidity (cluster_Spec cluster)))
                   (cluster_Status cluster) in
  Apply (map_order (GetLabels kubeConfigSecret)) kubeConfigSecret cluster.
Definition createOrUpdateCluster (cluster : Cluster) (kubeConfigSecret : Secret) : P (option error) :=
  if bool_decide (GetDeletionTimestamp cluster <> None) then mret None
  else
    let cluster := set_name (key_of kubeConfigSecret) cluster in
    trigger (BCreateOrUpdateCluster
      (mutate_cluster kubeConfigSecret (connectivity kubeConfigSecret (GetAnnotations cluster))) cluster).
Definition reconcileCluster (kubeConfigSecret : Secret) : P (option error) :=
  '(cluster, err) ← getCluster kubeConfigSecret;
  match err with
  | Some e => mret (Some e)
  | None => createOrUpdateCluster cluster kubeConfigSecret
  end.
Definition ensureOwnerReferences (kubeConfigSecret : Secret) : P (option error) :=
  r ← trigger (BGetCluster (key_of kubeConfigSecret));
  match r with
  | Err e => mret (Some e)
  | Ok cluster =>
      if bool_decide (GetDeletionTimestamp cluster <> None) then mret None
      else
        '(_, (_, err)) ← translate (fun _ => BSecret) (CreateOrPatch (owned_secret cluster) kubeConfigSecret);
        mret err
  end.

(** ** The pass *)
Definition needs_kubeconfig (secret : Secret) : bool :=
  bool_decide (GetAnnotations secret !! SecretOIDCConfigGeneratedOnAnnotation = None) ||
  negb (IsSecretContainsKey secret GreenHouseKubeConfigKey).
(** What a pass does before it registers the Cluster: [Some]: the pass ends. *)
Definition reconcile_oidc (secret : Secret) : P (option (ctrl_result * option error)) :=
  if needs_kubeconfig secret then
    '(_, (_, err)) ← translate (fun _ => BServiceAccount)
       (CreateOrPatch (owned_account secret) (mk_sa (named (GetName secret) (GetNamespace secret))));
    match err with
    | Some e => mret (Some (ctrl_done, Some (wrap_error "failed creating service account for OIDC config: " e)))
    | None => err ← createKubeConfigKey secret; mret (Some (ctrl_done, err))
    end
  else
    match compareCAWithKubeConfigCA secret with
    | Err e => mret (Some (ctrl_done, Some (wrap_error "failed to create rest client from secret: " e)))
    | Ok false => err ← createKubeConfigKey secret; mret (Some (ctrl_done, err))
    | Ok true => mret None
    end.
Definition bootstrap_Reconcile (k : objkey) : P (ctrl_result * option error) :=
  r ← trigger (BSecret (KubeGet k));
  match r with
  | Err e => mret (ctrl_done, ignore_not_found (Some e))
  | Ok kubeConfigSecret =>
      stop ← (if is_oidc kubeConfigSecret then reconcile_oidc kubeConfigSecret else mret None);
      match stop with
      | Some r => mret r
      | None =>
          err ← reconcileCluster kubeConfigSecret;
          match err with
          | Some e => mret (ctrl_done, Some e)
          | None =>
              err ← ensureOwnerReferences kubeConfigSecret;
              mret (match err with
                    | Some e => (ctrl_done, Some e)
                    | None => (mk_ctrl_result false DefaultRequeueInterval, None)
                    end)
          end
      end
  end.
(** The watches. *)
Definition secret_predicate : predicate Secret :=
  NewPredicateFuncs (fun o => match o with
    | Some secret => slices_contains [SecretTypeKubeConfig; SecretTypeOIDCConfig] (secret_Type secret)
    | None => false end).
Definition enqueueSecretForCluster (o : option Cluster) : list objkey :=
  match o with
  | None => []
  | Some cluster => if bool_decide (GetDeletionTimestamp cluster <> None) then [] else [key_of cluster]
  end.
End bootstrap.

(** ** base64: the decoder fails exactly where the webhook's check does *)
Lemma index_of_member c s n : is_Some (index_of c s n) <-> char_in c s = true.
Proof.
  revert n. induction s as [|c' s IH]; intros n; cbn; [split; [by intros []|done]|].
  rewrite (Ascii.eqb_sym c' c). destruct (Ascii.eqb c c'); cbn; [split; eauto|]. apply IH.
Qed.
Lemma base64_value_char c : base64_char c = match base64_value c with Some _ => true | None => false end.
Proof.
  unfold base64_char, base64_value. pose proof (index_of_member c base64_alphabet 0) as H.
  destruct (index_of _ _ _), (char_in c base64_alphabet); try done; [by destruct H as [-> _]; eauto|].
  destruct H as [_ H]. by destruct (H eq_refl).
Qed.
Lemma base64_groups_bytes l :
  base64_groups l = match base64_bytes l with Some _ => true | None => false end.
Proof.
  revert l. fix IH 1. intros l. destruct l as [|a [|b [|c [|d l]]]]; [done..|]. cbn [base64_groups base64_bytes].
  rewrite !base64_value_char. destruct (base64_value a), (base64_value b); cbn [andb mbind option_bind]; [|done..].
  destruct (base64_pad c); [by destruct (_ && _)|].
  destruct (base64_value c); cbn [andb mbind option_bind]; [|done].
  destruct (base64_pad d); [by destruct (bool_decide _)|].
  destruct (base64_value d); cbn [andb mbind option_bind]; [|done]. rewrite IH. by destruct (base64_bytes l).
Qed.
Lemma DecodeString_checked s : base64_DecodeString s = None <-> exists bytes, DecodeString s = Ok bytes.
Proof.
  unfold base64_DecodeString, DecodeString. rewrite base64_groups_bytes.
  destruct (base64_bytes _); split; eauto; [done|]. by intros [].
Qed.

(** ** Composition with the webhook of Secrets *)
Section admitted.
Context {Libs : ClusterLibs} {HC : StateCodec} {Url : UrlParser}.
Variable now : Z.
Variable map_order : strmap -> list (string * string).
Definition admitted (secret : Secret) : Prop :=
  secret_Type secret = SecretTypeOIDCConfig -> validateGreenhouseOIDCType secret = None.
(** Anything is answered, but a Secret that is read was admitted. *)
Definition boot_env (u : unit) X (e : bootE X) : X -> unit -> Prop :=
  match e in bootE X return X -> unit -> Prop with
  | BSecret e => match e in kubeE _ X return X -> unit -> Prop with
                 | KubeGet _ => fun r _ => match r with Ok secret => admitted secret | Err _ => True end
                 | _ => fun _ _ => True
                 end
  | _ => fun _ _ => True
  end.
Definition not_panic X (e : bootE X) : Prop := match e with BPanic => False | _ => True end.
Lemma oidc_maps secret : oidc_ok secret -> secret_Data secret <> ∅ /\ GetAnnotations secret <> ∅.
Proof. intros (url & cert & Hu & _ & Hc & _). split; intros He; by rewrite He in *. Qed.
Lemma createKubeConfigKey_safe secret : oidc_ok secret -> all_calls not_panic (createKubeConfigKey now secret).
Proof.
  intros [Hd Ha]%oidc_maps. unfold createKubeConfigKey.
  rewrite (bool_decide_eq_false_2 _ Hd), (bool_decide_eq_false_2 _ Ha). cbn [orb]. calls_steps; done.
Qed.
Lemma reconcile_oidc_safe secret : oidc_ok secret -> all_calls not_panic (reconcile_oidc now secret).
Proof.
  intros Hs. pose proof (createKubeConfigKey_safe secret Hs) as Hc. unfold reconcile_oidc.
  destruct (needs_kubeconfig secret).
  - calls_step; [by apply all_calls_translate, all_calls_any|]. destruct a as [o [res [e|]]]; [calls_step|].
    calls_step; [done|calls_step].
  - destruct (compareCAWithKubeConfigCA secret) as [[]|]; [calls_step| |calls_step]. calls_step; [done|calls_step].
Qed.
Lemma registration_safe secret :
  all_calls not_panic (reconcileCluster map_order secret) /\ all_calls not_panic (ensureOwnerReferences secret).
Proof.
  unfold reconcileCluster, getCluster, createOrUpdateCluster, ensureOwnerReferences. split.
  - calls_steps; done.
  - calls_step; [by calls_step|]. destruct a as [cl|e]; [|calls_step]. calls_step; [calls_step|].
    calls_step; [by apply all_calls_translate, all_calls_any|]. destruct a as [o [res err]]. calls_step.
Qed.
(** The bootstrap controller writes to no nil map: an OIDC Secret that the webhook
    admitted has the annotation and the data the controller builds the kubeconfig from,
    whatever the API server answers otherwise. *)
Theorem bootstrap_never_panics k : safe boot_env not_panic (bootstrap_Reconcile now map_order k) tt.
Proof.
  unfold bootstrap_Reconcile. apply safe_bind; [by split|]. apply wp_trigger. intros r [] Hr.
  destruct r as [secret|e]; [|done].
  assert (Hs : all_calls not_panic (if is_oidc secret then reconcile_oidc now secret else mret None)).
  { unfold is_oidc. destruct (bool_decide_reflect (secret_Type secret = SecretTypeOIDCConfig)) as [Ht|]; [|done].
    by apply reconcile_oidc_safe, validateGreenhouseOIDCType_None, Hr. }
  apply safe_all_calls. calls_step; [done|]. destruct a as [r|]; [calls_step|].
  calls_step; [apply registration_safe|]. destruct a; [calls_step|].
  calls_step; [apply registration_safe|calls_step].
Qed.
End admitted.

(** ** One pass and the next *)
Section settles.
Context {Libs : ClusterLibs}.
Variable now : Z.
(** [clientcmd] reads what it wrote: the server, authority and token of the current context. *)
Definition clientcmd_reads_written : Prop :=
  forall cfg kubeconfig ns ctx c auth, clientcmd_Write cfg = Ok kubeconfig ->
    api_Contexts cfg !! api_CurrentContext cfg = Some ctx ->
    api_Clusters cfg !! ax_Cluster ctx = Some c -> api_AuthInfos cfg !! ax_AuthInfo ctx = Some auth ->
    ac_Server c <> "" ->
    clientcmd_ClientConfig kubeconfig ns = Ok (mk_rest (ac_Server c) (ac_CertificateAuthorityData c) (aa_Token auth)).
Lemma written_helper kc helper name ns :
  clientcmd_reads_written -> h_Host helper <> "" -> h_BearerToken helper <> "" ->
  h_ClientCertData helper = None -> clientcmd_Write (RestConfigToAPIConfig helper name) = Ok kc ->
  clientcmd_ClientConfig kc ns = Ok (mk_rest (h_Host helper) (h_CAData helper) (h_BearerToken helper)).
Proof.
  intros Hlaw Hh Ht Hc Hw. unfold RestConfigToAPIConfig in Hw. rewrite Hc, bool_decide_eq_false_2 in Hw by done.
  cbn [negb] in Hw. eapply (Hlaw _ _ ns) in Hw; [|apply lookup_singleton_eq..|done]. exact Hw.
Qed.
Lemma getter_kubeconfig secret ns kc :
  secret_Type secret = SecretTypeOIDCConfig -> secret_Data secret !! GreenHouseKubeConfigKey = Some (Some kc) ->
  exists g, NewRestClientGetterFromSecret secret ns = Ok g /\ g_Secret g = secret /\
    kubeConfigGetterFromSecret secret = Ok kc.
Proof.
  intros Ht Hd. assert (Hv : ValidateSecretForKubeConfig secret = None).
  { unfold ValidateSecretForKubeConfig, IsSecretContainsKey. by rewrite Hd, Ht. }
  unfold NewRestClientGetterFromSecret. rewrite Hv. eexists. split; [done|]. split; [done|].
  apply kubeConfigGetterFromSecret_spec. auto.
Qed.
(** The Secret of an update. *)
Definition updated (c : call bootE) : option Secret :=
  match c with Call e _ => match e with BUpdateSecret s => Some s | _ => None end end.
(** The kubeconfig a pass writes into an OIDC Secret is accepted by the next one: it asks
    for no kubeconfig, the certificate it reads back is the one of the Secret, and so
    the pass goes on to register the Cluster instead of requesting another token. *)
Theorem createKubeConfigKey_settles secret (Hread : clientcmd_reads_written)
    (Htype : secret_Type secret = SecretTypeOIDCConfig)
    (Hurl : default "" (GetAnnotations secret !! SecretAPIServerURLAnnotation) <> "") :
  wp (traced any_answer) (createKubeConfigKey now secret) (fun h err =>
    forall written stored, Call (BUpdateSecret written) stored ∈ h ->
    exists token expiry, Call (BCreateToken (key_of secret) [OIDCAudience] 600) (Ok (token, expiry)) ∈ h /\
      key_of written = key_of secret /\
      (token <> "" -> needs_kubeconfig written = false /\ compareCAWithKubeConfigCA written = Ok true /\
         reconcile_oidc now written = mret None)) [].
Proof.
  unfold createKubeConfigKey. destruct (DecodeString _) as [cert|e] eqn:Hcert; [|apply wp_ret; set_solver].
  do 2 wp_step. destruct Hx as [_ ->]. cbn [app].
  destruct x as [[token expiry]|e]; [|apply wp_ret; intros ? ? H; set_solver].
  destruct (clientcmd_Write _) as [kc|e] eqn:Hw; [|apply wp_ret; intros ? ? H; set_solver].
  wp_step; [unfold boot_panic; apply wp_vis; intros []|].
  do 2 wp_step. destruct Hx as [_ ->]. apply wp_ret. intros written stored Hin.
  apply elem_of_app in Hin as [Hin|Hin]; [set_solver|].
  apply list_elem_of_singleton, (f_equal updated) in Hin. injection Hin as ->.
  exists token, expiry. split; [set_solver|]. split; [done|]. intros Htok.
  set (s' := with_kubeconfig now kc secret).
  assert (Hn : needs_kubeconfig s' = false).
  { unfold needs_kubeconfig, s', with_kubeconfig, IsSecretContainsKey. cbn. by rewrite !lookup_insert_eq. }
  assert (Hcmp : compareCAWithKubeConfigCA s' = Ok true).
  { unfold compareCAWithKubeConfigCA.
    destruct (getter_kubeconfig s' (GetNamespace s') kc) as (g & -> & Hg & Hk); [done|by cbn; rewrite lookup_insert_eq|].
    cbn [mbind result_mbind]. unfold getter_ToRESTConfig, ClientConfig. rewrite Hg, Hk.
    rewrite (written_helper kc (oidc_helper secret cert token) _ (g_Namespace g) Hread Hurl Htok eq_refl Hw). cbn [rest_CAData h_CAData oidc_helper].
    replace (secret_value s' SecretAPIServerCAKey) with (secret_value secret SecretAPIServerCAKey)
      by (unfold secret_value, s', with_kubeconfig; cbn; by rewrite lookup_insert_ne).
    rewrite Hcert. cbn [mbind result_mbind rest_CAData]. by rewrite bool_decide_eq_true_2. }
  split; [done|]. split; [done|]. unfold reconcile_oidc. by rewrite Hn, Hcmp.
Qed.
End settles.

(** ** What is stored *)
Record boot_world := mk_boot_world { bw_secrets : gmap objkey Secret; bw_clusters : gmap objkey Cluster }.
Section registers.
Context {Libs : ClusterLibs} {HC : StateCodec} {HCL : StateCodecLaws}.
Variable now : Z.
Variable map_order : strmap -> list (string * string).
(** What the server keeps of what it was sent. *)
Definition keeps_secret (o o' : Secret) : Prop := om_owners (secret_meta o') = om_owners (secret_meta o).
Definition keeps_cluster (o o' : Cluster) : Prop :=
  key_of o' = key_of o /\ cluster_Spec o' = cluster_Spec o /\ GetLabels o' = GetLabels o.
(** [CreateOrUpdate]: the stored object, or else the given one, mutated; nothing on failure. *)
Definition boot_step (w : boot_world) X (e : bootE X) : X -> boot_world -> Prop :=
  match e in bootE X return X -> boot_world -> Prop with
  | BSecret e => fun x w' => exists s, kube_step keeps_secret (bw_secrets w) _ e x s /\ w' = mk_boot_world s (bw_clusters w)
  | BUpdateSecret s => fun x w' => exists st, written keeps_secret s (bw_secrets w) x st /\ w' = mk_boot_world st (bw_clusters w)
  | BGetCluster k => fun x w' => w' = w /\
      match x with
      | Ok o => bw_clusters w !! k = Some o /\ key_of o = k
      | Err e => err_reason e = NotFound -> bw_clusters w !! k = None
      end
  | BCreateOrUpdateCluster mutate o => fun err w' =>
      match err with
      | Some _ => w' = w
      | None => exists o', keeps_cluster (mutate (default o (bw_clusters w !! key_of o))) o' /\
          w' = mk_boot_world (bw_secrets w) (<[key_of o := o']> (bw_clusters w))
      end
  | _ => fun _ w' => w' = w
  end.
Lemma boot_secret_lens {A} (p : prog (kubeE Secret) A) Q w :
  wp (kube_step keeps_secret) p (fun s a => Q (mk_boot_world s (bw_clusters w)) a) (bw_secrets w) ->
  wp boot_step (translate (fun _ => BSecret) p) Q w.
Proof.
  intros H. apply wp_translate. by eapply (wp_lens _ _ bw_secrets (fun s w => mk_boot_world s (bw_clusters w)));
    [..|exact H]; try by intros []; try by intros ? []; try by intros ? ? [].
Qed.
Lemma mutate_cluster_spec secret annotations c :
  sound_order (map_order (GetLabels secret)) secret ->
  let c' := mutate_cluster map_order secret annotations c in
  AccessMode (cluster_Spec c') = ClusterAccessModeDirect /\
  (forall l v, selected (labelKeysToPropagate secret) l = true -> GetLabels secret !! l = Some v ->
     GetLabels c' !! l = Some v).
Proof.
  intros (Ho & Hl & Ha). unfold mutate_cluster.
  set (dst := mk_cluster _ _ _). cbv zeta. split.
  - unfold Apply. destruct (applyLabels _ _ _ _ _), (applyAnnotations _ _ _ _). by case_if.
  - intros l v Hs Hv. destruct (Apply_spec (map_order (GetLabels secret)) secret dst Ho Hl Ha) as [H _].
    rewrite H, Hs, Hv. done.
Qed.
(** The Cluster registered for a Secret. *)
Definition registered (secret : Secret) (c : Cluster) : Prop :=
  AccessMode (cluster_Spec c) = ClusterAccessModeDirect /\
  (forall l v, selected (labelKeysToPropagate secret) l = true -> GetLabels secret !! l = Some v ->
     GetLabels c !! l = Some v).
Lemma reconcileCluster_registers secret w :
  sound_order (map_order (GetLabels secret)) secret ->
  wp boot_step (reconcileCluster map_order secret) (fun w' err =>
    bw_secrets w' = bw_secrets w /\ only_at (key_of secret) (bw_clusters w) (bw_clusters w') /\
    (err = None -> exists c, bw_clusters w' !! key_of secret = Some c /\
       (registered secret c \/ GetDeletionTimestamp c <> None /\ w' = w))) w.
Proof.
  intros Hord. unfold reconcileCluster, getCluster. wp_step. wp_step. wp_step. destruct Hx as [-> Hx]. apply wp_ret.
  assert (Hsame : bw_secrets w = bw_secrets w /\ only_at (key_of secret) (bw_clusters w) (bw_clusters w)) by done.
  assert (Hupdate : forall c, GetDeletionTimestamp c = None ->
    (bw_clusters w !! key_of secret = Some c \/ bw_clusters w !! key_of secret = None) ->
    wp boot_step (createOrUpdateCluster map_order c secret) (fun w' err =>
      bw_secrets w' = bw_secrets w /\ only_at (key_of secret) (bw_clusters w) (bw_clusters w') /\
      (err = None -> exists c, bw_clusters w' !! key_of secret = Some c /\
         (registered secret c \/ GetDeletionTimestamp c <> None /\ w' = w))) w).
  { intros c Hd Hst. unfold createOrUpdateCluster. rewrite Hd, bool_decide_eq_false_2 by tauto.
    apply wp_trigger. intros [e|] w' Hw; [cbn in Hw; subst w'; by destruct Hsame|]. destruct Hw as (o' & (_ & Hspec & Hl) & ->).
    assert (Hk : forall c, key_of (set_name (key_of secret) c) = key_of secret) by done. rewrite Hk in *.
    split; [done|]. split; [by intros k' Hk'; cbn; rewrite lookup_insert_ne|]. intros _. exists o'.
    cbn. rewrite lookup_insert_eq. split; [done|]. left. unfold registered. rewrite Hspec, Hl.
    by apply mutate_cluster_spec. }
  destruct x as [c|e].
  - destruct Hx as [Hc _]. destruct (GetDeletionTimestamp c) as [t|] eqn:Hd; [|by apply Hupdate; auto].
    unfold createOrUpdateCluster. rewrite bool_decide_eq_true_2 by (by rewrite Hd). apply wp_ret.
    destruct Hsame as [? ?]. split; [done|]. split; [done|]. intros _. exists c. split; [done|]. right. by rewrite Hd.
  - destruct (ignore_not_found (Some e)) as [e'|] eqn:He; [by apply wp_ret|]. apply Hupdate; [done|]. right.
    apply Hx. unfold ignore_not_found in He. by destruct (is_not_found (Some e)) eqn:Hn; [apply bool_decide_eq_true in Hn|].
Qed.
(** The Secret is owned by the Cluster, so that it goes with it. *)
Definition owned_by_cluster (c : Cluster) (s : Secret) : Prop :=
  exists before, SetOwnerReference "Cluster" (get_meta c) before = Ok (om_owners (secret_meta s)).
Lemma ensureOwnerReferences_owns secret w :
  wp boot_step (ensureOwnerReferences secret) (fun w' err =>
    bw_clusters w' = bw_clusters w /\ only_at (key_of secret) (bw_secrets w) (bw_secrets w') /\
    (err = None -> exists c, bw_clusters w !! key_of secret = Some c /\
       (GetDeletionTimestamp c = None -> exists s, bw_secrets w' !! key_of secret = Some s /\ owned_by_cluster c s))) w.
Proof.
  unfold ensureOwnerReferences. do 2 wp_step. destruct Hx as [-> Hx]. destruct x as [c|e]; [|by apply wp_ret].
  destruct Hx as [Hc _]. destruct (bool_decide_reflect (GetDeletionTimestamp c <> None)) as [Hd|Hd].
  { apply wp_ret. split; [done|]. split; [done|]. intros _. by exists c. }
  wp_step. apply boot_secret_lens.
  eapply wp_mono; [|apply (CreateOrPatch_ensures keeps_secret (owned_secret c) (fun o => ltac:(unfold owned_secret;
    by destruct (SetOwnerReference _ _ _))) (owned_by_cluster c))].
  - intros s [o [res err]] [Ho Hs]. apply wp_ret. split; [done|]. split; [done|]. intros ->. exists c. split; [done|].
    intros _. by apply Hs.
  - intros o. unfold owned_secret, owned_by_cluster. destruct (SetOwnerReference _ _ (get_meta o)) eqn:He; [|done].
    intros _. by exists (get_meta o).
  - intros o o' Hk (m & Hm). exists m. by rewrite Hk.
Qed.
Definition boot_frame (k : objkey) (w w' : boot_world) : Prop :=
  only_at k (bw_secrets w) (bw_secrets w') /\ only_at k (bw_clusters w) (bw_clusters w').
Lemma reconcile_oidc_frame secret w :
  wp boot_step (reconcile_oidc now secret) (fun w' r =>
    boot_frame (key_of secret) w w' /\ match r with Some (res, _) => res = ctrl_done | None => w' = w end) w.
Proof.
  assert (Hf : boot_frame (key_of secret) w w) by done.
  assert (Hc : wp boot_step (createKubeConfigKey now secret) (fun w' _ => boot_frame (key_of secret) w w') w).
  { unfold createKubeConfigKey. destruct (DecodeString _); [|by apply wp_ret].
    do 2 wp_step. cbn in Hx. subst. destruct x as [[token expiry]|e]; [|by apply wp_ret].
    destruct (clientcmd_Write _); [|by apply wp_ret]. wp_step; [by apply wp_vis; intros []|].
    do 2 wp_step. destruct Hx as (st & Hw & ->). apply wp_ret. split; [|done].
    destruct x as [o|e]; cbn in Hw |- *; [|by subst]. destruct Hw as [_ ->]. intros k' Hk'. by rewrite lookup_insert_ne. }
  unfold reconcile_oidc. wp_step.
  - wp_step. eapply (wp_mono _ _ (fun w' _ => w' = w)).
    2: { apply wp_translate, wp_inv; [|done]. by intros w1 X e x w2 ->. }
    intros w' [o [res err]] ->. destruct err; [by apply wp_ret|]. wp_step.
    eapply wp_mono; [|exact Hc]. intros w' err Hw. by apply wp_ret.
  - wp_step; [wp_step|]; [by apply wp_ret| |by apply wp_ret].
    wp_step. eapply wp_mono; [|exact Hc]. intros w' err Hw. by apply wp_ret.
Qed.
(** A pass touches the Secret and the Cluster of its own name only; when it runs to its
    end the Cluster is registered with the labels the Secret declares and owns
    the Secret, or is being deleted and left alone. *)
Theorem bootstrap_Reconcile_registers k w
    (Hord : forall secret, bw_secrets w !! k = Some secret -> sound_order (map_order (GetLabels secret)) secret) :
  wp boot_step (bootstrap_Reconcile now map_order k) (fun w' '(res, err) =>
    boot_frame k w w' /\
    (err = None -> RequeueAfter res = DefaultRequeueInterval -> exists secret c,
       bw_secrets w !! k = Some secret /\ bw_clusters w' !! k = Some c /\
       (registered secret c \/ GetDeletionTimestamp c <> None /\ bw_clusters w' = bw_clusters w) /\
       (GetDeletionTimestamp c = None -> exists s, bw_secrets w' !! k = Some s /\ owned_by_cluster c s))) w.
Proof.
  unfold bootstrap_Reconcile. do 2 wp_step. destruct Hx as (st & [-> Hx] & ->).
  replace (mk_boot_world _ _) with w by by destruct w.
  assert (Hf : boot_frame k w w) by done. destruct x as [secret|e]; [|by apply wp_ret].
  destruct Hx as [Hs <-]. specialize (Hord secret Hs). apply wp_bind.
  eapply (wp_mono _ _ (fun w' r => boot_frame (key_of secret) w w' /\
     match r with Some (res, _) => res = ctrl_done | None => w' = w end)).
  2: { destruct (is_oidc secret); [apply reconcile_oidc_frame|by apply wp_ret]. }
  intros w1 [[res err]|] [Hw1 H1]; [apply wp_ret; split; [done|]; by subst|]. subst w1. wp_step.
  eapply wp_mono; [|by apply reconcileCluster_registers]. intros w1 err (Hs1 & Hc1 & Hr).
  destruct err as [e|]; [apply wp_ret; split; [|done]; split; [by rewrite Hs1|done]|].
  destruct (Hr eq_refl) as (c & Hc & Hreg). wp_step.
  eapply wp_mono; [|apply ensureOwnerReferences_owns]. intros w2 err (Hc2 & Hs2 & Ho). rewrite Hs1 in Hs2.
  assert (Hf2 : boot_frame (key_of secret) w w2) by (split; [done|by rewrite Hc2]).
  destruct err; apply wp_ret; (split; [done|]); [done|]. intros _ _. exists secret, c.
  destruct (Ho eq_refl) as (c' & Hc' & Hown). rewrite Hc in Hc'. injection Hc' as <-.
  split; [done|]. rewrite Hc2. split; [done|]. split; [|done]. destruct Hreg as [?|[? ->]]; auto.
Qed.
End registers.

(** ** Instances *)
Module BootRun.
Import PropagationRun.
(** clientcmd for one kubeconfig. *)
Definition known_cluster : ApiCluster := mk_api_cluster "https://api.example" "abc" "" "".
Definition known_config (cfg : ApiConfig) : bool :=
  match api_Contexts cfg !! api_CurrentContext cfg with
  | Some ctx =>
      match api_Clusters cfg !! ax_Cluster ctx, api_AuthInfos cfg !! ax_AuthInfo ctx with
      | Some (mk_api_cluster server ca _ _), Some auth =>
          bool_decide (server = "https://api.example" /\ ca = "abc" /\ aa_Token auth = "t1")
      | _, _ => false
      end
  | None => false
  end.
#[local] Instance libs : ClusterLibs := {|
  clientcmd_Write cfg := if known_config cfg then Ok "kubeconfig t1" else Err (new_error "cannot write");
  clientcmd_ClientConfig s _ := if bool_decide (s = "kubeconfig t1") then Ok (mk_rest "https://api.example" "abc" "t1")
                                else Err (new_error "cannot read");
  jose_ParseSigned _ := None;
  Unmarshal_claims _ := None;
  format_now _ := "2024-01-01 00:00:00";
  SetOwnerReference kind owner o := Ok (om_owners o ++ [mk_ref kind (om_name owner) (om_uid owner) false]) |}.
Lemma libs_read_written : clientcmd_reads_written.
Proof.
  intros cfg kc ns ctx [server ca tls proxy] auth Hw Hx Hc Ha _. cbn in Hw. unfold known_config in Hw.
  rewrite Hx, Hc, Ha in Hw. destruct (bool_decide_reflect (server = "https://api.example" /\ ca = "abc" /\ aa_Token auth = "t1"))
    as [(-> & -> & Ht)|]; [|done]. injection Hw as <-. cbn. by rewrite Ht.
Qed.
Definition oidc_secret : Secret :=
  mk_secret (with_labels {["region" := "eu"]}
      (with_annotations {[SecretAPIServerURLAnnotation := "https://api.example"; PropagateLabelsAnnotation := "region"]}
         (named "c1" "org")))
    SecretTypeOIDCConfig {[SecretAPIServerCAKey := Some "YWJj"]}.
(** A server that hands out the token and stores what it is sent. *)
Definition server X (e : bootE X) : option X :=
  match e in bootE X return option X with
  | BCreateToken _ _ _ => Some (Ok ("t1", Some 9%Z))
  | BUpdateSecret s => Some (match compareCAWithKubeConfigCA s with Ok true => Ok s | _ => Err (new_error "mismatch") end)
  | _ => None
  end.
Example kubeconfig_written : eval server (createKubeConfigKey 7 oidc_secret) = Some None.
Proof. vm_compute. reflexivity. Qed.
Lemma createKubeConfigKey_settles_witness :
  wp (traced any_answer) (createKubeConfigKey 7 oidc_secret) (fun h err =>
    forall written stored, Call (BUpdateSecret written) stored ∈ h ->
    exists token expiry, Call (BCreateToken (mk_key "org" "c1") [OIDCAudience] 600) (Ok (token, expiry)) ∈ h /\
      (token <> "" -> compareCAWithKubeConfigCA written = Ok true)) [].
Proof.
  eapply wp_mono; [|apply (createKubeConfigKey_settles 7 oidc_secret libs_read_written);
                    [reflexivity|vm_compute; discriminate]].
  intros h err H written stored Hin. destruct (H written stored Hin) as (token & expiry & Ht & _ & Hs).
  exists token, expiry. split; [exact Ht|]. intros Hne. apply Hs, Hne.
Defined.
Definition ready_secret : Secret := with_kubeconfig 7 "kubeconfig t1" oidc_secret.
Definition ready_world : boot_world := mk_boot_world {[mk_key "org" "c1" := ready_secret]} ∅.
Lemma ready_sound secret : bw_secrets ready_world !! mk_key "org" "c1" = Some secret ->
  sound_order (map_to_list (GetLabels secret)) secret.
Proof.
  intros H. injection H as <-. split; [done|]. split; apply ascii_keys; vm_compute; reflexivity.
Qed.
Lemma bootstrap_Reconcile_registers_witness :
  wp boot_step (bootstrap_Reconcile 7 map_to_list (mk_key "org" "c1")) (fun w' '(res, err) =>
    err = None -> RequeueAfter res = DefaultRequeueInterval -> exists c,
      bw_clusters w' !! mk_key "org" "c1" = Some c /\
      (GetLabels c !! "region" = Some "eu" \/ GetDeletionTimestamp c <> None)) ready_world.
Proof.
  eapply wp_mono; [|apply (bootstrap_Reconcile_registers 7 map_to_list (mk_key "org" "c1") ready_world ready_sound)].
  intros w' [res err] [_ H] He Hr. destruct (H He Hr) as (secret & c & Hs & Hc & Hreg & _). exists c. split; [exact Hc|].
  injection Hs as <-. destruct Hreg as [[_ Hl]|[Hd _]]; [left|right; exact Hd]. apply Hl; vm_compute; reflexivity.
Defined.
End BootRun.
