(* ===== verification/ServiceProxy.v ===== *)
(** * ServiceProxy: the reverse proxy to exposed services
      ([cmd/service-proxy/proxy.go], [cmd/service-proxy/instrumentation.go],
      [internal/common/url.go])

    A service a Plugin exposes on a remote cluster is reached under a URL whose
    host names the cluster.  [Reconcile] keeps, per cluster, the transport with the
    cluster's credentials and the routes of the services exposed there; [rewrite]
    directs a request at the service through the API server of its cluster and
    [RoundTrip] sends it with the cluster's transport.  The lock of the
    [ProxyManager] makes each of the three atomic; a request reads the manager
    several times, and the handlers below take the state found each time as an
    argument of its own.

    Parameters: the type of transports and what sending a request answers,
    [clientcmd] and [rest.TransportFor], [url.Parse] and [URL.String],
    [sha256.Sum256] in hexadecimal, and the order in which a Go map is ranged over.
    Logs have no model. *)
From S2P Require Import Prelude Effects Conditions Meta WebhookUtil PluginTypes KubeConfig.
From Stdlib Require Import Ascii.
From stdpp Require Import pretty.

(** ** Exposed URLs *)

(** [strings.Cut] *)
Fixpoint cut (sep s : string) : option (string * string) :=
  match cut_prefix s sep with
  | Some after => Some ("", after)
  | None => match s with
            | EmptyString => None
            | String a s' => (fun p => (String a p.1, p.2)) <$> cut sep s'
            end
  end.
(** [strings.SplitN(s, sep, 2)] *)
Definition SplitN2 (s sep : string) : list string :=
  match cut sep s with Some (before, after) => [before; after] | None => [s] end.

Definition ExtractCluster (host : string) : result string :=
  if has_prefix host "https://" then
    Err (new_error ("invalid host: " +:+ host +:+ ", no protocol expected"))
  else
    match SplitN2 host "." with
    | first :: _ :: _ =>
        match SplitN2 first "--" with
        | cluster :: _ :: _ => Ok cluster
        | _ => Err (new_error ("invalid host: " +:+ host))
        end
    | _ => Err (new_error ("invalid host: " +:+ host))
    end.

Section url.
(** [hex.EncodeToString(sha256.Sum256(data))] *)
Variable sha256_hex : string -> string.
Variable DNSDomain : string.

(** The host part of the URL under which a service is exposed. *)
Definition exposed_host (serviceName : string) (plugin : Plugin) : string :=
  let hashString := sha256_hex (serviceName +:+ "--" +:+ ReleaseNamespace (plugin_Spec plugin)) in
  let subdomain := plugin_ClusterName (plugin_Spec plugin) +:+ "--" +:+
                   String.substring 0 7 hashString in
  subdomain +:+ "." +:+ GetNamespace plugin +:+ "." +:+ DNSDomain.
Definition URLForExposedServiceInPlugin (serviceName : string) (plugin : Plugin) : string :=
  "https://" +:+ exposed_host serviceName plugin.
End url.

(** ** Redirects

    The expression [/api/v1/namespaces/[^/]+/services/[^/]+/proxy/].  A run of
    characters other than the slash ends at the first slash, so that a match is
    found without backtracking. *)
Fixpoint skip_run (s : string) : string :=
  match s with
  | String a s' => if Ascii.eqb a "/"%char then s else skip_run s'
  | EmptyString => ""
  end.
Definition skip_segment (s : string) : option string :=
  match s with
  | String a s' => if Ascii.eqb a "/"%char then None else Some (skip_run s')
  | EmptyString => None
  end.
(** What follows a match at the head of [s]. *)
Definition match_api_proxy (s : string) : option string :=
  s ← cut_prefix s "/api/v1/namespaces/";
  s ← skip_segment s;
  s ← cut_prefix s "/services/";
  s ← skip_segment s;
  cut_prefix s "/proxy/".
(** [apiServerProxyPathRegex.ReplaceAllString(s, "/")]: every step drops a byte of
    [s], so its length is enough fuel ([replace_api_proxy_fuel]). *)
Fixpoint replace_api_proxy (fuel : nat) (s : string) : string :=
  match fuel, s with
  | O, _ => s
  | _, EmptyString => ""
  | S fuel, String a s' =>
      match match_api_proxy s with
      | Some rest => String "/"%char (replace_api_proxy fuel rest)
      | None => String a (replace_api_proxy fuel s')
      end
  end.
Definition strip_api_proxy (s : string) : string := replace_api_proxy (String.length s) s.

(** ** State, requests and responses *)

(** [url.URL]; the parts the proxy does not touch are one field. *)
Record URL := mk_url {
  url_Scheme : string; url_Host : string; url_Path : string; url_Rest : string }.
#[export] Instance URL_eq_dec : EqDecision URL.
Proof. solve_decision. Defined.
Record route := mk_route {
  route_url : URL; route_serviceName : string; route_namespace : string }.
#[export] Instance route_eq_dec : EqDecision route.
Proof. solve_decision. Defined.

Record clusterRoutes (T : Type) := mk_routes { transport : T; routes : gmap string route }.
Arguments mk_routes {T} _ _.
Arguments transport {T} _.
Arguments routes {T} _.
Record ProxyManager (T : Type) := mk_pm {
  pm_clusters : gmap string (clusterRoutes T); dnsDomain : string; debugHost : string }.
Arguments mk_pm {T} _ _ _.
Arguments pm_clusters {T} _.
Arguments dnsDomain {T} _.
Arguments debugHost {T} _.

(** The values the proxy keeps in the context of a request. *)
Record request_context := mk_ctx {
  ctx_cluster : option string; ctx_organization : option string; ctx_name : option string }.
(** [X-Forwarded-For], [-Host] and [-Proto]. *)
Record forwarded := mk_forwarded {
  fwd_For : option string; fwd_Host : option string; fwd_Proto : option string }.
Record http_request := mk_request {
  rq_Method : string;
  rq_Host : string;
  rq_URL : URL;
  rq_RemoteIP : option string;    (* [net.SplitHostPort(RemoteAddr)], when it has one *)
  rq_TLS : bool;
  rq_Forwarded : forwarded;
  rq_Rest : string;               (* the other headers and the body *)
  rq_ctx : request_context
}.
Record http_response := mk_response {
  resp_StatusCode : Z; resp_Header : strmap; resp_Body : string }.

Definition set_url (u : URL) (rq : http_request) : http_request :=
  mk_request (rq_Method rq) (rq_Host rq) u (rq_RemoteIP rq) (rq_TLS rq) (rq_Forwarded rq)
    (rq_Rest rq) (rq_ctx rq).
Definition set_host (h : string) (rq : http_request) : http_request :=
  mk_request (rq_Method rq) h (rq_URL rq) (rq_RemoteIP rq) (rq_TLS rq) (rq_Forwarded rq)
    (rq_Rest rq) (rq_ctx rq).
Definition set_forwarded (f : forwarded) (rq : http_request) : http_request :=
  mk_request (rq_Method rq) (rq_Host rq) (rq_URL rq) (rq_RemoteIP rq) (rq_TLS rq) f
    (rq_Rest rq) (rq_ctx rq).
Definition set_ctx (c : request_context) (rq : http_request) : http_request :=
  mk_request (rq_Method rq) (rq_Host rq) (rq_URL rq) (rq_RemoteIP rq) (rq_TLS rq)
    (rq_Forwarded rq) (rq_Rest rq) c.

(** [httputil.ProxyRequest.SetXForwarded]: the client address of [In] goes after the
    ones [Out] has. *)
Definition SetXForwarded (in_ out : http_request) : http_request :=
  set_forwarded (mk_forwarded
    (match rq_RemoteIP in_ with
     | Some ip => Some (match fwd_For (rq_Forwarded out) with
                        | Some prior => prior +:+ ", " +:+ ip
                        | None => ip
                        end)
     | None => None
     end)
    (Some (rq_Host in_))
    (Some (if rq_TLS in_ then "https" else "http"))) out.

(** ** The proxy manager *)
Inductive proxyE (T RC : Type) : Type -> Type :=
| PGetSecret (k : objkey) : proxyE T RC (result Secret)
| PClientConfig (kubeconfig namespace : string) : proxyE T RC (result RC)
| PTransportFor (cfg : RC) : proxyE T RC (result T)
| PListPlugins (namespace : string) : proxyE T RC (result (list Plugin))
| PSend (t : T) (rq : http_request) : proxyE T RC (result http_response).
Arguments PGetSecret {T RC} k.
Arguments PClientConfig {T RC} kubeconfig namespace.
Arguments PTransportFor {T RC} cfg.
Arguments PListPlugins {T RC} namespace.
Arguments PSend {T RC} t rq.

Section proxy.
Context {T RC : Type}.
Variable rc_Host : RC -> string.
Variable url_Parse : string -> result URL.
Variable url_String : URL -> string.
Variable svc_order : gmap string Service -> list (string * Service).

Local Abbreviation P := (prog (proxyE T RC)).

(** [NewRestClientGetterFromSecret(secret, "")] and its [ToRESTConfig]. *)
Definition ToRESTConfig (secret : Secret) : P (result RC) :=
  match ValidateSecretForKubeConfig secret with
  | Some e => mret (Err e)
  | None =>
      match kubeConfigGetterFromSecret secret with
      | Err e => mret (Err (wrap_error "RestClientGetter has no valid KubeConfig: " e))
      | Ok kubeconfig =>
          r ← trigger (PClientConfig kubeconfig "default");
          mret (match r with
                | Err e => Err (wrap_error "RestClientGetter has no valid KubeConfig: " e)
                | Ok cfg => Ok cfg
                end)
      end
  end.

Definition pluginsForCluster (cluster namespace : string) : P (result (list Plugin)) :=
  r ← trigger (PListPlugins namespace);
  mret (match r with
        | Err e => Err (wrap_error "failed to list plugins: " e)
        | Ok items =>
            Ok (List.filter (fun cfg : Plugin =>
                  bool_decide (GetDeletionTimestamp cfg = None)
                  && bool_decide (plugin_ClusterName (plugin_Spec cfg) = cluster)) items)
        end).

(** The path of a service behind the API server's proxy. *)
Definition service_segment (svc : Service) : string :=
  (if bool_decide (svc_Protocol svc = Some "https") then "https:" else "") +:+
  svc_Name svc +:+ ":" +:+ pretty (svc_Port svc).
Definition service_path (svc : Service) : string :=
  "/api/v1/namespaces/" +:+ svc_Namespace svc +:+ "/services/" +:+ service_segment svc +:+ "/proxy".
Definition route_of (api : URL) (svc : Service) : route :=
  mk_route (mk_url (url_Scheme api) (url_Host api) (service_path svc) (url_Rest api))
    (svc_Name svc) (svc_Namespace svc).

(** The URL under which requests for an exposed service come in. *)
Definition public_url (pm : ProxyManager T) (url : string) : string :=
  if negb (bool_decide (debugHost pm = "")) && negb (bool_decide (dnsDomain pm = ""))
  then ReplaceAll url (dnsDomain pm) (debugHost pm) else url.

Definition add_route (pm : ProxyManager T) (api : URL) (rs : gmap string route)
    (entry : string * Service) : gmap string route :=
  let '(url, svc) := entry in
  let url := public_url pm url in
  if negb (bool_decide (svc_Type svc = ServiceTypeService)) then rs
  else <[url := route_of api svc]> rs.
Definition plugin_routes (pm : ProxyManager T) (api : URL) (plugins : list Plugin) :
    gmap string route :=
  fold_left (fun rs plugin =>
    fold_left (add_route pm api) (svc_order (ExposedServices (plugin_Status plugin))) rs)
    plugins ∅.

Definition set_clusters (c : gmap string (clusterRoutes T)) (pm : ProxyManager T) : ProxyManager T :=
  mk_pm c (dnsDomain pm) (debugHost pm).

Definition pm_Reconcile (req : objkey) (pm : ProxyManager T) :
    P (ProxyManager T * option error) :=
  r ← trigger (PGetSecret req);
  let err := match r with Err e => Some e | Ok _ => None end in
  match ignore_not_found err with
  | Some e => mret (pm, Some e)
  | None =>
      match r with
      | Err _ => mret (set_clusters (delete (key_name req) (pm_clusters pm)) pm, None)
      | Ok secret =>
          if bool_decide (GetDeletionTimestamp secret <> None) then
            mret (set_clusters (delete (key_name req) (pm_clusters pm)) pm, None)
          else
            c ← ToRESTConfig secret;
            match c with
            | Err e => mret (pm, Some e)
            | Ok restConfig =>
                t ← trigger (PTransportFor restConfig);
                match t with
                | Err e => mret (pm, Some (wrap_error
                    ("failed to create transport for cluster " +:+ key_name req +:+ ": ") e))
                | Ok t =>
                    match url_Parse (rc_Host restConfig) with
                    | Err e => mret (pm, Some (wrap_error "failed to parse api url: " e))
                    | Ok k8sAPIURL =>
                        ps ← pluginsForCluster (key_name req) (key_namespace req);
                        match ps with
                        | Err e => mret (pm, Some (wrap_error
                            ("failed to get plugins for cluster " +:+ key_name req +:+ ": ") e))
                        | Ok plugins =>
                            let cls := mk_routes t (plugin_routes pm k8sAPIURL plugins) in
                            mret (set_clusters (<[key_name req := cls]> (pm_clusters pm)) pm, None)
                        end
                    end
                end
            end
      end
  end.

Definition GetClusterRoute (pm : ProxyManager T) (cluster inURL : string) : option route :=
  cls ← pm_clusters pm !! cluster;
  routes cls !! inURL.

(** [rewrite]: [Out] of the proxy request. *)
Definition rewrite_request (pm : ProxyManager T) (in_ out : http_request) : http_request :=
  let out := SetXForwarded in_ out in
  match ExtractCluster (rq_Host in_) with
  | Err _ => out
  | Ok cluster =>
      match GetClusterRoute pm cluster ("https://" +:+ rq_Host in_) with
      | None => out
      | Some r =>
          let up := route_url r in
          let u := rq_URL out in
          let path := if negb (has_prefix (url_Path u) (url_Path up))
                      then trim_suffix (url_Path up) "/" +:+ url_Path u else url_Path u in
          let out := set_url (mk_url (url_Scheme up) (url_Host up) path (url_Rest u)) out in
          let out := set_host (url_Host up) out in
          set_ctx (mk_ctx (Some cluster) (ctx_organization (rq_ctx out)) (ctx_name (rq_ctx out))) out
      end
  end.

Definition RoundTrip (pm : ProxyManager T) (req : http_request) : P (result http_response) :=
  match ctx_cluster (rq_ctx req) with
  | None => mret (Err (new_error ("no upstream found for: " +:+ url_String (rq_URL req))))
  | Some cluster =>
      match pm_clusters pm !! cluster with
      | None => mret (Err (new_error ("cluster " +:+ cluster +:+ " not found")))
      | Some cls => trigger (PSend (transport cls) req)
      end
  end.

Definition modifyResponse (resp : http_response) : http_response :=
  let location := default "" (resp_Header resp !! "Location") in
  if negb (bool_decide (location = "")) then
    mk_response (resp_StatusCode resp) (<["Location" := strip_api_proxy location]> (resp_Header resp))
      (resp_Body resp)
  else resp.

Definition errorHandler : http_response := mk_response 502 ∅ "".

(** [httputil.ReverseProxy.ServeHTTP] with the four functions of the manager: a copy
    of the request without the [X-Forwarded] headers is rewritten and sent. *)
Definition ReverseProxy (pm_rewrite pm_send : ProxyManager T) (req : http_request) :
    P http_response :=
  let out := set_forwarded (mk_forwarded None None None) req in
  let out := rewrite_request pm_rewrite req out in
  r ← RoundTrip pm_send out;
  mret (match r with Err _ => errorHandler | Ok resp => modifyResponse resp end).

(** The outermost handler of [InstrumentHandler]; the metrics between it and the
    proxy have no model. *)
Definition injector (pm : ProxyManager T) (req : http_request) : http_request :=
  match ExtractCluster (rq_Host req) with
  | Err _ => req
  | Ok cluster =>
      let ctx := mk_ctx (Some cluster) (ctx_organization (rq_ctx req)) (ctx_name (rq_ctx req)) in
      match GetClusterRoute pm cluster (rq_Host req) with
      | Some r => set_ctx (mk_ctx (ctx_cluster ctx) (Some (route_namespace r))
                             (Some (route_serviceName r))) req
      | None => set_ctx ctx req
      end
  end.
Definition InstrumentHandler (pm_inject pm_rewrite pm_send : ProxyManager T)
    (req : http_request) : P http_response :=
  ReverseProxy pm_rewrite pm_send (injector pm_inject req).
End proxy.

(** A changed Plugin reconciles the Secret of its cluster. *)
Definition enqueuePluginForCluster (plugin : option Plugin) : list objkey :=
  match plugin with
  | None => []
  | Some plugin =>
      if bool_decide (plugin_ClusterName (plugin_Spec plugin) = "") then []
      else [mk_key (GetNamespace plugin) (plugin_ClusterName (plugin_Spec plugin))]
  end.

(** ** Lemmas on cutting strings *)
Lemma cut_None sep s : cut sep s = None <-> contains s sep = false.
Proof.
  assert (forall s, has_prefix s sep = false <-> cut_prefix s sep = None) as Hp.
  { intros s'. destruct (cut_prefix s' sep) as [r|] eqn:Hc.
    - apply cut_prefix_Some in Hc as ->. by rewrite has_prefix_app.
    - split; [done|]. intros _. destruct (has_prefix s' sep) eqn:Hh; [|done].
      apply has_prefix_true in Hh as [r ->]. by rewrite cut_prefix_app in Hc. }
  unfold has_prefix in Hp.
  induction s as [|a s IH]; cbn [cut contains];
    rewrite orb_false_iff, Hp; destruct (cut_prefix _ sep); [naive_solver..|].
  rewrite <-IH. destruct (cut sep s); naive_solver.
Qed.

Lemma cut_char c a b :
  char_in c a = false -> cut (String c "") (a +:+ String c b) = Some (a, b).
Proof.
  induction a as [|x a IH]; cbn; [by rewrite Ascii.eqb_refl; destruct b|].
  intros [Hx Ha]%orb_false_elim. rewrite (Ascii.eqb_sym c x), Hx, (IH Ha). done.
Qed.

Lemma cut_double c a b :
  contains a (String c (String c "")) = false -> cut_suffix a (String c "") = None ->
  cut (String c (String c "")) (a +:+ String c (String c b)) = Some (a, b).
Proof.
  induction a as [|x a IH]; intros Hc Hs.
  { cbn. rewrite Ascii.eqb_refl. by destruct b. }
  cbn [contains] in Hc. apply orb_false_elim in Hc as [Hp Hc].
  assert (cut_suffix a (String c "") = None) as Hs'.
  { destruct (cut_suffix a _) as [r|] eqn:E; [|done]. apply cut_suffix_Some in E as ->.
    by rewrite (proj2 (cut_suffix_Some (String x (r +:+ String c "")) (String c "") (String x r)))
      in Hs by done. }
  change (String x a +:+ String c (String c b)) with (String x (a +:+ String c (String c b))).
  cbn [cut]. rewrite (IH Hc Hs').
  assert (cut_prefix (String x (a +:+ String c (String c b))) (String c (String c "")) = None) as ->;
    [|done].
  cbn. destruct (Ascii.eqb_spec c x) as [->|]; [|done].
  destruct a as [|y a].
  { exfalso. cbn in Hs. by rewrite String.eqb_refl in Hs. }
  cbn. destruct (Ascii.eqb_spec x y) as [->|]; [|done].
  cbn in Hp. destruct (ascii_dec y y); [by destruct a|done].
Qed.

Lemma contains_app_l p q sub : contains (p +:+ q) sub = false -> contains p sub = false.
Proof.
  induction p as [|a p IH]; cbn [contains].
  - destruct sub as [|c sub]; [|done]. destruct q; done.
  - change (String a p +:+ q) with (String a (p +:+ q)). cbn [contains].
    intros [Hp Hc]%orb_false_elim. rewrite (IH Hc), orb_false_r.
    destruct (String.prefix sub (String a p)) eqn:E; [|done].
    apply (has_prefix_true (String a p) sub) in E as [r E].
    replace (String a (p +:+ q)) with (sub +:+ r +:+ q) in Hp
      by (by rewrite <-append_assoc, <-E).
    pose proof (has_prefix_app sub (r +:+ q)) as H. unfold has_prefix in H. congruence.
Qed.

Lemma prefix_across p n r c :
  char_in c p = false -> has_prefix (n +:+ String c r) p = true -> has_prefix n p = true.
Proof.
  rewrite !has_prefix_true. revert p. induction n as [|a n IH]; intros p Hp [x Hx].
  - destruct p as [|b p]; [by exists ""|]. cbn in Hp, Hx. injection Hx as -> _.
    by rewrite Ascii.eqb_refl in Hp.
  - destruct p as [|b p]; [by eexists|]. cbn in Hp, Hx. injection Hx as -> Hx.
    apply orb_false_elim in Hp as [_ Hp].
    destruct (IH p Hp) as [y ->]; [by exists x|]. by exists y.
Qed.

Lemma char_in_true c s : char_in c s = true ->
  exists p q, s = p +:+ String c q /\ char_in c p = false.
Proof.
  induction s as [|a s IH]; cbn; [done|].
  destruct (Ascii.eqb_spec a c) as [->|Hne]; cbn; [by exists "", s|].
  intros (p & q & -> & Hp)%IH. exists (String a p), q. cbn.
  by rewrite (proj2 (Ascii.eqb_neq a c) Hne).
Qed.

(** ** Exposed URLs name their cluster *)

(** What the API server's check of object names (DNS-1123) gives. *)
Definition api_name (name : string) : bool :=
  negb (char_in "/" name) && bool_decide (cut_suffix name "-" = None).

Lemma exposed_host_shape sha256_hex DNSDomain s (p : Plugin) :
  exposed_host sha256_hex DNSDomain s p =
  plugin_ClusterName (plugin_Spec p) +:+ String "-" (String "-"
    (String.substring 0 7 (sha256_hex (s +:+ "--" +:+ ReleaseNamespace (plugin_Spec p))) +:+
     "." +:+ GetNamespace p +:+ "." +:+ DNSDomain)).
Proof. unfold exposed_host. by rewrite !append_assoc. Qed.

Lemma first_char a b c :
  exists x y, a +:+ String c b = x +:+ String c y /\ char_in c x = false.
Proof.
  destruct (char_in c a) eqn:Ha; [|by eauto].
  destruct (char_in_true _ _ Ha) as (p & q & -> & Hp).
  exists p, (q +:+ String c b). by rewrite append_assoc.
Qed.

Lemma ExtractCluster_exposed_host {O} `{Object O} sha256_hex DNSDomain
    serviceName (plugin : Plugin) (cluster : O) :
  plugin_ClusterName (plugin_Spec plugin) = GetName cluster ->
  InvalidateDoubleDashesInName cluster = None -> api_name (GetName cluster) = true ->
  let host := exposed_host sha256_hex DNSDomain serviceName plugin in
  ExtractCluster host =
    if char_in "." (GetName cluster)
    then Err (new_error ("invalid host: " +:+ host)) else Ok (GetName cluster).
Proof.
  intros Hname Hdash Hapi. cbv zeta. rewrite exposed_host_shape, Hname.
  unfold InvalidateDoubleDashesInName in Hdash.
  destruct (contains (GetName cluster) "--") eqn:Hc; [done|]. clear Hdash Hname.
  apply andb_true_iff in Hapi as [Hslash%negb_true_iff Hsuf%bool_decide_eq_true].
  generalize (String.substring 0 7 (sha256_hex (serviceName +:+ "--" +:+
    ReleaseNamespace (plugin_Spec plugin)))) as h7. intros h7.
  generalize (GetNamespace plugin +:+ "." +:+ DNSDomain) as rest. intros rest.
  generalize dependent (GetName cluster). intros name Hc Hslash Hsuf.
  unfold ExtractCluster.
  destruct (has_prefix _ "https://") eqn:Hp.
  { apply (prefix_across "https://" name _ "-"), has_prefix_true in Hp as [r ->]; done. }
  destruct (char_in "." name) eqn:Hdot.
  - destruct (char_in_true _ _ Hdot) as (p & q & -> & Hp').
    rewrite append_assoc. change (String "." q +:+ ?x) with (String "." (q +:+ x)).
    unfold SplitN2 at 1. rewrite cut_char by done. unfold SplitN2.
    apply contains_app_l in Hc. by apply cut_None in Hc as ->.
  - assert (exists x y, name +:+ String "-" (String "-" (h7 +:+ "." +:+ rest)) =
       (name +:+ String "-" (String "-" x)) +:+ String "." y /\ char_in "." x = false)
      as (x & y & -> & Hx).
    { destruct (first_char h7 rest ".") as (x & y & E & Hx). exists x, y.
      change ("." +:+ rest) with (String "." rest). rewrite E, append_assoc. done. }
    unfold SplitN2 at 1. rewrite cut_char.
    + unfold SplitN2. by rewrite (cut_double "-" name x Hc Hsuf).
    + rewrite char_in_app, Hdot. cbn. done.
Qed.

(** The URL of an exposed service names the cluster it is served from.  For every
    service of a Plugin on a cluster whose name the Cluster webhook and the API
    server accept, [ExtractCluster] applied to the host of the URL returns the
    cluster - unless the name of the cluster holds a dot, which both accept too: then
    the host is always rejected as invalid and the service cannot be reached. *)
Theorem URLForExposedServiceInPlugin_ExtractCluster {O} `{Object O} sha256_hex DNSDomain
    serviceName (plugin : Plugin) (cluster : O) :
  plugin_ClusterName (plugin_Spec plugin) = GetName cluster ->
  InvalidateDoubleDashesInName cluster = None -> api_name (GetName cluster) = true ->
  exists host, URLForExposedServiceInPlugin sha256_hex DNSDomain serviceName plugin
                 = "https://" +:+ host /\
    ExtractCluster host =
      if char_in "." (GetName cluster)
      then Err (new_error ("invalid host: " +:+ host)) else Ok (GetName cluster).
Proof.
  intros Hname Hdash Hapi. eexists. split; [done|]. by apply ExtractCluster_exposed_host.
Qed.

(** ** Redirects *)
Lemma skip_run_length s : String.length (skip_run s) <= String.length s.
Proof. induction s as [|a s IH]; cbn; [done|]. destruct (Ascii.eqb a "/"); cbn; lia. Qed.
Lemma cut_prefix_length s p r :
  cut_prefix s p = Some r -> String.length s = String.length p + String.length r.
Proof. intros ->%cut_prefix_Some. by rewrite length_append. Qed.
Lemma skip_segment_length s r : skip_segment s = Some r -> String.length r < String.length s.
Proof.
  destruct s as [|a s]; [done|]. cbn. destruct (Ascii.eqb a "/"); [done|].
  intros [= <-]. pose proof (skip_run_length s). lia.
Qed.
Lemma match_api_proxy_length s r :
  match_api_proxy s = Some r -> String.length r < String.length s.
Proof.
  unfold match_api_proxy. cbn [mbind option_bind].
  intros (s1 & H1 & (s2 & H2 & (s3 & H3 & (s4 & H4 & H5)%bind_Some)%bind_Some)%bind_Some)%bind_Some.
  apply cut_prefix_length in H1, H3, H5. apply skip_segment_length in H2, H4. lia.
Qed.

(** More fuel than the length of the string changes nothing. *)
Lemma replace_api_proxy_fuel n m s :
  String.length s <= n -> String.length s <= m -> replace_api_proxy n s = replace_api_proxy m s.
Proof.
  revert m s. induction n as [|n IH]; intros m s Hn Hm.
  { destruct s; [|cbn in Hn; lia]. by destruct m. }
  destruct m as [|m]; [destruct s; [done|cbn in Hm; lia]|].
  destruct s as [|a s]; [done|]. cbn [replace_api_proxy]. cbn in Hn, Hm.
  destruct (match_api_proxy (String a s)) as [r|] eqn:E.
  - apply match_api_proxy_length in E. cbn in E. f_equal. apply IH; lia.
  - f_equal. apply IH; lia.
Qed.

Lemma strip_api_proxy_match s r :
  match_api_proxy s = Some r -> strip_api_proxy s = String "/" (strip_api_proxy r).
Proof.
  intros Hm. pose proof (match_api_proxy_length _ _ Hm).
  unfold strip_api_proxy. destruct s as [|a s]; [done|]. cbn [String.length replace_api_proxy].
  rewrite Hm. f_equal. cbn in H. apply replace_api_proxy_fuel; lia.
Qed.

Lemma skip_run_app s t : char_in "/" s = false -> skip_run (s +:+ String "/" t) = String "/" t.
Proof. induction s as [|a s IH]; cbn; [done|]. by intros [-> H%IH]%orb_false_elim. Qed.
Lemma skip_segment_app s t :
  char_in "/" s = false -> s <> "" -> skip_segment (s +:+ String "/" t) = Some (String "/" t).
Proof.
  destruct s as [|a s]; [done|]. cbn. intros [-> H]%orb_false_elim _. by rewrite skip_run_app.
Qed.

(** Decimal numerals hold no slash. *)
Lemma pretty_N_go_no_slash x s : char_in "/" s = false -> char_in "/" (pretty_N_go x s) = false.
Proof.
  revert s. induction (N.lt_wf_0 x) as [x _ IH]. intros s Hs.
  destruct (decide (0 < x)%N) as [Hx|Hx].
  - rewrite pretty_N_go_step by done. apply IH; [by apply N.div_lt|].
    cbn. rewrite Hs, orb_false_r.
    unfold pretty_N_char. by repeat case_match.
  - by replace x with 0%N by lia.
Qed.
Lemma pretty_Z_no_slash (z : Z) : char_in "/" (pretty z) = false.
Proof.
  assert (forall n : N, char_in "/" (pretty n) = false) as HN.
  { intros n. unfold pretty, pretty_N. case_decide; [done|]. by apply pretty_N_go_no_slash. }
  destruct z; [done|apply HN|]. cbn. apply HN.
Qed.
Lemma service_segment_ok svc :
  char_in "/" (svc_Name svc) = false ->
  char_in "/" (service_segment svc) = false /\ service_segment svc <> "".
Proof.
  intros Hn. unfold service_segment. split.
  - rewrite !char_in_app, Hn, pretty_Z_no_slash. by case_bool_decide.
  - case_bool_decide; [done|]. by destruct (svc_Name svc).
Qed.
Lemma service_path_slash svc rest :
  service_path svc +:+ String "/" rest =
  "/api/v1/namespaces/" +:+ svc_Namespace svc +:+
  String "/" ("services/" +:+ service_segment svc +:+ String "/" ("proxy/" +:+ rest)).
Proof. unfold service_path. by rewrite !append_assoc. Qed.

(** A location behind the path of a service becomes the path the client knows. *)
Lemma strip_service_path svc rest :
  svc_Namespace svc <> "" -> char_in "/" (svc_Namespace svc) = false ->
  char_in "/" (svc_Name svc) = false ->
  strip_api_proxy (service_path svc +:+ String "/" rest) = String "/" (strip_api_proxy rest).
Proof.
  intros Hne Hns Hname. apply strip_api_proxy_match.
  destruct (service_segment_ok svc Hname) as [Hseg Hsegne].
  rewrite service_path_slash. unfold match_api_proxy. cbn [mbind option_bind].
  rewrite cut_prefix_app. cbn [mbind option_bind]. rewrite skip_segment_app by done.
  cbn [mbind option_bind]. change (String "/" ("services/" +:+ ?x)) with ("/services/" +:+ x).
  rewrite cut_prefix_app. cbn [mbind option_bind]. rewrite skip_segment_app by done.
  cbn [mbind option_bind]. change (String "/" ("proxy/" +:+ ?x)) with ("/proxy/" +:+ x).
  by rewrite cut_prefix_app.
Qed.

(** ** The routes of a cluster *)
Section routes.
Context {T : Type}.
Variable svc_order : gmap string Service -> list (string * Service).

(** [svc] is exposed under [url] by one of [plugins]. *)
Definition exposes (pm : ProxyManager T) (plugins : list Plugin) (url : string) (svc : Service) : Prop :=
  exists (p : Plugin) u, p ∈ plugins /\ ExposedServices (plugin_Status p) !! u = Some svc /\
    svc_Type svc = ServiceTypeService /\ url = public_url pm u.

Section order.
Hypothesis svc_order_perm : forall m, svc_order m ≡ₚ map_to_list m.

Lemma add_routes_lookup pm api entries rs url :
  fold_left (add_route (T := T) pm api) entries rs !! url <> rs !! url ->
  exists svc u, fold_left (add_route pm api) entries rs !! url = Some (route_of api svc) /\
    (u, svc) ∈ entries /\ svc_Type svc = ServiceTypeService /\ url = public_url pm u.
Proof.
  revert rs. induction entries as [|[u s] l IH]; intros rs; cbn [fold_left]; [done|].
  intros Hne. destruct (decide (fold_left (add_route pm api) l (add_route pm api rs (u, s)) !! url =
                       add_route pm api rs (u, s) !! url)) as [E|E].
  - rewrite E in Hne |- *. unfold add_route in Hne |- *. case_bool_decide as Ht; cbn in Hne |- *.
    + destruct (decide (url = public_url pm u)) as [->|Hu].
      * rewrite lookup_insert_eq. exists s, u. set_solver.
      * by rewrite lookup_insert_ne in Hne.
    + done.
  - destruct (IH _ E) as (s' & u' & H1 & H2 & H3 & H4). exists s', u'. set_solver.
Qed.

Lemma add_routes_is_Some pm api entries rs url :
  is_Some (rs !! url) \/ (exists u svc, (u, svc) ∈ entries /\ svc_Type svc = ServiceTypeService /\
                            url = public_url pm u) ->
  is_Some (fold_left (add_route (T := T) pm api) entries rs !! url).
Proof.
  revert rs. induction entries as [|[u s] l IH]; intros rs; cbn [fold_left]; [set_solver|].
  intros H. apply IH. unfold add_route.
  destruct H as [H|(u' & s' & [[= -> ->]|H]%elem_of_cons & Ht & ->)]; [left|left|right; eauto].
  - case_bool_decide; [|done]. cbn. destruct (decide (url = public_url pm u)) as [->|].
    + by rewrite lookup_insert_eq.
    + by rewrite lookup_insert_ne.
  - rewrite bool_decide_true by done. cbn. by rewrite lookup_insert_eq.
Qed.

Lemma plugin_routes_from pm api plugins rs url :
  let rs' := fold_left (fun rs plugin => fold_left (add_route (T := T) pm api)
               (svc_order (ExposedServices (plugin_Status plugin))) rs) plugins rs in
  rs' !! url <> rs !! url ->
  exists svc, rs' !! url = Some (route_of api svc) /\ exposes pm plugins url svc.
Proof using svc_order_perm.
  revert rs. induction plugins as [|p ps IH]; intros rs; cbn; [done|]. intros Hne.
  set (rs1 := fold_left (add_route pm api) (svc_order (ExposedServices (plugin_Status p))) rs) in *.
  destruct (decide (fold_left (fun rs plugin => fold_left (add_route pm api)
      (svc_order (ExposedServices (plugin_Status plugin))) rs) ps rs1 !! url = rs1 !! url)) as [E|E].
  - rewrite E in Hne |- *.
    destruct (add_routes_lookup _ _ _ _ _ Hne) as (svc & u & Hs & Hin & Ht & ->).
    exists svc. split; [done|]. exists p, u.
    rewrite svc_order_perm, elem_of_map_to_list in Hin. set_solver.
  - destruct (IH _ E) as (svc & Hs & p' & u & Hp & H). exists svc. split; [done|].
    exists p', u. set_solver.
Qed.

Lemma plugin_routes_is_Some pm api plugins rs url :
  is_Some (rs !! url) \/ (exists svc, exposes pm plugins url svc) ->
  is_Some (fold_left (fun rs plugin => fold_left (add_route (T := T) pm api)
    (svc_order (ExposedServices (plugin_Status plugin))) rs) plugins rs !! url).
Proof using svc_order_perm.
  revert rs. induction plugins as [|p ps IH]; intros rs; cbn.
  { intros [H|(s & p & u & H & _)]; [done|set_solver]. }
  intros H. apply IH.
  destruct H as [H|(svc & p' & u & [->|Hp]%elem_of_cons & Hu & Ht & ->)].
  - left. apply add_routes_is_Some. by left.
  - left. apply add_routes_is_Some. right. exists u, svc.
    by rewrite svc_order_perm, elem_of_map_to_list.
  - right. exists svc, p', u. done.
Qed.

(** The table of a cluster holds exactly the URLs its Plugins expose, each with the
    route of a service exposed under it. *)
Lemma plugin_routes_spec pm api plugins url :
  (forall r, plugin_routes (T := T) svc_order pm api plugins !! url = Some r ->
     exists svc, r = route_of api svc /\ exposes pm plugins url svc) /\
  ((exists svc, exposes pm plugins url svc) ->
     is_Some (plugin_routes svc_order pm api plugins !! url)).
Proof using svc_order_perm.
  split.
  - intros r Hr. unfold plugin_routes in Hr.
    destruct (plugin_routes_from pm api plugins ∅ url) as (svc & Hs & He).
    + rewrite Hr. by rewrite lookup_empty.
    + cbn in Hs. exists svc. split; [congruence|done].
  - intros H. apply plugin_routes_is_Some. by right.
Qed.
End order.
End routes.

Section reconcile.
Context {T RC : Type}.
Variable rc_Host : RC -> string.
Variable url_Parse : string -> result URL.
Variable svc_order : gmap string Service -> list (string * Service).

Local Abbreviation reconcile := (pm_Reconcile (T := T) rc_Host url_Parse svc_order).
Local Abbreviation answered c x h := (Call (E := proxyE T RC) c x ∈ h).

(** What a successful pass for [req] leaves in the table, by what it read. *)
Definition table_of (req : objkey) (pm : ProxyManager T) (h : list (call (proxyE T RC)))
    (entry : option (clusterRoutes T)) : Prop :=
  match entry with
  | None =>
      (exists e, answered (PGetSecret req) (Err e) h /\ err_reason e = NotFound) \/
      (exists s, answered (PGetSecret req) (Ok s) h /\ GetDeletionTimestamp s <> None)
  | Some cls =>
      exists secret kubeconfig cfg api items,
        answered (PGetSecret req) (Ok secret) h /\ GetDeletionTimestamp secret = None /\
        kubeConfigGetterFromSecret secret = Ok kubeconfig /\
        answered (PClientConfig kubeconfig "default") (Ok cfg) h /\
        answered (PTransportFor cfg) (Ok (transport cls)) h /\
        url_Parse (rc_Host cfg) = Ok api /\
        answered (PListPlugins (key_namespace req)) (Ok items) h /\
        let live := List.filter (fun p : Plugin =>
          bool_decide (GetDeletionTimestamp p = None)
          && bool_decide (plugin_ClusterName (plugin_Spec p) = key_name req)) items in
        forall url,
          (forall r, routes cls !! url = Some r ->
             exists svc, r = route_of api svc /\ exposes pm live url svc) /\
          ((exists svc, exposes pm live url svc) -> is_Some (routes cls !! url))
  end.

(** Reconciling the Secret of a cluster, whatever the API server answers, changes
    the table entry of that cluster only, and only when it succeeds.  It succeeds
    without an entry exactly for a Secret that is gone or being deleted; otherwise the
    entry holds the transport made from the Secret's kubeconfig, and its routes are
    exactly the URLs that the Plugins of the cluster not being deleted expose as a
    service, each leading to a service exposed under it. *)
Theorem pm_Reconcile_table req pm (svc_order_perm : forall m, svc_order m ≡ₚ map_to_list m) :
  wp (traced any_answer) (reconcile req pm) (fun h '(pm', err) =>
    (forall c, c <> key_name req -> pm_clusters pm' !! c = pm_clusters pm !! c) /\
    dnsDomain pm' = dnsDomain pm /\ debugHost pm' = debugHost pm /\
    match err with
    | Some _ => pm' = pm
    | None => table_of req pm h (pm_clusters pm' !! key_name req)
    end) [].
Proof.
  unfold pm_Reconcile. wp_step. wp_step. destruct Hx as [_ ->].
  destruct x as [secret|e]; unfold ignore_not_found, is_not_found; cbn match.
  2:{ case_bool_decide as Hn; apply wp_ret; [|done]. cbn [set_clusters pm_clusters dnsDomain debugHost].
      split; [intros c Hc; by rewrite lookup_delete_ne|]. rewrite lookup_delete_eq.
      do 2 (split; [done|]). left. exists e. set_solver. }
  case_bool_decide as Hdel.
  { apply wp_ret. cbn [set_clusters pm_clusters dnsDomain debugHost].
    split; [intros c Hc; by rewrite lookup_delete_ne|]. rewrite lookup_delete_eq.
    do 2 (split; [done|]). right. exists secret. set_solver. }
  unfold ToRESTConfig. wp_step.
  destruct (ValidateSecretForKubeConfig secret); [by repeat wp_step|].
  destruct (kubeConfigGetterFromSecret secret) as [kc|] eqn:Hkc; [|by repeat wp_step].
  wp_step. wp_step. destruct Hx as [_ ->]. wp_step. destruct x as [cfg|]; [|by apply wp_ret].
  wp_step. wp_step. destruct Hx as [_ ->]. destruct x as [t|]; [|by apply wp_ret].
  destruct (url_Parse (rc_Host cfg)) as [api|] eqn:Hapi; [|by apply wp_ret].
  wp_step. unfold pluginsForCluster. wp_step. wp_step. destruct Hx as [_ ->]. wp_step.
  destruct x as [items|]; [|by apply wp_ret]. apply wp_ret.
  cbn [set_clusters pm_clusters dnsDomain debugHost].
  split; [intros c Hc; by rewrite lookup_insert_ne|]. do 2 (split; [done|]).
  rewrite lookup_insert_eq. exists secret, kc, cfg, api, items.
  repeat (split; [first [set_solver | done | by destruct (GetDeletionTimestamp secret)]|]).
  intros live url. cbn [routes]. by apply plugin_routes_spec.
Qed.

End reconcile.

(** ** Requests *)
Section requests.
Context {T RC : Type}.
Variable url_String : URL -> string.
Local Abbreviation handle := (InstrumentHandler (T := T) (RC := RC) url_String).
Local Abbreviation proxy := (ReverseProxy (T := T) (RC := RC) url_String).

(** What the client gets for the answer of the cluster. *)
Definition reply (r : result http_response) : http_response :=
  match r with Err _ => errorHandler | Ok resp => modifyResponse resp end.

(** [X-Forwarded] headers name the client and nobody else. *)
Definition forwarded_of (req : http_request) : forwarded :=
  mk_forwarded (rq_RemoteIP req) (Some (rq_Host req)) (Some (if rq_TLS req then "https" else "http")).

Lemma injector_keeps pm req :
  exists ctx, injector (T := T) pm req = set_ctx ctx req /\
    ctx_cluster ctx = match ExtractCluster (rq_Host req) with
                      | Ok c => Some c | Err _ => ctx_cluster (rq_ctx req) end.
Proof.
  unfold injector. destruct (ExtractCluster (rq_Host req)); [|by exists (rq_ctx req); destruct req].
  destruct (GetClusterRoute pm a (rq_Host req)); by eexists.
Qed.

Lemma proxy_routed pm pm' req cluster r :
  ExtractCluster (rq_Host req) = Ok cluster ->
  GetClusterRoute pm cluster ("https://" +:+ rq_Host req) = Some r ->
  exists out,
    proxy pm pm' req =
      match pm_clusters pm' !! cluster with
      | Some cls => x ← trigger (PSend (transport cls) out); mret (reply x)
      | None => mret errorHandler
      end /\
    url_Scheme (rq_URL out) = url_Scheme (route_url r) /\
    url_Host (rq_URL out) = url_Host (route_url r) /\ rq_Host out = url_Host (route_url r) /\
    url_Path (rq_URL out) =
      (if has_prefix (url_Path (rq_URL req)) (url_Path (route_url r)) then url_Path (rq_URL req)
       else trim_suffix (url_Path (route_url r)) "/" +:+ url_Path (rq_URL req)) /\
    url_Rest (rq_URL out) = url_Rest (rq_URL req) /\ rq_Method out = rq_Method req /\
    rq_Rest out = rq_Rest req /\ rq_Forwarded out = forwarded_of req.
Proof.
  intros Hc Hr. eexists. unfold ReverseProxy, rewrite_request. rewrite Hc, Hr.
  unfold RoundTrip. cbn [set_ctx rq_ctx ctx_cluster]. split.
  { destruct (pm_clusters pm' !! cluster); [|done].
    unfold mbind at 2. cbn. f_equal. }
  cbn. repeat split; [by destruct (has_prefix _ _)|by destruct req as [? ? ? [] ? ? ? ?]].
Qed.

Lemma trim_suffix_prefix s suf : has_prefix s (trim_suffix s suf) = true.
Proof.
  unfold trim_suffix. destruct (cut_suffix s suf) as [r|] eqn:E; cbn.
  - apply cut_suffix_Some in E as ->. apply has_prefix_app.
  - rewrite <-(append_nil_r s) at 1. apply has_prefix_app.
Qed.
Lemma has_prefix_trans s p q : has_prefix s p = true -> has_prefix p q = true -> has_prefix s q = true.
Proof.
  rewrite !has_prefix_true. intros [x ->] [y ->]. exists (y +:+ x). by rewrite append_assoc.
Qed.

(** A request for an exposed service.  When the host of a request names a cluster
    that has a route for it, the handler makes at most one call: it sends one request
    with the transport the cluster has at that time, to the API server of the route,
    below the path of the service, with method, query, body and other headers
    unchanged and the [X-Forwarded] headers naming the client alone; the client gets
    the answer with its redirect rewritten, or 502 when the transport fails or the
    cluster is gone.  This holds for every state of the table at the three times it
    is read. *)
Theorem InstrumentHandler_routed pm1 pm2 pm3 req cluster r :
  ExtractCluster (rq_Host req) = Ok cluster ->
  GetClusterRoute pm2 cluster ("https://" +:+ rq_Host req) = Some r ->
  exists out,
    handle pm1 pm2 pm3 req =
      match pm_clusters pm3 !! cluster with
      | Some cls => x ← trigger (PSend (transport cls) out); mret (reply x)
      | None => mret errorHandler
      end /\
    url_Scheme (rq_URL out) = url_Scheme (route_url r) /\
    url_Host (rq_URL out) = url_Host (route_url r) /\ rq_Host out = url_Host (route_url r) /\
    has_prefix (url_Path (rq_URL out)) (trim_suffix (url_Path (route_url r)) "/") = true /\
    (has_prefix (url_Path (rq_URL req)) (url_Path (route_url r)) = false ->
       url_Path (rq_URL out) =
         trim_suffix (url_Path (route_url r)) "/" +:+ url_Path (rq_URL req)) /\
    url_Rest (rq_URL out) = url_Rest (rq_URL req) /\ rq_Method out = rq_Method req /\
    rq_Rest out = rq_Rest req /\ rq_Forwarded out = forwarded_of req.
Proof.
  intros Hc Hr. destruct (injector_keeps pm1 req) as (ctx & Hi & _).
  destruct (proxy_routed pm2 pm3 (set_ctx ctx req) cluster r Hc Hr)
    as (out & Hout & Hs & Hh & Hh' & Hp & Hrest). exists out.
  unfold InstrumentHandler. rewrite Hi, Hout. cbn [set_ctx rq_URL rq_Method rq_Rest] in *.
  repeat (split; [done|]). split; [|split; [|done]].
  - rewrite Hp. destruct (has_prefix _ (url_Path (route_url r))) eqn:E.
    + eapply has_prefix_trans; [done|]. apply trim_suffix_prefix.
    + apply has_prefix_app.
  - intros E. by rewrite Hp, E.
Qed.

(** A request without a route.  The reverse proxy refuses a request that names no
    upstream: [RoundTrip] fails and the client gets 502.  But the handler it is
    wrapped in puts the cluster the host names into the context, which [RoundTrip]
    takes for a rewritten request: when the cluster is known, a request for a host
    without a route is sent with the credentials of the cluster to the URL the client
    itself wrote. *)
Theorem InstrumentHandler_unrouted pm1 pm2 pm3 req cluster :
  ExtractCluster (rq_Host req) = Ok cluster ->
  GetClusterRoute pm2 cluster ("https://" +:+ rq_Host req) = None ->
  (ctx_cluster (rq_ctx req) = None -> proxy pm2 pm3 req = mret errorHandler) /\
  exists out,
    handle pm1 pm2 pm3 req =
      match pm_clusters pm3 !! cluster with
      | Some cls => x ← trigger (PSend (transport cls) out); mret (reply x)
      | None => mret errorHandler
      end /\
    rq_URL out = rq_URL req /\ rq_Host out = rq_Host req.
Proof.
  intros Hc Hr. split.
  - intros Hctx. unfold ReverseProxy, rewrite_request. rewrite Hc, Hr. unfold RoundTrip.
    cbn [SetXForwarded set_forwarded rq_ctx]. by rewrite Hctx.
  - destruct (injector_keeps pm1 req) as (ctx & Hi & Hctx). rewrite Hc in Hctx.
    eexists. unfold InstrumentHandler. rewrite Hi. unfold ReverseProxy, rewrite_request.
    cbn [set_ctx rq_Host]. rewrite Hc, Hr. unfold RoundTrip.
    cbn [SetXForwarded set_forwarded set_ctx rq_ctx]. rewrite Hctx. split.
    { destruct (pm_clusters pm3 !! cluster); [|done]. unfold mbind at 2. cbn. reflexivity. }
    done.
Qed.

(** The route lookup of the outer handler lacks the scheme: with the keys [Reconcile]
    writes it never finds a route, so that organization and name stay empty. *)
Lemma injector_never_labels pm req :
  (forall c cls u, pm_clusters (T := T) pm !! c = Some cls -> is_Some (routes cls !! u) ->
     has_prefix u "https://" = true) ->
  ctx_organization (rq_ctx (injector pm req)) = ctx_organization (rq_ctx req) /\
  ctx_name (rq_ctx (injector pm req)) = ctx_name (rq_ctx req).
Proof.
  intros Hkeys. unfold injector. destruct (ExtractCluster (rq_Host req)) as [c|e] eqn:Hc; [|done].
  destruct (GetClusterRoute pm c (rq_Host req)) as [r|] eqn:Hr; [|done]. exfalso.
  unfold GetClusterRoute in Hr. apply bind_Some in Hr as (cls & Hcls & Hu).
  specialize (Hkeys c cls (rq_Host req) Hcls (mk_is_Some _ _ Hu)).
  unfold ExtractCluster in Hc. by rewrite Hkeys in Hc.
Qed.

(** ** Redirects come back *)
Lemma strip_nothing s :
  (forall p q, s = p +:+ q -> match_api_proxy q = None) -> strip_api_proxy s = s.
Proof.
  unfold strip_api_proxy. induction s as [|a s IH]; intros H; [done|].
  cbn [String.length replace_api_proxy]. rewrite (H "" (String a s)) by done.
  rewrite IH; [done|]. intros p q ->. by apply (H (String a p)).
Qed.

Lemma no_slash_no_match s : char_in "/" s = false -> match_api_proxy s = None.
Proof.
  destruct s as [|a s]; [done|]. intros [Ha _]%orb_false_elim.
  unfold match_api_proxy. cbn [cut_prefix]. by rewrite Ascii.eqb_sym, Ha.
Qed.

(** Redirects round-trip through the proxy.  When an exposed service answers a
    request with a redirect to the very path it was asked for, which is the client's
    path below the API server's proxy, the client is sent to the path it asked for;
    everything else of the response is untouched. *)
Theorem redirect_roundtrip pm1 pm2 req cluster r api svc rest resp :
  ExtractCluster (rq_Host req) = Ok cluster ->
  GetClusterRoute pm2 cluster ("https://" +:+ rq_Host req) = Some r -> r = route_of api svc ->
  svc_Namespace svc <> "" -> char_in "/" (svc_Namespace svc) = false ->
  char_in "/" (svc_Name svc) = false ->
  url_Path (rq_URL req) = "/" +:+ rest ->
  has_prefix (url_Path (rq_URL req)) (url_Path (route_url r)) = false ->
  (forall p q, rest = p +:+ q -> match_api_proxy q = None) ->
  let out := rewrite_request (T := T) pm2 (injector pm1 req)
               (set_forwarded (mk_forwarded None None None) (injector (T := T) pm1 req)) in
  resp_Header resp !! "Location" = Some (url_Path (rq_URL out)) ->
  modifyResponse resp =
    mk_response (resp_StatusCode resp) (<["Location" := url_Path (rq_URL req)]> (resp_Header resp))
      (resp_Body resp).
Proof.
  intros Hc Hr Heq Hns Hns' Hname Hpath Hnp Hno out Hloc. subst r.
  assert (url_Path (rq_URL out) = service_path svc +:+ String "/" rest) as Hout.
  { subst out. destruct (injector_keeps pm1 req) as (ctx & -> & _).
    unfold rewrite_request. cbn [set_ctx rq_Host]. rewrite Hc, Hr.
    cbn [SetXForwarded set_forwarded set_ctx set_host set_url rq_URL url_Path]. rewrite Hnp.
    cbn [negb]. rewrite Hpath. f_equal. unfold trim_suffix.
    destruct (cut_suffix (url_Path (route_url (route_of api svc))) "/") as [x|] eqn:E; [|done].
    exfalso. apply cut_suffix_Some in E. cbn [route_of route_url url_Path] in E.
    unfold service_path in E. rewrite <-!append_assoc in E.
    change "/proxy" with ("/prox" +:+ "y") in E. rewrite <-append_assoc in E.
    set (l := (((("/api/v1/namespaces/" +:+ svc_Namespace svc) +:+ "/services/") +:+
            service_segment svc) +:+ "/prox")) in E. clearbody l. clear -E.
    revert x E. induction l as [|a l IH]; intros [|b x]; cbn; try done.
    - intros [= _ ?]. by destruct x.
    - intros [= _ ?]. by destruct l.
    - intros [= _ E]. eauto. }
  unfold modifyResponse. rewrite Hloc, Hout. cbn [from_option id].
  rewrite bool_decide_false by (unfold service_path; by destruct (svc_Namespace svc)).
  cbn [negb]. rewrite strip_service_path by done. rewrite strip_nothing by done. by rewrite Hpath.
Qed.
End requests.

(** ** A concrete proxy *)
Module ProxyRun.
Definition hash (_ : string) : string := "1234567890abcdef".
Definition host : string := "prod-eu--1234567.acme.greenhouse.io".
Definition svc : Service := mk_service "monitoring" "grafana" 8080 (Some "https") ServiceTypeService.
Definition plugin : Plugin :=
  mk_plugin (named "grafana" "acme")
    (mk_plugin_spec (mk_pdr "grafana" "") "" [] "prod-eu" "monitoring" "" "" [] [])
    (mk_plugin_status None "" None None None "" {["https://" +:+ host := svc]} [] "" [] []).
Definition cluster : Secret := mk_secret (named "prod-eu" "acme") SecretTypeKubeConfig ∅.
Definition api : URL := mk_url "https" "api.prod-eu.example.com" "" "".
Definition pm : ProxyManager string :=
  mk_pm {["prod-eu" := mk_routes "token of prod-eu" (plugin_routes (T := string) map_to_list (mk_pm ∅ "" "") api [plugin])]} "" "".
Definition req (h path : string) (url_host : string) : http_request :=
  mk_request "GET" h (mk_url "" url_host path "") (Some "10.0.0.1") true
    (mk_forwarded (Some "spoofed") None None) "" (mk_ctx None None None).

Example route_found :
  GetClusterRoute pm "prod-eu" ("https://" +:+ host) =
  Some (mk_route (mk_url "https" "api.prod-eu.example.com"
          "/api/v1/namespaces/monitoring/services/https:grafana:8080/proxy" "") "grafana" "monitoring").
Proof. vm_compute. reflexivity. Qed.

Lemma URLForExposedServiceInPlugin_ExtractCluster_witness :
  exists h, URLForExposedServiceInPlugin hash "greenhouse.io" "grafana" plugin = "https://" +:+ h /\
    ExtractCluster h = if char_in "." (GetName cluster)
                       then Err (new_error ("invalid host: " +:+ h)) else Ok (GetName cluster).
Proof.
  apply (URLForExposedServiceInPlugin_ExtractCluster hash "greenhouse.io" "grafana" plugin cluster);
    vm_compute; reflexivity.
Defined.

Lemma pm_Reconcile_table_witness :
  (forall m : gmap string Service, map_to_list m ≡ₚ map_to_list m) /\
  wp (traced any_answer)
    (pm_Reconcile (T := string) (RC := string) id (fun h => Ok (mk_url "https" h "" "")) map_to_list
       (mk_key "acme" "prod-eu") pm)
    (fun h '(pm', err) =>
      (forall c, c <> key_name (mk_key "acme" "prod-eu") -> pm_clusters pm' !! c = pm_clusters pm !! c) /\
      dnsDomain pm' = dnsDomain pm /\ debugHost pm' = debugHost pm /\
      match err with
      | Some _ => pm' = pm
      | None => table_of id (fun h => Ok (mk_url "https" h "" "")) (mk_key "acme" "prod-eu") pm h
                  (pm_clusters pm' !! key_name (mk_key "acme" "prod-eu"))
      end) [].
Proof.
  split; [done|]. apply (pm_Reconcile_table id (fun h => Ok (mk_url "https" h "" "")) map_to_list).
  done.
Defined.

(** A page of Grafana, through its exposed URL. *)
Lemma InstrumentHandler_routed_witness :
  exists out r,
    InstrumentHandler (RC := string) url_Host pm pm pm (req host "/d/home" "") =
      (x ← trigger (PSend "token of prod-eu" out); mret (reply x)) /\
    url_Host (rq_URL out) = "api.prod-eu.example.com" /\
    url_Path (rq_URL out) =
      "/api/v1/namespaces/monitoring/services/https:grafana:8080/proxy/d/home" /\
    fwd_For (rq_Forwarded out) = Some "10.0.0.1" /\
    GetClusterRoute pm "prod-eu" ("https://" +:+ host) = Some r.
Proof.
  destruct (InstrumentHandler_routed (RC := string) url_Host pm pm pm (req host "/d/home" "") "prod-eu"
    _ ltac:(vm_compute; reflexivity) route_found)
    as (out & Hout & _ & Hh & _ & _ & Hp & _ & _ & _ & Hf).
  exists out. eexists. split; [exact Hout|]. split; [exact Hh|].
  split; [apply Hp; vm_compute; reflexivity|]. split; [by rewrite Hf|apply route_found].
Defined.

(** A request in absolute form for a host of the client's choosing. *)
Lemma InstrumentHandler_unrouted_witness :
  exists out,
    InstrumentHandler (RC := string) url_Host pm pm pm
      (req "prod-eu--x.attacker.example" "/" "prod-eu--x.attacker.example") =
      (x ← trigger (PSend "token of prod-eu" out); mret (reply x)) /\
    url_Host (rq_URL out) = "prod-eu--x.attacker.example".
Proof.
  destruct (InstrumentHandler_unrouted (RC := string) url_Host pm pm pm
    (req "prod-eu--x.attacker.example" "/" "prod-eu--x.attacker.example") "prod-eu")
    as [_ (out & Hout & Hu & _)]; [vm_compute; reflexivity|vm_compute; reflexivity|].
  exists out. split; [exact Hout|]. by rewrite Hu.
Defined.

Lemma redirect_roundtrip_witness :
  let rq := req host "/login" "" in
  let path := "/api/v1/namespaces/monitoring/services/https:grafana:8080/proxy/login" in
  modifyResponse (mk_response 302 {["Location" := path]} "") =
    mk_response 302 (<["Location" := "/login"]> {["Location" := path]}) "".
Proof.
  intros rq path.
  apply (redirect_roundtrip pm pm rq "prod-eu" _ api svc "login"
    (mk_response 302 {["Location" := path]} "") ltac:(vm_compute; reflexivity) route_found);
    try (vm_compute; reflexivity); try done.
  intros p q Hq. apply no_slash_no_match.
  apply (f_equal (char_in "/")) in Hq. rewrite char_in_app in Hq. cbn in Hq. by destruct (char_in "/" p).
Defined.
End ProxyRun.
