(* ===== verification/Tracking.v ===== *)
(** * Tracking: values from other resources and who uses them
      ([internal/controller/plugin/plugin_values_resolver.go])

    An option value of a Plugin may be an expression over other resources of the
    organization.  Each resource read that way remembers its readers, its trackers,
    in an annotation: tracking IDs [Kind/Name] joined by semicolons.  The annotation is
    written by concurrent reconcilers; a write carries the resource version that was
    read, a conflicting one is refused and tried again.

    Parameters: the evaluation of a CEL expression, [json.Marshal], label selectors, and
    the number of attempts of [retry.DefaultRetry].  Logs have no model. *)
From S2P Require Import Prelude Effects Conditions Meta Lifecycle PluginTypes HelmValues.
From Stdlib Require Import Ascii.

Definition trackingSeparator : ascii := ";".

Definition trackingID (kind name : string) : string := kind +:+ "/" +:+ name.
Definition parseTrackingID (trackingID : string) : result (string * string) :=
  match split "/" trackingID with
  | [kind; name] => Ok (kind, name)
  | _ => Err (new_error ("invalid tracking ID format: " +:+ trackingID))
  end.

(** [unstructured.Unstructured] with its resource version. *)
Record UObject := mk_uobject { uo_meta : ObjectMeta; uo_rv : Z; uo_content : string }.
#[export] Instance UObject_eq_dec : EqDecision UObject.
Proof. solve_decision. Defined.
#[export] Instance UObject_object : Object UObject := {|
  get_meta := uo_meta;
  set_meta m o := mk_uobject m (uo_rv o) (uo_content o) |}.
#[export] Instance UObject_object_laws : ObjectLaws UObject.
Proof. by split; intros; repeat match goal with o : UObject |- _ => destruct o end. Qed.

(** A Go value of type [any], as far as [reflect] looks at it: a slice is known by its
    elements, an element and any other value by what a JSON encoder makes of it. *)
Inductive anyval :=
| AOther (json : string)
| ASlice (elems : list string)
| ANilSlice.

(** ** Annotations and labels *)
Definition tracking_annotation (o : UObject) : string :=
  default "" (GetAnnotations o !! AnnotationKeyPluginTackingID).

Definition addPluginIntegrationLabel (o : UObject) : UObject :=
  match GetLabels o !! LabelKeyPluginIntegration with
  | Some _ => o
  | None => SetLabels (<[LabelKeyPluginIntegration := LabelValuePluginIntegration]> (GetLabels o)) o
  end.

Definition set_tracking (val : string) (o : UObject) : UObject :=
  SetAnnotations (<[AnnotationKeyPluginTackingID := val]> (GetAnnotations o)) o.

Definition addTrackingAnnotation (tracker : string) (o : UObject) : UObject :=
  let val := tracking_annotation o in
  if bool_decide (val = "") then set_tracking tracker o
  else
    let trackers := split trackingSeparator val in
    if slices_contains trackers tracker then o
    else set_tracking (join (String trackingSeparator "") (trackers ++ [tracker])) o.

(** The pure part of [removeTrackingAnnotation]; [None] when there is nothing to write. *)
Definition drop_tracker (tracker : string) (o : UObject) : option UObject :=
  let trackingValue := tracking_annotation o in
  if bool_decide (trackingValue = "") then None
  else
    let trackers := split trackingSeparator trackingValue in
    let updatedTrackers := List.filter (fun t => negb (bool_decide (t = tracker))) trackers in
    if (length updatedTrackers =? 0)%nat then
      Some (SetAnnotations (delete AnnotationKeyPluginTackingID (GetAnnotations o)) o)
    else if (length updatedTrackers <? length trackers)%nat then
      Some (set_tracking (join (String trackingSeparator "") updatedTrackers) o)
    else None.

Definition getTrackerIDsFromAnnotations (plugin : Plugin) : list string :=
  let trackerIDsStr := default "" (GetAnnotations plugin !! AnnotationKeyPluginTackingID) in
  if bool_decide (trackerIDsStr = "") then [] else split trackingSeparator trackerIDsStr.

Definition findUntrackedObjects (previousTracked currentTracked : list string) : list string :=
  List.filter (fun prevObj => negb (slices_contains currentTracked prevObj)) previousTracked.

Definition filterValueRefOptions (optionValues : list PluginOptionValue) : list PluginOptionValue :=
  delete_func (fun o => match ov_ValueFrom o ≫= vf_Ref with None => true | Some _ => false end)
    optionValues.

(** ** Calls *)
Inductive trackE : Type -> Type :=
| TGet (kind : string) (k : objkey) : trackE (result UObject)
| TUpdate (kind : string) (o : UObject) : trackE (option error)
| TList (kind namespace selector : string) : trackE (result (list UObject)).

Definition is_conflict (e : option error) : bool :=
  match e with Some e => bool_decide (err_reason e = Conflict) | None => false end.
(** [retry.RetryOnConflict] with a backoff of [attempts] steps: the body runs again
    after a conflict, and the last conflict is returned when the steps are used up. *)
Fixpoint RetryOnConflict {E} (attempts : nat) (fn : prog E (option error)) :
    prog E (option error) :=
  match attempts with
  | O => mret None
  | S n =>
      err ← fn;
      if is_conflict err then
        match n with O => mret err | S _ => RetryOnConflict n fn end
      else mret err
  end.

Section tracking.
Variable cel_Evaluate : string -> UObject -> result anyval.
Variable Marshal : anyval -> result string.
Variable LabelSelectorAsSelector : string -> result string.
Variable DefaultRetry : nat.

Local Abbreviation P := (prog trackE).

(** One attempt to annotate, respectively to remove a tracker. *)
Definition annotate_once (kind : string) (key : objkey) (tracker : string) : P (option error) :=
  r ← trigger (TGet kind key);
  match r with
  | Err e => mret (Some e)
  | Ok o => trigger (TUpdate kind (addTrackingAnnotation tracker (addPluginIntegrationLabel o)))
  end.
Definition annotateObjectWithTracking (kind : string) (key : objkey) (tracker : string) :
    P (option error) :=
  RetryOnConflict DefaultRetry (annotate_once kind key tracker).

Definition remove_once (kind : string) (key : objkey) (tracker : string) : P (option error) :=
  r ← trigger (TGet kind key);
  match r with
  | Err e => if is_not_found (Some e) then mret None else mret (Some e)
  | Ok o => match drop_tracker tracker o with
            | None => mret None
            | Some o => trigger (TUpdate kind o)
            end
  end.
Definition removeTrackingAnnotation (namespace objectID tracker : string) : P (option error) :=
  match parseTrackingID objectID with
  | Err e => mret (Some e)
  | Ok (kind, name) => RetryOnConflict DefaultRetry (remove_once kind (mk_key namespace name) tracker)
  end.

(** [utilerrors.NewAggregate] of the errors met, here their list. *)
Definition removeUntrackedObjectAnnotations (pluginKind : string) (plugin : Plugin)
    (currentTrackedObjects : list string) : P (list error) :=
  let tracker := trackingID pluginKind (GetName plugin) in
  let untracked := findUntrackedObjects (TrackedObjects (plugin_Status plugin)) currentTrackedObjects in
  r ← foreach (R := Empty_set) untracked (fun errs id =>
        err ← removeTrackingAnnotation (GetNamespace plugin) id tracker;
        mret (inl (match err with Some e => errs ++ [e] | None => errs end))) [];
  match r with inl errs => mret errs | inr e => Empty_set_rect _ e end.

Definition touch_once (now : string) (kind : string) (key : objkey) : P (option error) :=
  r ← trigger (TGet kind key);
  match r with
  | Err e => mret (Some e)
  | Ok o => trigger (TUpdate kind (SetAnnotations (<[ReconcileAnnotation := now]> (GetAnnotations o)) o))
  end.
Definition updateResourceWithAnnotation (now kind : string) (key : objkey) : P (option error) :=
  RetryOnConflict DefaultRetry (touch_once now kind key).

(** ** Resolution *)
Definition appendToSlice (dst : list string) (v : anyval) : list string :=
  match v with
  | ASlice elems => dst ++ elems
  | ANilSlice => dst
  | AOther json => dst ++ [json]
  end.
(** A slice that is nil until something is appended to it, as a value of type [any]. *)
Definition any_slice (l : list string) : anyval := match l with [] => ANilSlice | _ => ASlice l end.

Definition resolveByName (namespace kind : string) (ref : ExternalValueSource) (tracker : string) :
    P (result (option anyval)) :=
  let key := mk_key namespace (evs_Name ref) in
  r ← trigger (TGet kind key);
  match r with
  | Err e => if is_not_found (Some e) then mret (Ok None) else mret (Err e)
  | Ok o =>
      match cel_Evaluate (evs_Expression ref) o with
      | Err e => mret (Err e)
      | Ok value =>
          _ ← annotateObjectWithTracking kind key tracker;
          mret (Ok (Some value))
      end
  end.

Definition processResourceList (items : list UObject) (kind expression tracker : string) :
    P (result (list string * list string)) :=
  r ← foreach items (fun '(values, trackedObjects) item =>
        let self := trackingID kind (GetName item) in
        if bool_decide (self = tracker) then mret (inl (values, trackedObjects))
        else
          match cel_Evaluate expression item with
          | Err e => mret (inr (wrap_error ("failed to evaluate CEL expression from object " +:+
                                  GetNamespace item +:+ "/" +:+ GetName item +:+ ": ") e))
          | Ok value =>
              _ ← annotateObjectWithTracking kind (key_of item) tracker;
              mret (inl (appendToSlice values value, trackedObjects ++ [self]))
          end) ([], []);
  mret (match r with inl v => Ok v | inr e => Err e end).

Definition resolveMany (kind selector namespace expression tracker : string) :
    P (result (anyval * list string)) :=
  r ← trigger (TList kind namespace selector);
  match r with
  | Err e => mret (Err e)
  | Ok items =>
      r ← processResourceList items kind expression tracker;
      mret (match r with
            | Err e => Err e
            | Ok (values, trackedObjects) => Ok (any_slice values, trackedObjects)
            end)
  end.

Definition resolveBySelector (namespace kind selector : string) (ref : ExternalValueSource)
    (tracker : string) : P (result (anyval * list string)) :=
  match LabelSelectorAsSelector selector with
  | Err e => mret (Err e)
  | Ok selector => resolveMany kind selector namespace (evs_Expression ref) tracker
  end.

(** [resolveValueFromRef] for an option with the reference [ref]. *)
Definition resolveValueFromRef (namespace optionName : string) (ref : ExternalValueSource)
    (defaultKind tracker : string) : P (result (option PluginOptionValue * list string)) :=
  let resolveKind := if bool_decide (evs_Kind ref = "") then defaultKind else evs_Kind ref in
  n ← (if bool_decide (evs_Name ref = "") then mret (Ok (None, []))
       else
         r ← resolveByName namespace resolveKind ref tracker;
         mret (match r with
               | Err e => Err e
               | Ok value => Ok (value, [trackingID resolveKind (evs_Name ref)])
               end));
  match n with
  | Err e => mret (Err e)
  | Ok (value, trackedObjects) =>
      s ← match evs_Selector ref with
          | None => mret (Ok (value, trackedObjects))
          | Some selector =>
              r ← resolveBySelector namespace resolveKind selector ref tracker;
              mret (match r with
                    | Err e => Err e
                    | Ok (v, tracked) => Ok (Some v, trackedObjects ++ tracked)
                    end)
          end;
      match s with
      | Err e => mret (Err e)
      | Ok (None, trackedObjects) => mret (Ok (None, trackedObjects))
      | Ok (Some value, trackedObjects) =>
          mret (match Marshal value with
                | Err e => Err e
                | Ok byteVal => Ok (Some (mk_ov optionName (Some byteVal) None None), trackedObjects)
                end)
      end
  end.

(** [ResolveValueFromRef]: the Plugin itself is the tracker.  Dereferencing the nil
    reference of an option without one panics ([None]). *)
Definition ResolveValueFromRef (pluginKind : string) (plugin : Plugin) (option_ : PluginOptionValue) :
    option (P (result (option PluginOptionValue * list string))) :=
  ref ← ov_ValueFrom option_ ≫= vf_Ref;
  Some (resolveValueFromRef (GetNamespace plugin) (ov_Name option_) ref pluginKind
          (trackingID pluginKind (GetName plugin))).
End tracking.

(** ** The annotation as a set *)
Definition pieces (o : UObject) : list string := split trackingSeparator (tracking_annotation o).
Definition trackers_of (o : UObject) : gset string :=
  list_to_set (List.filter (fun t => negb (bool_decide (t = ""))) (pieces o)).

(** A tracking ID that fits into the annotation. *)
Definition valid_tracker (t : string) : Prop := t <> "" /\ char_in trackingSeparator t = false.

(** Nothing but the tracking annotation, and for an added tracker the integration
    label, differs. *)
Definition same_but_tracking (o o' : UObject) : Prop :=
  uo_content o' = uo_content o /\ key_of o' = key_of o /\ uo_rv o' = uo_rv o /\
  (forall k, k <> AnnotationKeyPluginTackingID -> GetAnnotations o' !! k = GetAnnotations o !! k) /\
  (forall k, k <> LabelKeyPluginIntegration -> GetLabels o' !! k = GetLabels o !! k).

Lemma elem_of_trackers t o : t ∈ trackers_of o <-> t <> "" /\ t ∈ pieces o.
Proof.
  unfold trackers_of. rewrite elem_of_list_to_set, !list_elem_of_In, filter_In.
  rewrite negb_true_iff, bool_decide_eq_false. tauto.
Qed.

Lemma tracking_annotation_set val o : tracking_annotation (set_tracking val o) = val.
Proof.
  unfold tracking_annotation, set_tracking. rewrite GetAnnotations_SetAnnotations.
  by rewrite lookup_insert_eq.
Qed.
Lemma pieces_set l o :
  l <> [] -> Forall (fun s => char_in trackingSeparator s = false) l ->
  pieces (set_tracking (join (String trackingSeparator "") l) o) = l.
Proof. intros Hne Hl. unfold pieces. rewrite tracking_annotation_set. by apply split_join. Qed.
Lemma pieces_no_sep o : Forall (fun s => char_in trackingSeparator s = false) (pieces o).
Proof. apply Forall_forall. intros s. apply elem_of_split_no_sep. Qed.
Lemma pieces_empty o : tracking_annotation o = "" -> trackers_of o = ∅.
Proof. intros H. unfold trackers_of, pieces. by rewrite H. Qed.

Lemma same_but_tracking_refl o : same_but_tracking o o.
Proof. done. Qed.
Lemma same_but_tracking_trans o1 o2 o3 :
  same_but_tracking o1 o2 -> same_but_tracking o2 o3 -> same_but_tracking o1 o3.
Proof.
  intros (C1 & K1 & R1 & A1 & L1) (C2 & K2 & R2 & A2 & L2).
  repeat split; try congruence; intros k Hk; [by rewrite A2, A1|by rewrite L2, L1].
Qed.
Lemma set_tracking_same val o : same_but_tracking o (set_tracking val o).
Proof.
  repeat split; unfold set_tracking.
  intros k Hk. by rewrite GetAnnotations_SetAnnotations, lookup_insert_ne.
Qed.

Lemma addPluginIntegrationLabel_spec o :
  same_but_tracking o (addPluginIntegrationLabel o) /\
  pieces (addPluginIntegrationLabel o) = pieces o /\
  tracking_annotation (addPluginIntegrationLabel o) = tracking_annotation o /\
  is_Some (GetLabels (addPluginIntegrationLabel o) !! LabelKeyPluginIntegration).
Proof.
  unfold addPluginIntegrationLabel.
  destruct (GetLabels o !! LabelKeyPluginIntegration) eqn:E; [by rewrite E|].
  unfold pieces, tracking_annotation. rewrite GetAnnotations_SetLabels, GetLabels_SetLabels.
  rewrite lookup_insert_eq. repeat split; [|by eauto].
  intros k Hk. by rewrite GetLabels_SetLabels, lookup_insert_ne.
Qed.

(** Adding a tracker is adding an element to the set, removing one is removing it. *)
Lemma addTrackingAnnotation_spec t o :
  valid_tracker t ->
  trackers_of (addTrackingAnnotation t o) = {[t]} ∪ trackers_of o /\
  same_but_tracking o (addTrackingAnnotation t o).
Proof.
  intros [Hne Hsep]. unfold addTrackingAnnotation. case_bool_decide as Hval.
  - split; [|apply set_tracking_same]. rewrite (pieces_empty o) by done.
    unfold trackers_of, pieces. rewrite tracking_annotation_set, split_no_sep by done. cbn.
    rewrite bool_decide_false by done. set_solver.
  - destruct (slices_contains _ t) eqn:Hin.
    + apply slices_contains_true in Hin. split; [|done].
      assert (t ∈ trackers_of o) by (apply elem_of_trackers; done). set_solver.
    + split; [|apply set_tracking_same]. apply set_eq. intros x.
      rewrite elem_of_union, elem_of_singleton, !elem_of_trackers. fold (pieces o).
      rewrite pieces_set.
      * rewrite elem_of_app, list_elem_of_singleton. split; [naive_solver|].
        intros [->|[]]; auto.
      * by destruct (pieces o).
      * apply Forall_app. split; [apply pieces_no_sep|]. by constructor.
Qed.

Lemma drop_tracker_spec t o :
  t <> "" ->
  match drop_tracker t o with
  | Some o' => trackers_of o' = trackers_of o ∖ {[t]} /\ same_but_tracking o o'
  | None => t ∉ trackers_of o
  end.
Proof.
  intros Hne. unfold drop_tracker. case_bool_decide as Hval; [by rewrite pieces_empty|].
  fold (pieces o). set (upd := List.filter _ (pieces o)).
  assert (forall x, x ∈ upd <-> x ∈ pieces o /\ x <> t) as Hupd.
  { intros x. unfold upd. rewrite !list_elem_of_In, filter_In.
    by rewrite negb_true_iff, bool_decide_eq_false. }
  destruct (Nat.eqb_spec (length upd) 0) as [E|E].
  - split.
    + apply set_eq. intros x. unfold trackers_of at 1, pieces, tracking_annotation.
      rewrite GetAnnotations_SetAnnotations, lookup_delete_eq. cbn.
      rewrite elem_of_difference, elem_of_trackers, elem_of_singleton.
      apply length_zero_iff_nil in E. specialize (Hupd x). rewrite E in Hupd. set_solver.
    + repeat split. intros k Hk. by rewrite GetAnnotations_SetAnnotations, lookup_delete_ne.
  - destruct (Nat.ltb_spec (length upd) (length (pieces o))) as [Hlt|Hge].
    + split; [|apply set_tracking_same]. apply set_eq. intros x.
      rewrite elem_of_difference, !elem_of_trackers, elem_of_singleton, pieces_set.
      * rewrite Hupd. tauto.
      * by destruct upd.
      * apply Forall_forall. intros y [Hy _]%Hupd. by apply elem_of_split_no_sep in Hy.
    + rewrite elem_of_trackers. intros [_ Hin].
      enough (length upd < length (pieces o)) by lia. clear -Hin. unfold upd. clear upd.
      induction (pieces o) as [|y l IH]; [by apply elem_of_nil in Hin|]. cbn.
      pose proof (List.filter_length_le (fun t0 => negb (bool_decide (t0 = t))) l).
      apply elem_of_cons in Hin as [->|Hin].
      * rewrite bool_decide_true by done. cbn. lia.
      * specialize (IH Hin). case_bool_decide; cbn; lia.
Qed.

(** ** Concurrent writers

    The world is what the API server stores, with the highest resource version given
    out, and the log of the writes the program under study has made: the object they
    replaced and the object they submitted.  Between two calls other writers may
    change, add and remove objects; a changed object has a new version.  A read may
    be stale, an update is accepted only for the version it was made from, and a
    failed update may have been applied or not. *)
Definition okey : Type := string * objkey.
Record tworld := mk_tworld {
  tw_objs : gmap okey UObject; tw_rv : Z; tw_log : list (okey * UObject * UObject) }.

Definition interfere (w w' : tworld) : Prop :=
  tw_log w' = tw_log w /\ (tw_rv w <= tw_rv w')%Z /\
  forall k o, tw_objs w' !! k = Some o -> tw_objs w !! k = Some o \/ (tw_rv w < uo_rv o)%Z.

(** [o] is a version of the object at [k]: the stored one has another version, or is it. *)
Definition version_of (k : okey) (o : UObject) (w : tworld) : Prop :=
  (uo_rv o <= tw_rv w)%Z /\
  forall o', tw_objs w !! k = Some o' -> uo_rv o' = uo_rv o -> o' = o.

Definition applied (k : okey) (old o : UObject) (w : tworld) : tworld :=
  let rv := (tw_rv w + 1)%Z in
  mk_tworld (<[k := mk_uobject (uo_meta o) rv (uo_content o)]> (tw_objs w)) rv
    (tw_log w ++ [(k, old, o)]).

Definition tstep (w : tworld) (X : Type) (e : trackE X) : X -> tworld -> Prop :=
  match e in trackE X return X -> tworld -> Prop with
  | TGet kind k => fun x w' =>
      interfere w w' /\
      match x with Ok o => key_of o = k /\ version_of (kind, k) o w' | Err _ => True end
  | TUpdate kind o => fun x w' =>
      exists w1, interfere w w1 /\
        (is_Some x /\ w' = w1 \/
         exists old, tw_objs w1 !! (kind, key_of o) = Some old /\ uo_rv old = uo_rv o /\
                     w' = applied (kind, key_of o) old o w1)
  | TList kind ns _ => fun x w' =>
      interfere w w' /\
      match x with
      | Ok l => Forall (fun o => GetNamespace o = ns /\ version_of (kind, key_of o) o w') l
      | Err _ => True
      end
  end.

Lemma version_of_interfere k o w w' : interfere w w' -> version_of k o w -> version_of k o w'.
Proof.
  intros (_ & Hrv & Hobjs) [Hle Hver]. split; [lia|]. intros o' Ho' Heq.
  destruct (Hobjs _ _ Ho') as [H|H]; [by apply Hver|lia].
Qed.

(** The writes of the program between two worlds all satisfy [P], and there is one
    unless it reports an error. *)
Definition wrote (P : okey -> UObject -> UObject -> Prop) (w w' : tworld) : Prop :=
  exists l, tw_log w' = tw_log w ++ l /\ Forall (fun '(k, old, new) => P k old new) l.
Definition wrote_some (P : okey -> UObject -> UObject -> Prop) (w w' : tworld) : Prop :=
  exists l, tw_log w' = tw_log w ++ l /\ Forall (fun '(k, old, new) => P k old new) l /\ l <> [].

Lemma wrote_refl P w w' : tw_log w' = tw_log w -> wrote P w w'.
Proof. intros H. exists []. by rewrite app_nil_r. Qed.
Lemma wrote_trans P w1 w2 w3 : wrote P w1 w2 -> wrote P w2 w3 -> wrote P w1 w3.
Proof.
  intros (l1 & H1 & F1) (l2 & H2 & F2). exists (l1 ++ l2).
  rewrite H2, H1, app_assoc. split; [done|]. by apply Forall_app.
Qed.
Lemma wrote_wrote_some P w1 w2 w3 : wrote P w1 w2 -> wrote_some P w2 w3 -> wrote_some P w1 w3.
Proof.
  intros (l1 & H1 & F1) (l2 & H2 & F2 & Hne). exists (l1 ++ l2).
  rewrite H2, H1, app_assoc. split; [done|]. split; [by apply Forall_app|].
  intros [_ ?]%app_eq_nil. done.
Qed.
Lemma wrote_some_wrote P w w' : wrote_some P w w' -> wrote P w w'.
Proof. intros (l & ? & ? & _). by exists l. Qed.
Lemma wrote_mono P Q w w' : (forall k o o', P k o o' -> Q k o o') -> wrote P w w' -> wrote Q w w'.
Proof.
  intros H (l & Hl & F). exists l. split; [done|]. eapply Forall_impl; [done|].
  intros [[k o] o']. apply H.
Qed.

(** What one attempt guarantees, the attempts together guarantee. *)
Lemma wp_RetryOnConflict P n fn w :
  0 < n ->
  (forall w, wp tstep fn (fun w' err => wrote P w w' /\ (err = None -> wrote_some P w w')) w) ->
  wp tstep (RetryOnConflict n fn)
    (fun w' err => wrote P w w' /\ (err = None -> wrote_some P w w')) w.
Proof.
  intros Hn Hfn. revert w. induction n as [|n IH]; [lia|]. intros w. cbn [RetryOnConflict].
  apply wp_bind. eapply wp_mono; [|apply Hfn]. intros w1 err [H1 H2]; cbn beta.
  destruct (is_conflict err) eqn:Hc; [|by apply wp_ret].
  destruct n as [|n]; [by apply wp_ret|].
  eapply wp_mono; [|apply IH; lia]. intros w2 err2 [H3 H4].
  split; [by eapply wrote_trans|]. intros He. eapply wrote_wrote_some; eauto.
Qed.

(** A read followed by an update made from it. *)
Lemma wp_update P kind k o o' w w0 :
  version_of (kind, k) o w -> key_of o' = k -> uo_rv o' = uo_rv o ->
  tw_log w = tw_log w0 -> P (kind, k) o o' ->
  wp tstep (trigger (TUpdate kind o'))
    (fun w' err => wrote P w0 w' /\ (err = None -> wrote_some P w0 w')) w.
Proof.
  intros Hver Hk Hrv Hlog HP. wp_step. destruct Hx as (wi & Hint & [[Hx ->]|(old & Hold & Hold' & ->)]).
  - pose proof Hint as (Hl & _ & _).
    split; [apply wrote_refl; congruence|]. intros ->. by destruct Hx.
  - pose proof Hint as (Hl & _ & _). rewrite Hk in *.
    assert (old = o) as ->.
    { apply (version_of_interfere _ _ _ _ Hint) in Hver as [_ Hver]. apply Hver; [done|congruence]. }
    assert (wrote_some P w0 (applied (kind, k) o o' wi)) as Hw.
    { exists [((kind, k), o, o')]. cbn. split; [by rewrite Hl, Hlog|]. by repeat constructor. }
    split; [by apply wrote_some_wrote|done].
Qed.

(** ** Reading values adds trackers *)
Definition adds (ks : okey -> Prop) (t : string) (k : okey) (old new : UObject) : Prop :=
  ks k /\ trackers_of new = {[t]} ∪ trackers_of old /\ same_but_tracking old new.
Definition removes (ks : okey -> Prop) (t : string) (k : okey) (old new : UObject) : Prop :=
  ks k /\ trackers_of new = trackers_of old ∖ {[t]} /\ same_but_tracking old new.

Lemma annotate_once_adds kind k t w :
  valid_tracker t ->
  wp tstep (annotate_once kind k t)
    (fun w' err => wrote (adds (.= (kind, k)) t) w w' /\
                   (err = None -> wrote_some (adds (.= (kind, k)) t) w w')) w.
Proof.
  intros Ht. unfold annotate_once. wp_step. wp_step. destruct Hx as [(Hlog & _ & _) Hx].
  destruct x as [o|e]; [|by apply wp_ret; split; [by apply wrote_refl|]].
  destruct Hx as [Hk Hver].
  destruct (addPluginIntegrationLabel_spec o) as (Hs & Hp & Ha & _).
  destruct (addTrackingAnnotation_spec t (addPluginIntegrationLabel o) Ht) as [Htr Hs'].
  pose proof (same_but_tracking_trans _ _ _ Hs Hs') as (Hc & Hkey & Hrv & Han & Hla).
  eapply wp_update; [done|congruence|done|done|].
  split; [done|]. split; [|by apply (same_but_tracking_trans _ _ _ Hs Hs')].
  rewrite Htr. f_equal. unfold trackers_of. by rewrite Hp.
Qed.

Lemma remove_once_removes kind k t w :
  t <> "" ->
  wp tstep (remove_once kind k t) (fun w' _ => wrote (removes (.= (kind, k)) t) w w') w.
Proof.
  intros Ht. unfold remove_once. wp_step. wp_step. destruct Hx as [(Hlog & _ & _) Hx].
  destruct x as [o|e].
  2:{ case_match; apply wp_ret; by apply wrote_refl. }
  destruct Hx as [Hk Hver]. pose proof (drop_tracker_spec t o Ht) as Hd.
  destruct (drop_tracker t o) as [o'|]; [|apply wp_ret; by apply wrote_refl].
  destruct Hd as [Htr Hs]. pose proof Hs as (_ & Hkey & Hrv & _).
  eapply wp_mono; [|eapply (wp_update (removes (.= (kind, k)) t)); [done|congruence|done|done|done]].
  by intros ?? [? _].
Qed.

Lemma wp_RetryOnConflict_wrote P n fn w :
  (forall w, wp tstep fn (fun w' _ => wrote P w w') w) ->
  wp tstep (RetryOnConflict n fn) (fun w' _ => wrote P w w') w.
Proof.
  intros Hfn. revert w. induction n as [|n IH]; intros w; cbn [RetryOnConflict].
  { apply wp_ret. by apply wrote_refl. }
  apply wp_bind. eapply wp_mono; [|apply Hfn]. intros w1 err H1; cbn beta.
  destruct (is_conflict err); [|by apply wp_ret].
  destruct n as [|n]; [by apply wp_ret|].
  eapply wp_mono; [|apply IH]. intros w2 err2 H2. exact (wrote_trans _ _ _ _ H1 H2).
Qed.

Section resolution.
Variable cel_Evaluate : string -> UObject -> result anyval.
Variable Marshal : anyval -> result string.
Variable LabelSelectorAsSelector : string -> result string.
Variable DefaultRetry : nat.

(** The resources a reference of a Plugin in [ns] may lead to. *)
Definition refers (ns kind : string) (ref : ExternalValueSource) (tracker name : string) : Prop :=
  evs_Name ref <> "" /\ name = evs_Name ref \/
  evs_Selector ref <> None /\ trackingID kind name <> tracker.
Definition referred (ns kind : string) (ref : ExternalValueSource) (tracker : string) (k : okey) : Prop :=
  exists name, k = (kind, mk_key ns name) /\ refers ns kind ref tracker name.
Definition kind_of_ref (defaultKind : string) (ref : ExternalValueSource) : string :=
  if bool_decide (evs_Kind ref = "") then defaultKind else evs_Kind ref.

Lemma annotate_wrote ks kind k t w :
  valid_tracker t -> ks (kind, k) ->
  wp tstep (annotateObjectWithTracking DefaultRetry kind k t)
    (fun w' _ => wrote (adds ks t) w w') w.
Proof.
  intros Ht Hk. apply wp_RetryOnConflict_wrote. clear w. intros w.
  eapply wp_mono; [|by apply annotate_once_adds]. intros w' err [H _].
  eapply wrote_mono; [|exact H]. by intros k' o o' (-> & H2).
Qed.

Lemma resolveByName_adds ns kind ref t w :
  valid_tracker t -> evs_Name ref <> "" ->
  wp tstep (resolveByName cel_Evaluate DefaultRetry ns kind ref t)
    (fun w' _ => wrote (adds (referred ns kind ref t) t) w w') w.
Proof.
  intros Ht Hname. unfold resolveByName. wp_step. wp_step. destruct Hx as [(Hlog & _ & _) _].
  destruct x as [o|e]; [|case_match; apply wp_ret; by apply wrote_refl].
  destruct (cel_Evaluate _ o); [|apply wp_ret; by apply wrote_refl].
  apply wp_bind. eapply wp_mono; [|apply (annotate_wrote (referred ns kind ref t)); [done|]].
  - intros w1 err H. apply wp_ret. eapply wrote_trans; [by apply wrote_refl|exact H].
  - exists (evs_Name ref). split; [done|]. by left.
Qed.

Lemma processResourceList_adds ns kind ref t items w w0 :
  valid_tracker t -> evs_Selector ref <> None -> tw_log w = tw_log w0 ->
  Forall (fun o => GetNamespace o = ns) items ->
  wp tstep (processResourceList cel_Evaluate DefaultRetry items kind (evs_Expression ref) t)
    (fun w' r => wrote (adds (referred ns kind ref t) t) w0 w' /\
       match r with
       | Ok (_, tracked) => Forall (fun id => exists nm, id = trackingID kind nm /\ id <> t) tracked
       | Err _ => True
       end) w.
Proof.
  intros Ht Hsel Hlog Hns. unfold processResourceList.
  apply wp_foreach_bind with (I := fun l w' '(_, tracked) =>
    wrote (adds (referred ns kind ref t) t) w0 w' /\
    Forall (fun id => exists nm, id = trackingID kind nm /\ id <> t) tracked /\
    Forall (fun o => GetNamespace o = ns) l).
  - split; [by apply wrote_refl|]. by split; [constructor|].
  - intros w' [vs tracked] (H1 & H2 & _). by apply wp_ret.
  - intros item l w' [vs tracked] (H1 & H2 & [Hi Hl]%Forall_cons). cbn beta iota.
    case_bool_decide as Hself; [by apply wp_ret|].
    destruct (cel_Evaluate _ item) as [v|e]; [|by repeat apply wp_ret].
    apply wp_bind. eapply wp_mono; [|apply (annotate_wrote (referred ns kind ref t)); [done|]].
    + intros w1 err H. apply wp_ret. split; [by eapply wrote_trans|]. split; [|done].
      apply Forall_app. split; [done|]. constructor; [|done]. eauto.
    + exists (GetName item). split; [|by right]. unfold key_of. by rewrite Hi.
Qed.

(** Resolving a reference only adds the tracker, to the resources it refers to; the
    resources it reports as tracked are among them. *)
Lemma resolveValueFromRef_adds ns optionName ref defaultKind t w :
  valid_tracker t ->
  let kind := kind_of_ref defaultKind ref in
  wp tstep (resolveValueFromRef cel_Evaluate Marshal LabelSelectorAsSelector DefaultRetry
              ns optionName ref defaultKind t)
    (fun w' r => wrote (adds (referred ns kind ref t) t) w w' /\
       match r with
       | Ok (_, tracked) =>
           Forall (fun id => exists nm, id = trackingID kind nm /\ refers ns kind ref t nm) tracked
       | Err _ => True
       end) w.
Proof.
  intros Ht kind. unfold resolveValueFromRef. fold (kind_of_ref defaultKind ref). fold kind.
  apply wp_bind.
  eapply (wp_mono _ _ (fun w' r => wrote (adds (referred ns kind ref t) t) w w' /\
       match r with
       | Ok (_, tracked) =>
           Forall (fun id => exists nm, id = trackingID kind nm /\ refers ns kind ref t nm) tracked
       | Err _ => True
       end)).
  2:{ case_bool_decide as Hn; [apply wp_ret; split; [by apply wrote_refl|constructor]|].
      apply wp_bind. eapply wp_mono; [|by apply resolveByName_adds].
      intros w1 [v|e] H; apply wp_ret; [|done]. split; [done|]. constructor; [|done].
      exists (evs_Name ref). split; [done|]. by left. }
  intros w1 [[v tracked]|e] [Hw1 Htr]; [|by apply wp_ret].
  apply wp_bind. destruct (evs_Selector ref) as [sel|] eqn:Hsel.
  2:{ apply wp_ret. destruct v as [v|]; [|by apply wp_ret]. apply wp_ret. by destruct (Marshal v). }
  apply wp_bind. unfold resolveBySelector.
  destruct (LabelSelectorAsSelector sel) as [sel'|]; [|by repeat apply wp_ret].
  unfold resolveMany. wp_step. wp_step. destruct Hx as [(Hlog & _ & _) Hx].
  destruct x as [items|e]; [|repeat apply wp_ret; split; [|done];
    eapply wrote_trans; [done|by apply wrote_refl]].
  apply wp_bind. eapply wp_mono; [|apply (processResourceList_adds ns kind ref t items _ w1 Ht);
    [by rewrite Hsel|done|by eapply Forall_impl; [exact Hx|intros ? []]]].
  intros w3 [[vs tr]|e] [Hw3 Htr3]; repeat apply wp_ret; [|split; [|done]; by eapply wrote_trans].
  split; [by eapply wrote_trans|]. destruct (Marshal _); [|done].
  apply Forall_app. split; [done|]. eapply Forall_impl; [exact Htr3|].
  intros id [nm [-> Hne]]. exists nm. split; [done|]. right. by rewrite Hsel.
Qed.

(** ** Cleaning up removes them *)
Lemma trackingID_not_empty kind name : trackingID kind name <> "".
Proof. unfold trackingID. by destruct kind. Qed.

Definition untracked (ns : string) (previous current : list string) (k : okey) : Prop :=
  exists id kind name, id ∈ previous /\ not (id ∈ current) /\
    parseTrackingID id = Ok (kind, name) /\ k = (kind, mk_key ns name).

Lemma removeUntracked_removes pluginKind (plugin : Plugin) current w :
  wp tstep (removeUntrackedObjectAnnotations DefaultRetry pluginKind plugin current)
    (fun w' _ => wrote (removes (untracked (GetNamespace plugin)
                         (TrackedObjects (plugin_Status plugin)) current)
                         (trackingID pluginKind (GetName plugin))) w w') w.
Proof.
  unfold removeUntrackedObjectAnnotations. set (P := removes _ _).
  apply wp_foreach_bind with (I := fun l w' _ => wrote P w w' /\
    Forall (fun id => id ∈ TrackedObjects (plugin_Status plugin) /\ id ∉ current) l).
  - split; [by apply wrote_refl|]. apply Forall_forall. intros id.
    unfold findUntrackedObjects. rewrite list_elem_of_In, filter_In, <-list_elem_of_In.
    rewrite negb_true_iff, <-not_true_iff_false, slices_contains_true. done.
  - intros w' errs [H _]. by apply wp_ret.
  - intros id l w' errs (H1 & [[Hid Hid'] Hl]%Forall_cons). cbn beta.
    apply wp_bind. unfold removeTrackingAnnotation.
    destruct (parseTrackingID id) as [[kind name]|e] eqn:Hp; [|by repeat apply wp_ret].
    eapply wp_mono; [|apply wp_RetryOnConflict_wrote; intros w2; apply remove_once_removes;
      apply trackingID_not_empty].
    intros w3 err H. apply wp_ret. split; [|done]. eapply wrote_trans; [done|].
    eapply wrote_mono; [|exact H]. intros k o o' (-> & H2). split; [|done].
    by exists id, kind, name.
Qed.

(** Tracking IDs of Kubernetes names can be read back. *)
Lemma parse_trackingID kind name :
  char_in "/" kind = false -> char_in "/" name = false ->
  parseTrackingID (trackingID kind name) = Ok (kind, name).
Proof.
  intros Hk Hn. unfold parseTrackingID, trackingID.
  change ("/" +:+ name) with (String "/" name).
  rewrite split_app by done. by rewrite split_no_sep.
Qed.

(** A selector that matches nothing but the Plugin itself does not leave the option
    unresolved: the value becomes what the JSON encoder makes of a nil slice. *)
Lemma selector_without_match ns optionName ref defaultKind t sel sel' json
    (R : tworld -> forall X, trackE X -> X -> tworld -> Prop) w :
  evs_Name ref = "" -> evs_Selector ref = Some sel -> LabelSelectorAsSelector sel = Ok sel' ->
  Marshal ANilSlice = Ok json ->
  (forall w x w', R w _ (TList (kind_of_ref defaultKind ref) ns sel') x w' ->
     exists items, x = Ok items /\
       Forall (fun o => trackingID (kind_of_ref defaultKind ref) (GetName o) = t) items) ->
  wp R (resolveValueFromRef cel_Evaluate Marshal LabelSelectorAsSelector DefaultRetry
          ns optionName ref defaultKind t)
    (fun _ r => r = Ok (Some (mk_ov optionName (Some json) None None), [])) w.
Proof.
  intros Hname Hsel Hs Hm HR. unfold resolveValueFromRef. fold (kind_of_ref defaultKind ref).
  rewrite bool_decide_true by done. apply wp_bind, wp_ret. rewrite Hsel.
  unfold resolveBySelector. rewrite Hs. apply wp_bind, wp_bind. unfold resolveMany.
  wp_step. wp_step. destruct (HR _ _ _ Hx) as (items & -> & Hitems).
  apply wp_bind. unfold processResourceList.
  apply wp_foreach_bind with (I := fun l _ s => s = ([], []) /\
    Forall (fun o => trackingID (kind_of_ref defaultKind ref) (GetName o) = t) l).
  - done.
  - intros w' s [-> _]. repeat apply wp_ret. cbn. by rewrite Hm.
  - intros o l w' s [-> [Ho Hl]%Forall_cons]. rewrite bool_decide_true by done. by apply wp_ret.
Qed.
End resolution.
