(* ===== verification/HelmRelease.v ===== *)
(** * HelmRelease: the Flux resource and its builder
      ([internal/flux/helm_release_builder.go], [internal/common/annotations.go])

    What the Plugin controller writes for Flux to install: the specification of a
    [HelmRelease] with the fields the code sets, the builder that fills them in, and
    the status Flux reports.  The types are those of Flux's API, reduced to the
    fields the code touches; a duration is a number of nanoseconds. *)
From S2P Require Import Prelude Conditions Meta PluginTypes.
From Stdlib Require Import ZArith.

(** ** The resource *)
Record ChartReference := mk_chart_ref { cr_Kind : string; cr_Name : string; cr_Namespace : string }.
Record ValuesReference := mk_values_ref {
  vr_Kind : string; vr_Name : string; vr_ValuesKey : string; vr_TargetPath : string }.
Record Install := mk_install { in_CreateNamespace : bool; in_Timeout : option Z; in_Retries : Z }.
Record Upgrade := mk_upgrade { up_CRDs : string; up_Timeout : option Z; up_Retries : Z }.
Record Rollback := mk_rollback { ro_Timeout : option Z }.
Record Uninstall := mk_uninstall { un_Timeout : option Z }.
Record HelmTest := mk_test { te_Enable : bool; te_Timeout : option Z }.
Record IgnoreRule := mk_ignore_rule {
  ir_Group : string; ir_Version : string; ir_Kind : string; ir_Name : string; ir_Paths : list string }.
Record DriftDetection := mk_drift { dd_Mode : string; dd_Ignore : list IgnoreRule }.

Record HelmReleaseSpec := mk_hr_spec {
  hs_ChartRef : option ChartReference;
  hs_Chart : option string;
  hs_MaxHistory : option Z;
  hs_Interval : Z;
  hs_Timeout : option Z;
  hs_Values : string;
  hs_ValuesFrom : list ValuesReference;
  hs_ReleaseName : string;
  hs_StorageNamespace : string;
  hs_TargetNamespace : string;
  hs_Install : option Install;
  hs_Upgrade : option Upgrade;
  hs_Rollback : option Rollback;
  hs_DriftDetection : option DriftDetection;
  hs_Suspend : bool;
  hs_Test : option HelmTest;
  hs_Uninstall : option Uninstall;
  hs_DependsOn : list string;
  hs_KubeConfig : option SecretKeyReference;
  hs_PostRenderers : list (list (string * string))
}.

#[export] Instance ChartReference_eq_dec : EqDecision ChartReference.
Proof. solve_decision. Defined.
#[export] Instance ValuesReference_eq_dec : EqDecision ValuesReference.
Proof. solve_decision. Defined.
#[export] Instance Install_eq_dec : EqDecision Install.
Proof. solve_decision. Defined.
#[export] Instance Upgrade_eq_dec : EqDecision Upgrade.
Proof. solve_decision. Defined.
#[export] Instance Rollback_eq_dec : EqDecision Rollback.
Proof. solve_decision. Defined.
#[export] Instance Uninstall_eq_dec : EqDecision Uninstall.
Proof. solve_decision. Defined.
#[export] Instance HelmTest_eq_dec : EqDecision HelmTest.
Proof. solve_decision. Defined.
#[export] Instance IgnoreRule_eq_dec : EqDecision IgnoreRule.
Proof. solve_decision. Defined.
#[export] Instance DriftDetection_eq_dec : EqDecision DriftDetection.
Proof. solve_decision. Defined.
#[export] Instance HelmReleaseSpec_eq_dec : EqDecision HelmReleaseSpec.
Proof. solve_decision. Defined.

(** [metav1.Condition] *)
Record MetaCondition := mk_mc {
  mc_Status : string; mc_ObservedGeneration : Z; mc_Reason : string; mc_Message : string }.
#[export] Instance MetaCondition_eq_dec : EqDecision MetaCondition.
Proof. solve_decision. Defined.
Record Snapshot := mk_snapshot { sn_FirstDeployed : Z; sn_LastDeployed : Z; sn_Status : string }.
#[export] Instance Snapshot_eq_dec : EqDecision Snapshot.
Proof. solve_decision. Defined.
(** The conditions are a list keyed by type: [meta.FindStatusCondition] is the lookup.
    [hrst_Latest] is what [Status.History.Latest()] answers. *)
Record FluxReleaseStatus := mk_hr_status {
  hrst_Conditions : gmap string MetaCondition;
  hrst_Latest : option Snapshot;
  hrst_LastAttemptedReleaseAction : string
}.
#[export] Instance FluxReleaseStatus_eq_dec : EqDecision FluxReleaseStatus.
Proof. solve_decision. Defined.
Record HelmRelease := mk_hr {
  hr_meta : ObjectMeta; hr_Spec : HelmReleaseSpec; hr_Status : FluxReleaseStatus }.
#[export] Instance HelmRelease_eq_dec : EqDecision HelmRelease.
Proof. solve_decision. Defined.
#[export] Instance HelmRelease_object : Object HelmRelease := {|
  get_meta := hr_meta;
  set_meta m o := mk_hr m (hr_Spec o) (hr_Status o) |}.
#[export] Instance HelmRelease_object_laws : ObjectLaws HelmRelease.
Proof. by split; intros; repeat match goal with o : HelmRelease |- _ => destruct o end. Qed.
Definition FindStatusCondition (hr : HelmRelease) (t : string) : option MetaCondition :=
  hrst_Conditions (hr_Status hr) !! t.
Definition hr_set_spec (s : HelmReleaseSpec) (hr : HelmRelease) : HelmRelease :=
  mk_hr (hr_meta hr) s (hr_Status hr).

(** Constants of Flux's API. *)
Definition fluxReadyCondition : string := "Ready".
Definition ReleasedCondition : string := "Released".
Definition ConditionStalled : string := "Stalled".
Definition UninstallFailedReason : string := "UninstallFailed".
Definition ReleaseActionInstall : string := "install".
Definition ReleaseActionUpgrade : string := "upgrade".
Definition DriftDetectionEnabled : string := "enabled".
Definition CreateReplace : string := "CreateReplace".
Definition HelmChartKind : string := "HelmChart".
Definition ReconcileRequestAnnotation : string := "reconcile.fluxcd.io/requestedAt".
Definition ResetRequestAnnotation : string := "reconcile.fluxcd.io/resetAt".

(** ** The builder

    Its receiver is a pointer that every function returns: a chain of calls is a
    composition. *)
Definition minute : Z := 60000000000.
Definition DefaultInterval : Z := 5 * minute.
Definition DefaultTimeout : Z := 5 * minute.
Definition DefaultRetry : Z := 3.
Definition HelmRepositoryDefaultNamespace : string := "greenhouse".

Definition set_hs_ChartRef (v : option ChartReference) (s : HelmReleaseSpec) : HelmReleaseSpec :=
  mk_hr_spec v (hs_Chart s) (hs_MaxHistory s) (hs_Interval s) (hs_Timeout s) (hs_Values s)
    (hs_ValuesFrom s) (hs_ReleaseName s) (hs_StorageNamespace s) (hs_TargetNamespace s)
    (hs_Install s) (hs_Upgrade s) (hs_Rollback s) (hs_DriftDetection s) (hs_Suspend s)
    (hs_Test s) (hs_Uninstall s) (hs_DependsOn s) (hs_KubeConfig s) (hs_PostRenderers s).
Definition set_hs_Chart (v : option string) (s : HelmReleaseSpec) : HelmReleaseSpec :=
  mk_hr_spec (hs_ChartRef s) v (hs_MaxHistory s) (hs_Interval s) (hs_Timeout s) (hs_Values
    s) (hs_ValuesFrom s) (hs_ReleaseName s) (hs_StorageNamespace s) (hs_TargetNamespace s)
    (hs_Install s) (hs_Upgrade s) (hs_Rollback s) (hs_DriftDetection s) (hs_Suspend s)
    (hs_Test s) (hs_Uninstall s) (hs_DependsOn s) (hs_KubeConfig s) (hs_PostRenderers s).
Definition set_hs_MaxHistory (v : option Z) (s : HelmReleaseSpec) : HelmReleaseSpec :=
  mk_hr_spec (hs_ChartRef s) (hs_Chart s) v (hs_Interval s) (hs_Timeout s) (hs_Values s)
    (hs_ValuesFrom s) (hs_ReleaseName s) (hs_StorageNamespace s) (hs_TargetNamespace s)
    (hs_Install s) (hs_Upgrade s) (hs_Rollback s) (hs_DriftDetection s) (hs_Suspend s)
    (hs_Test s) (hs_Uninstall s) (hs_DependsOn s) (hs_KubeConfig s) (hs_PostRenderers s).
Definition set_hs_Interval (v : Z) (s : HelmReleaseSpec) : HelmReleaseSpec :=
  mk_hr_spec (hs_ChartRef s) (hs_Chart s) (hs_MaxHistory s) v (hs_Timeout s) (hs_Values s)
    (hs_ValuesFrom s) (hs_ReleaseName s) (hs_StorageNamespace s) (hs_TargetNamespace s)
    (hs_Install s) (hs_Upgrade s) (hs_Rollback s) (hs_DriftDetection s) (hs_Suspend s)
    (hs_Test s) (hs_Uninstall s) (hs_DependsOn s) (hs_KubeConfig s) (hs_PostRenderers s).
Definition set_hs_Timeout (v : option Z) (s : HelmReleaseSpec) : HelmReleaseSpec :=
  mk_hr_spec (hs_ChartRef s) (hs_Chart s) (hs_MaxHistory s) (hs_Interval s) v (hs_Values s)
    (hs_ValuesFrom s) (hs_ReleaseName s) (hs_StorageNamespace s) (hs_TargetNamespace s)
    (hs_Install s) (hs_Upgrade s) (hs_Rollback s) (hs_DriftDetection s) (hs_Suspend s)
    (hs_Test s) (hs_Uninstall s) (hs_DependsOn s) (hs_KubeConfig s) (hs_PostRenderers s).
Definition set_hs_Values (v : string) (s : HelmReleaseSpec) : HelmReleaseSpec :=
  mk_hr_spec (hs_ChartRef s) (hs_Chart s) (hs_MaxHistory s) (hs_Interval s) (hs_Timeout s) v
    (hs_ValuesFrom s) (hs_ReleaseName s) (hs_StorageNamespace s) (hs_TargetNamespace s)
    (hs_Install s) (hs_Upgrade s) (hs_Rollback s) (hs_DriftDetection s) (hs_Suspend s)
    (hs_Test s) (hs_Uninstall s) (hs_DependsOn s) (hs_KubeConfig s) (hs_PostRenderers s).
Definition set_hs_ValuesFrom (v : list ValuesReference) (s : HelmReleaseSpec) : HelmReleaseSpec :=
  mk_hr_spec (hs_ChartRef s) (hs_Chart s) (hs_MaxHistory s) (hs_Interval s) (hs_Timeout s)
    (hs_Values s) v (hs_ReleaseName s) (hs_StorageNamespace s) (hs_TargetNamespace s)
    (hs_Install s) (hs_Upgrade s) (hs_Rollback s) (hs_DriftDetection s) (hs_Suspend s)
    (hs_Test s) (hs_Uninstall s) (hs_DependsOn s) (hs_KubeConfig s) (hs_PostRenderers s).
Definition set_hs_ReleaseName (v : string) (s : HelmReleaseSpec) : HelmReleaseSpec :=
  mk_hr_spec (hs_ChartRef s) (hs_Chart s) (hs_MaxHistory s) (hs_Interval s) (hs_Timeout s)
    (hs_Values s) (hs_ValuesFrom s) v (hs_StorageNamespace s) (hs_TargetNamespace s)
    (hs_Install s) (hs_Upgrade s) (hs_Rollback s) (hs_DriftDetection s) (hs_Suspend s)
    (hs_Test s) (hs_Uninstall s) (hs_DependsOn s) (hs_KubeConfig s) (hs_PostRenderers s).
Definition set_hs_StorageNamespace (v : string) (s : HelmReleaseSpec) : HelmReleaseSpec :=
  mk_hr_spec (hs_ChartRef s) (hs_Chart s) (hs_MaxHistory s) (hs_Interval s) (hs_Timeout s)
    (hs_Values s) (hs_ValuesFrom s) (hs_ReleaseName s) v (hs_TargetNamespace s) (hs_Install
    s) (hs_Upgrade s) (hs_Rollback s) (hs_DriftDetection s) (hs_Suspend s) (hs_Test s)
    (hs_Uninstall s) (hs_DependsOn s) (hs_KubeConfig s) (hs_PostRenderers s).
Definition set_hs_TargetNamespace (v : string) (s : HelmReleaseSpec) : HelmReleaseSpec :=
  mk_hr_spec (hs_ChartRef s) (hs_Chart s) (hs_MaxHistory s) (hs_Interval s) (hs_Timeout s)
    (hs_Values s) (hs_ValuesFrom s) (hs_ReleaseName s) (hs_StorageNamespace s) v (hs_Install
    s) (hs_Upgrade s) (hs_Rollback s) (hs_DriftDetection s) (hs_Suspend s) (hs_Test s)
    (hs_Uninstall s) (hs_DependsOn s) (hs_KubeConfig s) (hs_PostRenderers s).
Definition set_hs_Install (v : option Install) (s : HelmReleaseSpec) : HelmReleaseSpec :=
  mk_hr_spec (hs_ChartRef s) (hs_Chart s) (hs_MaxHistory s) (hs_Interval s) (hs_Timeout s)
    (hs_Values s) (hs_ValuesFrom s) (hs_ReleaseName s) (hs_StorageNamespace s)
    (hs_TargetNamespace s) v (hs_Upgrade s) (hs_Rollback s) (hs_DriftDetection s)
    (hs_Suspend s) (hs_Test s) (hs_Uninstall s) (hs_DependsOn s) (hs_KubeConfig s)
    (hs_PostRenderers s).
Definition set_hs_Upgrade (v : option Upgrade) (s : HelmReleaseSpec) : HelmReleaseSpec :=
  mk_hr_spec (hs_ChartRef s) (hs_Chart s) (hs_MaxHistory s) (hs_Interval s) (hs_Timeout s)
    (hs_Values s) (hs_ValuesFrom s) (hs_ReleaseName s) (hs_StorageNamespace s)
    (hs_TargetNamespace s) (hs_Install s) v (hs_Rollback s) (hs_DriftDetection s)
    (hs_Suspend s) (hs_Test s) (hs_Uninstall s) (hs_DependsOn s) (hs_KubeConfig s)
    (hs_PostRenderers s).
Definition set_hs_Rollback (v : option Rollback) (s : HelmReleaseSpec) : HelmReleaseSpec :=
  mk_hr_spec (hs_ChartRef s) (hs_Chart s) (hs_MaxHistory s) (hs_Interval s) (hs_Timeout s)
    (hs_Values s) (hs_ValuesFrom s) (hs_ReleaseName s) (hs_StorageNamespace s)
    (hs_TargetNamespace s) (hs_Install s) (hs_Upgrade s) v (hs_DriftDetection s) (hs_Suspend
    s) (hs_Test s) (hs_Uninstall s) (hs_DependsOn s) (hs_KubeConfig s) (hs_PostRenderers s).
Definition set_hs_DriftDetection (v : option DriftDetection) (s : HelmReleaseSpec) : HelmReleaseSpec :=
  mk_hr_spec (hs_ChartRef s) (hs_Chart s) (hs_MaxHistory s) (hs_Interval s) (hs_Timeout s)
    (hs_Values s) (hs_ValuesFrom s) (hs_ReleaseName s) (hs_StorageNamespace s)
    (hs_TargetNamespace s) (hs_Install s) (hs_Upgrade s) (hs_Rollback s) v (hs_Suspend s)
    (hs_Test s) (hs_Uninstall s) (hs_DependsOn s) (hs_KubeConfig s) (hs_PostRenderers s).
Definition set_hs_Suspend (v : bool) (s : HelmReleaseSpec) : HelmReleaseSpec :=
  mk_hr_spec (hs_ChartRef s) (hs_Chart s) (hs_MaxHistory s) (hs_Interval s) (hs_Timeout s)
    (hs_Values s) (hs_ValuesFrom s) (hs_ReleaseName s) (hs_StorageNamespace s)
    (hs_TargetNamespace s) (hs_Install s) (hs_Upgrade s) (hs_Rollback s) (hs_DriftDetection
    s) v (hs_Test s) (hs_Uninstall s) (hs_DependsOn s) (hs_KubeConfig s) (hs_PostRenderers
    s).
Definition set_hs_Test (v : option HelmTest) (s : HelmReleaseSpec) : HelmReleaseSpec :=
  mk_hr_spec (hs_ChartRef s) (hs_Chart s) (hs_MaxHistory s) (hs_Interval s) (hs_Timeout s)
    (hs_Values s) (hs_ValuesFrom s) (hs_ReleaseName s) (hs_StorageNamespace s)
    (hs_TargetNamespace s) (hs_Install s) (hs_Upgrade s) (hs_Rollback s) (hs_DriftDetection
    s) (hs_Suspend s) v (hs_Uninstall s) (hs_DependsOn s) (hs_KubeConfig s)
    (hs_PostRenderers s).
Definition set_hs_Uninstall (v : option Uninstall) (s : HelmReleaseSpec) : HelmReleaseSpec :=
  mk_hr_spec (hs_ChartRef s) (hs_Chart s) (hs_MaxHistory s) (hs_Interval s) (hs_Timeout s)
    (hs_Values s) (hs_ValuesFrom s) (hs_ReleaseName s) (hs_StorageNamespace s)
    (hs_TargetNamespace s) (hs_Install s) (hs_Upgrade s) (hs_Rollback s) (hs_DriftDetection
    s) (hs_Suspend s) (hs_Test s) v (hs_DependsOn s) (hs_KubeConfig s) (hs_PostRenderers s).
Definition set_hs_DependsOn (v : list string) (s : HelmReleaseSpec) : HelmReleaseSpec :=
  mk_hr_spec (hs_ChartRef s) (hs_Chart s) (hs_MaxHistory s) (hs_Interval s) (hs_Timeout s)
    (hs_Values s) (hs_ValuesFrom s) (hs_ReleaseName s) (hs_StorageNamespace s)
    (hs_TargetNamespace s) (hs_Install s) (hs_Upgrade s) (hs_Rollback s) (hs_DriftDetection
    s) (hs_Suspend s) (hs_Test s) (hs_Uninstall s) v (hs_KubeConfig s) (hs_PostRenderers s).
Definition set_hs_KubeConfig (v : option SecretKeyReference) (s : HelmReleaseSpec) : HelmReleaseSpec :=
  mk_hr_spec (hs_ChartRef s) (hs_Chart s) (hs_MaxHistory s) (hs_Interval s) (hs_Timeout s)
    (hs_Values s) (hs_ValuesFrom s) (hs_ReleaseName s) (hs_StorageNamespace s)
    (hs_TargetNamespace s) (hs_Install s) (hs_Upgrade s) (hs_Rollback s) (hs_DriftDetection
    s) (hs_Suspend s) (hs_Test s) (hs_Uninstall s) (hs_DependsOn s) v (hs_PostRenderers s).
Definition set_hs_PostRenderers (v : list (list (string * string))) (s : HelmReleaseSpec) : HelmReleaseSpec :=
  mk_hr_spec (hs_ChartRef s) (hs_Chart s) (hs_MaxHistory s) (hs_Interval s) (hs_Timeout s)
    (hs_Values s) (hs_ValuesFrom s) (hs_ReleaseName s) (hs_StorageNamespace s)
    (hs_TargetNamespace s) (hs_Install s) (hs_Upgrade s) (hs_Rollback s) (hs_DriftDetection
    s) (hs_Suspend s) (hs_Test s) (hs_Uninstall s) (hs_DependsOn s) (hs_KubeConfig s) v.

Definition NewHelmReleaseSpecBuilder : HelmReleaseSpec :=
  mk_hr_spec None None None 0 None "" [] "" "" "" (Some (mk_install false None 0))
    (Some (mk_upgrade "" None 0)) None (Some (mk_drift "" [])) false
    (Some (mk_test false None)) None [] None [].

Definition WithHelmChartRef (chartRef : option ChartReference) (b : HelmReleaseSpec) :=
  match chartRef with None => b | Some r => set_hs_ChartRef (Some r) b end.
(** [WithChart]; the template is its serialised form *)
Definition WithChart (specRef : string) (b : HelmReleaseSpec) := set_hs_Chart (Some specRef) b.
Definition WithMaxHistory (num : Z) (b : HelmReleaseSpec) :=
  if (num <? 0)%Z then b else set_hs_MaxHistory (Some num) b.
Definition WithInterval (duration : Z) (b : HelmReleaseSpec) :=
  if (duration <=? 0)%Z then b else set_hs_Interval duration b.
Definition WithTimeout (timeout : Z) (b : HelmReleaseSpec) :=
  if (timeout <=? 0)%Z then b else set_hs_Timeout (Some timeout) b.
Definition WithValues (byteValues : option string) (b : HelmReleaseSpec) :=
  match byteValues with None => b | Some v => set_hs_Values v b end.
Definition WithValuesFrom (ref : list ValuesReference) (b : HelmReleaseSpec) :=
  if (length ref =? 0)%nat then b else set_hs_ValuesFrom ref b.
Definition WithReleaseName (name : string) (b : HelmReleaseSpec) :=
  if bool_decide (name = "") then b else set_hs_ReleaseName name b.
Definition WithStorageNamespace (namespace : string) (b : HelmReleaseSpec) :=
  if bool_decide (namespace = "") then b else set_hs_StorageNamespace namespace b.
Definition WithTargetNamespace (namespace : string) (b : HelmReleaseSpec) :=
  if bool_decide (namespace = "") then b else set_hs_TargetNamespace namespace b.
Definition WithInstall (install : option Install) (b : HelmReleaseSpec) :=
  set_hs_Install (Some (default (mk_install false (Some DefaultTimeout) DefaultRetry) install)) b.
Definition WithUpgrade (upgrade : option Upgrade) (b : HelmReleaseSpec) :=
  set_hs_Upgrade (Some (default (mk_upgrade "" (Some DefaultTimeout) DefaultRetry) upgrade)) b.
Definition WithRollback (rollback : option Rollback) (b : HelmReleaseSpec) :=
  set_hs_Rollback (Some (default (mk_rollback (Some DefaultTimeout)) rollback)) b.
Definition WithDriftDetection (driftDetection : option DriftDetection) (b : HelmReleaseSpec) :=
  set_hs_DriftDetection (Some (default (mk_drift DriftDetectionEnabled []) driftDetection)) b.
Definition WithSuspend (suspend : bool) (b : HelmReleaseSpec) := set_hs_Suspend suspend b.
Definition WithTest (test : option HelmTest) (b : HelmReleaseSpec) :=
  let test := default (mk_test true (Some DefaultTimeout)) test in
  if negb (te_Enable test) then b else set_hs_Test (Some test) b.
Definition WithUninstall (uninstall : option Uninstall) (b : HelmReleaseSpec) :=
  set_hs_Uninstall (Some (default (mk_uninstall (Some DefaultTimeout)) uninstall)) b.
Definition WithDependsOn (dependencies : list string) (b : HelmReleaseSpec) :=
  if (length dependencies =? 0)%nat then b else set_hs_DependsOn dependencies b.
Definition WithKubeConfig (kc : SecretKeyReference) (b : HelmReleaseSpec) :=
  if bool_decide (skr_Name kc = "") then b else set_hs_KubeConfig (Some kc) b.
Definition WithPostRenderers (postRenderers : list (list (string * string))) (b : HelmReleaseSpec) :=
  if (length postRenderers =? 0)%nat then b else set_hs_PostRenderers postRenderers b.
Definition Build (b : HelmReleaseSpec) : result HelmReleaseSpec :=
  match hs_ChartRef b with
  | None => Err (new_error "chartRef must be set")
  | Some _ => Ok b
  end.

(** [common.EnsureAnnotation] *)
Definition EnsureAnnotation {O} `{Object O} (key value : string) (obj : O) : O :=
  if bool_decide (value = "") then SetAnnotations (delete key (GetAnnotations obj)) obj
  else SetAnnotations (<[key := value]> (GetAnnotations obj)) obj.

(** ** Reading a built specification

    A function of the builder leaves the fields alone that it does not set. *)
Section frames.
Context {B : Type}.
Variable f : HelmReleaseSpec -> B.
Lemma WithTargetNamespace_frame v b :
  (forall b, f (set_hs_TargetNamespace v b) = f b) -> f (WithTargetNamespace v b) = f b.
Proof. intros Hf. unfold WithTargetNamespace. case_bool_decide; [done|apply Hf]. Qed.
Lemma WithStorageNamespace_frame v b :
  (forall b, f (set_hs_StorageNamespace v b) = f b) -> f (WithStorageNamespace v b) = f b.
Proof. intros Hf. unfold WithStorageNamespace. case_bool_decide; [done|apply Hf]. Qed.
Lemma WithReleaseName_frame v b :
  (forall b, f (set_hs_ReleaseName v b) = f b) -> f (WithReleaseName v b) = f b.
Proof. intros Hf. unfold WithReleaseName. case_bool_decide; [done|apply Hf]. Qed.
Lemma WithKubeConfig_frame v b :
  (forall b, f (set_hs_KubeConfig (Some v) b) = f b) -> f (WithKubeConfig v b) = f b.
Proof. intros Hf. unfold WithKubeConfig. case_bool_decide; [done|apply Hf]. Qed.
Lemma WithValuesFrom_frame v b :
  (forall b, f (set_hs_ValuesFrom v b) = f b) -> f (WithValuesFrom v b) = f b.
Proof. intros Hf. unfold WithValuesFrom. destruct (_ =? _)%nat; [done|apply Hf]. Qed.
Lemma WithDependsOn_frame v b :
  (forall b, f (set_hs_DependsOn v b) = f b) -> f (WithDependsOn v b) = f b.
Proof. intros Hf. unfold WithDependsOn. destruct (_ =? _)%nat; [done|apply Hf]. Qed.
Lemma WithValues_frame v b :
  (forall b, f (set_hs_Values v b) = f b) -> f (WithValues (Some v) b) = f b.
Proof. intros Hf. apply Hf. Qed.
Lemma WithSuspend_frame v b :
  (forall b, f (set_hs_Suspend v b) = f b) -> f (WithSuspend v b) = f b.
Proof. intros Hf. apply Hf. Qed.
Lemma WithDriftDetection_frame v b :
  (forall b, f (set_hs_DriftDetection (Some v) b) = f b) -> f (WithDriftDetection (Some v) b) = f b.
Proof. intros Hf. apply Hf. Qed.
Lemma WithUpgrade_frame v b :
  (forall b, f (set_hs_Upgrade (Some v) b) = f b) -> f (WithUpgrade (Some v) b) = f b.
Proof. intros Hf. apply Hf. Qed.
Lemma WithInstall_frame v b :
  (forall b, f (set_hs_Install (Some v) b) = f b) -> f (WithInstall (Some v) b) = f b.
Proof. intros Hf. apply Hf. Qed.
Lemma WithTest_frame v b : (forall v b, f (set_hs_Test v b) = f b) -> f (WithTest v b) = f b.
Proof. intros Hf. unfold WithTest. destruct (negb _); [done|apply Hf]. Qed.
Lemma WithMaxHistory_frame v b :
  (forall v b, f (set_hs_MaxHistory v b) = f b) -> f (WithMaxHistory v b) = f b.
Proof. intros Hf. unfold WithMaxHistory. destruct (_ <? _)%Z; [done|apply Hf]. Qed.
Lemma WithInterval_frame v b :
  (forall v b, f (set_hs_Interval v b) = f b) -> f (WithInterval v b) = f b.
Proof. intros Hf. unfold WithInterval. destruct (_ <=? _)%Z; [done|apply Hf]. Qed.
Lemma WithTimeout_frame v b :
  (forall v b, f (set_hs_Timeout v b) = f b) -> f (WithTimeout v b) = f b.
Proof. intros Hf. unfold WithTimeout. destruct (_ <=? _)%Z; [done|apply Hf]. Qed.
End frames.

(** A function that skips the zero value of a field that still has it sets it. *)
Lemma WithTargetNamespace_get v b :
  hs_TargetNamespace b = "" -> hs_TargetNamespace (WithTargetNamespace v b) = v.
Proof. unfold WithTargetNamespace. case_bool_decide; naive_solver. Qed.
Lemma WithStorageNamespace_get v b :
  hs_StorageNamespace b = "" -> hs_StorageNamespace (WithStorageNamespace v b) = v.
Proof. unfold WithStorageNamespace. case_bool_decide; naive_solver. Qed.
Lemma WithReleaseName_get v b :
  hs_ReleaseName b = "" -> hs_ReleaseName (WithReleaseName v b) = v.
Proof. unfold WithReleaseName. case_bool_decide; naive_solver. Qed.
Lemma WithKubeConfig_get v b :
  hs_KubeConfig b = None ->
  hs_KubeConfig (WithKubeConfig v b) = if bool_decide (skr_Name v = "") then None else Some v.
Proof. unfold WithKubeConfig. by case_bool_decide. Qed.
Lemma WithValuesFrom_get v b :
  hs_ValuesFrom b = [] -> hs_ValuesFrom (WithValuesFrom v b) = v.
Proof. unfold WithValuesFrom. by destruct v. Qed.
Lemma WithDependsOn_get v b :
  hs_DependsOn b = [] -> hs_DependsOn (WithDependsOn v b) = v.
Proof. unfold WithDependsOn. by destruct v. Qed.

(** Reads the field [f] off a chain of calls of the builder. *)
Ltac built_step f :=
  first [ rewrite (WithTargetNamespace_frame f) by (intros; exact eq_refl)
        | rewrite (WithStorageNamespace_frame f) by (intros; exact eq_refl)
        | rewrite (WithReleaseName_frame f) by (intros; exact eq_refl)
        | rewrite (WithKubeConfig_frame f) by (intros; exact eq_refl)
        | rewrite (WithValuesFrom_frame f) by (intros; exact eq_refl)
        | rewrite (WithDependsOn_frame f) by (intros; exact eq_refl)
        | rewrite (WithValues_frame f) by (intros; exact eq_refl)
        | rewrite (WithSuspend_frame f) by (intros; exact eq_refl)
        | rewrite (WithDriftDetection_frame f) by (intros; exact eq_refl)
        | rewrite (WithUpgrade_frame f) by (intros; exact eq_refl)
        | rewrite (WithInstall_frame f) by (intros; exact eq_refl)
        | rewrite (WithTest_frame f) by (intros; exact eq_refl)
        | rewrite (WithMaxHistory_frame f) by (intros; exact eq_refl)
        | rewrite (WithInterval_frame f) by (intros; exact eq_refl)
        | rewrite (WithTimeout_frame f) by (intros; exact eq_refl) ].
Ltac built f :=
  repeat built_step f;
  first [ rewrite WithTargetNamespace_get
        | rewrite WithStorageNamespace_get
        | rewrite WithReleaseName_get
        | rewrite WithKubeConfig_get
        | rewrite WithValuesFrom_get
        | rewrite WithDependsOn_get
        | idtac ];
  repeat built_step f.
