(* ===== verification/FluxObjects.v ===== *)
(** * FluxObjects: the resources of Flux the catalogs and plugin definitions write

    The types are those of Flux's API reduced to the fields the code touches; a duration
    is a number of nanoseconds and conditions are keyed by type, as in [HelmRelease].  The
    calls on them are those of controller-runtime: reads, [controllerutil.CreateOrPatch]
    and [CreateOrUpdate] with their mutate function, updates, deletes and lists.
    [flux_step] is their documented contract over stores of objects: any call may fail and
    then changes nothing, what is written may come back with other fields filled in, and
    a deleted object may stay for its finalizers, marked as deleted. *)
From S2P Require Import Prelude Effects Conditions Meta HelmRelease.
From Stdlib Require Import ZArith.

(** [metav1.TypeMeta] as group, version and kind *)
Record TypeMeta := mk_tm { tm_Group : string; tm_Version : string; tm_Kind : string }.
#[export] Instance TypeMeta_eq_dec : EqDecision TypeMeta.
Proof. solve_decision. Defined.
(** [GroupVersionKind.String] *)
Definition gvk_String (t : TypeMeta) : string := tm_Group t +:+ "/" +:+ tm_Version t +:+ ", Kind=" +:+ tm_Kind t.
Abbreviation flux_conditions := (gmap string MetaCondition).

(** ** Objects *)
Record GitRepositoryRef := mk_git_ref { git_Commit : string; git_Tag : string; git_Branch : string }.
#[export] Instance GitRepositoryRef_eq_dec : EqDecision GitRepositoryRef.
Proof. solve_decision. Defined.
Record GitRepositorySpec := mk_git_spec {
  git_URL : string; git_Interval : Z; git_Reference : option GitRepositoryRef; git_Provider : string;
  git_Suspend : bool; git_SecretRef : option string }.
#[export] Instance GitRepositorySpec_eq_dec : EqDecision GitRepositorySpec.
Proof. solve_decision. Defined.
Record GitRepository := mk_git {
  git_type : TypeMeta; git_meta : ObjectMeta; git_Spec : GitRepositorySpec; git_conditions : flux_conditions }.
Record SourceReference := mk_source_ref { sr_Alias : string; sr_Name : string; sr_Namespace : string; sr_Kind : string }.
#[export] Instance SourceReference_eq_dec : EqDecision SourceReference.
Proof. solve_decision. Defined.
Record CopyOperation := mk_copy { cp_From : string; cp_To : string }.
#[export] Instance CopyOperation_eq_dec : EqDecision CopyOperation.
Proof. solve_decision. Defined.
Record OutputArtifact := mk_output { oa_Name : string; oa_Copy : list CopyOperation }.
#[export] Instance OutputArtifact_eq_dec : EqDecision OutputArtifact.
Proof. solve_decision. Defined.
Record ArtifactGenerator := mk_generator {
  ag_type : TypeMeta; ag_meta : ObjectMeta; ag_Sources : list SourceReference;
  ag_OutputArtifacts : list OutputArtifact; ag_conditions : flux_conditions }.
(** [Status.Artifact] as URL and digest; nil until Flux produced one *)
Record ExternalArtifact := mk_external {
  ea_type : TypeMeta; ea_meta : ObjectMeta; ea_Artifact : option (string * string); ea_conditions : flux_conditions }.
Record Selector := mk_selector { sel_Group : string; sel_Name : string }.
#[export] Instance Selector_eq_dec : EqDecision Selector.
Proof. solve_decision. Defined.
Record Patch := mk_patch { patch_Patch : string; patch_Target : Selector }.
#[export] Instance Patch_eq_dec : EqDecision Patch.
Proof. solve_decision. Defined.
Record KustomizationSpec := mk_ku_spec {
  ku_SourceRef : string * string * string * string;   (* apiVersion, kind, name, namespace *)
  ku_Patches : list Patch; ku_ServiceAccountName : string; ku_Path : string; ku_TargetNamespace : string;
  ku_CommonLabels : option strmap; ku_Suspend : bool; ku_Interval : Z }.
#[export] Instance KustomizationSpec_eq_dec : EqDecision KustomizationSpec.
Proof. solve_decision. Defined.
Record Kustomization := mk_ku {
  ku_type : TypeMeta; ku_meta : ObjectMeta; ku_Spec : KustomizationSpec; ku_conditions : flux_conditions }.
Record HelmRepositorySpec := mk_repo_spec { repo_Type : string; repo_Interval : Z; repo_URL : string; repo_Insecure : bool }.
#[export] Instance HelmRepositorySpec_eq_dec : EqDecision HelmRepositorySpec.
Proof. solve_decision. Defined.
Record HelmRepository := mk_repo {
  repo_type : TypeMeta; repo_meta : ObjectMeta; repo_Spec : HelmRepositorySpec; repo_conditions : flux_conditions }.
Record HelmChartSpec := mk_chart_spec {
  ch_Chart : string; ch_Interval : Z; ch_ReconcileStrategy : string; ch_SourceKind : string; ch_SourceName : string;
  ch_Version : string }.
#[export] Instance HelmChartSpec_eq_dec : EqDecision HelmChartSpec.
Proof. solve_decision. Defined.
Record FluxHelmChart := mk_flux_chart {
  ch_type : TypeMeta; ch_meta : ObjectMeta; ch_Spec : HelmChartSpec; ch_conditions : flux_conditions }.

#[export] Instance GitRepository_object : Object GitRepository := {|
  get_meta := git_meta; set_meta m o := mk_git (git_type o) m (git_Spec o) (git_conditions o) |}.
#[export] Instance ArtifactGenerator_object : Object ArtifactGenerator := {|
  get_meta := ag_meta; set_meta m o := mk_generator (ag_type o) m (ag_Sources o) (ag_OutputArtifacts o) (ag_conditions o) |}.
#[export] Instance ExternalArtifact_object : Object ExternalArtifact := {|
  get_meta := ea_meta; set_meta m o := mk_external (ea_type o) m (ea_Artifact o) (ea_conditions o) |}.
#[export] Instance Kustomization_object : Object Kustomization := {|
  get_meta := ku_meta; set_meta m o := mk_ku (ku_type o) m (ku_Spec o) (ku_conditions o) |}.
#[export] Instance HelmRepository_object : Object HelmRepository := {|
  get_meta := repo_meta; set_meta m o := mk_repo (repo_type o) m (repo_Spec o) (repo_conditions o) |}.
#[export] Instance FluxHelmChart_object : Object FluxHelmChart := {|
  get_meta := ch_meta; set_meta m o := mk_flux_chart (ch_type o) m (ch_Spec o) (ch_conditions o) |}.
#[export] Instance GitRepository_object_laws : ObjectLaws GitRepository.
Proof. by split; intros; repeat match goal with o : GitRepository |- _ => destruct o end. Qed.
#[export] Instance ArtifactGenerator_object_laws : ObjectLaws ArtifactGenerator.
Proof. by split; intros; repeat match goal with o : ArtifactGenerator |- _ => destruct o end. Qed.
#[export] Instance ExternalArtifact_object_laws : ObjectLaws ExternalArtifact.
Proof. by split; intros; repeat match goal with o : ExternalArtifact |- _ => destruct o end. Qed.
#[export] Instance Kustomization_object_laws : ObjectLaws Kustomization.
Proof. by split; intros; repeat match goal with o : Kustomization |- _ => destruct o end. Qed.
#[export] Instance HelmRepository_object_laws : ObjectLaws HelmRepository.
Proof. by split; intros; repeat match goal with o : HelmRepository |- _ => destruct o end. Qed.
#[export] Instance FluxHelmChart_object_laws : ObjectLaws FluxHelmChart.
Proof. by split; intros; repeat match goal with o : FluxHelmChart |- _ => destruct o end. Qed.

(** ** Kinds *)
Inductive fluxKind :=
| FGitRepository | FArtifactGenerator | FExternalArtifact | FKustomization | FHelmRepository | FHelmChart.
#[export] Instance fluxKind_eq_dec : EqDecision fluxKind.
Proof. solve_decision. Defined.
Definition flux_object (k : fluxKind) : Type :=
  match k with
  | FGitRepository => GitRepository
  | FArtifactGenerator => ArtifactGenerator
  | FExternalArtifact => ExternalArtifact
  | FKustomization => Kustomization
  | FHelmRepository => HelmRepository
  | FHelmChart => FluxHelmChart
  end.
Definition flux_kind_name (k : fluxKind) : string :=
  match k with
  | FGitRepository => "GitRepository"
  | FArtifactGenerator => "ArtifactGenerator"
  | FExternalArtifact => "ExternalArtifact"
  | FKustomization => "Kustomization"
  | FHelmRepository => "HelmRepository"
  | FHelmChart => "HelmChart"
  end.
#[export] Instance flux_object_object (k : fluxKind) : Object (flux_object k) :=
  match k with
  | FGitRepository => GitRepository_object
  | FArtifactGenerator => ArtifactGenerator_object
  | FExternalArtifact => ExternalArtifact_object
  | FKustomization => Kustomization_object
  | FHelmRepository => HelmRepository_object
  | FHelmChart => FluxHelmChart_object
  end.
Definition conditions_of (k : fluxKind) : flux_object k -> flux_conditions :=
  match k with
  | FGitRepository => git_conditions
  | FArtifactGenerator => ag_conditions
  | FExternalArtifact => ea_conditions
  | FKustomization => ku_conditions
  | FHelmRepository => repo_conditions
  | FHelmChart => ch_conditions
  end.
Definition type_of (k : fluxKind) : flux_object k -> TypeMeta :=
  match k with
  | FGitRepository => git_type
  | FArtifactGenerator => ag_type
  | FExternalArtifact => ea_type
  | FKustomization => ku_type
  | FHelmRepository => repo_type
  | FHelmChart => ch_type
  end.

(** ** Calls *)
Inductive fluxobjE : Type -> Type :=
| FxGet (k : fluxKind) (key : objkey) : fluxobjE (result (flux_object k))
| FxCreateOrPatch (k : fluxKind) (o : flux_object k) (mutate : flux_object k -> result (flux_object k)) :
    fluxobjE (option error)
| FxCreateOrUpdate (k : fluxKind) (o : flux_object k) (mutate : flux_object k -> result (flux_object k)) :
    fluxobjE (option error)
| FxUpdate (k : fluxKind) (o : flux_object k) : fluxobjE (option error)
| FxDelete (k : fluxKind) (key : objkey) : fluxobjE (option error)
| FxListLabelled (k : fluxKind) (namespace label value : string) : fluxobjE (result (list (flux_object k))).

(** ** Stores *)
Record flux_world := mk_flux_world {
  fw_gits : gmap objkey GitRepository;
  fw_generators : gmap objkey ArtifactGenerator;
  fw_artifacts : gmap objkey ExternalArtifact;
  fw_kustomizations : gmap objkey Kustomization;
  fw_repositories : gmap objkey HelmRepository;
  fw_charts : gmap objkey FluxHelmChart }.
Definition get_flux (k : fluxKind) (w : flux_world) : gmap objkey (flux_object k) :=
  match k with
  | FGitRepository => fw_gits w
  | FArtifactGenerator => fw_generators w
  | FExternalArtifact => fw_artifacts w
  | FKustomization => fw_kustomizations w
  | FHelmRepository => fw_repositories w
  | FHelmChart => fw_charts w
  end.
Definition put_flux (k : fluxKind) : gmap objkey (flux_object k) -> flux_world -> flux_world :=
  match k with
  | FGitRepository => fun s '(mk_flux_world _ b c d e f) => mk_flux_world s b c d e f
  | FArtifactGenerator => fun s '(mk_flux_world a _ c d e f) => mk_flux_world a s c d e f
  | FExternalArtifact => fun s '(mk_flux_world a b _ d e f) => mk_flux_world a b s d e f
  | FKustomization => fun s '(mk_flux_world a b c _ e f) => mk_flux_world a b c s e f
  | FHelmRepository => fun s '(mk_flux_world a b c d _ f) => mk_flux_world a b c d s f
  | FHelmChart => fun s '(mk_flux_world a b c d e _) => mk_flux_world a b c d e s
  end.
Lemma get_put_flux k s w : get_flux k (put_flux k s w) = s.
Proof. by destruct k, w. Qed.
Lemma get_put_flux_ne k k' s w : k' <> k -> get_flux k' (put_flux k s w) = get_flux k' w.
Proof. by destruct k, k', w. Qed.
Definition lookup_flux (k : fluxKind) (key : objkey) (w : flux_world) : option (flux_object k) := get_flux k w !! key.
Definition insert_flux (k : fluxKind) (key : objkey) (o : flux_object k) (w : flux_world) : flux_world :=
  put_flux k (<[key := o]> (get_flux k w)) w.
Definition delete_flux (k : fluxKind) (key : objkey) (w : flux_world) : flux_world :=
  put_flux k (delete key (get_flux k w)) w.
Lemma lookup_insert_flux k key o w : lookup_flux k key (insert_flux k key o w) = Some o.
Proof. unfold lookup_flux, insert_flux. rewrite get_put_flux. apply lookup_insert_eq. Qed.
Lemma lookup_insert_flux_ne k key o w k' key' :
  (k', key') <> (k, key) -> lookup_flux k' key' (insert_flux k key o w) = lookup_flux k' key' w.
Proof.
  intros Hne. unfold lookup_flux, insert_flux. destruct (decide (k' = k)) as [->|Hk].
  - rewrite get_put_flux. apply lookup_insert_ne. congruence.
  - by rewrite get_put_flux_ne.
Qed.
Lemma lookup_delete_flux k key w : lookup_flux k key (delete_flux k key w) = None.
Proof. unfold lookup_flux, delete_flux. rewrite get_put_flux. apply lookup_delete_eq. Qed.
Lemma lookup_delete_flux_ne k key w k' key' :
  (k', key') <> (k, key) -> lookup_flux k' key' (delete_flux k key w) = lookup_flux k' key' w.
Proof.
  intros Hne. unfold lookup_flux, delete_flux. destruct (decide (k' = k)) as [->|Hk].
  - rewrite get_put_flux. apply lookup_delete_ne. congruence.
  - by rewrite get_put_flux_ne.
Qed.

(** The server keeps the key, labels, annotations and specification it was sent. *)
Definition spec_kept (k : fluxKind) : flux_object k -> flux_object k -> Prop :=
  match k with
  | FGitRepository => fun o o' => git_Spec o' = git_Spec o
  | FArtifactGenerator => fun o o' => ag_Sources o' = ag_Sources o /\ ag_OutputArtifacts o' = ag_OutputArtifacts o
  | FExternalArtifact => fun _ _ => True
  | FKustomization => fun o o' => ku_Spec o' = ku_Spec o
  | FHelmRepository => fun o o' => repo_Spec o' = repo_Spec o
  | FHelmChart => fun o o' => ch_Spec o' = ch_Spec o
  end.
Definition accepted (k : fluxKind) (o o' : flux_object k) : Prop :=
  key_of o' = key_of o /\ GetLabels o' = GetLabels o /\ GetAnnotations o' = GetAnnotations o /\
  om_owners (get_meta o') = om_owners (get_meta o) /\ spec_kept k o o'.
Definition upserted (k : fluxKind) (o : flux_object k) (mutate : flux_object k -> result (flux_object k))
    (w : flux_world) (err : option error) (w' : flux_world) : Prop :=
  match err with
  | Some _ => w' = w
  | None => exists m o', mutate (default o (lookup_flux k (key_of o) w)) = Ok m /\ key_of m = key_of o /\
      accepted k m o' /\ w' = insert_flux k (key_of o) o' w
  end.
Definition flux_step (w : flux_world) X (e : fluxobjE X) : X -> flux_world -> Prop :=
  match e in fluxobjE X return X -> flux_world -> Prop with
  | FxGet k key => fun r w' => w' = w /\
      match r with
      | Ok o => lookup_flux k key w = Some o /\ key_of o = key
      | Err e => is_not_found (Some e) = true -> lookup_flux k key w = None
      end
  | FxCreateOrPatch k o mutate | FxCreateOrUpdate k o mutate => upserted k o mutate w
  | FxUpdate k o => fun err w' =>
      match err with
      | Some _ => w' = w
      | None => exists o', is_Some (lookup_flux k (key_of o) w) /\ accepted k o o' /\ w' = insert_flux k (key_of o) o' w
      end
  | FxDelete k key => fun err w' =>
      match err with
      | Some e => w' = w /\ (is_not_found (Some e) = true -> lookup_flux k key w = None)
      | None => w' = delete_flux k key w \/
          exists o o', lookup_flux k key w = Some o /\ accepted k o o' /\ GetDeletionTimestamp o' <> None /\
            w' = insert_flux k key o' w
      end
  | FxListLabelled k namespace label value => fun r w' => w' = w /\
      match r with
      | Ok l => forall o, o ∈ l <-> lookup_flux k (key_of o) w = Some o /\ GetNamespace o = namespace /\
                  GetLabels o !! label = Some value
      | Err _ => True
      end
  end.
(** Nothing but these objects changed. *)
Definition only_objects (cells : list (fluxKind * objkey)) (w w' : flux_world) : Prop :=
  forall k key, (k, key) ∉ cells -> lookup_flux k key w' = lookup_flux k key w.
Lemma only_objects_refl l w : only_objects l w w.
Proof. done. Qed.
Lemma only_objects_trans l w w1 w2 : only_objects l w w1 -> only_objects l w1 w2 -> only_objects l w w2.
Proof. intros H H' k key Hn. by rewrite H', H. Qed.
Lemma only_objects_weaken l l' w w' : l ⊆ l' -> only_objects l w w' -> only_objects l' w w'.
Proof. intros Hl H k key Hn. apply H. set_solver. Qed.
Lemma only_objects_insert l k key o w : (k, key) ∈ l -> only_objects l w (insert_flux k key o w).
Proof. intros Hin k' key' Hn. apply lookup_insert_flux_ne. congruence. Qed.
Lemma only_objects_delete l k key w : (k, key) ∈ l -> only_objects l w (delete_flux k key w).
Proof. intros Hin k' key' Hn. apply lookup_delete_flux_ne. congruence. Qed.

(** ** Rules for programs that make these calls among others *)
Section rules.
Context {E : Type -> Type} (R : flux_world -> forall X, E X -> X -> flux_world -> Prop) (phi : forall X, fluxobjE X -> E X).
Hypothesis phi_step : forall w X e x w', R w X (phi X e) x w' -> flux_step w X e x w'.
Local Abbreviation wpr := (wp R).
Lemma wp_flux_upsert (update : bool) k key o mutate Q w :
  key_of o = key -> (forall e, Q w (Some e)) ->
  (forall m o', mutate (default o (lookup_flux k key w)) = Ok m -> key_of m = key -> accepted k m o' ->
     Q (insert_flux k key o' w) None) ->
  wpr (trigger (phi _ (if update then FxCreateOrUpdate k o mutate else FxCreateOrPatch k o mutate))) Q w.
Proof using phi_step.
  intros <- He Ho. wp_step. apply phi_step in Hx. destruct update; cbn in Hx; unfold upserted in Hx;
    (destruct x as [e|]; [subst; apply He|]); destruct Hx as (m & o' & ? & ? & ? & ->); by eapply Ho.
Qed.
Lemma wp_flux_update k key o Q w :
  key_of o = key -> (forall e, Q w (Some e)) ->
  (forall o', is_Some (lookup_flux k key w) -> accepted k o o' -> Q (insert_flux k key o' w) None) ->
  wpr (trigger (phi _ (FxUpdate k o))) Q w.
Proof using phi_step.
  intros <- He Ho. wp_step. apply phi_step in Hx. cbn in Hx. destruct x as [e|]; [subst; apply He|].
  destruct Hx as (o' & ? & ? & ->). by eapply Ho.
Qed.
Lemma wp_flux_get k key Q w :
  (forall o, lookup_flux k key w = Some o -> key_of o = key -> Q w (Ok o)) ->
  (forall e, (is_not_found (Some e) = true -> lookup_flux k key w = None) -> Q w (Err e)) ->
  wpr (trigger (phi _ (FxGet k key))) Q w.
Proof using phi_step.
  intros Ho He. wp_step. apply phi_step in Hx. destruct Hx as [-> Hx]. destruct x as [o|e]; [|by apply He].
  destruct Hx. by apply Ho.
Qed.
(** Deleted, or waiting for its finalizers *)
Definition gone (k : fluxKind) (key : objkey) (w : flux_world) : Prop :=
  match lookup_flux k key w with None => True | Some o => GetDeletionTimestamp o <> None end.
Definition gone_kept (w w' : flux_world) : Prop := forall k key, gone k key w -> gone k key w'.
Lemma gone_kept_refl w : gone_kept w w.
Proof. by intros k key. Qed.
Lemma gone_kept_trans w w1 w2 : gone_kept w w1 -> gone_kept w1 w2 -> gone_kept w w2.
Proof. intros H1 H2 k key H. by apply H2, H1. Qed.
Lemma wp_flux_delete k key Q w :
  (forall e, (is_not_found (Some e) = true -> gone k key w) -> Q w (Some e)) ->
  (forall w', only_objects [(k, key)] w w' -> gone_kept w w' -> gone k key w' -> Q w' None) ->
  wpr (trigger (phi _ (FxDelete k key))) Q w.
Proof using phi_step.
  intros He Ho. wp_step. apply phi_step in Hx. cbn [flux_step] in Hx. destruct x as [e|].
  - destruct Hx as [-> Hx]. apply He. intros Hn. unfold gone. by rewrite (Hx Hn).
  - assert (gone k key w0 /\ only_objects [(k, key)] w w0) as [Hg Hw].
    { destruct Hx as [->|(o & o' & _ & _ & Hd & ->)].
      - split; [unfold gone; by rewrite lookup_delete_flux|]. apply only_objects_delete. constructor.
      - split; [unfold gone; by rewrite lookup_insert_flux|]. apply only_objects_insert. constructor. }
    apply Ho; [done| |done]. intros k' key' Hg'. destruct (decide ((k', key') = (k, key))) as [[= -> ->]|Hne]; [done|].
    unfold gone. by rewrite Hw by (rewrite list_elem_of_singleton; congruence).
Qed.
End rules.

(** ** A store to run programs against *)
Module FluxRun.
(** A store that never fails and keeps what it is sent *)
Definition store_flux (w : flux_world) X (e : fluxobjE X) : option (X * flux_world) :=
  match e in fluxobjE X return option (X * flux_world) with
  | FxGet k key =>
      match lookup_flux k key w with
      | Some o => if bool_decide (key_of o = key) then Some (Ok o, w) else None
      | None => Some (Err (mk_error NotFound "not found"), w)
      end
  | FxCreateOrPatch k o mutate | FxCreateOrUpdate k o mutate =>
      match mutate (default o (lookup_flux k (key_of o) w)) with
      | Ok m => if bool_decide (key_of m = key_of o) then Some (None, insert_flux k (key_of o) m w) else None
      | Err e => Some (Some e, w)
      end
  | FxUpdate k o =>
      match lookup_flux k (key_of o) w with
      | Some _ => Some (None, insert_flux k (key_of o) o w)
      | None => None
      end
  | FxDelete k key =>
      match lookup_flux k key w with
      | Some _ => Some (None, delete_flux k key w)
      | None => Some (Some (mk_error NotFound "not found"), w)
      end
  | FxListLabelled k namespace label value =>
      if bool_decide (map_Forall (fun key o => key_of o = key) (get_flux k w)) then
        Some (Ok (filter (fun o => GetNamespace o = namespace /\ GetLabels o !! label = Some value)
                    (map_to_list (get_flux k w)).*2), w)
      else None
  end.
Lemma accepted_refl k (o : flux_object k) : accepted k o o.
Proof. by destruct k. Qed.
Lemma store_flux_allowed w X e x w' : store_flux w X e = Some (x, w') -> flux_step w X e x w'.
Proof.
  destruct e; cbn [store_flux flux_step]; unfold upserted.
  - destruct (lookup_flux k key w) as [o|] eqn:Hl; [case_bool_decide; [|done]|]; intros [= <- <-]; by split.
  - destruct (mutate _) as [m|e] eqn:Hm; [case_bool_decide; [|done]|]; intros [= <- <-]; [|done].
    exists m, m. repeat split; try done. apply accepted_refl.
  - destruct (mutate _) as [m|e] eqn:Hm; [case_bool_decide; [|done]|]; intros [= <- <-]; [|done].
    exists m, m. repeat split; try done. apply accepted_refl.
  - destruct (lookup_flux k (key_of o) w) eqn:Hl; [|done]. intros [= <- <-].
    exists o. split; [by eexists|]. split; [apply accepted_refl|done].
  - destruct (lookup_flux k key w) eqn:Hl; intros [= <- <-]; [by left|by split].
  - case_bool_decide as Hk; [|done]. intros [= <- <-]. split; [done|]. intros o. rewrite list_elem_of_filter, list_elem_of_fmap.
    unfold lookup_flux. split.
    + intros (? & [key o'] & -> & Hin%elem_of_map_to_list). cbn. by rewrite (Hk key o' Hin).
    + intros (Hl & ?). split; [done|]. exists (key_of o, o). split; [done|]. by apply elem_of_map_to_list.
Qed.
End FluxRun.
