(* ===== verification/DefinitionController.v ===== *)
(** * DefinitionController: the controllers of plugin definitions
      ([internal/controller/plugindefinition], [internal/flux/utils.go])

    A definition that names a Helm chart becomes a HelmRepository, shared by all definitions
    with the same repository, and a HelmChart of its own, named after the definition and the
    version; charts of former versions are deleted.  Charts in OCI registries are replicated to
    the mirror of the Organization first ([OciMirror]).  Both kinds of definition are handled by
    the same code through the interface [common.GenericPluginDefinition], the class
    [DefinitionObject] here; cluster-wide definitions work in the namespace [greenhouse].

    Calls are those on Flux objects ([FluxObjects]), the reads of the mirror configuration and
    the fetch of a manifest; parameters are those of [OciMirror], SHA-256 and the owner
    references of controllerutil.  Events and logs have no model. *)
From S2P Require Import Prelude Effects Conditions Meta Lifecycle HelmRelease FluxObjects OciMirror PluginTypes PluginDefinitions.
From Stdlib Require Import ZArith Ascii.

Definition HelmChartReadyCondition : string := "HelmChartReady".
Definition PluginDefinitionProgressingReason : string := "ReconcileProgressing".
Definition OCIReplicationReadyCondition : string := "OCIReplicationReady".
Definition OCIReplicationFailedReason : string := "OCIReplicationFailed".
Definition OCIReplicationSucceededReason : string := "OCIReplicationSucceeded".
Definition OCIReplicationNotConfiguredReason : string := "OCIReplicationNotConfigured".
Definition ReplicationStatusReplicated : string := "Replicated".

(** ** The two kinds *)
Definition pd_set_conditions (sc : StatusConditions) (s : PluginDefinitionStatus) : PluginDefinitionStatus :=
  mk_pd_status sc (pd_LastSyncedArtifact s).
Definition pd_set_artifact (a : option LastSyncedArtifact) (s : PluginDefinitionStatus) : PluginDefinitionStatus :=
  mk_pd_status (pd_conditions s) a.
#[export] Instance PluginDefinition_object_laws : ObjectLaws PluginDefinition.
Proof. by split; intros; repeat match goal with o : PluginDefinition |- _ => destruct o end. Qed.
#[export] Instance ClusterPluginDefinition_object_laws : ObjectLaws ClusterPluginDefinition.
Proof. by split; intros; repeat match goal with o : ClusterPluginDefinition |- _ => destruct o end. Qed.
#[export] Instance PluginDefinition_runtime : RuntimeObject PluginDefinition := {|
  GetConditions o := pd_conditions (pd_Status o);
  SetCondition now c o :=
    mk_pd (pd_meta o) (pd_Spec o) (pd_set_conditions (SetConditions now (pd_conditions (pd_Status o)) [c]) (pd_Status o));
  RemoveCondition t o :=
    mk_pd (pd_meta o) (pd_Spec o) (pd_set_conditions (remove_condition t (pd_conditions (pd_Status o))) (pd_Status o));
  CanBeSuspended _ := false;
  UpdateLastReconciledAtStatus := None |}.
#[export] Instance PluginDefinition_runtime_laws : RuntimeObjectLaws PluginDefinition.
Proof. by split. Qed.
#[export] Instance ClusterPluginDefinition_runtime : RuntimeObject ClusterPluginDefinition := {|
  GetConditions o := pd_conditions (cpd_Status o);
  SetCondition now c o :=
    mk_cpd (cpd_meta o) (cpd_Spec o) (pd_set_conditions (SetConditions now (pd_conditions (cpd_Status o)) [c]) (cpd_Status o));
  RemoveCondition t o :=
    mk_cpd (cpd_meta o) (cpd_Spec o) (pd_set_conditions (remove_condition t (pd_conditions (cpd_Status o))) (cpd_Status o));
  CanBeSuspended _ := false;
  UpdateLastReconciledAtStatus := None |}.
#[export] Instance ClusterPluginDefinition_runtime_laws : RuntimeObjectLaws ClusterPluginDefinition.
Proof. by split. Qed.

(** [common.GenericPluginDefinition] *)
Class DefinitionObject (O : Type) `{RuntimeObject O} := {
  def_kind : string;
  def_Spec : O -> PluginDefinitionSpec;
  GetLastSyncedArtifact : O -> option LastSyncedArtifact;
  SetLastSyncedArtifact : option LastSyncedArtifact -> O -> O
}.
Class DefinitionObjectLaws (O : Type) `{DefinitionObject O} := {
  def_Spec_SetCondition now c (o : O) : def_Spec (SetCondition now c o) = def_Spec o;
  artifact_SetCondition now c (o : O) : GetLastSyncedArtifact (SetCondition now c o) = GetLastSyncedArtifact o;
  def_Spec_SetArtifact a (o : O) : def_Spec (SetLastSyncedArtifact a o) = def_Spec o;
  meta_SetArtifact a (o : O) : get_meta (SetLastSyncedArtifact a o) = get_meta o;
  conditions_SetArtifact a (o : O) : GetConditions (SetLastSyncedArtifact a o) = GetConditions o;
  artifact_SetArtifact a (o : O) : GetLastSyncedArtifact (SetLastSyncedArtifact a o) = a
}.
#[export] Instance PluginDefinition_definition : DefinitionObject PluginDefinition := {|
  def_kind := PluginDefinitionKind;
  def_Spec := pd_Spec;
  GetLastSyncedArtifact o := pd_LastSyncedArtifact (pd_Status o);
  SetLastSyncedArtifact a o := mk_pd (pd_meta o) (pd_Spec o) (pd_set_artifact a (pd_Status o)) |}.
#[export] Instance PluginDefinition_definition_laws : DefinitionObjectLaws PluginDefinition.
Proof. by split. Qed.
#[export] Instance ClusterPluginDefinition_definition : DefinitionObject ClusterPluginDefinition := {|
  def_kind := ClusterPluginDefinitionKind;
  def_Spec := cpd_Spec;
  GetLastSyncedArtifact o := pd_LastSyncedArtifact (cpd_Status o);
  SetLastSyncedArtifact a o := mk_cpd (cpd_meta o) (cpd_Spec o) (pd_set_artifact a (cpd_Status o)) |}.
#[export] Instance ClusterPluginDefinition_definition_laws : DefinitionObjectLaws ClusterPluginDefinition.
Proof. by split. Qed.

(** ** Names *)
Definition GetSourceRepositoryType (repositoryURL : string) : string :=
  if has_prefix repositoryURL "oci://" then "oci" else "default".
(** Without one of the three prefixes nothing is left of the URL. *)
Definition ChartURLToName (repositoryURL : string) : string :=
  let repositoryName := default "" (first_some (cut_prefix repositoryURL) ["oci://"; "https://"; "http://"]) in
  let repositoryName := trim_suffix repositoryName "/" in
  ReplaceAll (ReplaceAll (ReplaceAll repositoryName "." "-") "/" "-") ":" "-".

(** ** Calls *)
Inductive definitionCE : Type -> Type :=
| DefFlux {X} (e : fluxobjE X) : definitionCE X
| DefConfig {X} (e : mirror_configE X) : definitionCE X
| DefMirror {X} (e : mirrorE X) : definitionCE X.
Class DefinitionLibs := {
  def_ParseReference :: RefParser;
  def_yaml_Unmarshal : string -> result (RegistryMirrorConfig * list (string * RegistryMirror));
  def_local_registry : option string;
  def_sha256_hex : string -> string;
  (** [controllerutil.SetOwnerReference] and [SetControllerReference]: owner's kind, owner, object *)
  def_SetOwnerReference : string -> ObjectMeta -> ObjectMeta -> result (list OwnerReference);
  def_SetControllerReference : string -> ObjectMeta -> ObjectMeta -> result (list OwnerReference)
}.

Section definitions.
Context {O : Type} {HObj : Object O} {HRun : RuntimeObject O} {HDef : DefinitionObject O} {Libs : DefinitionLibs}.
Variable now : Z.
Local Abbreviation P := (prog definitionCE).
Definition def_flux {X} (e : fluxobjE X) : P X := trigger (DefFlux e).
Definition FluxHelmChartResourceName (d : O) : string :=
  match pd_HelmChart (def_Spec d) with
  | None => ""
  | Some chart => GetName d +:+ "-" +:+ hcr_Version chart
  end.

(** ** Conditions *)
(** The conditions are read once, before the loop. *)
Definition initializeConditions (d : O) (conditionTypes : list string) : O :=
  fold_left (fun r condType =>
    match GetConditionByType (GetConditions d) condType with
    | None => SetCondition now (UnknownCondition now condType PluginDefinitionProgressingReason
                                  "reconciliation in progress") r
    | Some _ => r
    end) conditionTypes d.
Definition setReadyCondition (d : O) : O :=
  match pd_HelmChart (def_Spec d) with
  | None => SetCondition now (TrueCondition now ReadyCondition "" "No HelmChart defined") d
  | Some _ =>
      match GetConditionByType (GetConditions d) HelmChartReadyCondition with
      | None => SetCondition now (UnknownCondition now ReadyCondition "" "HelmChart status unknown") d
      | Some helmChartCondition =>
          if negb (IsTrue helmChartCondition) then
            SetCondition now (FalseCondition now ReadyCondition (CondReason helmChartCondition)
                                (CondMessage helmChartCondition)) d
          else
            match GetConditionByType (GetConditions d) OCIReplicationReadyCondition with
            | None => SetCondition now (TrueCondition now ReadyCondition "" "PluginDefinition is ready") d
            | Some imageReplicationCondition =>
                if IsFalse imageReplicationCondition then
                  SetCondition now (FalseCondition now ReadyCondition (CondReason imageReplicationCondition)
                                      (CondMessage imageReplicationCondition)) d
                else SetCondition now (TrueCondition now ReadyCondition "" "PluginDefinition is ready") d
            end
      end
  end.
Definition setHelmChartReadyCondition (d : O) (chart : objkey) : P O :=
  r ← def_flux (FxGet FHelmChart chart);
  mret match r with
  | Err _ => SetCondition now (UnknownCondition now HelmChartReadyCondition "" "unable to fetch HelmRepository status") d
  | Ok fluxObj =>
      match ch_conditions fluxObj !! fluxReadyCondition with
      | None => SetCondition now (UnknownCondition now HelmChartReadyCondition "" "HelmChart status pending") d
      | Some readyCondition =>
          if bool_decide (mc_Status readyCondition = ConditionTrue) then
            SetCondition now (TrueCondition now HelmChartReadyCondition (mc_Reason readyCondition)
                                (mc_Message readyCondition)) d
          else SetCondition now (FalseCondition now HelmChartReadyCondition (mc_Reason readyCondition)
                                   (mc_Message readyCondition)) d
      end
  end.

(** ** The Flux objects *)
Definition day : Z := (24 * 60 * minute)%Z.
Definition def_no_type : TypeMeta := mk_tm "" "" "".
Definition def_named (k : objkey) : ObjectMeta := named (key_name k) (key_namespace k).
Definition new_repository (k : objkey) : HelmRepository :=
  mk_repo def_no_type (def_named k) (mk_repo_spec "" 0 "" false) ∅.
Definition mutate_repository (d : O) (repositoryURL : string) (r : HelmRepository) : result HelmRepository :=
  let insecure := if CheckIfLocalRegistry def_local_registry repositoryURL then true else repo_Insecure (repo_Spec r) in
  owners ← def_SetOwnerReference def_kind (get_meta d) (repo_meta r);
  Ok (mk_repo (repo_type r) (with_owners owners (repo_meta r))
        (mk_repo_spec (GetSourceRepositoryType repositoryURL) day repositoryURL insecure) (repo_conditions r)).
Definition repository_key (namespaceName : string) (chart : HelmChartReference) : objkey :=
  mk_key namespaceName (ChartURLToName (hcr_Repository chart)).
Definition createUpdateHelmRepository (namespaceName : string) (d : O) (chart : HelmChartReference) : P (option error) :=
  def_flux (FxCreateOrUpdate FHelmRepository (new_repository (repository_key namespaceName chart))
              (mutate_repository d (hcr_Repository chart))).
Definition new_flux_chart (k : objkey) : FluxHelmChart :=
  mk_flux_chart def_no_type (def_named k) (mk_chart_spec "" 0 "" "" "" "") ∅.
Definition chart_labels (d : O) (labels : strmap) : strmap :=
  <[LabelKeyPluginDefinition := GetName d]>
    match GetLabels d !! LabelKeyOwnedBy with
    | Some ownedBy => <[LabelKeyOwnedBy := ownedBy]> labels
    | None => labels
    end.
Definition chart_spec (chart : HelmChartReference) (repository : string) : HelmChartSpec :=
  mk_chart_spec (hcr_Name chart) day "ChartVersion" "HelmRepository" repository (hcr_Version chart).
Definition mutate_chart (d : O) (chart : HelmChartReference) (repository : string) (c : FluxHelmChart) : result FluxHelmChart :=
  let m := with_labels (chart_labels d (om_labels (ch_meta c))) (ch_meta c) in
  owners ← def_SetControllerReference def_kind (get_meta d) m;
  Ok (mk_flux_chart (ch_type c) (with_owners owners m) (chart_spec chart repository) (ch_conditions c)).
Definition chart_key (namespaceName : string) (d : O) : objkey := mk_key namespaceName (FluxHelmChartResourceName d).
Definition createUpdateHelmChart (namespaceName : string) (d : O) (chart : HelmChartReference) (repository : string) :
    P (option error) :=
  def_flux (FxCreateOrUpdate FHelmChart (new_flux_chart (chart_key namespaceName d)) (mutate_chart d chart repository)).
(** [metav1.GetControllerOf] *)
Definition GetControllerOf (m : ObjectMeta) : option OwnerReference := List.find ref_controller (om_owners m).
Definition is_controlled_by (uid : string) (c : FluxHelmChart) : bool :=
  match GetControllerOf (ch_meta c) with
  | Some ref => bool_decide (ref_uid ref = uid)
  | None => false
  end.
Definition delete_orphan (d : O) (_ : unit) (chart : FluxHelmChart) : P (unit + error) :=
  if negb (is_controlled_by (om_uid (get_meta d)) chart) then mret (inl tt)
  else if bool_decide (GetName chart = FluxHelmChartResourceName d) then mret (inl tt)
  else
    err ← def_flux (FxDelete FHelmChart (key_of chart));
    mret match err with
    | None => inl tt
    | Some e =>
        if is_not_found (Some e) then inl tt
        else inr (wrap_error ("failed to delete orphaned HelmChart " +:+ GetNamespace chart +:+ "/" +:+
                              GetName chart +:+ ": ") e)
    end.
Definition deleteOrphanedHelmCharts (namespaceName : string) (d : O) : P (option error) :=
  r ← def_flux (FxListLabelled FHelmChart namespaceName LabelKeyPluginDefinition (GetName d));
  match r with
  | Err e => mret (Some (wrap_error ("failed to list HelmCharts in namespace " +:+ namespaceName +:+ ": ") e))
  | Ok charts =>
      l ← foreach charts (delete_orphan d) tt;
      mret match l with inl _ => None | inr e => Some e end
  end.

(** ** Replication *)
Definition not_configured (message : string) (d : O) : O :=
  SetCondition now (TrueCondition now OCIReplicationReadyCondition OCIReplicationNotConfiguredReason message) d.
Definition failReplication (err : error) (msg : string) (d : O) : O * option error :=
  (SetCondition now (FalseCondition now OCIReplicationReadyCondition OCIReplicationFailedReason
                       (msg +:+ ": " +:+ err_msg err)) d, Some err).
Definition chart_ref (chart : HelmChartReference) : string :=
  default (hcr_Repository chart) (cut_prefix (hcr_Repository chart) "oci://") +:+ "/" +:+ hcr_Name chart +:+ ":" +:+
  hcr_Version chart.
Definition already_replicated (d : O) (registry chartName version : string) : bool :=
  match GetLastSyncedArtifact d with
  | Some a => bool_decide (la_Registry a = registry /\ la_ChartName a = chartName /\ la_Version a = version /\
                           la_ReplicationStatus a = ReplicationStatusReplicated)
  | None => false
  end.
Definition replicate_chart (namespaceName : string) (mirrorConfig : RegistryMirrorConfig) (d : O) (chart : HelmChartReference) :
    P (O * option error) :=
  let chartRef := chart_ref chart in
  let '(registry, chartName, _) := SplitOCIRef chartRef in
  let version := hcr_Version chart in
  if already_replicated d registry chartName version then mret (d, None)
  else
    m ← translate (fun _ => DefConfig) (NewImageMirror_auth mirrorConfig namespaceName);
    match m with
    | Err e => mret (failReplication e "failed to create image mirror" d)
    | Ok _ =>
        '(replicatedRef, r) ← translate (fun _ => DefMirror) (EnsureChartReplicated def_local_registry mirrorConfig chartRef);
        mret match r with
        | Err e => failReplication e "chart replication failed" d
        | Ok manifest =>
            if bool_decide (replicatedRef = "") then (not_configured "No mirror configured for chart registry" d, None)
            else
              let d := SetLastSyncedArtifact (Some (mk_artifact registry chartName version
                         ("sha256:" +:+ def_sha256_hex manifest) ReplicationStatusReplicated)) d in
              (SetCondition now (TrueCondition now OCIReplicationReadyCondition OCIReplicationSucceededReason
                                   ("Chart replicated successfully: " +:+ chartRef)) d, None)
        end
    end.
Definition ensureChartReplication (ociMirroringEnabled : bool) (namespaceName : string) (d : O) (chart : HelmChartReference) :
    P (O * option error) :=
  if negb ociMirroringEnabled then mret (not_configured "OCI mirroring is disabled" d, None)
  else if negb (has_prefix (hcr_Repository chart) "oci://") then
    mret (not_configured "Chart replication only applies to OCI repositories" d, None)
  else
    r ← translate (fun _ => DefConfig) (GetRegistryMirrorConfig def_yaml_Unmarshal namespaceName);
    match r with
    | Err e => mret (failReplication e "failed to get registry mirror config" d)
    | Ok None => mret (not_configured "OCI replication is not configured" d, None)
    | Ok (Some mirrorConfig) =>
        if bool_decide (RegistryMirrors mirrorConfig = ∅) then mret (not_configured "OCI replication is not configured" d, None)
        else replicate_chart namespaceName mirrorConfig d chart
    end.

(** ** The callbacks *)
Definition def_EnsureCreated (ociMirroringEnabled : bool) (namespaceName : string) (d : O) : P (O * cb_result) :=
  let d := initializeConditions d [ReadyCondition; HelmChartReadyCondition; OCIReplicationReadyCondition] in
  match pd_HelmChart (def_Spec d) with
  | None => mret (not_configured "No HelmChart defined" d, cb_ok)
  | Some chart =>
      err ← createUpdateHelmRepository namespaceName d chart;
      match err with
      | Some e => mret (d, cb_failed e)
      | None =>
          '(d, err) ← ensureChartReplication ociMirroringEnabled namespaceName d chart;
          match err with
          | Some e => mret (d, cb_failed e)
          | None =>
              err ← createUpdateHelmChart namespaceName d chart (key_name (repository_key namespaceName chart));
              match err with
              | Some e => mret (d, cb_failed e)
              | None =>
                  err ← deleteOrphanedHelmCharts namespaceName d;
                  match err with
                  | Some e => mret (d, cb_failed e)
                  | None => d ← setHelmChartReadyCondition d (chart_key namespaceName d); mret (d, cb_ok)
                  end
              end
          end
      end
  end.
Definition def_EnsureDeleted (d : O) : P (O * cb_result) := mret (d, cb_ok).
Definition def_EnsureSuspended (d : O) : P (O * (ctrl_result * option error)) := mret (d, (ctrl_done, None)).
End definitions.

(** ** The two controllers *)
Section controllers.
Context {Libs : DefinitionLibs} {HFin : FinalizerOps}.
Variable now : Z.
Variable ociMirroringEnabled : bool.
Definition pd_EnsureCreated (d : PluginDefinition) : prog definitionCE (PluginDefinition * cb_result) :=
  def_EnsureCreated now ociMirroringEnabled (GetNamespace d) d.
Definition cpd_EnsureCreated (d : ClusterPluginDefinition) : prog definitionCE (ClusterPluginDefinition * cb_result) :=
  def_EnsureCreated now ociMirroringEnabled HelmRepositoryDefaultNamespace d.
Definition PluginDefinitionReconciler : Reconciler definitionCE PluginDefinition :=
  mk_reconciler _ _ pd_EnsureCreated def_EnsureDeleted def_EnsureSuspended.
Definition ClusterPluginDefinitionReconciler : Reconciler definitionCE ClusterPluginDefinition :=
  mk_reconciler _ _ cpd_EnsureCreated def_EnsureDeleted def_EnsureSuspended.
Definition pd_Reconcile (k : objkey) : prog (sumE (lifecycleE PluginDefinition) definitionCE) (ctrl_result * option error) :=
  Lifecycle.Reconcile now PluginDefinitionReconciler (Some (fun d => mret (setReadyCondition now d))) k.
Definition cpd_Reconcile (k : objkey) : prog (sumE (lifecycleE ClusterPluginDefinition) definitionCE) (ctrl_result * option error) :=
  Lifecycle.Reconcile now ClusterPluginDefinitionReconciler (Some (fun d => mret (setReadyCondition now d))) k.
End controllers.
