(* ===== verification/DefinitionSafety.v ===== *)
(** * DefinitionSafety: what a pass over a plugin definition does

    The environment is the store of Flux objects ([FluxObjects.flux_step]); the mirror
    configuration and the registry may answer anything.  All theorems hold for both kinds of
    definition, through the class [DefinitionObject] and its laws. *)
From S2P Require Import Prelude Effects Conditions Meta Lifecycle HelmRelease FluxObjects OciMirror PluginTypes PluginDefinitions DefinitionController.
From Stdlib Require Import ZArith.

Section environment.
Context {O : Type} {HObj : Object O} {HRun : RuntimeObject O} {HDef : DefinitionObject O} {Libs : DefinitionLibs}.
Context {HObjLaws : ObjectLaws O} {HRunLaws : RuntimeObjectLaws O} {HDefLaws : DefinitionObjectLaws O}.
Variable now : Z.
(** What the mirror configuration and the registry answer *)
Variable answers : forall X, definitionCE X -> X -> Prop.
Definition def_step (w : flux_world) X (e : definitionCE X) : X -> flux_world -> Prop :=
  match e in definitionCE X return X -> flux_world -> Prop with
  | DefFlux e => flux_step w _ e
  | DefConfig e => fun x w' => w' = w /\ answers _ (DefConfig e) x
  | DefMirror e => fun x w' => w' = w /\ answers _ (DefMirror e) x
  end.
Local Abbreviation wpd := (wp def_step).

(** ** Conditions *)
Definition cond_of (t : string) (d : O) : option Condition := GetConditionByType (GetConditions d) t.
Lemma cond_SetCondition now' c t (d : O) :
  cond_of t (SetCondition now' c d) =
  if bool_decide (t = CondType c) then
    Some (set_ltt (match cond_of t d with
                   | Some e => if bool_decide (CondStatus e = CondStatus c) then LastTransitionTime e
                               else LastTransitionTime (stamped now' c)
                   | None => LastTransitionTime (stamped now' c)
                   end) c)
  else cond_of t d.
Proof. unfold cond_of. by rewrite GetConditions_SetCondition, get_SetConditions. Qed.
Lemma cond_other now' c t (d : O) : t <> CondType c -> cond_of t (SetCondition now' c d) = cond_of t d.
Proof. intros Ht. rewrite cond_SetCondition. by rewrite bool_decide_eq_false_2. Qed.
(** Only conditions and the last synced artifact differ. *)
Definition same_definition (d d' : O) : Prop := get_meta d' = get_meta d /\ def_Spec d' = def_Spec d.
Lemma same_definition_SetCondition now' c (d : O) : same_definition d (SetCondition now' c d).
Proof. split; [apply get_meta_SetCondition|apply def_Spec_SetCondition]. Qed.
Lemma same_definition_trans (d d1 d2 : O) : same_definition d d1 -> same_definition d1 d2 -> same_definition d d2.
Proof. intros [H1 H2] [H3 H4]. split; congruence. Qed.
Lemma initialized_types (d0 d : O) types :
  let d' := fold_left (fun r t => match GetConditionByType (GetConditions d0) t with
              | None => SetCondition now (UnknownCondition now t PluginDefinitionProgressingReason "reconciliation in progress") r
              | Some _ => r
              end) types d in
  same_definition d d' /\ GetLastSyncedArtifact d' = GetLastSyncedArtifact d /\
  forall t c, cond_of t d0 = Some c -> cond_of t d' = cond_of t d.
Proof.
  revert d. induction types as [|t l IH]; intros d; [done|]. cbn in *.
  destruct (GetConditionByType (GetConditions d0) t) as [c|] eqn:Hc; [apply IH|].
  destruct (IH (SetCondition now (UnknownCondition now t PluginDefinitionProgressingReason "reconciliation in progress") d)) as (H1 & H2 & H3).
  split; [eapply same_definition_trans; [apply same_definition_SetCondition|exact H1]|].
  split; [by rewrite H2, artifact_SetCondition|]. intros t' c' Ht'. rewrite (H3 _ _ Ht'). apply cond_other. cbn.
  intros ->. unfold cond_of in Ht'. congruence.
Qed.
Lemma initializeConditions_facts (d : O) types :
  same_definition d (initializeConditions now d types) /\
  GetLastSyncedArtifact (initializeConditions now d types) = GetLastSyncedArtifact d /\
  forall t c, cond_of t d = Some c -> cond_of t (initializeConditions now d types) = Some c.
Proof.
  destruct (initialized_types d d types) as (H1 & H2 & H3). split; [done|]. split; [done|].
  intros t c Hc. rewrite <-Hc. by eapply H3.
Qed.
(** Ready is decided by two conditions when there is a chart. *)
Lemma setReadyCondition_ready (d : O) :
  IsReadyTrue (GetConditions (setReadyCondition now d)) =
  match pd_HelmChart (def_Spec d) with
  | None => true
  | Some _ => match cond_of HelmChartReadyCondition d with
              | Some c => IsTrue c && negb (match cond_of OCIReplicationReadyCondition d with Some r => IsFalse r | None => false end)
              | None => false
              end
  end.
Proof.
  assert (forall c, CondType c = ReadyCondition -> IsReadyTrue (GetConditions (SetCondition now c d)) = IsTrue c) as Hset.
  { intros c Ht. unfold IsReadyTrue. rewrite GetConditions_SetCondition, get_SetConditions, Ht. by rewrite bool_decide_eq_true_2. }
  unfold setReadyCondition, cond_of. destruct (pd_HelmChart (def_Spec d)) as [chart|]; [|by rewrite Hset].
  destruct (GetConditionByType _ HelmChartReadyCondition) as [c|]; [|by rewrite Hset].
  destruct (IsTrue c) eqn:Hc; cbn; [|by rewrite Hset].
  destruct (GetConditionByType _ OCIReplicationReadyCondition) as [r|]; [|by rewrite Hset].
  destruct (IsFalse r); by rewrite Hset.
Qed.

(** ** The replication *)
Lemma replication_wp en ns (d : O) chart w :
  wpd (ensureChartReplication now en ns d chart) (fun w' '(d', err) =>
    w' = w /\ same_definition d d' /\ forall t, t <> OCIReplicationReadyCondition -> cond_of t d' = cond_of t d) w.
Proof.
  assert (forall c, CondType c = OCIReplicationReadyCondition -> same_definition d (SetCondition now c d) /\
    forall t, t <> OCIReplicationReadyCondition -> cond_of t (SetCondition now c d) = cond_of t d) as Hset.
  { intros c Hc. split; [apply same_definition_SetCondition|]. intros t Ht. apply cond_other. by rewrite Hc. }
  assert (forall A (p : prog mirror_configE A) Q, (forall a, Q w a) -> wpd (translate (fun _ => DefConfig) p) Q w) as Hconf.
  { intros A p Q HQ. apply wp_translate. eapply wp_mono; [|apply (wp_inv _ p (fun w' => w' = w)); [|done]].
    - intros w' a ->. apply HQ.
    - intros w1 X e x w2 -> [-> _]. done. }
  assert (forall A (p : prog mirrorE A) Q, (forall a, Q w a) -> wpd (translate (fun _ => DefMirror) p) Q w) as Hmir.
  { intros A p Q HQ. apply wp_translate. eapply wp_mono; [|apply (wp_inv _ p (fun w' => w' = w)); [|done]].
    - intros w' a ->. apply HQ.
    - intros w1 X e x w2 -> [-> _]. done. }
  unfold ensureChartReplication, replicate_chart, failReplication, not_configured. destruct en; cbn [negb]; [|apply wp_ret; split; [done|by apply Hset]].
  destruct (has_prefix _ _); cbn [negb]; [|apply wp_ret; split; [done|by apply Hset]].
  apply wp_bind, Hconf. intros [[config|]|e]; [|apply wp_ret; split; [done|by apply Hset]..].
  case_bool_decide; [apply wp_ret; split; [done|by apply Hset]|].
  destruct (SplitOCIRef (chart_ref chart)) as [[registry chartName] tag].
  destruct (already_replicated d registry chartName (hcr_Version chart)); [by apply wp_ret|].
  apply wp_bind, Hconf. intros [auth|e]; [|apply wp_ret; split; [done|by apply Hset]].
  apply wp_bind, Hmir. intros [ref [manifest|e]]; apply wp_ret; [|split; [done|by apply Hset]].
  case_bool_decide; (split; [done|]); [by apply Hset|]. split.
  - eapply same_definition_trans; [|apply same_definition_SetCondition]. split; [apply meta_SetArtifact|apply def_Spec_SetArtifact].
  - intros t Ht. rewrite cond_other by done. unfold cond_of. by rewrite conditions_SetArtifact.
Qed.

(** ** What a pass provides *)
Definition provided_repository (ns : string) (d : O) (chart : HelmChartReference) (w : flux_world) : Prop :=
  exists r old, lookup_flux FHelmRepository (repository_key ns chart) w = Some r /\
    repo_URL (repo_Spec r) = hcr_Repository chart /\
    repo_Type (repo_Spec r) = GetSourceRepositoryType (hcr_Repository chart) /\ repo_Interval (repo_Spec r) = day /\
    (CheckIfLocalRegistry def_local_registry (hcr_Repository chart) = true -> repo_Insecure (repo_Spec r) = true) /\
    def_SetOwnerReference def_kind (get_meta d) old = Ok (om_owners (get_meta r)).
Definition provided_chart (ns : string) (d : O) (chart : HelmChartReference) (w : flux_world) : Prop :=
  exists c old, lookup_flux FHelmChart (chart_key ns d) w = Some c /\ key_of c = chart_key ns d /\
    ch_Spec c = chart_spec chart (ChartURLToName (hcr_Repository chart)) /\
    GetLabels c !! LabelKeyPluginDefinition = Some (GetName d) /\
    (forall owner, GetLabels d !! LabelKeyOwnedBy = Some owner -> GetLabels c !! LabelKeyOwnedBy = Some owner) /\
    def_SetControllerReference def_kind (get_meta d) old = Ok (om_owners (get_meta c)).
(** A chart the definition controls that is not its current one *)
Definition orphan (ns : string) (d : O) (c : FluxHelmChart) : Prop :=
  GetNamespace c = ns /\ GetLabels c !! LabelKeyPluginDefinition = Some (GetName d) /\
  is_controlled_by (om_uid (get_meta d)) c = true /\ GetName c <> FluxHelmChartResourceName d.
(** Only the definition's repository, its chart and its orphans changed. *)
Definition touches_own (ns : string) (d : O) (chart : HelmChartReference) (w w' : flux_world) : Prop :=
  forall k key, (k, key) ∉ [(FHelmRepository, repository_key ns chart); (FHelmChart, chart_key ns d)] ->
    (k = FHelmChart -> forall c, lookup_flux FHelmChart key w = Some c -> ~ orphan ns d c) ->
    lookup_flux k key w' = lookup_flux k key w.
Definition orphans_gone (ns : string) (d : O) (w w' : flux_world) : Prop :=
  forall c, lookup_flux FHelmChart (key_of c) w = Some c -> orphan ns d c -> gone FHelmChart (key_of c) w'.
(** What the stored chart says of itself *)
Definition chart_ready (ns : string) (d : O) (w : flux_world) : Prop :=
  exists c ready, lookup_flux FHelmChart (chart_key ns d) w = Some c /\ ch_conditions c !! fluxReadyCondition = Some ready /\
    mc_Status ready = ConditionTrue.
Lemma same_names ns (d d' : O) :
  same_definition d d' -> chart_key ns d' = chart_key ns d /\ FluxHelmChartResourceName d' = FluxHelmChartResourceName d.
Proof.
  intros [Hm Hs]. unfold chart_key, FluxHelmChartResourceName, GetName. rewrite Hm, Hs. done.
Qed.
Lemma same_provided ns (d d' : O) chart w : same_definition d d' ->
  (provided_repository ns d' chart w -> provided_repository ns d chart w) /\
  (provided_chart ns d' chart w -> provided_chart ns d chart w) /\ (chart_ready ns d' w -> chart_ready ns d w).
Proof.
  intros H. destruct (same_names ns _ _ H) as [Hk Hn]. destruct H as [Hm Hs].
  unfold provided_repository, provided_chart, chart_ready, GetName, GetLabels. by rewrite Hk, Hm.
Qed.
Lemma same_orphan ns (d d' : O) c : same_definition d d' -> orphan ns d c <-> orphan ns d' c.
Proof.
  intros H. destruct (same_names ns _ _ H) as [Hk Hn]. destruct H as [Hm Hs].
  unfold orphan. rewrite Hn, Hm. unfold GetName at 1 3. by rewrite Hm.
Qed.
Lemma same_touches ns (d d' : O) chart w w' :
  same_definition d d' -> touches_own ns d' chart w w' -> touches_own ns d chart w w'.
Proof.
  intros H Ht k key Hn Ho. destruct (same_names ns _ _ H) as [Hk _]. apply Ht; [by rewrite Hk|].
  intros E c Hc Hor. apply (Ho E c Hc). by apply (same_orphan ns _ _ c H).
Qed.

(** *** The two objects *)
Definition def_flux_step w X (e : fluxobjE X) x w' : def_step w X (DefFlux e) x w' -> flux_step w X e x w' := fun H => H.
Lemma createUpdateHelmRepository_wp ns (d : O) chart w :
  wpd (createUpdateHelmRepository ns d chart) (fun w' err =>
    only_objects [(FHelmRepository, repository_key ns chart)] w w' /\ (err = None -> provided_repository ns d chart w')) w.
Proof.
  apply (wp_flux_upsert def_step (fun _ => DefFlux) def_flux_step true _ (repository_key ns chart)); [done|done|].
  intros m o' Hm _ Ha. split; [apply only_objects_insert; constructor|]. intros _. destruct Ha as (_ & _ & _ & Ho & Hsp).
  unfold mutate_repository in Hm. cbn in Hsp, Ho.
  destruct (def_SetOwnerReference _ _ _) as [owners|] eqn:Hs; cbn in Hm; [|done]. injection Hm as <-.
  eexists o', _. split; [apply lookup_insert_flux|]. rewrite Hsp. cbn. split; [done|]. split; [done|]. split; [done|].
  split; [by intros ->|]. rewrite Ho. exact Hs.
Qed.
Lemma createUpdateHelmChart_wp ns (d : O) chart w :
  wpd (createUpdateHelmChart ns d chart (key_name (repository_key ns chart))) (fun w' err =>
    only_objects [(FHelmChart, chart_key ns d)] w w' /\ (err = None -> provided_chart ns d chart w')) w.
Proof.
  apply (wp_flux_upsert def_step (fun _ => DefFlux) def_flux_step true _ (chart_key ns d)); [done|done|].
  intros m o' Hm Hk Ha. split; [apply only_objects_insert; constructor|]. intros _. destruct Ha as (Hk' & Hl & _ & Ho & Hsp).
  rewrite Hk in Hk'. unfold mutate_chart in Hm. cbn in Hsp, Ho.
  destruct (def_SetControllerReference _ _ _) as [owners|] eqn:Hs; cbn in Hm; [|done]. injection Hm as <-.
  eexists o', _. split; [apply lookup_insert_flux|]. split; [done|]. split; [exact Hsp|]. rewrite Hl. unfold GetLabels at 1 3. cbn [get_meta].
  cbn. unfold chart_labels. split; [apply lookup_insert_eq|]. split; [|rewrite Ho; exact Hs].
  intros owner ->. rewrite lookup_insert_ne by done. apply lookup_insert_eq.
Qed.

(** *** The orphans *)
Lemma delete_orphan_wp ns (d : O) c w : GetNamespace c = ns -> GetLabels c !! LabelKeyPluginDefinition = Some (GetName d) ->
  wpd (delete_orphan d tt c) (fun w' r => gone_kept w w' /\
    (orphan ns d c -> match r with inl _ => gone FHelmChart (key_of c) w' | inr _ => True end) /\
    (w' = w \/ orphan ns d c /\ only_objects [(FHelmChart, key_of c)] w w')) w.
Proof.
  intros Hns Hl. unfold delete_orphan. destruct (is_controlled_by _ _) eqn:Hc; cbn [negb].
  2:{ apply wp_ret. split; [apply gone_kept_refl|]. split; [|by left]. intros (_ & _ & H & _). congruence. }
  case_bool_decide as Hn.
  { apply wp_ret. split; [apply gone_kept_refl|]. split; [|by left]. by intros (_ & _ & _ & H). }
  assert (orphan ns d c) as Hor by done.
  apply wp_bind, (wp_flux_delete def_step (fun _ => DefFlux) def_flux_step).
  - intros e He. destruct (is_not_found (Some e)); apply wp_ret; (split; [apply gone_kept_refl|]); split; auto.
  - intros w' Ho Hk Hg. apply wp_ret. split; [done|]. split; [done|]. by right.
Qed.
Lemma deleteOrphanedHelmCharts_wp ns (d : O) chart w : pd_HelmChart (def_Spec d) = Some chart ->
  wpd (deleteOrphanedHelmCharts ns d) (fun w' err =>
    (forall k key, (k = FHelmChart -> forall c, lookup_flux FHelmChart key w = Some c -> ~ orphan ns d c) ->
       lookup_flux k key w' = lookup_flux k key w) /\
    (err = None -> orphans_gone ns d w w')) w.
Proof.
  intros Hch. unfold deleteOrphanedHelmCharts, def_flux. apply wp_bind, wp_trigger. intros r w0 [-> Hr].
  destruct r as [charts|e]; [|by apply wp_ret].
  set (frame w' := forall k key, (k = FHelmChart -> forall c, lookup_flux FHelmChart key w = Some c -> ~ orphan ns d c) ->
       lookup_flux k key w' = lookup_flux k key w).
  apply (wp_foreach_bind _ charts (delete_orphan d) _ (fun rest w' _ => rest ⊆ charts /\ frame w' /\
    forall c, c ∈ charts -> orphan ns d c -> c ∈ rest \/ gone FHelmChart (key_of c) w')).
  - split; [done|]. split; [by intros ? ?|]. by left.
  - intros w' s (_ & Hf & Hg). apply wp_ret. split; [exact Hf|]. intros _ c Hl Hor.
    destruct (Hg c) as [[]%elem_of_nil|]; [|done..]. apply Hr. by destruct Hor as (? & ? & _).
  - intros c rest w' s (Hsub & Hf & Hg). assert (c ∈ charts) as Hin by (apply Hsub; constructor).
    destruct (proj1 (Hr c) Hin) as (Hl & Hns & Hlab). destruct s.
    eapply wp_mono; [|apply (delete_orphan_wp ns); done]. intros w'' x (Hk & Hgone & Hw).
    assert (frame w'') as Hf'.
    { destruct Hw as [->|[Hor Ho]]; [done|]. intros k key Hn. rewrite Ho; [by apply Hf|].
      intros [= -> ->]%list_elem_of_singleton. by apply (Hn eq_refl c). }
    destruct x as [u|e]; [|apply wp_ret; done]. split; [intros c' H; apply Hsub; by constructor|]. split; [done|].
    intros c' Hc' Hor. destruct (Hg c' Hc' Hor) as [[->|?]%elem_of_cons|Hd]; [right; by apply Hgone|by left|right; by apply Hk].
Qed.

Lemma setHelmChartReadyCondition_wp ns (d : O) w :
  wpd (setHelmChartReadyCondition now d (chart_key ns d)) (fun w' d' => w' = w /\
    exists c, CondType c = HelmChartReadyCondition /\ d' = SetCondition now c d /\ (IsTrue c = true -> chart_ready ns d w)) w.
Proof.
  unfold setHelmChartReadyCondition. apply wp_bind, (wp_flux_get def_step (fun _ => DefFlux) def_flux_step).
  - intros o Hl _. apply wp_ret. split; [done|].
    destruct (ch_conditions o !! fluxReadyCondition) as [ready|] eqn:Hr; [case_bool_decide as Ht|];
      (eexists; split; [|split; [reflexivity|]]; [done|]); [|done..]. intros _. by exists o, ready.
  - intros e _. apply wp_ret. split; [done|]. eexists. split; [|split; [reflexivity|]]; done.
Qed.

(** *** One pass, with and without an error *)
Lemma def_EnsureCreated_wp en ns (d : O) w :
  wpd (def_EnsureCreated now en ns d) (fun w' '(d', r) => same_definition d d' /\
    match pd_HelmChart (def_Spec d) with
    | None => w' = w /\ r = cb_ok
    | Some chart => touches_own ns d chart w w' /\
        ((exists e, r = cb_failed e /\ forall c, cond_of HelmChartReadyCondition d = Some c -> cond_of HelmChartReadyCondition d' = Some c) \/
         r = cb_ok /\ provided_repository ns d chart w' /\ provided_chart ns d chart w' /\ orphans_gone ns d w w' /\
         exists c, cond_of HelmChartReadyCondition d' = Some c /\ (IsTrue c = true -> chart_ready ns d w'))
    end) w.
Proof.
  unfold def_EnsureCreated. set (d1 := initializeConditions _ _ _).
  destruct (initializeConditions_facts d [ReadyCondition; HelmChartReadyCondition; OCIReplicationReadyCondition]) as (Hs1 & _ & Hc1).
  fold d1 in Hs1, Hc1. assert (def_Spec d1 = def_Spec d) as -> by apply Hs1.
  destruct (pd_HelmChart (def_Spec d)) as [chart|] eqn:Hch.
  2:{ apply wp_ret. split; [|done]. eapply same_definition_trans; [exact Hs1|apply same_definition_SetCondition]. }
  assert (forall w' d2, same_definition d1 d2 -> touches_own ns d2 chart w w' -> touches_own ns d chart w w') as Htouch.
  { intros w' d2 H. apply same_touches. by eapply same_definition_trans. }
  apply wp_bind. eapply wp_mono; [|apply createUpdateHelmRepository_wp]. intros w1 err [Ho1 Hrepo].
  assert (touches_own ns d1 chart w w1) as Ht1 by (intros k key [Hn _]%not_elem_of_cons _; apply Ho1; by rewrite list_elem_of_singleton).
  destruct err as [e|]; [apply wp_ret; split; [done|]; split; [by apply (Htouch _ d1)|]; left; eauto|]. specialize (Hrepo eq_refl).
  apply wp_bind. eapply wp_mono; [|apply replication_wp]. intros w1' [d2 err] (-> & Hs2 & Hc2).
  pose proof (same_definition_trans _ _ _ Hs1 Hs2) as Hs.
  assert (forall c, cond_of HelmChartReadyCondition d = Some c -> cond_of HelmChartReadyCondition d2 = Some c) as Hkeep.
  { intros c Hc. rewrite Hc2 by done. by apply Hc1. }
  destruct err as [e|]; [apply wp_ret; split; [done|]; split; [by apply (Htouch _ d1)|]; left; eauto|].
  apply wp_bind. eapply wp_mono; [|apply createUpdateHelmChart_wp]. intros w2 err [Ho2 Hchart].
  apply (same_provided ns _ _ chart w1 Hs1) in Hrepo. destruct (same_names ns _ _ Hs) as [Hkey Hname]. rewrite Hkey in Ho2.
  assert (forall k key, (k, key) ∉ [(FHelmRepository, repository_key ns chart); (FHelmChart, chart_key ns d)] ->
    lookup_flux k key w2 = lookup_flux k key w) as Ho.
  { intros k key [Hn1 Hn2]%not_elem_of_cons. rewrite Ho2 by done. apply Ho1. rewrite list_elem_of_singleton. done. }
  destruct err as [e|]; [apply wp_ret; split; [done|]; split; [by intros k key Hn _; apply Ho|]; left; eauto|].
  specialize (Hchart eq_refl). apply (same_provided ns _ _ chart w2 Hs) in Hchart.
  assert (provided_repository ns d chart w2) as Hrepo2.
  { destruct Hrepo as (r & old & Hl & Hr). exists r, old. rewrite Ho2 by (by intros [=]%list_elem_of_singleton). done. }
  apply wp_bind. eapply wp_mono; [|apply (deleteOrphanedHelmCharts_wp ns d2 chart)]; [|by rewrite (proj2 Hs)].
  intros w3 err [Hf Hgone].
  assert (forall c, lookup_flux FHelmChart (chart_key ns d) w2 = Some c -> ~ orphan ns d2 c) as Hown.
  { intros c Hl (_ & _ & _ & Hne). destruct Hchart as (c' & _ & Hl' & Hk & _). rewrite Hl in Hl'. injection Hl' as <-.
    apply Hne. rewrite Hname. unfold key_of, chart_key in Hk. by injection Hk as _ ->. }
  assert (touches_own ns d chart w w3) as Ht3.
  { intros k key Hn Hor. rewrite Hf; [by apply Ho|]. intros -> c Hl. rewrite Ho in Hl by done.
    rewrite <-(same_orphan ns _ _ c Hs). by apply Hor. }
  destruct err as [e|]; [apply wp_ret; split; [done|]; split; [done|]; left; eauto|]. specialize (Hgone eq_refl).
  apply wp_bind.
  eapply wp_mono; [|apply setHelmChartReadyCondition_wp]. intros w3' d3 (-> & c & Hct & -> & Hready). apply wp_ret.
  split; [eapply same_definition_trans; [exact Hs|apply same_definition_SetCondition]|]. split; [done|]. right. split; [done|].
  split; [|split; [|split]].
  - destruct Hrepo2 as (r & old & Hl & Hr). exists r, old. by rewrite Hf.
  - destruct Hchart as (r & old & Hl & Hr). exists r, old. rewrite Hf; [done|]. intros _. apply Hown.
  - intros o Hl Hor. apply Hgone; [|by apply (same_orphan ns _ _ o Hs)]. rewrite Ho; [done|].
    rewrite not_elem_of_cons, list_elem_of_singleton. split; [done|]. intros Hk%(f_equal (fun cell => key_name cell.2)). by destruct Hor as (_ & _ & _ & []).
  - eexists. split; [by rewrite cond_SetCondition, bool_decide_eq_true_2 by done|]. intros Ht.
    apply (same_provided ns _ _ chart w3 Hs), Hready, Ht.
Qed.

(** C29: what [EnsureCreated] of the plugin definition controllers does.  The definition keeps its
    metadata and specification, and the outcome is [Success] exactly when there is no error.
    Without a chart nothing is stored.  With one, a pass without error leaves a HelmRepository with
    the URL, type and interval of the definition, owned by it, and a HelmChart with the chart's
    specification, referring to that repository, labelled with the definition's name and its
    support group and controlled by it; every other chart that carries the definition's label and
    is controlled by it is deleted.  No pass changes anything else. *)
Theorem def_EnsureCreated_provides en ns (d : O) w :
  wpd (def_EnsureCreated now en ns d) (fun w' '(d', (_, outcome, err)) =>
    same_definition d d' /\ (outcome = Success <-> err = None) /\
    match pd_HelmChart (def_Spec d) with
    | None => w' = w /\ err = None
    | Some chart => touches_own ns d chart w w' /\
        (err = None -> provided_repository ns d chart w' /\ provided_chart ns d chart w' /\ orphans_gone ns d w w')
    end) w.
Proof using HObjLaws HRunLaws HDefLaws.
  eapply wp_mono; [|apply def_EnsureCreated_wp]. intros w' [d' [[res outcome] err]] [Hs H]. split; [exact Hs|].
  destruct (pd_HelmChart (def_Spec d)) as [chart|]; [|by destruct H as [-> [= _ -> ->]]].
  destruct H as [Ht [(e & [= _ -> ->] & _)|([= _ -> ->] & Hr & Hc & Ho & _)]]; done.
Qed.

(** Two definitions of a namespace whose repositories differ only in how they are reached,
    [https://] or [oci://] say, take the same HelmRepository from each other: after a pass of the
    one without error, the repository of the other is not provided. *)
Theorem shared_repository_taken en ns (d d' : O) chart chart' w :
  pd_HelmChart (def_Spec d) = Some chart -> repository_key ns chart' = repository_key ns chart ->
  hcr_Repository chart' <> hcr_Repository chart ->
  wpd (def_EnsureCreated now en ns d) (fun w' '(_, (_, _, err)) => err = None -> ~ provided_repository ns d' chart' w') w.
Proof using HObjLaws HRunLaws HDefLaws.
  intros Hch Hkey Hne. eapply wp_mono; [|apply def_EnsureCreated_wp]. intros w' [d1 [[res outcome] err]] [_ H] ->.
  rewrite Hch in H. destruct H as [_ [(e & [=] & _)|(_ & (r & old & Hl & HU & _) & _)]].
  intros (r' & old' & Hl' & HU' & _). rewrite Hkey, Hl in Hl'. injection Hl' as <-. congruence.
Qed.

(** ** The pass with the conditions that [lifecycle] sets after it *)
Definition def_pass (en : bool) (ns : string) (d : O) : prog definitionCE (O * cb_result) :=
  '(d, r) ← def_EnsureCreated now en ns d;
  mret (setReadyCondition now d, r).
Fixpoint def_passes (n : nat) (en : bool) (ns : string) (d : O) : prog definitionCE O :=
  match n with
  | 0%nat => mret d
  | S n => '(d, _) ← def_pass en ns d; def_passes n en ns d
  end.
Lemma setReadyCondition_sets (d : O) :
  same_definition d (setReadyCondition now d) /\ GetLastSyncedArtifact (setReadyCondition now d) = GetLastSyncedArtifact d /\
  forall t, t <> ReadyCondition -> cond_of t (setReadyCondition now d) = cond_of t d.
Proof.
  assert (forall c, CondType c = ReadyCondition -> same_definition d (SetCondition now c d) /\
    GetLastSyncedArtifact (SetCondition now c d) = GetLastSyncedArtifact d /\
    forall t, t <> ReadyCondition -> cond_of t (SetCondition now c d) = cond_of t d) as Hset.
  { intros c Hc. split; [apply same_definition_SetCondition|]. split; [apply artifact_SetCondition|].
    intros t Ht. apply cond_other. by rewrite Hc. }
  unfold setReadyCondition. repeat (destruct (pd_HelmChart _) || destruct (GetConditionByType _ _) || case_match); by apply Hset.
Qed.
Definition replication_failed (d : O) : bool :=
  match cond_of OCIReplicationReadyCondition d with Some c => IsFalse c | None => false end.
Lemma setReadyCondition_replication (d : O) : replication_failed (setReadyCondition now d) = replication_failed d.
Proof. unfold replication_failed. destruct (setReadyCondition_sets d) as (_ & _ & H). by rewrite H. Qed.
(** C30: a definition that a pass without error leaves Ready has its repository and its chart in
    the store as specified, Flux reports that chart ready, and the replication to the mirror has
    not failed; a definition without a chart is always Ready. *)
Theorem ready_definition_has_ready_chart en ns (d : O) w :
  wpd (def_pass en ns d) (fun w' '(d', (_, _, err)) => err = None ->
    match pd_HelmChart (def_Spec d) with
    | None => IsReadyTrue (GetConditions d') = true
    | Some chart => IsReadyTrue (GetConditions d') = true ->
        provided_repository ns d chart w' /\ provided_chart ns d chart w' /\ chart_ready ns d w' /\ replication_failed d' = false
    end) w.
Proof using HObjLaws HRunLaws HDefLaws.
  unfold def_pass. apply wp_bind. eapply wp_mono; [|apply def_EnsureCreated_wp].
  intros w' [d' [[res outcome] err]] [Hs H]. apply wp_ret. rewrite setReadyCondition_ready, setReadyCondition_replication.
  rewrite (proj2 Hs). unfold replication_failed. intros ->. destruct (pd_HelmChart (def_Spec d)) as [chart|]; [|done].
  destruct H as [_ [(e & [=] & _)|(_ & Hr & Hc & _ & c & -> & Hready)]]. intros [Ht Hf%negb_true_iff]%andb_true_iff. auto.
Qed.
(** A pass that fails for another reason than the replication keeps the definition Ready. *)
Lemma failed_pass_stays_ready en ns (d : O) w c :
  cond_of HelmChartReadyCondition d = Some c -> IsTrue c = true ->
  wpd (def_pass en ns d) (fun w' '(d', (_, _, err)) =>
    err <> None -> replication_failed d' = false -> IsReadyTrue (GetConditions d') = true) w.
Proof.
  intros Hc Ht. unfold def_pass. apply wp_bind. eapply wp_mono; [|apply def_EnsureCreated_wp].
  intros w' [d' [[res outcome] err]] [Hs H]. apply wp_ret. rewrite setReadyCondition_ready, setReadyCondition_replication.
  rewrite (proj2 Hs). unfold replication_failed. intros Herr Hf. destruct (pd_HelmChart (def_Spec d)) as [chart|]; [|done].
  destruct H as [_ [(e & _ & Hk)|([= _ _ ->] & _)]]; [|done]. by rewrite (Hk _ Hc), Ht, Hf.
Qed.

(** ** A failed replication that stays *)
(** The chart of this version was replicated by a former pass. *)
Definition replicated_before (d : O) (chart : HelmChartReference) : bool :=
  let '(registry, chartName, _) := SplitOCIRef (chart_ref chart) in
  already_replicated d registry chartName (hcr_Version chart).
(** The Organization's mirror configuration can be read and names mirrors. *)
Definition mirrors_configured (ns : string) : Prop := forall w,
  wpd (translate (fun _ => DefConfig) (GetRegistryMirrorConfig def_yaml_Unmarshal ns))
    (fun w' r => w' = w /\ exists config, r = Ok (Some config) /\ RegistryMirrors config <> ∅) w.
Lemma replication_skipped ns (d : O) chart w :
  mirrors_configured ns -> has_prefix (hcr_Repository chart) "oci://" = true -> replicated_before d chart = true ->
  wpd (ensureChartReplication now true ns d chart) (fun w' r => w' = w /\ r = (d, None)) w.
Proof.
  intros Hconf Hoci Hrep. unfold ensureChartReplication. cbn [negb]. rewrite Hoci. cbn [negb].
  apply wp_bind. eapply wp_mono; [|apply Hconf]. intros w' r (-> & config & -> & Hne).
  rewrite bool_decide_eq_false_2 by done. unfold replicate_chart, replicated_before in *.
  destruct (SplitOCIRef (chart_ref chart)) as [[registry chartName] tag]. rewrite Hrep. by apply wp_ret.
Qed.
(** A failure to read the mirror configuration is reported, and the record of the replication kept. *)
Lemma config_failure_reported (d : O) e msg :
  replication_failed (failReplication now e msg d).1 = true /\
  GetLastSyncedArtifact (failReplication now e msg d).1 = GetLastSyncedArtifact d.
Proof.
  unfold failReplication, replication_failed. cbn. split; [|apply artifact_SetCondition].
  by rewrite cond_SetCondition, bool_decide_eq_true_2.
Qed.
(** What a pass keeps of a definition when the replication does. *)
Lemma def_EnsureCreated_inv en ns (d : O) chart (I : O -> Prop) w :
  pd_HelmChart (def_Spec d) = Some chart ->
  I (initializeConditions now d [ReadyCondition; HelmChartReadyCondition; OCIReplicationReadyCondition]) ->
  (forall d w, I d -> wpd (ensureChartReplication now en ns d chart) (fun _ r => I r.1) w) ->
  (forall d c, CondType c = HelmChartReadyCondition -> I d -> I (SetCondition now c d)) ->
  wpd (def_EnsureCreated now en ns d) (fun _ r => I r.1) w.
Proof.
  intros Hch Hi Hrep Hset. unfold def_EnsureCreated. set (d1 := initializeConditions _ _ _) in *.
  assert (def_Spec d1 = def_Spec d) as -> by apply initializeConditions_facts. rewrite Hch.
  apply wp_bind. wp_skip. destruct a; [by apply wp_ret|]. apply wp_bind. eapply wp_mono; [|by apply Hrep].
  intros w1 [d2 err] Hd2. cbn in Hd2. destruct err; [by apply wp_ret|]. apply wp_bind. wp_skip. destruct a; [by apply wp_ret|].
  apply wp_bind. wp_skip. destruct a; [by apply wp_ret|]. apply wp_bind. eapply wp_mono; [|apply setHelmChartReadyCondition_wp].
  intros w2 d3 (_ & c & Hc & -> & _). apply wp_ret. by apply Hset.
Qed.

(** What a failed replication of an already replicated chart is, pass after pass *)
Definition stuck (s : PluginDefinitionSpec) (chart : HelmChartReference) (d : O) : Prop :=
  def_Spec d = s /\ replicated_before d chart = true /\ replication_failed d = true.
Lemma stuck_SetCondition s chart (d : O) c :
  CondType c <> OCIReplicationReadyCondition -> stuck s chart d -> stuck s chart (SetCondition now c d).
Proof.
  intros Hc (Hs & Hr & Hf). split; [by rewrite def_Spec_SetCondition|]. unfold replicated_before, already_replicated, replication_failed in *.
  rewrite artifact_SetCondition, cond_other by done. done.
Qed.
Lemma stuck_initialize s chart (d : O) types : stuck s chart d -> stuck s chart (initializeConditions now d types).
Proof.
  destruct (initializeConditions_facts d types) as ([_ Hs'] & Ha & Hc). intros (Hs & Hr & Hf). split; [congruence|].
  unfold replicated_before, already_replicated, replication_failed in *. rewrite Ha. split; [done|].
  destruct (cond_of OCIReplicationReadyCondition d) as [c|] eqn:E; [|done]. by rewrite (Hc _ _ E).
Qed.
Lemma stuck_ready s chart (d : O) : stuck s chart d -> stuck s chart (setReadyCondition now d).
Proof.
  destruct (setReadyCondition_sets d) as ([_ Hs'] & Ha & _). intros (Hs & Hr & Hf). split; [congruence|].
  rewrite setReadyCondition_replication. unfold replicated_before, already_replicated in *. by rewrite Ha.
Qed.
Lemma stuck_not_ready s chart (d : O) : pd_HelmChart s = Some chart -> stuck s chart d ->
  IsReadyTrue (GetConditions (setReadyCondition now d)) = false.
Proof.
  intros Hs (<- & _ & Hf). rewrite setReadyCondition_ready, Hs. unfold replication_failed in Hf.
  destruct (cond_of HelmChartReadyCondition d); [|done]. destruct (cond_of OCIReplicationReadyCondition d); [|done].
  rewrite Hf. apply andb_false_r.
Qed.
Lemma passes_stuck n ns s chart (d : O) w :
  mirrors_configured ns -> pd_HelmChart s = Some chart -> has_prefix (hcr_Repository chart) "oci://" = true -> stuck s chart d ->
  wpd (def_passes n true ns d) (fun _ d' => stuck s chart d' /\
    (IsReadyTrue (GetConditions d) = false \/ 0 < n -> IsReadyTrue (GetConditions d') = false)) w.
Proof.
  intros Hconf Hs Hoci. revert d w. induction n as [|n IH]; intros d w Hst; cbn [def_passes].
  { apply wp_ret. split; [done|]. intros [|]; [done|lia]. }
  unfold def_pass. apply wp_bind, wp_bind.
  eapply wp_mono; [|apply (def_EnsureCreated_inv true ns d chart (stuck s chart))].
  - intros w1 [d1 r] Hd1. cbn in Hd1. apply wp_ret. eapply wp_mono; [|by apply IH, stuck_ready].
    intros w2 d3 [H3 Hr]. split; [done|]. intros _. apply Hr. left. by apply (stuck_not_ready s chart).
  - by destruct Hst as [-> _].
  - by apply stuck_initialize.
  - intros d1 w1 Hd1. eapply wp_mono; [|apply (replication_skipped ns d1 chart w1 Hconf Hoci (proj1 (proj2 Hd1)))].
    intros w2 r [_ ->]. done.
  - intros d1 c Hc. apply stuck_SetCondition. by rewrite Hc.
Qed.
(** The mirror configuration cannot be read. *)
Definition mirrors_unreadable (ns : string) : Prop := forall w,
  wpd (translate (fun _ => DefConfig) (GetRegistryMirrorConfig def_yaml_Unmarshal ns))
    (fun w' r => w' = w /\ exists e, r = Err e) w.
Abbreviation initialized d :=
  (initializeConditions now d [ReadyCondition; HelmChartReadyCondition; OCIReplicationReadyCondition]).
(** A pass that cannot read it: not Ready and stuck, unless it failed before. *)
Lemma unreadable_pass ns (d : O) chart w :
  mirrors_unreadable ns -> pd_HelmChart (def_Spec d) = Some chart -> has_prefix (hcr_Repository chart) "oci://" = true ->
  replicated_before d chart = true ->
  wpd (def_pass true ns d) (fun _ '(d1, (_, outcome, err)) => outcome = Failed /\ err <> None /\
    (d1 = setReadyCondition now (initialized d) \/
     stuck (def_Spec d) chart d1 /\ IsReadyTrue (GetConditions d1) = false)) w.
Proof.
  intros Hconf Hch Hoci Hrep. unfold def_pass, def_EnsureCreated. apply wp_bind.
  destruct (initializeConditions_facts d [ReadyCondition; HelmChartReadyCondition; OCIReplicationReadyCondition]) as ([_ Hs1] & Ha1 & _).
  rewrite Hs1, Hch. apply wp_bind. wp_skip. destruct a as [e|]; [split_and!; [done..|by left]|].
  apply wp_bind. unfold ensureChartReplication. cbn [negb]. rewrite Hoci. cbn [negb].
  apply wp_bind. eapply wp_mono; [|apply Hconf]. intros w1 r [_ [e ->]]. apply wp_ret.
  set (d2 := failReplication now e "failed to get registry mirror config" (initialized d)).
  destruct (config_failure_reported (initialized d) e "failed to get registry mirror config") as [Hf Ha]. fold d2 in Hf, Ha.
  assert (stuck (def_Spec d) chart d2.1) as Hst.
  { split; [by etransitivity; [apply def_Spec_SetCondition|]|]. split; [|exact Hf].
    unfold replicated_before, already_replicated in *. by rewrite Ha, Ha1. }
  split; [done|]. split; [done|]. right.
  split; [by apply stuck_ready|by apply (stuck_not_ready (def_Spec d) chart)].
Qed.
End environment.

(** C31: a failed replication that stays.  Mirroring is enabled and the chart of the
    definition, an OCI one, was replicated before; a pass cannot read the mirror
    configuration.  It fails, and unless it failed before it came to the replication, the
    definition is not Ready; then any number of further passes, all of which can read the
    configuration and find mirrors in it, skip the replication without touching the
    condition: as long as the specification, and with it the version, is the same, the
    definition stays not Ready. *)
Theorem replication_failure_sticks {Libs : DefinitionLibs} {O : Type} {HObj : Object O} {HRun : RuntimeObject O}
    {HDef : DefinitionObject O} {HObjLaws : ObjectLaws O} {HRunLaws : RuntimeObjectLaws O} {HDefLaws : DefinitionObjectLaws O}
    now now' answers answers' ns (d : O) chart w :
  mirrors_unreadable answers ns -> mirrors_configured answers' ns ->
  pd_HelmChart (def_Spec d) = Some chart -> has_prefix (hcr_Repository chart) "oci://" = true ->
  replicated_before d chart = true ->
  wp (def_step answers) (def_pass now true ns d) (fun w1 '(d1, (_, outcome, err)) =>
    outcome = Failed /\ err <> None /\
    (d1 = setReadyCondition now (initializeConditions now d [ReadyCondition; HelmChartReadyCondition; OCIReplicationReadyCondition]) \/
     IsReadyTrue (GetConditions d1) = false /\
     forall n, wp (def_step answers') (def_passes now' n true ns d1) (fun _ d' =>
       def_Spec d' = def_Spec d /\ IsReadyTrue (GetConditions d') = false) w1)) w.
Proof.
  intros Hun Hconf Hch Hoci Hrep. eapply wp_mono; [|by apply (unreadable_pass now answers ns d chart)].
  intros w1 [d1 [[res outcome] err]] (Ho & He & H). split; [exact Ho|]. split; [exact He|].
  destruct H as [H|[Hst Hr]]; [by left|right]. split; [exact Hr|]. intros n.
  eapply wp_mono; [|by apply (passes_stuck now' answers' n ns (def_Spec d) chart)].
  intros w' d' [[Hs _] Hd']. split; [exact Hs|]. auto.
Qed.

(** ** Names that definitions share *)
(** The name of a repository forgets how its URL is reached. *)
Lemma repository_name_forgets_scheme rest :
  ChartURLToName ("https://" +:+ rest) = ChartURLToName ("http://" +:+ rest) /\
  ChartURLToName ("oci://" +:+ rest) = ChartURLToName ("http://" +:+ rest).
Proof. done. Qed.
Lemma repository_name_without_scheme : ChartURLToName "ghcr.io/acme/charts" = "".
Proof. done. Qed.

(** ** Runs *)
Module DefinitionRun.
#[export] Instance run_definition_libs : DefinitionLibs := {|
  def_ParseReference := fun _ => Some (mk_parsed_ref "ghcr.io" "acme/charts/perses" (Tag "1.0.0"));
  def_yaml_Unmarshal _ := Ok (MirrorRun.config, map_to_list (RegistryMirrors MirrorRun.config));
  def_local_registry := None;
  def_sha256_hex s := s;
  def_SetOwnerReference kind owner _ := Ok [mk_ref kind (om_name owner) (om_uid owner) false];
  def_SetControllerReference kind owner _ := Ok [mk_ref kind (om_name owner) (om_uid owner) true] |}.
(** The mirror configuration is there; nothing is pulled. *)
Definition configured_answers X (e : definitionCE X) : X -> Prop :=
  match e in definitionCE X return X -> Prop with
  | DefFlux _ => fun _ => True
  | DefConfig e =>
      match e in mirror_configE X return X -> Prop with
      | GetOrganization _ => fun r => r = Ok "mirrors"
      | GetConfigMap _ => fun r => r = Ok {[registryMirrorConfigKey := "config"]}
      | GetSecret _ => fun _ => False
      end
  | DefMirror _ => fun _ => False
  end.
Definition chart_at (url : string) : HelmChartReference := mk_hcr "perses" url "1.0.0".
Definition definition_of (url : string) (status : PluginDefinitionStatus) : PluginDefinition :=
  mk_pd (mk_meta "perses" "acme" "uid-1" 0 {[LabelKeyOwnedBy := "sre"]} ∅ [] [] None)
    (mk_pd_spec "" "" (Some (chart_at url)) None [] "1.0.0" None "" "" "") status.
Definition fresh : PluginDefinitionStatus := mk_pd_status [] None.
(** A chart of a former version *)
Definition old_chart : FluxHelmChart :=
  mk_flux_chart def_no_type (mk_meta "perses-0.9.0" "acme" "uid-2" 0 {[LabelKeyPluginDefinition := "perses"]} ∅ []
    [mk_ref PluginDefinitionKind "perses" "uid-1" true] None) (mk_chart_spec "" 0 "" "" "" "") ∅.
Definition ready : gmap string MetaCondition := {["Ready" := mk_mc "True" 0 "Succeeded" "ready"]}.
(** The chart of the current version as Flux left it *)
Definition current_chart : FluxHelmChart :=
  mk_flux_chart def_no_type (named "perses-1.0.0" "acme") (mk_chart_spec "" 0 "" "" "" "") ready.
Definition start : flux_world := mk_flux_world ∅ ∅ ∅ ∅ ∅
  {[mk_key "acme" "perses-0.9.0" := old_chart; mk_key "acme" "perses-1.0.0" := current_chart]}.
Definition store X (e : definitionCE X) (w : flux_world) : option (X * flux_world) :=
  match e in definitionCE X return option (X * flux_world) with
  | DefFlux e => FluxRun.store_flux w _ e
  | _ => None
  end.
Lemma definition_store_allowed w X e x w' : store X e w = Some (x, w') -> def_step configured_answers w X e x w'.
Proof. destruct e as [X e|X e|X e]; cbn [store def_step]; [apply FluxRun.store_flux_allowed|done..]. Qed.
Abbreviation https := "https://ghcr.io/acme/charts".
Abbreviation pass := (attempt store (def_pass 7 false "acme" (definition_of https fresh)) start).
Definition ready_after (r : option (PluginDefinition * cb_result * flux_world)) : bool :=
  match r with Some (d, (_, Success, None), _) => IsReadyTrue (GetConditions d) | _ => false end.
Lemma pass_ready : ready_after pass = true.
Proof. by vm_compute. Qed.
Lemma ready_definition_has_ready_chart_witness : exists d' r w',
  exec (def_step configured_answers) (def_pass 7 false "acme" (definition_of https fresh)) start (d', r) w' /\
  IsReadyTrue (GetConditions d') = true /\ provided_chart "acme" (definition_of https fresh) (chart_at https) w'.
Proof.
  pose proof pass_ready as Hr. destruct pass as [[[d' r] w']|] eqn:Hp; [|done].
  apply (exec_attempt (def_step configured_answers) store) in Hp; [|apply definition_store_allowed].
  pose proof (wp_exec _ _ _ _ _ _ (ready_definition_has_ready_chart 7 configured_answers false "acme" _ _) Hp) as H.
  exists d', r, w'. split; [done|]. destruct r as [[res [ | |]] [e|]]; try discriminate Hr.
  split; [exact Hr|]. by apply (H eq_refl Hr).
Defined.
Abbreviation created := (attempt store (def_EnsureCreated 7 false "acme" (definition_of https fresh)) start).
Definition succeeded (r : option (PluginDefinition * cb_result * flux_world)) : bool :=
  match r with Some (_, (_, Success, None), _) => true | _ => false end.
Lemma created_succeeds : succeeded created = true.
Proof. by vm_compute. Qed.
Lemma def_EnsureCreated_provides_witness : exists d' r w',
  exec (def_step configured_answers) (def_EnsureCreated 7 false "acme" (definition_of https fresh)) start (d', r) w' /\
  provided_repository "acme" (definition_of https fresh) (chart_at https) w' /\
  gone FHelmChart (mk_key "acme" "perses-0.9.0") w'.
Proof.
  pose proof created_succeeds as Hr. destruct created as [[[d' r] w']|] eqn:Hp; [|done].
  apply (exec_attempt (def_step configured_answers) store) in Hp; [|apply definition_store_allowed].
  pose proof (wp_exec _ _ _ _ _ _ (def_EnsureCreated_provides 7 configured_answers false "acme" _ _) Hp) as H.
  exists d', r, w'. split; [done|]. destruct r as [[res [ | |]] [e|]]; try discriminate Hr.
  destruct H as (_ & _ & _ & H). destruct (H eq_refl) as (H1 & _ & H3). split; [done|].
  by apply (H3 old_chart).
Defined.
Abbreviation oci := "oci://ghcr.io/acme/charts".
Lemma shared_repository_taken_witness : exists d' r w',
  exec (def_step configured_answers) (def_EnsureCreated 7 false "acme" (definition_of https fresh)) start (d', r) w' /\
  ~ provided_repository "acme" (definition_of oci fresh) (chart_at oci) w'.
Proof.
  pose proof created_succeeds as Hr. destruct created as [[[d' r] w']|] eqn:Hp; [|done].
  apply (exec_attempt (def_step configured_answers) store) in Hp; [|apply definition_store_allowed].
  assert (repository_key "acme" (chart_at oci) = repository_key "acme" (chart_at https)) as Hk by (by vm_compute).
  assert (hcr_Repository (chart_at oci) <> hcr_Repository (chart_at https)) as Hne by (by vm_compute).
  pose proof (wp_exec _ _ _ _ _ _ (shared_repository_taken 7 configured_answers false "acme" (definition_of https fresh)
    (definition_of oci fresh) (chart_at https) (chart_at oci) start eq_refl Hk Hne) Hp) as H.
  exists d', r, w'. split; [done|]. destruct r as [[res [ | |]] [e|]]; try discriminate Hr. by apply H.
Defined.
(** Replicated, then a pass that could not read the mirror configuration *)
Definition replicated : PluginDefinition := definition_of oci (mk_pd_status []
  (Some (mk_artifact "ghcr.io" "acme/charts/perses" "1.0.0" "sha256:00" ReplicationStatusReplicated))).
(** The read of the Organization fails. *)
Definition unreadable_answers X (e : definitionCE X) : X -> Prop :=
  match e in definitionCE X return X -> Prop with
  | DefConfig e =>
      match e in mirror_configE X return X -> Prop with
      | GetOrganization _ => fun r => r = Err (new_error "connection refused")
      | GetConfigMap _ => fun _ => False
      | GetSecret _ => fun _ => False
      end
  | _ => fun _ => True
  end.
Lemma run_unreadable : mirrors_unreadable unreadable_answers "acme".
Proof.
  intros w. apply wp_translate. unfold GetRegistryMirrorConfig. apply wp_bind, wp_trigger. intros o w1 [-> ->].
  apply wp_ret. split; [done|]. eauto.
Qed.
Lemma run_configured : mirrors_configured configured_answers "acme".
Proof.
  assert (validateRegistryMirrorConfig (map_to_list (RegistryMirrors MirrorRun.config)) MirrorRun.config = None) as Hv by (by vm_compute).
  intros w. apply wp_translate. unfold GetRegistryMirrorConfig. apply wp_bind, wp_trigger. intros o w1 [-> ->].
  rewrite bool_decide_eq_false_2 by done. apply wp_bind, wp_trigger. intros m w2 [-> ->]. rewrite lookup_singleton_eq.
  unfold def_yaml_Unmarshal, run_definition_libs. rewrite Hv. apply wp_ret. split; [done|]. exists MirrorRun.config. split; [done|].
  by vm_compute.
Qed.
Lemma replication_failure_sticks_witness :
  wp (def_step unreadable_answers) (def_pass 7 true "acme" replicated) (fun w1 '(d1, (_, outcome, _)) =>
    outcome = Failed /\
    (replication_failed d1 = true ->
     wp (def_step configured_answers) (def_passes 8 3 true "acme" d1) (fun _ d' => IsReadyTrue (GetConditions d') = false) w1)) start.
Proof.
  eapply wp_mono; [|apply (replication_failure_sticks 7 8 unreadable_answers configured_answers "acme" replicated
                       (chart_at oci) start run_unreadable run_configured)].
  - intros w1 [d1 [[res outcome] err]] (Ho & _ & H). split; [exact Ho|]. intros Hf.
    destruct H as [->|[_ H]]; [by vm_compute in Hf|]. eapply wp_mono; [|exact (H 3)]. by intros w' d' [_ Hr].
  - reflexivity.
  - reflexivity.
  - by vm_compute.
Defined.
End DefinitionRun.
