(* ===== verification/ExposedServices.v ===== *)
(** * ExposedServices: what a deployed Plugin exposes
      ([internal/helm/manifest.go], [internal/controller/plugin/plugin_controller.go], [util.go])

    The status of a Plugin lists, by URL, the services and ingresses of its Helm release
    that carry the annotation [greenhouse.sap/expose].  They are read from the manifest
    of the deployed release; loading it (which asks the cluster for the kinds it
    knows) is a call, answered by the resources it holds.

    Parameters: SHA-256 ([ServiceProxy]), the base domain, and the order in which a Go
    map is ranged over. *)
From S2P Require Import Prelude Effects Conditions Meta WebhookUtil PluginTypes KubeConfig ServiceProxy.
From Stdlib Require Import ZArith Ascii.

Definition AnnotationKeyExpose : string := "greenhouse.sap/expose".
Definition AnnotationKeyExposedNamedPort : string := "greenhouse.sap/exposed-named-port".
Definition AnnotationKeyExposedIngressHost : string := "greenhouse.sap/exposed-host".

(** ** Manifests *)
Record ServicePort := mk_port { port_Name : string; port_Port : Z; port_AppProtocol : option string }.
#[export] Instance ServicePort_eq_dec : EqDecision ServicePort.
Proof. solve_decision. Defined.
(** The [spec] of an object, as the conversion from its unstructured form finds it. *)
Inductive manifest_spec :=
| SpecService (ports : list ServicePort)
| SpecIngress (rule_hosts : list string) (tls_hosts : list (list string))
| SpecOther.

(** [resource.Info] *)
Record ResourceInfo := mk_info {
  info_Group : string; info_Version : string; info_Kind : string; info_Namespace : string; info_Name : string;
  info_Annotations : option strmap; info_Spec : manifest_spec }.
(** [ObjectKey] of [internal/helm] *)
Record ObjectKey := mk_okey { ok_Group : string; ok_Version : string; ok_Kind : string; ok_Namespace : string; ok_Name : string }.
#[export] Instance ObjectKey_eq_dec : EqDecision ObjectKey.
Proof. solve_decision. Defined.
#[export] Instance ObjectKey_countable : Countable ObjectKey.
Proof.
  refine (inj_countable' (fun k => (ok_Group k, ok_Version k, ok_Kind k, ok_Namespace k, ok_Name k))
            (fun p => mk_okey p.1.1.1.1 p.1.1.1.2 p.1.1.2 p.1.2 p.2) _).
  by intros [].
Defined.
Definition info_key (i : ResourceInfo) : ObjectKey :=
  mk_okey (info_Group i) (info_Version i) (info_Kind i) (info_Namespace i) (info_Name i).

Record ManifestObjectFilter := mk_filter {
  f_APIVersion : string; f_Kind : string; f_Name : string; f_Annotations : option strmap }.

Definition Matches (o : ManifestObjectFilter) (obj : ResourceInfo) : bool :=
  let wants (want got : string) := bool_decide (want = "") || bool_decide (want = got) in
  wants (f_Kind o) (info_Kind obj) && wants (f_APIVersion o) (info_Version obj) &&
  wants (f_Name o) (info_Name obj) &&
  match f_Annotations o with
  | None => true
  | Some want =>
      match info_Annotations obj with
      | None => false
      | Some got => bool_decide (map_Forall (fun k v => got !! k = Some v) want)
      end
  end.
(** [ManifestMultipleObjectFilter] *)
Definition MatchesAny (filters : list ManifestObjectFilter) (obj : ResourceInfo) : bool :=
  existsb (fun f => Matches f obj) filters.

(** [objectMapping], with the filter as its [Matches]: of two objects with one key the later one stays. *)
Definition objectMapping (f : ResourceInfo -> bool) (infos : list ResourceInfo) :
    gmap ObjectKey ResourceInfo :=
  fold_left (fun m info => if f info then <[info_key info := info]> m else m) infos ∅.

Record helm_release := mk_release { rel_Namespace : string; rel_Manifest : string }.
Inductive manifestE : Type -> Type :=
| LoadManifest (namespace manifest : string) : manifestE (result (list ResourceInfo)).

Definition ObjectMapFromRelease (r : helm_release) (f : ManifestObjectFilter) :
    prog manifestE (result (gmap ObjectKey ResourceInfo)) :=
  infos ← trigger (LoadManifest (rel_Namespace r) (rel_Manifest r));
  mret (match infos with
        | Err e => Err (wrap_error "error loading manifest: " e)
        | Ok infos => Ok (objectMapping (Matches f) infos)
        end).

(** [loadLocalManifest] asks nobody: it is a function of the manifest. *)
Definition ObjectMapFromLocalManifest (loadLocalManifest : string -> result (list ResourceInfo))
    (f : ResourceInfo -> bool) (manifest : string) : result (gmap ObjectKey ResourceInfo) :=
  match loadLocalManifest manifest with
  | Err e => Err (wrap_error "error loading local manifest: " e)
  | Ok infos => Ok (objectMapping f infos)
  end.

(** ** Ports and hosts *)
Definition annotation (i : ResourceInfo) (key : string) : string :=
  default "" (default ∅ (info_Annotations i) !! key).

Definition getPortForExposedService (o : ResourceInfo) : result ServicePort :=
  match info_Spec o with
  | SpecService ports =>
      match ports with
      | [] => Err (new_error "service has no ports")
      | first :: _ =>
          let namedPort := annotation o AnnotationKeyExposedNamedPort in
          if negb (bool_decide (namedPort = "")) then
            match List.find (fun p => bool_decide (port_Name p = namedPort)) ports with
            | Some p => Ok p
            | None => Ok first
            end
          else Ok first
      end
  | _ => Err (new_error "failed to convert to v1.Service from unstructured object")
  end.

Definition getURLForExposedIngress (o : ResourceInfo) : result string :=
  match info_Spec o with
  | SpecIngress rules tls =>
      match rules with
      | [] => Err (new_error "ingress has no rules")
      | first :: _ =>
          let specificHost := annotation o AnnotationKeyExposedIngressHost in
          let host :=
            if negb (bool_decide (specificHost = "")) then
              if slices_contains rules specificHost then Ok specificHost
              else Err (new_error ("specified host " +:+ specificHost +:+ " not found in ingress rules"))
            else if bool_decide (first = "") then Err (new_error "first ingress rule has no host")
            else Ok first in
          match host with
          | Err e => Err e
          | Ok host =>
              let https := existsb (fun hosts => bool_decide (hosts = []) || slices_contains hosts host) tls in
              Ok ((if https then "https" else "http") +:+ "://" +:+ host)
          end
      end
  | _ => Err (new_error "failed to convert to v1.Ingress from unstructured object")
  end.

(** ** The exposed services of a Plugin *)
Section exposed.
Variable sha256_hex : string -> string.
Variable DNSDomain : string.
Variable obj_order : gmap ObjectKey ResourceInfo -> list (ObjectKey * ResourceInfo).

Definition exposed_filter (kind : string) : ManifestObjectFilter :=
  mk_filter "v1" kind "" (Some {[AnnotationKeyExpose := "true"]}).

(** A loop over a map that may return an error. *)
Fixpoint collect (f : ResourceInfo -> result (string * Service)) (l : list (ObjectKey * ResourceInfo))
    (m : gmap string Service) : result (gmap string Service) :=
  match l with
  | [] => Ok m
  | (_, info) :: l =>
      match f info with
      | Err e => Err e
      | Ok (url, svc) => collect f l (<[url := svc]> m)
      end
  end.

Definition or_namespace (r : helm_release) (namespace : string) : string :=
  if bool_decide (namespace = "") then rel_Namespace r else namespace.
Definition exposed_service (r : helm_release) (plugin : Plugin) (svc : ResourceInfo) :
    result (string * Service) :=
  match getPortForExposedService svc with
  | Err e => Err e
  | Ok svcPort =>
      Ok (URLForExposedServiceInPlugin sha256_hex DNSDomain (info_Name svc) plugin,
          mk_service (or_namespace r (info_Namespace svc)) (info_Name svc) (port_Port svcPort)
            (port_AppProtocol svcPort) ServiceTypeService)
  end.
Definition exposed_ingress (r : helm_release) (ingress : ResourceInfo) : result (string * Service) :=
  match getURLForExposedIngress ingress with
  | Err e => Err e
  | Ok fullURL =>
      Ok (fullURL, mk_service (or_namespace r (info_Namespace ingress)) (info_Name ingress) 0 None
                     ServiceTypeIngress)
  end.

Definition getExposedServicesForPluginFromHelmRelease (r : helm_release) (plugin : Plugin) :
    prog manifestE (result (gmap string Service)) :=
  l ← ObjectMapFromRelease r (exposed_filter "Service");
  mret (match l with
        | Err e => Err e
        | Ok exposedServiceList =>
            if bool_decide (exposedServiceList = ∅) then Ok ∅
            else if bool_decide (plugin_ClusterName (plugin_Spec plugin) = "") then
              Err (new_error "plugin does not have ClusterName")
            else collect (exposed_service r plugin) (obj_order exposedServiceList) ∅
        end).
Definition getExposedIngressesForPluginFromHelmRelease (r : helm_release) :
    prog manifestE (result (gmap string Service)) :=
  l ← ObjectMapFromRelease r (exposed_filter "Ingress");
  mret (match l with
        | Err e => Err e
        | Ok exposedIngressList => collect (exposed_ingress r) (obj_order exposedIngressList) ∅
        end).

(** [maps.Copy] overwrites. *)
Definition maps_Copy (dst src : gmap string Service) : gmap string Service := src ∪ dst.

Definition getAllExposedServicesForPlugin (r : helm_release) (plugin : Plugin) (exposeServices : bool) :
    prog manifestE (result (gmap string Service)) :=
  '(errorMessages, exposedServices) ←
    (if exposeServices then
       l ← getExposedServicesForPluginFromHelmRelease r plugin;
       mret (match l with
             | Err e => (["services: " +:+ err_msg e], ∅)
             | Ok serviceList => ([], maps_Copy ∅ serviceList)
             end)
     else mret ([], ∅));
  l ← getExposedIngressesForPluginFromHelmRelease r;
  let '(errorMessages, exposedServices) :=
    match l with
    | Err e => (errorMessages ++ ["ingresses: " +:+ err_msg e], exposedServices)
    | Ok ingressList => (errorMessages, maps_Copy exposedServices ingressList)
    end in
  mret (if (0 <? length errorMessages)%nat
        then Err (new_error ("failed to get exposed resources: " +:+ join "; " errorMessages))
        else Ok exposedServices).
End exposed.

(** ** What is exposed *)
Lemma objectMapping_spec f infos :
  (forall k info, objectMapping f infos !! k = Some info ->
     info ∈ infos /\ f info = true /\ info_key info = k) /\
  (NoDup (info_key <$> infos) -> forall info, info ∈ infos -> f info = true ->
     objectMapping f infos !! info_key info = Some info).
Proof.
  unfold objectMapping. induction infos as [|x infos IH] using rev_ind.
  { cbn. split; [intros k info; by rewrite lookup_empty|set_solver]. }
  rewrite fold_left_app. cbn. destruct IH as [IH1 IH2]. split.
  - intros k info. destruct (f x) eqn:Hx.
    + rewrite lookup_insert_Some. intros [[<- <-]|[_ H]]; [set_solver|].
      destruct (IH1 _ _ H) as (?&?&?). set_solver.
    + intros H. destruct (IH1 _ _ H) as (?&?&?). set_solver.
  - rewrite fmap_app, NoDup_app. intros (Hnd & Hdis & _) info Hin Hm.
    apply elem_of_app in Hin as [Hin| ->%list_elem_of_singleton].
    + specialize (IH2 Hnd _ Hin Hm). destruct (f x); [|done].
      rewrite lookup_insert_ne; [done|]. intros Heq. apply (Hdis (info_key info)); [set_solver|].
      rewrite <-Heq. set_solver.
    + by rewrite Hm, lookup_insert_eq.
Qed.

Lemma collect_Ok f l m m' :
  collect f l m = Ok m' ->
  (forall url svc, m' !! url = Some svc ->
     m !! url = Some svc \/ exists k info, (k, info) ∈ l /\ f info = Ok (url, svc)) /\
  (forall url, is_Some (m !! url) \/ (exists k info svc, (k, info) ∈ l /\ f info = Ok (url, svc)) ->
     is_Some (m' !! url)) /\
  (forall k info, (k, info) ∈ l -> exists us, f info = Ok us).
Proof.
  revert m. induction l as [|[k x] l IH]; intros m; cbn.
  { intros [= ->]. set_solver. }
  destruct (f x) as [[u s]|] eqn:Hx; [|done]. intros H. destruct (IH _ H) as (H1 & H2 & H3).
  split; [|split].
  - intros url svc Hurl. destruct (H1 _ _ Hurl) as [[[<- <-]|[_ Hm]]%lookup_insert_Some|(k' & i & Hi & Hf)].
    + right. exists k, x. set_solver.
    + by left.
    + right. exists k', i. set_solver.
  - intros url [Hs|(k' & i & svc & [[= -> ->]|Hi]%elem_of_cons & Hf)]; apply H2.
    + left. destruct (decide (url = u)) as [->|]; [by rewrite lookup_insert_eq|by rewrite lookup_insert_ne].
    + left. rewrite Hx in Hf. simplify_eq. by rewrite lookup_insert_eq.
    + right. eauto.
  - intros k' i [[= -> ->]|Hi]%elem_of_cons; eauto.
Qed.
Lemma collect_Err f l m e :
  collect f l m = Err e -> exists k info, (k, info) ∈ l /\ f info = Err e.
Proof.
  revert m. induction l as [|[k x] l IH]; intros m; cbn; [done|].
  destruct (f x) as [[u s]|e'] eqn:Hx.
  - intros (k' & i & ? & ?)%IH. exists k', i. set_solver.
  - intros [= ->]. exists k, x. set_solver.
Qed.

Section exposed_spec.
Variable sha256_hex : string -> string.
Variable DNSDomain : string.
Variable obj_order : gmap ObjectKey ResourceInfo -> list (ObjectKey * ResourceInfo).
Hypothesis obj_order_perm : forall m, obj_order m ≡ₚ map_to_list m.

(** The manifest of the release holds the resources [infos]. *)
Definition manifest_is (infos : list ResourceInfo) (_ : unit) X (e : manifestE X) : X -> unit -> Prop :=
  match e in manifestE X return X -> unit -> Prop with
  | LoadManifest _ _ => fun x _ => x = Ok infos
  end.

(** [info] is exposed as [svc] under [url]. *)
Definition exposed_as (r : helm_release) (plugin : Plugin) (es : bool) (info : ResourceInfo)
    (url : string) (svc : Service) : Prop :=
  es = true /\ Matches (exposed_filter "Service") info = true /\
    exposed_service sha256_hex DNSDomain r plugin info = Ok (url, svc) \/
  Matches (exposed_filter "Ingress") info = true /\ exposed_ingress r info = Ok (url, svc).
(** [info] asks to be exposed and cannot be. *)
Definition not_exposable (r : helm_release) (plugin : Plugin) (es : bool) (info : ResourceInfo) : Prop :=
  es = true /\ Matches (exposed_filter "Service") info = true /\
    (plugin_ClusterName (plugin_Spec plugin) = "" \/
     exists e, exposed_service sha256_hex DNSDomain r plugin info = Err e) \/
  Matches (exposed_filter "Ingress") info = true /\ exists e, exposed_ingress r info = Err e.

Lemma collect_map f infos filter m :
  NoDup (info_key <$> infos) ->
  match collect f (obj_order (objectMapping filter infos)) m with
  | Ok m' =>
      (forall url svc, m' !! url = Some svc -> m !! url = Some svc \/
         exists info, info ∈ infos /\ filter info = true /\ f info = Ok (url, svc)) /\
      (forall info url svc, info ∈ infos -> filter info = true -> f info = Ok (url, svc) ->
         is_Some (m' !! url)) /\
      (forall info, info ∈ infos -> filter info = true -> exists us, f info = Ok us)
  | Err e => exists info, info ∈ infos /\ filter info = true /\ f info = Err e
  end.
Proof using obj_order_perm.
  intros Hnd. destruct (objectMapping_spec filter infos) as [Hm1 Hm2]. specialize (Hm2 Hnd).
  assert (forall k info, (k, info) ∈ obj_order (objectMapping filter infos) <->
    objectMapping filter infos !! k = Some info) as Hel.
  { intros. by rewrite obj_order_perm, elem_of_map_to_list. }
  destruct (collect _ _ _) as [m'|e] eqn:Hc.
  - destruct (collect_Ok _ _ _ _ Hc) as (H1 & H2 & H3). split; [|split].
    + intros url svc Hu. destruct (H1 _ _ Hu) as [|(k & info & Hin%Hel & Hf)]; [by left|right].
      destruct (Hm1 _ _ Hin) as (? & ? & _). eauto.
    + intros info url svc Hin Hm Hf. apply H2. right. exists (info_key info), info, svc.
      split; [|done]. apply Hel. auto.
    + intros info Hin Hm. apply (H3 (info_key info)), Hel. auto.
  - destruct (collect_Err _ _ _ _ Hc) as (k & info & Hin%Hel & Hf).
    destruct (Hm1 _ _ Hin) as (? & ? & _). eauto.
Qed.

Lemma services_of r plugin infos :
  NoDup (info_key <$> infos) ->
  wp (manifest_is infos)
    (getExposedServicesForPluginFromHelmRelease sha256_hex DNSDomain obj_order r plugin)
    (fun _ l => match l with
      | Ok m =>
          (forall url svc, m !! url = Some svc -> exists info, info ∈ infos /\ exposed_as r plugin true info url svc) /\
          (forall info url svc, info ∈ infos -> Matches (exposed_filter "Service") info = true ->
             exposed_service sha256_hex DNSDomain r plugin info = Ok (url, svc) -> is_Some (m !! url)) /\
          (forall info, info ∈ infos -> Matches (exposed_filter "Service") info = true ->
             plugin_ClusterName (plugin_Spec plugin) <> "" /\
             exists us, exposed_service sha256_hex DNSDomain r plugin info = Ok us)
      | Err _ => exists info, info ∈ infos /\ not_exposable r plugin true info
      end) tt.
Proof using obj_order_perm.
  intros Hnd. unfold getExposedServicesForPluginFromHelmRelease, ObjectMapFromRelease.
  apply wp_bind, wp_bind. wp_step. cbn in Hx. subst x. destruct w. apply wp_ret, wp_ret.
  destruct (objectMapping_spec (Matches (exposed_filter "Service")) infos) as [Hm1 Hm2]. specialize (Hm2 Hnd).
  case_bool_decide as He.
  { assert (forall info, info ∈ infos -> Matches (exposed_filter "Service") info = true -> False) as Hno.
    { intros info Hin Hm. specialize (Hm2 _ Hin Hm). by rewrite He, lookup_empty in Hm2. }
    split; [intros url svc; by rewrite lookup_empty|]. split; intros info; intros; by destruct (Hno info). }
  case_bool_decide as Hc.
  { destruct (map_choose _ He) as (k & info & Hk). destruct (Hm1 _ _ Hk) as (Hin & Hm & _).
    exists info. split; [done|]. left. eauto. }
  pose proof (collect_map (exposed_service sha256_hex DNSDomain r plugin) infos (Matches (exposed_filter "Service")) ∅ Hnd) as Hcol.
  destruct (collect _ _ _) as [m|e].
  - destruct Hcol as (H1 & H2 & H3). split; [|split; [done|]].
    + intros url svc Hu. destruct (H1 _ _ Hu) as [Hu'|(info & Hin & Hm & Hf)].
      * by rewrite lookup_empty in Hu'.
      * exists info. split; [done|]. by left.
    + intros info Hin Hm. auto.
  - destruct Hcol as (info & Hin & Hm & Hf). exists info. split; [done|]. left. eauto.
Qed.
Lemma ingresses_of r plugin es infos :
  NoDup (info_key <$> infos) ->
  wp (manifest_is infos) (getExposedIngressesForPluginFromHelmRelease obj_order r)
    (fun _ l => match l with
      | Ok m =>
          (forall url svc, m !! url = Some svc -> exists info, info ∈ infos /\
             Matches (exposed_filter "Ingress") info = true /\ exposed_ingress r info = Ok (url, svc)) /\
          (forall info url svc, info ∈ infos -> Matches (exposed_filter "Ingress") info = true ->
             exposed_ingress r info = Ok (url, svc) -> is_Some (m !! url)) /\
          (forall info, info ∈ infos -> Matches (exposed_filter "Ingress") info = true ->
             exists us, exposed_ingress r info = Ok us)
      | Err _ => exists info, info ∈ infos /\ not_exposable r plugin es info
      end) tt.
Proof using obj_order_perm.
  intros Hnd. unfold getExposedIngressesForPluginFromHelmRelease, ObjectMapFromRelease.
  apply wp_bind, wp_bind. wp_step. cbn in Hx. subst x. apply wp_ret, wp_ret.
  pose proof (collect_map (exposed_ingress r) infos (Matches (exposed_filter "Ingress")) ∅ Hnd) as Hcol.
  destruct (collect _ _ _) as [m|e].
  - destruct Hcol as (H1 & H2 & H3). split; [|done].
    intros url svc Hu. destruct (H1 _ _ Hu) as [Hu'|?]; [by rewrite lookup_empty in Hu'|done].
  - destruct Hcol as (info & Hin & Hm & Hf). exists info. split; [done|]. right. eauto.
Qed.

(** What the answer says of the manifest. *)
Definition exposed_answer (r : helm_release) (plugin : Plugin) (es : bool) (infos : list ResourceInfo)
    (res : result (gmap string Service)) : Prop :=
  match res with
  | Ok m =>
      (forall url svc, m !! url = Some svc ->
         exists info, info ∈ infos /\ exposed_as r plugin es info url svc) /\
      (forall info url svc, info ∈ infos -> exposed_as r plugin es info url svc -> is_Some (m !! url)) /\
      (forall info, info ∈ infos -> ~ not_exposable r plugin es info)
  | Err _ => exists info, info ∈ infos /\ not_exposable r plugin es info
  end.
Lemma getAll_answer r plugin es infos :
  NoDup (info_key <$> infos) ->
  wp (manifest_is infos)
    (getAllExposedServicesForPlugin sha256_hex DNSDomain obj_order r plugin es)
    (fun _ => exposed_answer r plugin es infos) tt.
Proof using obj_order_perm.
  intros Hnd. unfold getAllExposedServicesForPlugin. apply wp_bind.
  apply wp_mono with (Q := fun _ st =>
    (st.1 <> [] -> exists info, info ∈ infos /\ not_exposable r plugin es info) /\
    (st.1 = [] ->
      (forall url svc, st.2 !! url = Some svc -> exists info, info ∈ infos /\ exposed_as r plugin es info url svc) /\
      (es = true -> forall info url svc, info ∈ infos -> Matches (exposed_filter "Service") info = true ->
         exposed_service sha256_hex DNSDomain r plugin info = Ok (url, svc) -> is_Some (st.2 !! url)) /\
      (es = true -> forall info, info ∈ infos -> Matches (exposed_filter "Service") info = true ->
         plugin_ClusterName (plugin_Spec plugin) <> "" /\
         exists us, exposed_service sha256_hex DNSDomain r plugin info = Ok us))).
  2:{ destruct es; [|apply wp_ret; cbn; split; [done|]; intros _; split;
        [intros url svc; by rewrite lookup_empty|done]].
      apply wp_bind. eapply wp_mono; [|by apply services_of]. intros w [m|e] H; apply wp_ret; cbn.
      - split; [done|]. intros _. unfold maps_Copy. rewrite map_union_empty.
        destruct H as (? & ? & ?). by split.
      - split; [done|]. intros [=]. }
  intros [] [msgs m] [Hbad Hok]; cbn [fst snd] in *. apply wp_bind.
  eapply wp_mono; [|by apply (ingresses_of r plugin es)].
  intros w [mi|e] Hi; apply wp_ret; cbn [length].
  - destruct (Nat.ltb_spec 0 (length msgs)) as [Hlt|Hge].
    { apply Hbad. intros ->. cbn in Hlt. lia. }
    assert (msgs = []) as -> by (destruct msgs; [done|cbn in Hge; lia]).
    destruct (Hok eq_refl) as (S1 & S2 & S3). destruct Hi as (I1 & I2 & I3). unfold maps_Copy.
    split; [|split].
    + intros url svc [Hu|[_ Hu]]%lookup_union_Some_raw; [|by apply S1].
      destruct (I1 _ _ Hu) as (info & ? & ?). exists info. split; [done|]. by right.
    + intros info url svc Hin [(Hes & Hm & Hf)|[Hm Hf]]; apply lookup_union_is_Some; [right|left]; eauto.
    + intros info Hin [(Hes & Hm & Hb)|[Hm [e He]]].
      * destruct (S3 Hes _ Hin Hm) as [Hc [us Hus]]. destruct Hb as [|[e He]]; congruence.
      * destruct (I3 _ Hin Hm) as [us Hus]. congruence.
  - rewrite length_app. cbn [length].
    destruct (Nat.ltb_spec 0 (length msgs + 1)); [done|lia].
Qed.

(** The status lists what the release exposes, no more and no less.  For a manifest
    without duplicates, whatever order Go ranges in: the answer is an error exactly
    when some annotated resource cannot be exposed (a Service without ports or of a
    Plugin without a cluster, an Ingress without a matching host); otherwise every
    entry is the entry of a resource with the annotation [greenhouse.sap/expose] and
    every such resource has an entry under its URL, Services being left out when the
    cluster does not expose them. *)
Theorem getAllExposedServicesForPlugin_spec r plugin es infos :
  NoDup (info_key <$> infos) ->
  wp (manifest_is infos)
    (getAllExposedServicesForPlugin sha256_hex DNSDomain obj_order r plugin es)
    (fun _ => exposed_answer r plugin es infos) tt.
Proof using obj_order_perm. apply getAll_answer. Qed.

End exposed_spec.

(** ** From the release to the service proxy *)
Section reachable.
Context {T : Type} {O : Type} `{Object O}.
Variable sha256_hex : string -> string.
Variable DNSDomain : string.
Variable obj_order : gmap ObjectKey ResourceInfo -> list (ObjectKey * ResourceInfo).
Variable svc_order : gmap string Service -> list (string * Service).
Hypothesis obj_order_perm : forall m, obj_order m ≡ₚ map_to_list m.
Hypothesis svc_order_perm : forall m, svc_order m ≡ₚ map_to_list m.


End reachable.

(** ** A concrete release *)
Module ExposedRun.
Definition hash (_ : string) : string := "1234567890abcdef".
Definition grafana : ResourceInfo :=
  mk_info "" "v1" "Service" "" "grafana" (Some {[AnnotationKeyExpose := "true"]})
    (SpecService [mk_port "metrics" 9090 None; mk_port "web" 8080 (Some "https")]).
Definition hidden : ResourceInfo :=
  mk_info "" "v1" "Service" "" "db" None (SpecService [mk_port "sql" 5432 None]).
Definition infos : list ResourceInfo := [grafana; hidden].
Definition release : helm_release := mk_release "monitoring" "...".
Definition plugin : Plugin :=
  mk_plugin (named "grafana" "acme")
    (mk_plugin_spec (mk_pdr "grafana" "") "" [] "prod-eu" "monitoring" "" "" [] []) empty_plugin_status.
Definition url : string := "https://prod-eu--1234567.acme.greenhouse.io".

Lemma keys_NoDup : NoDup (info_key <$> infos).
Proof.
  apply NoDup_cons. split; [|apply NoDup_singleton]. intros Hin%list_elem_of_singleton. discriminate.
Qed.

Lemma getAllExposedServicesForPlugin_spec_witness :
  wp (manifest_is infos)
    (getAllExposedServicesForPlugin hash "greenhouse.io" map_to_list release plugin true)
    (fun _ => exposed_answer hash "greenhouse.io" release plugin true infos) tt.
Proof. apply getAllExposedServicesForPlugin_spec; [done|exact keys_NoDup]. Defined.

End ExposedRun.
