(* ===== verification/Catalog.v ===== *)
(** * Catalog: the resource that lists where plugin definitions come from
      ([api/v1alpha1/catalog_types.go], [internal/controller/catalog/utils.go])

    A source is a Git repository at a reference.  The names of the Flux objects of a
    source are made of a 64-bit FNV-1a hash of the catalog's name, the repository and the
    reference, written out here with its wrap-around; the status keeps an inventory of
    these objects, a list per source.  [url.Parse] is a parameter. *)
From S2P Require Import Prelude Conditions Meta Lifecycle FluxObjects.
From Stdlib Require Import ZArith Ascii.
From stdpp Require pretty.

(** ** Reasons *)
Definition CatalogReadyReason : string := "CatalogReady".
Definition CatalogEmptySources : string := "CatalogEmptySources".
Definition OrphanedObjectCleanUpFail : string := "OrphanedObjectCleanUpFail".
Definition CatalogSourceValidationFail : string := "CatalogSourceValidationFail".
Definition CatalogNotReadyReason : string := "CatalogNotReady".
Definition CatalogProgressingReason : string := "ReconcileProgressing".

(** ** Data *)
Record GitRef := mk_gitref { ref_Branch : option string; ref_Tag : option string; ref_SHA : option string }.
#[export] Instance GitRef_eq_dec : EqDecision GitRef.
Proof. solve_decision. Defined.
(** [Value] is a pointer to a JSON value. *)
Record OptionsOverride := mk_option_override { oo_Name : string; oo_Value : option string }.
#[export] Instance OptionsOverride_eq_dec : EqDecision OptionsOverride.
Proof. solve_decision. Defined.
Record CatalogOverrides := mk_overrides {
  ov_Name : string; ov_Alias : string; ov_Repository : string; ov_OptionsOverride : list OptionsOverride }.
#[export] Instance CatalogOverrides_eq_dec : EqDecision CatalogOverrides.
Proof. solve_decision. Defined.
Record CatalogSource := mk_source {
  src_Repository : string; src_Resources : list string; src_Ref : option GitRef; src_SecretName : option string;
  src_Overrides : list CatalogOverrides; src_Interval : option Z }.
#[export] Instance CatalogSource_eq_dec : EqDecision CatalogSource.
Proof. solve_decision. Defined.
Record SourceStatus := mk_source_status { ss_Kind : string; ss_Name : string; ss_Ready : string; ss_Message : string }.
#[export] Instance SourceStatus_eq_dec : EqDecision SourceStatus.
Proof. solve_decision. Defined.
Abbreviation inventory := (gmap string (list SourceStatus)).
Record CatalogStatus := mk_catalog_status {
  cat_conditions : StatusConditions; cat_Inventory : inventory; cat_LastReconciledAt : string }.
#[export] Instance CatalogStatus_eq_dec : EqDecision CatalogStatus.
Proof. solve_decision. Defined.
Record Catalog := mk_catalog { cat_meta : ObjectMeta; cat_Sources : list CatalogSource; cat_Status : CatalogStatus }.
#[export] Instance Catalog_eq_dec : EqDecision Catalog.
Proof. solve_decision. Defined.
#[export] Instance Catalog_object : Object Catalog := {|
  get_meta := cat_meta; set_meta m o := mk_catalog m (cat_Sources o) (cat_Status o) |}.
#[export] Instance Catalog_object_laws : ObjectLaws Catalog.
Proof. by split; intros; repeat match goal with o : Catalog |- _ => destruct o end. Qed.

Definition cat_set_conditions (sc : StatusConditions) (c : Catalog) : Catalog :=
  mk_catalog (cat_meta c) (cat_Sources c)
    (mk_catalog_status sc (cat_Inventory (cat_Status c)) (cat_LastReconciledAt (cat_Status c))).
Definition cat_set_inventory (i : inventory) (c : Catalog) : Catalog :=
  mk_catalog (cat_meta c) (cat_Sources c)
    (mk_catalog_status (cat_conditions (cat_Status c)) i (cat_LastReconciledAt (cat_Status c))).
Definition cat_UpdateLastReconciledAtStatus (value : string) (c : Catalog) : Catalog :=
  mk_catalog (cat_meta c) (cat_Sources c)
    (mk_catalog_status (cat_conditions (cat_Status c)) (cat_Inventory (cat_Status c)) value).
#[export] Instance Catalog_runtime : RuntimeObject Catalog := {|
  GetConditions o := cat_conditions (cat_Status o);
  SetCondition now c o := cat_set_conditions (SetConditions now (cat_conditions (cat_Status o)) [c]) o;
  RemoveCondition t o := cat_set_conditions (remove_condition t (cat_conditions (cat_Status o))) o;
  CanBeSuspended _ := true;
  UpdateLastReconciledAtStatus := Some cat_UpdateLastReconciledAtStatus |}.
#[export] Instance Catalog_runtime_laws : RuntimeObjectLaws Catalog.
Proof. split; try done; by intros f v o [= <-]. Qed.

(** ** Methods *)
Definition GetInterval (s : CatalogSource) : Z := default (60 * HelmRelease.minute)%Z (src_Interval s).
Definition GetRefValue (s : CatalogSource) : string :=
  match src_Ref s with
  | None => "main"
  | Some r =>
      match ref_SHA r, ref_Tag r, ref_Branch r with
      | Some sha, _, _ => sha
      | None, Some tag, _ => tag
      | None, None, Some branch => branch
      | None, None, None => "main"
      end
  end.
(** The entry of an object in the list of a source, made or rewritten in place. *)
Definition is_entry (kind name : string) (s : SourceStatus) : bool :=
  bool_decide (ss_Kind s = kind) && bool_decide (ss_Name s = name).
Definition SetInventory (hash kind name msg ready : string) (c : Catalog) : Catalog :=
  let inv := cat_Inventory (cat_Status c) in
  let l := default [] (inv !! hash) in
  let l' := match index_func l (is_entry kind name) with
            | None => l ++ [mk_source_status kind name ready msg]
            | Some idx => alter (fun s => mk_source_status (ss_Kind s) (ss_Name s) ready msg) idx l
            end in
  cat_set_inventory (<[hash := l']> inv) c.

Section conditions.
Variable now : Z.
Definition cat_SetFalseCondition (conditionType reason message : string) (c : Catalog) : Catalog :=
  SetCondition now (FalseCondition now conditionType reason message) c.
Definition cat_SetTrueCondition (conditionType reason message : string) (c : Catalog) : Catalog :=
  SetCondition now (TrueCondition now conditionType reason message) c.
Definition cat_SetUnknownCondition (c : Catalog) : Catalog :=
  match GetConditionByType (GetConditions c) ReadyCondition with
  | None => SetCondition now (UnknownCondition now ReadyCondition CatalogProgressingReason
                                "Catalog reconciliation in progress") c
  | Some _ => c
  end.
Definition cat_SetProgressingReason (c : Catalog) : Catalog :=
  match GetConditionByType (GetConditions c) ReadyCondition with
  | Some cond => SetCondition now (set_reason CatalogProgressingReason cond) c
  | None => SetCondition now (UnknownCondition now ReadyCondition CatalogProgressingReason
                                "Catalog reconciliation in progress") c
  end.
End conditions.

(** ** Hashes and repositories *)
Definition fnv_offset : Z := 14695981039346656037.
Definition fnv_prime : Z := 1099511628211.
(** One byte of FNV-1a on 64 bits. *)
Definition fnv_step (h : Z) (c : ascii) : Z :=
  Z.modulo (Z.lxor h (Z.of_nat (nat_of_ascii c)) * fnv_prime) (2 ^ 64).
Definition fnv64a (s : string) : Z := fold_left fnv_step (String.list_ascii_of_string s) fnv_offset.
(** Writing to a hash never fails. *)
Definition HashValue (value : string) : string := pretty.pretty (Z.to_N (fnv64a value)).

(** [strings.TrimLeft] for a cutset of one byte *)
Fixpoint trim_left (c : ascii) (s : string) : string :=
  match s with
  | EmptyString => EmptyString
  | String a s' => if Ascii.eqb a c then trim_left c s' else s
  end.
Section repositories.
(** [Host] and [Path] of the parsed URL *)
Variable url_HostPath : string -> result (string * string).
Definition GetOwnerRepoInfo (s : string) : result (string * string * string) :=
  match url_HostPath s with
  | Err e => Err (wrap_error ("failed parsing URL " +:+ s +:+ ": ") e)
  | Ok (Host, Path) =>
      let id := trim_suffix (trim_left "/"%char Path) ".git" in
      match split "/"%char id with
      | [owner; repo] => Ok (ReplaceAll Host "." "-", owner, repo)
      | _ => Err (new_error ("invalid repository id " +:+ id))
      end
  end.
End repositories.
Definition getGitRepositoryReference (s : CatalogSource) : GitRepositoryRef :=
  match src_Ref s with
  | None => mk_git_ref "" "" ""
  | Some r => mk_git_ref (default "" (ref_SHA r)) (default "" (ref_Tag r)) (default "" (ref_Branch r))
  end.

Example fnv_known : HashValue "a" = "12638187200555641996".
Proof. by vm_compute. Qed.
