(* ===== verification/CatalogSource.v ===== *)
(** * CatalogSource: the Flux objects of one source
      ([internal/controller/catalog/source.go], [internal/flux/kustomize_builder.go])

    A source of a Catalog becomes a GitRepository, an ArtifactGenerator that copies the
    listed files into an ExternalArtifact, and a Kustomization that applies them with the
    overrides as JSON patches.  Overrides of options need the definition itself: the
    artifact is fetched through the cache ([Artifactory]) and the patch of an option holds
    the whole option.

    Calls are those on Flux objects ([FluxObjects]), on the cache and reads of Secrets.
    Parameters: JSON, URLs, the reading of manifests, the conversion to typed objects,
    [SetControllerReference], and the orders in which Go ranges over maps.  Quotation marks
    that messages get from [%q] are left out. *)
From S2P Require Import Prelude Effects Conditions Meta KubeConfig AccessWebhook Artifactory OrgAccess Lifecycle HelmRelease FluxObjects Catalog PluginDefinitions ExposedServices.
From Stdlib Require Import ZArith.
From stdpp Require pretty.

Definition LabelKeyCatalog : string := "greenhouse.sap/catalog".
Definition LabelKeyCatalogSource : string := "greenhouse.sap/catalog-source".
Definition genericAuthProvider : string := "generic".
Definition githubAppAuthProvider : string := "github".
Definition githubAppIDKey : string := "githubAppID".
Definition artifactAlias : string := "catalog".
Definition artifactCopyKey : string := "artifact".
Definition artifactToDir : string := "catalogs".
Definition gitRepoArtifactPrefix : string := "repository".
Definition generatorArtifactPrefix : string := "generator".
Definition externalArtifactPrefix : string := "artifact".
Definition kustomizeArtifactPrefix : string := "kustomize".
(** [sourcev2.ReconcileAnnotation] and its value that disables, of Flux's source-watcher *)
Definition GeneratorReconcileAnnotation : string := "source.extensions.fluxcd.io/reconcile".
Definition DisabledValue : string := "disabled".
(** [greenhousev1alpha1.GroupVersion] *)
Definition v1alpha1_Version : string := "v1alpha1".
Abbreviation GitRepositoryKind := (flux_kind_name FGitRepository).
Abbreviation ArtifactGeneratorKind := (flux_kind_name FArtifactGenerator).
Abbreviation ExternalArtifactKind := (flux_kind_name FExternalArtifact).
Abbreviation KustomizationKind := (flux_kind_name FKustomization).

(** ** Patches *)
Inductive op_value := OpString (s : string) | OpOption (o : PluginOption).
Record Operation := mk_operation { op_Op : string; op_Path : string; op_Value : op_value }.
Definition constructPatchOperations (op path : string) (value : op_value) : Operation := mk_operation op path value.
Definition kustomizeOperationTest : string := "test".
Definition kustomizeOperationReplace : string := "replace".
Definition kustomizeMetadataNamePath : string := "/metadata/name".
Definition kustomizeHelmRepoPatch : string := "/spec/helmChart/repository".
Definition option_path (index : nat) : string := "/spec/options/" +:+ pretty.pretty (Z.of_nat index).

(** ** What the code uses of its libraries *)
Class CatalogLibs := {
  (** [json.Marshal] of operations, [json.Unmarshal] of a map of manifests *)
  json_operations : list Operation -> result string;
  json_ByteMap : string -> result (gmap string string);
  catalog_HostPath : string -> result (string * string);
  loadLocalManifest : string -> result (list ResourceInfo);
  (** [scheme.Convert] to a definition *)
  convert_definition : ResourceInfo -> result PluginDefinitionSpec;
  (** [controllerutil.SetControllerReference] with a Catalog: the new owners *)
  catalog_SetControllerReference : ObjectMeta -> ObjectMeta -> result (list OwnerReference);
  manifests_order : gmap string string -> list (string * string);
  infos_order : gmap ObjectKey ResourceInfo -> list (ObjectKey * ResourceInfo);
  (** [cmp.Diff] with entries sorted by name; [utilerrors.NewAggregate] *)
  inventory_Diff : list SourceStatus -> list SourceStatus -> string;
  NewAggregate : list error -> error;
  inventory_order : inventory -> list (string * list SourceStatus);
  catalog_StoragePath : string
}.

Section patches.
Context {CLibs : CatalogLibs}.
Definition BuildJSONPatchReplace (opt : PluginOption) (index : nat) (group name : string) : result Patch :=
  raw ← json_operations
    [constructPatchOperations kustomizeOperationTest (option_path index +:+ "/name") (OpString (opt_Name opt));
     constructPatchOperations kustomizeOperationReplace (option_path index) (OpOption opt)];
  Ok (mk_patch raw (mk_selector group name)).
Definition override_operations (override : CatalogOverrides) : list Operation :=
  (if bool_decide (ov_Alias override = "") then []
   else [constructPatchOperations kustomizeOperationReplace kustomizeMetadataNamePath (OpString (ov_Alias override))]) ++
  (if bool_decide (ov_Repository override = "") then []
   else [constructPatchOperations kustomizeOperationReplace kustomizeHelmRepoPatch (OpString (ov_Repository override))]).
Fixpoint PrepareKustomizePatches (overrides : list CatalogOverrides) (group : string) : result (list Patch) :=
  match overrides with
  | [] => Ok []
  | override :: rest =>
      if bool_decide (ov_Alias override = "") && bool_decide (ov_Repository override = "") then
        PrepareKustomizePatches rest group
      else
        patched ← json_operations (override_operations override);
        patches ← PrepareKustomizePatches rest group;
        Ok (mk_patch patched (mk_selector group (ov_Name override)) :: patches)
  end.
End patches.

(** ** The specification of a Kustomization *)
Definition NewKustomizationSpecBuilder : KustomizationSpec := mk_ku_spec ("", "", "", "") [] "" "" "" None false 0.
Definition WithSourceRef (apiVersion kind name namespace : string) (k : KustomizationSpec) : KustomizationSpec :=
  mk_ku_spec (apiVersion, kind, name, namespace) (ku_Patches k) (ku_ServiceAccountName k) (ku_Path k)
    (ku_TargetNamespace k) (ku_CommonLabels k) (ku_Suspend k) (ku_Interval k).
Definition WithPatches (patches : list Patch) (k : KustomizationSpec) : KustomizationSpec :=
  if bool_decide (patches = []) then k
  else mk_ku_spec (ku_SourceRef k) patches (ku_ServiceAccountName k) (ku_Path k) (ku_TargetNamespace k)
         (ku_CommonLabels k) (ku_Suspend k) (ku_Interval k).
Definition WithServiceAccountName (name : string) (k : KustomizationSpec) : KustomizationSpec :=
  mk_ku_spec (ku_SourceRef k) (ku_Patches k) name (ku_Path k) (ku_TargetNamespace k) (ku_CommonLabels k)
    (ku_Suspend k) (ku_Interval k).
Definition WithPath (path : string) (k : KustomizationSpec) : KustomizationSpec :=
  if bool_decide (path = "") then k
  else mk_ku_spec (ku_SourceRef k) (ku_Patches k) (ku_ServiceAccountName k) path (ku_TargetNamespace k)
         (ku_CommonLabels k) (ku_Suspend k) (ku_Interval k).
Definition ku_WithTargetNamespace (namespace : string) (k : KustomizationSpec) : KustomizationSpec :=
  mk_ku_spec (ku_SourceRef k) (ku_Patches k) (ku_ServiceAccountName k) (ku_Path k) namespace (ku_CommonLabels k)
    (ku_Suspend k) (ku_Interval k).
(** A nil map sets nothing. *)
Definition WithCommonLabels (labels : option strmap) (k : KustomizationSpec) : KustomizationSpec :=
  match labels with
  | None => k
  | Some l => mk_ku_spec (ku_SourceRef k) (ku_Patches k) (ku_ServiceAccountName k) (ku_Path k) (ku_TargetNamespace k)
                (Some l) (ku_Suspend k) (ku_Interval k)
  end.
Definition ku_WithSuspend (suspend : bool) (k : KustomizationSpec) : KustomizationSpec :=
  mk_ku_spec (ku_SourceRef k) (ku_Patches k) (ku_ServiceAccountName k) (ku_Path k) (ku_TargetNamespace k)
    (ku_CommonLabels k) suspend (ku_Interval k).
Definition ku_Build (k : KustomizationSpec) : result KustomizationSpec :=
  let '(_, kind, name, _) := ku_SourceRef k in
  if bool_decide (kind = "") then Err (new_error "source reference kind is required")
  else if bool_decide (name = "") then Err (new_error "source reference name is required")
  else Ok (mk_ku_spec (ku_SourceRef k) (ku_Patches k) (ku_ServiceAccountName k) (ku_Path k) (ku_TargetNamespace k)
             (ku_CommonLabels k) (ku_Suspend k) DefaultInterval).

(** ** Calls *)
Inductive catalogE : Type -> Type :=
| CatFlux {X} (e : fluxobjE X) : catalogE X
| CatArtifact {X} (e : artifactE X) : catalogE X
| CatGetSecret (key : objkey) : catalogE (result Secret).

(** ** Sources

    The Catalog of a source is shared: only its metadata, which nothing changes, is kept
    here, and its inventory is threaded through by the controller. *)
Record source := mk_src {
  s_commonLabels : strmap; s_catalog_meta : ObjectMeta; s_source : CatalogSource; s_sourceHash : string;
  s_sourceGroup : string; s_gitRepo : SourceStatus; s_generator : SourceStatus; s_externalArtifact : SourceStatus;
  s_kustomize : SourceStatus; s_lastReconciledAt : string; s_artifactID : string }.

Section sources.
Context {CLibs : CatalogLibs} {ALibs : ArtifactLibs}.
Local Abbreviation P := (prog catalogE).
Definition flux {X} (e : fluxobjE X) : P X := trigger (CatFlux e).
Definition artifact {X} (p : prog artifactE X) : P X := translate (fun _ => CatArtifact) p.

(** The hashed text and its hash *)
Definition source_text (catalogName host owner repo ref : string) : string :=
  catalogName +:+ "-" +:+ host +:+ "-" +:+ owner +:+ "-" +:+ repo +:+ "-" +:+ ref.
Definition source_hash (catalogName : string) (src : CatalogSource) : result string :=
  '(host, owner, repo) ← GetOwnerRepoInfo catalog_HostPath (src_Repository src);
  Ok (HashValue (source_text catalogName host owner repo (GetRefValue src))).
Definition validate_source (catalogName : string) (sourceHashes : result (gset string)) (src : CatalogSource) :
    result (gset string) :=
  sourceHashes ← sourceHashes;
  hash ← source_hash catalogName src;
  if bool_decide (hash ∈ sourceHashes) then
    Err (new_error ("duplicate source found: repository " +:+ src_Repository src +:+ " with ref " +:+ GetRefValue src))
  else Ok ({[hash]} ∪ sourceHashes).
Definition validateSources (catalog : Catalog) : option error :=
  match fold_left (validate_source (GetName catalog)) (cat_Sources catalog) (Ok ∅) with
  | Err e => Some e
  | Ok _ => None
  end.

Definition unready (kind name : string) : SourceStatus := mk_source_status kind name "" "".
Definition newCatalogSource (catalogSource : CatalogSource) (catalog : Catalog) : result source :=
  '(host, owner, repo) ← GetOwnerRepoInfo catalog_HostPath (src_Repository catalogSource);
  let ref := GetRefValue catalogSource in
  let hash := HashValue (source_text (GetName catalog) host owner repo ref) in
  let hashGroup := host +:+ "-" +:+ owner +:+ "-" +:+ repo +:+ "-" +:+ ref in
  let labels : strmap :=
    <[LabelKeyCatalogSource := gitRepoArtifactPrefix +:+ "-" +:+ hash]> {[LabelKeyCatalog := GetName catalog]} in
  Ok (mk_src
    (match GetLabels catalog !! LabelKeyOwnedBy with
     | Some ownedBy => <[LabelKeyOwnedBy := ownedBy]> labels
     | None => labels
     end)
    (get_meta catalog) catalogSource hash hashGroup
    (unready GitRepositoryKind (gitRepoArtifactPrefix +:+ "-" +:+ hash))
    (unready ArtifactGeneratorKind (generatorArtifactPrefix +:+ "-" +:+ hash))
    (unready ExternalArtifactKind (externalArtifactPrefix +:+ "-" +:+ hash))
    (unready KustomizationKind (kustomizeArtifactPrefix +:+ "-" +:+ hash))
    (ReconcileAnnotationValue catalog).1
    (GetNamespace catalog +:+ "/" +:+ hashGroup +:+ "-" +:+ hash)).
Definition getSourceGroupHash (s : source) : string := s_sourceGroup s +:+ "-" +:+ s_sourceHash s.
Definition getInventory (s : source) : list SourceStatus :=
  [s_gitRepo s; s_generator s; s_externalArtifact s; s_kustomize s].
Definition getGitRepoName (s : source) : string := ss_Name (s_gitRepo s).
Definition getArtifactName (s : source) : string := ss_Name (s_externalArtifact s).
Definition getGeneratorName (s : source) : string := ss_Name (s_generator s).
Definition getKustomizationName (s : source) : string := ss_Name (s_kustomize s).
Definition setInventory (s : source) (kind name msg ready : string) (catalog : Catalog) : Catalog :=
  SetInventory (getSourceGroupHash s) kind name msg ready catalog.
Definition hasOptionOverrides (s : source) : bool :=
  contains_func (src_Overrides (s_source s)) (fun ov => (0 <? length (ov_OptionsOverride ov))%nat).
Definition s_namespace (s : source) : string := om_namespace (s_catalog_meta s).
Definition at_source (s : source) (name : string) : objkey := mk_key (s_namespace s) name.
(** An object that only has its name, as the code makes one before it reads it *)
Definition no_type : TypeMeta := mk_tm "" "" "".
Definition new_meta (k : objkey) : ObjectMeta := named (key_name k) (key_namespace k).

Definition getSourceSecret (s : source) : P (result (option Secret)) :=
  match src_SecretName (s_source s) with
  | None => mret (Ok None)
  | Some name =>
      r ← trigger (CatGetSecret (at_source s name));
      mret match r with
      | Err e => Err (wrap_error ("failed to get secret " +:+ s_namespace s +:+ "/" +:+ name +:+ ": ") e)
      | Ok secret => Ok (Some secret)
      end
  end.

(** ** The Git repository *)
Definition git_provider (secretRef : option Secret) : string :=
  match secretRef with
  | Some secret => match secret_Data secret !! githubAppIDKey with
                   | Some _ => githubAppAuthProvider
                   | None => genericAuthProvider
                   end
  | None => genericAuthProvider
  end.
Definition git_spec (s : source) (secretRef : option Secret) : GitRepositorySpec :=
  mk_git_spec (src_Repository (s_source s)) (GetInterval (s_source s))
    (Some (getGitRepositoryReference (s_source s))) (git_provider secretRef) false
    (GetName <$> secretRef).
(** [EnsureAnnotation] and [SetControllerReference] at the end of a mutate function *)
Definition owned {O} `{Object O} (s : source) (o : O) : result O :=
  owners ← catalog_SetControllerReference (s_catalog_meta s) (get_meta o);
  Ok (set_meta (with_owners owners (get_meta o)) o).
Definition new_git (k : objkey) : GitRepository :=
  mk_git no_type (new_meta k) (mk_git_spec "" 0 None "" false None) ∅.
Definition mutate_git (s : source) (spec : GitRepositorySpec) (gitRepo : GitRepository) : result GitRepository :=
  owned s (EnsureAnnotation ReconcileRequestAnnotation (s_lastReconciledAt s)
    (mk_git (git_type gitRepo) (git_meta gitRepo) spec (git_conditions gitRepo))).
Definition reconcileGitRepository (s : source) : P (option error) :=
  r ← getSourceSecret s;
  match r with
  | Err e => mret (Some e)
  | Ok secretRef =>
      flux (FxCreateOrPatch FGitRepository (new_git (at_source s (getGitRepoName s))) (mutate_git s (git_spec s secretRef)))
  end.

(** ** The artifact *)
Definition getArtifactSource (s : source) : list SourceReference :=
  [mk_source_ref artifactAlias (getGitRepoName s) (s_namespace s) GitRepositoryKind].
Definition copy_operation (res : string) : CopyOperation :=
  let res := default res (cut_prefix res "/") in
  mk_copy ("@" +:+ artifactAlias +:+ "/" +:+ res) ("@" +:+ artifactCopyKey +:+ "/" +:+ artifactToDir +:+ "/" +:+ res).
Definition getArtifacts (s : source) : list OutputArtifact :=
  if bool_decide (src_Resources (s_source s) = []) then []
  else [mk_output (getArtifactName s) (copy_operation <$> src_Resources (s_source s))].
Definition new_generator (k : objkey) : ArtifactGenerator := mk_generator no_type (new_meta k) [] [] ∅.
Definition new_external (k : objkey) : ExternalArtifact := mk_external no_type (new_meta k) None ∅.
Definition mutate_generator (s : source) (g : ArtifactGenerator) : result ArtifactGenerator :=
  let g := SetAnnotations (delete GeneratorReconcileAnnotation (GetAnnotations g)) g in
  owned s (EnsureAnnotation GeneratorReconcileAnnotation (s_lastReconciledAt s)
    (mk_generator (ag_type g) (ag_meta g) (getArtifactSource s) (getArtifacts s) (ag_conditions g))).
Definition label_artifact (s : source) (a : ExternalArtifact) : ExternalArtifact :=
  SetLabels (<[LabelKeyCatalog := default "" (s_commonLabels s !! LabelKeyCatalog)]> (GetLabels a)) a.
Definition reconcileArtifactGeneration (s : source) : P (result ExternalArtifact) :=
  if bool_decide (getArtifacts s = []) then
    mret (Err (new_error ("no resources defined in source " +:+ s_namespace s +:+ "/" +:+ getGitRepoName s +:+
                          " to generate artifact")))
  else
    err ← flux (FxCreateOrPatch FArtifactGenerator (new_generator (at_source s (getGeneratorName s))) (mutate_generator s));
    match err with
    | Some e => mret (Err e)
    | None =>
        r ← flux (FxGet FExternalArtifact (at_source s (getArtifactName s)));
        match r with
        | Err e => if is_not_found (Some e) then mret (Ok (new_external (at_source s (getArtifactName s))))
                   else mret (Err e)
        | Ok a =>
            let extArtifact := label_artifact s a in
            err ← flux (FxUpdate FExternalArtifact extArtifact);
            mret match err with Some e => Err e | None => Ok extArtifact end
        end
    end.
(** The manifests of the artifact; an artifact without one is a nil pointer. *)
Definition fetchArtifact (s : source) (extArtifact : ExternalArtifact) : P (outcome (result string)) :=
  match ea_Artifact extArtifact with
  | None => mret Panics
  | Some (URL, digest) =>
      r ← artifact (Get catalog_StoragePath (s_artifactID s) URL digest);
      match r with
      | Err e => mret (Returns (Err e))
      | Ok manifestBytes =>
          err ← artifact (Save catalog_StoragePath (s_artifactID s) digest manifestBytes);
          match err with
          | Some e => mret (Returns (Err e))
          | None =>
              err ← artifact (DeleteAllExcept catalog_StoragePath (s_artifactID s) digest);
              mret (Returns match err with Some e => Err e | None => Ok manifestBytes end)
          end
      end
  end.

(** ** Overrides *)
Definition definition_filters (name : string) : list ManifestObjectFilter :=
  [mk_filter v1alpha1_Version PluginDefinitionKind name None;
   mk_filter v1alpha1_Version ClusterPluginDefinitionKind name None].
Definition as_definition (o : ObjectKey * ResourceInfo) : option PluginDefinitionSpec :=
  if bool_decide (info_Kind o.2 = PluginDefinitionKind) || bool_decide (info_Kind o.2 = ClusterPluginDefinitionKind) then
    match convert_definition o.2 with Ok spec => Some spec | Err _ => None end
  else None.
Definition findPluginDefinition (manifestBytes name : string) : result (option PluginDefinitionSpec) :=
  manifestMap ← json_ByteMap manifestBytes;
  let combinedManifests :=
    join "" ((fun m : string * string => m.2 +:+ byte_str [10] +:+ "---" +:+ byte_str [10]) <$> manifests_order manifestMap) in
  objectMaps ← ObjectMapFromLocalManifest loadLocalManifest (MatchesAny (definition_filters name)) combinedManifests;
  Ok (first_some as_definition (infos_order objectMaps)).
(** The first option with a property and its index *)
Definition indexed {A} (l : list A) (f : A -> bool) : option (nat * A) :=
  idx ← index_func l f;
  a ← l !! idx;
  Some (idx, a).
Definition set_default (value : option string) (o : PluginOption) : PluginOption :=
  mk_option (opt_Name o) value (opt_Description o +:+ " (overridden by Catalog)") (opt_DisplayName o) (opt_Required o)
    (opt_Type o) (opt_Regex o).
(** One override: the option is changed in place, and patched as a whole. *)
Fixpoint option_patches (namespace pluginDefinitionName : string) (options : list PluginOption)
    (overrides : list OptionsOverride) : result (list Patch) :=
  match overrides with
  | [] => Ok []
  | ov :: rest =>
      match indexed options (fun o => bool_decide (opt_Name o = oo_Name ov)) with
      | None => Err (new_error ("failed to find plugin option override " +:+ oo_Name ov +:+ " in plugin definition " +:+
                                namespace +:+ "/" +:+ pluginDefinitionName))
      | Some (idx, o) =>
          let o := set_default (oo_Value ov) o in
          p ← BuildJSONPatchReplace o idx GroupName pluginDefinitionName;
          patches ← option_patches namespace pluginDefinitionName (<[idx := o]> options) rest;
          Ok (p :: patches)
      end
  end.
Definition getOptionOverridePatches (s : source) (manifest : string) (optionOverrides : list OptionsOverride)
    (pluginDefinitionName : string) : result (list Patch) :=
  spec ← findPluginDefinition manifest pluginDefinitionName;
  match spec with
  | None => Ok []
  | Some spec => option_patches (s_namespace s) pluginDefinitionName (pd_Options spec) optionOverrides
  end.
Fixpoint override_patches (s : source) (manifest : string) (overrides : list CatalogOverrides) (patches : list Patch) :
    result (list Patch) :=
  match overrides with
  | [] => Ok patches
  | override :: rest =>
      if bool_decide (ov_OptionsOverride override = []) then override_patches s manifest rest patches
      else
        optionPatches ← getOptionOverridePatches s manifest (ov_OptionsOverride override) (ov_Name override);
        override_patches s manifest rest (patches ++ optionPatches)
  end.

(** ** The Kustomization *)
Definition new_kustomization (k : objkey) : Kustomization :=
  mk_ku no_type (new_meta k) NewKustomizationSpecBuilder ∅.
Definition kustomization_builder (s : source) (extArtifact : ExternalArtifact) (patches : list Patch) : KustomizationSpec :=
  let ggvk := ea_type extArtifact in
  ku_WithSuspend false
    (WithPath artifactToDir
    (ku_WithTargetNamespace (s_namespace s)
    (WithPatches patches
    (WithServiceAccountName (OrgCatalogServiceAccountName (s_namespace s))
    (WithCommonLabels (Some (s_commonLabels s))
    (WithSourceRef (gvk_String ggvk) (tm_Kind ggvk) (GetName extArtifact) (GetNamespace extArtifact)
       NewKustomizationSpecBuilder)))))).
Definition mutate_kustomization (s : source) (builder : KustomizationSpec) (k : Kustomization) : result Kustomization :=
  spec ← ku_Build builder;
  owned s (EnsureAnnotation ReconcileRequestAnnotation (s_lastReconciledAt s)
    (mk_ku (ku_type k) (ku_meta k) spec (ku_conditions k))).
Definition kustomization_patches (s : source) (manifest : string) : result (list Patch * list Patch) :=
  patches ← (if bool_decide (src_Overrides (s_source s) = []) then Ok []
             else PrepareKustomizePatches (src_Overrides (s_source s)) GroupName);
  all ← override_patches s manifest (src_Overrides (s_source s)) patches;
  Ok (patches, all).
Definition reconcileKustomization (s : source) (extArtifact : ExternalArtifact) : P (outcome (option error)) :=
  fetched ← (if hasOptionOverrides s then fetchArtifact s extArtifact else mret (Returns (Ok "")));
  match fetched with
  | Panics => mret Panics
  | Returns (Err e) => mret (Returns (Some e))
  | Returns (Ok manifest) =>
      match kustomization_patches s manifest with
      | Err e => mret (Returns (Some e))
      | Ok (patches, all) =>
          let builder := WithPatches all (kustomization_builder s extArtifact patches) in
          err ← flux (FxCreateOrPatch FKustomization (new_kustomization (at_source s (getKustomizationName s)))
                        (mutate_kustomization s builder));
          mret (Returns err)
      end
  end.

(** ** Readiness *)
Definition objectReadiness (k : fluxKind) (key : objkey) : P (string * string * option (flux_object k)) :=
  r ← flux (FxGet k key);
  mret match r with
  | Err e => (ConditionFalse, err_msg e, None)
  | Ok obj =>
      match conditions_of k obj !! fluxReadyCondition with
      | None => (ConditionFalse, tm_Kind (type_of k obj) +:+ " not ready yet", Some obj)
      | Some readyCondition => (mc_Status readyCondition, mc_Message readyCondition, Some obj)
      end
  end.
End sources.
