(* ===== verification/CatalogController.v ===== *)
(** * CatalogController: the reconciler of Catalogs
      ([internal/controller/catalog/catalog_controller.go])

    A pass cleans the inventory of what the specification no longer lists, brings the Flux
    objects of every source up to date, reads them back into the inventory and reports
    whether all of them are ready.  The inventory is a Go map of slices: the clean-up ranges
    over a slice whose array its own [slices.DeleteFunc] compacts, so the loop reads the
    array, which is modelled next to the slice. *)
From S2P Require Import Prelude Effects Conditions Meta Lifecycle HelmRelease FluxObjects Artifactory Catalog CatalogSource.
From Stdlib Require Import ZArith.

Definition SourceKind : string := "CatalogSource".
Record catalogError := mk_catalog_error { ce_InventoryType : string; ce_Name : string; ce_Error : error }.

(** ** The array behind a slice of entries *)
Definition zero_entry : SourceStatus := mk_source_status "" "" "" "".
(** The array after the slice [old] at its start became [new] by [slices.DeleteFunc] *)
Definition entries_array (old new arr : list SourceStatus) : list SourceStatus :=
  new ++ replicate (length old - length new) zero_entry ++ drop (length old) arr.
(** A slice and the array it is the start of *)
Definition slice_array : Type := list SourceStatus * list SourceStatus.
Definition remove_entry (inv : SourceStatus) (st : slice_array) : slice_array :=
  let new := delete_func (is_entry (ss_Kind inv) (ss_Name inv)) st.1 in
  (new, entries_array st.1 new st.2).

Section controller.
Variable now : Z.
Context {CLibs : CatalogLibs} {ALibs : ArtifactLibs}.
Local Abbreviation P := (prog catalogE).
Definition callback_answer : Type := Catalog * (ctrl_result * ReconcileResult * option error).

(** ** Clean-up *)
Definition deleteOrphanedResource (k : fluxKind) (kind namespace name : string) : P (option error) :=
  let what := kind +:+ " - " +:+ namespace +:+ "/" +:+ name +:+ ": " in
  r ← flux (FxGet k (mk_key namespace name));
  match r with
  | Err e => if is_not_found (Some e) then mret None
             else mret (Some (wrap_error ("failed to get orphaned resource " +:+ what) e))
  | Ok _ =>
      err ← flux (FxDelete k (mk_key namespace name));
      mret match err with
           | Some e => Some (wrap_error ("failed to delete orphaned resource " +:+ what) e)
           | None => None
           end
  end.
(** What the clean-up does with an entry by its kind *)
Inductive clean_action := CleanDelete (k : fluxKind) | CleanForget | CleanSkip.
Definition clean_action_of (kind : string) : clean_action :=
  if bool_decide (kind = GitRepositoryKind) then CleanDelete FGitRepository
  else if bool_decide (kind = ArtifactGeneratorKind) then CleanDelete FArtifactGenerator
  else if bool_decide (kind = ExternalArtifactKind) then CleanForget
  else if bool_decide (kind = KustomizationKind) then CleanDelete FKustomization
  else CleanSkip.
Definition is_desired (desiredList : list SourceStatus) (inv : SourceStatus) : bool :=
  existsb (is_entry (ss_Kind inv) (ss_Name inv)) desiredList.
(** The entry the loop reads at index [i], of an array at least that long *)
Definition clean_entry (namespace : string) (desiredList : list SourceStatus) (st : slice_array) (i : nat) :
    P (slice_array + list SourceStatus * error) :=
  let inv := default zero_entry (st.2 !! i) in
  if is_desired desiredList inv then mret (inl st)
  else
    match clean_action_of (ss_Kind inv) with
    | CleanSkip => mret (inl st)
    | CleanForget => mret (inl (remove_entry inv st))
    | CleanDelete k =>
        err ← deleteOrphanedResource k (ss_Kind inv) namespace (ss_Name inv);
        mret match err with
             | Some e => inr (st.1, wrap_error ("failed to delete " +:+ ss_Kind inv +:+ " - " +:+ namespace +:+ "/" +:+
                                                ss_Name inv +:+ ": ") e)
             | None => inl (remove_entry inv st)
             end
    end.
Definition clean_list (namespace : string) (desiredList invList : list SourceStatus) :
    P (slice_array + list SourceStatus * error) :=
  if bool_decide (inventory_Diff invList desiredList = "") then mret (inl (invList, invList))
  else foreach (seq 0 (length invList)) (clean_entry namespace desiredList) (invList, invList).
Definition set_list (hash : string) (l : list SourceStatus) (inv : inventory) : inventory :=
  if bool_decide (l = []) then delete hash inv else <[hash := l]> inv.
Definition clean_hash (namespace : string) (desired : inventory) (inv : inventory) (e : string * list SourceStatus) :
    P (inventory + inventory * error) :=
  let '(hash, invList) := e in
  r ← clean_list namespace (default [] (desired !! hash)) invList;
  mret match r with
       | inl (l, _) => inl (set_list hash l inv)
       | inr (l, err) => inr (<[hash := l]> inv, err)
       end.
Definition add_desired (catalog : Catalog) (desired : result inventory) (src : CatalogSource) : result inventory :=
  desired ← desired;
  s ← newCatalogSource src catalog;
  Ok (<[getSourceGroupHash s := getInventory s]> desired).
Definition desired_inventory (catalog : Catalog) : result inventory :=
  fold_left (add_desired catalog) (cat_Sources catalog) (Ok ∅).
Definition checkAndCleanInventory (catalog : Catalog) : P (Catalog * option error) :=
  let statusInventory := cat_Inventory (cat_Status catalog) in
  if bool_decide (statusInventory = ∅) then mret (catalog, None)
  else
    match desired_inventory catalog with
    | Err e => mret (catalog, Some e)
    | Ok desired =>
        r ← foreach (inventory_order statusInventory) (clean_hash (GetNamespace catalog) desired) statusInventory;
        mret match r with
             | inl inv => (cat_set_inventory inv catalog, None)
             | inr (inv, e) => (cat_set_inventory inv catalog, Some e)
             end
    end.

(** ** Status *)
Definition formatCatalogErrors (allErrors : list catalogError) : option error :=
  if bool_decide (length allErrors = 0%nat) then None
  else Some (NewAggregate ((fun e => wrap_error (ce_InventoryType e +:+ "/" +:+ ce_Name e +:+ ": ") (ce_Error e)) <$> allErrors)).
Definition observe (s : source) (k : fluxKind) (name : string) (catalog : Catalog) : P (Catalog * string) :=
  '(ready, msg, _) ← objectReadiness k (mk_key (GetNamespace catalog) name);
  mret (setInventory s (flux_kind_name k) name msg ready catalog, ready).
Definition source_error (src : CatalogSource) (e : error) : catalogError :=
  mk_catalog_error SourceKind (src_Repository src +:+ "-" +:+ GetRefValue src) e.
(** [verifyStatus] threads the Catalog, the statuses read and the errors. *)
Definition verify_state : Type := Catalog * list string * list catalogError.
Definition verify_source (st : verify_state) (src : CatalogSource) : P (verify_state + Empty_set) :=
  let '(catalog, allInventoryReady, allErrors) := st in
  match newCatalogSource src catalog with
  | Err e => mret (inl (catalog, allInventoryReady, allErrors ++ [source_error src e]))
  | Ok s =>
      '(catalog, r1) ← observe s FGitRepository (getGitRepoName s) catalog;
      '(catalog, r2) ← observe s FArtifactGenerator (getGeneratorName s) catalog;
      '(catalog, r3) ← observe s FExternalArtifact (getArtifactName s) catalog;
      '(catalog, r4) ← observe s FKustomization (getKustomizationName s) catalog;
      mret (inl (catalog, allInventoryReady ++ [r1; r2; r3; r4], allErrors))
  end.
(** The reasons after which a failed pass is reported again *)
Definition lasting_failure (reason : string) : option error :=
  if bool_decide (reason = CatalogSourceValidationFail) then Some (new_error "catalog source validation failed")
  else if bool_decide (reason = OrphanedObjectCleanUpFail) then Some (new_error "orphaned object cleanup failed")
  else if bool_decide (reason = CatalogEmptySources) then Some (new_error "no sources specified for catalog")
  else None.
Definition existing_failure (catalog : Catalog) : option error :=
  match GetConditionByType (GetConditions catalog) ReadyCondition with
  | Some c => if IsFalse c then lasting_failure (CondReason c) else None
  | None => None
  end.
Definition report (catalog : Catalog) (allInventoryReady : list string) (allErrors : list catalogError) : callback_answer :=
  let notReady := contains_func allInventoryReady (fun status => negb (bool_decide (status = ConditionTrue))) in
  let aggErr := formatCatalogErrors allErrors in
  if bool_decide (aggErr <> None) || notReady then
    let errMsg := "not all catalog objects are ready" +:+
                  match aggErr with Some e => ": " +:+ err_msg e | None => "" end in
    (cat_SetFalseCondition now ReadyCondition CatalogNotReadyReason errMsg catalog, (ctrl_done, Failed, aggErr))
  else
    (cat_SetTrueCondition now ReadyCondition CatalogReadyReason "all catalog objects are ready" catalog,
     (ctrl_done, Success, None)).
Definition verifyStatus (catalog : Catalog) (allErrors : list catalogError) : P callback_answer :=
  match existing_failure catalog with
  | Some err => mret (catalog, (ctrl_done, Failed, Some err))
  | None =>
      r ← foreach (cat_Sources catalog) verify_source (catalog, [], allErrors);
      match r with
      | inl (catalog, allInventoryReady, allErrors) => mret (report catalog allInventoryReady allErrors)
      | inr e => match (e : Empty_set) with end
      end
  end.

(** ** Creation *)
Definition create_state : Type := Catalog * list catalogError.
(** The objects of one source; [inr] is a panic. *)
Definition reconcile_source (st : create_state) (src : CatalogSource) : P (create_state + unit) :=
  let '(catalog, allErrors) := st in
  let failed kind name e := inl (catalog, allErrors ++ [mk_catalog_error kind name e]) in
  match newCatalogSource src catalog with
  | Err e => mret (inl (catalog, allErrors ++ [source_error src e]))
  | Ok sourcer =>
      err ← reconcileGitRepository sourcer;
      match err with
      | Some e =>
          mret (inl (setInventory sourcer GitRepositoryKind (getGitRepoName sourcer) (err_msg e) ConditionFalse catalog,
                     allErrors ++ [mk_catalog_error GitRepositoryKind (getGitRepoName sourcer) e]))
      | None =>
          r ← reconcileArtifactGeneration sourcer;
          match r with
          | Err e => mret (failed ArtifactGeneratorKind (getGeneratorName sourcer) e)
          | Ok externalArtifact =>
              if bool_decide (om_uid (get_meta externalArtifact) = "") then
                mret (failed ExternalArtifactKind (getArtifactName sourcer) (new_error "ExternalArtifact not found yet"))
              else
                '(ready, msg, obj) ← objectReadiness FExternalArtifact (key_of externalArtifact);
                if negb (bool_decide (ready = ConditionTrue)) then
                  mret (failed ExternalArtifactKind (getArtifactName sourcer) (new_error msg))
                else
                  r ← reconcileKustomization sourcer (default externalArtifact obj);
                  mret match r with
                       | Panics => inr tt
                       | Returns (Some e) => failed KustomizationKind (getKustomizationName sourcer) e
                       | Returns None => inl (catalog, allErrors)
                       end
          end
      end
  end.
Definition catalog_EnsureCreated (catalog : Catalog) : P (outcome callback_answer) :=
  let catalog := cat_SetUnknownCondition now catalog in
  if bool_decide (cat_Sources catalog = []) then
    '(catalog, err) ← checkAndCleanInventory catalog;
    let msg := "no sources specified for catalog, skipping reconciliation" +:+
               match err with Some e => ": " +:+ err_msg e | None => "" end in
    mret (Returns (cat_SetFalseCondition now ReadyCondition CatalogEmptySources msg catalog, (ctrl_done, Pending, None)))
  else
    match validateSources catalog with
    | Some err =>
        mret (Returns (cat_SetFalseCondition now ReadyCondition CatalogSourceValidationFail (err_msg err) catalog,
                       (ctrl_done, Failed, Some err)))
    | None =>
        '(catalog, err) ← checkAndCleanInventory catalog;
        match err with
        | Some e =>
            mret (Returns (cat_SetFalseCondition now ReadyCondition OrphanedObjectCleanUpFail (err_msg e) catalog,
                           (ctrl_done, Failed, Some e)))
        | None =>
            let catalog := cat_SetProgressingReason now catalog in
            r ← foreach (cat_Sources catalog) reconcile_source (catalog, []);
            match r with
            | inr _ => mret Panics
            | inl (catalog, allErrors) => answer ← verifyStatus catalog allErrors; mret (Returns answer)
            end
        end
    end.

(** ** Deletion and suspension *)
Definition catalog_EnsureDeleted (catalog : Catalog) : P callback_answer :=
  mret (catalog, (ctrl_done, Success, None)).
Definition suspend_object (k : fluxKind) (suspend : flux_object k -> flux_object k) (name namespace : string) : P (option error) :=
  r ← flux (FxGet k (mk_key namespace name));
  match r with
  | Err e => if is_not_found (Some e) then mret None else mret (Some e)
  | Ok o => flux (FxCreateOrUpdate k o (fun o => Ok (suspend o)))
  end.
Definition suspended_git (o : GitRepository) : GitRepository :=
  let s := git_Spec o in
  mk_git (git_type o) (git_meta o)
    (mk_git_spec (git_URL s) (git_Interval s) (git_Reference s) (git_Provider s) true (git_SecretRef s)) (git_conditions o).
Definition suspended_kustomization (o : Kustomization) : Kustomization :=
  mk_ku (ku_type o) (ku_meta o) (ku_WithSuspend true (ku_Spec o)) (ku_conditions o).
Definition suspended_generator (o : ArtifactGenerator) : ArtifactGenerator :=
  SetAnnotations (<[GeneratorReconcileAnnotation := DisabledValue]> (GetAnnotations o)) o.
Definition suspendGitRepository (name namespace : string) : P (option error) :=
  suspend_object FGitRepository suspended_git name namespace.
Definition suspendKustomization (name namespace : string) : P (option error) :=
  suspend_object FKustomization suspended_kustomization name namespace.
Definition suspendArtifactGenerator (name namespace : string) : P (option error) :=
  suspend_object FArtifactGenerator suspended_generator name namespace.
Definition suspend_entry (namespace : string) (allErrors : list error) (inv : SourceStatus) : P (list error + Empty_set) :=
  err ← (if bool_decide (ss_Kind inv = GitRepositoryKind) then suspendGitRepository (ss_Name inv) namespace
         else if bool_decide (ss_Kind inv = KustomizationKind) then suspendKustomization (ss_Name inv) namespace
         else if bool_decide (ss_Kind inv = ArtifactGeneratorKind) then suspendArtifactGenerator (ss_Name inv) namespace
         else if bool_decide (ss_Kind inv = ExternalArtifactKind) then mret None
         else mret (Some (new_error ("unsupported kind for suspension: " +:+ ss_Kind inv))));
  mret (inl (match err with Some e => allErrors ++ [e] | None => allErrors end)).
Definition catalog_EnsureSuspended (catalog : Catalog) : P (Catalog * (ctrl_result * option error)) :=
  let entries := inventory_order (cat_Inventory (cat_Status catalog)) ≫= snd in
  r ← foreach entries (suspend_entry (GetNamespace catalog)) [];
  match r with
  | inr e => match (e : Empty_set) with end
  | inl [] => mret (catalog, (ctrl_done, None))
  | inl allErrors => mret (catalog, (ctrl_done, Some (new_error (join "; " (err_msg <$> allErrors)))))
  end.
End controller.
