(* ===== verification/CatalogSafety.v ===== *)
(** * CatalogSafety: what a pass over a Catalog does

    The environment is the store of Flux objects ([FluxObjects.flux_step]): any call may
    fail, and what is written may come back with other fields filled in.  Secrets are read
    from a fixed store and the cache may answer anything. *)
From S2P Require Import Prelude Effects Conditions Meta KubeConfig Artifactory OrgAccess Lifecycle HelmRelease FluxObjects Catalog PluginDefinitions CatalogSource CatalogController.
From Stdlib Require Import ZArith.

(** ** Names *)
Definition catalog_kinds : list fluxKind := [FGitRepository; FArtifactGenerator; FExternalArtifact; FKustomization].
Ltac a_kind := unfold catalog_kinds; rewrite !elem_of_cons; naive_solver.
Definition object_name (s : source) (k : fluxKind) : string :=
  match k with
  | FGitRepository => getGitRepoName s
  | FArtifactGenerator => getGeneratorName s
  | FExternalArtifact => getArtifactName s
  | FKustomization => getKustomizationName s
  | _ => ""
  end.
Definition object_key (s : source) (k : fluxKind) : objkey := at_source s (object_name s k).
Definition cells (s : source) : list (fluxKind * objkey) := (fun k => (k, object_key s k)) <$> catalog_kinds.
Definition kind_prefix (k : fluxKind) : string :=
  match k with
  | FGitRepository => gitRepoArtifactPrefix
  | FArtifactGenerator => generatorArtifactPrefix
  | FExternalArtifact => externalArtifactPrefix
  | _ => kustomizeArtifactPrefix
  end.

Section sources.
Context {CLibs : CatalogLibs} {ALibs : ArtifactLibs}.

Lemma newCatalogSource_meta src c c' : get_meta c = get_meta c' -> newCatalogSource src c = newCatalogSource src c'.
Proof.
  intros H. unfold newCatalogSource, GetName, GetNamespace, GetLabels, ReconcileAnnotationValue, GetAnnotations.
  by rewrite H.
Qed.
Lemma newCatalogSource_facts src c s : newCatalogSource src c = Ok s ->
  source_hash (GetName c) src = Ok (s_sourceHash s) /\ s_source s = src /\ s_catalog_meta s = get_meta c /\
  s_commonLabels s !! LabelKeyCatalog = Some (GetName c) /\
  forall k, k ∈ catalog_kinds -> object_name s k = kind_prefix k +:+ "-" +:+ s_sourceHash s.
Proof.
  unfold newCatalogSource, source_hash. destruct (GetOwnerRepoInfo _ _) as [[[h o] r]|e]; [|done]. intros [= <-].
  split; [done|]. split; [done|]. split; [done|]. split.
  { cbn. destruct (_ !! LabelKeyOwnedBy); [rewrite lookup_insert_ne by done|]; rewrite lookup_insert_ne by done;
      apply lookup_insert_eq. }
  intros k Hk. unfold catalog_kinds in Hk.
  repeat (apply elem_of_cons in Hk as [->|Hk]; [done|]). by apply elem_of_nil in Hk.
Qed.
Lemma elem_of_cells s k key : (k, key) ∈ cells s <-> k ∈ catalog_kinds /\ key = object_key s k.
Proof.
  unfold cells. rewrite list_elem_of_fmap. split.
  - intros (k' & [= -> ->] & Hk). done.
  - intros [Hk ->]. eauto.
Qed.
Lemma cells_disjoint c src src' s s' x :
  newCatalogSource src c = Ok s -> newCatalogSource src' c = Ok s' ->
  s_sourceHash s <> s_sourceHash s' -> x ∈ cells s -> x ∈ cells s' -> False.
Proof.
  intros (_ & _ & _ & _ & Hn)%newCatalogSource_facts (_ & _ & _ & _ & Hn')%newCatalogSource_facts Hne. destruct x as [k key].
  intros [Hk ->]%elem_of_cells [_ Heq]%elem_of_cells. apply Hne. unfold object_key, at_source in Heq.
  injection Heq as _ Hname. rewrite Hn, Hn' in Hname by done. by do 2 apply append_inj_l in Hname.
Qed.

(** ** Validation *)
Lemma validate_fold_err name l e : fold_left (validate_source name) l (Err e) = Err e.
Proof. by induction l. Qed.
Lemma validate_fold name l seen :
  match fold_left (validate_source name) l (Ok seen) with
  | Ok _ => exists hashes, Forall2 (fun src h => source_hash name src = Ok h) l hashes /\ NoDup hashes /\
              forall h, h ∈ hashes -> h ∉ seen
  | Err _ => (exists src e, src ∈ l /\ source_hash name src = Err e) \/
      (exists src h, src ∈ l /\ source_hash name src = Ok h /\ h ∈ seen) \/
      (exists i j src src' h, i < j /\ l !! i = Some src /\ l !! j = Some src' /\
         source_hash name src = Ok h /\ source_hash name src' = Ok h)
  end.
Proof.
  revert seen. induction l as [|src l IH]; intros seen; cbn.
  { exists []. split; [constructor|]. split; [constructor|]. intros h Hh. by apply elem_of_nil in Hh. }
  destruct (source_hash name src) as [h|e] eqn:Hh; cbn.
  - case_bool_decide as Hs.
    + rewrite validate_fold_err. right. left. exists src, h. set_solver.
    + specialize (IH ({[h]} ∪ seen)). destruct (fold_left _ _ _) as [seen'|e].
      * destruct IH as (hs & Hf & Hnd & Hns). exists (h :: hs). split; [by constructor|].
        split; [constructor; [|done]; intros Hin; apply (Hns _ Hin); set_solver|].
        intros h' [->|Hin]%elem_of_cons; [done|]. specialize (Hns _ Hin). set_solver.
      * destruct IH as [(s & e' & Hin & He)|[(s & h' & Hin & Hh' & Hseen)|(i & j & s & s' & h' & Hij & Hi & Hj & H)]].
        -- left. exists s, e'. set_solver.
        -- apply elem_of_union in Hseen as [->%elem_of_singleton|Hseen].
           ++ apply list_elem_of_lookup in Hin as [j Hj]. right. right. exists 0, (S j), src, s, h. repeat split; try done. lia.
           ++ right. left. exists s, h'. set_solver.
        -- right. right. exists (S i), (S j), s, s', h'. repeat split; try done || lia; by destruct H.
  - rewrite validate_fold_err. left. exists src, e. set_solver.
Qed.
End sources.

(** ** The inventory *)
Definition entry_in (c : Catalog) (hash kind name : string) : option SourceStatus :=
  List.find (is_entry kind name) (default [] (cat_Inventory (cat_Status c) !! hash)).
Lemma is_entry_true kind name e : is_entry kind name e = true <-> ss_Kind e = kind /\ ss_Name e = name.
Proof. unfold is_entry. by rewrite andb_true_iff, !bool_decide_eq_true. Qed.
Lemma find_set_entry kind name msg ready l kind' name' :
  List.find (is_entry kind' name')
    (match index_func l (is_entry kind name) with
     | None => l ++ [mk_source_status kind name ready msg]
     | Some idx => alter (fun s => mk_source_status (ss_Kind s) (ss_Name s) ready msg) idx l
     end) =
  if bool_decide (kind' = kind /\ name' = name) then Some (mk_source_status kind name ready msg)
  else List.find (is_entry kind' name') l.
Proof.
  induction l as [|e l IH]; cbn [index_func app List.find].
  { case_bool_decide as Hd; unfold is_entry; cbn; [destruct Hd as [-> ->]; by rewrite !bool_decide_eq_true_2|].
    destruct (bool_decide (kind = kind')) eqn:H1, (bool_decide (name = name')) eqn:H2; try done.
    apply bool_decide_eq_true in H1, H2. naive_solver. }
  destruct (is_entry kind name e) eqn:He.
  - apply is_entry_true in He as [Hk Hn]. cbn. destruct e as [ek en er em]; cbn in *; subst ek en.
    unfold is_entry; cbn. case_bool_decide as Hd.
    + destruct Hd as [-> ->]. by rewrite !bool_decide_eq_true_2.
    + destruct (bool_decide (kind = kind')) eqn:H1, (bool_decide (name = name')) eqn:H2; try done.
      apply bool_decide_eq_true in H1, H2. naive_solver.
  - destruct (index_func l (is_entry kind name)) as [idx|]; cbn in *.
    + rewrite IH. case_bool_decide as Hd; [|by destruct (is_entry kind' name' e)]. destruct Hd as [-> ->]. by rewrite He.
    + rewrite IH. case_bool_decide as Hd; [|by destruct (is_entry kind' name' e)]. destruct Hd as [-> ->]. by rewrite He.
Qed.
Lemma entry_SetInventory hash kind name msg ready c hash' kind' name' :
  entry_in (SetInventory hash kind name msg ready c) hash' kind' name' =
  if bool_decide (hash' = hash /\ kind' = kind /\ name' = name) then Some (mk_source_status kind name ready msg)
  else entry_in c hash' kind' name'.
Proof.
  unfold entry_in, SetInventory. cbn. destruct (decide (hash' = hash)) as [->|Hh].
  - rewrite lookup_insert_eq. cbn. rewrite find_set_entry. repeat case_bool_decide; naive_solver.
  - rewrite lookup_insert_ne by done. by rewrite bool_decide_eq_false_2 by naive_solver.
Qed.

(** ** The environment *)
Section environment.
Context {CLibs : CatalogLibs} {ALibs : ArtifactLibs}.
Variable secrets : gmap objkey Secret.
Definition catalog_step (w : flux_world) X (e : catalogE X) : X -> flux_world -> Prop :=
  match e in catalogE X return X -> flux_world -> Prop with
  | CatFlux e => flux_step w _ e
  | CatArtifact _ => fun _ w' => w' = w
  | CatGetSecret k => fun r w' => w' = w /\ match r with Ok secret => secrets !! k = Some secret | Err _ => True end
  end.
Local Abbreviation wpc := (wp catalog_step).

Lemma wp_artifact {A} (p : prog artifactE A) Q w : (forall a, Q w a) -> wpc (artifact p) Q w.
Proof.
  intros HQ. apply wp_translate. eapply wp_mono; [|apply (wp_inv _ p (fun w' => w' = w))].
  - intros w' a ->. apply HQ.
  - intros w1 X e x w2 -> H. exact H.
  - done.
Qed.
Lemma catalog_flux_step w X (e : fluxobjE X) x w' : catalog_step w X (CatFlux e) x w' -> flux_step w X e x w'.
Proof. done. Qed.
Lemma wp_upsert k key o mutate Q w :
  key_of o = key -> (forall e, Q w (Some e)) ->
  (forall m o', mutate (default o (lookup_flux k key w)) = Ok m -> key_of m = key -> accepted k m o' ->
     Q (insert_flux k key o' w) None) ->
  wpc (flux (FxCreateOrPatch k o mutate)) Q w.
Proof. apply (wp_flux_upsert _ (fun _ => CatFlux) catalog_flux_step false). Qed.
Lemma catalog_wp_update k key o Q w :
  key_of o = key -> (forall e, Q w (Some e)) ->
  (forall o', is_Some (lookup_flux k key w) -> accepted k o o' -> Q (insert_flux k key o' w) None) ->
  wpc (flux (FxUpdate k o)) Q w.
Proof. apply (wp_flux_update _ (fun _ => CatFlux) catalog_flux_step). Qed.
Lemma wp_get k key Q w :
  (forall o, lookup_flux k key w = Some o -> key_of o = key -> Q w (Ok o)) ->
  (forall e, (is_not_found (Some e) = true -> lookup_flux k key w = None) -> Q w (Err e)) -> wpc (flux (FxGet k key)) Q w.
Proof. apply (wp_flux_get _ (fun _ => CatFlux) catalog_flux_step). Qed.

(** ** What a reconciled source leaves in the store *)
Definition source_secret (s : source) (secretRef : option Secret) : Prop :=
  match src_SecretName (s_source s) with
  | None => secretRef = None
  | Some name => exists secret, secretRef = Some secret /\ secrets !! at_source s name = Some secret
  end.
(** The Catalog is the controller, and the last requested reconciliation is handed on. *)
Definition controlled {O} `{Object O} (s : source) (annotation : string) (o : O) : Prop :=
  (exists old, catalog_SetControllerReference (s_catalog_meta s) old = Ok (om_owners (get_meta o))) /\
  GetAnnotations o !! annotation = (if bool_decide (s_lastReconciledAt s = "") then None else Some (s_lastReconciledAt s)).
Definition expected_kustomization (s : source) (t : TypeMeta) (patches : list Patch) : KustomizationSpec :=
  mk_ku_spec (gvk_String t, tm_Kind t, getArtifactName s, s_namespace s) patches
    (OrgCatalogServiceAccountName (s_namespace s)) artifactToDir (s_namespace s) (Some (s_commonLabels s)) false DefaultInterval.
Definition provided_git (s : source) (w : flux_world) : Prop :=
  exists secretRef g, source_secret s secretRef /\ lookup_flux FGitRepository (object_key s FGitRepository) w = Some g /\
    git_Spec g = git_spec s secretRef /\ controlled s ReconcileRequestAnnotation g.
Definition provided_generator (s : source) (w : flux_world) : Prop :=
  exists g, lookup_flux FArtifactGenerator (object_key s FArtifactGenerator) w = Some g /\
    ag_Sources g = getArtifactSource s /\ ag_OutputArtifacts g = getArtifacts s /\ getArtifacts s <> [] /\
    controlled s GeneratorReconcileAnnotation g.
Definition provided_kustomization (s : source) (w : flux_world) : Prop :=
  exists a k manifest patches all,
    lookup_flux FExternalArtifact (object_key s FExternalArtifact) w = Some a /\
    GetLabels a !! LabelKeyCatalog = s_commonLabels s !! LabelKeyCatalog /\
    lookup_flux FKustomization (object_key s FKustomization) w = Some k /\
    kustomization_patches s manifest = Ok (patches, all) /\
    ku_Spec k = expected_kustomization s (ea_type a) all /\ controlled s ReconcileRequestAnnotation k.
Definition provided (s : source) (w : flux_world) : Prop :=
  provided_git s w /\ provided_generator s w /\ provided_kustomization s w.
Lemma catalog_provided_frame s w w' :
  (forall k, k ∈ catalog_kinds -> lookup_flux k (object_key s k) w' = lookup_flux k (object_key s k) w) ->
  provided s w -> provided s w'.
Proof.
  intros Hf. pose proof (Hf FGitRepository ltac:(a_kind)) as H1. pose proof (Hf FArtifactGenerator ltac:(a_kind)) as H2.
  pose proof (Hf FExternalArtifact ltac:(a_kind)) as H3. pose proof (Hf FKustomization ltac:(a_kind)) as H4.
  intros ((r & g & Ha) & (g' & Hb) & (a & k & m & p & all & Hc)). split; [|split].
  - exists r, g. by rewrite H1.
  - exists g'. by rewrite H2.
  - exists a, k, m, p, all. by rewrite H3, H4.
Qed.

(** ** The operations *)
Lemma catalog_EnsureAnnotation_get {O} `{Object O, !ObjectLaws O} key value (o : O) :
  GetAnnotations (EnsureAnnotation key value o) !! key = (if bool_decide (value = "") then None else Some value) /\
  key_of (EnsureAnnotation key value o) = key_of o.
Proof.
  unfold EnsureAnnotation. case_bool_decide; rewrite GetAnnotations_SetAnnotations, key_of_SetAnnotations;
    (split; [|done]); [apply lookup_delete_eq|apply lookup_insert_eq].
Qed.
Lemma owned_Ok {O} `{Object O, !ObjectLaws O} s annotation (o m : O) :
  owned s (EnsureAnnotation annotation (s_lastReconciledAt s) o) = Ok m ->
  (exists old, catalog_SetControllerReference (s_catalog_meta s) old = Ok (om_owners (get_meta m))) /\
  GetAnnotations m !! annotation = (if bool_decide (s_lastReconciledAt s = "") then None else Some (s_lastReconciledAt s)) /\
  key_of m = key_of o.
Proof.
  destruct (catalog_EnsureAnnotation_get annotation (s_lastReconciledAt s) o) as [Ha Hk].
  unfold owned. destruct (catalog_SetControllerReference _ _) as [owners|] eqn:Ho; [|done]. intros [= <-].
  unfold GetAnnotations, key_of, GetName, GetNamespace in *. rewrite get_set_meta. cbn.
  split; [by eexists|]. split; [apply Ha|apply Hk].
Qed.
Lemma owned_fields {O} `{Object O} {B} (f : O -> B) s annotation (o m : O) :
  (forall mt o, f (set_meta mt o) = f o) ->
  owned s (EnsureAnnotation annotation (s_lastReconciledAt s) o) = Ok m -> f m = f o.
Proof.
  intros Hf. unfold owned. destruct (catalog_SetControllerReference _ _); [|done]. intros [= <-]. rewrite Hf.
  unfold EnsureAnnotation, SetAnnotations. destruct (bool_decide _); by rewrite Hf.
Qed.
Lemma accepted_controlled k s annotation m o' :
  accepted k m o' ->
  (exists old, catalog_SetControllerReference (s_catalog_meta s) old = Ok (om_owners (get_meta m))) ->
  GetAnnotations m !! annotation = (if bool_decide (s_lastReconciledAt s = "") then None else Some (s_lastReconciledAt s)) ->
  controlled s annotation o'.
Proof.
  intros (Hk & Hl & Ha & Ho & _) H1 H2. split; [by rewrite Ho|by rewrite Ha].
Qed.

Lemma reconcileGitRepository_wp s w :
  wpc (reconcileGitRepository s) (fun w' err =>
    only_objects [(FGitRepository, object_key s FGitRepository)] w w' /\ (err = None -> provided_git s w')) w.
Proof.
  unfold reconcileGitRepository. apply wp_bind.
  assert (wpc (getSourceSecret s) (fun w' r => w' = w /\ match r with Ok sr => source_secret s sr | Err _ => True end) w) as Hs.
  { unfold getSourceSecret. destruct (src_SecretName (s_source s)) as [name|] eqn:Hn.
    - wp_step. wp_step. destruct Hx as [-> Hx]. apply wp_ret. split; [done|]. destruct x as [secret|]; [|done].
      unfold source_secret. rewrite Hn. eauto.
    - apply wp_ret. unfold source_secret. by rewrite Hn. }
  eapply wp_mono; [|exact Hs]. intros w' r [-> Hr]. destruct r as [secretRef|e]; [|by apply wp_ret].
  apply (wp_upsert _ (object_key s FGitRepository)); [done|done|]. intros m o' Hm Hk Ha. split; [apply only_objects_insert; set_solver|]. intros _.
  unfold mutate_git in Hm. destruct (owned_Ok (O:=GitRepository) _ _ _ _ Hm) as (H1 & H2 & _).
  exists secretRef, o'. split; [done|]. split; [apply lookup_insert_flux|]. split.
  - destruct Ha as (_ & _ & _ & _ & Hsp). cbn in Hsp. rewrite Hsp.
    by rewrite (owned_fields (O:=GitRepository) git_Spec s ReconcileRequestAnnotation _ m ltac:(done) Hm).
  - by eapply (accepted_controlled FGitRepository).
Qed.
Lemma reconcileArtifactGeneration_wp s w :
  is_Some (s_commonLabels s !! LabelKeyCatalog) ->
  wpc (reconcileArtifactGeneration s) (fun w' r =>
    only_objects [(FArtifactGenerator, object_key s FArtifactGenerator); (FExternalArtifact, object_key s FExternalArtifact)] w w' /\
    match r with
    | Err _ => True
    | Ok a => provided_generator s w' /\ key_of a = object_key s FExternalArtifact /\
        (om_uid (get_meta a) <> "" -> exists a', lookup_flux FExternalArtifact (object_key s FExternalArtifact) w' = Some a' /\
           GetLabels a' !! LabelKeyCatalog = s_commonLabels s !! LabelKeyCatalog)
    end) w.
Proof.
  intros [name Hname]. unfold reconcileArtifactGeneration. case_bool_decide as Ha; [by apply wp_ret|].
  set (l := [_; _]). apply wp_bind.
  apply (wp_upsert _ (object_key s FArtifactGenerator)); [done|by intros e; apply wp_ret|]. intros m o' Hm _ Hacc.
  set (w1 := insert_flux FArtifactGenerator _ o' w).
  assert (only_objects l w w1) as Ho by (apply only_objects_insert; set_solver).
  assert (provided_generator s w1) as Hg.
  { exists o'. split; [apply lookup_insert_flux|]. destruct (owned_Ok (O:=ArtifactGenerator) _ _ _ _ Hm) as (H1 & H2 & _).
    pose proof Hacc as (_ & _ & _ & _ & Hs & Hout). rewrite Hs, Hout.
    rewrite (owned_fields (O:=ArtifactGenerator) ag_Sources s GeneratorReconcileAnnotation _ m ltac:(done) Hm).
    rewrite (owned_fields (O:=ArtifactGenerator) ag_OutputArtifacts s GeneratorReconcileAnnotation _ m ltac:(done) Hm).
    repeat split; try done; by eapply (accepted_controlled FArtifactGenerator). }
  apply wp_bind, wp_get.
  - intros a Hl Hk. assert (@key_of ExternalArtifact _ (label_artifact s a) = object_key s FExternalArtifact) as Hka.
    { unfold label_artifact. rewrite key_of_SetLabels. exact Hk. }
    apply wp_bind, (catalog_wp_update _ (object_key s FExternalArtifact)); [exact Hka|by intros e; apply wp_ret|].
    intros a' _ (_ & Hl' & _). apply wp_ret. split; [|split; [|split; [done|]]].
    + eapply only_objects_trans; [exact Ho|]. apply only_objects_insert. set_solver.
    + destruct Hg as (g & Hgl & Hg). exists g. by rewrite lookup_insert_flux_ne.
    + intros _. exists a'. split; [apply lookup_insert_flux|]. etransitivity; [by rewrite Hl'|].
      etransitivity; [by apply (f_equal (fun l : strmap => l !! LabelKeyCatalog)), (GetLabels_SetLabels (O:=ExternalArtifact))|].
      rewrite Hname. apply lookup_insert_eq.
  - intros e _. destruct (is_not_found _); apply wp_ret; [|done]. split; [done|]. split; [done|]. by split.
Qed.

Lemma objectReadiness_wp k key w :
  wpc (objectReadiness k key) (fun w' '(ready, _, obj) => w' = w /\ (ready = ConditionTrue -> exists o c,
    obj = Some o /\ lookup_flux k key w = Some o /\ key_of o = key /\ conditions_of k o !! fluxReadyCondition = Some c /\
    mc_Status c = ConditionTrue)) w.
Proof.
  unfold objectReadiness. apply wp_bind, wp_get.
  - intros o Hl Hk. apply wp_ret. destruct (conditions_of k o !! fluxReadyCondition) as [c|] eqn:Hc; [|done].
    split; [done|]. intros Hr. eauto 10.
  - intros e _. apply wp_ret. done.
Qed.

Lemma override_patches_extends s manifest l patches all :
  override_patches s manifest l patches = Ok all -> exists extra, all = patches ++ extra.
Proof.
  revert patches. induction l as [|ov l IH]; intros patches; cbn; [intros [= <-]; exists []; by rewrite app_nil_r|].
  case_bool_decide; [apply IH|]. destruct (getOptionOverridePatches _ _ _ _) as [extra|e]; cbn; [|done].
  intros (extra' & ->)%IH. exists (extra ++ extra'). by rewrite app_assoc.
Qed.
Definition unbuilt (s : source) (a : ExternalArtifact) (patches : list Patch) : KustomizationSpec :=
  mk_ku_spec (gvk_String (ea_type a), tm_Kind (ea_type a), GetName a, GetNamespace a) patches
    (OrgCatalogServiceAccountName (s_namespace s)) artifactToDir (s_namespace s) (Some (s_commonLabels s)) false 0.
Lemma kustomization_builder_eq s a patches : kustomization_builder s a patches = unbuilt s a patches.
Proof. by destruct patches. Qed.
Lemma built_kustomization s manifest patches all a spec :
  key_of a = object_key s FExternalArtifact -> kustomization_patches s manifest = Ok (patches, all) ->
  ku_Build (WithPatches all (kustomization_builder s a patches)) = Ok spec ->
  spec = expected_kustomization s (ea_type a) all.
Proof.
  intros Hk Hp. unfold kustomization_patches in Hp. destruct (if bool_decide _ then _ else _) as [p|]; [cbn in Hp|done].
  destruct (override_patches _ _ _ _) as [all'|] eqn:Ho; [|done]. injection Hp as -> ->.
  destruct (override_patches_extends _ _ _ _ _ Ho) as [extra ->]. unfold object_key, at_source, key_of in Hk.
  injection Hk as Hns Hn. rewrite kustomization_builder_eq.
  assert (WithPatches (patches ++ extra) (unbuilt s a patches) = unbuilt s a (patches ++ extra)) as ->.
  { unfold WithPatches. case_bool_decide as He; [|done]. by apply app_nil in He as [-> ->]. }
  unfold ku_Build, unbuilt. cbn. rewrite Hn, Hns. case_bool_decide; [done|]. case_bool_decide; [done|]. by intros [= <-].
Qed.
Lemma fetchArtifact_wp s a w :
  wpc (fetchArtifact s a) (fun w' r => w' = w /\ (r = Panics -> ea_Artifact a = None)) w.
Proof.
  unfold fetchArtifact. destruct (ea_Artifact a) as [[URL digest]|]; [|by apply wp_ret].
  apply wp_bind, wp_artifact. intros [m|e]; [|by apply wp_ret]. apply wp_bind, wp_artifact.
  intros [e|]; [by apply wp_ret|]. apply wp_bind, wp_artifact. intros err. by apply wp_ret.
Qed.
Lemma reconcileKustomization_wp s a w :
  lookup_flux FExternalArtifact (object_key s FExternalArtifact) w = Some a -> key_of a = object_key s FExternalArtifact ->
  GetLabels a !! LabelKeyCatalog = s_commonLabels s !! LabelKeyCatalog ->
  wpc (reconcileKustomization s a) (fun w' r =>
    only_objects [(FKustomization, object_key s FKustomization)] w w' /\
    match r with
    | Panics => hasOptionOverrides s = true /\ ea_Artifact a = None
    | Returns (Some _) => True
    | Returns None => provided_kustomization s w'
    end) w.
Proof.
  intros Hl Hk Hlab. unfold reconcileKustomization. apply wp_bind.
  assert (wpc (if hasOptionOverrides s then fetchArtifact s a else mret (Returns (Ok ""))) (fun w' r => w' = w /\
    (r = Panics -> hasOptionOverrides s = true /\ ea_Artifact a = None)) w) as Hf.
  { destruct (hasOptionOverrides s); [|by apply wp_ret]. eapply wp_mono; [|apply fetchArtifact_wp].
    intros w' r [-> Hr]. split; [done|]. intros Hp. auto. }
  eapply wp_mono; [|exact Hf]. intros w' r [-> Hr]. destruct r as [[manifest|e]|]; [|by apply wp_ret|apply wp_ret; split; [done|by apply Hr]].
  destruct (kustomization_patches s manifest) as [[patches all]|e] eqn:Hp; [|by apply wp_ret].
  apply wp_bind, (wp_upsert _ (object_key s FKustomization)); [done|by intros e; apply wp_ret|].
  intros m o' Hm _ Hacc. apply wp_ret. split; [apply only_objects_insert; set_solver|].
  unfold mutate_kustomization in Hm. destruct (ku_Build _) as [spec|] eqn:Hb; [cbn in Hm|done].
  destruct (owned_Ok (O:=Kustomization) _ _ _ _ Hm) as (H1 & H2 & _).
  exists a, o', manifest, patches, all. rewrite lookup_insert_flux_ne by done. split; [done|]. split; [done|].
  split; [apply lookup_insert_flux|]. split; [done|]. split; [|by eapply (accepted_controlled FKustomization)].
  pose proof Hacc as (_ & _ & _ & _ & Hs). cbn in Hs. rewrite Hs.
  rewrite (owned_fields (O:=Kustomization) ku_Spec s ReconcileRequestAnnotation _ m ltac:(done) Hm). cbn.
  by eapply built_kustomization.
Qed.

(** ** A pass over the sources *)
Variable now : Z.
Definition cells_of (catalog : Catalog) (src : CatalogSource) : list (fluxKind * objkey) :=
  match newCatalogSource src catalog with Ok s => cells s | Err _ => [] end.
Definition source_cells (catalog : Catalog) : list (fluxKind * objkey) := cat_Sources catalog ≫= cells_of catalog.
(** Only the inventory changed. *)
Definition same_but_inventory (c c' : Catalog) : Prop :=
  get_meta c' = get_meta c /\ cat_Sources c' = cat_Sources c /\ GetConditions c' = GetConditions c.
Lemma same_trans c c1 c2 : same_but_inventory c c1 -> same_but_inventory c1 c2 -> same_but_inventory c c2.
Proof. intros (H1 & H2 & H3) (H1' & H2' & H3'). repeat split; congruence. Qed.
Lemma same_sources c c' src : same_but_inventory c c' -> newCatalogSource src c' = newCatalogSource src c.
Proof. intros (H & _). by apply newCatalogSource_meta. Qed.
Lemma cell_object s k : k ∈ catalog_kinds -> (k, object_key s k) ∈ cells s.
Proof. intros Hk. by apply elem_of_cells. Qed.
Lemma only_cell s k w w' : k ∈ catalog_kinds -> only_objects [(k, object_key s k)] w w' -> only_objects (cells s) w w'.
Proof.
  intros Hk. apply only_objects_weaken. intros c ->%list_elem_of_singleton. by apply cell_object.
Qed.
(** What a source without errors has when its loop step is over *)
Lemma reconcile_source_wp c errs src w :
  wpc (reconcile_source (c, errs) src) (fun w' r =>
    only_objects (cells_of c src) w w' /\
    match r with
    | inl (c', errs') => same_but_inventory c c' /\
        (errs' = errs /\ (exists s, newCatalogSource src c = Ok s /\ provided s w') \/ exists e, errs' = errs ++ [e])
    | inr _ => exists s a, newCatalogSource src c = Ok s /\ hasOptionOverrides s = true /\
        lookup_flux FExternalArtifact (object_key s FExternalArtifact) w' = Some a /\ ea_Artifact a = None
    end) w.
Proof.
  unfold reconcile_source, cells_of. destruct (newCatalogSource src c) as [s|e] eqn:Hs.
  2:{ apply wp_ret. split; [done|]. split; [done|]. right. by eexists. }
  pose proof (newCatalogSource_facts _ _ _ Hs) as (_ & _ & _ & Hlab & _).
  apply wp_bind. eapply wp_mono; [|apply reconcileGitRepository_wp]. intros w1 err [Ho1 Hg].
  apply (only_cell s FGitRepository) in Ho1; [|a_kind].
  destruct err as [e|]; [apply wp_ret; split; [done|]; split; [done|]; right; by eexists|]. specialize (Hg eq_refl).
  apply wp_bind. eapply wp_mono; [|apply reconcileArtifactGeneration_wp; by rewrite Hlab]. intros w2 r [Ho2 Hr].
  assert (provided_git s w2) as Hg2.
  { destruct Hg as (sr & g & Hsr & Hl & Hg). exists sr, g. rewrite Ho2 by set_solver. done. }
  apply (only_objects_weaken _ (cells s)) in Ho2.
  2:{ intros x [->|[->|[]%elem_of_nil]%elem_of_cons]%elem_of_cons; apply cell_object; a_kind. }
  pose proof (only_objects_trans _ _ _ _ Ho1 Ho2) as Ho.
  assert (forall w3, only_objects [(FKustomization, object_key s FKustomization)] w2 w3 -> only_objects (cells s) w w3) as Ho3.
  { intros w3 H3. eapply only_objects_trans; [exact Ho|]. eapply only_cell; [|exact H3]. a_kind. }
  destruct r as [a|e]; [|apply wp_ret; split; [done|]; split; [done|]; right; by eexists].
  destruct Hr as (Hgen & Hka & Hstored). case_bool_decide as Hu; [apply wp_ret; split; [done|]; split; [done|]; right; by eexists|].
  destruct (Hstored Hu) as (a' & Hl' & Hlab').
  apply wp_bind. rewrite Hka. eapply wp_mono; [|apply objectReadiness_wp]. intros w3 [[ready msg] obj] [-> Hready].
  case_bool_decide as Hrt; [|apply wp_ret; split; [done|]; split; [done|]; right; by eexists].
  destruct (Hready Hrt) as (o & cond & -> & Hlo & Hko & _). cbn [negb default].
  assert (o = a') as -> by (rewrite Hl' in Hlo; congruence).
  apply wp_bind. eapply wp_mono; [|by apply reconcileKustomization_wp]. intros w4 r [Ho4 Hr]. apply wp_ret.
  split; [by apply Ho3|]. destruct r as [[e|]|].
  - split; [done|]. right. by eexists.
  - split; [done|]. left. split; [done|]. exists s. split; [done|]. split; [|split; [|done]].
    + destruct Hg2 as (sr & g & Hsr & Hl & Hg'). exists sr, g. rewrite Ho4 by set_solver. done.
    + destruct Hgen as (g & Hl & Hg'). exists g. rewrite Ho4 by set_solver. done.
  - exists s, a'. rewrite Ho4 by set_solver. destruct Hr. done.
Qed.

Definition distinct_sources (c : Catalog) : Prop :=
  exists hashes, Forall2 (fun src h => source_hash (GetName c) src = Ok h) (cat_Sources c) hashes /\ NoDup hashes.
Lemma validateSources_distinct c : validateSources c = None -> distinct_sources c.
Proof.
  unfold validateSources. pose proof (validate_fold (GetName c) (cat_Sources c) ∅) as H.
  destruct (fold_left _ _ _); [|done]. intros _. destruct H as (hs & Hf & Hnd & _). by exists hs.
Qed.
Lemma distinct_hashes c before src after src' s s' :
  distinct_sources c -> cat_Sources c = before ++ src :: after -> src' ∈ before ->
  newCatalogSource src c = Ok s -> newCatalogSource src' c = Ok s' -> s_sourceHash s <> s_sourceHash s'.
Proof.
  intros (hs & Hf & Hnd) Heq Hin (Hs & _)%newCatalogSource_facts (Hs' & _)%newCatalogSource_facts Hh. rewrite Heq in Hf.
  apply Forall2_app_inv_l in Hf as (hs1 & hs2 & Hf1 & Hf2 & ->). inversion Hf2 as [|? h ? hs3 Hh1 Hf3]; subst.
  apply list_elem_of_lookup in Hin as [i Hi]. destruct (Forall2_lookup_l _ _ _ _ _ Hf1 Hi) as (h' & Hi' & Hh').
  apply NoDup_app in Hnd as (_ & Hd & _). apply (Hd h'); [by eapply list_elem_of_lookup_2|].
  assert (h' = h) as -> by congruence. set_solver.
Qed.
Definition object_names_differ (s s' : source) : Prop :=
  forall k, k ∈ catalog_kinds -> object_name s k <> object_name s' k.
Lemma names_differ c src src' s s' :
  newCatalogSource src c = Ok s -> newCatalogSource src' c = Ok s' -> s_sourceHash s <> s_sourceHash s' ->
  object_names_differ s s'.
Proof.
  intros (_ & _ & _ & _ & Hn)%newCatalogSource_facts (_ & _ & _ & _ & Hn')%newCatalogSource_facts Hne k Hk Heq. apply Hne.
  rewrite Hn, Hn' in Heq by done. by do 2 apply append_inj_l in Heq.
Qed.

Definition panic_cause (c : Catalog) (w : flux_world) : Prop :=
  exists src s a, src ∈ cat_Sources c /\ newCatalogSource src c = Ok s /\ hasOptionOverrides s = true /\
    lookup_flux FExternalArtifact (object_key s FExternalArtifact) w = Some a /\ ea_Artifact a = None.
Lemma reconcile_sources_wp c w : distinct_sources c ->
  wpc (foreach (cat_Sources c) reconcile_source (c, [])) (fun w' r =>
    only_objects (source_cells c) w w' /\
    match r with
    | inl (c', errs) => same_but_inventory c c' /\
        (errs = [] -> forall src, src ∈ cat_Sources c -> exists s, newCatalogSource src c = Ok s /\ provided s w')
    | inr _ => panic_cause c w'
    end) w.
Proof.
  intros Hd. set (I := fun (l : list CatalogSource) (w' : flux_world) (st : create_state) => exists before,
    cat_Sources c = before ++ l /\ only_objects (source_cells c) w w' /\ same_but_inventory c st.1 /\
    (st.2 = [] -> forall src, src ∈ before -> exists s, newCatalogSource src c = Ok s /\ provided s w')).
  apply (wp_foreach _ _ _ I).
  - exists []. split; [done|]. split; [done|]. split; [done|]. intros _ src Hin. by apply elem_of_nil in Hin.
  - intros w' [c' errs] (before & Heq & Ho & Hsame & Hp). rewrite app_nil_r in Heq. rewrite Heq. auto.
  - intros src l w' [c' errs] (before & Heq & Ho & Hsame & Hp). cbn in Hsame, Hp.
    eapply wp_mono; [|apply reconcile_source_wp]. intros w'' r [Ho' Hr].
    assert (src ∈ cat_Sources c) as Hin by (rewrite Heq; set_solver).
    assert (cells_of c' src = cells_of c src) as Hce by (unfold cells_of; by rewrite (same_sources _ _ _ Hsame)).
    rewrite Hce in Ho'. assert (only_objects (source_cells c) w w'') as Ho''.
    { eapply only_objects_trans; [exact Ho|]. eapply only_objects_weaken; [|exact Ho'].
      intros x Hx. unfold source_cells. apply list_elem_of_bind. eauto. }
    destruct r as [[c'' errs']|[]].
    + destruct Hr as [Hsame' Hr]. exists (before ++ [src]). rewrite <-app_assoc. split; [done|]. split; [done|].
      split; [by eapply same_trans|]. cbn. intros ->. destruct Hr as [(<- & s & Hs & Hps)|[e He]]; [|by destruct errs].
      rewrite (same_sources _ _ _ Hsame) in Hs.
      intros src' [Hb| ->%list_elem_of_singleton]%elem_of_app; [|eauto].
      destruct (Hp eq_refl _ Hb) as (s' & Hs' & Hps'). exists s'. split; [done|]. eapply catalog_provided_frame; [|exact Hps'].
      intros k Hk. apply Ho'. unfold cells_of. rewrite Hs. intros Hc.
      eapply (cells_disjoint c src src' s s'); try done; [by eapply distinct_hashes|by apply cell_object].
    + split; [done|]. destruct Hr as (s & a & Hs & Hr). rewrite (same_sources _ _ _ Hsame) in Hs. by exists src, s, a.
Qed.

(** ** Reading the objects back *)
Definition ready_in (s : source) (w : flux_world) : Prop :=
  forall k, k ∈ catalog_kinds -> exists o c, lookup_flux k (object_key s k) w = Some o /\
    conditions_of k o !! fluxReadyCondition = Some c /\ mc_Status c = ConditionTrue.
Definition recorded (c : Catalog) (s : source) : Prop :=
  forall k, k ∈ catalog_kinds -> exists msg,
    entry_in c (getSourceGroupHash s) (flux_kind_name k) (object_name s k) =
    Some (mk_source_status (flux_kind_name k) (object_name s k) ConditionTrue msg).
Lemma observe_wp s k c w : k ∈ catalog_kinds -> s_namespace s = GetNamespace c ->
  wpc (observe s k (object_name s k) c) (fun w' '(c', r) => w' = w /\
    (exists msg, c' = setInventory s (flux_kind_name k) (object_name s k) msg r c) /\
    (r = ConditionTrue -> exists o cond, lookup_flux k (object_key s k) w = Some o /\
       conditions_of k o !! fluxReadyCondition = Some cond /\ mc_Status cond = ConditionTrue)) w.
Proof.
  intros Hk Hns. unfold observe. apply wp_bind. eapply wp_mono; [|apply objectReadiness_wp].
  intros w' [[r msg] obj] [-> Hr]. apply wp_ret. split; [done|]. split; [by exists msg|].
  intros Ht. destruct (Hr Ht) as (o & cond & _ & Hl & _ & Hc). exists o, cond. unfold object_key, at_source. by rewrite Hns.
Qed.
Lemma setInventory_same s kind name msg r c : same_but_inventory c (setInventory s kind name msg r c).
Proof. done. Qed.
Lemma recorded_setInventory s k msg r c s' :
  k ∈ catalog_kinds -> object_names_differ s' s -> recorded c s' ->
  recorded (setInventory s (flux_kind_name k) (object_name s k) msg r c) s'.
Proof.
  intros Hk Hd Hr k' Hk'. destruct (Hr _ Hk') as [msg' Hm]. exists msg'. unfold setInventory. rewrite entry_SetInventory.
  rewrite bool_decide_eq_false_2; [done|]. intros (_ & Hkk & Hn). destruct (decide (k' = k)) as [->|Hne].
  - by apply (Hd k).
  - by destruct k', k.
Qed.
Definition verify_post (c : Catalog) (rs : list string) (errs : list catalogError) (src : CatalogSource) (w w' : flux_world)
    (r : verify_state + Empty_set) : Prop :=
  w' = w /\ match r with
  | inr _ => False
  | inl (c', rs', errs') => same_but_inventory c c' /\
      ((exists e, errs' = errs ++ [e] /\ c' = c /\ rs' = rs) \/
       exists s news, errs' = errs /\ newCatalogSource src c = Ok s /\ rs' = rs ++ news /\
         (Forall (fun r => r = ConditionTrue) news -> ready_in s w /\ recorded c' s) /\
         forall s', object_names_differ s' s -> recorded c s' -> recorded c' s')
  end.
Lemma verify_source_wp c rs errs src w : wpc (verify_source (c, rs, errs) src) (verify_post c rs errs src w) w.
Proof.
  unfold verify_source. destruct (newCatalogSource src c) as [s|e] eqn:Hs.
  2:{ apply wp_ret. split; [done|]. split; [done|]. left. by eexists. }
  pose proof (newCatalogSource_facts _ _ _ Hs) as (_ & _ & Hm & _).
  assert (forall c', same_but_inventory c c' -> s_namespace s = GetNamespace c') as Hns.
  { intros c' (H & _). unfold s_namespace, GetNamespace. by rewrite Hm, H. }
  apply wp_bind. eapply wp_mono; [|apply (observe_wp s FGitRepository); [a_kind|by apply Hns]].
  intros w1 [c1 r1] (-> & [m1 ->] & H1). set (c1 := setInventory _ _ _ _ _ _).
  apply wp_bind. eapply wp_mono; [|apply (observe_wp s FArtifactGenerator); [a_kind|by apply Hns]].
  intros w1 [c2 r2] (-> & [m2 ->] & H2). set (c2 := setInventory _ _ _ _ _ _).
  apply wp_bind. eapply wp_mono; [|apply (observe_wp s FExternalArtifact); [a_kind|by apply Hns]].
  intros w1 [c3 r3] (-> & [m3 ->] & H3). set (c3 := setInventory _ _ _ _ _ _).
  apply wp_bind. eapply wp_mono; [|apply (observe_wp s FKustomization); [a_kind|by apply Hns]].
  intros w1 [c4 r4] (-> & [m4 ->] & H4). set (c4 := setInventory _ _ _ _ _ _).
  apply wp_ret. split; [done|]. split; [done|]. right. exists s, [r1; r2; r3; r4]. split; [done|]. split; [done|]. split; [done|].
  split.
  - intros Hall. apply Forall_cons in Hall as [-> Hall]. apply Forall_cons in Hall as [-> Hall].
    apply Forall_cons in Hall as [-> Hall]. apply Forall_cons in Hall as [-> _]. split.
    + intros k Hk. unfold catalog_kinds in Hk. rewrite !elem_of_cons, elem_of_nil in Hk.
      destruct Hk as [->|[->|[->|[->|[]]]]]; eauto.
    + intros k Hk. unfold catalog_kinds in Hk. rewrite !elem_of_cons, elem_of_nil in Hk.
      unfold c4, c3, c2, c1, setInventory. rewrite !entry_SetInventory.
      destruct Hk as [->|[->|[->|[->|[]]]]]; cbn [flux_kind_name]; repeat case_bool_decide; naive_solver.
  - intros s' Hd Hr. repeat (apply recorded_setInventory; [a_kind|done|]). done.
Qed.
Lemma verify_sources_wp c errs w : distinct_sources c ->
  wpc (foreach (cat_Sources c) verify_source (c, [], errs)) (fun w' r => w' = w /\
    match r with
    | inr _ => False
    | inl (c', rs, errs') => same_but_inventory c c' /\ (errs' = [] -> errs = []) /\
        (errs' = [] -> Forall (fun r => r = ConditionTrue) rs -> forall src, src ∈ cat_Sources c ->
           exists s, newCatalogSource src c = Ok s /\ ready_in s w /\ recorded c' s)
    end) w.
Proof.
  intros Hd. set (I := fun (l : list CatalogSource) (w' : flux_world) (st : verify_state) => exists before,
    w' = w /\ cat_Sources c = before ++ l /\ same_but_inventory c st.1.1 /\ (st.2 = [] -> errs = []) /\
    (st.2 = [] -> Forall (fun r => r = ConditionTrue) st.1.2 -> forall src, src ∈ before ->
       exists s, newCatalogSource src c = Ok s /\ ready_in s w /\ recorded st.1.1 s)).
  apply (wp_foreach _ _ _ I).
  - exists []. repeat split; try done; intros; by set_solver.
  - intros w' [[c' rs] errs'] (before & -> & Heq & H). rewrite app_nil_r in Heq. rewrite Heq. done.
  - intros src l w' [[c' rs] errs'] (before & -> & Heq & Hsame & He & Hp). cbn in Hsame, He, Hp.
    eapply wp_mono; [|apply verify_source_wp]. intros w'' r [-> Hr]. destruct r as [[[c'' rs'] errs'']|[]].
    destruct Hr as [Hsame' Hr]. exists (before ++ [src]). rewrite <-app_assoc. split; [done|]. split; [done|]. cbn.
    split; [by eapply same_trans|]. destruct Hr as [(e & -> & _)|(s & news & -> & Hs & -> & Hn & Hk)].
    { split; intros H; by destruct errs'. }
    split; [done|]. intros Hz. rewrite Forall_app. intros [Hf Hfn] src' Hin.
    rewrite (same_sources _ _ _ Hsame) in Hs. destruct (Hn Hfn) as [Hready Hrec].
    apply elem_of_app in Hin as [Hb| ->%list_elem_of_singleton]; [|by exists s].
    destruct (Hp Hz Hf _ Hb) as (s' & Hs' & Hr' & Hrec'). exists s'. split; [done|]. split; [done|].
    apply Hk; [|done]. eapply names_differ; [done|done|]. intros Heqh. symmetry in Heqh. revert Heqh. by eapply distinct_hashes.
Qed.

(** ** The clean-up of the inventory *)
Lemma deleteOrphanedResource_wp k kind ns name w :
  wpc (deleteOrphanedResource k kind ns name) (fun w' err =>
    only_objects [(k, mk_key ns name)] w w' /\ gone_kept w w' /\ (err = None -> gone k (mk_key ns name) w')) w.
Proof.
  unfold deleteOrphanedResource. apply wp_bind, wp_get.
  - intros o Hl Hk. apply wp_bind, (wp_flux_delete _ (fun _ => CatFlux) catalog_flux_step).
    + intros e _. apply wp_ret. split; [done|]. by split; [apply gone_kept_refl|].
    + intros w' Ho Hg Hd. by apply wp_ret.
  - intros e He. destruct (is_not_found (Some e)) eqn:Hn; apply wp_ret; (split; [done|]); (split; [apply gone_kept_refl|]); [|done].
    intros _. unfold gone. by rewrite He.
Qed.

Section cleanup.
Variable ns : string.
Variable desired : list SourceStatus.
Definition removable (e : SourceStatus) : bool :=
  negb (is_desired desired e) && match clean_action_of (ss_Kind e) with CleanSkip => false | _ => true end.
Definition entry_cell (e : SourceStatus) : list (fluxKind * objkey) :=
  if is_desired desired e then []
  else match clean_action_of (ss_Kind e) with CleanDelete k => [(k, mk_key ns (ss_Name e))] | _ => [] end.
(** What may be missing from a cleaned list *)
Definition removed_ok (w : flux_world) (e : SourceStatus) : Prop :=
  removable e = true /\ forall cell, cell ∈ entry_cell e -> gone cell.1 cell.2 w.
Definition cleaned_list (w : flux_world) (l l' : list SourceStatus) : Prop :=
  l' `sublist_of` l /\ forall e, e ∈ l -> e ∉ l' -> removed_ok w e.
Lemma cleaned_list_refl w l : cleaned_list w l l.
Proof. by split. Qed.
Lemma cleaned_list_kept w w' l l' : gone_kept w w' -> cleaned_list w l l' -> cleaned_list w' l l'.
Proof.
  intros Hg [Hs Hr]. split; [done|]. intros e Hin Hn. destruct (Hr _ Hin Hn) as [H1 H2]. split; [done|].
  intros [k key] Hc. apply Hg. exact (H2 _ Hc).
Qed.
Lemma delete_func_sublist {A} (f : A -> bool) l : delete_func f l `sublist_of` l.
Proof. unfold delete_func. induction l as [|a l IH]; cbn; [done|]. destruct (f a); cbn; by constructor. Qed.
Lemma delete_func_shorter {A} (f : A -> bool) l a : a ∈ l -> f a = true -> length (delete_func f l) < length l.
Proof.
  unfold delete_func. induction l as [|b l IH]; [by intros ?%elem_of_nil|].
  pose proof (sublist_length _ _ (delete_func_sublist f l)) as Hl. unfold delete_func in Hl.
  intros [->|Hin]%elem_of_cons Hf; cbn.
  - rewrite Hf. cbn. lia.
  - specialize (IH Hin Hf). destruct (f b); cbn; lia.
Qed.
(** The array is the slice with zeroes behind it. *)
Definition array_of (n : nat) (cur : list SourceStatus) : list SourceStatus := cur ++ replicate (n - length cur) zero_entry.
Lemma remove_entry_array n inv cur :
  length cur <= n ->
  remove_entry inv (cur, array_of n cur) =
  (delete_func (is_entry (ss_Kind inv) (ss_Name inv)) cur,
   array_of n (delete_func (is_entry (ss_Kind inv) (ss_Name inv)) cur)).
Proof.
  intros Hn. unfold remove_entry, entries_array, array_of. cbn [fst snd]. f_equal. f_equal.
  pose proof (sublist_length _ _ (delete_func_sublist (is_entry (ss_Kind inv) (ss_Name inv)) cur)) as Hl.
  rewrite drop_app_length', <-replicate_add by done. f_equal. lia.
Qed.
Lemma array_read n cur i : default zero_entry (array_of n cur !! i) = default zero_entry (cur !! i).
Proof.
  unfold array_of. destruct (decide (i < length cur)) as [Hi|Hi].
  - by rewrite lookup_app_l.
  - rewrite lookup_app_r, (lookup_ge_None_2 cur) by lia. cbn. destruct (replicate _ _ !! _) as [e|] eqn:He; [|done].
    by apply lookup_replicate in He as [-> _].
Qed.
Lemma same_entry_removable e inv : is_entry (ss_Kind inv) (ss_Name inv) e = true ->
  removable e = removable inv /\ entry_cell e = entry_cell inv.
Proof.
  intros [Hk Hn]%is_entry_true. unfold removable, entry_cell, is_desired. by rewrite Hk, Hn.
Qed.
Lemma remove_cleaned w l cur inv :
  cleaned_list w l cur -> removed_ok w inv -> cleaned_list w l (delete_func (is_entry (ss_Kind inv) (ss_Name inv)) cur).
Proof.
  intros [Hs Hr] Hi. split; [by etransitivity; [apply delete_func_sublist|]|]. intros e Hin Hn.
  destruct (decide (e ∈ cur)) as [Hc|Hc]; [|by apply Hr].
  destruct (is_entry (ss_Kind inv) (ss_Name inv) e) eqn:He.
  - destruct (same_entry_removable _ _ He) as [H1 H2]. unfold removed_ok. by rewrite H1, H2.
  - destruct Hn. by apply delete_func_elem.
Qed.
(** How far a clean-up that did not fail came: the first removable entry is gone. *)
Definition progressed (l l' : list SourceStatus) : Prop :=
  length l' < length l \/ forall e, e ∈ l -> removable e = false.
Definition list_cells (l : list SourceStatus) : list (fluxKind * objkey) := l ≫= entry_cell.
Lemma zero_entry_skipped : clean_action_of (ss_Kind zero_entry) = CleanSkip.
Proof. done. Qed.
Lemma in_list_cells l e cell : e ∈ l -> cell ∈ entry_cell e -> cell ∈ list_cells l.
Proof. intros Hin Hc. apply list_elem_of_bind. eauto. Qed.
Lemma clean_entry_skip st i e :
  default zero_entry (st.2 !! i) = e -> clean_action_of (ss_Kind e) = CleanSkip -> clean_entry ns desired st i = mret (inl st).
Proof. intros <- Ha. unfold clean_entry. rewrite Ha. by destruct (is_desired _ _). Qed.
Lemma clean_entry_forget st i e :
  default zero_entry (st.2 !! i) = e -> is_desired desired e = false -> clean_action_of (ss_Kind e) = CleanForget ->
  clean_entry ns desired st i = mret (inl (remove_entry e st)).
Proof. intros <- Hd Ha. unfold clean_entry. by rewrite Hd, Ha. Qed.
Lemma clean_entry_delete st i e k Q w :
  default zero_entry (st.2 !! i) = e -> is_desired desired e = false -> clean_action_of (ss_Kind e) = CleanDelete k ->
  (forall w' err, only_objects [(k, mk_key ns (ss_Name e))] w w' -> Q w' (inr (st.1, err))) ->
  (forall w', only_objects [(k, mk_key ns (ss_Name e))] w w' -> gone k (mk_key ns (ss_Name e)) w' -> Q w' (inl (remove_entry e st))) ->
  wpc (clean_entry ns desired st i) Q w.
Proof.
  intros <- Hd Ha He Hn. unfold clean_entry. rewrite Hd, Ha. apply wp_bind.
  eapply wp_mono; [|apply deleteOrphanedResource_wp]. intros w1 err (Ho & _ & Hg). apply wp_ret.
  destruct err as [e'|]; auto.
Qed.
(** The state of the loop before it reads index [i]. *)
Definition clean_inv (l : list SourceStatus) (w w' : flux_world) (i : nat) (st : slice_array) : Prop :=
  st.2 = array_of (length l) st.1 /\ length st.1 <= length l /\ only_objects (list_cells l) w w' /\ gone_kept w w' /\
  cleaned_list w' l st.1 /\
  (length st.1 < length l \/ st.1 = l /\ forall j e, j < i -> l !! j = Some e -> removable e = false).
Lemma clean_entry_wp l w w1 i st : i < length l -> clean_inv l w w1 i st ->
  wpc (clean_entry ns desired st i) (fun w' r =>
    match r with
    | inl st' => clean_inv l w w' (S i) st'
    | inr (l', _) => only_objects (list_cells l) w w' /\ gone_kept w w' /\ cleaned_list w' l l'
    end) w1.
Proof.
  intros Hi (Harr & Hlen & Ho & Hg & Hc & Hp). destruct st as [cur arr]. cbn [fst snd] in *. subst arr.
  unfold clean_entry. cbn [fst snd]. rewrite array_read. set (inv := default zero_entry (cur !! i)).
  assert (removable inv = false -> clean_inv l w w1 (S i) (cur, array_of (length l) cur)) as Hkeep.
  { intros Hr. split; [done|]. split; [done|]. split; [done|]. split; [done|]. split; [exact Hc|]. destruct Hp as [Hp|[-> Hp]]; [by left|]. right. split; [done|].
    intros j e Hj He. destruct (decide (j = i)) as [->|Hne]; [|apply (Hp j); [lia|done]].
    subst inv. by rewrite He in Hr. }
  destruct (is_desired desired inv) eqn:Hd; [apply wp_ret, Hkeep; unfold removable; by rewrite Hd|].
  assert (clean_action_of (ss_Kind inv) <> CleanSkip -> cur !! i = Some inv) as Hcur.
  { intros Ha. subst inv. destruct (cur !! i); [done|]. by destruct (Ha zero_entry_skipped). }
  assert (forall w2, only_objects (list_cells l) w w2 -> gone_kept w w2 -> cleaned_list w2 l cur -> removed_ok w2 inv ->
    cur !! i = Some inv -> clean_inv l w w2 (S i) (remove_entry inv (cur, array_of (length l) cur))) as Hrem.
  { intros w2 Ho2 Hg2 Hc2 Hr2 Hci. rewrite remove_entry_array by done. cbn [fst snd].
    assert (length (delete_func (is_entry (ss_Kind inv) (ss_Name inv)) cur) < length cur) as Hsh.
    { apply (delete_func_shorter _ _ inv); [by eapply list_elem_of_lookup_2|]. by apply is_entry_true. }
    split; [done|]. cbn [fst snd]. split; [lia|]. split; [done|]. split; [done|]. split; [by apply remove_cleaned|left; lia]. }
  destruct (clean_action_of (ss_Kind inv)) as [k| |] eqn:Ha.
  - specialize (Hcur ltac:(done)). apply wp_bind. eapply wp_mono; [|apply deleteOrphanedResource_wp].
    intros w2 err (Ho2 & Hg2 & Hgone). apply wp_ret.
    assert (entry_cell inv = [(k, mk_key ns (ss_Name inv))]) as Hcell by (unfold entry_cell; by rewrite Hd, Ha).
    assert (only_objects (list_cells l) w w2) as Ho3.
    { eapply only_objects_trans; [exact Ho|]. eapply only_objects_weaken; [|exact Ho2]. rewrite <-Hcell.
      intros cell. apply in_list_cells. eapply sublist_subseteq; [apply Hc|by eapply list_elem_of_lookup_2]. }
    assert (gone_kept w w2) as Hg3 by (intros k' key' H; by apply Hg2, Hg).
    pose proof (cleaned_list_kept _ _ _ _ Hg2 Hc) as Hc2.
    destruct err as [e|]; [done|]. apply Hrem; try done. split; [unfold removable; by rewrite Hd, Ha|].
    rewrite Hcell. intros cell ->%list_elem_of_singleton. by apply Hgone.
  - specialize (Hcur ltac:(done)). apply wp_ret, Hrem; try done. split; [unfold removable; by rewrite Hd, Ha|].
    unfold entry_cell. rewrite Hd, Ha. intros cell Hin. by apply elem_of_nil in Hin.
  - apply wp_ret, Hkeep. unfold removable. by rewrite Hd, Ha.
Qed.
Hypothesis inventory_Diff_equal : forall l l', inventory_Diff l l' = "" -> l ≡ₚ l'.
Lemma clean_list_wp l w :
  wpc (clean_list ns desired l) (fun w' r =>
    only_objects (list_cells l) w w' /\ gone_kept w w' /\
    match r with
    | inl (l', _) => cleaned_list w' l l' /\ progressed l l'
    | inr (l', _) => cleaned_list w' l l'
    end) w.
Proof using inventory_Diff_equal.
  unfold clean_list. case_bool_decide as Hdiff.
  { apply wp_ret. split; [done|]. split; [by intros ???|]. split; [apply cleaned_list_refl|]. right. intros e Hin.
    apply inventory_Diff_equal in Hdiff. rewrite Hdiff in Hin. unfold removable, is_desired.
    assert (existsb (is_entry (ss_Kind e) (ss_Name e)) desired = true) as ->; [|done].
    apply contains_func_true. exists e. split; [done|]. by apply is_entry_true. }
  set (I := fun (rest : list nat) (w' : flux_world) (st : slice_array) => exists i,
    i <= length l /\ rest = seq i (length l - i) /\ clean_inv l w w' i st).
  apply (wp_foreach _ _ _ I).
  - exists 0. split; [lia|]. split; [by rewrite Nat.sub_0_r|]. split; [cbn; unfold array_of; by rewrite Nat.sub_diag, app_nil_r|].
    split; [done|]. split; [done|]. split; [by intros ???|]. split; [apply cleaned_list_refl|]. right. split; [done|].
    intros j e Hj. lia.
  - intros w' [cur arr] (i & Hi & Hrest & _ & _ & Ho & Hg & Hc & Hp). split; [done|]. split; [done|]. split; [done|].
    destruct Hp as [Hp|[_ Hp]]; [by left|]. right. intros e Hin. apply list_elem_of_lookup in Hin as [j Hj].
    apply (Hp j); [|done]. apply lookup_lt_Some in Hj. destruct (length l - i) as [|m] eqn:Hm; [lia|done].
  - intros a rest w' st (i & Hi & Hrest & Hinv). destruct (length l - i) as [|m] eqn:Hm; [done|].
    injection Hrest as -> ->. eapply wp_mono; [|apply (clean_entry_wp l w); [lia|done]].
    intros w'' [st'|[l' e]]; [|done]. intros Hinv'. exists (S i). split; [lia|]. split; [|done]. f_equal. lia.
Qed.
End cleanup.


Hypothesis inventory_Diff_equal : forall l l', inventory_Diff l l' = "" -> l ≡ₚ l'.
Hypothesis inventory_order_perm : forall m, inventory_order m ≡ₚ map_to_list m.
Definition inventory_of (c : Catalog) : inventory := cat_Inventory (cat_Status c).
Definition entries_of (c : Catalog) (hash : string) : list SourceStatus := default [] (inventory_of c !! hash).
Definition desired_of (c : Catalog) (hash : string) : list SourceStatus :=
  match desired_inventory c with Ok desired => default [] (desired !! hash) | Err _ => [] end.
(** The objects of the inventory that no source of the specification asks for *)
Definition orphan_cells (c : Catalog) : list (fluxKind * objkey) :=
  map_to_list (inventory_of c) ≫= fun e => list_cells (GetNamespace c) (desired_of c e.1) e.2.
Lemma order_lookup m hash l : (hash, l) ∈ inventory_order m <-> m !! hash = Some l.
Proof using inventory_order_perm. by rewrite inventory_order_perm, elem_of_map_to_list. Qed.
Lemma order_nodup m : NoDup (inventory_order m).*1.
Proof using inventory_order_perm. rewrite inventory_order_perm. apply NoDup_fst_map_to_list. Qed.
Lemma set_list_get hash l inv : default [] (set_list hash l inv !! hash) = l.
Proof. unfold set_list. case_bool_decide; [by rewrite lookup_delete_eq|by rewrite lookup_insert_eq]. Qed.
Lemma set_list_ne hash l inv hash' : hash' <> hash -> set_list hash l inv !! hash' = inv !! hash'.
Proof. intros Hne. unfold set_list. case_bool_decide; [by rewrite lookup_delete_ne|by rewrite lookup_insert_ne]. Qed.
(** The inventory [inv'] of a Catalog after a clean-up, in the store [w] *)
Definition cleaned (c : Catalog) (w : flux_world) (inv' : inventory) : Prop :=
  forall hash, cleaned_list (GetNamespace c) (desired_of c hash) w (entries_of c hash) (default [] (inv' !! hash)).
Definition clean_state (c : Catalog) (w w' : flux_world) (inv' : inventory) : Prop :=
  only_objects (orphan_cells c) w w' /\ gone_kept w w' /\ cleaned c w' inv'.
Lemma clean_hash_wp c desired w w1 inv' hash l :
  desired_inventory c = Ok desired -> inventory_of c !! hash = Some l ->
  clean_state c w w1 inv' -> inv' !! hash = Some l ->
  wpc (clean_hash (GetNamespace c) desired inv' (hash, l)) (fun w' r =>
    match r with
    | inl inv2 => clean_state c w w' inv2 /\ (forall h, h <> hash -> inv2 !! h = inv' !! h) /\
        progressed (desired_of c hash) l (default [] (inv2 !! hash))
    | inr (inv2, _) => clean_state c w w' inv2
    end) w1.
Proof using inventory_Diff_equal.
  intros Hdes Hl (Ho & Hg & Hc) Hl'. unfold clean_hash. apply wp_bind.
  assert (default [] (desired !! hash) = desired_of c hash) as -> by (unfold desired_of; by rewrite Hdes).
  eapply wp_mono; [|apply (clean_list_wp (GetNamespace c) (desired_of c hash) inventory_Diff_equal l w1)].
  intros w2 r (Ho2 & Hg2 & Hr). apply wp_ret.
  assert (only_objects (orphan_cells c) w w2) as Ho3.
  { eapply only_objects_trans; [exact Ho|]. eapply only_objects_weaken; [|exact Ho2]. intros cell Hcell.
    apply list_elem_of_bind. exists (hash, l). split; [done|]. by apply elem_of_map_to_list. }
  assert (gone_kept w w2) as Hg3 by (intros k key H; by apply Hg2, Hg).
  assert (forall inv2 l2, cleaned_list (GetNamespace c) (desired_of c hash) w2 l l2 ->
    default [] (inv2 !! hash) = l2 -> (forall h, h <> hash -> inv2 !! h = inv' !! h) -> clean_state c w w2 inv2) as Hst.
  { intros inv2 l2 Hcl Heq Hne. split; [done|]. split; [done|]. intros h. destruct (decide (h = hash)) as [->|Hh].
    - unfold entries_of. by rewrite Heq, Hl.
    - rewrite Hne by done. eapply cleaned_list_kept; [exact Hg2|apply Hc]. }
  destruct r as [[l2 arr]|[l2 e]].
  - destruct Hr as [Hcl Hp]. split; [|split].
    + eapply Hst; [exact Hcl|apply set_list_get|]. intros h Hh. by apply set_list_ne.
    + intros h Hh. by apply set_list_ne.
    + by rewrite set_list_get.
  - eapply Hst; [exact Hr|by rewrite lookup_insert_eq|]. intros h Hh. by apply lookup_insert_ne.
Qed.
Lemma checkAndCleanInventory_wp c w :
  wpc (checkAndCleanInventory c) (fun w' '(c', err) =>
    same_but_inventory c c' /\ clean_state c w w' (inventory_of c') /\
    (err = None -> forall hash, progressed (desired_of c hash) (entries_of c hash) (entries_of c' hash))) w.
Proof using inventory_Diff_equal inventory_order_perm.
  unfold checkAndCleanInventory. cbv zeta. fold (inventory_of c).
  assert (clean_state c w w (inventory_of c)) as Hinit.
  { split; [done|]. split; [by intros ???|]. intros hash. apply cleaned_list_refl. }
  case_bool_decide as He.
  { apply wp_ret. split; [done|]. split; [done|]. intros _ hash. right. unfold entries_of. rewrite He, lookup_empty.
    intros e Hin. by apply elem_of_nil in Hin. }
  destruct (desired_inventory c) as [desired|e] eqn:Hdes; [|by apply wp_ret].
  set (I := fun (rest : list (string * list SourceStatus)) (w' : flux_world) (inv' : inventory) => exists before,
    inventory_order (inventory_of c) = before ++ rest /\ clean_state c w w' inv' /\
    (forall hash, hash ∈ rest.*1 -> inv' !! hash = inventory_of c !! hash) /\
    forall hash, hash ∈ before.*1 -> progressed (desired_of c hash) (entries_of c hash) (default [] (inv' !! hash))).
  apply (wp_foreach_bind _ _ _ _ I).
  - exists []. split; [done|]. split; [done|]. split; [done|]. intros hash Hin. by apply elem_of_nil in Hin.
  - intros w' inv' (before & Heq & Hst & _ & Hp). rewrite app_nil_r in Heq. apply wp_ret. split; [done|]. split; [done|].
    intros _ hash. destruct (inventory_of c !! hash) as [l|] eqn:Hl.
    + apply (Hp hash). rewrite <-Heq. apply order_lookup in Hl. by apply (list_elem_of_fmap_2 fst) in Hl.
    + right. unfold entries_of. rewrite Hl. intros e Hin. by apply elem_of_nil in Hin.
  - intros [hash l] rest w' inv' (before & Heq & Hst & Hrest & Hp).
    assert (inventory_of c !! hash = Some l) as Hl by (apply order_lookup; rewrite Heq; set_solver).
    pose proof (order_nodup (inventory_of c)) as Hnd. rewrite Heq, fmap_app in Hnd.
    apply NoDup_app in Hnd as (_ & Hdis & Hnd). apply NoDup_cons in Hnd as [Hnin _].
    assert (inv' !! hash = Some l) as Hl' by (rewrite <-Hl; apply Hrest; csimpl; set_solver).
    eapply wp_mono; [|by apply (clean_hash_wp c desired w w' inv' hash l)].
    intros w2 [inv2|[inv2 e]] Hr; [|by apply wp_ret]. destruct Hr as (Hst2 & Hne & Hpr).
    exists (before ++ [(hash, l)]). rewrite <-app_assoc. split; [done|]. split; [done|]. split.
    + intros h Hh. rewrite Hne by (intros ->; done). apply Hrest. csimpl. set_solver.
    + intros h. rewrite fmap_app. intros [Hb|Hb]%elem_of_app.
      * rewrite Hne; [by apply Hp|]. intros ->. apply (Hdis hash Hb). csimpl. set_solver.
      * csimpl in Hb. apply list_elem_of_singleton in Hb as ->. unfold entries_of. by rewrite Hl.
Qed.

(** ** A whole pass *)
Definition same_spec (c c' : Catalog) : Prop := get_meta c' = get_meta c /\ cat_Sources c' = cat_Sources c.
Lemma same_spec_trans c c1 c2 : same_spec c c1 -> same_spec c1 c2 -> same_spec c c2.
Proof. intros [H1 H2] [H3 H4]. split; congruence. Qed.
Lemma same_but_inventory_spec c c' : same_but_inventory c c' -> same_spec c c'.
Proof. intros (H1 & H2 & _). by split. Qed.
Lemma same_spec_cells c c' : same_spec c c' -> source_cells c' = source_cells c.
Proof.
  intros [H1 H2]. unfold source_cells. rewrite H2. clear H2.
  assert (forall src, cells_of c' src = cells_of c src) as He by (intros src; unfold cells_of; by rewrite (newCatalogSource_meta src c' c)).
  induction (cat_Sources c) as [|src l IH]; [done|]. rewrite !bind_cons. by rewrite He, IH.
Qed.
Lemma same_spec_distinct c c' : same_spec c c' -> distinct_sources c -> distinct_sources c'.
Proof. intros [H1 H2]. unfold distinct_sources, GetName. by rewrite H1, H2. Qed.
Lemma same_spec_desired c c' : same_spec c c' -> desired_inventory c' = desired_inventory c.
Proof.
  intros [H1 H2]. unfold desired_inventory. rewrite H2. clear H2.
  assert (forall d src, add_desired c' d src = add_desired c d src) as He.
  { intros d src. unfold add_desired. by rewrite (newCatalogSource_meta src c' c). }
  generalize (Ok (∅ : inventory)). induction (cat_Sources c) as [|src l IH]; intros d; [done|]. cbn. by rewrite He, IH.
Qed.
Lemma same_spec_orphans c c' : same_spec c c' -> inventory_of c' = inventory_of c -> orphan_cells c' = orphan_cells c.
Proof.
  intros Hs Hi. unfold orphan_cells, GetNamespace. rewrite Hi. destruct Hs as [Hm Hs]. rewrite Hm.
  unfold desired_of. by rewrite (same_spec_desired c c' (conj Hm Hs)).
Qed.
Lemma ready_SetCondition cond c : CondType cond = ReadyCondition ->
  IsReadyTrue (GetConditions (SetCondition now cond c)) = IsTrue cond.
Proof.
  intros Ht. unfold IsReadyTrue. rewrite GetConditions_SetCondition, get_SetConditions, Ht. by rewrite bool_decide_eq_true_2.
Qed.
Lemma same_spec_SetCondition cond c : same_spec c (SetCondition now cond c).
Proof. done. Qed.
Definition pass_post (c : Catalog) (w w' : flux_world) (r : outcome callback_answer) : Prop :=
  only_objects (source_cells c ++ orphan_cells c) w w' /\
  match r with
  | Panics => panic_cause c w'
  | Returns (c', (_, outcome, err)) => same_spec c c' /\
      (outcome = Success <-> IsReadyTrue (GetConditions c') = true) /\
      (outcome = Success -> err = None /\ cat_Sources c <> [] /\ forall src, src ∈ cat_Sources c ->
         exists s, newCatalogSource src c = Ok s /\ provided s w' /\ ready_in s w' /\ recorded c' s)
  end.
Lemma report_post c c' rs errs : same_spec c c' ->
  let '(c'', (_, outcome, err)) := report now c' rs errs in
  same_spec c c'' /\ (outcome = Success <-> IsReadyTrue (GetConditions c'') = true) /\ inventory_of c'' = inventory_of c' /\
  (outcome = Success -> err = None /\ errs = [] /\ Forall (fun r => r = ConditionTrue) rs).
Proof.
  intros Hs. unfold report. destruct (bool_decide (formatCatalogErrors errs <> None) || contains_func rs _) eqn:Hb.
  - split; [done|]. split; [|by split]. unfold cat_SetFalseCondition. rewrite ready_SetCondition by done. done.
  - split; [done|]. split; [unfold cat_SetTrueCondition; by rewrite ready_SetCondition|]. split; [done|]. intros _. split; [done|].
    apply orb_false_elim in Hb as [H1 H2]. split.
    + unfold formatCatalogErrors in H1. destruct errs; [done|]. cbn in H1. by rewrite bool_decide_eq_true_2 in H1.
    + apply Forall_forall. intros r Hr. destruct (decide (r = ConditionTrue)) as [|Hne]; [done|].
      assert (contains_func rs (fun status => negb (bool_decide (status = ConditionTrue))) = true) as Hc; [|congruence].
      apply contains_func_true. exists r. split; [done|]. by rewrite bool_decide_eq_false_2.
Qed.
Lemma verifyStatus_wp c errs w : distinct_sources c ->
  wpc (verifyStatus now c errs) (fun w' '(c', (_, outcome, err)) => w' = w /\ same_spec c c' /\
    (outcome = Success <-> IsReadyTrue (GetConditions c') = true) /\
    (outcome = Success -> err = None /\ errs = [] /\ forall src, src ∈ cat_Sources c ->
       exists s, newCatalogSource src c = Ok s /\ ready_in s w /\ recorded c' s)) w.
Proof.
  intros Hd. unfold verifyStatus. destruct (existing_failure c) as [e|] eqn:He.
  { apply wp_ret. split; [done|]. split; [done|]. split; [|done]. split; [done|]. intros Hr. exfalso. revert He Hr.
    unfold existing_failure, IsReadyTrue. destruct (GetConditionByType _ _) as [cond|]; [|done].
    unfold IsFalse, IsTrue. intros He Ht. apply bool_decide_eq_true in Ht. rewrite Ht in He. done. }
  apply wp_bind. eapply wp_mono; [|by apply verify_sources_wp]. intros w' r [-> Hr].
  destruct r as [[[c' rs] errs']|[]]. destruct Hr as (Hsame & Herrs & Hall). apply wp_ret.
  pose proof (report_post c c' rs errs' (same_but_inventory_spec _ _ Hsame)) as Hrep.
  destruct (report now c' rs errs') as [c'' [[res outcome] err]] eqn:Heq. destruct Hrep as (Hs & Hiff & Hinv & Hsucc).
  split; [done|]. split; [done|]. split; [done|]. intros Ho. destruct (Hsucc Ho) as (-> & -> & Hf).
  split; [done|]. split; [auto|]. intros src Hin. destruct (Hall eq_refl Hf _ Hin) as (s & Hns & Hready & Hrec).
  exists s. split; [done|]. split; [done|]. intros k Hk. destruct (Hrec k Hk) as [msg Hm]. exists msg.
  unfold entry_in in *. unfold inventory_of in Hinv. by rewrite Hinv.
Qed.
Lemma catalog_EnsureCreated_wp c w : wpc (catalog_EnsureCreated now c) (pass_post c w) w.
Proof using inventory_Diff_equal inventory_order_perm.
  unfold catalog_EnsureCreated. cbv zeta. set (c0 := cat_SetUnknownCondition now c).
  assert (same_spec c c0 /\ inventory_of c0 = inventory_of c) as [Hs0 Hi0].
  { unfold c0, cat_SetUnknownCondition. by destruct (GetConditionByType _ _). }
  assert (forall w', only_objects (orphan_cells c0) w w' -> only_objects (source_cells c ++ orphan_cells c) w w') as Horph.
  { intros w' Ho. rewrite (same_spec_orphans c c0) in Ho by done. eapply only_objects_weaken; [|exact Ho]. set_solver. }
  assert (forall c' err reason msg w' outcome, outcome <> Success -> only_objects (source_cells c ++ orphan_cells c) w w' ->
    same_spec c c' ->
    pass_post c w w' (Returns (cat_SetFalseCondition now ReadyCondition reason msg c', (ctrl_done, outcome, err)))) as Hfail.
  { intros c' err reason msg w' outcome Ho Hw Hs. split; [done|]. split; [done|]. unfold cat_SetFalseCondition.
    rewrite ready_SetCondition by done. by destruct outcome. }
  case_bool_decide as Hnil.
  { apply wp_bind. eapply wp_mono; [|apply checkAndCleanInventory_wp]. intros w1 [c1 err] (Hs1 & (Ho1 & _) & _).
    apply wp_ret, Hfail; [done|by apply Horph|]. eapply same_spec_trans; [exact Hs0|by apply same_but_inventory_spec]. }
  destruct (validateSources c0) as [e|] eqn:Hv; [apply wp_ret, Hfail; done|].
  pose proof (validateSources_distinct _ Hv) as Hd0.
  apply wp_bind. eapply wp_mono; [|apply checkAndCleanInventory_wp]. intros w1 [c1 err] (Hs1 & (Ho1 & _) & _).
  pose proof (same_spec_trans _ _ _ Hs0 (same_but_inventory_spec _ _ Hs1)) as Hs01.
  destruct err as [e|]; [apply wp_ret, Hfail; [done|by apply Horph|done]|].
  set (c2 := cat_SetProgressingReason now c1).
  assert (same_spec c c2) as Hs2.
  { eapply same_spec_trans; [exact Hs01|]. unfold c2, cat_SetProgressingReason. by destruct (GetConditionByType _ _). }
  assert (forall src, newCatalogSource src c2 = newCatalogSource src c) as Hnew.
  { intros src. apply newCatalogSource_meta. apply Hs2. }
  assert (cat_Sources c2 = cat_Sources c) as Hsrc by apply Hs2.
  assert (distinct_sources c2) as Hd2.
  { eapply same_spec_distinct; [|exact Hd0]. destruct Hs0, Hs2. split; congruence. }
  apply wp_bind. eapply wp_mono; [|by apply reconcile_sources_wp]. intros w2 r [Ho2 Hr].
  rewrite (same_spec_cells c c2) in Ho2 by done.
  assert (only_objects (source_cells c ++ orphan_cells c) w w2) as Ho.
  { eapply only_objects_trans; [by apply Horph|]. eapply only_objects_weaken; [|exact Ho2]. set_solver. }
  destruct r as [[c3 errs]|[]].
  - destruct Hr as [Hs3 Hp]. apply wp_bind.
    eapply wp_mono; [|apply verifyStatus_wp; eapply same_spec_distinct; [|exact Hd2]; by apply same_but_inventory_spec].
    intros w3 [c4 [[res outcome] err]] (-> & Hs4 & Hiff & Hsucc). apply wp_ret. split; [done|].
    pose proof (same_spec_trans _ _ _ Hs2 (same_but_inventory_spec _ _ Hs3)) as Hs23.
    split; [by eapply same_spec_trans|]. split; [done|]. intros Hsu. destruct (Hsucc Hsu) as (-> & -> & Hall).
    split; [done|]. split; [rewrite <-Hsrc; destruct Hs0 as [_ H0]; rewrite Hsrc, <-H0; done|].
    intros src Hin. destruct (Hp eq_refl src) as (s & Hns & Hpr); [by rewrite Hsrc|]. rewrite Hnew in Hns.
    exists s. split; [done|]. split; [done|]. destruct (Hall src) as (s' & Hns' & Hready & Hrec); [by rewrite (proj2 Hs23)|].
    rewrite (same_sources _ _ _ Hs3), Hnew, Hns in Hns'. by injection Hns' as <-.
  - apply wp_ret. split; [done|]. destruct Hr as (src & s & a & Hin & Hns & Hr). exists src, s, a.
    rewrite Hsrc in Hin. rewrite Hnew in Hns. done.
Qed.

(** ** Suspension *)
Definition is_suspended (k : fluxKind) : flux_object k -> Prop :=
  match k with
  | FGitRepository => fun o => git_Suspend (git_Spec o) = true
  | FKustomization => fun o => ku_Suspend (ku_Spec o) = true
  | FArtifactGenerator => fun o => GetAnnotations o !! GeneratorReconcileAnnotation = Some DisabledValue
  | _ => fun _ => True
  end.
Definition suspended (k : fluxKind) (key : objkey) (w : flux_world) : Prop :=
  forall o, lookup_flux k key w = Some o -> is_suspended k o.
Lemma suspended_accepted k m o' : is_suspended k m -> accepted k m o' -> is_suspended k o'.
Proof using Type.
  intros Hm (_ & _ & Ha & _ & Hs). destruct k; cbn in *; try done; try by rewrite Hs. by rewrite Ha.
Qed.
Definition suspend_post (k : fluxKind) (key : objkey) (w w' : flux_world) (err : option error) : Prop :=
  only_objects [(k, key)] w w' /\ (forall k' key', suspended k' key' w -> suspended k' key' w') /\
  (err = None -> suspended k key w').
Lemma suspend_object_wp k suspend name ns w :
  (forall o, is_suspended k (suspend o)) -> (forall o : flux_object k, key_of (suspend o) = key_of o) ->
  wpc (suspend_object k suspend name ns) (suspend_post k (mk_key ns name) w) w.
Proof using Type.
  intros Hsus Hkey. unfold suspend_object. set (key := mk_key ns name). apply wp_bind. unfold flux at 1. wp_step.
  cbn in Hx. destruct Hx as [-> Hx]. destruct x as [o|e].
  - destruct Hx as [Hl Hk]. unfold flux. wp_step. cbn in Hx. unfold upserted in Hx. rewrite Hk in Hx.
    destruct x as [e|]; [by subst|]. destruct Hx as (m & o' & [= <-] & _ & Hacc & ->).
    assert (is_suspended k o') as Ho' by (eapply suspended_accepted; [apply Hsus|exact Hacc]).
    assert (suspended k key (insert_flux k key o' w)) as Hnew.
    { intros o2. rewrite lookup_insert_flux. by intros [= <-]. }
    split; [apply only_objects_insert; constructor|]. split; [|done]. intros k' key' Hs.
    destruct (decide ((k', key') = (k, key))) as [[= -> ->]|Hne]; [done|].
    intros o2. rewrite lookup_insert_flux_ne by done. apply Hs.
  - destruct (is_not_found (Some e)) eqn:He; apply wp_ret.
    + split; [done|]. split; [done|]. intros _ o Hl. specialize (Hx He). change (lookup_flux k key w = None) in Hx. congruence.
    + by split.
Qed.
Definition supported (e : SourceStatus) : Prop := clean_action_of (ss_Kind e) <> CleanSkip.
(** The objects an entry stands for: none for an ExternalArtifact *)
Definition inventory_cell (c : Catalog) (e : SourceStatus) : list (fluxKind * objkey) := entry_cell (GetNamespace c) [] e.
Definition inventory_entries (c : Catalog) : list SourceStatus := inventory_order (inventory_of c) ≫= snd.
Lemma elem_of_inventory_entries c e :
  e ∈ inventory_entries c <-> exists hash l, inventory_of c !! hash = Some l /\ e ∈ l.
Proof using inventory_order_perm.
  unfold inventory_entries. rewrite list_elem_of_bind. split.
  - intros ([hash l] & Hin & Ho). apply order_lookup in Ho. eauto.
  - intros (hash & l & Hl & Hin). exists (hash, l). split; [done|]. by apply order_lookup.
Qed.
Definition suspend_entry_post (c : Catalog) (errs : list error) (e : SourceStatus) (w w' : flux_world)
    (r : list error + Empty_set) : Prop :=
  only_objects (inventory_cell c e) w w' /\ (forall k key, suspended k key w -> suspended k key w') /\
  match r with
  | inr _ => False
  | inl errs' => (exists err, errs' = errs ++ [err]) \/
      errs' = errs /\ supported e /\ forall cell, cell ∈ inventory_cell c e -> suspended cell.1 cell.2 w'
  end.
Lemma suspend_entry_wp c errs e w :
  wpc (suspend_entry (GetNamespace c) errs e) (suspend_entry_post c errs e w) w.
Proof using Type.
  unfold suspend_entry. apply wp_bind.
  assert (forall k p w, clean_action_of (ss_Kind e) = CleanDelete k ->
    wpc p (suspend_post k (mk_key (GetNamespace c) (ss_Name e)) w) w ->
    wpc p (fun w' err => wpc (mret (inl (match err with Some er => errs ++ [er] | None => errs end)))
      (suspend_entry_post c errs e w) w') w) as Hdel.
  { intros k p w0 Ha Hp. eapply wp_mono; [|exact Hp]. intros w' err (Ho & Hk & Hs). apply wp_ret.
    assert (inventory_cell c e = [(k, mk_key (GetNamespace c) (ss_Name e))]) as Hcell.
    { unfold inventory_cell, entry_cell. cbn. by rewrite Ha. }
    split; [by rewrite Hcell|]. split; [done|]. destruct err as [er|]; [left; by eexists|]. right. split; [done|].
    split; [unfold supported; by rewrite Ha|]. rewrite Hcell. intros cell ->%list_elem_of_singleton. by apply Hs. }
  case_bool_decide as H1; [apply (Hdel FGitRepository); [by rewrite H1|by apply suspend_object_wp]|].
  case_bool_decide as H2; [apply (Hdel FKustomization); [by rewrite H2|by apply suspend_object_wp]|].
  case_bool_decide as H3.
  { apply (Hdel FArtifactGenerator); [by rewrite H3|]. apply suspend_object_wp; [|done].
    intros o. exact (lookup_insert_eq (GetAnnotations (o : ArtifactGenerator)) _ _). }
  case_bool_decide as H4; apply wp_ret, wp_ret; (split; [done|]); (split; [done|]).
  - right. split; [done|]. unfold supported, clean_action_of, inventory_cell, entry_cell. cbn. rewrite H4. split; [done|].
    intros cell Hin. by apply elem_of_nil in Hin.
  - left. by eexists.
Qed.
Lemma catalog_EnsureSuspended_wp c w :
  wpc (catalog_EnsureSuspended c) (fun w' '(c', (_, err)) => c' = c /\
    only_objects (inventory_entries c ≫= inventory_cell c) w w' /\
    (err = None -> forall e, e ∈ inventory_entries c -> supported e /\
       forall cell, cell ∈ inventory_cell c e -> suspended cell.1 cell.2 w')) w.
Proof using inventory_order_perm.
  clear inventory_Diff_equal. unfold catalog_EnsureSuspended. fold (inventory_of c). fold (inventory_entries c).
  set (I := fun (rest : list SourceStatus) (w' : flux_world) (errs : list error) => exists before,
    inventory_entries c = before ++ rest /\ only_objects (inventory_entries c ≫= inventory_cell c) w w' /\
    (errs = [] -> forall e, e ∈ before -> supported e /\ forall cell, cell ∈ inventory_cell c e -> suspended cell.1 cell.2 w')).
  apply (wp_foreach_bind _ _ _ _ I).
  - exists []. split; [done|]. split; [done|]. intros _ e Hin. by apply elem_of_nil in Hin.
  - intros w' errs (before & Heq & Ho & Hs). rewrite app_nil_r in Heq. rewrite <-Heq in Hs.
    destruct errs as [|er errs]; apply wp_ret; (split; [done|]); split; try done. by intros _; apply Hs.
  - intros e rest w' errs (before & Heq & Ho & Hs). eapply wp_mono; [|apply suspend_entry_wp].
    intros w'' r (Ho' & Hk & Hr). destruct r as [errs'|[]]. exists (before ++ [e]). rewrite <-app_assoc. split; [done|]. split.
    + eapply only_objects_trans; [exact Ho|]. eapply only_objects_weaken; [|exact Ho'].
      intros cell Hc. apply list_elem_of_bind. exists e. split; [done|]. rewrite Heq. set_solver.
    + intros ->. destruct Hr as [[er Her]|(<- & Hsup & Hcells)]; [by destruct errs|].
      intros e' [Hb| ->%list_elem_of_singleton]%elem_of_app; [|done]. destruct (Hs eq_refl _ Hb) as [H1 H2].
      split; [done|]. intros cell Hin. by apply Hk, H2.
Qed.

(** The entries a clean-up of four kinds removes first and second *)
Lemma delete_others e (l : list SourceStatus) :
  Forall (fun e' => ss_Kind e' <> ss_Kind e) l -> delete_func (is_entry (ss_Kind e) (ss_Name e)) l = l.
Proof using Type.
  induction 1 as [|e' l He _ IH]; [done|]. unfold delete_func in *. cbn [List.filter].
  destruct (is_entry _ _ e') eqn:Ht; [by apply is_entry_true in Ht as [H _]|]. cbn. by rewrite IH.
Qed.
Lemma delete_same e (l : list SourceStatus) :
  delete_func (is_entry (ss_Kind e) (ss_Name e)) (e :: l) = delete_func (is_entry (ss_Kind e) (ss_Name e)) l.
Proof using Type.
  unfold delete_func. cbn. assert (is_entry (ss_Kind e) (ss_Name e) e = true) as -> by by apply is_entry_true. done.
Qed.
Lemma remove_first e (l : list SourceStatus) : Forall (fun e' => ss_Kind e' <> ss_Kind e) l ->
  remove_entry e (e :: l, e :: l) = (l, l ++ [zero_entry]).
Proof using Type.
  intros Hl. unfold remove_entry, entries_array. cbn [fst snd]. rewrite delete_same, delete_others by done. cbn [length].
  rewrite Nat.sub_succ_l, Nat.sub_diag by done. cbn [replicate]. by rewrite drop_ge, app_nil_r by (cbn; lia).
Qed.
Lemma remove_second e e1 (l z : list SourceStatus) : Forall (fun e' => ss_Kind e' <> ss_Kind e) (e1 :: l) ->
  remove_entry e (e1 :: e :: l, (e1 :: e :: l) ++ z) = (e1 :: l, (e1 :: l) ++ zero_entry :: z).
Proof using Type.
  intros Hl. apply Forall_cons in Hl as [H1 Hl]. unfold remove_entry, entries_array. cbn [fst snd].
  assert (delete_func (is_entry (ss_Kind e) (ss_Name e)) (e1 :: e :: l) = e1 :: l) as ->.
  { unfold delete_func. cbn [List.filter]. destruct (is_entry _ _ e1) eqn:Ht; [by apply is_entry_true in Ht as [H _]|].
    cbn [negb]. f_equal. etransitivity; [apply (delete_same e l)|by apply delete_others]. }
  f_equal. rewrite drop_app_length. f_equal. cbn [length]. rewrite Nat.sub_succ_l, Nat.sub_diag by done. done.
Qed.

(** ** Properties *)

(** C26: What Ready of a Catalog means.  A creating pass answers Success exactly when it leaves
    the Ready condition True, and then, whatever failed on the way: no error is returned, and
    every source has its four Flux objects stored as specified - the GitRepository with URL,
    reference, credentials and provider of the source, unsuspended; the ArtifactGenerator that
    copies its resources; the ExternalArtifact with the label of the Catalog; the Kustomization
    that applies that artifact with the overrides as patches, under the service account and in
    the namespace of the organization - each controlled by the Catalog, each read to be Ready,
    and each recorded as such in the inventory.  The pass panics only on an ExternalArtifact
    that is Ready without an artifact, for a source that overrides options. *)
Theorem catalog_EnsureCreated_provides c w :
  wpc (catalog_EnsureCreated now c) (fun w' r =>
    match r with
    | Panics => exists src s a, src ∈ cat_Sources c /\ newCatalogSource src c = Ok s /\ hasOptionOverrides s = true /\
        lookup_flux FExternalArtifact (object_key s FExternalArtifact) w' = Some a /\ ea_Artifact a = None
    | Returns (c', (_, outcome, err)) =>
        (outcome = Success <-> IsReadyTrue (GetConditions c') = true) /\
        (outcome = Success -> err = None /\ cat_Sources c <> [] /\ forall src, src ∈ cat_Sources c ->
           exists s, newCatalogSource src c = Ok s /\ provided s w' /\ ready_in s w' /\ recorded c' s)
    end) w.
Proof using inventory_Diff_equal inventory_order_perm.
  eapply wp_mono; [|apply catalog_EnsureCreated_wp]. intros w' r [_ H]. destruct r as [[c' [[res outcome] err]]|]; [|exact H].
  destruct H as (_ & H1 & H2). by split.
Qed.

(** A pass over a Catalog touches nothing but its own: whatever the calls answer, in every
    outcome the only Flux objects that may differ afterwards are the four of each source it
    lists and those its inventory records and no source asks for any more, all of them in the
    namespace of the Catalog; its metadata and sources stay. *)
Theorem catalog_EnsureCreated_touches_own c w :
  wpc (catalog_EnsureCreated now c) (fun w' r =>
    only_objects (source_cells c ++ orphan_cells c) w w' /\
    (forall cell, cell ∈ source_cells c ++ orphan_cells c -> key_namespace cell.2 = GetNamespace c) /\
    match r with Returns (c', _) => get_meta c' = get_meta c /\ cat_Sources c' = cat_Sources c | Panics => True end) w.
Proof using inventory_Diff_equal inventory_order_perm.
  eapply wp_mono; [|apply catalog_EnsureCreated_wp]. intros w' r [Ho H]. split; [done|]. split.
  - intros cell [Hc|Hc]%elem_of_app; apply list_elem_of_bind in Hc as (x & Hx & Hin).
    + unfold cells_of in Hx. destruct (newCatalogSource x c) as [s|] eqn:Hs; [|by apply elem_of_nil in Hx].
      destruct (newCatalogSource_facts _ _ _ Hs) as (_ & _ & Hm & _). destruct cell as [k key].
      apply elem_of_cells in Hx as [_ ->]. cbn. unfold s_namespace. by rewrite Hm.
    + unfold list_cells in Hx. apply list_elem_of_bind in Hx as (e & Hx & _). unfold entry_cell in Hx.
      destruct (is_desired _ _); [by apply elem_of_nil in Hx|].
      destruct (clean_action_of _); try by apply elem_of_nil in Hx. by apply list_elem_of_singleton in Hx as ->.
  - destruct r as [[c' [[res outcome] err]]|]; [|done]. by destruct H as [[H1 H2] _].
Qed.

(** C27: The clean-up of the inventory.  Whatever fails, what stays of each list is a
    sub-list of it, and an entry goes only when no source asks for its object, its kind is
    one of the four, and its object is deleted or waiting for its finalizers; only such objects
    change.  A clean-up that reports no error shortens every list that has such an entry - it
    may leave others, because it skips entries. *)
Theorem checkAndCleanInventory_sound c w :
  wpc (checkAndCleanInventory c) (fun w' '(c', err) =>
    only_objects (orphan_cells c) w w' /\
    (forall hash, entries_of c' hash `sublist_of` entries_of c hash /\
       forall e, e ∈ entries_of c hash -> e ∉ entries_of c' hash ->
         removable (desired_of c hash) e = true /\
         forall cell, cell ∈ entry_cell (GetNamespace c) (desired_of c hash) e -> gone cell.1 cell.2 w') /\
    (err = None -> forall hash, (exists e, e ∈ entries_of c hash /\ removable (desired_of c hash) e = true) ->
       length (entries_of c' hash) < length (entries_of c hash))) w.
Proof using inventory_Diff_equal inventory_order_perm.
  eapply wp_mono; [|apply checkAndCleanInventory_wp]. intros w' [c' err] (_ & (Ho & _ & Hc) & Hp).
  split; [done|]. split; [exact Hc|]. intros He hash (e & Hin & Hr). destruct (Hp He hash) as [Hlt|Hno]; [done|].
  by rewrite Hno in Hr.
Qed.

(** A source taken out of a Catalog is not cleaned up by one pass.  Of its four recorded
    objects the clean-up deletes the GitRepository and forgets the ExternalArtifact; the
    ArtifactGenerator and the Kustomization stay stored, untouched, and recorded, because the
    loop ranges over the array its own removals compact. *)
Theorem removed_source_half_cleaned ns desired git gen art kus w :
  let inv := [mk_source_status GitRepositoryKind git.1.1 git.1.2 git.2; mk_source_status ArtifactGeneratorKind gen.1.1 gen.1.2 gen.2;
              mk_source_status ExternalArtifactKind art.1.1 art.1.2 art.2; mk_source_status KustomizationKind kus.1.1 kus.1.2 kus.2] in
  Forall (fun e => is_desired desired e = false) inv ->
  wpc (clean_list ns desired inv) (fun w' r =>
    only_objects [(FGitRepository, mk_key ns git.1.1)] w w' /\
    match r with
    | inl (l, _) => gone FGitRepository (mk_key ns git.1.1) w' /\
        l = [mk_source_status ArtifactGeneratorKind gen.1.1 gen.1.2 gen.2; mk_source_status KustomizationKind kus.1.1 kus.1.2 kus.2]
    | inr (l, _) => l = inv
    end) w.
Proof using inventory_Diff_equal.
  clear inventory_order_perm. intros inv Hd. unfold clean_list. case_bool_decide as Hdiff.
  { exfalso. apply inventory_Diff_equal in Hdiff. rewrite Forall_forall in Hd.
    set (e := mk_source_status GitRepositoryKind git.1.1 git.1.2 git.2). assert (e ∈ inv) as Hin by (unfold inv; set_solver).
    specialize (Hd _ Hin). rewrite Hdiff in Hin. unfold is_desired in Hd.
    assert (existsb (is_entry (ss_Kind e) (ss_Name e)) desired = true); [|congruence].
    apply contains_func_true. exists e. split; [done|]. by apply is_entry_true. }
  change (seq 0 (length inv)) with [0; 1; 2; 3]. subst inv. cbn [foreach]. apply wp_bind.
  apply Forall_cons in Hd as [Hd1 Hd]. apply Forall_cons in Hd as [_ Hd]. apply Forall_cons in Hd as [Hd3 _].
  apply (clean_entry_delete _ _ _ _ (mk_source_status GitRepositoryKind git.1.1 git.1.2 git.2) FGitRepository); try done; cbn [ss_Name fst].
  intros w1 Ho Hg. rewrite remove_first by (by repeat constructor). cbn [foreach]. apply wp_bind.
  rewrite (clean_entry_forget _ _ _ _ (mk_source_status ExternalArtifactKind art.1.1 art.1.2 art.2)) by done.
  apply wp_ret. rewrite remove_second by (by repeat constructor). cbn [foreach]. apply wp_bind.
  rewrite (clean_entry_skip _ _ _ _ zero_entry) by done.
  apply wp_ret. cbn [foreach]. apply wp_bind. rewrite (clean_entry_skip _ _ _ _ zero_entry) by done.
  by apply wp_ret, wp_ret.
Qed.

(** Suspension of a Catalog.  When it reports no error, every entry of the inventory is of
    a kind it knows and the stored object of every entry is suspended - the GitRepository and
    the Kustomization by their specification, the ArtifactGenerator by its annotation - while
    nothing but the objects of the inventory was touched and the Catalog is as before. *)
Theorem catalog_EnsureSuspended_suspends c w :
  wpc (catalog_EnsureSuspended c) (fun w' '(c', (_, err)) => c' = c /\
    only_objects (inventory_entries c ≫= inventory_cell c) w w' /\
    (err = None -> forall hash l e, inventory_of c !! hash = Some l -> e ∈ l ->
       supported e /\ forall k, clean_action_of (ss_Kind e) = CleanDelete k ->
         suspended k (mk_key (GetNamespace c) (ss_Name e)) w')) w.
Proof using inventory_order_perm.
  clear inventory_Diff_equal. eapply wp_mono; [|apply catalog_EnsureSuspended_wp]. intros w' [c' [res err]] (-> & Ho & Hs).
  split; [done|]. split; [done|]. intros He hash l e Hl Hin.
  destruct (Hs He e) as [H1 H2]; [apply elem_of_inventory_entries; eauto|]. split; [done|]. intros k Hk.
  apply (H2 (k, mk_key (GetNamespace c) (ss_Name e))). unfold inventory_cell, entry_cell. cbn. rewrite Hk. set_solver.
Qed.
End environment.

(** Which specifications are accepted: exactly those whose repositories can all be parsed
    and whose sources have pairwise different hashes of catalog, repository and reference, so
    that no two sources share a Flux object. *)
Theorem validateSources_spec {CLibs : CatalogLibs} (c : Catalog) :
  (validateSources c = None <-> distinct_sources c) /\
  (validateSources c = None -> forall i j src src' s s' k, cat_Sources c !! i = Some src -> cat_Sources c !! j = Some src' -> i <> j ->
     newCatalogSource src c = Ok s -> newCatalogSource src' c = Ok s' -> k ∈ catalog_kinds -> object_key s k <> object_key s' k).
Proof.
  assert (validateSources c = None -> distinct_sources c) as Hvd by apply validateSources_distinct.
  split; [split; [done|]|].
  - intros (hs & Hf & Hnd). unfold validateSources. pose proof (validate_fold (GetName c) (cat_Sources c) ∅) as H.
    destruct (fold_left _ _ _) as [seen|e]; [done|]. exfalso.
    destruct H as [(src & e' & Hin & He)|[(src & h & _ & _ & Hh)|(i & j & src & src' & h & Hij & Hi & Hj & Hh & Hh')]].
    + apply list_elem_of_lookup in Hin as [i Hi]. destruct (Forall2_lookup_l _ _ _ _ _ Hf Hi) as (h & _ & Hh). congruence.
    + by apply elem_of_empty in Hh.
    + destruct (Forall2_lookup_l _ _ _ _ _ Hf Hi) as (h1 & Hi1 & He1). destruct (Forall2_lookup_l _ _ _ _ _ Hf Hj) as (h2 & Hj2 & He2).
      assert (h1 = h2) as -> by congruence. assert (i = j) by (by eapply NoDup_lookup). lia.
  - intros (hs & Hf & Hnd)%Hvd i j src src' s s' k Hi Hj Hij (Hs & _ & _ & _ & Hn)%newCatalogSource_facts
      (Hs' & _ & _ & _ & Hn')%newCatalogSource_facts Hk Heq. injection Heq as _ Heq. rewrite Hn, Hn' in Heq by done.
    do 2 apply append_inj_l in Heq.
    destruct (Forall2_lookup_l _ _ _ _ _ Hf Hi) as (h1 & Hi1 & He1). destruct (Forall2_lookup_l _ _ _ _ _ Hf Hj) as (h2 & Hj2 & He2).
    apply Hij. eapply NoDup_lookup; [exact Hnd|exact Hi1|]. congruence.
Qed.

(** The hashed text joins owner and repository with the dash they may contain: two different
    repositories of one host at one reference are refused as duplicates. *)
Lemma ambiguous_sources_refused {CLibs : CatalogLibs} c a b before src1 src2 host owner middle repo :
  cat_Sources c = before ++ src1 :: a ++ src2 :: b ->
  GetOwnerRepoInfo catalog_HostPath (src_Repository src1) = Ok (host, owner, middle +:+ "-" +:+ repo) ->
  GetOwnerRepoInfo catalog_HostPath (src_Repository src2) = Ok (host, owner +:+ "-" +:+ middle, repo) ->
  GetRefValue src1 = GetRefValue src2 -> validateSources c <> None.
Proof.
  intros Hs H1 H2 Hr Hv. apply validateSources_distinct in Hv as (hs & Hf & Hnd). rewrite Hs in Hf.
  apply Forall2_app_inv_l in Hf as (hs1 & hs2 & _ & Hf2 & ->). inversion Hf2 as [|? h1 ? hs3 Hh1 Hf3]; subst.
  apply Forall2_app_inv_l in Hf3 as (hs4 & hs5 & _ & Hf5 & ->). inversion Hf5 as [|? h2 ? hs6 Hh2 _]; subst.
  unfold source_hash in Hh1, Hh2. rewrite H1 in Hh1. rewrite H2 in Hh2. cbn in Hh1, Hh2. rewrite Hr in Hh1.
  unfold source_text in *. rewrite !append_assoc in Hh1, Hh2. cbn [String.append] in Hh1, Hh2.
  apply NoDup_app in Hnd as (_ & _ & Hnd). apply NoDup_cons in Hnd as [Hn _]. apply Hn.
  assert (h1 = h2) as -> by congruence. set_solver.
Qed.


(** ** A concrete Catalog *)
Module CatalogRun.
#[export] Instance run_catalog_libs : CatalogLibs := {|
  json_operations ops := Ok (join "," (op_Path <$> ops));
  json_ByteMap raw := Ok {["manifest" := raw]};
  catalog_HostPath s :=
    match cut_prefix s "https://github.com" with
    | Some path => Ok ("github.com", path)
    | None => Err (new_error "not a URL")
    end;
  loadLocalManifest _ := Ok [];
  convert_definition _ := Err (new_error "not a definition");
  catalog_SetControllerReference owner _ := Ok [mk_ref "Catalog" (om_name owner) (om_uid owner) true];
  manifests_order := map_to_list;
  infos_order := map_to_list;
  inventory_Diff l l' := if bool_decide (l = l') then "" else "different";
  NewAggregate errs := new_error (join ", " (err_msg <$> errs));
  inventory_order := map_to_list;
  catalog_StoragePath := "/tmp" |}.
Lemma run_Diff l l' : inventory_Diff l l' = "" -> l ≡ₚ l'.
Proof. cbn. case_bool_decide; by subst. Qed.
Lemma run_order m : inventory_order m ≡ₚ map_to_list m.
Proof. done. Qed.
#[local] Existing Instance CacheRun.libs.

Definition store X (e : catalogE X) (w : flux_world) : option (X * flux_world) :=
  match e in catalogE X return option (X * flux_world) with
  | CatFlux e => FluxRun.store_flux w _ e
  | CatArtifact _ => None
  | CatGetSecret _ => Some (Err (mk_error NotFound "not found"), w)
  end.
Lemma catalog_store_allowed w X e x w' : store X e w = Some (x, w') -> catalog_step ∅ w X e x w'.
Proof.
  destruct e as [X e|X e|key]; cbn [store catalog_step]; [apply FluxRun.store_flux_allowed|done|by intros [= <- <-]].
Qed.

Definition a_source : CatalogSource :=
  mk_source "https://github.com/acme/plugins.git" ["plugins/*.yaml"] None None [mk_overrides "perses" "perses-acme" "" []] None.
Definition catalog_of (sources : list CatalogSource) (inv : inventory) : Catalog :=
  mk_catalog (named "cat" "acme") sources (mk_catalog_status [] inv "").
Definition hash : string := HashValue "cat-github-com-acme-plugins-main".
Abbreviation at_name prefix := (mk_key "acme" (prefix +:+ "-" +:+ hash)).
Definition ready : gmap string MetaCondition := {["Ready" := mk_mc "True" 0 "Succeeded" "ready"]}.
Definition external : ExternalArtifact :=
  mk_external (mk_tm "source.toolkit.fluxcd.io" "v1" "ExternalArtifact")
    (mk_meta ("artifact-" +:+ hash) "acme" "uid" 0 ∅ ∅ [] [] None) (Some ("https://flux/a.tar.gz", "d1")) ready.
(** The objects as Flux left them: ready *)
Abbreviation start := (mk_flux_world
  {[at_name "repository" := mk_git no_type (named ("repository-" +:+ hash) "acme") (mk_git_spec "" 0 None "" true None) ready]}
  {[at_name "generator" := mk_generator no_type (named ("generator-" +:+ hash) "acme") [] [] ready]}
  {[at_name "artifact" := external]}
  {[at_name "kustomize" := mk_ku no_type (named ("kustomize-" +:+ hash) "acme") NewKustomizationSpecBuilder ready]} ∅ ∅).
Abbreviation created := (attempt store (catalog_EnsureCreated 7 (catalog_of [a_source] ∅)) start).
Definition succeeded (r : option (outcome callback_answer * flux_world)) : bool :=
  match r with Some (Returns (_, (_, Success, None)), _) => true | _ => false end.
Lemma catalog_created_succeeds : succeeded created = true.
Proof. by vm_compute. Qed.
Lemma catalog_EnsureCreated_provides_witness : exists c' w', IsReadyTrue (GetConditions c') = true /\
  exists s, newCatalogSource a_source (catalog_of [a_source] ∅) = Ok s /\ provided ∅ s w' /\ ready_in s w' /\ recorded c' s.
Proof.
  pose proof catalog_created_succeeds as Hsuc. destruct created as [[[[c' [[res outcome] err]]|] w']|] eqn:Hc; [|done|done].
  apply (exec_attempt (catalog_step ∅) store) in Hc; [|apply catalog_store_allowed].
  pose proof (wp_exec _ _ _ _ _ _ (catalog_EnsureCreated_provides ∅ 7 run_Diff run_order _ _) Hc) as [Hready Hall].
  assert (outcome = Success) as -> by (destruct outcome; [done|discriminate Hsuc|discriminate Hsuc]).
  exists c', w'. split; [by apply Hready|]. destruct (Hall eq_refl) as (_ & _ & H). apply (H a_source). constructor.
Defined.
Lemma catalog_EnsureCreated_touches_own_witness : exists w' r,
  exec (catalog_step ∅) (catalog_EnsureCreated 7 (catalog_of [a_source] ∅)) start r w' /\
  only_objects (source_cells (catalog_of [a_source] ∅)) start w'.
Proof.
  pose proof catalog_created_succeeds as Hsuc. destruct created as [[r w']|] eqn:Hc; [|done].
  apply (exec_attempt (catalog_step ∅) store) in Hc; [|apply catalog_store_allowed]. exists w', r. split; [done|].
  pose proof (wp_exec _ _ _ _ _ _ (catalog_EnsureCreated_touches_own ∅ 7 run_Diff run_order _ _) Hc) as [Ho _].
  eapply only_objects_weaken; [|exact Ho]. unfold orphan_cells. cbn. by rewrite app_nil_r.
Defined.
Definition old_entry (kind prefix : string) : SourceStatus := mk_source_status kind (prefix +:+ "-1") "True" "".
Definition old_inventory : inventory :=
  {["old" := [old_entry GitRepositoryKind "repository"; old_entry ArtifactGeneratorKind "generator";
              old_entry ExternalArtifactKind "artifact"; old_entry KustomizationKind "kustomize"]]}.
Lemma checkAndCleanInventory_sound_witness :
  wp (catalog_step ∅) (checkAndCleanInventory (catalog_of [a_source] old_inventory))
    (fun w' '(c', err) => err = None -> length (entries_of c' "old") < 4) start.
Proof.
  eapply wp_mono; [|apply (checkAndCleanInventory_sound ∅ run_Diff run_order (catalog_of [a_source] old_inventory) start)].
  intros w' [c' err] (_ & _ & H) He. apply (H He "old").
  exists (old_entry GitRepositoryKind "repository"). split; [by left|by vm_compute].
Defined.
Lemma removed_source_half_cleaned_witness : forall w,
  wp (catalog_step ∅) (clean_list "acme" [] (default [] (old_inventory !! "old")))
    (fun w' r => match r with inl (l, _) => length l = 2 | inr _ => True end) w.
Proof.
  intros w. eapply wp_mono; [|apply (removed_source_half_cleaned ∅ run_Diff "acme" [] ("repository-1", "True", "")
    ("generator-1", "True", "") ("artifact-1", "True", "") ("kustomize-1", "True", "") w ltac:(by repeat constructor))].
  intros w' [[l arr]|]; [|done]. by intros [_ [_ ->]].
Defined.
Lemma catalog_EnsureSuspended_suspends_witness : forall w,
  wp (catalog_step ∅) (catalog_EnsureSuspended (catalog_of [] old_inventory))
    (fun w' '(_, (_, err)) => err = None -> suspended FGitRepository (mk_key "acme" "repository-1") w') w.
Proof.
  intros w. eapply wp_mono; [|apply (catalog_EnsureSuspended_suspends ∅ run_order (catalog_of [] old_inventory) w)].
  intros w' [c' [res err]] (_ & _ & H) He.
  destruct (H He "old" _ (old_entry GitRepositoryKind "repository") (lookup_singleton_eq _ _)) as [_ Hs]; [by left|].
  by apply Hs.
Defined.
Lemma validateSources_spec_witness :
  validateSources (catalog_of [a_source] ∅) = None /\ distinct_sources (catalog_of [a_source] ∅).
Proof.
  assert (validateSources (catalog_of [a_source] ∅) = None) as H by by vm_compute. split; [exact H|].
  by apply (validateSources_spec (catalog_of [a_source] ∅)).
Defined.
End CatalogRun.
