(* ===== verification/PluginController.v ===== *)
(** * PluginController: [internal/controller/plugin/plugin_controller.go],
      [plugin_controller_flux.go], [oci_mirror.go] and [util.go]

    The controller of a Plugin.  It computes the option values, writes the Flux
    [HelmRelease] that installs the chart, reports what Flux made of it as the status
    of the Plugin, and on deletion waits until Flux has uninstalled the release.

    Everything the controller asks of others is a call of [fluxE]; what is third-party
    code besides enters through [PluginLibs].  [XPanic] is the dereference of a nil
    pointer.  Metrics and logs have no model. *)
From S2P Require Import Prelude Effects Conditions Meta ApiTypes Lifecycle ClientUtil PluginTypes PluginDefinitions HelmValues PluginPreset OciMirror KubeConfig ServiceProxy Tracking HelmRelease ExposedServices.

(** ** Conditions and reasons *)
Definition HelmReleaseCreatedCondition : string := "HelmReleaseCreated".
Definition ExposedServicesSyncedCondition : string := "ExposedServicesSynced".
Definition HelmReleaseDeployedCondition : string := "HelmReleaseDeployed".
Definition ExposedServicesDisabledReason : string := "ExposedServicesDisabled".
Definition PluginDefinitionNotAvailableReason : string := "PluginDefinitionNotAvailable".
Definition PluginDefinitionNotBackedByHelmChartReason : string := "PluginDefinitionNotBackedByHelmChart".
Definition HelmUninstallFailedReason : string := "HelmUninstallFailed".
Definition OptionValueResolutionFailedReason : string := "OptionValueResolutionFailed".
Definition PluginOptionValueInvalidReason : string := "PluginOptionValueInvalid".
Definition PluginHelmTemplateFailedReason : string := "PluginHelmTemplateFailed".
Definition FluxHelmReleaseConfigInvalidReason : string := "FluxHelmReleaseConfigInvalid".
Definition FluxHelmReleaseStalledReason : string := "FluxHelmReleaseStalled".
Definition ClusterAccessFailedReason : string := "ClusterAccessFailed".
Definition ImageReplicationFailedReason : string := "ImageReplicationFailed".
Definition LabelKeyUIPlugin : string := "greenhouse.sap/ui-plugin".
Definition LabelKeyPluginExposedServices : string := "greenhouse.sap/plugin-exposed-services".

Definition plugin_exposedConditions : list string :=
  [ReadyCondition; HelmReleaseCreatedCondition; HelmReleaseDeployedCondition;
   ExposedServicesSyncedCondition].
Definition deprecatedConditions : list string :=
  ["StatusUpToDate"; "WorkloadReady"; "HelmChartTestSucceeded"; "ClusterAccessReady";
   "HelmReconcileFailed"; "HelmDriftDetected"; "WaitingForDependencies"; "RetriesExhausted"].

Definition set_release_status (v : option HelmReleaseStatus) (p : Plugin) : Plugin :=
  let s := plugin_Status p in
  plugin_set_status (mk_plugin_status v (plugin_Version s) (plugin_HelmChart s)
    (UIApplication s) (Weight s) (plugin_Description s) (ExposedServices s)
    (plugin_conditions s) (LastReconciledAt s) (TrackedObjects s) (ImageReplication s)) p.
Definition set_version (v : string) (p : Plugin) : Plugin :=
  let s := plugin_Status p in
  plugin_set_status (mk_plugin_status (plugin_HelmReleaseStatus s) v (plugin_HelmChart s)
    (UIApplication s) (Weight s) (plugin_Description s) (ExposedServices s)
    (plugin_conditions s) (LastReconciledAt s) (TrackedObjects s) (ImageReplication s)) p.
Definition set_helm_chart (v : option HelmChartReference) (p : Plugin) : Plugin :=
  let s := plugin_Status p in
  plugin_set_status (mk_plugin_status (plugin_HelmReleaseStatus s) (plugin_Version s) v
    (UIApplication s) (Weight s) (plugin_Description s) (ExposedServices s)
    (plugin_conditions s) (LastReconciledAt s) (TrackedObjects s) (ImageReplication s)) p.
Definition set_ui_application (v : option UIApplicationReference) (p : Plugin) : Plugin :=
  let s := plugin_Status p in
  plugin_set_status (mk_plugin_status (plugin_HelmReleaseStatus s) (plugin_Version s)
    (plugin_HelmChart s) v (Weight s) (plugin_Description s) (ExposedServices s)
    (plugin_conditions s) (LastReconciledAt s) (TrackedObjects s) (ImageReplication s)) p.
Definition set_weight (v : option Z) (p : Plugin) : Plugin :=
  let s := plugin_Status p in
  plugin_set_status (mk_plugin_status (plugin_HelmReleaseStatus s) (plugin_Version s)
    (plugin_HelmChart s) (UIApplication s) v (plugin_Description s) (ExposedServices s)
    (plugin_conditions s) (LastReconciledAt s) (TrackedObjects s) (ImageReplication s)) p.
Definition set_description (v : string) (p : Plugin) : Plugin :=
  let s := plugin_Status p in
  plugin_set_status (mk_plugin_status (plugin_HelmReleaseStatus s) (plugin_Version s)
    (plugin_HelmChart s) (UIApplication s) (Weight s) v (ExposedServices s)
    (plugin_conditions s) (LastReconciledAt s) (TrackedObjects s) (ImageReplication s)) p.
Definition set_exposed_services (v : gmap string Service) (p : Plugin) : Plugin :=
  let s := plugin_Status p in
  plugin_set_status (mk_plugin_status (plugin_HelmReleaseStatus s) (plugin_Version s)
    (plugin_HelmChart s) (UIApplication s) (Weight s) (plugin_Description s) v
    (plugin_conditions s) (LastReconciledAt s) (TrackedObjects s) (ImageReplication s)) p.
Definition set_tracked (v : list string) (p : Plugin) : Plugin :=
  let s := plugin_Status p in
  plugin_set_status (mk_plugin_status (plugin_HelmReleaseStatus s) (plugin_Version s)
    (plugin_HelmChart s) (UIApplication s) (Weight s) (plugin_Description s)
    (ExposedServices s) (plugin_conditions s) (LastReconciledAt s) v (ImageReplication s))
    p.
Definition set_replication (v : list string) (p : Plugin) : Plugin :=
  let s := plugin_Status p in
  plugin_set_status (mk_plugin_status (plugin_HelmReleaseStatus s) (plugin_Version s)
    (plugin_HelmChart s) (UIApplication s) (Weight s) (plugin_Description s)
    (ExposedServices s) (plugin_conditions s) (LastReconciledAt s) (TrackedObjects s) v) p.

(** ** Calls *)
Record HelmChart := mk_helm_chart { hc_meta : ObjectMeta; hc_Artifact : option (string * string) }.
(** How a remote cluster is reached: in-cluster, or with a Secret. *)
Inductive client_getter := InCluster | FromSecret (s : Secret).

Inductive fluxE : Type -> Type :=
| XDefinition {X} (e : definitionE X) : fluxE X
| XValues {X} (e : valuesE X) : fluxE X
| XTrack {X} (e : trackE X) : fluxE X
| XMirror {X} (e : mirrorE X) : fluxE X
| XMirrorConfig {X} (e : mirror_configE X) : fluxE X
| XManifest {X} (g : client_getter) (e : manifestE X) : fluxE X
| XPlugin {X} (e : kubeE Plugin X) : fluxE X
| XTeam {X} (e : kubeE Team X) : fluxE X
| XInClusterConfig : fluxE (option error)
| XGetCluster (k : objkey) : fluxE (result Cluster)
| XGetSecret (k : objkey) : fluxE (result Secret)
| XGetHelmChart (k : objkey) : fluxE (result HelmChart)
| XGetRelease (k : objkey) : fluxE (result HelmRelease)
| XDeleteRelease (k : objkey) : fluxE (option error)
  (* controllerutil.CreateOrUpdate and CreateOrPatch, with the mutate function *)
| XUpdateRelease (hr : HelmRelease) (mutate : HelmRelease -> result HelmRelease) : fluxE (option error)
| XPatchRelease (hr : HelmRelease) (mutate : HelmRelease -> result HelmRelease) : fluxE (option error)
| XDeployedRelease (g : client_getter) (namespace name : string) : fluxE (result helm_release)
  (* flux.IArtifactory *)
| XArtifactGet (id url digest : string) : fluxE (result string)
| XArtifactSave (id digest content : string) : fluxE (option error)
| XArtifactPrune (id digest : string) : fluxE (option error)
| XTemplate (g : client_getter) (spec : PluginDefinitionSpec) (p : Plugin)
    (values : list PluginOptionValue) (chartPath : string) : fluxE (result (list string))
| XPanic : fluxE Empty_set.

Class PluginLibs := {
  (** [encoding/json] on strings, lists of strings, Helm values and any value *)
  json_string : string -> string;
  json_strings : list string -> string;
  json_any : anyval -> result string;
  helm_Values : Type;
  no_values : helm_Values;
  json_values : helm_Values -> result string;
  (** Helm's [strvals.ParseJSON], CEL, label selectors, hashes *)
  ParseJSON : string -> helm_Values -> result helm_Values;
  EvaluateExpression : string -> helm_Values -> result string;
  cel_Evaluate : string -> UObject -> result anyval;
  selector_of : string -> result string;
  sha256_hex : string -> string;
  yaml_Unmarshal : string -> result (RegistryMirrorConfig * list (string * RegistryMirror));
  local_registry : option string;
  join_errors : list error -> error;
  artifact_Path : string -> string -> string;
  plugin_SetControllerReference : Plugin -> HelmRelease -> result (list OwnerReference);
  (** steps of [retry.DefaultRetry] *)
  DefaultRetrySteps : nat;
  (** orders in which Go ranges over maps *)
  labels_order : strmap -> list (string * string);
  objects_order : gmap ObjectKey ResourceInfo -> list (ObjectKey * ResourceInfo)
}.

Section controller.
Variable now : Z.
(** [time.Now().Format(time.DateTime)] *)
Variable now_text : string.
Variable DNSDomain : string.
Context {Libs : PluginLibs} {HSort : SortByName} {HParse : RefParser}.
(** the fields of [PluginReconciler] *)
Variable ExpressionEvaluationEnabled IntegrationEnabled OCIMirroringEnabled : bool.
(** [plugin.GroupVersionKind().Kind] *)
Variable pluginKind : string.

Local Abbreviation P := (prog fluxE).
Definition panic {A} : P A := PVis XPanic (fun e : Empty_set => match e with end).
Definition created_false (reason msg : string) (p : Plugin) : Plugin :=
  SetCondition now (FalseCondition now HelmReleaseCreatedCondition reason msg) p.
Definition deployed_false (reason msg : string) (p : Plugin) : Plugin :=
  SetCondition now (FalseCondition now HelmReleaseDeployedCondition reason msg) p.
Definition synced (c : Condition) (p : Plugin) : Plugin := SetCondition now c p.
Definition release_key (p : Plugin) : objkey := mk_key (GetNamespace p) (GetName p).

Definition InitPluginStatus (plugin : Plugin) : Plugin :=
  let plugin := fold_left (fun p t => RemoveCondition t p) deprecatedConditions plugin in
  let plugin := plugin_set_conditions
    (init_conditions now plugin_exposedConditions (plugin_conditions (plugin_Status plugin))) plugin in
  match plugin_HelmReleaseStatus (plugin_Status plugin) with
  | None => set_release_status (Some (mk_hrs "unknown" 0 0 "" "")) plugin
  | Some _ => plugin
  end.

(** ** Access to the cluster of a Plugin *)
Definition access_failed (e : error) (p : Plugin) : Plugin :=
  created_false ClusterAccessFailedReason (err_msg e) p.
Definition access_ok (p : Plugin) : Plugin :=
  match GetConditionByType (plugin_conditions (plugin_Status p)) HelmReleaseCreatedCondition with
  | Some c =>
      if bool_decide (CondReason c = ClusterAccessFailedReason)
      then SetCondition now (TrueCondition now HelmReleaseCreatedCondition "" "") p else p
  | None => p
  end.
Definition initClientGetter (plugin : Plugin) :
    P (Plugin * result (client_getter * option Cluster)) :=
  let name := plugin_ClusterName (plugin_Spec plugin) in
  let key := mk_key (GetNamespace plugin) name in
  if bool_decide (name = "") then
    err ← trigger XInClusterConfig;
    match err with
    | Some e => let e := wrap_error "cannot access greenhouse cluster: " e in
                mret (access_failed e plugin, Err e)
    | None => mret (access_ok plugin, Ok (InCluster, None))
    end
  else
    c ← trigger (XGetCluster key);
    match c with
    | Err e => let e := wrap_error ("failed to get cluster " +:+ name +:+ ": ") e in
               mret (access_failed e plugin, Err e)
    | Ok cluster =>
        if negb (IsReadyTrue (cluster_conditions (cluster_Status cluster))) then
          let e := new_error ("cluster " +:+ name +:+ " is not ready") in
          mret (access_failed e plugin, Err e)
        else
          s ← trigger (XGetSecret key);
          match s with
          | Err e => let e := wrap_error ("failed to get secret for cluster " +:+ name +:+ ": ") e in
                     mret (access_failed e plugin, Err e)
          | Ok secret =>
              match ValidateSecretForKubeConfig secret with
              | Some e => let e := wrap_error ("cannot access cluster " +:+ name +:+ ": ") e in
                          mret (access_failed e plugin, Err e)
              | None => mret (access_ok plugin, Ok (FromSecret secret, Some cluster))
              end
          end
    end.

(** ** Option values *)
Definition resolve_value (plugin : Plugin) (templateData : helm_Values) (v : PluginOptionValue) :
    P (result (PluginOptionValue * list string)) :=
  match ov_Value v, ov_Expression v, ov_ValueFrom v ≫= vf_Ref, ov_ValueFrom v ≫= vf_Secret with
  | Some _, _, _, _ => mret (Ok (v, []))
  | None, Some _, _, _ =>
      if negb ExpressionEvaluationEnabled then mret (Ok (v, []))
      else
        match ResolveExpression json_string EvaluateExpression templateData v ExpressionEvaluationEnabled with
        | Err e => mret (Err e)
        | Ok resolved => mret (Ok (resolved, []))
        end
  | None, None, Some ref, _ =>
      if negb IntegrationEnabled then mret (Ok (v, []))
      else
        r ← translate (fun _ => XTrack)
              (resolveValueFromRef cel_Evaluate json_any selector_of DefaultRetrySteps
                 (GetNamespace plugin) (ov_Name v) ref pluginKind
                 (trackingID pluginKind (GetName plugin)));
        match r with
        | Err e => mret (Err e)
        | Ok (None, _) => panic        (* *resolvedOptionValue *)
        | Ok (Some resolved, trackers) => mret (Ok (resolved, trackers))
        end
  | None, None, None, Some _ => mret (Ok (v, []))
  | None, None, None, None =>
      mret (Err (new_error ("option value " +:+ ov_Name v +:+ " has no value or valueFrom set")))
  end.

(** The CEL resolver is created only when expressions are evaluated. *)
Definition cel_resolver (optionValues : list PluginOptionValue) : result helm_Values :=
  if ExpressionEvaluationEnabled then
    match NewCELResolver no_values ParseJSON optionValues with
    | Err e => Err (wrap_error "failed to initialize CEL resolver: " e)
    | Ok data => Ok data
    end
  else Ok no_values.

Definition resolve_values (plugin : Plugin) (templateData : helm_Values)
    (optionValues : list PluginOptionValue) : P (result (list PluginOptionValue * list string)) :=
  r ← foreach optionValues (fun '(vals, tracked) v =>
        r ← resolve_value plugin templateData v;
        match r with
        | Err e => mret (inr e)
        | Ok (v, trackers) => mret (inl (vals ++ [v], tracked ++ trackers))
        end) ([], []);
  mret (match r with inl s => Ok s | inr e => Err e end).

Definition computeReleaseValues (plugin : Plugin) : P (Plugin * result (list PluginOptionValue)) :=
  r ← translate (fun _ => XValues)
        (GetPluginOptionValuesForPlugin json_string json_strings labels_order DNSDomain plugin);
  match r with
  | Err e => mret (plugin, Err e)
  | Ok optionValues =>
      match cel_resolver optionValues with
      | Err e => mret (plugin, Err e)
      | Ok templateData =>
          r ← resolve_values plugin templateData optionValues;
          match r with
          | Err e => mret (plugin, Err e)
          | Ok (vals, trackedObjects) =>
              if IntegrationEnabled then
                _ ← translate (fun _ => XTrack)
                      (removeUntrackedObjectAnnotations DefaultRetrySteps pluginKind plugin trackedObjects);
                mret (set_tracked trackedObjects plugin, Ok vals)
              else mret (plugin, Ok vals)
          end
      end
  end.

Definition from_secret (v : PluginOptionValue) : bool :=
  match ov_ValueFrom v ≫= vf_Secret with Some _ => true | None => false end.
Definition generateHelmValues (optionValues : list PluginOptionValue) : result string :=
  match ConvertFlatValuesToHelmValues no_values ParseJSON
          (List.filter (fun v => negb (from_secret v)) optionValues) with
  | Err e => Err (wrap_error "failed to convert plugin option values to JSON: " e)
  | Ok v => json_values v
  end.

Definition configureDriftDetection (ignoreDifferences : list IgnoreDifference) : DriftDetection :=
  mk_drift DriftDetectionEnabled
    ((fun i => mk_ignore_rule (id_Group i) (id_Version i) (id_Kind i) (id_Name i) (id_Paths i))
       <$> ignoreDifferences).

Definition addValueReferences (plugin : Plugin) : list ValuesReference :=
  omap (fun value =>
    (fun s => mk_values_ref "Secret" (skr_Name s) (skr_Key s) (ov_Name value))
      <$> (ov_ValueFrom value ≫= vf_Secret)) (OptionValues (plugin_Spec plugin)).

Definition resolvePluginDependencies (dependencies : list WaitForItem) (clusterName : string) :
    list string :=
  (fun d => let ref := wf_PluginRef d in
            if bool_decide (pr_PluginPreset ref = "") then pr_Name ref
            else buildPluginName (pr_PluginPreset ref) clusterName) <$> dependencies.

(** ** Image mirroring *)
Definition fetchChartArtifact (helmChart : HelmChart) : P (result string) :=
  let id := om_namespace (hc_meta helmChart) +:+ "/" +:+ om_name (hc_meta helmChart) in
  match hc_Artifact helmChart with
  | None => mret (Err (new_error ("HelmChart " +:+ id +:+ " has no artifact yet")))
  | Some (url, digest) =>
      content ← trigger (XArtifactGet id url digest);
      match content with
      | Err e => mret (Err (wrap_error "fetch chart artifact: " e))
      | Ok content =>
          err ← trigger (XArtifactSave id digest content);
          match err with
          | Some e => mret (Err (wrap_error "save chart artifact: " e))
          | None =>
              _ ← trigger (XArtifactPrune id digest);
              mret (Ok (artifact_Path id digest))
          end
      end
  end.

Definition buildPostRenderer (mirror : RegistryMirrorConfig) (manifestSets : list string) :
    option (list (string * string)) :=
  let transforms := BuildImageTransformations mirror manifestSets in
  if (length transforms =? 0)%nat then None
  else Some ((fun t => (Original t, Mirrored t)) <$> transforms).

Definition ensureImageReplication (mirror : RegistryMirrorConfig) (plugin : Plugin)
    (manifestSets : list string) : P (Plugin * option error) :=
  '(replicated, errs) ← translate (fun _ => XMirror)
     (ReplicateOCIArtifacts local_registry mirror (ImageReplication (plugin_Status plugin)) manifestSets);
  if bool_decide (errs = []) then mret (set_replication replicated plugin, None)
  else
    let e := join_errors errs in
    mret (created_false ImageReplicationFailedReason (err_msg e) plugin,
          Some (wrap_error ("image replication failed for Plugin " +:+ GetName plugin +:+ ": ") e)).

Definition createRegistryMirrorPostRenderer (plugin : Plugin) (spec : PluginDefinitionSpec)
    (helmChart : HelmChart) (optionValues : list PluginOptionValue) :
    P (Plugin * result (option (list (string * string)))) :=
  let name := GetName plugin in
  if negb OCIMirroringEnabled then mret (plugin, Ok None)
  else
    c ← translate (fun _ => XMirrorConfig) (GetRegistryMirrorConfig yaml_Unmarshal (GetNamespace plugin));
    match c with
    | Err e =>
        mret (created_false ImageReplicationFailedReason
                ("Failed to read Organization registry mirror configuration: " +:+ err_msg e) plugin,
              Err (wrap_error ("failed to read registry mirror configuration for Plugin " +:+ name +:+ ": ") e))
    | Ok None => mret (plugin, Ok None)
    | Ok (Some config) =>
        if bool_decide (RegistryMirrors config = ∅) then mret (plugin, Ok None)
        else
          a ← translate (fun _ => XMirrorConfig) (NewImageMirror_auth config (GetNamespace plugin));
          match a with
          | Err e =>
              mret (created_false ImageReplicationFailedReason
                      ("Failed to create image mirror: " +:+ err_msg e) plugin,
                    Err (wrap_error ("failed to create image mirror for Plugin " +:+ name +:+ ": ") e))
          | Ok _ =>
              '(plugin, g) ← initClientGetter plugin;
              match g with
              | Err e => mret (plugin, Err (wrap_error ("failed to init client getter for Plugin " +:+ name +:+ ": ") e))
              | Ok (getter, _) =>
                  path ← fetchChartArtifact helmChart;
                  match path with
                  | Err e =>
                      mret (created_false PluginHelmTemplateFailedReason (err_msg e) plugin,
                            Err (wrap_error ("failed to fetch chart artifact for Plugin " +:+ name +:+ ": ") e))
                  | Ok chartPath =>
                      r ← trigger (XTemplate getter spec plugin optionValues chartPath);
                      match r with
                      | Err e =>
                          mret (created_false PluginHelmTemplateFailedReason (err_msg e) plugin,
                                Err (wrap_error ("failed to template helm chart for Plugin " +:+ name +:+ ": ") e))
                      | Ok manifestSets =>
                          '(plugin, err) ← ensureImageReplication config plugin manifestSets;
                          match err with
                          | Some e => mret (plugin, Err e)
                          | None => mret (plugin, Ok (buildPostRenderer config manifestSets))
                          end
                      end
                  end
              end
          end
    end.

(** ** The HelmRelease *)
Definition maxHistory : Z := 10.
Definition release_spec (plugin : Plugin) (helmChart : HelmChart) (values : string)
    (postRenderer : option (list (string * string))) : result HelmReleaseSpec :=
  let spec := plugin_Spec plugin in
  let builder :=
    WithTargetNamespace (ReleaseNamespace spec)
    (WithStorageNamespace (ReleaseNamespace spec)
    (WithValuesFrom (addValueReferences plugin)
    (WithValues (Some values)
    (WithDependsOn (resolvePluginDependencies (plugin_WaitFor spec) (plugin_ClusterName spec))
    (WithKubeConfig (mk_skr (plugin_ClusterName spec) GreenHouseKubeConfigKey)
    (WithSuspend false
    (WithDriftDetection (Some (configureDriftDetection (IgnoreDifferences spec)))
    (WithTest (Some (mk_test false None))
    (WithUpgrade (Some (mk_upgrade CreateReplace None 3))
    (WithInstall (Some (mk_install true None 3))
    (WithReleaseName (GetReleaseName plugin)
    (WithMaxHistory maxHistory
    (WithTimeout DefaultTimeout
    (WithInterval DefaultInterval
    (WithHelmChartRef (Some (mk_chart_ref HelmChartKind (om_name (hc_meta helmChart))
                               (om_namespace (hc_meta helmChart))))
       NewHelmReleaseSpecBuilder))))))))))))))) in
  Build (match postRenderer with
         | Some r => WithPostRenderers [r] builder
         | None => builder
         end).
Definition mutate_release (plugin : Plugin) (helmChart : HelmChart) (values : string)
    (postRenderer : option (list (string * string))) (release : HelmRelease) : result HelmRelease :=
  match release_spec plugin helmChart values postRenderer with
  | Err e => Err (wrap_error ("failed to create HelmRelease for plugin " +:+ GetName plugin +:+ ": ") e)
  | Ok spec =>
      let val := (ReconcileAnnotationValue plugin).1 in
      let release := EnsureAnnotation ResetRequestAnnotation val
        (EnsureAnnotation ReconcileRequestAnnotation val (hr_set_spec spec release)) in
      match plugin_SetControllerReference plugin release with
      | Err e => Err e
      | Ok owners => Ok (set_meta (with_owners owners (get_meta release)) release)
      end
  end.
Definition new_release (plugin : Plugin) : HelmRelease :=
  mk_hr (named (GetName plugin) (GetNamespace plugin)) NewHelmReleaseSpecBuilder
    (mk_hr_status ∅ None "").

Definition ensureHelmRelease (plugin : Plugin) (spec : PluginDefinitionSpec) (helmChart : HelmChart)
    (optionValues : list PluginOptionValue) : P (Plugin * option error) :=
  match generateHelmValues optionValues with
  | Err e => mret (created_false PluginOptionValueInvalidReason (err_msg e) plugin,
                   Some (wrap_error ("failed to generate HelmRelease values for Plugin " +:+
                                     GetName plugin +:+ ": ") e))
  | Ok values =>
      '(plugin, postRenderer) ← createRegistryMirrorPostRenderer plugin spec helmChart optionValues;
      match postRenderer with
      | Err e => mret (plugin, Some e)
      | Ok postRenderer =>
          err ← trigger (XPatchRelease (new_release plugin)
                           (mutate_release plugin helmChart values postRenderer));
          match err with
          | Some e => mret (created_false FluxHelmReleaseConfigInvalidReason
                              ("Failed to create/update Helm release: " +:+ err_msg e) plugin, Some e)
          | None => mret (plugin, None)
          end
      end
  end.

Definition getPluginHelmChart (pluginDef : GenericPluginDefinition) (namespace : string) :
    P (result HelmChart) :=
  trigger (XGetHelmChart (mk_key namespace (gen_FluxHelmChartResourceName pluginDef))).

Definition EnsureFluxCreated (plugin : Plugin) : P (Plugin * cb_result) :=
  let ref := PluginDefinitionRef (plugin_Spec plugin) in
  d ← translate (fun _ => XDefinition) (GetPluginDefinitionFromPlugin ref (GetNamespace plugin));
  match d with
  | Err e => mret (created_false PluginDefinitionNotAvailableReason (err_msg e) plugin,
                   cb_failed (new_error (pdr_Kind ref +:+ " not found: " +:+ err_msg e)))
  | Ok pluginDefinition =>
      let spec := gen_GetPluginDefinitionSpec pluginDefinition in
      let namespace := if bool_decide (pdr_Kind ref = PluginDefinitionKind)
                       then GetNamespace plugin else HelmRepositoryDefaultNamespace in
      match pd_HelmChart spec with
      | None =>
          let plugin := SetCondition now (UnknownCondition now HelmReleaseCreatedCondition
            PluginDefinitionNotBackedByHelmChartReason "PluginDefinition is not backed by HelmChart") plugin in
          mret (set_ui_application (pd_UIApplication spec) plugin, (ctrl_done, Success, None))
      | Some _ =>
          h ← getPluginHelmChart pluginDefinition namespace;
          let what := pdr_Kind ref +:+ "/" +:+ pdr_Name ref in
          match h with
          | Err _ => mret (created_false "" ("Failed to load helm chart for " +:+ what) plugin,
                           cb_failed (new_error ("helm chart not found for " +:+ what)))
          | Ok helmChart =>
              '(plugin, v) ← computeReleaseValues plugin;
              match v with
              | Err e => mret (created_false OptionValueResolutionFailedReason (err_msg e) plugin, cb_failed e)
              | Ok optionValues =>
                  '(plugin, err) ← ensureHelmRelease plugin spec helmChart optionValues;
                  match err with
                  | Some e => mret (plugin, cb_failed e)
                  | None =>
                      mret (SetCondition now (TrueCondition now HelmReleaseCreatedCondition ""
                              "Flux HelmRelease successfully created") plugin,
                            (ctrl_done, Success, None))
                  end
              end
          end
      end
  end.

(** ** Suspension and deletion *)
Definition suspend_release (release : HelmRelease) : result HelmRelease :=
  Ok (hr_set_spec (set_hs_Suspend true (hr_Spec release)) release).
Definition EnsureFluxSuspended (plugin : Plugin) : P (option error) :=
  r ← trigger (XGetRelease (release_key plugin));
  match r with
  | Err e => if is_not_found (Some e) then mret None else mret (Some e)
  | Ok release => trigger (XUpdateRelease release suspend_release)
  end.

Definition uninstall_failed (plugin : Plugin) (e : error) : Plugin * cb_result :=
  (deployed_false HelmUninstallFailedReason (err_msg e) plugin, cb_failed e).
Definition delete_release (plugin : Plugin) : P (Plugin * cb_result) :=
  err ← trigger (XDeleteRelease (release_key plugin));
  match ignore_not_found err with
  | Some e => mret (uninstall_failed plugin e)
  | None =>
      r ← trigger (XGetRelease (release_key plugin));
      match r with
      | Err e =>
          if is_not_found (Some e) then mret (plugin, (ctrl_done, Success, None))
          else mret (uninstall_failed plugin e)
      | Ok hr =>
          match FindStatusCondition hr ReleasedCondition with
          | Some releaseStatus =>
              if bool_decide (mc_Reason releaseStatus = UninstallFailedReason) then
                let msg := mc_Message releaseStatus in
                mret (deployed_false HelmUninstallFailedReason msg plugin,
                      cb_failed (new_error ("helm uninstall failed: " +:+ msg)))
              else mret (plugin, (ctrl_done, Pending, None))
          | None => mret (plugin, (ctrl_done, Pending, None))
          end
      end
  end.
Definition EnsureFluxDeleted (plugin : Plugin) : P (Plugin * cb_result) :=
  if bool_decide (plugin_DeletionPolicy (plugin_Spec plugin) = DeletionPolicyRetain) then
    err ← EnsureFluxSuspended plugin;
    match err with
    | Some e => mret (uninstall_failed plugin e)
    | None => delete_release plugin
    end
  else delete_release plugin.

(** ** Status *)
Definition triggerReconcileForTracker (plugin : Plugin) (trackerID : string) : P (option error) :=
  match parseTrackingID trackerID with
  | Err e => mret (Some e)
  | Ok (kind, name) =>
      if bool_decide (name = GetName plugin) then mret None
      else translate (fun _ => XTrack)
             (updateResourceWithAnnotation DefaultRetrySteps now_text kind
                (mk_key (GetNamespace plugin) name))
  end.
Definition reconcileTrackingResources (plugin : Plugin) (oldChecksum newChecksum : string) : P unit :=
  if bool_decide (oldChecksum = newChecksum) then mret tt
  else
    r ← foreach (R := Empty_set) (getTrackerIDsFromAnnotations plugin) (fun _ trackerID =>
          _ ← triggerReconcileForTracker plugin trackerID; mret (inl tt)) tt;
    match r with inl u => mret u | inr e => Empty_set_rect _ e end.

(** The exposed services and their condition. *)
Definition fetch_exposed (getter : client_getter) (exposeServices : bool) (plugin : Plugin) :
    P (Plugin * gmap string Service) :=
  let failed msg e := synced (FalseCondition now ExposedServicesSyncedCondition "" (msg +:+ err_msg e)) plugin in
  r ← trigger (XDeployedRelease getter (ReleaseNamespace (plugin_Spec plugin)) (GetReleaseName plugin));
  match r with
  | Err e => mret (failed "failed to fetch Helm release from remote cluster: " e, ∅)
  | Ok release =>
      l ← translate (fun _ => XManifest getter)
            (getAllExposedServicesForPlugin sha256_hex DNSDomain objects_order release plugin exposeServices);
      match l with
      | Err e => mret (failed "failed to get exposed services: " e, ∅)
      | Ok serviceList =>
          if bool_decide (serviceList = ∅) && negb exposeServices then
            mret (synced (TrueCondition now ExposedServicesSyncedCondition ExposedServicesDisabledReason
                    "exposed services are disabled for this cluster") plugin, ∅)
          else mret (synced (TrueCondition now ExposedServicesSyncedCondition ""
                       "Fetched exposed services successfully") plugin, serviceList)
      end
  end.

Definition deployed_condition (ready : option MetaCondition) (plugin : Plugin) : Plugin :=
  match ready with
  | None => SetCondition now (UnknownCondition now HelmReleaseDeployedCondition "" "") plugin
  | Some c =>
      let s := mc_Status c in
      if bool_decide (s = ConditionTrue) then
        SetCondition now (TrueCondition now HelmReleaseDeployedCondition (mc_Reason c) (mc_Message c)) plugin
      else if bool_decide (s = ConditionFalse) then
        SetCondition now (FalseCondition now HelmReleaseDeployedCondition (mc_Reason c) (mc_Message c)) plugin
      else if bool_decide (s = ConditionUnknown) then
        SetCondition now (UnknownCondition now HelmReleaseDeployedCondition (mc_Reason c) (mc_Message c)) plugin
      else plugin
  end.

(** What the status of the HelmRelease says: the status text, whether the version of
    the definition is the deployed one, and the Plugin with a stalled release reported. *)
Definition release_state (hr : HelmRelease) (plugin : Plugin) : string * bool * Plugin :=
  let ready := FindStatusCondition hr fluxReadyCondition in
  let current := match ready with
                 | Some c => bool_decide (mc_ObservedGeneration c = om_generation (get_meta hr))
                 | None => false
                 end in
  let says s := match ready with Some c => current && bool_decide (mc_Status c = s) | None => false end in
  if hs_Suspend (hr_Spec hr) then ("suspended", false, plugin)
  else if says ConditionTrue then
    (match hrst_Latest (hr_Status hr) with Some sn => sn_Status sn | None => "deployed" end, true, plugin)
  else if says ConditionUnknown then
    let action := hrst_LastAttemptedReleaseAction (hr_Status hr) in
    (if bool_decide (action = ReleaseActionInstall) then "pending-install"
     else if bool_decide (action = ReleaseActionUpgrade) then "pending-upgrade"
     else "progressing", false, plugin)
  else if says ConditionFalse then
    ("failed", false,
     match FindStatusCondition hr ConditionStalled with
     | Some c => if bool_decide (mc_Status c = ConditionTrue)
                 then deployed_false FluxHelmReleaseStalledReason (mc_Message c) plugin else plugin
     | None => plugin
     end)
  else ("progressing", false, plugin).

(** The checksums; the status has just been replaced when the old one is read. *)
Definition update_checksum (plugin : Plugin) : P Plugin :=
  let oldChecksum := match plugin_HelmReleaseStatus (plugin_Status plugin) with
                     | Some s => PluginOptionChecksum s
                     | None => ""
                     end in
  let set_checksum c p := match plugin_HelmReleaseStatus (plugin_Status p) with
    | Some s => set_release_status (Some (mk_hrs (hrs_Status s) (FirstDeployed s) (LastDeployed s) c (hrs_Diff s))) p
    | None => p
    end in
  '(plugin, newChecksum) ←
    (if bool_decide (OptionValues (plugin_Spec plugin) = []) then mret (plugin, "")
     else
       r ← translate (fun _ => XValues) (CalculatePluginOptionChecksum json_string sha256_hex plugin);
       match r with
       | Err _ => mret (set_checksum "" plugin, "")
       | Ok c => mret (set_checksum c plugin, c)
       end);
  if negb (bool_decide (oldChecksum = "")) then
    _ ← reconcileTrackingResources plugin oldChecksum newChecksum; mret plugin
  else mret plugin.

Definition fetchReleaseStatus (getter : client_getter) (spec : PluginDefinitionSpec)
    (exposeServices : bool) (plugin : Plugin) : P Plugin :=
  let unknown := mk_hrs "unknown" 0 0 "" "" in
  match pd_HelmChart spec with
  | None =>
      mret (set_exposed_services ∅ (set_version (pd_Version spec)
              (set_release_status (Some unknown) (set_helm_chart None plugin))))
  | Some helmChartReference =>
      let plugin := set_exposed_services ∅ (set_release_status (Some unknown)
        (set_version "" (set_helm_chart (Some helmChartReference) plugin))) in
      r ← trigger (XGetRelease (release_key plugin));
      match r with
      | Err e =>
          let msg := "failed to load Flux HelmRelease: " +:+ err_msg e in
          mret (deployed_false "" msg
                  (synced (FalseCondition now ExposedServicesSyncedCondition "" msg) plugin))
      | Ok hr =>
          '(plugin, exposedServices) ← fetch_exposed getter exposeServices plugin;
          let plugin := set_exposed_services exposedServices plugin in
          let plugin := deployed_condition (FindStatusCondition hr fluxReadyCondition) plugin in
          let '(status, deployed, plugin) := release_state hr plugin in
          let '(first, last) := match hrst_Latest (hr_Status hr) with
                                | Some sn => (sn_FirstDeployed sn, sn_LastDeployed sn)
                                | None => (0, 0)%Z
                                end in
          let plugin := set_release_status (Some (mk_hrs status first last "" ""))
            (set_version (if deployed then pd_Version spec else "") plugin) in
          update_checksum plugin
      end
  end.

(** [reconcileTechnicalLabels] *)
Definition technical_labels (p : Plugin) : Plugin * option error :=
  let labels := GetLabels p in
  let labels := match UIApplication (plugin_Status p) with
                | Some _ => <[LabelKeyUIPlugin := "true"]> labels
                | None => delete LabelKeyUIPlugin labels
                end in
  let labels := if bool_decide (ExposedServices (plugin_Status p) = ∅)
                then delete LabelKeyPluginExposedServices labels
                else <[LabelKeyPluginExposedServices := "true"]> labels in
  (SetLabels labels p, None).

Definition not_ready (readyCondition : Condition) (reason message : string) : Condition :=
  set_reason reason (set_message message (set_status ConditionFalse readyCondition)).
Definition is_ready (readyCondition : Condition) : Condition :=
  set_reason "" (set_message "ready" (set_status ConditionTrue readyCondition)).
(** The condition from the two conditions about the release; [None] when a nil
    condition is dereferenced. *)
Definition ready_of_release (readyCondition : Condition) (sc : StatusConditions) : option Condition :=
  created ← GetConditionByType sc HelmReleaseCreatedCondition;
  if IsFalse created || IsUnknown created
  then Some (not_ready readyCondition (CondReason created) (CondMessage created))
  else
    deployed ← GetConditionByType sc HelmReleaseDeployedCondition;
    if IsFalse deployed || IsUnknown deployed
    then Some (not_ready readyCondition (if IsFalse deployed then CondReason deployed else "")
                 (CondMessage deployed))
    else Some (is_ready readyCondition).

Definition computeReadyConditionFlux (plugin : Plugin) : P (Plugin * Condition) :=
  match GetConditionByType (plugin_conditions (plugin_Status plugin)) ReadyCondition with
  | None => panic
  | Some readyCondition =>
      '(plugin, g) ← initClientGetter plugin;
      match g with
      | Err _ => mret (plugin, set_message "cluster access not ready" (set_status ConditionFalse readyCondition))
      | Ok (getter, cluster) =>
          d ← translate (fun _ => XDefinition)
                (GetPluginDefinitionSpec (PluginDefinitionRef (plugin_Spec plugin)) (GetNamespace plugin));
          match d with
          | Err e =>
              mret (created_false PluginDefinitionNotAvailableReason (err_msg e) plugin,
                    not_ready readyCondition PluginDefinitionNotAvailableReason "PluginDefinition not available")
          | Ok spec =>
              let plugin := set_description (pd_Description spec) (set_weight (pd_Weight spec)
                (set_ui_application (pd_UIApplication spec) plugin)) in
              plugin ← fetchReleaseStatus getter spec (ExposedServicesEnabled cluster) plugin;
              '(plugin, _) ← translate (fun _ => XPlugin) (patch technical_labels plugin false);
              match pd_HelmChart spec with
              | None => mret (plugin, is_ready readyCondition)
              | Some _ =>
                  match ready_of_release readyCondition (plugin_conditions (plugin_Status plugin)) with
                  | None => panic
                  | Some c => mret (plugin, c)
                  end
              end
          end
      end
  end.

Definition plugin_setConditions (plugin : Plugin) : P Plugin :=
  '(plugin, readyCondition) ← computeReadyConditionFlux plugin;
  ownerLabelCondition ← translate (fun _ => XTeam) (ComputeOwnerLabelCondition now plugin);
  mret (plugin_set_conditions
          (SetConditions now (plugin_conditions (plugin_Status plugin))
             [readyCondition; ownerLabelCondition]) plugin).

(** ** The controller *)
Definition plugin_EnsureCreated (plugin : Plugin) : P (Plugin * cb_result) :=
  EnsureFluxCreated (InitPluginStatus plugin).
Definition plugin_EnsureSuspended (plugin : Plugin) : P (Plugin * (ctrl_result * option error)) :=
  err ← EnsureFluxSuspended plugin; mret (plugin, (ctrl_done, err)).
Definition PluginReconciler : Reconciler fluxE Plugin :=
  mk_reconciler _ _ plugin_EnsureCreated EnsureFluxDeleted plugin_EnsureSuspended.
Definition plugin_Reconcile `{FinalizerOps} (k : objkey) :=
  Reconcile now PluginReconciler (Some plugin_setConditions) k.
End controller.

(** ** Watches: the Plugins a change concerns, of those the cache holds *)
Definition plugin_requests (f : Plugin -> bool) (cached : list Plugin) : list objkey :=
  key_of <$> List.filter f cached.
Definition enqueueAllPluginsForCluster (cluster : Cluster) : list Plugin -> list objkey :=
  plugin_requests (fun p => bool_decide (GetNamespace p = GetNamespace cluster)
                            && bool_decide (plugin_ClusterName (plugin_Spec p) = GetName cluster)
                            && negb (bool_decide (plugin_ClusterName (plugin_Spec p) = ""))).
Definition enqueueAllPluginsInNamespace {O} `{Object O} (o : O) : list Plugin -> list objkey :=
  plugin_requests (fun p => bool_decide (GetNamespace p = GetNamespace o)).
Definition enqueueAllPluginsForClusterPluginDefinition {O} `{Object O} (o : O) : list Plugin -> list objkey :=
  plugin_requests (fun p => bool_decide (GetLabels p !! LabelKeyClusterPluginDefinition = Some (GetName o))).
Definition enqueueAllPluginsForPluginDefinition {O} `{Object O} (o : O) : list Plugin -> list objkey :=
  plugin_requests (fun p => bool_decide (GetLabels p !! LabelKeyPluginDefinition = Some (GetName o))
                            && bool_decide (GetNamespace p = GetNamespace o)).
