(* ===== verification/PluginSafety.v ===== *)
(** * PluginSafety: theorems on the Plugin controller

    Deletion waits for Flux, readiness reports what Flux and the definition say, the
    HelmRelease carries what the Plugin asks for, and the trackers of other objects
    are changed as sets. *)
From S2P Require Import Prelude Effects Conditions Meta ApiTypes Lifecycle ClientUtil PluginTypes PluginDefinitions HelmValues PluginPreset OciMirror KubeConfig ServiceProxy Tracking HelmRelease ExposedServices PluginController.

(** ** Deletion *)
Section deletion.
Variable now : Z.
Local Abbreviation trace := (list (call fluxE)).

(** The calls that suspend the release of [plugin]: it is gone already, or it is read
    and written back suspended. *)
Definition suspension (plugin : Plugin) (t : trace) : Prop :=
  (exists e, err_reason e = NotFound /\ t = [Call (XGetRelease (release_key plugin)) (Err e)]) \/
  (exists hr, t = [Call (XGetRelease (release_key plugin)) (Ok hr);
                   Call (XUpdateRelease hr suspend_release) None]).

(** The calls that delete it and find it gone. *)
Definition observed_gone (plugin : Plugin) (t : trace) : Prop :=
  exists err e, ignore_not_found err = None /\ err_reason e = NotFound /\
    t = [Call (XDeleteRelease (release_key plugin)) err;
         Call (XGetRelease (release_key plugin)) (Err e)].

Definition deletion_condition_only (p p' : Plugin) : Prop :=
  p' = p \/ exists msg, p' = deployed_false now HelmUninstallFailedReason msg p.

Lemma is_not_found_Some e : is_not_found (Some e) = true <-> err_reason e = NotFound.
Proof. apply bool_decide_eq_true. Qed.

Lemma EnsureFluxSuspended_trace plugin h :
  wp (traced any_answer) (EnsureFluxSuspended plugin) (fun h' err =>
    err = None -> exists t, h' = h ++ t /\ suspension plugin t) h.
Proof.
  unfold EnsureFluxSuspended. wp_step. wp_step. destruct Hx as [_ ->].
  destruct x as [hr|e].
  - wp_step. destruct Hx as [_ ->]. intros ->. rewrite <-app_assoc. eexists. split; [done|].
    right. by exists hr.
  - destruct (is_not_found (Some e)) eqn:He; [|by wp_step]. wp_step. intros _.
    apply is_not_found_Some in He. eexists. split; [done|]. left. by exists e.
Qed.

Lemma delete_release_trace plugin h :
  wp (traced any_answer) (delete_release now plugin) (fun h' r =>
    deletion_condition_only plugin r.1 /\
    match r.2.1.2 with
    | Success => r.1 = plugin /\ r.2.2 = None /\
                 exists t, h' = h ++ t /\ observed_gone plugin t
    | Failed => is_Some r.2.2
    | Pending => r.1 = plugin /\ r.2.2 = None
    end) h.
Proof.
  unfold delete_release. wp_step. wp_step. destruct Hx as [_ ->].
  destruct (ignore_not_found x) as [e|] eqn:Hdel.
  { wp_step. cbn. split; [right|]; eauto. }
  wp_step. wp_step. destruct Hx as [_ ->]. destruct x0 as [hr|e].
  - destruct (FindStatusCondition hr ReleasedCondition) as [c|]; [case_bool_decide|];
      wp_step; cbn; unfold deletion_condition_only; eauto.
  - destruct (is_not_found (Some e)) eqn:He; wp_step; cbn; unfold deletion_condition_only;
      [|eauto]. apply is_not_found_Some in He.
    split; [by left|]. do 2 (split; [done|]). rewrite <-app_assoc. eexists. split; [done|].
    exists x, e. done.
Qed.

(** C12: a Plugin is released only after Flux uninstalled its release.  Whatever the
    API server answers, [EnsureFluxDeleted] answers [Success] only when its last two
    calls deleted the HelmRelease named after the Plugin and then read that it no
    longer exists; under the policy Retain the release was suspended before (or was
    gone).  Otherwise the Plugin stays: [Pending], or [Failed] with an error.  The only
    thing it ever changes of the Plugin is the condition HelmReleaseDeployed, set to
    False because the uninstallation failed. *)
Theorem EnsureFluxDeleted_gone plugin h :
  wp (traced any_answer) (EnsureFluxDeleted now plugin) (fun h' r =>
    deletion_condition_only plugin r.1 /\
    match r.2.1.2 with
    | Success => r.1 = plugin /\ r.2.2 = None /\
        exists s t, h' = h ++ s ++ t /\ observed_gone plugin t /\
          if bool_decide (plugin_DeletionPolicy (plugin_Spec plugin) = DeletionPolicyRetain)
          then suspension plugin s else s = []
    | Failed => is_Some r.2.2
    | Pending => r.1 = plugin /\ r.2.2 = None
    end) h.
Proof.
  unfold EnsureFluxDeleted. case_bool_decide as Hp.
  - wp_step. eapply wp_mono; [|apply EnsureFluxSuspended_trace]. intros h1 [e|] Hs; cbn beta.
    { wp_step. cbn. split; [right|]; eauto. }
    destruct (Hs eq_refl) as (s & -> & Hsusp).
    eapply wp_mono; [|apply delete_release_trace]. intros h2 [p' [[cr res] err]] [H1 H2].
    split; [done|]. cbn in *. destruct res; [|done..].
    destruct H2 as (-> & -> & t & -> & Ht). do 2 (split; [done|]).
    exists s, t. by rewrite app_assoc.
  - eapply wp_mono; [|apply delete_release_trace]. intros h2 [p' [[cr res] err]] [H1 H2].
    split; [done|]. cbn in *. destruct res; [|done..].
    destruct H2 as (-> & -> & t & -> & Ht). do 2 (split; [done|]). by exists [], t.
Qed.
End deletion.

(** ** Readiness *)
Section readiness.
Variable now : Z.
Variable now_text DNSDomain pluginKind : string.
Context {Libs : PluginLibs} {HSort : SortByName} {HParse : RefParser}.
Local Abbreviation conditions p := (plugin_conditions (plugin_Status p)).
Local Abbreviation condition p t := (GetConditionByType (conditions p) t).

(** The condition says neither False nor Unknown. *)
Definition holds (c : Condition) : Prop := IsFalse c = false /\ IsUnknown c = false.

Lemma condition_SetCondition c p t :
  condition (SetCondition now c p) t =
  if bool_decide (t = CondType c) then
    Some (set_ltt (match condition p t with
                   | Some d => if bool_decide (CondStatus d = CondStatus c)
                               then LastTransitionTime d
                               else LastTransitionTime (stamped now c)
                   | None => LastTransitionTime (stamped now c)
                   end) c)
  else condition p t.
Proof. apply get_SetConditions. Qed.
Lemma condition_SetCondition_ne c p t :
  t <> CondType c -> condition (SetCondition now c p) t = condition p t.
Proof. intros Ht. rewrite condition_SetCondition. by rewrite bool_decide_false. Qed.
Lemma condition_SetCondition_holds c p d :
  condition (SetCondition now c p) (CondType c) = Some d -> holds d -> holds c.
Proof. rewrite condition_SetCondition, bool_decide_true by done. by intros [= <-]. Qed.

(** Flux reports the release as neither failed nor in progress. *)
Definition flux_holds (hr : HelmRelease) : Prop :=
  exists c, FindStatusCondition hr fluxReadyCondition = Some c /\
    mc_Status c <> ConditionFalse /\ mc_Status c <> ConditionUnknown.

Lemma deployed_condition_holds hr p d :
  condition (deployed_condition now (FindStatusCondition hr fluxReadyCondition) p)
    HelmReleaseDeployedCondition = Some d -> holds d -> flux_holds hr.
Proof.
  unfold deployed_condition, flux_holds. destruct (FindStatusCondition _ _) as [c|].
  - intros H Hd. exists c. split; [done|].
    case_bool_decide as Ht; [by rewrite Ht|].
    case_bool_decide; [by destruct (condition_SetCondition_holds _ _ _ H Hd)|].
    by case_bool_decide; [destruct (condition_SetCondition_holds _ _ _ H Hd)|].
  - intros H Hd. by destruct (condition_SetCondition_holds _ _ _ H Hd).
Qed.
Lemma deployed_condition_other ready p t :
  t <> HelmReleaseDeployedCondition ->
  condition (deployed_condition now ready p) t = condition p t.
Proof.
  intros Ht. unfold deployed_condition. destruct ready; repeat case_bool_decide; try done;
    by rewrite condition_SetCondition_ne.
Qed.
Lemma release_state_other hr p t :
  t <> HelmReleaseDeployedCondition ->
  condition (release_state now hr p).2 t = condition p t.
Proof.
  intros Ht. unfold release_state. destruct (hs_Suspend _); [done|].
  repeat (case_match; try done). all: by apply condition_SetCondition_ne.
Qed.
Lemma release_state_holds hr p d :
  condition (release_state now hr p).2 HelmReleaseDeployedCondition = Some d -> holds d ->
  condition p HelmReleaseDeployedCondition = Some d.
Proof.
  unfold release_state. destruct (hs_Suspend _); [done|].
  destruct (FindStatusCondition hr fluxReadyCondition) as [c|]; [|done].
  destruct (_ && _); [done|]. destruct (_ && _); [done|]. destruct (_ && _); [|done].
  cbn [snd]. destruct (FindStatusCondition hr ConditionStalled); [|done].
  case_bool_decide; [|done]. intros Hc Hd.
  by destruct (condition_SetCondition_holds _ _ _ Hc Hd).
Qed.

(** Parts of the pass that leave the conditions alone. *)
Lemma update_checksum_conditions {W} (R : W -> forall X, fluxE X -> X -> W -> Prop) p w :
  wp R (update_checksum now_text p) (fun _ p' => conditions p' = conditions p) w.
Proof.
  unfold update_checksum. wp_step.
  apply wp_mono with (Q := fun _ r => conditions r.1 = conditions p).
  - intros w1 [p1 c] Hp1. cbn in Hp1. wp_step; [|by wp_step]. wp_step. wp_skip. by wp_step.
  - wp_step; [by wp_step|]. wp_step. wp_step. wp_skip.
    wp_step; wp_step; cbn [fst]; by case_match.
Qed.
Lemma update_checksum_version {W} (R : W -> forall X, fluxE X -> X -> W -> Prop) p w :
  wp R (update_checksum now_text p) (fun _ p' =>
    plugin_Version (plugin_Status p') = plugin_Version (plugin_Status p) /\
    ExposedServices (plugin_Status p') = ExposedServices (plugin_Status p)) w.
Proof.
  unfold update_checksum. wp_step.
  apply wp_mono with (Q := fun _ r =>
    plugin_Version (plugin_Status r.1) = plugin_Version (plugin_Status p) /\
    ExposedServices (plugin_Status r.1) = ExposedServices (plugin_Status p)).
  - intros w1 [p1 c] Hp1. cbn in Hp1. wp_step; [|by wp_step]. wp_step. wp_skip. by wp_step.
  - wp_step; [by wp_step|]. wp_step. wp_step. wp_skip.
    wp_step; wp_step; cbn [fst]; by case_match.
Qed.
Lemma fetch_exposed_conditions {W} (R : W -> forall X, fluxE X -> X -> W -> Prop) getter es p w :
  wp R (fetch_exposed now DNSDomain getter es p) (fun _ r =>
    plugin_Version (plugin_Status r.1) = plugin_Version (plugin_Status p) /\
    forall t, t <> ExposedServicesSyncedCondition -> condition r.1 t = condition p t) w.
Proof.
  unfold fetch_exposed, synced. wp_step. wp_step. wp_step.
  - wp_step. wp_step. wp_skip. wp_step; [wp_step|]; wp_step; cbn [fst]; split; try done; intros;
      by rewrite condition_SetCondition_ne.
  - wp_step. cbn [fst]. split; [done|]. intros. by rewrite condition_SetCondition_ne.
Qed.

(** The HelmRelease is deployed as the Plugin asks for it now. *)
Definition deployed_now (hr : HelmRelease) : Prop :=
  hs_Suspend (hr_Spec hr) = false /\
  exists c, FindStatusCondition hr fluxReadyCondition = Some c /\
    mc_ObservedGeneration c = om_generation (get_meta hr) /\ mc_Status c = ConditionTrue.
Lemma release_state_deployed hr p : (release_state now hr p).1.2 = true <-> deployed_now hr.
Proof.
  unfold release_state, deployed_now. destruct (hs_Suspend _); [naive_solver|].
  destruct (FindStatusCondition hr fluxReadyCondition) as [c|]; [|naive_solver].
  case_bool_decide as Hg; [|naive_solver]. cbn [andb].
  repeat (case_bool_decide; cbn [fst snd]); naive_solver.
Qed.
Local Abbreviation trace := (list (call fluxE)).

(** A fact about the past of a trace stays. *)
Lemma wp_past {A} (c : call fluxE) (p : prog fluxE A) h :
  c ∈ h -> wp (traced any_answer) p (fun h' _ => c ∈ h') h.
Proof.
  intros Hc. apply wp_inv; [|done]. intros h1 X e x h2 Hin [_ ->]. set_solver.
Qed.

(** What the status is made of: the answer [r] to the read of the HelmRelease. *)
Definition release_reported (spec : PluginDefinitionSpec) (p p' : Plugin) (r : result HelmRelease) : Prop :=
  condition p' HelmReleaseCreatedCondition = condition p HelmReleaseCreatedCondition /\
  match r with
  | Err _ => plugin_Version (plugin_Status p') = "" /\ ExposedServices (plugin_Status p') = ∅ /\
             forall d, condition p' HelmReleaseDeployedCondition = Some d -> IsFalse d = true
  | Ok hr => (plugin_Version (plugin_Status p') = "" \/ 
              plugin_Version (plugin_Status p') = pd_Version spec /\ deployed_now hr) /\
             (deployed_now hr -> plugin_Version (plugin_Status p') = pd_Version spec) /\
             forall d, condition p' HelmReleaseDeployedCondition = Some d -> holds d -> flux_holds hr
  end.

Lemma fetchReleaseStatus_trace getter spec ref es p h :
  pd_HelmChart spec = Some ref ->
  wp (traced any_answer) (fetchReleaseStatus now now_text DNSDomain getter spec es p)
    (fun h' p' => exists r, Call (XGetRelease (release_key p)) r ∈ h' /\
                            release_reported spec p p' r) h.
Proof.
  intros Href. unfold fetchReleaseStatus. rewrite Href. wp_step. wp_step. destruct Hx as [_ ->].
  set (p0 := set_exposed_services _ _).
  assert (Call (XGetRelease (release_key p)) x ∈ h ++ [Call (XGetRelease (release_key p0)) x])
    as Hin by (change (release_key p0) with (release_key p); set_solver).
  destruct x as [hr|e].
  - wp_step. eapply wp_mono; [|apply wp_and; [apply wp_past, Hin|apply fetch_exposed_conditions]].
    clear Hin. intros h1 [p1 l] [Hin [Hv1 Hc1]]; cbn [fst] in *. unfold flip.
    pose proof (release_state_deployed hr (deployed_condition now (FindStatusCondition hr fluxReadyCondition)
      (set_exposed_services l p1))) as Hd.
    pose proof (release_state_other hr (deployed_condition now (FindStatusCondition hr fluxReadyCondition)
      (set_exposed_services l p1)) HelmReleaseCreatedCondition) as Ho.
    pose proof (release_state_holds hr (deployed_condition now (FindStatusCondition hr fluxReadyCondition)
      (set_exposed_services l p1))) as Hh.
    destruct (release_state _ _ _) as [[status deployed] p2]. cbn [fst snd] in *.
    destruct (match hrst_Latest (hr_Status hr) with Some _ => _ | None => _ end) as [first last].
    eapply wp_mono; [|apply wp_and; [apply wp_past, Hin|apply wp_and;
      [apply update_checksum_conditions|apply update_checksum_version]]].
    intros h2 p3 (Hin2 & Hc3 & Hv3 & _). exists (Ok hr). split; [done|].
    unfold release_reported. rewrite Hc3, Hv3. cbn.
    rewrite Ho, deployed_condition_other by done. cbn.
    split; [by apply Hc1|]. split; [|split].
    + destruct deployed; [right|by left]. split; [done|]. by apply Hd.
    + intros Hdep. by apply Hd in Hdep as ->.
    + intros d Hd3 Hd4. eapply deployed_condition_holds; [|done]. by apply Hh.
  - wp_step. exists (Err e). split; [done|]. unfold release_reported, deployed_false, synced.
    rewrite !condition_SetCondition_ne by done. split; [done|]. do 2 (split; [done|]).
    intros d. rewrite condition_SetCondition, bool_decide_true by done. by intros [= <-].
Qed.

(** The cluster of the Plugin was found accessible. *)
Definition cluster_access (p : Plugin) (t : trace) : Prop :=
  let name := plugin_ClusterName (plugin_Spec p) in
  let key := mk_key (GetNamespace p) name in
  if bool_decide (name = "") then Call XInClusterConfig None ∈ t
  else exists cluster secret,
    Call (XGetCluster key) (Ok cluster) ∈ t /\
    IsReadyTrue (cluster_conditions (cluster_Status cluster)) = true /\
    Call (XGetSecret key) (Ok secret) ∈ t /\ ValidateSecretForKubeConfig secret = None.

Lemma access_ok_same p : plugin_meta (access_ok now p) = plugin_meta p /\ plugin_Spec (access_ok now p) = plugin_Spec p.
Proof. unfold access_ok. destruct (GetConditionByType _ _); [case_bool_decide|]; done. Qed.
Lemma initClientGetter_trace p h :
  wp (traced any_answer) (initClientGetter now p) (fun h' r =>
    (plugin_meta r.1 = plugin_meta p /\ plugin_Spec r.1 = plugin_Spec p) /\
    match r.2 with Ok _ => cluster_access p h' | Err _ => True end) h.
Proof.
  unfold initClientGetter, cluster_access. case_bool_decide as Hn.
  - wp_step. wp_step. destruct Hx as [_ ->]. destruct x; wp_step; cbn [fst snd]; [done|].
    split; [apply access_ok_same|set_solver].
  - wp_step. wp_step. destruct Hx as [_ ->]. destruct x as [cluster|]; [|by wp_step].
    destruct (IsReadyTrue _) eqn:Hr; cbn [negb]; [|by wp_step].
    wp_step. wp_step. destruct Hx as [_ ->]. destruct x as [secret|]; [|by wp_step].
    destruct (ValidateSecretForKubeConfig secret) eqn:Hs; wp_step; cbn [fst snd]; [done|].
    split; [apply access_ok_same|]. exists cluster, secret. set_solver.
Qed.

Lemma wp_panic {A W} (R : W -> forall X, fluxE X -> X -> W -> Prop) (Q : W -> A -> Prop) w :
  wp R panic Q w.
Proof. intros []. Qed.

(** The specification of the Plugin's definition was read. *)
Definition definition_read (p : Plugin) (spec : PluginDefinitionSpec) (t : trace) : Prop :=
  let ref := PluginDefinitionRef (plugin_Spec p) in
  (exists pd, Call (XDefinition (GetPluginDefinition (mk_key (GetNamespace p) (pdr_Name ref)))) (Ok pd) ∈ t /\
     pdr_Kind ref = PluginDefinitionKind /\ pd_Spec pd = spec) \/
  (exists cpd, Call (XDefinition (GetClusterPluginDefinition (mk_key "" (pdr_Name ref)))) (Ok cpd) ∈ t /\
     pdr_Kind ref = ClusterPluginDefinitionKind /\ cpd_Spec cpd = spec).
Lemma GetPluginDefinitionSpec_trace p h :
  wp (traced any_answer) (translate (fun _ => XDefinition)
       (GetPluginDefinitionSpec (PluginDefinitionRef (plugin_Spec p)) (GetNamespace p)))
    (fun h' r => match r with Ok spec => definition_read p spec h' | Err _ => True end) h.
Proof.
  unfold GetPluginDefinitionSpec, definition_read. wp_step.
  case_bool_decide; [|case_bool_decide; [|by case_bool_decide; wp_step]];
    wp_step; wp_step; destruct Hx as [_ ->]; wp_step; destruct x as [d|e]; [|by destruct (is_not_found _)| |by destruct (is_not_found _)].
  - left. exists d. set_solver.
  - right. exists d. set_solver.
Qed.

(** The server's answer to the label patch replaces the object, its status included. *)
Definition label_patch (p : Plugin) (t : trace) : Prop :=
  exists before after, Call (XPlugin (KubePatch before after)) (Ok p) ∈ t.
Lemma technical_labels_trace p h :
  wp (traced any_answer) (translate (fun _ => XPlugin) (patch technical_labels p false))
    (fun h' r => conditions r.1 = conditions p \/ label_patch r.1 h') h.
Proof.
  unfold patch. destruct (technical_labels p) as [p' err] eqn:Hl.
  assert (conditions p' = conditions p) as Hc by (unfold technical_labels in Hl; by simplify_eq).
  destruct err as [e|]; [by repeat wp_step; left|].
  case_bool_decide; [by repeat wp_step; left|]. wp_step. wp_step. wp_step.
  destruct Hx as [_ ->]. destruct x as [o|]; wp_step; [right|by left].
  exists p, p'. set_solver.
Qed.

Lemma wp_kept {A} (I : trace -> Prop) (p : prog fluxE A) (Q : trace -> A -> Prop) h :
  (forall t c, I t -> I (t ++ [c])) -> I h ->
  wp (traced any_answer) p Q h -> wp (traced any_answer) p (fun h' a => I h' /\ Q h' a) h.
Proof.
  intros Hmon Hh Hp. apply (wp_and _ _ (fun h' _ => I h')); [|done].
  apply wp_inv; [|done]. intros h1 X e x h2 H1 [_ ->]. by apply Hmon.
Qed.
Lemma cluster_access_app p t c : cluster_access p t -> cluster_access p (t ++ [c]).
Proof.
  unfold cluster_access. case_bool_decide; [set_solver|].
  intros (cl & s & ? & ? & ? & ?). exists cl, s. set_solver.
Qed.
Lemma definition_read_app p spec t c : definition_read p spec t -> definition_read p spec (t ++ [c]).
Proof. intros [(d & ? & ?)|(d & ? & ?)]; [left|right]; exists d; set_solver. Qed.
Definition release_read (spec : PluginDefinitionSpec) (p p' : Plugin) (t : trace) : Prop :=
  match pd_HelmChart spec with
  | None => True
  | Some _ => exists r, Call (XGetRelease (release_key p)) r ∈ t /\ release_reported spec p p' r
  end.
Lemma release_read_app spec p p' t c : release_read spec p p' t -> release_read spec p p' (t ++ [c]).
Proof.
  unfold release_read. destruct (pd_HelmChart spec); [|done]. intros (r & ? & ?). exists r. set_solver.
Qed.
Lemma wp_fetch_then getter spec es p h I :
  (forall t c, I t -> I (t ++ [c])) -> I h ->
  wp (traced any_answer) (fetchReleaseStatus now now_text DNSDomain getter spec es p)
    (fun h' p' => I h' /\ release_read spec p p' h') h.
Proof.
  intros Hmon Hh. apply wp_kept; [done|done|]. unfold release_read.
  destruct (pd_HelmChart spec) as [ref|] eqn:Href; [by eapply fetchReleaseStatus_trace|].
  apply wp_true.
Qed.

(** The HelmRelease was created and Flux reports it deployed, according to the object
    read in this pass or, when the labels were patched, to the answer to the patch. *)
Definition release_ready (p p' : Plugin) (t : trace) : Prop :=
  (exists c, condition p' HelmReleaseCreatedCondition = Some c /\ holds c) /\
  (exists c, condition p' HelmReleaseDeployedCondition = Some c /\ holds c) /\
  ((exists hr, Call (XGetRelease (release_key p)) (Ok hr) ∈ t /\ flux_holds hr) \/ label_patch p' t).

Lemma ready_of_release_holds rc sc c :
  ready_of_release rc sc = Some c -> IsTrue c = true ->
  (exists d, GetConditionByType sc HelmReleaseCreatedCondition = Some d /\ holds d) /\
  (exists d, GetConditionByType sc HelmReleaseDeployedCondition = Some d /\ holds d).
Proof.
  unfold ready_of_release, holds.
  destruct (GetConditionByType sc HelmReleaseCreatedCondition) as [d|]; [|done].
  cbn [mbind option_bind].
  destruct (IsFalse d) eqn:?, (IsUnknown d) eqn:?; cbn [orb]; try by intros [= <-].
  destruct (GetConditionByType sc HelmReleaseDeployedCondition) as [d'|]; [|done].
  cbn [mbind option_bind].
  destruct (IsFalse d') eqn:?, (IsUnknown d') eqn:?; cbn [orb]; try by intros [= <-].
  intros _ _. eauto 10.
Qed.

(** What a ready Plugin means.  Whatever the API server and the remote cluster
    answer, the condition computed for Ready is True only if in this pass the cluster
    of the Plugin was found ready with a valid kubeconfig Secret (or the Plugin is for
    the central cluster), the plugin definition was read, and, unless the definition
    has no Helm chart, HelmReleaseCreated and HelmReleaseDeployed are neither False
    nor Unknown because Flux's HelmRelease named after the Plugin was read and its own
    Ready condition is neither; the only exception is a pass in which the technical
    labels changed, when the conditions are those the server answered to the patch. *)
Theorem computeReadyConditionFlux_ready p h :
  wp (traced any_answer) (computeReadyConditionFlux now now_text DNSDomain p) (fun h' r =>
    IsTrue r.2 = true ->
    cluster_access p h' /\
    exists spec, definition_read p spec h' /\
      match pd_HelmChart spec with
      | None => True
      | Some _ => release_ready p r.1 h'
      end) h.
Proof.
  unfold computeReadyConditionFlux.
  destruct (condition p ReadyCondition) as [rc|]; [|apply wp_panic].
  wp_step. eapply wp_mono; [|apply initClientGetter_trace].
  intros h1 [p1 [[getter cl]|e]] [[Hm Hs] Hacc]; cbn [fst snd] in *; [|by wp_step].
  wp_step. eapply wp_mono; [|apply wp_kept, GetPluginDefinitionSpec_trace; [apply cluster_access_app|done]].
  clear Hacc. intros h2 [spec|e] [Hacc Hdef]; [|by wp_step].
  set (p2 := set_description _ _).
  assert (GetNamespace p1 = GetNamespace p /\ release_key p2 = release_key p) as [Hns Hkey]
    by (unfold release_key, GetNamespace, GetName; cbn; by rewrite Hm).
  assert (definition_read p spec h2) as Hdef' by (revert Hdef; unfold definition_read; by rewrite Hs, Hns).
  wp_step. eapply wp_mono; [|apply (wp_fetch_then _ _ _ _ _ (fun t => cluster_access p t /\ definition_read p spec t))];
    [|intros t c []; split; [by apply cluster_access_app|by apply definition_read_app]|done].
  clear Hacc Hdef Hdef'. intros h3 p3 [Hpast Hrel]. wp_step.
  eapply wp_mono; [|apply (wp_kept (fun t => (cluster_access p t /\ definition_read p spec t) /\
    release_read spec p2 p3 t)), technical_labels_trace; [|done]]; cycle 1.
  { intros t c [[Ha Hd] Hr]. split; [split|]; [by apply cluster_access_app|by apply definition_read_app|by apply release_read_app]. }
  clear Hpast Hrel. intros h4 [p4 res] [[[Hacc Hdef] Hrel] Hlab]; cbn [fst snd] in *. unfold release_read in Hrel.
  destruct (pd_HelmChart spec) as [ref|] eqn:Href.
  - destruct (ready_of_release rc (conditions p4)) as [c|] eqn:Hready; [|apply wp_panic].
    wp_step. cbn [fst snd]. intros Hc. split; [done|]. exists spec. split; [done|]. rewrite Href.
    destruct (ready_of_release_holds _ _ _ Hready Hc) as [Hcr (d & Hd & Hh)].
    split; [done|]. split; [eauto|]. destruct Hlab as [Hsame|Hlab]; [|by right]. left.
    rewrite Hsame in Hd. destruct Hrel as ([hr|e] & Hin & _ & Hrel).
    + exists hr. split; [by rewrite <-Hkey|]. destruct Hrel as (_ & _ & Hrel). by apply (Hrel d).
    + destruct Hrel as (_ & _ & Hrel). destruct Hh as [Hf _]. by rewrite (Hrel d Hd) in Hf.
  - wp_step. intros _. split; [done|]. exists spec. by rewrite Href.
Qed.
End readiness.

(** ** No nil condition is dereferenced *)
Section panics.
Variable now : Z.
Variable now_text DNSDomain pluginKind : string.
Variable ExpressionEvaluationEnabled IntegrationEnabled OCIMirroringEnabled : bool.
Context {Libs : PluginLibs} {HSort : SortByName} {HParse : RefParser}.

Definition exposes (p : Plugin) : Prop :=
  forall t, t ∈ plugin_exposedConditions ->
    is_Some (GetConditionByType (plugin_conditions (plugin_Status p)) t).
Definition flux_not_panic X (e : fluxE X) : Prop :=
  match e with XPanic => False | _ => True end.
(** The answers to a label patch hold the conditions of the Plugin; everything else is
    arbitrary. *)
Definition label_answers (w : unit) X (e : fluxE X) (x : X) (w' : unit) : Prop :=
  match e in fluxE X return X -> Prop with
  | XPlugin e =>
      match e in kubeE _ X return X -> Prop with
      | KubePatch _ _ => fun r => match r with Ok o => exposes o | Err _ => True end
      | _ => fun _ => True
      end
  | _ => fun _ => True
  end x.

Lemma exposes_SetCondition c p : exposes p -> exposes (SetCondition now c p).
Proof.
  intros He t Ht. rewrite condition_SetCondition. case_bool_decide; [done|]. by apply He.
Qed.
Local Hint Resolve exposes_SetCondition : core.
Lemma exposes_InitPluginStatus p : exposes (InitPluginStatus now p).
Proof.
  intros t Ht. unfold InitPluginStatus. generalize (fold_left (fun p t => RemoveCondition t p) deprecatedConditions p).
  intros p'. destruct (plugin_HelmReleaseStatus _); by apply init_conditions_get.
Qed.
Lemma exposes_access_ok p : exposes p -> exposes (access_ok now p).
Proof.
  intros He. unfold access_ok. destruct (GetConditionByType _ _); [case_bool_decide|]; auto.
Qed.
Local Hint Resolve exposes_access_ok : core.

Local Abbreviation keeps prg w := (wp label_answers prg (fun _ r => exposes r.1) w).
Lemma initClientGetter_exposes p w : exposes p -> keeps (initClientGetter now p) w.
Proof.
  intros He. unfold initClientGetter, access_failed, created_false.
  repeat (case_match || wp_step); cbn [fst]; auto.
Qed.
Lemma computeReleaseValues_exposes p w : exposes p ->
  keeps (computeReleaseValues DNSDomain ExpressionEvaluationEnabled IntegrationEnabled pluginKind p) w.
Proof.
  intros He. unfold computeReleaseValues. wp_step. wp_skip. case_match; [|by wp_step].
  case_match; [|by wp_step]. wp_step. wp_skip. wp_step; [|by wp_step]. case_match. case_match; [|by wp_step].
  wp_step. wp_skip. by wp_step.
Qed.
Lemma createRegistryMirror_exposes p spec hc ovs w : exposes p ->
  keeps (createRegistryMirrorPostRenderer now OCIMirroringEnabled p spec hc ovs) w.
Proof.
  intros He. unfold createRegistryMirrorPostRenderer, created_false.
  case_match; [by wp_step|]. wp_step. wp_skip. case_match; [|wp_step; cbn [fst]; by auto].
  case_match; [|by wp_step]. case_match; [by wp_step|]. wp_step. wp_skip.
  case_match; [|wp_step; cbn [fst]; by auto]. wp_step.
  eapply wp_mono; [|by apply initClientGetter_exposes]. intros w1 [p1 g] Hp1; cbn [fst] in Hp1.
  case_match; [|by wp_step]. case_match. wp_step. wp_skip. case_match; [|wp_step; cbn [fst]; by auto].
  wp_step. wp_skip. case_match; [|wp_step; cbn [fst]; by auto].
  unfold ensureImageReplication, created_false. wp_step. wp_step. wp_skip. case_match.
  case_bool_decide; wp_step; by repeat wp_step; cbn [fst]; auto.
Qed.
Lemma EnsureFluxCreated_exposes p w : exposes p ->
  keeps (EnsureFluxCreated now DNSDomain ExpressionEvaluationEnabled IntegrationEnabled
           OCIMirroringEnabled pluginKind p) w.
Proof.
  intros He. unfold EnsureFluxCreated, created_false. wp_step. wp_skip.
  case_match; [|wp_step; cbn [fst]; by auto].
  case_match; [|wp_step; cbn [fst]; by apply exposes_SetCondition].
  wp_step. wp_skip. case_match; [|wp_step; cbn [fst]; by auto].
  wp_step. eapply wp_mono; [|by apply computeReleaseValues_exposes]. intros w1 [p1 v] Hp1; cbn [fst] in Hp1.
  case_match; [|wp_step; cbn [fst]; by auto].
  wp_step. apply wp_mono with (Q := fun _ r => exposes r.1).
  { intros w2 [p2 err] Hp2. case_match; wp_step; cbn [fst] in *; auto. }
  unfold ensureHelmRelease, created_false. case_match; [|wp_step; cbn [fst]; by auto].
  wp_step. eapply wp_mono; [|by apply createRegistryMirror_exposes]. intros w2 [p2 r] Hp2; cbn [fst] in Hp2.
  case_match; [|by wp_step]. wp_step. wp_step. case_match; wp_step; cbn [fst]; auto.
Qed.

(** The conditioner. *)
Lemma fetchReleaseStatus_exposes getter spec es p w : exposes p ->
  wp label_answers (fetchReleaseStatus now now_text DNSDomain getter spec es p) (fun _ p' => exposes p') w.
Proof.
  intros He. unfold fetchReleaseStatus. case_match; [|by wp_step].
  wp_step. wp_step. case_match; [|wp_step; unfold deployed_false, synced; by auto].
  wp_step. apply wp_mono with (Q := fun _ r => exposes r.1).
  - intros w1 [p1 l] Hp1; cbn [fst] in Hp1.
    destruct (release_state _ _ _) as [[st dep] p2] eqn:Hst. case_match.
    eapply wp_mono; [|apply update_checksum_conditions]. intros w2 p3 Hc. unfold exposes. rewrite Hc.
    assert (exposes p2) as Hp2; [|exact Hp2]. clear Hc.
    assert (exposes (deployed_condition now (FindStatusCondition a fluxReadyCondition) (set_exposed_services l p1))).
    { unfold deployed_condition. repeat (case_match || case_bool_decide); auto. }
    unfold release_state, deployed_false in Hst. repeat (case_match || case_bool_decide);
      simplify_eq; auto.
  - unfold fetch_exposed, synced. wp_step. wp_skip. case_match; [|wp_step; cbn [fst]; by auto].
    wp_step. wp_skip. case_match; [case_match|]; wp_step; cbn [fst]; auto.
Qed.
Lemma technical_labels_exposes p w : exposes p ->
  keeps (translate (fun _ => XPlugin) (patch technical_labels p false)) w.
Proof.
  intros He. unfold patch, technical_labels. case_bool_decide; [by repeat wp_step|].
  wp_step. wp_step. wp_step. destruct x as [o|]; by wp_step.
Qed.
Lemma ready_of_release_Some rc p : exposes p ->
  is_Some (ready_of_release rc (plugin_conditions (plugin_Status p))).
Proof.
  intros He. unfold ready_of_release.
  destruct (He HelmReleaseCreatedCondition) as [c ->]; [set_solver|]. cbn [mbind option_bind].
  destruct (He HelmReleaseDeployedCondition) as [d ->]; [set_solver|]. cbn [mbind option_bind].
  case_match; [done|]. by case_match.
Qed.
Ltac no_panics := apply safe_all_calls; repeat calls_step; by try apply all_calls_any.

(** The conditioner dereferences three conditions without a check.  Run after
    [EnsureCreated], as the lifecycle does, it reaches no nil pointer, whatever the
    object looked like before and whatever is answered, as long as the object the
    server returns for the patch of the labels holds the conditions the controller
    exposes. *)
Theorem plugin_conditioner_never_panics p :
  wp label_answers
    (plugin_EnsureCreated now DNSDomain ExpressionEvaluationEnabled IntegrationEnabled
       OCIMirroringEnabled pluginKind p)
    (fun w r => safe label_answers flux_not_panic (plugin_setConditions now now_text DNSDomain r.1) w) tt.
Proof.
  eapply wp_mono; [|apply EnsureFluxCreated_exposes, exposes_InitPluginStatus].
  intros w [p1 res] Hp; cbn [fst] in *. unfold plugin_setConditions.
  apply safe_bind; [|eapply wp_mono; [intros w2 [p2 c] _|apply wp_true]; no_panics].
  unfold computeReadyConditionFlux.
  destruct (Hp ReadyCondition) as [rc ->]; [set_solver|].
  apply safe_bind.
  { unfold initClientGetter. no_panics. }
  eapply wp_mono; [|by apply initClientGetter_exposes].
  intros w2 [p2 [[getter cl]|e]] Hp2; cbn [fst] in *; [|done].
  apply safe_bind; [unfold GetPluginDefinitionSpec; no_panics|]. wp_skip.
  case_match; [|done].
  apply safe_bind.
  { unfold fetchReleaseStatus, fetch_exposed, update_checksum. no_panics. }
  eapply wp_mono; [|by apply fetchReleaseStatus_exposes]. intros w3 p3 Hp3.
  apply safe_bind; [unfold patch; no_panics|].
  eapply wp_mono; [|by apply technical_labels_exposes].
  intros w4 [p4 r] Hp4; cbn [fst] in *. case_match; [|done].
  by destruct (ready_of_release_Some rc p4 Hp4) as [c ->].
Qed.
End panics.

(** ** Trackers are never woken *)
Section triggers.
Variable now : Z.
Variable now_text DNSDomain : string.
Context {Libs : PluginLibs} {HSort : SortByName} {HParse : RefParser}.

Definition no_tracking X (e : fluxE X) : Prop := match e with XTrack _ => False | _ => True end.

Lemma update_checksum_fresh (p : Plugin) s :
  plugin_HelmReleaseStatus (plugin_Status p) = Some s -> PluginOptionChecksum s = "" ->
  all_calls no_tracking (update_checksum now_text p).
Proof.
  intros Hs Hc. unfold update_checksum. rewrite Hs, Hc. calls_step; [|by destruct a].
  destruct (bool_decide _); [done|]. calls_step; [by apply all_calls_translate, all_calls_any|].
  by destruct a.
Qed.

(** The objects that track a Plugin are never reconciled because its values
    changed.  The previous checksum of the option values is read from the status after
    the status was replaced by a fresh one, so it is always empty and
    [reconcileTrackingResources] is never called: whatever is answered, collecting the
    status of a Plugin touches no other object. *)
Theorem fetchReleaseStatus_never_triggers getter spec es p :
  all_calls no_tracking (fetchReleaseStatus now now_text DNSDomain getter spec es p).
Proof.
  unfold fetchReleaseStatus. destruct (pd_HelmChart spec) as [ref|]; [|done].
  calls_step; [done|]. destruct a as [hr|e]; [|done]. calls_step.
  { unfold fetch_exposed. calls_steps; try done. by apply all_calls_any. }
  destruct a as [p1 l]. destruct (release_state _ _ _) as [[status deployed] p2].
  destruct (match hrst_Latest (hr_Status hr) with Some _ => _ | None => _ end) as [first last].
  by eapply update_checksum_fresh.
Qed.
End triggers.

(** ** The HelmRelease that is written *)
Section release.
Context {Libs : PluginLibs} {HSort : SortByName} {HParse : RefParser}.

(** What the Plugin asks of its release, field by field. *)
Record release_of (plugin : Plugin) (chart : HelmChart) (values : string)
    (postRenderer : option (list (string * string))) (hr : HelmRelease) : Prop := {
  ro_chart : hs_ChartRef (hr_Spec hr) =
    Some (mk_chart_ref HelmChartKind (om_name (hc_meta chart)) (om_namespace (hc_meta chart)));
  ro_values : hs_Values (hr_Spec hr) = values;
  ro_valuesFrom : forall name key path,
    mk_values_ref "Secret" name key path ∈ hs_ValuesFrom (hr_Spec hr) <->
    exists v vf, v ∈ OptionValues (plugin_Spec plugin) /\ ov_ValueFrom v = Some vf /\
      vf_Secret vf = Some (mk_skr name key) /\ ov_Name v = path;
  ro_release : hs_ReleaseName (hr_Spec hr) = GetReleaseName plugin;
  ro_target : hs_TargetNamespace (hr_Spec hr) = ReleaseNamespace (plugin_Spec plugin);
  ro_storage : hs_StorageNamespace (hr_Spec hr) = ReleaseNamespace (plugin_Spec plugin);
  ro_cluster : hs_KubeConfig (hr_Spec hr) =
    let name := plugin_ClusterName (plugin_Spec plugin) in
    if bool_decide (name = "") then None else Some (mk_skr name GreenHouseKubeConfigKey);
  ro_active : hs_Suspend (hr_Spec hr) = false;
  ro_dependsOn : hs_DependsOn (hr_Spec hr) =
    resolvePluginDependencies (plugin_WaitFor (plugin_Spec plugin))
      (plugin_ClusterName (plugin_Spec plugin));
  ro_renderers : hs_PostRenderers (hr_Spec hr) =
    match postRenderer with Some r => [r] | None => [] end;
  ro_request : let v := (ReconcileAnnotationValue plugin).1 in
    GetAnnotations hr !! ReconcileRequestAnnotation = (if bool_decide (v = "") then None else Some v)
}.

Lemma addValueReferences_elem plugin name key path :
  mk_values_ref "Secret" name key path ∈ addValueReferences plugin <->
  exists v vf, v ∈ OptionValues (plugin_Spec plugin) /\ ov_ValueFrom v = Some vf /\
    vf_Secret vf = Some (mk_skr name key) /\ ov_Name v = path.
Proof.
  unfold addValueReferences. rewrite list_elem_of_omap. split.
  - intros (v & Hv & (s & Hs & [= -> -> ->])%fmap_Some).
    apply bind_Some in Hs as (vf & Hvf & Hs). exists v, vf. by destruct s.
  - intros (v & vf & Hv & Hvf & Hs & <-). exists v. by rewrite Hvf; cbn; rewrite Hs.
Qed.

Lemma release_spec_ok plugin chart values pr :
  exists s, release_spec plugin chart values pr = Ok s /\
    forall hr', hr_Spec hr' = s ->
      (let v := (ReconcileAnnotationValue plugin).1 in
       GetAnnotations hr' !! ReconcileRequestAnnotation = (if bool_decide (v = "") then None else Some v)) ->
      release_of plugin chart values pr hr'.
Proof.
  unfold release_spec. set (b := WithTargetNamespace _ _).
  set (s := match pr with Some r => WithPostRenderers [r] b | None => b end).
  assert (forall B (f : HelmReleaseSpec -> B),
    (forall r, f (set_hs_PostRenderers [r] b) = f b) -> f s = f b) as Hpr by (intros B f Hf; unfold s; destruct pr; [apply Hf|done]).
  exists s. split.
  { unfold Build. rewrite (Hpr _ hs_ChartRef) by done. unfold b. by built hs_ChartRef. }
  intros hr' Hs Hreq. constructor; [..|exact Hreq]; rewrite Hs.
  - rewrite (Hpr _ hs_ChartRef) by done. unfold b. by built hs_ChartRef.
  - rewrite (Hpr _ hs_Values) by done. unfold b. by built hs_Values.
  - rewrite (Hpr _ hs_ValuesFrom) by done. unfold b. built hs_ValuesFrom; [|done].
    apply addValueReferences_elem.
  - rewrite (Hpr _ hs_ReleaseName) by done. unfold b. by built hs_ReleaseName.
  - rewrite (Hpr _ hs_TargetNamespace) by done. unfold b. by built hs_TargetNamespace.
  - rewrite (Hpr _ hs_StorageNamespace) by done. unfold b. by built hs_StorageNamespace.
  - rewrite (Hpr _ hs_KubeConfig) by done. unfold b. by built hs_KubeConfig.
  - rewrite (Hpr _ hs_Suspend) by done. unfold b. by built hs_Suspend.
  - rewrite (Hpr _ hs_DependsOn) by done. unfold b. by built hs_DependsOn.
  - unfold s. destruct pr; [done|]. unfold b. by built hs_PostRenderers.
Qed.

Lemma EnsureAnnotation_get {O} `{ObjectLaws O} key v (o : O) k :
  GetAnnotations (EnsureAnnotation key v o) !! k =
  if bool_decide (k = key) then (if bool_decide (v = "") then None else Some v)
  else GetAnnotations o !! k.
Proof.
  unfold EnsureAnnotation.
  case_bool_decide as Hv; case_bool_decide as Hk; rewrite GetAnnotations_SetAnnotations;
    by rewrite ?Hk, ?lookup_delete_eq, ?lookup_insert_eq, ?lookup_delete_ne, ?lookup_insert_ne by done.
Qed.
Lemma EnsureAnnotation_rest key v (hr : HelmRelease) :
  hr_Spec (EnsureAnnotation key v hr) = hr_Spec hr /\ hr_Status (EnsureAnnotation key v hr) = hr_Status hr /\
  key_of (EnsureAnnotation key v hr) = key_of hr /\ GetLabels (EnsureAnnotation key v hr) = GetLabels hr /\
  om_finalizers (get_meta (EnsureAnnotation key v hr)) = om_finalizers (get_meta hr).
Proof. unfold EnsureAnnotation. by case_bool_decide. Qed.

(** The HelmRelease a Plugin asks for.  On any stored or new release the mutate
    function succeeds exactly when the owner reference can be set, and then the release
    is field by field what the Plugin, its chart, its computed values and its image
    rewrites ask for: the chart of the definition, the release name and namespace of
    the Plugin, the kubeconfig Secret of its cluster (none for the central cluster),
    one reference for every option value taken from a Secret, not suspended, and a
    reconciliation requested exactly when the Plugin's annotation asks for one.  Name,
    labels, finalizers, status and other annotations of the release are kept. *)
Theorem mutate_release_spec plugin chart values pr release :
  match mutate_release plugin chart values pr release with
  | Ok hr =>
      release_of plugin chart values pr hr /\ key_of hr = key_of release /\
      hr_Status hr = hr_Status release /\ GetLabels hr = GetLabels release /\
      om_finalizers (get_meta hr) = om_finalizers (get_meta release) /\
      forall k, k <> ResetRequestAnnotation -> k <> ReconcileRequestAnnotation ->
        GetAnnotations hr !! k = GetAnnotations release !! k
  | Err e => exists r, plugin_SetControllerReference plugin r = Err e
  end.
Proof.
  destruct (release_spec_ok plugin chart values pr) as (s & Hs & Hok).
  unfold mutate_release. rewrite Hs. cbv zeta. set (val := (ReconcileAnnotationValue plugin).1) in *.
  set (r1 := EnsureAnnotation ReconcileRequestAnnotation val (hr_set_spec s release)).
  set (r2 := EnsureAnnotation ResetRequestAnnotation val r1).
  destruct (plugin_SetControllerReference plugin r2) as [owners|e] eqn:Ho; [|by exists r2].
  set (hr := set_meta (with_owners owners (get_meta r2)) r2).
  destruct (EnsureAnnotation_rest ReconcileRequestAnnotation val (hr_set_spec s release)) as (A1&A2&A3&A4&A5).
  destruct (EnsureAnnotation_rest ResetRequestAnnotation val r1) as (B1&B2&B3&B4&B5).
  fold r1 in A1, A2, A3, A4, A5. fold r2 in B1, B2, B3, B4, B5.
  assert (forall k, GetAnnotations hr !! k = GetAnnotations r2 !! k) as Hann by done.
  split; [|repeat split].
  - apply Hok; [transitivity (hr_Spec r2); [done|]; by rewrite B1, A1|].
    rewrite Hann. unfold r2. rewrite EnsureAnnotation_get. unfold r1. rewrite EnsureAnnotation_get.
    by rewrite bool_decide_false, bool_decide_true by done.
  - transitivity (key_of r2); [done|]. by rewrite B3, A3.
  - transitivity (hr_Status r2); [done|]. by rewrite B2, A2.
  - transitivity (GetLabels r2); [done|]. by rewrite B4, A4.
  - transitivity (om_finalizers (get_meta r2)); [done|]. by rewrite B5, A5.
  - intros k Hk1 Hk2. rewrite Hann. unfold r2. rewrite EnsureAnnotation_get. unfold r1.
    rewrite EnsureAnnotation_get. by rewrite !bool_decide_false by done.
Qed.
End release.

(** ** Trackers of other objects, with concurrent writers *)
Section trackers.
Variable DNSDomain pluginKind : string.
Variable ExpressionEvaluationEnabled IntegrationEnabled : bool.
Context {Libs : PluginLibs} {HSort : SortByName} {HParse : RefParser}.

(** The controller of the Plugin among other writers: only its tracking calls write. *)
Definition fstep (w : tworld) (X : Type) (e : fluxE X) : X -> tworld -> Prop :=
  match e in fluxE X return X -> tworld -> Prop with
  | XTrack e => tstep w _ e
  | _ => fun _ w' => interfere w w'
  end.

(** A write for the Plugin with tracking ID [t]: of the trackers of an object in its
    namespace it adds or removes its own, and changes nothing but the tracking
    annotation and the label; it removes only from objects recorded before. *)
Definition tracker_write (plugin : Plugin) (t : string) (k : okey) (old new : UObject) : Prop :=
  same_but_tracking old new /\ key_namespace k.2 = GetNamespace plugin /\
  (trackers_of new = {[t]} ∪ trackers_of old \/
   trackers_of new = trackers_of old ∖ {[t]} /\
   exists id kind name, id ∈ TrackedObjects (plugin_Status plugin) /\
     parseTrackingID id = Ok (kind, name) /\ k = (kind, mk_key (GetNamespace plugin) name)).

Lemma wp_tracking {A} (p : prog trackE A) Q w :
  wp tstep p Q w -> wp fstep (translate (fun _ => XTrack) p) Q w.
Proof. intros Hp. apply wp_translate. exact Hp. Qed.
Lemma wp_not_tracking {A} (p : prog valuesE A) P w :
  wp fstep (translate (fun _ => XValues) p) (fun w' _ => wrote P w w') w.
Proof.
  apply wp_mono with (Q := fun w' _ => tw_log w' = tw_log w); [intros; by apply wrote_refl|].
  apply wp_translate, wp_inv; [|done]. intros w1 X e x w2 H1 (H2 & _). congruence.
Qed.

Lemma resolve_value_writes plugin data v w :
  let t := trackingID pluginKind (GetName plugin) in
  valid_tracker t ->
  wp fstep (resolve_value ExpressionEvaluationEnabled IntegrationEnabled pluginKind plugin data v)
    (fun w' _ => wrote (tracker_write plugin t) w w') w.
Proof.
  intros t Ht. unfold resolve_value.
  destruct (ov_Value v); [by apply wp_ret, wrote_refl|].
  destruct (ov_Expression v).
  { destruct (negb _); [by apply wp_ret, wrote_refl|].
    destruct (ResolveExpression _ _ _ _ _); by apply wp_ret, wrote_refl. }
  destruct (ov_ValueFrom v ≫= vf_Ref) as [ref|].
  - destruct (negb _); [by apply wp_ret, wrote_refl|].
    apply wp_bind. eapply wp_mono; [|by apply wp_tracking, resolveValueFromRef_adds].
    intros w1 r [Hw _].
    assert (wrote (tracker_write plugin t) w w1) as Hw1.
    { eapply wrote_mono; [|exact Hw]. intros k o o' ((nm & -> & _) & Htr & Hs).
      split; [done|]. split; [done|]. by left. }
    destruct r as [[[resolved|] trackers]|e]; [by apply wp_ret|apply wp_panic|by apply wp_ret].
  - destruct (ov_ValueFrom v ≫= vf_Secret); by apply wp_ret, wrote_refl.
Qed.

Lemma resolve_values_writes plugin data ovs w :
  let t := trackingID pluginKind (GetName plugin) in
  valid_tracker t ->
  wp fstep (resolve_values ExpressionEvaluationEnabled IntegrationEnabled pluginKind plugin data ovs)
    (fun w' _ => wrote (tracker_write plugin t) w w') w.
Proof.
  intros t Ht. unfold resolve_values.
  apply wp_foreach_bind with (I := fun _ w' _ => wrote (tracker_write plugin t) w w').
  - by apply wrote_refl.
  - intros w1 s Hw1. by apply wp_ret.
  - intros v l w1 [vals tracked] Hw1. cbn beta iota. apply wp_bind.
    eapply wp_mono; [|by apply resolve_value_writes]. intros w2 r Hw2.
    assert (wrote (tracker_write plugin t) w w2) by (by eapply wrote_trans).
    destruct r as [[v' trs]|e]; apply wp_ret; [done|]. by apply wp_ret.
Qed.

(** Trackers of other objects are sets, and Plugins share them safely.  While
    other writers change the objects between any two calls, every write that resolving
    the values of a Plugin makes replaces an object of the Plugin's namespace by
    itself with the Plugin's own tracking ID added, or, for an object recorded in the
    status of the Plugin, removed: no tracker of another Plugin is lost and nothing
    else of the object changes. *)
Theorem computeReleaseValues_tracks (plugin : Plugin) (w : tworld) :
  char_in trackingSeparator pluginKind = false ->
  char_in trackingSeparator (GetName plugin) = false ->
  wp fstep (computeReleaseValues DNSDomain ExpressionEvaluationEnabled IntegrationEnabled pluginKind plugin)
    (fun w' r => wrote (tracker_write plugin (trackingID pluginKind (GetName plugin))) w w' /\
       get_meta r.1 = get_meta plugin /\ plugin_Spec r.1 = plugin_Spec plugin) w.
Proof.
  intros Hk Hn. assert (valid_tracker (trackingID pluginKind (GetName plugin))) as Ht.
  { split; [apply trackingID_not_empty|]. unfold trackingID. by rewrite !char_in_app, Hk, Hn. }
  unfold computeReleaseValues. apply wp_bind. eapply wp_mono; [|apply wp_not_tracking].
  intros w1 [ovs|e] Hw1; [|by apply wp_ret].
  destruct (cel_resolver _ ovs) as [data|e]; [|by apply wp_ret].
  apply wp_bind. eapply wp_mono; [|by apply resolve_values_writes].
  intros w2 r Hw2. assert (wrote (tracker_write plugin (trackingID pluginKind (GetName plugin))) w w2)
    as Hw12 by (by eapply wrote_trans).
  destruct r as [[vals tracked]|e]; [|by apply wp_ret].
  destruct IntegrationEnabled; [|by apply wp_ret].
  apply wp_bind. eapply wp_mono; [|apply wp_tracking, removeUntracked_removes].
  intros w3 err Hw3. apply wp_ret. split; [|done]. eapply wrote_trans; [done|].
  eapply wrote_mono; [|exact Hw3]. intros k o o' ((id & kind & name & Hid & _ & Hp & ->) & Htr & Hs).
  split; [done|]. split; [done|]. right. split; [done|]. by exists id, kind, name.
Qed.
End trackers.

(** ** A reference to nothing *)
Section missing.
Variable pluginKind : string.
Context {Libs : PluginLibs} {HSort : SortByName} {HParse : RefParser}.

(** A Plugin that takes a value from an object that does not exist crashes its
    controller.  For an option whose only source is a reference by name without a
    selector, [resolve_value] reads the object and, when it is not found, dereferences
    the nil option value that [ResolveValueFromRef] returned without an error. *)
Theorem resolve_value_missing ExpressionEvaluationEnabled (plugin : Plugin) data v vf ref :
  ov_Value v = None -> ov_Expression v = None -> ov_ValueFrom v = Some vf -> vf_Ref vf = Some ref ->
  evs_Name ref <> "" -> evs_Selector ref = None ->
  exists k,
    resolve_value ExpressionEvaluationEnabled true pluginKind plugin data v =
      PVis (XTrack (TGet (kind_of_ref pluginKind ref) (mk_key (GetNamespace plugin) (evs_Name ref)))) k /\
    forall e, err_reason e = NotFound -> k (Err e) = panic.
Proof.
  intros Hv He Hvf Href Hname Hsel. unfold resolve_value. rewrite Hv, He, Hvf. cbn [mbind option_bind].
  rewrite Href. cbn [negb]. unfold resolveValueFromRef. fold (kind_of_ref pluginKind ref).
  rewrite bool_decide_false by done.
  eexists. split; [reflexivity|]. intros e Hnf. cbn.
  rewrite bool_decide_true by done. by rewrite Hsel.
Qed.
End missing.

(** ** A concrete environment *)
Module PluginRun.
#[local] Existing Instance HelmValues.ValuesRun.sort_merge.
#[local] Instance libs : PluginLibs := {|
  json_string s := "'" +:+ s +:+ "'"; json_strings l := join "," l;
  json_any v := match v with AOther j => Ok j | ASlice l => Ok (join "," l) | ANilSlice => Ok "null" end;
  helm_Values := strmap; no_values := ∅; json_values m := Ok (join "," (map_to_list m).*1);
  ParseJSON s m := Ok (<[s := ""]> m); EvaluateExpression s _ := Ok s;
  cel_Evaluate _ o := Ok (AOther (uo_content o)); selector_of s := Ok s; sha256_hex s := s;
  yaml_Unmarshal _ := Err (new_error "no mirrors"); local_registry := None;
  join_errors _ := new_error "errors"; artifact_Path id digest := id +:+ "@" +:+ digest;
  plugin_SetControllerReference p _ := Ok [mk_ref "Plugin" (GetName p) "" true];
  DefaultRetrySteps := 5; labels_order := map_to_list; objects_order := map_to_list |}.
#[local] Instance parser : RefParser := fun _ => None.

Definition from_object : PluginOptionValue :=
  mk_ov "endpoint" None (Some (mk_vfs None (Some (mk_evs "" "thanos" None "object.status")))) None.
Definition plugin : Plugin :=
  mk_plugin (named "grafana" "acme")
    (mk_plugin_spec (mk_pdr "grafana" ClusterPluginDefinitionKind) "" [from_object] "prod" "monitoring" "" "" [] [])
    (mk_plugin_status None "" None None None "" ∅ [] "" ["Plugin/old"] []).

Lemma resolve_value_missing_witness :
  exists k, resolve_value false true "Plugin" plugin ∅ from_object =
      PVis (XTrack (TGet "Plugin" (mk_key "acme" "thanos"))) k /\
    forall e, err_reason e = NotFound -> k (Err e) = panic.
Proof. by apply (resolve_value_missing "Plugin" false plugin ∅ from_object _ _ eq_refl eq_refl eq_refl eq_refl). Defined.

Lemma computeReleaseValues_tracks_witness :
  wp fstep (computeReleaseValues "greenhouse.io" false true "Plugin" plugin)
    (fun w' r => wrote (tracker_write plugin "Plugin/grafana") (mk_tworld ∅ 0 []) w' /\
       get_meta r.1 = get_meta plugin /\ plugin_Spec r.1 = plugin_Spec plugin) (mk_tworld ∅ 0 []).
Proof. apply (computeReleaseValues_tracks "greenhouse.io" "Plugin" false true plugin); reflexivity. Defined.
End PluginRun.
