(* ===== verification/Organization.v ===== *)
(** * Organization: the resource and its admission webhook
      ([api/v1alpha1/organization_types.go], [internal/webhook/v1alpha1/organization_webhook.go])

    An Organization is a tenant; its namespace has its name.  The webhook decides
    which SCIM configurations reach the controllers. *)
From S2P Require Import Prelude Conditions Meta WebhookUtil PluginTypes.

(** ** The resource *)
Definition SCIMAPIAvailableCondition : string := "SCIMAPIAvailable".
Definition SecretNotFoundReason : string := "SecretNotFound".
Definition SCIMRequestFailedReason : string := "SCIMRequestFailed".
Definition SCIMConfigErrorReason : string := "SCIMConfigErrorReason".
Definition AuthTypeBasic : string := "basic".
Definition AuthTypeBearerToken : string := "token".

Record ValueFromSource := mk_value_from { vfs_Secret : option SecretKeyReference }.
#[export] Instance ValueFromSource_eq_dec : EqDecision ValueFromSource.
Proof. solve_decision. Defined.
Record SCIMConfig := mk_scim_config {
  BaseURL : string;
  AuthType : string;
  BasicAuthUser : option ValueFromSource;
  BasicAuthPw : option ValueFromSource;
  BearerToken : option ValueFromSource;
  BearerPrefix : string;
  BearerHeader : string
}.
#[export] Instance SCIMConfig_eq_dec : EqDecision SCIMConfig.
Proof. solve_decision. Defined.
Record OIDCConfig := mk_oidc_config {
  oidc_Issuer : string;
  oidc_RedirectURI : string;
  ClientIDReference : SecretKeyReference;
  ClientSecretReference : SecretKeyReference;
  OAuth2ClientRedirectURIs : list string
}.
#[export] Instance OIDCConfig_eq_dec : EqDecision OIDCConfig.
Proof. solve_decision. Defined.
Record Authentication := mk_authentication {
  auth_OIDCConfig : option OIDCConfig; auth_SCIMConfig : option SCIMConfig }.
#[export] Instance Authentication_eq_dec : EqDecision Authentication.
Proof. solve_decision. Defined.
Record OrganizationSpec := mk_org_spec {
  org_DisplayName : string;
  org_Authentication : option Authentication;
  org_Description : string;
  MappedOrgAdminIDPGroup : string;
  ConfigMapRef : string
}.
#[export] Instance OrganizationSpec_eq_dec : EqDecision OrganizationSpec.
Proof. solve_decision. Defined.
Record Organization := mk_org {
  org_meta : ObjectMeta; org_Spec : OrganizationSpec; org_conditions : StatusConditions }.
#[export] Instance Organization_eq_dec : EqDecision Organization.
Proof. solve_decision. Defined.
#[export] Instance Organization_object : Object Organization := {|
  get_meta := org_meta; set_meta m o := mk_org m (org_Spec o) (org_conditions o) |}.
#[export] Instance Organization_object_laws : ObjectLaws Organization.
Proof. by split; intros; repeat match goal with o : Organization |- _ => destruct o end. Qed.
Definition org_set_conditions (sc : StatusConditions) (o : Organization) : Organization :=
  mk_org (org_meta o) (org_Spec o) sc.
#[export] Instance Organization_runtime : RuntimeObject Organization := {|
  GetConditions o := org_conditions o;
  SetCondition now c o := org_set_conditions (SetConditions now (org_conditions o) [c]) o;
  RemoveCondition t o := org_set_conditions (remove_condition t (org_conditions o)) o;
  CanBeSuspended _ := false;
  UpdateLastReconciledAtStatus := None |}.
#[export] Instance Organization_runtime_laws : RuntimeObjectLaws Organization.
Proof. by split. Qed.

Definition GetSCIMConfig (s : OrganizationSpec) : option SCIMConfig :=
  match org_Authentication s with Some a => auth_SCIMConfig a | None => None end.

(** ** The webhook

    [field.ErrorList.ToAggregate] is the parameter [aggregate] of the callers: what
    matters is whether the list is empty. *)
Definition DefaultOrganization (org : Organization) : Organization :=
  let spec := org_Spec org in
  if bool_decide (org_DisplayName spec = "") then
    let normalizedName := trim_space (ReplaceAll (GetName org) "-" " ") in
    mk_org (org_meta org)
      (mk_org_spec normalizedName (org_Authentication spec) (org_Description spec)
         (MappedOrgAdminIDPGroup spec) (ConfigMapRef spec)) (org_conditions org)
  else org.

Definition validateMappedOrgAdminIDPGroup (org : Organization) : option error :=
  if bool_decide (MappedOrgAdminIDPGroup (org_Spec org) = "") then
    Some (required "spec.MappedOrgAdminIDPGroup"
            "An Organization without spec.MappedOrgAdminIDPGroup is invalid")
  else None.

(** [x == nil || x.Secret == nil] *)
Definition no_secret (x : option ValueFromSource) : bool :=
  match x with None => true | Some v => match vfs_Secret v with None => true | Some _ => false end end.

Definition validateSCIMConfig (org : Organization) : list error :=
  match GetSCIMConfig (org_Spec org) with
  | None => []
  | Some scimCfg =>
      let scimPath name := "spec.authentication.scim." +:+ name in
      (if bool_decide (BaseURL scimCfg = "") then [required (scimPath "baseURL") "baseURL is required"] else []) ++
      (if bool_decide (AuthType scimCfg = AuthTypeBasic) then
         (if no_secret (BasicAuthUser scimCfg)
          then [required (scimPath "basicAuthUser") "basicAuthUser and its secret are required"] else []) ++
         (if no_secret (BasicAuthPw scimCfg)
          then [required (scimPath "basicAuthPw") "basicAuthPw and its secret are required"] else [])
       else if bool_decide (AuthType scimCfg = AuthTypeBearerToken) then
         (if no_secret (BearerToken scimCfg)
          then [required (scimPath "bearerToken") "bearerToken and its secret are required"] else [])
       else [invalid (scimPath "authType") (AuthType scimCfg) "authType must be either 'basic' or 'token'"])
  end.

Section webhook.
Variable aggregate : list error -> error.
Definition ToAggregate (errs : list error) : option error :=
  match errs with [] => None | _ => Some (aggregate errs) end.
Definition ValidateCreateOrganization (org : Organization) : option error :=
  ToAggregate ((match validateMappedOrgAdminIDPGroup org with Some e => [e] | None => [] end) ++
               validateSCIMConfig org).
Definition ValidateUpdateOrganization (old org : Organization) : option error :=
  ToAggregate ((match validateMappedOrgAdminIDPGroup org with Some e => [e] | None => [] end) ++
               (if (0 <? length (validateSCIMConfig org))%nat then validateSCIMConfig org else [])).
Definition ValidateDeleteOrganization (org : Organization) : option error := None.

(** ** What an accepted Organization is *)

(** The SCIM configuration names all it takes to build a client. *)
Definition scim_complete (c : SCIMConfig) : Prop :=
  BaseURL c <> "" /\
  (AuthType c = AuthTypeBasic /\ no_secret (BasicAuthUser c) = false /\ no_secret (BasicAuthPw c) = false \/
   AuthType c = AuthTypeBearerToken /\ no_secret (BearerToken c) = false).

Lemma validateSCIMConfig_nil org :
  validateSCIMConfig org = [] <-> forall c, GetSCIMConfig (org_Spec org) = Some c -> scim_complete c.
Proof.
  unfold validateSCIMConfig, scim_complete. destruct (GetSCIMConfig _) as [c|]; [|naive_solver].
  split.
  - intros [H1 H2]%app_eq_nil d [= <-].
    destruct (bool_decide_reflect (BaseURL c = "")) as [Hb|Hb]; [done|]. split; [done|].
    destruct (bool_decide_reflect (AuthType c = AuthTypeBasic)) as [Ht|Ht].
    + apply app_eq_nil in H2 as [H2 H3]. left. by destruct (no_secret (BasicAuthUser c)), (no_secret (BasicAuthPw c)).
    + destruct (bool_decide_reflect (AuthType c = AuthTypeBearerToken)) as [Hk|Hk]; [|done]. right. by destruct (no_secret (BearerToken c)).
  - intros H. destruct (H c eq_refl) as [Hb [(Ht & Hu & Hp)|[Ht Hk]]];
      rewrite (bool_decide_false _ Hb); cbn [app]; rewrite Ht.
    + rewrite (bool_decide_true (AuthTypeBasic = AuthTypeBasic)) by done. by rewrite Hu, Hp.
    + rewrite (bool_decide_false (AuthTypeBearerToken = AuthTypeBasic)) by done.
      rewrite (bool_decide_true (AuthTypeBearerToken = AuthTypeBearerToken)) by done. by rewrite Hk.
Qed.

Lemma ToAggregate_None errs : ToAggregate errs = None <-> errs = [].
Proof. by destruct errs. Qed.

Lemma ValidateUpdateOrganization_eq old org :
  ValidateUpdateOrganization old org = ValidateCreateOrganization org.
Proof. unfold ValidateUpdateOrganization, ValidateCreateOrganization. by destruct (validateSCIMConfig org). Qed.

Lemma ValidateCreateOrganization_None org :
  ValidateCreateOrganization org = None <->
  MappedOrgAdminIDPGroup (org_Spec org) <> "" /\
  forall c, GetSCIMConfig (org_Spec org) = Some c -> scim_complete c.
Proof.
  unfold ValidateCreateOrganization. rewrite ToAggregate_None, <-validateSCIMConfig_nil.
  unfold validateMappedOrgAdminIDPGroup. case_bool_decide; naive_solver.
Qed.
End webhook.
