(* ===== verification/IdentityProvider.v ===== *)
(** * IdentityProvider: the groups of a token ([internal/dex/connector.go])

    Users log in at the connector of an Organization.  The connector asks the upstream
    identity provider who they are and replaces the upstream groups by groups of
    Greenhouse: one for the Organization, some for every Team mapped to an upstream group,
    and one for administrators.  RBAC and the authorization webhook decide by them.

    Calls: the upstream connector, the list of Teams and the Organization.  The iteration
    order of a label map is the parameter [map_order]. *)
From S2P Require Import Prelude Effects Conditions Meta CoreTypes ApiTypes Authz PluginDefinitions AccessWebhook OrgAccess PluginTypes Organization.
From Stdlib Require Import Ascii.

(** [connector.Identity]; the connector data is opaque. *)
Record Identity := mk_identity {
  id_UserID : string; id_Username : string; id_Email : string; id_ConnectorData : string;
  id_Groups : list string }.
Definition with_groups (groups : list string) (i : Identity) : Identity :=
  mk_identity (id_UserID i) (id_Username i) (id_Email i) (id_ConnectorData i) groups.
Inductive idpE : Type -> Type :=
| IHandleCallback (connData : string) : idpE (Identity * option error)
| IRefresh (identity : Identity) : idpE (Identity * option error)
| IListTeams (namespace : string) : idpE (result (list Team))
| IGetOrganization (k : objkey) : idpE (result Organization).

(** [oidcConnector] *)
Record oidcConnector := mk_oidc_connector { conn_id : string; keepUpstreamGroups : bool }.
Definition greenhouseLabelKeyPrefix : string := GroupName +:+ "/".

Section connector.
Variable map_order : strmap -> list (string * string).
Local Abbreviation P := (prog idpE).

Definition append_group (idpGroup group : string) (m : gmap string (list string)) : gmap string (list string) :=
  <[idpGroup := default [] (m !! idpGroup) ++ [group]]> m.
(** The group a label of a Team stands for. *)
Definition label_group (team : Team) (label : string * string) : option string :=
  (fun teamCategoryName => teamCategoryName +:+ ":" +:+ GetName team) <$>
    cut_prefix label.1 greenhouseLabelKeyPrefix.
Definition add_label (team : Team) (m : gmap string (list string)) (label : string * string) :=
  match label_group team label with
  | Some group => append_group (MappedIDPGroup (team_Spec team)) group m
  | None => m
  end.
Definition add_team (m : gmap string (list string)) (team : Team) : gmap string (list string) :=
  fold_left (add_label team) (map_order (GetLabels team))
    (append_group (MappedIDPGroup (team_Spec team)) ("team:" +:+ GetName team) m).
Definition teamNamesByIDPGroups (teams : list Team) : gmap string (list string) :=
  fold_left add_team teams ∅.
Definition add_upstream (teamNames : gmap string (list string)) (roleNames : strmap)
    (groups : list string) (group : string) : list string :=
  let groups := match teamNames !! group with Some l => groups ++ l | None => groups end in
  match roleNames !! group with Some roleName => groups ++ [roleName] | None => groups end.
Definition getGroups (c : oidcConnector) (organization : string) (upstreamGroups : list string) :
    P (result (list string)) :=
  let groups := [OrganizationRoleName (conn_id c)] in
  t ← trigger (IListTeams organization);
  match t with
  | Err e => mret (Err e)
  | Ok teamList =>
      let teamNames := teamNamesByIDPGroups teamList in
      o ← trigger (IGetOrganization (mk_key "" organization));
      match o with
      | Err e => mret (Err e)
      | Ok org =>
          let roleNames := {[ MappedOrgAdminIDPGroup (org_Spec org) := OrganizationAdminRoleName organization ]} in
          let groups := fold_left (add_upstream teamNames roleNames) upstreamGroups groups in
          mret (Ok (if keepUpstreamGroups c then upstreamGroups ++ groups else groups))
      end
  end.
Definition HandleCallback (c : oidcConnector) (connData : string) : P (Identity * option error) :=
  '(identity, err) ← trigger (IHandleCallback connData);
  match err with
  | Some e => mret (identity, Some e)
  | None =>
      r ← getGroups c (conn_id c) (id_Groups identity);
      mret (match r with
            | Err _ => if keepUpstreamGroups c then identity else with_groups [] identity
            | Ok groups => with_groups groups identity
            end, None)
  end.
Definition Refresh (c : oidcConnector) (identity : Identity) : P (Identity * option error) :=
  '(identity, err) ← trigger (IRefresh identity);
  match err with
  | Some e => mret (identity, Some e)
  | None =>
      r ← getGroups c (conn_id c) (id_Groups identity);
      mret (match r with
            | Err _ => with_groups [] identity
            | Ok groups => with_groups groups identity
            end, None)
  end.

(** ** A reference definition

    Without maps: what every upstream group stands for, in order. *)
Definition team_groups (team : Team) : list string :=
  ("team:" +:+ GetName team) :: omap (label_group team) (map_order (GetLabels team)).
Definition mapped_to (group : string) (team : Team) : bool :=
  bool_decide (MappedIDPGroup (team_Spec team) = group).
Definition stands_for (organization : string) (teams : list Team) (org : Organization) (group : string) :
    list string :=
  concat (team_groups <$> List.filter (mapped_to group) teams) ++
  (if bool_decide (group = MappedOrgAdminIDPGroup (org_Spec org))
   then [OrganizationAdminRoleName organization] else []).
Definition reference_groups (c : oidcConnector) (organization : string) (teams : list Team)
    (org : Organization) (upstreamGroups : list string) : list string :=
  (if keepUpstreamGroups c then upstreamGroups else []) ++
  OrganizationRoleName (conn_id c) :: concat (stands_for organization teams org <$> upstreamGroups).

Definition entries (m : gmap string (list string)) (group : string) : list string := default [] (m !! group).
Lemma entries_append g x m g' :
  entries (append_group g x m) g' = entries m g' ++ (if bool_decide (g = g') then [x] else []).
Proof.
  unfold entries, append_group. case_bool_decide as H.
  - subst. by rewrite lookup_insert_eq.
  - rewrite lookup_insert_ne by done. by rewrite app_nil_r.
Qed.
Lemma entries_labels team labels m g :
  entries (fold_left (add_label team) labels m) g =
  entries m g ++ (if mapped_to g team then omap (label_group team) labels else []).
Proof.
  revert m. induction labels as [|kv labels IH]; intros m; cbn [fold_left omap].
  { destruct (mapped_to g team); by rewrite app_nil_r. }
  rewrite IH. unfold add_label. cbn. destruct (label_group team kv) as [x|]; [|done].
  rewrite entries_append, <-app_assoc. unfold mapped_to. by case_bool_decide.
Qed.
Lemma entries_team m team g :
  entries (add_team m team) g = entries m g ++ (if mapped_to g team then team_groups team else []).
Proof.
  unfold add_team. rewrite entries_labels, entries_append, <-app_assoc. unfold mapped_to.
  by case_bool_decide.
Qed.
Lemma entries_teams teams m g :
  entries (fold_left add_team teams m) g =
  entries m g ++ concat (team_groups <$> List.filter (mapped_to g) teams).
Proof.
  revert m. induction teams as [|team teams IH]; intros m; cbn [fold_left List.filter].
  { by rewrite app_nil_r. }
  rewrite IH, entries_team, <-app_assoc. by destruct (mapped_to g team).
Qed.
Lemma upstream_reference organization teams org upstream groups :
  fold_left (add_upstream (teamNamesByIDPGroups teams)
      {[ MappedOrgAdminIDPGroup (org_Spec org) := OrganizationAdminRoleName organization ]}) upstream groups =
  groups ++ concat (stands_for organization teams org <$> upstream).
Proof.
  revert groups. induction upstream as [|g upstream IH]; intros groups; cbn [fold_left].
  { by rewrite app_nil_r. }
  rewrite IH. cbn [fmap list_fmap concat]. rewrite app_assoc. f_equal. unfold add_upstream, stands_for.
  rewrite app_assoc. pose proof (entries_teams teams ∅ g) as He. unfold entries in He at 2.
  rewrite lookup_empty in He. cbn [default from_option app] in He. rewrite <-He. unfold entries, teamNamesByIDPGroups.
  assert (forall X (o : option (list string)), (match o with Some l => X ++ l | None => X end) = X ++ default [] o) as Hd.
  { intros X [|]; [done|]. by rewrite app_nil_r. }
  rewrite Hd. case_bool_decide as Hg.
  - subst g. by rewrite lookup_singleton_eq.
  - rewrite lookup_singleton_ne by done. by rewrite app_nil_r.
Qed.

(** What the API server answers for every namespace and key, if nothing of the
    upstream provider is asked. *)
Definition api_answers (t : string -> result (list Team)) (o : objkey -> result Organization)
    X (e : idpE X) : option X :=
  match e with
  | IListTeams namespace => Some (t namespace)
  | IGetOrganization k => Some (o k)
  | _ => None
  end.
Lemma getGroups_eval c organization upstream t o :
  eval (api_answers t o) (getGroups c organization upstream) =
  Some (match t organization, o (mk_key "" organization) with
        | Ok teams, Ok org => Ok (reference_groups c organization teams org upstream)
        | Err e, _ | Ok _, Err e => Err e
        end).
Proof.
  unfold getGroups. rewrite eval_bind, eval_trigger. cbn [api_answers].
  destruct (t organization) as [teams|e]; [|by rewrite eval_ret].
  rewrite eval_bind, eval_trigger. cbn [api_answers].
  destruct (o (mk_key "" organization)) as [org|e]; rewrite eval_ret; [|done].
  do 2 f_equal. rewrite upstream_reference. unfold reference_groups. by destruct (keepUpstreamGroups c).
Qed.
(** C4: [getGroups] computes the groups of the reference definition.  The two maps it
    builds over all Teams and then reads give, for every upstream group in order, the
    groups of the Teams mapped to it in the order of the list, each with one group per
    label, then the administrators' group; upstream groups come first when they are
    kept.  The Teams are those of the Organization's namespace and the Organization is
    the one of that name; a failed read gives its error. *)
Theorem getGroups_reference c organization upstream t o :
  eval (api_answers t o) (getGroups c organization upstream) =
  Some (match t organization, o (mk_key "" organization) with
        | Ok teams, Ok org => Ok (reference_groups c organization teams org upstream)
        | Err e, _ | Ok _, Err e => Err e
        end).
Proof. apply getGroups_eval. Qed.
End connector.

(** ** Which groups a login gives *)
Definition colon : ascii := ":"%char.
Lemma colon_split a b x y :
  char_in colon a = false -> char_in colon b = false -> a +:+ ":" +:+ x = b +:+ ":" +:+ y -> a = b /\ x = y.
Proof.
  revert b. induction a as [|c a IH]; intros [|d b] Ha Hb H; cbn in *.
  - by injection H.
  - injection H as <- _. by rewrite Ascii.eqb_refl in Hb.
  - injection H as -> _. by rewrite Ascii.eqb_refl in Ha.
  - apply orb_false_iff in Ha as [_ Ha], Hb as [_ Hb]. injection H as -> H.
    by destruct (IH b Ha Hb H) as [-> ->].
Qed.

Section logins.
Variable map_order : strmap -> list (string * string).
Hypothesis map_order_perm : forall m, map_order m ≡ₚ map_to_list m.
(** The definitions that exist, and names as Kubernetes allows them. *)
Variable definitions : list ClusterPluginDefinition.
Hypothesis definition_names : forall cpd, cpd ∈ definitions -> char_in colon (GetName cpd) = false.
Definition label_keys_admitted (team : Team) : Prop :=
  forall key value, GetLabels team !! key = Some value -> allowed_label definitions key.
Definition admitted_team (team : Team) : Prop :=
  label_keys_admitted team /\ char_in colon (GetName team) = false.
(** A category the webhook lets a label name. *)
Definition category (name : string) : Prop :=
  name = "support-group" \/ exists cpd, cpd ∈ definitions /\ GetName cpd = name.
Lemma category_no_colon name : category name -> char_in colon name = false.
Proof. intros [->|(cpd & Hin & <-)]; [done|]. by apply definition_names. Qed.

Definition category_key (name : string) : string := greenhouseLabelKeyPrefix +:+ name.
Lemma team_groups_spec team group : admitted_team team ->
  group ∈ team_groups map_order team <->
  group = GetTeamRoleName (GetName team) \/
  exists name, category name /\ is_Some (GetLabels team !! category_key name) /\
    group = name +:+ ":" +:+ GetName team.
Proof.
  intros [Hl _]. unfold team_groups. rewrite elem_of_cons, list_elem_of_omap.
  apply or_iff_compat_l. setoid_rewrite map_order_perm. unfold label_group. split.
  - intros ([key value] & Hk%elem_of_map_to_list & Hc). cbn [fst] in Hc.
    destruct (cut_prefix key greenhouseLabelKeyPrefix) as [name|] eqn:Hn; [|done]. injection Hc as <-.
    pose proof Hn as Hkey. apply cut_prefix_Some in Hkey. exists name. unfold category_key. rewrite <-Hkey.
    split; [|by eauto]. pose proof (Hl _ _ Hk) as Ha. unfold allowed_label in Ha.
    destruct Ha as (name' & Hname & Hcat).
    { rewrite Hkey. unfold greenhouseLabelKeyPrefix. rewrite append_assoc. apply has_prefix_app. }
    destruct Hname as [Hk'|[_ Hk']]; [|unfold greenhouseLabelKeyPrefix in Hn; congruence].
    rewrite Hk' in Hkey. unfold greenhouseLabelKeyPrefix in Hkey. rewrite append_assoc in Hkey.
    do 2 apply append_inj_l in Hkey. by subst name'.
  - intros (name & _ & [value Hk] & ->). exists (category_key name, value).
    split; [by apply elem_of_map_to_list|]. cbn [fst]. unfold category_key. by rewrite cut_prefix_app.
Qed.

Variable organization : string.
Variable teams : list Team.
Variable org : Organization.
Hypothesis teams_admitted : forall team, team ∈ teams -> admitted_team team.
Abbreviation login upstream :=
  (reference_groups map_order (mk_oidc_connector organization false) organization teams org upstream).

(** The three shapes of a group. *)
Lemma login_spec upstream group :
  group ∈ login upstream <->
  group = OrganizationRoleName organization \/
  (group = OrganizationAdminRoleName organization /\ MappedOrgAdminIDPGroup (org_Spec org) ∈ upstream) \/
  exists team, team ∈ teams /\ MappedIDPGroup (team_Spec team) ∈ upstream /\
    group ∈ team_groups map_order team.
Proof.
  unfold reference_groups. cbn. rewrite elem_of_cons. apply or_iff_compat_l.
  rewrite list_elem_of_In, in_concat. setoid_rewrite <-list_elem_of_In. setoid_rewrite list_elem_of_fmap.
  unfold stands_for. split.
  - intros (l & (g & -> & Hg) & Hin). apply elem_of_app in Hin as [Hin|Hin].
    + right. apply list_elem_of_In, in_concat in Hin as (l & Hl & Hx).
      apply list_elem_of_In, list_elem_of_fmap in Hl as (team & -> & Ht). apply list_elem_of_In in Hx.
      apply list_elem_of_In, filter_In in Ht as [Ht Hm]. apply bool_decide_eq_true in Hm.
      exists team. subst g. by rewrite list_elem_of_In.
    + left. case_bool_decide as Ha; [|by apply not_elem_of_nil in Hin].
      apply list_elem_of_singleton in Hin as ->. by rewrite <-Ha.
  - intros [[-> Ha]|(team & Ht & Hm & Hin)].
    + eexists; split; [eexists; split; [reflexivity|exact Ha]|]. apply elem_of_app. right.
      rewrite bool_decide_eq_true_2 by done. set_solver.
    + eexists; split; [eexists; split; [reflexivity|exact Hm]|]. apply elem_of_app. left.
      apply list_elem_of_In, in_concat. exists (team_groups map_order team).
      rewrite <-!list_elem_of_In. split; [|done]. apply list_elem_of_fmap. exists team. split; [done|].
      apply list_elem_of_In, filter_In. rewrite <-list_elem_of_In. split; [done|]. by apply bool_decide_eq_true.
Qed.

(** A group written [a:x] that a Team gives names that Team. *)
Lemma team_group_shape team a x :
  admitted_team team -> char_in colon a = false ->
  a +:+ ":" +:+ x ∈ team_groups map_order team <->
  x = GetName team /\ (a = "team" \/ category a /\ is_Some (GetLabels team !! category_key a)).
Proof.
  intros Hteam Ha. rewrite team_groups_spec by done.
  change (GetTeamRoleName (GetName team)) with ("team" +:+ ":" +:+ GetName team). split.
  - intros [H|(name & Hc & Hl & H)]; apply colon_split in H as [-> ->]; eauto using category_no_colon.
  - intros [-> [->|[Hc Hl]]]; eauto.
Qed.
Lemma login_group upstream a x :
  char_in colon a = false -> a <> "organization" -> a <> "role" ->
  a +:+ ":" +:+ x ∈ login upstream <->
  exists team, team ∈ teams /\ GetName team = x /\ MappedIDPGroup (team_Spec team) ∈ upstream /\
    (a = "team" \/ category a /\ is_Some (GetLabels team !! category_key a)).
Proof.
  intros Ha Ho Hr. rewrite login_spec. split.
  - intros [H|[[H _]|(team & Ht & Hm & Hg)]].
    + change (a +:+ ":" +:+ x = "organization" +:+ ":" +:+ organization) in H.
      by apply colon_split in H as [-> _].
    + change (a +:+ ":" +:+ x = "role" +:+ ":" +:+ (organization +:+ ":admin")) in H.
      by apply colon_split in H as [-> _].
    + apply team_group_shape in Hg as [-> Hg]; eauto 10.
  - intros (team & Ht & <- & Hm & Hc). right. right. exists team.
    split; [done|]. split; [done|]. apply team_group_shape; eauto.
Qed.

Lemma login_member upstream o :
  (forall cpd, cpd ∈ definitions -> GetName cpd <> "organization") ->
  OrganizationRoleName o ∈ login upstream <-> o = organization.
Proof.
  intros Hno. rewrite login_spec. split; [|by intros ->; left].
  intros [H|[[H _]|(team & Ht & _ & Hg)]]; [by apply append_inj_l in H|done|].
  change (OrganizationRoleName o) with ("organization" +:+ ":" +:+ o) in Hg.
  apply team_group_shape in Hg as [_ [?|[[?|(cpd & Hin & Hn)] _]]]; eauto; try done.
  by apply Hno in Hin.
Qed.
Lemma login_admin upstream o :
  OrganizationAdminRoleName o ∈ login upstream <->
  o = organization /\ MappedOrgAdminIDPGroup (org_Spec org) ∈ upstream.
Proof.
  rewrite login_spec. split; [|intros [-> Hg]; right; by left].
  intros [H|[[H Hg]|(team & Ht & _ & Hg)]]; [done|..].
  - unfold OrganizationAdminRoleName in H. apply append_inj_l, append_inj_r in H. by subst.
  - change (OrganizationAdminRoleName o) with ("role" +:+ ":" +:+ (o +:+ ":admin")) in Hg.
    apply team_group_shape in Hg as [Hn _]; eauto. destruct (teams_admitted team Ht) as [_ Hc].
    rewrite <-Hn, char_in_app, orb_true_r in Hc. done.
Qed.
(** The groups of a login.  When the Teams of an Organization passed the webhook
    and no definition is called "organization", a login at its connector that keeps no
    upstream groups gives the membership of that Organization and of no other, the
    administrators' group of that Organization alone and exactly to the mapped upstream
    group, and the claim of a support group exactly for a Team that carries the label,
    whatever its value, and is mapped to one of the user's groups. *)
Theorem admitted_login upstream :
  (forall cpd, cpd ∈ definitions -> GetName cpd <> "organization") ->
  forall t o, t organization = Ok teams -> o (mk_key "" organization) = Ok org -> exists groups,
  eval (api_answers t o)
    (getGroups map_order (mk_oidc_connector organization false) organization upstream) = Some (Ok groups) /\
  (forall o, OrganizationRoleName o ∈ groups <-> o = organization) /\
  (forall o, OrganizationAdminRoleName o ∈ groups <->
     o = organization /\ MappedOrgAdminIDPGroup (org_Spec org) ∈ upstream) /\
  (forall x, supportGroupClaimPrefix +:+ x ∈ groups <->
     exists team, team ∈ teams /\ GetName team = x /\ MappedIDPGroup (team_Spec team) ∈ upstream /\
       is_Some (GetLabels team !! LabelKeySupportGroup)).
Proof.
  intros Hno t o Ht Ho. exists (login upstream). split; [by rewrite getGroups_eval, Ht, Ho|].
  split_and!; [intros o2; by apply login_member|apply login_admin|].
  intros x. change (supportGroupClaimPrefix +:+ x) with ("support-group" +:+ ":" +:+ x).
  rewrite login_group by done. unfold category.
  change (category_key "support-group") with LabelKeySupportGroup. naive_solver.
Qed.

End logins.

(** ** Failures of the API server *)
Section failures.
Variable map_order : strmap -> list (string * string).
(** What the upstream connector and the API server answer. *)
Definition login_answers (callback : string -> Identity * option error) (refresh : Identity -> Identity * option error)
    (t : string -> result (list Team)) (o : objkey -> result Organization) X (e : idpE X) : option X :=
  match e with
  | IHandleCallback connData => Some (callback connData)
  | IRefresh identity => Some (refresh identity)
  | IListTeams namespace => Some (t namespace)
  | IGetOrganization k => Some (o k)
  end.
Lemma getGroups_login c organization upstream callback refresh t o :
  eval (login_answers callback refresh t o) (getGroups map_order c organization upstream) =
  Some (match t organization, o (mk_key "" organization) with
        | Ok teams, Ok org => Ok (reference_groups map_order c organization teams org upstream)
        | Err e, _ | Ok _, Err e => Err e
        end).
Proof.
  rewrite <- getGroups_eval. unfold getGroups. rewrite !eval_bind, !eval_trigger. cbn [login_answers api_answers].
  destruct (t organization); [|by rewrite !eval_ret]. rewrite !eval_bind, !eval_trigger. cbn [login_answers api_answers].
  by destruct (o _).
Qed.
(** The groups of an identity.  When the upstream connector fails its identity and
    its error are passed on.  Otherwise there is no error, only the groups change, and
    with readable Teams and Organization login and refresh give the same groups; when a
    read fails a refreshed identity loses all groups, and so does a new one unless
    upstream groups are kept: then it carries them alone. *)
Theorem identity_groups c callback refresh t o connData before :
  let org := conn_id c in
  let granted (upstream : Identity) (kept : list string) :=
    match t org, o (mk_key "" org) with
    | Ok teams, Ok org' => reference_groups map_order c org teams org' (id_Groups upstream)
    | _, _ => kept
    end in
  eval (login_answers callback refresh t o) (HandleCallback map_order c connData) =
  Some (match callback connData with
        | (upstream, None) =>
            (with_groups (granted upstream (if keepUpstreamGroups c then id_Groups upstream else [])) upstream, None)
        | (upstream, Some e) => (upstream, Some e)
        end) /\
  eval (login_answers callback refresh t o) (Refresh map_order c before) =
  Some (match refresh before with
        | (upstream, None) => (with_groups (granted upstream []) upstream, None)
        | (upstream, Some e) => (upstream, Some e)
        end).
Proof.
  cbv zeta. unfold HandleCallback, Refresh. rewrite !eval_bind, !eval_trigger. cbn [login_answers].
  split; [destruct (callback connData) as [upstream [e|]]|destruct (refresh before) as [upstream [e|]]];
    rewrite ?eval_ret; try done; rewrite eval_bind, getGroups_login;
    destruct (t (conn_id c)) as [teams|e]; [destruct (o _)| |destruct (o _)|]; rewrite eval_ret; try done;
    by destruct (keepUpstreamGroups c), upstream.
Qed.
End failures.

(** ** A concrete login

    Team "ops" of "acme" carries the marker with the value "false"; another Organization
    has a support group of that name. *)
Module LoginRun.
Definition ops : Team :=
  mk_team (with_labels {[LabelKeySupportGroup := "false"]} (named "ops" "acme"))
    (mk_team_spec "" "idp-ops" "") (mk_team_status [] []).
Definition acme : Organization :=
  mk_org (named "acme" "") (mk_org_spec "" None "" "idp-admins" "") [].
Definition groups (upstream : list string) : list string :=
  reference_groups map_to_list (mk_oidc_connector "acme" false) "acme" [ops] acme upstream.

Lemma ops_admitted team : team ∈ [ops] -> admitted_team [] team.
Proof.
  intros ->%list_elem_of_singleton. split; [|done]. intros key value Hk.
  change (({[LabelKeySupportGroup := "false"]} : strmap) !! key = Some value) in Hk.
  apply lookup_singleton_Some in Hk as [<- _]. intros _. exists "support-group". split; [by left|by left].
Qed.
Lemma admitted_login_witness :
  "support-group:ops" ∈ groups ["idp-ops"] /\
  groups ["idp-ops"; "idp-admins"] =
    ["organization:acme"; "team:ops"; "support-group:ops"; "role:acme:admin"].
Proof.
  split; [|vm_compute; reflexivity].
  destruct (admitted_login map_to_list (fun _ => reflexivity _) [] (fun cpd H => match not_elem_of_nil _ H with end)
    "acme" [ops] acme ops_admitted ["idp-ops"] (fun cpd H => match not_elem_of_nil _ H with end)
    (fun _ => Ok [ops]) (fun _ => Ok acme) eq_refl eq_refl) as (g & Hg & _ & _ & Hs).
  assert (groups ["idp-ops"] = g) as -> by (vm_compute in Hg |- *; congruence).
  apply (Hs "ops"). exists ops. by vm_compute; repeat split; try constructor; eexists.
Defined.
End LoginRun.
