(* ===== verification/Scim.v ===== *)
(** * Scim: the SCIM client ([internal/scim], [internal/util/scim_config.go])

    Users and groups are read from an identity provider page by page.  The client's
    calls: reading a Secret, one HTTP request with the answer read to its end
    ([SDo]), [SPanic] for the dereference of a nil pointer, and [SLoop], where the
    pagination loop has used up the fuel of the model.  [encoding/json] and
    [url.Parse] are parameters; the encoding of a query is written out.

    [scim_server] is a server of its own: it decodes the query of a request and answers the
    page asked for; the theorem on pagination runs the client against it. *)
From S2P Require Import Prelude Effects Conditions Meta PluginTypes KubeConfig Organization.
From Stdlib Require Import Ascii ZArith.

(** ** Filters, attributes and queries ([scim_types.go]) *)
Definition InitialStartID : string := "initial".
Definition quote : string := String (ascii_of_nat 34) "".
Record Filter := mk_scim_filter { expression : string }.
Definition newFilter (attribute operator value : string) : Filter :=
  mk_scim_filter (attribute +:+ " " +:+ operator +:+ " " +:+ quote +:+ value +:+ quote).
Definition GroupFilterByDisplayName (displayName : string) : Filter :=
  newFilter "displayName" "eq" displayName.
Definition UserFilterByGroupDisplayName (displayName : string) : Filter :=
  newFilter "groups.display" "eq" displayName.
Definition AttrName : string := "name".
Definition AttrEmails : string := "emails".
Definition AttrDisplayName : string := "displayName".
Definition AttrActive : string := "active".
Definition AttrMembers : string := "members".
Definition SetAttributes (attributes : list string) : string := join "," attributes.

Record QueryOptions := mk_query {
  q_Filter : Filter; q_Attributes : string; q_ExcludedAttributes : string; StartID : string }.
Definition no_options : QueryOptions := mk_query (mk_scim_filter "") "" "" "".
Definition with_start (id : string) (o : QueryOptions) : QueryOptions :=
  mk_query (q_Filter o) (q_Attributes o) (q_ExcludedAttributes o) id.

(** [url.QueryEscape] on bytes. *)
Definition between (lo hi n : nat) : bool := (lo <=? n)%nat && (n <=? hi)%nat.
Definition unreserved (a : ascii) : bool :=
  let n := nat_of_ascii a in
  between 48 57 n || between 65 90 n || between 97 122 n ||
  existsb (Nat.eqb n) [45; 46; 95; 126]%nat.
Definition hex_digit (n : nat) : ascii := ascii_of_nat (if (n <? 10)%nat then 48 + n else 55 + n).
Definition percent : ascii := ascii_of_nat 37.
Definition plus : ascii := ascii_of_nat 43.
Definition blank : ascii := ascii_of_nat 32.
Definition escape_byte (a : ascii) (rest : string) : string :=
  if unreserved a then String a rest
  else if Ascii.eqb a blank then String plus rest
  else String percent (String (hex_digit (nat_of_ascii a / 16))
         (String (hex_digit (nat_of_ascii a mod 16)) rest)).
Fixpoint QueryEscape (s : string) : string :=
  match s with EmptyString => "" | String a s => escape_byte a (QueryEscape s) end.
(** [url.Values.Encode] for keys that have one value each and are given in the order
    of [sort.Strings]. *)
Definition amp : ascii := ascii_of_nat 38.
Definition equals : ascii := ascii_of_nat 61.
Definition encode_pair (p : string * string) : string :=
  QueryEscape p.1 +:+ String equals (QueryEscape p.2).
Definition Encode (values : list (string * string)) : string :=
  join (String amp "") (encode_pair <$> values).

Definition non_blank (key value : string) : list (string * string) :=
  if negb (bool_decide (trim_space value = "")) then [(key, value)] else [].
(** The keys [toQuery] adds, sorted. *)
Definition query_values (q : QueryOptions) : list (string * string) :=
  non_blank "attributes" (q_Attributes q) ++
  non_blank "excludedAttributes" (q_ExcludedAttributes q) ++
  non_blank "filter" (expression (q_Filter q)) ++
  non_blank "startId" (StartID q).
Definition toQuery (q : QueryOptions) : string := Encode (query_values q).

(** ** Resources *)
Record UserEmails := mk_email { email_Value : string; email_Primary : bool }.
Record Resource := mk_resource {
  res_ID : string; res_UserName : string; res_GivenName : string; res_FamilyName : string;
  res_DisplayName : string; res_Active : bool; res_Emails : list UserEmails }.
Record ResponseBody := mk_body { body_Resources : list Resource; body_NextID : string }.
Definition res_FirstName (r : Resource) : string := res_GivenName r.
Definition res_LastName (r : Resource) : string := res_FamilyName r.
Definition ActiveUser (r : Resource) : bool := res_Active r.
Definition PrimaryEmail (r : Resource) : string :=
  match List.find email_Primary (res_Emails r) with Some e => email_Value e | None => "" end.

(** ** The client ([scim_client.go]) *)
Record BasicAuthConfig := mk_basic { ba_Username : string; ba_Password : string }.
Record BearerTokenConfig := mk_bearer { bt_Token : string; bt_Header : string; bt_Prefix : string }.
Record Config := mk_config {
  cfg_URL : string; cfg_AuthType : string;
  cfg_BasicAuth : option BasicAuthConfig; cfg_BearerToken : option BearerTokenConfig }.

(** The transports and what they put on a request. *)
Inductive authTransport := basicAuthTransport (c : BasicAuthConfig) | bearerTokenTransport (c : BearerTokenConfig).
Inductive credentials := BasicAuth (username password : string) | HeaderAuth (header value : string).
Definition authorize (t : authTransport) : credentials :=
  match t with
  | basicAuthTransport c => BasicAuth (ba_Username c) (ba_Password c)
  | bearerTokenTransport c =>
      let header := if negb (bool_decide (bt_Header c = "")) then bt_Header c else "Authorization" in
      let prefix := if negb (bool_decide (bt_Prefix c = "")) then bt_Prefix c else "Bearer" in
      HeaderAuth header (prefix +:+ " " +:+ bt_Token c)
  end.
Record scimClient := mk_client { c_baseURL : string; c_transport : authTransport }.

Record scim_request := mk_scim_request {
  sr_base : string; sr_path : string; sr_query : string; sr_credentials : credentials }.
Inductive scimE : Type -> Type :=
| SGetSecret (k : objkey) : scimE (result Secret)
| SDo (rq : scim_request) : scimE (result (Z * string))
| SPanic : scimE Empty_set
| SLoop : scimE Empty_set.
Class ScimLibs := {
  url_Parse : string -> result string;
  Unmarshal : string -> result ResponseBody
}.

Definition groupPath : string := "Groups".
Definition userPath : string := "Users".
Definition paginationEndID : string := "end".

Section client.
Context {Libs : ScimLibs}.
Local Abbreviation P := (prog scimE).
Definition scim_panic {A} : P A := PVis SPanic (fun e : Empty_set => match e with end).
Definition out_of_fuel {A} : P A := PVis SLoop (fun e : Empty_set => match e with end).

Definition NewSCIMClient (config : Config) : result scimClient :=
  match url_Parse (cfg_URL config) with
  | Err e => Err e
  | Ok baseURL =>
      if bool_decide (cfg_AuthType config = AuthTypeBasic) then
        match cfg_BasicAuth config with
        | None => Err (new_error "could not create http scim client, Basic Auth Config missing")
        | Some c =>
            if bool_decide (trim_space (ba_Username c) = "") || bool_decide (trim_space (ba_Password c) = "")
            then Err (new_error "could not create SCIM Client, BasicAuthConfig missing username or password")
            else Ok (mk_client baseURL (basicAuthTransport c))
        end
      else if bool_decide (cfg_AuthType config = AuthTypeBearerToken) then
        match cfg_BearerToken config with
        | None => Err (new_error "could not create http scim client, BearerToken Config missing")
        | Some c =>
            if bool_decide (bt_Token c = "")
            then Err (new_error "could not create http scim client, BearerToken Token missing")
            else Ok (mk_client baseURL (bearerTokenTransport c))
        end
      else Err (new_error ("unknown auth type: " +:+ cfg_AuthType config))
  end.

(** [doRequest]: the body is decoded whatever the status. *)
Definition doRequest (rq : scim_request) : P (result (Z * ResponseBody)) :=
  r ← trigger (SDo rq);
  mret (match r with
        | Err e => Err e
        | Ok (code, body) => match Unmarshal body with Err e => Err e | Ok b => Ok (code, b) end
        end).
Definition fetchPage (c : scimClient) (path : string) (options : QueryOptions) :
    P (result (list Resource * string)) :=
  r ← doRequest (mk_scim_request (c_baseURL c) path (toQuery options) (authorize (c_transport c)));
  mret (match r with
        | Err e => Err e
        | Ok (code, body) =>
            if negb (code =? 200)%Z then Err (new_error ("unexpected status code " +:+ pretty.pretty code))
            else Ok (body_Resources body, body_NextID body)
        end).

(** Nothing follows this page. *)
Definition last_page (startID nextID : string) : bool :=
  bool_decide (startID = "") || bool_decide (nextID = "") || bool_decide (nextID = paginationEndID).
Fixpoint fetch_pages (fuel : nat) (c : scimClient) (path : string) (options : QueryOptions)
    (allResources : list Resource) : P (result (list Resource)) :=
  match fuel with
  | O => out_of_fuel
  | S fuel =>
      r ← fetchPage c path options;
      match r with
      | Err e => mret (Err e)
      | Ok (resources, nextID) =>
          let allResources := allResources ++ resources in
          if last_page (StartID options) nextID then mret (Ok allResources)
          else fetch_pages fuel c path (with_start nextID options) allResources
      end
  end.
Definition fetchAllResources (fuel : nat) (c : scimClient) (path : string)
    (options : option QueryOptions) : P (result (list Resource)) :=
  fetch_pages fuel c path (default no_options options) [].
Definition GetUsers (fuel : nat) (c : scimClient) (options : option QueryOptions) :=
  fetchAllResources fuel c userPath options.
Definition GetGroups (fuel : nat) (c : scimClient) (options : option QueryOptions) :=
  fetchAllResources fuel c groupPath options.

(** ** The configuration ([scim_config.go], [clientutil/util.go]) *)

(** [strings.TrimRight(s, "\n")] *)
Definition newline : ascii := ascii_of_nat 10.
Fixpoint trim_newlines (s : string) : string :=
  match s with
  | EmptyString => ""
  | String a s' =>
      let t := trim_newlines s' in
      if Ascii.eqb a newline && bool_decide (t = "") then "" else String a t
  end.
Definition GetSecretKeyFromSecretKeyReference (namespace : string) (ref : SecretKeyReference) :
    P (result string) :=
  r ← trigger (SGetSecret (mk_key namespace (skr_Name ref)));
  mret (match r with
        | Err e => Err e
        | Ok secret =>
            match secret_Data secret !! skr_Key ref with
            | Some v => Ok (trim_newlines (default "" v))
            | None => Err (new_error ("secret " +:+ namespace +:+ "/" +:+ skr_Name ref +:+
                                      " does not contain key " +:+ skr_Key ref))
            end
        end).

(** [*config.X.Secret] *)
Definition secret_of (v : option ValueFromSource) : option SecretKeyReference := v ≫= vfs_Secret.
Definition GreenhouseSCIMConfigToSCIMConfig (config : SCIMConfig) (namespace : string) :
    P (result Config) :=
  if bool_decide (AuthType config = AuthTypeBasic) then
    match secret_of (BasicAuthUser config) with
    | None => scim_panic
    | Some u =>
        username ← GetSecretKeyFromSecretKeyReference namespace u;
        match username with
        | Err e => mret (Err (new_error ("secret for '.SCIMConfig.BasicAuthUser' is missing: " +:+ err_msg e)))
        | Ok username =>
            match secret_of (BasicAuthPw config) with
            | None => scim_panic
            | Some p =>
                password ← GetSecretKeyFromSecretKeyReference namespace p;
                match password with
                | Err e => mret (Err (new_error ("secret for BasicAuthPw is missing: " +:+ err_msg e)))
                | Ok password =>
                    mret (Ok (mk_config (BaseURL config) (AuthType config) (Some (mk_basic username password)) None))
                end
            end
        end
    end
  else if bool_decide (AuthType config = AuthTypeBearerToken) then
    match secret_of (BearerToken config) with
    | None => scim_panic
    | Some t =>
        token ← GetSecretKeyFromSecretKeyReference namespace t;
        match token with
        | Err e => mret (Err (new_error ("secret for BearerToken is missing: " +:+ err_msg e)))
        | Ok token =>
            let header := if bool_decide (BearerHeader config = "") then "Authorization" else BearerHeader config in
            let prefix := if bool_decide (BearerPrefix config = "") then "Bearer" else BearerPrefix config in
            mret (Ok (mk_config (BaseURL config) (AuthType config) None (Some (mk_bearer token header prefix))))
        end
    end
  else mret (Err (new_error ("invalid authentication type: " +:+ AuthType config))).
End client.

(** ** Queries can be read back *)
Section decoding.
Definition hex_value (a : ascii) : option nat :=
  let n := nat_of_ascii a in
  if between 48 57 n then Some (n - 48) else if between 65 70 n then Some (n - 55) else None.
(** [url.QueryUnescape]; a byte is written with at most three. *)
Fixpoint QueryUnescape (s : string) : option string :=
  match s with
  | EmptyString => Some ""
  | String a s1 =>
      if Ascii.eqb a percent then
        match s1 with
        | String h (String l s3) =>
            h ← hex_value h; l ← hex_value l;
            String (ascii_of_nat (16 * h + l)) <$> QueryUnescape s3
        | _ => None
        end
      else String (if Ascii.eqb a plus then blank else a) <$> QueryUnescape s1
  end.
Definition decode_pair (s : string) : option (string * string) :=
  match split equals s with
  | [k; v] => k ← QueryUnescape k; v ← QueryUnescape v; Some (k, v)
  | _ => None
  end.
(** What a server reads: the pairs of a query. *)
Definition ParseQuery (s : string) : option (list (string * string)) :=
  if bool_decide (s = "") then Some [] else mapM decode_pair (split amp s).

(** The three bytes of an escaped byte, checked for all 256. *)
Definition byte_ok (a : ascii) : bool :=
  let n := nat_of_ascii a in
  let h := hex_digit (n / 16) in let l := hex_digit (n mod 16) in
  (if unreserved a then negb (Ascii.eqb a percent) && negb (Ascii.eqb a plus) else true) &&
  bool_decide (hex_value h = Some (n / 16)) && bool_decide (hex_value l = Some (n mod 16)) &&
  bool_decide (ascii_of_nat (16 * (n / 16) + n mod 16) = a) &&
  (* no separator is written *)
  forallb (fun c => negb (Ascii.eqb c amp) && negb (Ascii.eqb c equals))
    (if unreserved a then [a] else [h; l]).
Lemma bytes_ok a : byte_ok a = true.
Proof.
  assert (forallb byte_ok (ascii_of_nat <$> seq 0 256) = true) as H by (vm_compute; reflexivity).
  rewrite forallb_forall in H. apply H, list_elem_of_In, list_elem_of_fmap.
  exists (nat_of_ascii a). rewrite ascii_nat_embedding. split; [done|].
  apply elem_of_seq. pose proof (nat_ascii_bounded a). lia.
Qed.

Lemma QueryUnescape_QueryEscape s : QueryUnescape (QueryEscape s) = Some s.
Proof.
  induction s as [|a s IH]; [done|]. cbn [QueryEscape]. unfold escape_byte.
  pose proof (bytes_ok a) as Ha. unfold byte_ok in Ha. cbv zeta in Ha.
  rewrite !andb_true_iff, !bool_decide_eq_true in Ha. destruct Ha as [[[[Hu Hh] Hl] Hn] _].
  destruct (unreserved a) eqn:E.
  - apply andb_true_iff in Hu as [Hp%negb_true_iff Hq%negb_true_iff].
    cbn [QueryUnescape]. rewrite Hp, Hq, IH. done.
  - destruct (Ascii.eqb_spec a blank) as [->|Hb].
    + cbn [QueryUnescape]. rewrite IH. done.
    + cbn [QueryUnescape]. rewrite Ascii.eqb_refl, Hh, Hl. cbn [mbind option_bind].
      rewrite IH. cbn [fmap option_fmap option_map]. by rewrite Hn.
Qed.
Lemma QueryEscape_no_sep c s : c = amp \/ c = equals -> char_in c (QueryEscape s) = false.
Proof.
  intros Hc. induction s as [|a s IH]; [done|]. cbn [QueryEscape]. unfold escape_byte.
  pose proof (bytes_ok a) as Ha. unfold byte_ok in Ha. cbv zeta in Ha.
  rewrite !andb_true_iff in Ha. destruct Ha as [_ Hf].
  assert (forall x, negb (Ascii.eqb x amp) && negb (Ascii.eqb x equals) = true -> Ascii.eqb x c = false) as Hx.
  { intros x [H1%negb_true_iff H2%negb_true_iff]%andb_true_iff. by destruct Hc as [->| ->]. }
  destruct (unreserved a); cbn [forallb] in Hf.
  - apply andb_true_iff in Hf as [H1%Hx _]. cbn [char_in]. by rewrite H1.
  - apply andb_true_iff in Hf as [H1%Hx H2]. apply andb_true_iff in H2 as [H2%Hx _].
    destruct (Ascii.eqb a blank); cbn [char_in]; rewrite ?H1, ?H2, IH; by destruct Hc as [->| ->].
Qed.
Lemma decode_encode_pair p : decode_pair (encode_pair p) = Some p.
Proof.
  unfold decode_pair, encode_pair. rewrite split_app by (apply QueryEscape_no_sep; auto).
  rewrite split_no_sep by (apply QueryEscape_no_sep; auto). rewrite !QueryUnescape_QueryEscape.
  cbn. by destruct p.
Qed.
Lemma encode_pair_no_amp p : char_in amp (encode_pair p) = false.
Proof.
  unfold encode_pair. rewrite char_in_app. cbn [char_in].
  by rewrite !QueryEscape_no_sep by auto.
Qed.
Lemma Encode_cons_not_empty p l : Encode (p :: l) <> "".
Proof.
  assert (char_in equals (encode_pair p) = true) as Hc.
  { unfold encode_pair. rewrite char_in_app. cbn [char_in]. by rewrite Ascii.eqb_refl, orb_true_r. }
  intros E. apply (f_equal (char_in equals)) in E. unfold Encode, join in E. cbn in E.
  destruct (encode_pair <$> l); [congruence|]. by rewrite char_in_app, Hc in E.
Qed.
Lemma ParseQuery_Encode l : ParseQuery (Encode l) = Some l.
Proof.
  unfold ParseQuery. case_bool_decide as He.
  { destruct l as [|p l]; [done|]. by apply Encode_cons_not_empty in He. }
  unfold Encode in *. rewrite split_join.
  - clear He. induction l as [|p l IH]; [done|]. cbn. rewrite decode_encode_pair. cbn.
    by rewrite IH.
  - by destruct l.
  - apply Forall_forall. intros s (p & -> & _)%list_elem_of_fmap. apply encode_pair_no_amp.
Qed.

(** A query says exactly what was asked for.  Whatever bytes the group name, the
    attributes and the page identifier hold, the server that decodes the query of a
    request reads the fields of the options that are not blank, and nothing else. *)
Theorem toQuery_roundtrip q :
  ParseQuery (toQuery q) = Some (query_values q) /\
  forall key value, (key, value) ∈ query_values q <->
    trim_space value <> "" /\
    (key = "attributes" /\ value = q_Attributes q \/
     key = "excludedAttributes" /\ value = q_ExcludedAttributes q \/
     key = "filter" /\ value = expression (q_Filter q) \/
     key = "startId" /\ value = StartID q).
Proof.
  split; [apply ParseQuery_Encode|]. intros key value. unfold query_values.
  assert (forall k v, (key, value) ∈ non_blank k v <-> trim_space value <> "" /\ key = k /\ value = v) as Hnb.
  { intros k v. unfold non_blank. case_bool_decide as Hv; cbn [negb].
    - split; [by intros []%not_elem_of_nil|]. intros (Hne & -> & ->). done.
    - rewrite list_elem_of_singleton. split; [by intros [= -> ->]|]. by intros (_ & -> & ->). }
  rewrite !elem_of_app, !Hnb. tauto.
Qed.
End decoding.

(** ** Pagination

    A SCIM server with cursors, as a server sees the requests.  For a path and the
    fields of a query other than [startId] it holds a list of pages, each with an
    identifier; a request that names one of them in [startId] gets its resources and
    the identifier of the page after it, or [finish] after the last one.  A request
    without [startId] gets one body, [plain].  Any request may also fail: without an
    answer, with another status, or with a body that is no JSON. *)
Record page := mk_page { page_id : string; page_Resources : list Resource }.
Section pagination.
Context {Libs : ScimLibs}.
Variable dir : string -> list (string * string) -> list page.
Variable plain : string -> list (string * string) -> ResponseBody.
Variable finish : string.

Definition next_id (rest : list page) : string := match rest with p :: _ => page_id p | [] => finish end.
Fixpoint page_at (ps : list page) (id : string) : option ResponseBody :=
  match ps with
  | [] => None
  | p :: rest => if bool_decide (page_id p = id) then Some (mk_body (page_Resources p) (next_id rest)) else page_at rest id
  end.
(** The page a request asks for, read from its query. *)
Definition start_of (fields : list (string * string)) : option string :=
  snd <$> List.find (fun kv => bool_decide (kv.1 = "startId")) fields.
Definition others (fields : list (string * string)) : list (string * string) :=
  List.filter (fun kv => negb (bool_decide (kv.1 = "startId"))) fields.
Definition answer_page (rq : scim_request) : option ResponseBody :=
  fields ← ParseQuery (sr_query rq);
  match start_of fields with
  | Some id => page_at (dir (sr_path rq) (others fields)) id
  | None => Some (plain (sr_path rq) (others fields))
  end.
Definition answered (rq : scim_request) (x : result (Z * string)) : Prop :=
  exists body b, x = Ok (200%Z, body) /\ Unmarshal body = Ok b /\ answer_page rq = Some b.
Definition request_failed (x : result (Z * string)) : Prop :=
  match x with
  | Err _ => True
  | Ok (code, body) => code <> 200%Z \/ exists e, Unmarshal body = Err e
  end.
Definition scim_server (_ : list (call scimE)) X (e : scimE X) : X -> Prop :=
  match e in scimE X return X -> Prop with
  | SDo rq => fun x => answered rq x \/ request_failed x
  | SGetSecret _ => fun _ => True
  | SPanic | SLoop => fun _ => False
  end.
(** The pages asked for so far, and whether the last request failed. *)
Definition asked_id (c : call scimE) : option string :=
  match c with
  | Call e _ => match e with SDo rq => fields ← ParseQuery (sr_query rq); start_of fields | _ => None end
  end.
Definition last_failed (h : list (call scimE)) : Prop :=
  exists rq x, last h = Some (Call (SDo rq) x) /\ request_failed x.

(** What the options ask for: the fields that are not blank. *)
Definition asked_fields (o : QueryOptions) : list (string * string) :=
  List.filter (fun kv => negb (bool_decide (trim_space kv.2 = "")))
    [("attributes", q_Attributes o); ("excludedAttributes", q_ExcludedAttributes o); ("filter", expression (q_Filter o))].
(** The identifiers are different, not blank, and none is the mark of the end. *)
Definition paged (o : QueryOptions) (ps : list page) : Prop :=
  NoDup (page_id <$> ps) /\ (forall p, p ∈ ps -> trim_space (page_id p) <> "" /\ page_id p <> "end") /\
  exists rest p, ps = p :: rest /\ page_id p = StartID o.

Definition not_stuck X (e : scimE X) : Prop := match e with SLoop => False | _ => True end.

Variable c : scimClient.
Variable path : string.
Definition page_request (o : QueryOptions) : scim_request :=
  mk_scim_request (c_baseURL c) path (toQuery o) (authorize (c_transport c)).

Lemma trim_not_empty s : trim_space s <> "" -> s <> "".
Proof. by intros H ->. Qed.
Lemma query_fields o : others (query_values o) = asked_fields o /\
  start_of (query_values o) = if bool_decide (trim_space (StartID o) = "") then None else Some (StartID o).
Proof.
  unfold query_values, non_blank, asked_fields. cbn [List.filter snd].
  destruct (bool_decide (trim_space (q_Attributes o) = "")), (bool_decide (trim_space (q_ExcludedAttributes o) = "")),
    (bool_decide (trim_space (expression (q_Filter o)) = "")), (bool_decide (trim_space (StartID o) = ""));
    by vm_compute.
Qed.
Lemma answer_request o : answer_page (page_request o) =
  if bool_decide (trim_space (StartID o) = "") then Some (plain path (asked_fields o))
  else page_at (dir path (asked_fields o)) (StartID o).
Proof.
  unfold answer_page, toQuery. cbn [sr_query sr_path page_request]. unfold toQuery. rewrite ParseQuery_Encode.
  cbn [mbind option_bind]. destruct (query_fields o) as [-> ->]. by case_bool_decide.
Qed.
Lemma asked_request o x : asked_id (Call (SDo (page_request o)) x) =
  if bool_decide (trim_space (StartID o) = "") then None else Some (StartID o).
Proof.
  cbn [asked_id sr_query page_request]. unfold toQuery. rewrite ParseQuery_Encode. cbn. apply query_fields.
Qed.
Lemma page_at_middle pre p rest :
  NoDup (page_id <$> pre ++ p :: rest) ->
  page_at (pre ++ p :: rest) (page_id p) = Some (mk_body (page_Resources p) (next_id rest)).
Proof.
  induction pre as [|q pre IH]; cbn; intros Hnd; [by rewrite bool_decide_eq_true_2|].
  apply NoDup_cons in Hnd as [Hq Hnd]. rewrite bool_decide_eq_false_2; [by apply IH|].
  intros Heq. apply Hq. rewrite Heq, fmap_app. set_solver.
Qed.

(** One request, for the page [b]: the page, or an error after a failure. *)
Lemma fetchPage_answer o b h :
  answer_page (page_request o) = Some b ->
  wp (traced scim_server) (fetchPage c path o) (fun h' r =>
    exists x, h' = h ++ [Call (SDo (page_request o)) x] /\
    match r with Ok r => r = (body_Resources b, body_NextID b) | Err _ => request_failed x end) h.
Proof.
  intros Hb. unfold fetchPage, doRequest. apply wp_bind, wp_bind. wp_step. destruct Hx as [Hx ->].
  apply wp_ret, wp_ret. exists x. split; [done|]. destruct Hx as [(body & b' & -> & Hu & Hb')|Hf].
  - rewrite Hu. cbn. fold (page_request o) in Hb'. congruence.
  - destruct x as [[code body]|e]; [|done]. cbn in Hf. destruct (Unmarshal body) as [b'|e] eqn:Hu; [|by right; eauto].
    destruct Hf as [Hf|[e [=]]]. rewrite (proj2 (Z.eqb_neq _ _) Hf). by left.
Qed.
Lemma fetchPage_not_stuck o h : safe (traced scim_server) not_stuck (fetchPage c path o) h.
Proof. apply safe_all_calls. unfold fetchPage, doRequest. by calls_steps. Qed.

(** The loop from a page on: the rest of the pages, or an error after a failure. *)
Definition fetched (ps : list page) (acc : list Resource) (h h' : list (call scimE)) (r : result (list Resource)) : Prop :=
  match r with
  | Ok rs => rs = acc ++ concat (page_Resources <$> ps) /\
      asked_id <$> h' = (asked_id <$> h) ++ (Some <$> (page_id <$> ps))
  | Err _ => last_failed h' /\
      exists n, asked_id <$> h' = (asked_id <$> h) ++ (Some <$> (page_id <$> take n ps))
  end.
(** A step of the loop: the page of the current identifier, or the end in an error. *)
Lemma fetch_pages_step o p rest fuel acc h (Q : list (call scimE) -> result (list Resource) -> Prop) :
  page_id p = StartID o -> trim_space (StartID o) <> "" ->
  page_at (dir path (asked_fields o)) (StartID o) = Some (mk_body (page_Resources p) (next_id rest)) ->
  (forall h' e, asked_id <$> h' = (asked_id <$> h) ++ [Some (page_id p)] -> last_failed h' -> Q h' (Err e)) ->
  (forall h', asked_id <$> h' = (asked_id <$> h) ++ [Some (page_id p)] ->
     let acc := acc ++ page_Resources p in
     let next := next_id rest in
     let rest := if last_page (StartID o) next then mret (Ok acc)
                 else fetch_pages fuel c path (with_start next o) acc in
     safe (traced scim_server) not_stuck rest h' /\ wp (traced scim_server) rest Q h') ->
  safe (traced scim_server) not_stuck (fetch_pages (S fuel) c path o acc) h /\
  wp (traced scim_server) (fetch_pages (S fuel) c path o acc) Q h.
Proof.
  intros Hp Hne Hat Herr Hok. cbn [fetch_pages]. apply safe_wp_bind; [apply fetchPage_not_stuck|].
  eapply wp_mono; [|apply (fetchPage_answer o (mk_body (page_Resources p) (next_id rest)))].
  2: { by rewrite answer_request, bool_decide_eq_false_2. }
  intros h' r (x & -> & Hx).
  assert (asked_id <$> (h ++ [Call (SDo (page_request o)) x]) = (asked_id <$> h) ++ [Some (page_id p)]) as Ha.
  { rewrite fmap_app, Hp. cbn [fmap list_fmap]. by rewrite asked_request, bool_decide_eq_false_2. }
  destruct r as [r|e].
  - rewrite Hx. by apply Hok.
  - split; [done|]. apply wp_ret. apply Herr; [done|]. exists (page_request o), x. by rewrite last_snoc.
Qed.

Lemma fetch_pages_all p rest pre o fuel acc h :
  dir path (asked_fields o) = pre ++ p :: rest -> NoDup (page_id <$> pre ++ p :: rest) ->
  (forall q, q ∈ p :: rest -> trim_space (page_id q) <> "" /\ page_id q <> "end") ->
  finish = "" \/ finish = "end" -> page_id p = StartID o -> S (length rest) <= fuel ->
  safe (traced scim_server) not_stuck (fetch_pages fuel c path o acc) h /\
  wp (traced scim_server) (fetch_pages fuel c path o acc) (fetched (p :: rest) acc h) h.
Proof.
  intros Hdir Hnd Hids Hfin. revert p pre o fuel acc h Hdir Hnd Hids.
  induction rest as [|q rest IH]; intros p pre o [|fuel] acc h Hdir Hnd Hids Hst Hfuel; cbn in Hfuel; try lia;
    (destruct (Hids p (list_elem_of_here _ _)) as [Hp _]; rewrite Hst in Hp);
    (eapply fetch_pages_step; [exact Hst|exact Hp|rewrite Hdir, <- Hst; by apply page_at_middle| |];
      [intros h' e Ha Hl; split; [done|]; by exists 1|intros h' Ha]).
  - cbn [next_id]. assert (last_page (StartID o) finish = true) as ->.
    { unfold last_page. destruct Hfin as [-> | ->]; by rewrite ?orb_true_r. }
    split; [done|]. apply wp_ret. cbn. by rewrite app_nil_r.
  - cbn [next_id]. destruct (Hids q) as [Hq Hqe]; [set_solver|].
    assert (last_page (StartID o) (page_id q) = false) as ->.
    { unfold last_page, paginationEndID. rewrite !bool_decide_eq_false_2; auto using trim_not_empty. }
    destruct (IH q (pre ++ [p]) (with_start (page_id q) o) fuel (acc ++ page_Resources p) h') as [Hs Hw];
      rewrite <- ?app_assoc; try done; [set_solver|lia|]. split; [exact Hs|].
    eapply wp_mono; [|exact Hw]. intros h2 [rs|e]; unfold fetched; rewrite Ha; cbn [concat fmap list_fmap].
    + intros [-> ->]. by rewrite <- !app_assoc.
    + intros [Hl [n ->]]. split; [done|]. exists (S n). by rewrite <- app_assoc.
Qed.

(** A server whose last page names a page again; what it answers can be decoded. *)
Hypothesis decodable : forall rq b, answer_page rq = Some b -> exists body, Unmarshal body = Ok b.
Lemma page_at_next ps id :
  finish ∈ (page_id <$> ps) -> id ∈ (page_id <$> ps) ->
  exists b, page_at ps id = Some b /\ body_NextID b ∈ (page_id <$> ps).
Proof.
  intros Hf. assert (forall qs, (forall q, q ∈ qs -> q ∈ ps) -> id ∈ (page_id <$> qs) ->
    exists b, page_at qs id = Some b /\ body_NextID b ∈ (page_id <$> ps)) as H; [|by apply H].
  induction qs as [|q qs IH]; cbn; [set_solver|]. intros Hsub Hid. case_bool_decide as Hq.
  - eexists. split; [done|]. cbn. destruct qs as [|q' qs]; cbn; [done|].
    apply list_elem_of_fmap. exists q'. split; [done|]. apply Hsub. set_solver.
  - apply IH; [set_solver|]. apply elem_of_cons in Hid as [->|]; done.
Qed.
Lemma fetch_pages_endless o fuel acc h :
  let ps := dir path (asked_fields o) in
  (forall p, p ∈ ps -> trim_space (page_id p) <> "" /\ page_id p <> "end") ->
  finish ∈ (page_id <$> ps) -> StartID o ∈ (page_id <$> ps) ->
  ~ safe (traced scim_server) not_stuck (fetch_pages fuel c path o acc) h.
Proof using decodable.
  cbv zeta. intros Hids Hf. revert o acc h Hids Hf. induction fuel as [|fuel IH]; intros o acc h Hids Hf Hst; [by intros []|].
  assert (forall id, id ∈ (page_id <$> dir path (asked_fields o)) -> trim_space id <> "" /\ id <> "end") as Hid.
  { intros id (p & -> & Hp)%list_elem_of_fmap. by apply Hids. }
  destruct (page_at_next _ _ Hf Hst) as (b & Hb & Hn).
  assert (answer_page (page_request o) = Some b) as Hans.
  { by rewrite answer_request, bool_decide_eq_false_2 by by apply Hid. }
  destruct (decodable _ _ Hans) as [body Hbody].
  assert (answered (page_request o) (Ok (200%Z, body))) as Ha by (by exists body, b).
  intros [_ Hs]. specialize (Hs (Ok (200%Z, body)) _ (conj (or_introl Ha) eq_refl)).
  cbn [pbind mbind prog_mbind] in Hs. rewrite Hbody in Hs. cbn in Hs.
  assert (last_page (StartID o) (body_NextID b) = false) as Hl.
  { unfold last_page, paginationEndID. destruct (Hid _ Hst), (Hid _ Hn).
    rewrite !bool_decide_eq_false_2; auto using trim_not_empty. }
  rewrite Hl in Hs. by apply IH in Hs.
Qed.

(** C14: fetching ends exactly when the pages of the server do.  Without a
    [StartID] one request is made, whatever identifier it is answered with.  Over the
    pages of a SCIM server the loop asks for each page once, in order, and returns the
    resources of all of them, with as many steps as there are pages; a request that
    fails, by its status too, ends it in an error and never in a part of the
    resources.  Where the last page names another page instead of the end, no number
    of steps is enough. *)
Theorem fetchAllResources_terminates options :
  let o := default no_options options in
  let ps := dir path (asked_fields o) in
  (StartID o = "" -> forall fuel, 1 <= fuel ->
     safe (traced scim_server) not_stuck (fetchAllResources fuel c path options) [] /\
     wp (traced scim_server) (fetchAllResources fuel c path options) (fun h r => length h = 1 /\
       match r with
       | Ok rs => rs = body_Resources (plain path (asked_fields o))
       | Err _ => last_failed h
       end) []) /\
  (paged o ps -> finish = "" \/ finish = "end" -> forall fuel, length ps <= fuel ->
     safe (traced scim_server) not_stuck (fetchAllResources fuel c path options) [] /\
     wp (traced scim_server) (fetchAllResources fuel c path options) (fetched ps [] []) []) /\
  (paged o ps -> finish ∈ (page_id <$> ps) -> forall fuel,
     ~ safe (traced scim_server) not_stuck (fetchAllResources fuel c path options) []).
Proof using decodable.
  cbv zeta. unfold fetchAllResources. set (o := default no_options options). split_and!.
  - intros Hst [|fuel] Hf; [lia|]. cbn [fetch_pages]. apply safe_wp_bind; [apply fetchPage_not_stuck|].
    eapply wp_mono; [|apply (fetchPage_answer o (plain path (asked_fields o)))].
    2: { by rewrite answer_request, Hst. }
    intros h' r (x & -> & Hx). destruct r as [r|e]; [|split; [done|]; apply wp_ret; split; [done|]; by exists (page_request o), x].
    rewrite Hx. unfold last_page. rewrite Hst. cbn. split; [done|]. by apply wp_ret.
  - intros (Hnd & Hids & rest & p & Hps & Hp) Hfin fuel Hf. rewrite Hps in *.
    by apply (fetch_pages_all p rest []).
  - intros (_ & Hids & rest & p & Hps & Hp) Hfin fuel. apply fetch_pages_endless; [done..|].
    rewrite Hps, <- Hp. set_solver.
Qed.
End pagination.

(** ** Configurations the webhook lets through *)
Section configuration.
Context {Libs : ScimLibs}.
Variable aggregate : list error -> error.
Definition scim_not_panic X (e : scimE X) : Prop := match e with SPanic => False | _ => True end.

(** What the conversion dereferences is there. *)
Definition references_given (config : SCIMConfig) : Prop :=
  (AuthType config = AuthTypeBasic ->
     no_secret (BasicAuthUser config) = false /\ no_secret (BasicAuthPw config) = false) /\
  (AuthType config = AuthTypeBearerToken -> no_secret (BearerToken config) = false).
Lemma secret_of_no_secret v : secret_of v = None <-> no_secret v = true.
Proof. unfold secret_of. destruct v as [[[s|]]|]; cbn; done. Qed.
Lemma GetSecretKey_calls ns ref :
  all_calls scim_not_panic (GetSecretKeyFromSecretKeyReference ns ref).
Proof. unfold GetSecretKeyFromSecretKeyReference. by calls_steps. Qed.
(** Reading a Secret that holds the key. *)
Lemma GetSecretKey_then {A} ns ref (f : result string -> prog scimE A) v :
  all_calls scim_not_panic (GetSecretKeyFromSecretKeyReference ns ref ≫= f) ->
  all_calls scim_not_panic (f (Ok (trim_newlines v))).
Proof.
  intros [_ Hk].
  specialize (Hk (Ok (mk_secret (named (skr_Name ref) ns) "" {[skr_Key ref := Some v]}))).
  cbn [trigger pbind mbind prog_mbind secret_Data] in Hk. rewrite lookup_singleton_eq in Hk. exact Hk.
Qed.

Lemma conversion_not_panic config ns :
  all_calls scim_not_panic (GreenhouseSCIMConfigToSCIMConfig config ns) <-> references_given config.
Proof.
  unfold GreenhouseSCIMConfigToSCIMConfig, references_given. case_bool_decide as Hb.
  { rewrite Hb. split.
    - intros H. split; [intros _|done].
      destruct (secret_of (BasicAuthUser config)) as [u|] eqn:Hu; [|by destruct H].
      apply (GetSecretKey_then ns u _ "") in H.
      destruct (secret_of (BasicAuthPw config)) as [p|] eqn:Hp; [|by destruct H].
      rewrite <-!not_true_iff_false, <-!secret_of_no_secret. by rewrite Hu, Hp.
    - intros [H _]. destruct (H eq_refl) as [Hu Hp].
      apply not_true_iff_false in Hu, Hp. rewrite <-secret_of_no_secret in Hu, Hp.
      destruct (secret_of (BasicAuthUser config)); [|done].
      calls_step; [apply GetSecretKey_calls|]. calls_step; [|done].
      destruct (secret_of (BasicAuthPw config)); [|done].
      calls_step; [apply GetSecretKey_calls|]. by calls_steps. }
  case_bool_decide as Ht.
  { rewrite Ht. split.
    - intros H. split; [done|intros _].
      destruct (secret_of (BearerToken config)) as [t|] eqn:Hk; [|by destruct H].
      rewrite <-not_true_iff_false, <-secret_of_no_secret. by rewrite Hk.
    - intros [_ H]. specialize (H eq_refl). apply not_true_iff_false in H.
      rewrite <-secret_of_no_secret in H. destruct (secret_of (BearerToken config)); [|done].
      calls_step; [apply GetSecretKey_calls|]. by calls_steps. }
  split; [by split|done].
Qed.

(** The webhook guards the controllers.  The conversion of a SCIM configuration
    dereferences the references to its Secrets without a check; it reaches no nil
    pointer exactly when the references its authentication type needs are given, and
    the Organization webhook accepts no other configuration, on creation or update.
    What it then converts to successfully has the credentials [NewSCIMClient] asks for. *)
Theorem accepted_SCIMConfig_converts old org config ns :
  ValidateCreateOrganization aggregate org = None \/ ValidateUpdateOrganization aggregate old org = None ->
  GetSCIMConfig (org_Spec org) = Some config ->
  all_calls scim_not_panic (GreenhouseSCIMConfigToSCIMConfig config ns) /\
  (forall config', all_calls scim_not_panic (GreenhouseSCIMConfigToSCIMConfig config' ns) ->
     references_given config') /\
  wp (traced any_answer) (GreenhouseSCIMConfigToSCIMConfig config ns) (fun _ r =>
    match r with
    | Ok cfg => (cfg_AuthType cfg = AuthTypeBasic /\ cfg_BasicAuth cfg <> None) \/
                (cfg_AuthType cfg = AuthTypeBearerToken /\ cfg_BearerToken cfg <> None)
    | Err _ => True
    end) [].
Proof.
  intros Hacc Hconf. rewrite ValidateUpdateOrganization_eq in Hacc.
  assert (ValidateCreateOrganization aggregate org = None) as H by tauto. clear Hacc.
  apply ValidateCreateOrganization_None in H as [_ H]. destruct (H _ Hconf) as [_ Hc].
  split; [|split].
  - apply conversion_not_panic. unfold references_given. by destruct Hc as [(-> & Hu & Hp)|[-> Hk]].
  - intros config'. apply conversion_not_panic.
  - unfold GreenhouseSCIMConfigToSCIMConfig. case_bool_decide as Hb; [|case_bool_decide as Ht].
    + case_match; [|intros []]. apply wp_bind. wp_skip. case_match; [|by apply wp_ret].
      case_match; [|intros []]. apply wp_bind. wp_skip. case_match; apply wp_ret; [by left|done].
    + case_match; [|intros []]. apply wp_bind. wp_skip. case_match; apply wp_ret; [by right|done].
    + by apply wp_ret.
Qed.
End configuration.

(** ** Filters *)

(** A group name may rewrite the filter.  The name is put between quotes as it is,
    so that a name with a quote closes the string: the filter for such a name is a
    disjunction, and the users of another group are listed as members of the team. *)
Theorem UserFilterByGroupDisplayName_injection a b :
  expression (UserFilterByGroupDisplayName
    (a +:+ quote +:+ " or groups.display eq " +:+ quote +:+ b)) =
  expression (UserFilterByGroupDisplayName a) +:+ " or " +:+ expression (UserFilterByGroupDisplayName b).
Proof. unfold UserFilterByGroupDisplayName, newFilter. cbn [expression]. by rewrite !append_assoc. Qed.

(** ** Instances *)
Module ScimRun.
Definition user1 : Resource := mk_resource "1" "i1" "Ada" "L" "Ada L" true [mk_email "ada@x" true].
Definition user2 : Resource := mk_resource "2" "i2" "Bob" "M" "Bob M" true [mk_email "bob@x" true].
#[local] Instance libs : ScimLibs := {|
  url_Parse s := Ok s;
  Unmarshal s := Ok (if bool_decide (s = "1") then mk_body [user1] "p2"
                     else if bool_decide (s = "2") then mk_body [user2] "end"
                     else if bool_decide (s = "3") then mk_body [user2] "p2" else mk_body [] "") |}.
Definition client : scimClient := mk_client "https://idp" (bearerTokenTransport (mk_bearer "t" "" "")).
Definition query : QueryOptions := mk_query (UserFilterByGroupDisplayName "g") "" "" InitialStartID.
(** Two pages of the users of the group, and nothing else. *)
Definition two_pages : list page := [mk_page "initial" [user1]; mk_page "p2" [user2]].
Definition users (path : string) (fields : list (string * string)) : list page :=
  if bool_decide (path = userPath /\ fields = [("filter", expression (q_Filter query))]) then two_pages else [].
Definition none_plain (_ : string) (_ : list (string * string)) : ResponseBody := mk_body [] "".
Lemma users_decodable finish rq b :
  finish = "end" \/ finish = "p2" -> answer_page users none_plain finish rq = Some b -> exists body, Unmarshal body = Ok b.
Proof.
  intros Hf. unfold answer_page, users, none_plain. destruct (ParseQuery (sr_query rq)) as [fields|]; [|done]. cbn [mbind option_bind].
  destruct (start_of fields) as [id|]; [|intros [= <-]; by exists ""].
  case_bool_decide; [|done]. cbn. case_bool_decide; [intros [= <-]; by exists "1"|].
  case_bool_decide; [|done]. intros [= <-]. destruct Hf as [-> | ->]; [by exists "2"|by exists "3"].
Qed.
Lemma two_pages_paged : paged query two_pages.
Proof.
  split_and!; [|intros p [->|[->|[]%elem_of_nil]%elem_of_cons]%elem_of_cons; by vm_compute|by exists [mk_page "p2" [user2]], (mk_page "initial" [user1])].
  by apply (bool_decide_unpack _).
Qed.

(** The two pages, and the endless ones of a server that names the second page again. *)
Lemma fetchAllResources_terminates_witness :
  wp (traced (scim_server users none_plain "end")) (fetchAllResources 2 client userPath (Some query))
    (fun _ r => match r with Ok rs => rs = [user1; user2] | Err _ => True end) [] /\
  ~ safe (traced (scim_server users none_plain "p2")) not_stuck (fetchAllResources 100 client userPath (Some query)) [].
Proof.
  split.
  - eapply wp_mono; [|refine (proj2 (proj1 (proj2 (fetchAllResources_terminates users none_plain "end" client userPath _ (Some query))) _ _ 2 _))].
    + intros h [rs|e] H; [exact (proj1 H)|exact I].
    + intros rq b. apply users_decodable. by left.
    + exact two_pages_paged.
    + by right.
    + vm_compute. lia.
  - refine (proj2 (proj2 (fetchAllResources_terminates users none_plain "p2" client userPath _ (Some query))) _ _ 100).
    + intros rq b. apply users_decodable. by right.
    + exact two_pages_paged.
    + by apply (bool_decide_unpack _).
Defined.

Definition basic_config : SCIMConfig :=
  mk_scim_config "https://idp" AuthTypeBasic
    (Some (mk_value_from (Some (mk_skr "scim" "user")))) (Some (mk_value_from (Some (mk_skr "scim" "pw"))))
    None "" "".
Definition org : Organization :=
  mk_org (named "org" "") (mk_org_spec "" (Some (mk_authentication None (Some basic_config))) "" "admins" "") [].
Lemma accepted_SCIMConfig_converts_witness :
  all_calls scim_not_panic (GreenhouseSCIMConfigToSCIMConfig basic_config "org").
Proof.
  refine (proj1 (accepted_SCIMConfig_converts (fun _ => new_error "invalid") org org basic_config "org" _ _)).
  - left. vm_compute. reflexivity.
  - reflexivity.
Defined.
End ScimRun.
