(* ===== verification/OrgResources.v ===== *)
(** * OrgResources: the objects an Organization owns
      ([internal/controller/organization/rbac.go], [teamrole_seeder.go] and the namespace
       and administrators' Team of [organization_controller.go])

    The kinds of objects the controller writes are an enumeration ([orgKind]); the calls
    of the client are those of [ClientUtil] for each kind, and a world has a store per
    kind.  Events and logs have no model; the owner references of [controllerutil] are the
    parameter [OrgLibs].  The iteration order of [defaultTeamRoles] is a parameter. *)
From S2P Require Import Prelude Effects Conditions Meta CoreTypes ApiTypes ClientUtil PluginTypes KubeConfig AccessWebhook OrgAccess Organization Scim.

(** ** Kinds, calls and stores *)
Inductive orgKind :=
| ONamespace | OClusterRole | OClusterRoleBinding | ORole | ORoleBinding
| OServiceAccount | OTeamRole | OTeam | OPlugin | OSecret.
#[export] Instance orgKind_eq_dec : EqDecision orgKind.
Proof. solve_decision. Defined.
Definition org_object (k : orgKind) : Type :=
  match k with
  | ONamespace => Namespace
  | OClusterRole => ClusterRole
  | OClusterRoleBinding => ClusterRoleBinding
  | ORole => Role
  | ORoleBinding => RoleBinding
  | OServiceAccount => ServiceAccount
  | OTeamRole => TeamRole
  | OTeam => Team
  | OPlugin => Plugin
  | OSecret => Secret
  end.
#[export] Instance org_object_Object k : Object (org_object k) :=
  match k with
  | ONamespace => Namespace_object
  | OClusterRole => ClusterRole_object
  | OClusterRoleBinding => ClusterRoleBinding_object
  | ORole => Role_object
  | ORoleBinding => RoleBinding_object
  | OServiceAccount => ServiceAccount_object
  | OTeamRole => TeamRole_object
  | OTeam => Team_object
  | OPlugin => Plugin_object
  | OSecret => Secret_object
  end.
#[export] Instance org_object_laws k : ObjectLaws (org_object k).
Proof. destruct k; apply _. Qed.
#[export] Instance org_object_eq_dec k : EqDecision (org_object k) :=
  match k with
  | ONamespace => Namespace_eq_dec
  | OClusterRole => ClusterRole_eq_dec
  | OClusterRoleBinding => ClusterRoleBinding_eq_dec
  | ORole => Role_eq_dec
  | ORoleBinding => RoleBinding_eq_dec
  | OServiceAccount => ServiceAccount_eq_dec
  | OTeamRole => TeamRole_eq_dec
  | OTeam => Team_eq_dec
  | OPlugin => Plugin_eq_dec
  | OSecret => Secret_eq_dec
  end.

Class OrgLibs := {
  (** [controllerutil.SetOwnerReference] and [SetControllerReference] with an Organization *)
  org_SetOwnerReference : ObjectMeta -> ObjectMeta -> result (list OwnerReference);
  org_SetControllerReference : ObjectMeta -> ObjectMeta -> result (list OwnerReference)
}.

(** [OperationResult] is read for events and logs only. *)
Inductive resourceE : Type -> Type :=
| OKube (k : orgKind) {X} (e : kubeE (org_object k) X) : resourceE X.

Section resources.
Context {Libs : OrgLibs}.
Local Abbreviation P := (prog resourceE).

Definition org_owned {O} `{Object O} (org : Organization) (o : O) : O * option error :=
  match org_SetOwnerReference (org_meta org) (get_meta o) with
  | Err e => (o, Some e)
  | Ok owners => (set_meta (with_owners owners (get_meta o)) o, None)
  end.
Definition org_controlled {O} `{Object O} (org : Organization) (o : O) : O * option error :=
  match org_SetControllerReference (org_meta org) (get_meta o) with
  | Err e => (o, Some e)
  | Ok owners => (set_meta (with_owners owners (get_meta o)) o, None)
  end.
Definition create_or_patch (k : orgKind) (mutate : org_object k -> org_object k * option error)
    (o : org_object k) : P (option error) :=
  '(_, (_, err)) ← translate (@OKube k) (CreateOrPatch mutate o);
  mret err.

(** ** Namespace and administrators' Team *)
Definition reconcileNamespace (org : Organization) : P (option error) :=
  create_or_patch ONamespace (org_controlled org) (mk_namespace (named (GetName org) "")).
Definition mutate_admin_team (org : Organization) (team : Team) : Team * option error :=
  let team := mk_team (team_meta team)
    (mk_team_spec "Admin team for the organization" (MappedOrgAdminIDPGroup (org_Spec org))
       (JoinURL (team_Spec team))) (team_Status team) in
  org_controlled org (SetLabels {[LabelKeySupportGroup := "true"]} team).
Definition admin_team_name (org : Organization) : string := GetName org +:+ "-admin".
Definition new_team (name namespace : string) : Team :=
  mk_team (named name namespace) (mk_team_spec "" "" "") (mk_team_status [] []).
Definition reconcileAdminTeam (org : Organization) : P (option error) :=
  create_or_patch OTeam (mutate_admin_team org) (new_team (admin_team_name org) (GetName org)).

(** ** Roles and bindings *)
Inductive userGroup := admin | member | clusterAdmin | pluginAdmin.
(** [%d] of a [userGroup] *)
Definition group_number (group : userGroup) : string :=
  match group with admin => "0" | member => "1" | clusterAdmin => "2" | pluginAdmin => "3" end.
Definition unknown_group (what : string) (group : userGroup) : error :=
  new_error ("unknown " +:+ what +:+ " " +:+ group_number group).
Definition clusterRoleKind : string := "ClusterRole".

Definition cluster_role_of (org : Organization) (group : userGroup) : option (string * list PolicyRule) :=
  match group with
  | admin => Some (OrganizationAdminRoleName (GetName org), OrganizationAdminClusterRolePolicyRules (GetName org))
  | member => Some (OrganizationRoleName (GetName org), OrganizationMemberClusterRolePolicyRules (GetName org))
  | _ => None
  end.
Definition mutate_cluster_role (org : Organization) (rules : list PolicyRule) (r : ClusterRole) :
    ClusterRole * option error :=
  org_owned org (mk_cluster_role (cr_meta r) rules None).
Definition new_cluster_role (name : string) : ClusterRole := mk_cluster_role (named name "") [] None.
Definition reconcileClusterRole (org : Organization) (group : userGroup) : P (option error) :=
  match cluster_role_of org group with
  | None => mret (Some (unknown_group "userRole" group))
  | Some (name, rules) =>
      create_or_patch OClusterRole (mutate_cluster_role org rules) (new_cluster_role name)
  end.

Definition binding_name (org : Organization) (group : userGroup) : option string :=
  match group with
  | admin => Some (OrganizationAdminRoleName (GetName org))
  | member => Some (OrganizationRoleName (GetName org))
  | _ => None
  end.
Definition group_subject (name : string) : RbacSubject :=
  mk_rbac_subject rbacv1_GroupName rbacv1_GroupKind name "".
Definition mutate_cluster_binding (org : Organization) (role : string) (subjects : list RbacSubject)
    (b : ClusterRoleBinding) : ClusterRoleBinding * option error :=
  org_owned org (mk_crb (crb_meta b) subjects (rbacv1_GroupName, clusterRoleKind, role)).
Definition new_cluster_binding (name : string) : ClusterRoleBinding := mk_crb (named name "") [] ("", "", "").
Definition reconcileClusterRoleBinding (org : Organization) (group : userGroup) : P (option error) :=
  match binding_name org group with
  | None => mret (Some (unknown_group "role" group))
  | Some name =>
      create_or_patch OClusterRoleBinding (mutate_cluster_binding org name [group_subject name])
        (new_cluster_binding name)
  end.

Definition role_of (org : Organization) (group : userGroup) : string * list PolicyRule :=
  match group with
  | admin => (OrganizationAdminRoleName (GetName org), OrganizationAdminPolicyRules)
  | member => (OrganizationRoleName (GetName org), OrganizationMemberPolicyRules)
  | clusterAdmin => (OrganizationClusterAdminRoleName (GetName org), OrganizationClusterAdminPolicyRules)
  | pluginAdmin => (OrganizationPluginAdminRoleName (GetName org), OrganizationPluginAdminPolicyRules)
  end.
Definition mutate_org_role (org : Organization) (rules : list PolicyRule) (r : Role) : Role * option error :=
  org_owned org (mk_role (role_meta r) rules).
Definition reconcileRole (org : Organization) (group : userGroup) : P (option error) :=
  let '(name, rules) := role_of org group in
  create_or_patch ORole (mutate_org_role org rules) (mk_role (named name (GetName org)) []).

Definition mutate_binding (org : Organization) (role : string) (subjects : list RbacSubject)
    (b : RoleBinding) : RoleBinding * option error :=
  org_owned org (mk_role_binding (rb_meta b) (rbacv1_GroupName, "Role", role) subjects).
Definition new_binding (name namespace : string) : RoleBinding :=
  mk_role_binding (named name namespace) ("", "", "") [].
Definition reconcileRoleBinding (org : Organization) (group : userGroup) : P (option error) :=
  match binding_name org group with
  | None => mret (Some (unknown_group "userRole" group))
  | Some name =>
      create_or_patch ORoleBinding (mutate_binding org name [group_subject name])
        (new_binding name (GetName org))
  end.

(** [if err := step; err != nil { return err }], in order *)
Fixpoint until_error {E} (steps : list (prog E (option error))) : prog E (option error) :=
  match steps with
  | [] => mret None
  | p :: steps =>
      err ← p;
      match err with Some e => mret (Some e) | None => until_error steps end
  end.
Definition reconcileRBAC (org : Organization) : P (option error) :=
  until_error
    [reconcileClusterRole org admin; reconcileClusterRoleBinding org admin;
     reconcileRole org admin; reconcileRoleBinding org admin;
     reconcileClusterRole org member; reconcileClusterRoleBinding org member;
     reconcileRole org member; reconcileRoleBinding org member;
     reconcileRole org clusterAdmin; reconcileRole org pluginAdmin].

(** ** The ServiceAccount of the catalogs *)
Definition defaultGreenhouseConnectorID : string := "greenhouse".
Definition KindClusterPluginDefinitionPlural : string := "clusterplugindefinitions".
Definition KindPluginDefinitionPlural : string := "plugindefinitions".
Definition catalog_subject (org : Organization) : RbacSubject :=
  mk_rbac_subject "" rbacv1_ServiceAccountKind (OrgCatalogServiceAccountName (GetName org)) (GetName org).
Definition reconcileCatalogServiceAccount (org : Organization) : P (option error) :=
  create_or_patch OServiceAccount (org_owned org)
    (mk_sa (named (OrgCatalogServiceAccountName (GetName org)) (GetName org))).
(** Unlike [reconcileClusterRole] it leaves the aggregation rule alone. *)
Definition mutate_catalog_cluster_role (org : Organization) (resources : list string) (r : ClusterRole) :
    ClusterRole * option error :=
  org_owned org (mk_cluster_role (cr_meta r) (OrgCatalogPolicyRules resources) (cr_AggregationRule r)).
Definition reconcileCatalogClusterRole (org : Organization) (resources : list string) : P (option error) :=
  create_or_patch OClusterRole (mutate_catalog_cluster_role org resources)
    (new_cluster_role (OrgCatalogRoleName (GetName org))).
Definition reconcileCatalogClusterRoleBinding (org : Organization) : P (option error) :=
  create_or_patch OClusterRoleBinding
    (mutate_cluster_binding org (OrgCatalogRoleName (GetName org)) [catalog_subject org])
    (new_cluster_binding (OrgCatalogRoleName (GetName org))).
Definition reconcileCatalogRole (org : Organization) (resources : list string) : P (option error) :=
  create_or_patch ORole (mutate_org_role org (OrgCatalogPolicyRules resources))
    (mk_role (named (OrgCatalogRoleName (GetName org)) (GetName org)) []).
Definition reconcileCatalogRoleBinding (org : Organization) : P (option error) :=
  create_or_patch ORoleBinding
    (mutate_binding org (OrgCatalogRoleName (GetName org)) [catalog_subject org])
    (new_binding (OrgCatalogRoleName (GetName org)) (GetName org)).
Definition reconcileCatalogPermissions (org : Organization) : P (option error) :=
  until_error
    (reconcileCatalogServiceAccount org ::
     if bool_decide (GetName org = defaultGreenhouseConnectorID)
     then [reconcileCatalogClusterRole org [KindClusterPluginDefinitionPlural; KindPluginDefinitionPlural];
           reconcileCatalogClusterRoleBinding org]
     else [reconcileCatalogRole org [KindPluginDefinitionPlural]; reconcileCatalogRoleBinding org]).

(** ** Default TeamRoles *)
Definition aggregate_label : strmap := {["greenhouse.sap/aggregate-to-developer" := "true"]}.
Definition defaultTeamRoles : gmap string TeamRoleSpec :=
  list_to_map
    [("cluster-admin", mk_team_role_spec [mk_rule ["*"] ["*"] ["*"] []] None ∅);
     ("cluster-viewer", mk_team_role_spec [mk_rule ["*"] ["*"] ["get"; "list"; "watch"] []] None aggregate_label);
     ("cluster-developer", mk_team_role_spec []
        (Some (mk_aggregation [mk_label_selector aggregate_label []])) ∅);
     ("application-developer", mk_team_role_spec
        [mk_rule [""] ["pods"; "pods/portforward"; "pods/eviction"; "pods/proxy"; "pods/log"; "pods/status"] ["*"] [];
         mk_rule ["apps"] ["deployments/scale"; "statefulsets/scale"] ["patch"] []] None aggregate_label);
     ("node-maintainer", mk_team_role_spec [mk_rule [""] ["nodes"] ["get"; "patch"] []] None ∅);
     ("namespace-creator", mk_team_role_spec [mk_rule [""] ["namespaces"] ["*"] []] None ∅)].
Definition mutate_team_role (org : Organization) (spec : TeamRoleSpec) (tr : TeamRole) : TeamRole * option error :=
  org_owned org (mk_team_role (tr_meta tr) spec).
Definition reconcile_team_role (org : Organization) (name : string) (spec : TeamRoleSpec) : P (option error) :=
  create_or_patch OTeamRole (mutate_team_role org spec)
    (mk_team_role (named name (GetName org)) (mk_team_role_spec [] None ∅)).
Variable roles_order : gmap string TeamRoleSpec -> list (string * TeamRoleSpec).
Definition reconcileDefaultTeamRoles (org : Organization) : P (option error) :=
  until_error ((fun '(name, spec) => reconcile_team_role org name spec) <$> roles_order defaultTeamRoles).
End resources.

(** ** Stores *)
Record org_world := mk_org_world {
  w_namespaces : gmap objkey Namespace;
  w_cluster_roles : gmap objkey ClusterRole;
  w_cluster_bindings : gmap objkey ClusterRoleBinding;
  w_roles : gmap objkey Role;
  w_bindings : gmap objkey RoleBinding;
  w_accounts : gmap objkey ServiceAccount;
  w_team_roles : gmap objkey TeamRole;
  w_teams : gmap objkey Team;
  w_plugins : gmap objkey Plugin;
  w_secrets : gmap objkey Secret }.
Definition get_store (k : orgKind) (w : org_world) : gmap objkey (org_object k) :=
  match k with
  | ONamespace => w_namespaces w
  | OClusterRole => w_cluster_roles w
  | OClusterRoleBinding => w_cluster_bindings w
  | ORole => w_roles w
  | ORoleBinding => w_bindings w
  | OServiceAccount => w_accounts w
  | OTeamRole => w_team_roles w
  | OTeam => w_teams w
  | OPlugin => w_plugins w
  | OSecret => w_secrets w
  end.
Definition put_store (k : orgKind) : gmap objkey (org_object k) -> org_world -> org_world :=
  match k with
  | ONamespace => fun s '(mk_org_world _ b c d e f g h i j) => mk_org_world s b c d e f g h i j
  | OClusterRole => fun s '(mk_org_world a _ c d e f g h i j) => mk_org_world a s c d e f g h i j
  | OClusterRoleBinding => fun s '(mk_org_world a b _ d e f g h i j) => mk_org_world a b s d e f g h i j
  | ORole => fun s '(mk_org_world a b c _ e f g h i j) => mk_org_world a b c s e f g h i j
  | ORoleBinding => fun s '(mk_org_world a b c d _ f g h i j) => mk_org_world a b c d s f g h i j
  | OServiceAccount => fun s '(mk_org_world a b c d e _ g h i j) => mk_org_world a b c d e s g h i j
  | OTeamRole => fun s '(mk_org_world a b c d e f _ h i j) => mk_org_world a b c d e f s h i j
  | OTeam => fun s '(mk_org_world a b c d e f g _ i j) => mk_org_world a b c d e f g s i j
  | OPlugin => fun s '(mk_org_world a b c d e f g h _ j) => mk_org_world a b c d e f g h s j
  | OSecret => fun s '(mk_org_world a b c d e f g h i _) => mk_org_world a b c d e f g h i s
  end.
Lemma get_put_store k s w : get_store k (put_store k s w) = s.
Proof. by destruct k, w. Qed.
Lemma get_put_store_ne k k' s w : k' <> k -> get_store k' (put_store k s w) = get_store k' w.
Proof. by destruct k, k', w. Qed.
Lemma put_get_store k w : put_store k (get_store k w) w = w.
Proof. by destruct k, w. Qed.
Lemma put_put_store k s s' w : put_store k s' (put_store k s w) = put_store k s' w.
Proof. by destruct k, w. Qed.

(** The server keeps what it was sent of the fields at stake. *)
Definition kept_fields (k : orgKind) : org_object k -> org_object k -> Prop :=
  match k with
  | ONamespace | OServiceAccount => fun _ _ => True
  | OClusterRole => fun o o' => cr_Rules o' = cr_Rules o /\ cr_AggregationRule o' = cr_AggregationRule o
  | OClusterRoleBinding => fun o o' => crb_Subjects o' = crb_Subjects o /\ crb_RoleRef o' = crb_RoleRef o
  | ORole => fun o o' => role_Rules o' = role_Rules o
  | ORoleBinding => fun o o' => rb_Subjects o' = rb_Subjects o /\ rb_RoleRef o' = rb_RoleRef o
  | OTeamRole => fun o o' => tr_Spec o' = tr_Spec o
  | OTeam => fun o o' => team_Spec o' = team_Spec o /\ GetLabels o' = GetLabels o
  | OPlugin => fun o o' => plugin_Spec o' = plugin_Spec o /\ GetLabels o' = GetLabels o
  | OSecret => fun o o' =>
      key_of o' = key_of o /\ secret_Data o' = secret_Data o /\ secret_Type o' = secret_Type o
  end.
Definition resource_step (w : org_world) X (e : resourceE X) : X -> org_world -> Prop :=
  match e in resourceE X return X -> org_world -> Prop with
  | OKube k e => fun x w' => exists s, kube_step (kept_fields k) (get_store k w) _ e x s /\ w' = put_store k s w
  end.
Lemma kind_lens k {A} (p : prog (kubeE (org_object k)) A) Q w :
  wp (kube_step (kept_fields k)) p (fun s a => Q (put_store k s w) a) (get_store k w) ->
  wp resource_step (translate (@OKube k) p) Q w.
Proof.
  intros H. apply wp_translate.
  eapply (wp_lens _ _ (get_store k) (put_store k)); [..|exact H];
    auto using get_put_store, put_put_store, put_get_store.
Qed.

(** ** Requirements

    An object of a kind at a key, and what must hold of it. *)
Record requirement := mk_requirement {
  req_kind : orgKind; req_key : objkey; req_holds : org_object req_kind -> Prop }.
Definition provided (w : org_world) (r : requirement) : Prop :=
  exists o, get_store (req_kind r) w !! req_key r = Some o /\ req_holds r o.
Definition cell (r : requirement) : orgKind * objkey := (req_kind r, req_key r).
(** Nothing else changed. *)
Definition only_cells (cells : list (orgKind * objkey)) (w w' : org_world) : Prop :=
  forall k key, (k, key) ∉ cells -> get_store k w' !! key = get_store k w !! key.
Lemma only_cells_trans l l' w w1 w2 :
  only_cells l w w1 -> only_cells l' w1 w2 -> only_cells (l ++ l') w w2.
Proof. intros H H' k key Hn. rewrite H', H; set_solver. Qed.
Lemma only_cells_weaken l l' w w' : l ⊆ l' -> only_cells l w w' -> only_cells l' w w'.
Proof. intros Hl H k key Hn. apply H. set_solver. Qed.
Lemma provided_frame l w w' r : only_cells l w w' -> cell r ∉ l -> provided w r -> provided w' r.
Proof. intros H Hn (o & Ho & Hr). exists o. by rewrite (H _ _ Hn). Qed.

(** A step that changes one cell and, without an error, provides it. *)
Definition provides (p : prog resourceE (option error)) (rs : list requirement) : Prop :=
  forall w, wp resource_step p (fun w' err =>
    only_cells (cell <$> rs) w w' /\ (err = None -> Forall (provided w') rs)) w.
Lemma create_or_patch_provides k mutate obj (Pr : org_object k -> Prop) :
  (forall o, key_of (mutate o).1 = key_of o) ->
  (forall o, (mutate o).2 = None -> Pr (mutate o).1) ->
  (forall o o', kept_fields k o o' -> Pr o -> Pr o') ->
  provides (create_or_patch k mutate obj) [mk_requirement k (key_of obj) Pr].
Proof.
  intros Hkey Hm Hk w. unfold create_or_patch. wp_step. apply kind_lens.
  eapply wp_mono; [|by apply (CreateOrPatch_ensures (kept_fields k) mutate Hkey Pr)].
  intros s [o [res err]] [Ho Hp]. wp_step. split.
  - intros k' key Hn. cbn in Hn. destruct (decide (k' = k)) as [->|Hne].
    + rewrite get_put_store. apply Ho. set_solver.
    + by rewrite get_put_store_ne.
  - intros Herr. constructor; [|done]. destruct (Hp Herr) as (o' & Ho' & Hpr).
    exists o'. cbn. by rewrite get_put_store.
Qed.
(** In order, as long as no two of them write the same cell. *)
Lemma until_error_provides steps (rss : list (list requirement)) :
  Forall2 provides steps rss -> NoDup (cell <$> concat rss) -> provides (until_error steps) (concat rss).
Proof.
  induction 1 as [|p rs steps rss Hp _ IH]; cbn [until_error concat]; intros Hnd w.
  { apply wp_ret. split; [by intros k key|]. by constructor. }
  rewrite fmap_app in Hnd. apply NoDup_app in Hnd as (_ & Hdis & Hnd).
  wp_step. eapply wp_mono; [|apply Hp]. intros w1 err [H1 Hrs].
  destruct err as [e|].
  { apply wp_ret. split; [|done]. rewrite fmap_app. eapply only_cells_weaken; [|exact H1]. set_solver. }
  eapply wp_mono; [|by apply IH]. intros w2 err [H2 Hrs2]. rewrite fmap_app.
  split; [by eapply only_cells_trans|]. intros ->. apply Forall_app. split; [|by apply Hrs2].
  specialize (Hrs eq_refl). rewrite Forall_forall in Hrs |- *. intros r Hr.
  eapply provided_frame; [exact H2| |by apply Hrs]. apply Hdis. apply list_elem_of_fmap. eauto.
Qed.

(** One requirement per step. *)
Lemma until_error_each {B} (p : B -> prog resourceE (option error)) (r : B -> requirement) l :
  (forall b, provides (p b) [r b]) -> NoDup ((cell ∘ r) <$> l) -> provides (until_error (p <$> l)) (r <$> l).
Proof.
  intros Hp Hnd. rewrite list_fmap_compose in Hnd.
  assert (concat ((fun b => [r b]) <$> l) = r <$> l) as Hc.
  { clear. induction l as [|b l IH]; [done|]. cbn. by rewrite IH. }
  rewrite <-Hc in Hnd |- *. apply until_error_provides; [|done].
  clear -Hp. induction l as [|b l IH]; [apply List.Forall2_nil|]. by apply List.Forall2_cons.
Qed.

Lemma org_owned_key {Libs : OrgLibs} {O} `{ObjectLaws O} org (o : O) : key_of (org_owned org o).1 = key_of o.
Proof.
  unfold org_owned. destruct (org_SetOwnerReference _ _); [|done].
  unfold key_of, GetNamespace, GetName. cbn. by rewrite get_set_meta.
Qed.
Lemma org_owned_field {Libs : OrgLibs} {O A} `{Object O} (f : O -> A) org (o : O) :
  (forall m o, f (set_meta m o) = f o) -> f (org_owned org o).1 = f o.
Proof. intros Hf. unfold org_owned. destruct (org_SetOwnerReference _ _); cbn; [apply Hf|done]. Qed.
Lemma org_controlled_key {Libs : OrgLibs} {O} `{ObjectLaws O} org (o : O) :
  key_of (org_controlled org o).1 = key_of o.
Proof.
  unfold org_controlled. destruct (org_SetControllerReference _ _); [|done].
  unfold key_of, GetNamespace, GetName. cbn. by rewrite get_set_meta.
Qed.
Lemma org_controlled_field {Libs : OrgLibs} {O A} `{Object O} (f : O -> A) org (o : O) :
  (forall m o, f (set_meta m o) = f o) -> f (org_controlled org o).1 = f o.
Proof. intros Hf. unfold org_controlled. destruct (org_SetControllerReference _ _); cbn; [apply Hf|done]. Qed.

(** ** What each step provides *)
Definition cluster_role_req (name : string) (rules : list PolicyRule) : requirement :=
  mk_requirement OClusterRole (mk_key "" name) (fun o => cr_Rules o = rules /\ cr_AggregationRule o = None).
Definition cluster_binding_req (name : string) (subjects : list RbacSubject) : requirement :=
  mk_requirement OClusterRoleBinding (mk_key "" name)
    (fun o => crb_Subjects o = subjects /\ crb_RoleRef o = (rbacv1_GroupName, clusterRoleKind, name)).
Definition role_req (namespace name : string) (rules : list PolicyRule) : requirement :=
  mk_requirement ORole (mk_key namespace name) (fun o => role_Rules o = rules).
Definition binding_req (namespace name : string) (subjects : list RbacSubject) : requirement :=
  mk_requirement ORoleBinding (mk_key namespace name)
    (fun o => rb_Subjects o = subjects /\ rb_RoleRef o = (rbacv1_GroupName, "Role", name)).

Section provisions.
Context {Libs : OrgLibs}.
Variable org : Organization.
Abbreviation ns := (GetName org).
Ltac provided_by k :=
  apply (create_or_patch_provides k); [intros o; by etransitivity; [apply org_owned_key|]|intros o _|cbn; intros; intuition congruence].

Lemma cluster_role_provides name rules :
  provides (create_or_patch OClusterRole (mutate_cluster_role org rules) (new_cluster_role name))
    [cluster_role_req name rules].
Proof.
  provided_by OClusterRole. unfold mutate_cluster_role.
  by rewrite (org_owned_field cr_Rules), (org_owned_field cr_AggregationRule).
Qed.
Lemma cluster_binding_provides name subjects :
  provides (create_or_patch OClusterRoleBinding (mutate_cluster_binding org name subjects) (new_cluster_binding name))
    [cluster_binding_req name subjects].
Proof.
  provided_by OClusterRoleBinding. unfold mutate_cluster_binding.
  by rewrite (org_owned_field crb_Subjects), (org_owned_field crb_RoleRef).
Qed.
Lemma role_provides namespace name rules :
  provides (create_or_patch ORole (mutate_org_role org rules) (mk_role (named name namespace) []))
    [role_req namespace name rules].
Proof.
  provided_by ORole.
  unfold mutate_org_role. by rewrite (org_owned_field role_Rules).
Qed.
Lemma binding_provides namespace name subjects :
  provides (create_or_patch ORoleBinding (mutate_binding org name subjects) (new_binding name namespace))
    [binding_req namespace name subjects].
Proof.
  provided_by ORoleBinding. unfold mutate_binding. by rewrite (org_owned_field rb_Subjects), (org_owned_field rb_RoleRef).
Qed.

Lemma role_names_distinct n : NoDup
  [OrganizationAdminRoleName n; OrganizationRoleName n; OrganizationClusterAdminRoleName n; OrganizationPluginAdminRoleName n].
Proof.
  rewrite !NoDup_cons, !not_elem_of_cons.
  split_and!; try apply not_elem_of_nil; try apply NoDup_nil; try done;
    intros H; by do 2 apply append_inj_l in H.
Qed.
Definition access_requirements : list requirement :=
  let admins := OrganizationAdminRoleName ns in
  let members := OrganizationRoleName ns in
  [cluster_role_req admins (OrganizationAdminClusterRolePolicyRules ns);
   cluster_binding_req admins [group_subject admins];
   role_req ns admins OrganizationAdminPolicyRules;
   binding_req ns admins [group_subject admins];
   cluster_role_req members (OrganizationMemberClusterRolePolicyRules ns);
   cluster_binding_req members [group_subject members];
   role_req ns members OrganizationMemberPolicyRules;
   binding_req ns members [group_subject members];
   role_req ns (OrganizationClusterAdminRoleName ns) OrganizationClusterAdminPolicyRules;
   role_req ns (OrganizationPluginAdminRoleName ns) OrganizationPluginAdminPolicyRules].

Lemma access_provides : provides (reconcileRBAC org) access_requirements.
Proof.
  pose proof (role_names_distinct ns) as Hn. rewrite !NoDup_cons, !not_elem_of_cons in Hn.
  change (provides (reconcileRBAC org) (concat ((fun r => [r]) <$> access_requirements))).
  apply until_error_provides.
  - unfold reconcileClusterRole, reconcileClusterRoleBinding, reconcileRole, reconcileRoleBinding.
    cbn [cluster_role_of binding_name role_of].
    apply List.Forall2_cons; [apply cluster_role_provides|]. apply List.Forall2_cons; [apply cluster_binding_provides|].
    apply List.Forall2_cons; [apply role_provides|]. apply List.Forall2_cons; [apply binding_provides|].
    apply List.Forall2_cons; [apply cluster_role_provides|]. apply List.Forall2_cons; [apply cluster_binding_provides|].
    apply List.Forall2_cons; [apply role_provides|]. apply List.Forall2_cons; [apply binding_provides|].
    apply List.Forall2_cons; [apply role_provides|]. apply List.Forall2_cons; [apply role_provides|].
    apply List.Forall2_nil.
  - unfold access_requirements. revert Hn.
    generalize (OrganizationAdminRoleName ns), (OrganizationRoleName ns),
      (OrganizationClusterAdminRoleName ns), (OrganizationPluginAdminRoleName ns).
    clear. intros A M C Q Hn.
    change (NoDup [(OClusterRole, mk_key "" A); (OClusterRoleBinding, mk_key "" A); (ORole, mk_key ns A);
      (ORoleBinding, mk_key ns A); (OClusterRole, mk_key "" M); (OClusterRoleBinding, mk_key "" M);
      (ORole, mk_key ns M); (ORoleBinding, mk_key ns M); (ORole, mk_key ns C); (ORole, mk_key ns Q)]).
    rewrite !NoDup_cons, !not_elem_of_cons.
    split_and!; try apply not_elem_of_nil; try apply NoDup_nil_2; intros [=]; destruct_and!; congruence.
Qed.
(** The access an Organization is given.  [reconcileRBAC] changes, in any store and
    whatever calls fail, only the ten objects of the Organization; without an error all
    ten are stored, each role with its rules and each binding giving the role of its own
    name to the group of that name. *)
Theorem reconcileRBAC_provides w :
  wp resource_step (reconcileRBAC org) (fun w' err =>
    only_cells (cell <$> access_requirements) w w' /\
    (err = None -> Forall (provided w') access_requirements)) w.
Proof. apply access_provides. Qed.

Definition account_req (namespace name : string) : requirement :=
  mk_requirement OServiceAccount (mk_key namespace name) (fun _ => True).
Definition catalog_cluster_role_req (name : string) (rules : list PolicyRule) : requirement :=
  mk_requirement OClusterRole (mk_key "" name) (fun o => cr_Rules o = rules).
Definition team_role_req (namespace name : string) (spec : TeamRoleSpec) : requirement :=
  mk_requirement OTeamRole (mk_key namespace name) (fun o => tr_Spec o = spec).
Lemma account_provides namespace name :
  provides (create_or_patch OServiceAccount (org_owned org) (mk_sa (named name namespace))) [account_req namespace name].
Proof. by provided_by OServiceAccount. Qed.
Lemma catalog_cluster_role_provides name resources :
  provides (create_or_patch OClusterRole (mutate_catalog_cluster_role org resources) (new_cluster_role name))
    [catalog_cluster_role_req name (OrgCatalogPolicyRules resources)].
Proof. provided_by OClusterRole. unfold mutate_catalog_cluster_role. by rewrite (org_owned_field cr_Rules). Qed.
Lemma team_role_provides name spec :
  provides (reconcile_team_role org name spec) [team_role_req ns name spec].
Proof. provided_by OTeamRole. unfold mutate_team_role. by rewrite (org_owned_field tr_Spec). Qed.

Definition catalog_requirements : list requirement :=
  let role := OrgCatalogRoleName ns in
  account_req ns (OrgCatalogServiceAccountName ns) ::
  if bool_decide (ns = defaultGreenhouseConnectorID)
  then [catalog_cluster_role_req role
          (OrgCatalogPolicyRules [KindClusterPluginDefinitionPlural; KindPluginDefinitionPlural]);
        cluster_binding_req role [catalog_subject org]]
  else [role_req ns role (OrgCatalogPolicyRules [KindPluginDefinitionPlural]);
        binding_req ns role [catalog_subject org]].
Lemma catalog_provides : provides (reconcileCatalogPermissions org) catalog_requirements.
Proof.
  unfold reconcileCatalogPermissions, catalog_requirements.
  case_bool_decide; (apply (until_error_provides _ [[_]; [_]; [_]]); [|cbn; rewrite !NoDup_cons, !not_elem_of_cons;
    split_and!; try apply not_elem_of_nil; try apply NoDup_nil_2; done]).
  - apply List.Forall2_cons; [apply account_provides|].
    apply List.Forall2_cons; [apply catalog_cluster_role_provides|].
    apply List.Forall2_cons; [apply cluster_binding_provides|]. apply List.Forall2_nil.
  - apply List.Forall2_cons; [apply account_provides|].
    apply List.Forall2_cons; [apply role_provides|].
    apply List.Forall2_cons; [apply binding_provides|]. apply List.Forall2_nil.
Qed.
(** The access of the catalogs' ServiceAccount.  The ServiceAccount is created in the
    namespace of the Organization; only the Organization "greenhouse" gives it a
    cluster-wide role, for both kinds of definitions, any other one a role in its own
    namespace, for definitions of a namespace alone.  Nothing else changes, whatever
    calls fail. *)
Theorem reconcileCatalogPermissions_provides w :
  wp resource_step (reconcileCatalogPermissions org) (fun w' err =>
    only_cells (cell <$> catalog_requirements) w w' /\
    (err = None -> Forall (provided w') catalog_requirements)) w.
Proof. apply catalog_provides. Qed.

Variable roles_order : gmap string TeamRoleSpec -> list (string * TeamRoleSpec).
Hypothesis roles_order_perm : forall m, roles_order m ≡ₚ map_to_list m.
Definition team_role_requirements : list requirement :=
  (fun '(name, spec) => team_role_req ns name spec) <$> roles_order defaultTeamRoles.
Lemma team_roles_provide : provides (reconcileDefaultTeamRoles roles_order org) team_role_requirements.
Proof.
  apply until_error_each; [intros []; apply team_role_provides|].
  rewrite roles_order_perm, (list_fmap_ext _ ((fun name => (OTeamRole, mk_key ns name)) ∘ fst)) by (by intros ? []).
  rewrite list_fmap_compose. apply NoDup_fmap_2; [by intros ? ? [=]|]. apply NoDup_fst_map_to_list.
Qed.
(** The default TeamRoles.  In any iteration order of the map and whatever calls
    fail only the six TeamRoles of those names in the namespace of the Organization
    change; without an error each has its default rules.  The webhook for TeamRoles
    admits every one of them. *)
Theorem reconcileDefaultTeamRoles_provides w :
  wp resource_step (reconcileDefaultTeamRoles roles_order org) (fun w' err =>
    only_cells (cell <$> team_role_requirements) w w' /\
    (err = None -> Forall (provided w') team_role_requirements)) w /\
  forall name spec m, defaultTeamRoles !! name = Some spec ->
    isRulesAndAggregationRuleExclusive (mk_team_role m spec) = None.
Proof.
  split.
  - apply team_roles_provide.
  - intros name spec m H. apply elem_of_list_to_map_2 in H. rewrite !elem_of_cons, elem_of_nil in H.
    destruct_or!; by simplify_eq.
Qed.
End provisions.

(** ** A concrete Organization *)
Module OrgRun.
#[local] Instance libs : OrgLibs := {|
  org_SetOwnerReference owner o :=
    Ok (om_owners o ++ [mk_ref "Organization" (om_name owner) (om_uid owner) false]);
  org_SetControllerReference owner o :=
    Ok (om_owners o ++ [mk_ref "Organization" (om_name owner) (om_uid owner) true]) |}.
Definition acme : Organization := mk_org (named "acme" "") (mk_org_spec "" None "" "idp-admins" "") [].
Definition nothing : org_world := mk_org_world ∅ ∅ ∅ ∅ ∅ ∅ ∅ ∅ ∅ ∅.
Lemma reconcileDefaultTeamRoles_provides_witness :
  wp resource_step (reconcileDefaultTeamRoles map_to_list acme) (fun w' err =>
    err = None -> exists tr, w_team_roles w' !! mk_key "acme" "node-maintainer" = Some tr /\
      tr_Rules (tr_Spec tr) = [mk_rule [""] ["nodes"] ["get"; "patch"] []]) nothing.
Proof.
  destruct (reconcileDefaultTeamRoles_provides acme map_to_list (fun _ => reflexivity _) nothing) as [Hwp _].
  revert Hwp. apply wp_mono. intros w' err [_ H] He. specialize (H He). rewrite Forall_forall in H.
  destruct (H (team_role_req "acme" "node-maintainer"
    (mk_team_role_spec [mk_rule [""] ["nodes"] ["get"; "patch"] []] None ∅))) as (tr & Htr & Hs).
  - apply list_elem_of_fmap. eexists ("node-maintainer", _). split; [reflexivity|].
    by apply elem_of_map_to_list.
  - exists tr. cbn in Htr, Hs. by rewrite Hs.
Defined.
End OrgRun.
