(* ===== verification/OrgDex.v ===== *)
(** * OrgDex: the identity provider's registrations ([internal/controller/organization/dex.go])

    Dex, the identity provider, keeps connectors to upstream providers and OAuth2 clients.
    Every Organization with OIDC has one of each, of its name, and its dashboard's URL is a
    redirect of the client of the default Organization "greenhouse" as well.

    Dex's storage is a set of calls ([dexE]); its step is the documented one: an update
    applies a function to what is stored under an ID and leaves the ID.  Parameters:
    [json.Marshal] of the connector configuration, [cases.Title], the DNS domain and the
    kind of storage.  [OptionTypes.ParseInt] reads JSON numerals; [ParseInt10] adds the plus
    sign [strconv.ParseInt] accepts as well. *)
From S2P Require Import Prelude Effects Conditions Meta CoreTypes ApiTypes PluginTypes OptionTypes KubeConfig Organization Scim OrgResources.
From Stdlib Require Import ZArith Ascii.

(** ** Dex's storage *)
(** [storage.Client] and [storage.Connector] *)
Record DexClient := mk_dex_client {
  dc_ID : string; dc_Secret : string; dc_RedirectURIs : list string; dc_Public : bool; dc_Name : string }.
#[export] Instance DexClient_eq_dec : EqDecision DexClient.
Proof. solve_decision. Defined.
Record DexConnector := mk_dex_connector {
  dx_ID : string; dx_Type : string; dx_Name : string; dx_ResourceVersion : string; dx_Config : string }.
#[export] Instance DexConnector_eq_dec : EqDecision DexConnector.
Proof. solve_decision. Defined.
Inductive dexE : Type -> Type :=
| DGetClient (id : string) : dexE (result DexClient)
| DCreateClient (c : DexClient) : dexE (option error)
| DUpdateClient (id : string) (updater : DexClient -> DexClient) : dexE (option error)
| DDeleteClient (id : string) : dexE (option error)
| DGetConnector (id : string) : dexE (result DexConnector)
| DCreateConnector (c : DexConnector) : dexE (option error)
| DUpdateConnector (id : string) (updater : DexConnector -> DexConnector) : dexE (option error)
| DDeleteConnector (id : string) : dexE (option error).
Inductive oidcE : Type -> Type :=
| DSecrets {X} (e : scimE X) : oidcE X
(** the hosts of the rules of every Ingress with the label of the identity proxy *)
| DListIngresses (namespace : string) : oidcE (result (list (list string)))
| DDex {X} (e : dexE X) : oidcE X.

Definition dexConnectorTypeGreenhouse : string := "greenhouse-oidc".
(** [dexstore.Postgres] and [dexstore.K8s] *)
Definition Postgres : string := "postgres".
Definition K8s : string := "kubernetes".

(** [oidc.Config] with the fields that are set *)
Record ConnectorConfig := mk_connector_config {
  cc_Issuer : string; cc_ClientID : string; cc_ClientSecret : string; cc_RedirectURI : string;
  cc_UserNameKey : string; cc_UserIDKey : string; cc_InsecureSkipVerify : bool; cc_InsecureEnableGroups : bool }.
Class DexLibs := {
  json_Marshal : ConnectorConfig -> result string;
  cases_Title : string -> string
}.

(** ** Pure parts *)
Definition ensureCallbackURL (url : string) : string :=
  let url := if has_prefix url "https://" then url else "https://" +:+ url in
  match cut_suffix url "/callback" with Some _ => url | None => url +:+ "/callback" end.
(** [append]ing what is not contained *)
Definition appendRedirects (redirects newRedirects : list string) : list string :=
  fold_left (fun redirects r => if slices_contains redirects r then redirects else redirects ++ [r])
    newRedirects redirects.
(** [strconv.ParseInt(s, 10, 64)] *)
Definition ParseInt10 (s : string) : option Z :=
  match s with
  | String a s' =>
      if Ascii.eqb a "+"%char then if has_prefix s' "-" then None else ParseInt s' else ParseInt s
  | EmptyString => None
  end.
(** [v + 1] of an [int64] *)
Definition int64_succ (v : Z) : Z := if (v =? int64_max)%Z then int64_min else (v + 1)%Z.
Definition incrementResourceVersion (storageType resourceVersion : string) : string :=
  if negb (bool_decide (storageType = Postgres)) then resourceVersion
  else match ParseInt10 resourceVersion with
       | None => "1"
       | Some v => pretty.pretty (int64_succ v)
       end.

Section dex.
Context {Libs : DexLibs}.
Variable DNSDomain : string.
Variable DexStorageType : string.
(** [r.Namespace] *)
Variable ReconcilerNamespace : string.
Local Abbreviation P := (prog oidcE).

Definition getRedirectForOrg (orgName : string) : string :=
  "https://" +:+ orgName +:+ ".dashboard." +:+ DNSDomain.
Definition defaultRedirects (orgName : string) : list string :=
  ["http://localhost:8085"; "https://dashboard." +:+ DNSDomain; getRedirectForOrg orgName].
Definition getRedirects (orgName : string) (redirectURIs : list string) : list string :=
  appendRedirects (defaultRedirects orgName) redirectURIs.

(** ** Calls to Dex *)
Definition dex {X} (e : dexE X) : P X := trigger (DDex e).
Definition oidc_secret (org : Organization) (ref : SecretKeyReference) : P (result string) :=
  translate (@DSecrets) (GetSecretKeyFromSecretKeyReference (GetName org) ref).
Definition no_redirect : error := new_error "oidc redirect URL not provided and cannot be discovered".
Definition discoverOIDCRedirectURL (c : OIDCConfig) : P (result string) :=
  if negb (bool_decide (oidc_RedirectURI c = "")) then mret (Ok (oidc_RedirectURI c))
  else
    l ← trigger (DListIngresses ReconcilerNamespace);
    mret (match l with
          | Err e => Err e
          | Ok ingresses =>
              match List.filter (fun host => negb (bool_decide (host = ""))) (concat ingresses) with
              | [] => Err no_redirect
              | host :: _ => Ok (ensureCallbackURL host)
              end
          end).

Definition drop_redirect (orgName : string) (authClient : DexClient) : DexClient :=
  mk_dex_client (dc_ID authClient) (dc_Secret authClient)
    (delete_func (fun s => bool_decide (s = getRedirectForOrg orgName)) (dc_RedirectURIs authClient))
    (dc_Public authClient) (dc_Name authClient).
Definition add_redirect (orgName : string) (authClient : DexClient) : DexClient :=
  mk_dex_client (dc_ID authClient) (dc_Secret authClient)
    (appendRedirects (dc_RedirectURIs authClient) [getRedirectForOrg orgName])
    (dc_Public authClient) (dc_Name authClient).
(** Both updates go to the name of the default client, not to its ID. *)
Definition update_default (updater : DexClient -> DexClient) : P (option error) :=
  r ← dex (DGetClient defaultGreenhouseConnectorID);
  match r with
  | Err e => mret (Some e)
  | Ok defaultClient => dex (DUpdateClient (dc_Name defaultClient) updater)
  end.
Definition removeAuthRedirectFromDefaultConnector (org : Organization) : P (option error) :=
  update_default (drop_redirect (GetName org)).
Definition appendRedirectsToDefaultConnector (orgName : string) : P (option error) :=
  update_default (add_redirect orgName).
Definition deleteDexConnector (org : Organization) : P (option error) :=
  err ← dex (DDeleteConnector (GetName org)); mret (ignore_not_found err).
Definition deleteOAuth2Client (org : Organization) : P (option error) :=
  err ← dex (DDeleteClient (GetName org)); mret (ignore_not_found err).

Definition connector_config (c : OIDCConfig) (clientID clientSecret redirectURL : string) : ConnectorConfig :=
  mk_connector_config (oidc_Issuer c) clientID clientSecret redirectURL "login_name" "login_name" true true.
Definition update_connector (org : Organization) (configByte : string) (c : DexConnector) : DexConnector :=
  mk_dex_connector (GetName org) dexConnectorTypeGreenhouse (cases_Title (GetName org))
    (incrementResourceVersion DexStorageType (dx_ResourceVersion c)) configByte.
Definition store_connector (org : Organization) (configByte : string) : P (option error) :=
  r ← dex (DGetConnector (GetName org));
  match r with
  | Err e =>
      if is_not_found (Some e) then
        let rv := if bool_decide (DexStorageType = Postgres) then "0" else "" in
        dex (DCreateConnector (mk_dex_connector (GetName org) dexConnectorTypeGreenhouse
               (cases_Title (GetName org)) rv configByte))
      else mret (Some e)
  | Ok oidcConnector =>
      if bool_decide (dx_Config oidcConnector = configByte) then mret None
      else dex (DUpdateConnector (dx_ID oidcConnector) (update_connector org configByte))
  end.
Definition reconcileDexConnector (org : Organization) (c : OIDCConfig) : P (option error) :=
  clientID ← oidc_secret org (ClientIDReference c);
  match clientID with
  | Err e => mret (Some e)
  | Ok clientID =>
      clientSecret ← oidc_secret org (ClientSecretReference c);
      match clientSecret with
      | Err e => mret (Some e)
      | Ok clientSecret =>
          redirectURL ← discoverOIDCRedirectURL c;
          match redirectURL with
          | Err e => mret (Some e)
          | Ok redirectURL =>
              match json_Marshal (connector_config c clientID clientSecret redirectURL) with
              | Err e => mret (Some e)
              | Ok configByte => store_connector org configByte
              end
          end
      end
  end.

Definition update_client (org : Organization) (c : OIDCConfig) (authClient : DexClient) : DexClient :=
  let redirects := getRedirects (GetName org) (OAuth2ClientRedirectURIs c) in
  mk_dex_client (GetName org) (dc_Secret authClient)
    (if bool_decide (GetName org = defaultGreenhouseConnectorID)
     then appendRedirects redirects (dc_RedirectURIs authClient) else redirects)
    true (GetName org).
Definition reconcileOAuth2Client (org : Organization) (c : OIDCConfig) : P (option error) :=
  r ← dex (DGetClient (GetName org));
  match r with
  | Err e =>
      if is_not_found (Some e) then
        dex (DCreateClient (mk_dex_client (GetName org) ""
               (getRedirects (GetName org) (OAuth2ClientRedirectURIs c)) true (GetName org)))
      else mret (Some e)
  | Ok oAuthClient => dex (DUpdateClient (dc_ID oAuthClient) (update_client org c))
  end.
End dex.

(** ** Versions *)
Lemma ParseInt_range s z : ParseInt s = Some z -> (int64_min <= z <= int64_max)%Z.
Proof.
  unfold ParseInt. destruct (match s with EmptyString => None | String _ _ => _ end) as [z'|]; [|done]. cbn.
  destruct (Z.leb_spec int64_min z'), (Z.leb_spec z' int64_max); cbn; [|done..]. intros [= <-]. lia.
Qed.
Lemma ParseInt10_of_ParseInt s z : ParseInt s = Some z -> ParseInt10 s = Some z.
Proof.
  destruct s as [|a s]; [done|]. intros H. unfold ParseInt10.
  destruct (Ascii.eqb_spec a "+"%char) as [->|]; [|done]. by vm_compute in H.
Qed.
Lemma ParseInt10_range s z : ParseInt10 s = Some z -> (int64_min <= z <= int64_max)%Z.
Proof.
  destruct s as [|a s]; [done|]. unfold ParseInt10. destruct (Ascii.eqb _ _); [|apply ParseInt_range].
  destruct (has_prefix _ _); [done|apply ParseInt_range].
Qed.
Lemma int64_succ_range v : (int64_min <= v <= int64_max)%Z -> (int64_min <= int64_succ v <= int64_max)%Z.
Proof. unfold int64_succ, int64_min, int64_max. destruct (Z.eqb_spec v (2 ^ 63 - 1)); lia. Qed.
Lemma increment_parses v z : ParseInt10 v = Some z ->
  ParseInt10 (incrementResourceVersion Postgres v) = Some (int64_succ z).
Proof.
  intros Hz. unfold incrementResourceVersion. cbn [negb]. rewrite bool_decide_eq_true_2, Hz by done. cbn [negb].
  apply ParseInt10_of_ParseInt. rewrite ParseInt_pretty. apply ParseInt10_range, int64_succ_range in Hz.
  destruct (Z.leb_spec int64_min (int64_succ z)), (Z.leb_spec (int64_succ z) int64_max); cbn; [done|lia..].
Qed.
Lemma int64_succ_ne z : int64_succ z <> z.
Proof. unfold int64_succ, int64_min, int64_max. destruct (Z.eqb_spec z (2 ^ 63 - 1)); lia. Qed.
Lemma increment_ne v : incrementResourceVersion Postgres v <> v.
Proof.
  intros Hv. destruct (ParseInt10 v) as [z|] eqn:Hz.
  - pose proof (increment_parses v z Hz) as H. rewrite Hv, Hz in H. injection H as H. by apply (int64_succ_ne z).
  - unfold incrementResourceVersion in Hv. rewrite bool_decide_eq_true_2 in Hv by done. cbn [negb] in Hv.
    rewrite Hz in Hv. by rewrite <-Hv in Hz.
Qed.
(** Resource versions of connectors.  With Postgres every version is followed by a
    different one, the numeral of the next [int64], which wraps from the largest to the
    smallest; what is no [int64] is followed by "1".  Other storages keep the version. *)
Theorem incrementResourceVersion_changes v :
  incrementResourceVersion Postgres v <> v /\
  (forall z, ParseInt10 v = Some z ->
     ParseInt10 (incrementResourceVersion Postgres v) = Some (int64_succ z) /\
     (z <> int64_max -> int64_succ z = z + 1)%Z) /\
  (ParseInt10 v = None -> incrementResourceVersion Postgres v = "1") /\
  incrementResourceVersion K8s v = v.
Proof.
  split_and!; [apply increment_ne| | |done].
  - intros z Hz. split; [by apply increment_parses|]. unfold int64_succ. intros Hne.
    by rewrite (proj2 (Z.eqb_neq _ _) Hne).
  - intros Hn. unfold incrementResourceVersion. rewrite bool_decide_eq_true_2 by done. cbn [negb]. by rewrite Hn.
Qed.

(** ** Redirects *)
Lemma appendRedirects_elem x rs new : x ∈ appendRedirects rs new <-> x ∈ rs \/ x ∈ new.
Proof.
  unfold appendRedirects. revert rs. induction new as [|r new IH]; intros rs; cbn [fold_left].
  { rewrite elem_of_nil. tauto. }
  rewrite IH, elem_of_cons. destruct (slices_contains rs r) eqn:Hc.
  - apply slices_contains_true in Hc. naive_solver.
  - rewrite elem_of_app, list_elem_of_singleton. tauto.
Qed.
Lemma appendRedirects_keeps rs new : exists l, appendRedirects rs new = rs ++ l.
Proof.
  unfold appendRedirects. revert rs. induction new as [|r new IH]; intros rs; cbn [fold_left].
  { exists []. by rewrite app_nil_r. }
  destruct (slices_contains rs r); [apply IH|]. destruct (IH (rs ++ [r])) as [l ->].
  exists (r :: l). by rewrite <-app_assoc.
Qed.
Lemma appendRedirects_nodup rs new : NoDup rs -> NoDup (appendRedirects rs new).
Proof.
  unfold appendRedirects. revert rs. induction new as [|r new IH]; intros rs Hn; cbn [fold_left]; [done|].
  apply IH. destruct (slices_contains rs r) eqn:Hc; [done|].
  assert (r ∉ rs) as Hr by (intros H%slices_contains_true; congruence).
  apply NoDup_app. split_and!; [done| |apply NoDup_singleton]. intros x Hx ->%list_elem_of_singleton. done.
Qed.

(** ** What Dex stores *)
Record dex_world := mk_dex_world { clients : gmap string DexClient; connectors : gmap string DexConnector }.
Definition set_clients (m : gmap string DexClient) (w : dex_world) : dex_world := mk_dex_world m (connectors w).
Definition set_connectors (m : gmap string DexConnector) (w : dex_world) : dex_world := mk_dex_world (clients w) m.

(** A call may fail and then changes nothing; an answer "not found" is true. *)
Definition read_of {A} (m : gmap string A) (id : string) (r : result A) : Prop :=
  match r with
  | Ok c => m !! id = Some c
  | Err e => is_not_found (Some e) = true -> m !! id = None
  end.
Definition created_at {A} (m : gmap string A) (id : string) (c : A) (err : option error) (m' : gmap string A) : Prop :=
  match err with None => m !! id = None /\ m' = <[id := c]> m | Some _ => m' = m end.
Definition updated_at {A} (m : gmap string A) (id : string) (f : A -> A) (err : option error) (m' : gmap string A) : Prop :=
  match err with
  | None => exists c, m !! id = Some c /\ m' = <[id := f c]> m
  | Some _ => m' = m
  end.
Definition deleted_at {A} (m : gmap string A) (id : string) (err : option error) (m' : gmap string A) : Prop :=
  match err with
  | None => m' = delete id m
  | Some e => m' = m /\ (is_not_found (Some e) = true -> m !! id = None)
  end.
Definition dex_step (w : dex_world) X (e : dexE X) : X -> dex_world -> Prop :=
  match e in dexE X return X -> dex_world -> Prop with
  | DGetClient id => fun r w' => w' = w /\ read_of (clients w) id r
  | DCreateClient c => fun r w' => exists m, created_at (clients w) (dc_ID c) c r m /\ w' = set_clients m w
  | DUpdateClient id f => fun r w' => exists m, updated_at (clients w) id f r m /\ w' = set_clients m w
  | DDeleteClient id => fun r w' => exists m, deleted_at (clients w) id r m /\ w' = set_clients m w
  | DGetConnector id => fun r w' => w' = w /\ read_of (connectors w) id r
  | DCreateConnector c => fun r w' => exists m, created_at (connectors w) (dx_ID c) c r m /\ w' = set_connectors m w
  | DUpdateConnector id f => fun r w' => exists m, updated_at (connectors w) id f r m /\ w' = set_connectors m w
  | DDeleteConnector id => fun r w' => exists m, deleted_at (connectors w) id r m /\ w' = set_connectors m w
  end.
Definition oidc_step (w : dex_world) X (e : oidcE X) : X -> dex_world -> Prop :=
  match e in oidcE X return X -> dex_world -> Prop with
  | DDex e => fun x w' => dex_step w _ e x w'
  | _ => fun _ w' => w' = w
  end.

(** Clients carry their ID, the default one also as its name. *)
Definition well_named (w : dex_world) : Prop :=
  forall id c, clients w !! id = Some c ->
    dc_ID c = id /\ (id = defaultGreenhouseConnectorID -> dc_Name c = id).
Lemma well_named_insert w id c :
  well_named w -> dc_ID c = id -> (id = defaultGreenhouseConnectorID -> dc_Name c = id) ->
  well_named (set_clients (<[id := c]> (clients w)) w).
Proof.
  intros Hw Hid Hn id' c'. cbn. intros [[<- <-]|[_ Hc]]%lookup_insert_Some; [done|by apply Hw].
Qed.

Section operations.
Context {Libs : DexLibs}.
Variable DNSDomain DexStorageType ReconcilerNamespace : string.
Abbreviation redirect := (getRedirectForOrg DNSDomain).
Abbreviation default_id := defaultGreenhouseConnectorID.

(** An update of the default client that leaves its ID and name. *)
Lemma update_default_spec f w :
  well_named w -> (forall c, dc_ID (f c) = dc_ID c /\ dc_Name (f c) = dc_Name c) ->
  wp oidc_step (update_default f) (fun w' err =>
    well_named w' /\
    match err with
    | None => exists c, clients w !! default_id = Some c /\ w' = set_clients (<[default_id := f c]> (clients w)) w
    | Some _ => w' = w
    end) w.
Proof.
  intros Hw Hf. unfold update_default, dex. do 2 wp_step. destruct Hx as [-> Hr]. destruct x as [c|e]; [|by wp_step].
  destruct (Hw _ _ Hr) as [Hid Hn]. rewrite Hn by done. wp_step. destruct Hx as (m & Hm & ->).
  destruct x as [e|]; cbn in Hm.
  { subst m. by destruct w. }
  destruct Hm as (c' & Hc & ->). assert (c' = c) as -> by (cbn in Hr; congruence). split; [|by eauto].
  apply well_named_insert; [done|..]; destruct (Hf c) as [H1 H2]; [congruence|]. intros _. rewrite H2. by apply Hn.
Qed.
(** [reconcileOAuth2Client] writes the client of the Organization. *)
Lemma reconcileOAuth2Client_spec org c w :
  well_named w ->
  wp oidc_step (reconcileOAuth2Client DNSDomain org c) (fun w' err =>
    well_named w' /\
    match err with
    | None => exists b secret, w' = set_clients (<[GetName org := b]> (clients w)) w /\
        b = mk_dex_client (GetName org) secret (dc_RedirectURIs b) true (GetName org) /\
        dc_RedirectURIs b =
          (let redirects := getRedirects DNSDomain (GetName org) (OAuth2ClientRedirectURIs c) in
           match clients w !! GetName org with
           | Some old => if bool_decide (GetName org = default_id)
                         then appendRedirects redirects (dc_RedirectURIs old) else redirects
           | None => redirects
           end)
    | Some _ => w' = w
    end) w.
Proof.
  intros Hw. unfold reconcileOAuth2Client, dex. do 2 wp_step. destruct Hx as [-> Hr]. destruct x as [old|e].
  - wp_step. destruct Hx as (m & Hm & ->). cbn in Hr. destruct (Hw _ _ Hr) as [Hid _]. rewrite Hid in Hm.
    destruct x as [e|]; cbn in Hm; [subst m; by destruct w|]. destruct Hm as (old' & Ho & ->).
    assert (old' = old) as -> by congruence.
    split; [by apply well_named_insert|]. eexists _, _. split; [done|]. rewrite Hr. done.
  - cbn in Hr. destruct (is_not_found (Some e)); [|by wp_step].
    wp_step. destruct Hx as (m & Hm & ->). destruct x as [e'|]; cbn in Hm; [subst m; by destruct w|].
    destruct Hm as [Hn ->]. split; [by apply well_named_insert|].
    eexists _, _. split; [done|]. rewrite Hn. done.
Qed.

(** The connector of an Organization.  [reconcileDexConnector] changes nothing but
    the connector of that name.  Without an error it is stored with the configuration
    built from the two referenced keys and the redirect; when another configuration was
    stored before, the version differs from the former one with Postgres, so a reader
    that compares versions sees the change; the same configuration is not written
    again. *)
Theorem reconcileDexConnector_stored org c w :
  (forall id old, connectors w !! id = Some old -> dx_ID old = id) ->
  wp oidc_step (reconcileDexConnector DexStorageType ReconcilerNamespace org c) (fun w' err =>
    clients w' = clients w /\ (forall id, id <> GetName org -> connectors w' !! id = connectors w !! id) /\
    (err <> None -> w' = w) /\
    (err = None -> exists clientID clientSecret redirectURL conn,
       json_Marshal (connector_config c clientID clientSecret redirectURL) = Ok (dx_Config conn) /\
       connectors w' !! GetName org = Some conn /\
       match connectors w !! GetName org with
       | Some old =>
           if bool_decide (dx_Config old = dx_Config conn) then w' = w
           else DexStorageType = Postgres -> dx_ResourceVersion conn <> dx_ResourceVersion old
       | None => True
       end)) w.
Proof.
  intros Hw. unfold reconcileDexConnector, oidc_secret, GetSecretKeyFromSecretKeyReference, discoverOIDCRedirectURL.
  do 3 wp_step. wp_step. cbn in Hx. subst. wp_step. destruct (match x with Ok _ => _ | Err _ => _ end) as [clientID|e]; [|by wp_step].
  do 3 wp_step. wp_step. cbn in Hx. subst. wp_step. destruct (match x0 with Ok _ => _ | Err _ => _ end) as [clientSecret|e]; [|by wp_step].
  apply wp_bind. eapply (wp_mono _ _ (fun w' _ => w' = w)).
  2: { destruct (negb _); [by wp_step|]. do 2 wp_step. by wp_step. }
  intros w1 redirectURL ->. destruct redirectURL as [redirectURL|e]; [|by wp_step].
  destruct (json_Marshal _) as [configByte|e] eqn:Hj; [|by wp_step].
  unfold store_connector, dex. do 2 wp_step. destruct Hx as [-> Hr]. destruct x1 as [old|e].
  - cbn in Hr. case_bool_decide as Hc.
    + wp_step. split_and!; try done. intros _. exists clientID, clientSecret, redirectURL, old.
      rewrite Hc, Hr. split; [done|]. split; [done|]. by rewrite bool_decide_eq_true_2.
    + wp_step. destruct Hx as (m & Hm & ->). rewrite (Hw _ _ Hr) in Hm. destruct x1 as [e|]; cbn in Hm.
      { subst m. destruct w. by split_and!. }
      destruct Hm as (old' & Ho & ->). assert (old' = old) as -> by congruence. cbn.
      split_and!; [done|intros; by rewrite lookup_insert_ne|done|].
      intros _. exists clientID, clientSecret, redirectURL, (update_connector DexStorageType org configByte old).
      rewrite lookup_insert_eq, Hr. split; [done|]. split; [done|].
      rewrite bool_decide_eq_false_2 by done. intros ->. apply increment_ne.
  - unfold read_of in Hr. destruct (is_not_found (Some e)); [|by wp_step]. specialize (Hr eq_refl).
    wp_step. destruct Hx as (m & Hm & ->). cbn in Hm. destruct x1 as [e'|]; cbn in Hm.
    { subst m. destruct w. by split_and!. }
    destruct Hm as [_ ->]. cbn. split_and!; [done|intros; by rewrite lookup_insert_ne|done|].
    intros _. eexists clientID, clientSecret, redirectURL, _. rewrite lookup_insert_eq, Hr.
    split; [|split; [reflexivity|done]]. exact Hj.
Qed.

(** ** Sequences of operations *)
Inductive operation :=
| OpConnector (org : Organization) (c : OIDCConfig)
| OpClient (org : Organization) (c : OIDCConfig)
| OpAppend (orgName : string)
| OpRemove (org : Organization)
| OpDeleteConnector (org : Organization)
| OpDeleteClient (org : Organization).
Definition run_operation (op : operation) : prog oidcE (option error) :=
  match op with
  | OpConnector org c => reconcileDexConnector DexStorageType ReconcilerNamespace org c
  | OpClient org c => reconcileOAuth2Client DNSDomain org c
  | OpAppend orgName => appendRedirectsToDefaultConnector DNSDomain orgName
  | OpRemove org => removeAuthRedirectFromDefaultConnector DNSDomain org
  | OpDeleteConnector org => deleteDexConnector org
  | OpDeleteClient org => deleteOAuth2Client org
  end.
Definition op_step (allowed : operation -> Prop) (w w' : dex_world) : Prop :=
  exists op err, allowed op /\ exec oidc_step (run_operation op) w err w'.

(** The redirect of an Organization is registered with the default client. *)
Definition registered (orgName : string) (w : dex_world) : Prop :=
  exists c, clients w !! default_id = Some c /\ redirect orgName ∈ dc_RedirectURIs c.
Lemma getRedirectForOrg_inj o o' : redirect o = redirect o' -> o = o'.
Proof. unfold getRedirectForOrg. intros H. by apply append_inj_l, append_inj_r in H. Qed.
Lemma add_redirect_names o c :
  dc_ID (add_redirect DNSDomain o c) = dc_ID c /\ dc_Name (add_redirect DNSDomain o c) = dc_Name c.
Proof. done. Qed.
Lemma drop_redirect_names o c :
  dc_ID (drop_redirect DNSDomain o c) = dc_ID c /\ dc_Name (drop_redirect DNSDomain o c) = dc_Name c.
Proof. done. Qed.

(** Calls that leave the clients alone. *)
Definition no_client X (e : oidcE X) : Prop :=
  match e with
  | DDex (DCreateClient _) | DDex (DUpdateClient _ _) | DDex (DDeleteClient _) => False
  | _ => True
  end.
Lemma connector_calls org c : all_calls no_client (reconcileDexConnector DexStorageType ReconcilerNamespace org c).
Proof.
  unfold reconcileDexConnector, oidc_secret, GetSecretKeyFromSecretKeyReference, discoverOIDCRedirectURL, store_connector, dex.
  calls_steps; done.
Qed.
Lemma no_client_kept {A} (p : prog oidcE A) w :
  all_calls no_client p -> wp oidc_step p (fun w' _ => clients w' = clients w) w.
Proof.
  intros Hp. apply (all_calls_wp no_client oidc_step (fun w' => clients w' = clients w)); [done| |done].
  intros w1 X e x w2 <- He H. destruct e as [| |X []]; cbn in H; try done;
    first [by subst|by destruct H as (m & _ & ->)|by destruct H; subst].
Qed.

(** What an operation does to the clients. *)
Lemma operation_clients op w :
  well_named w ->
  wp oidc_step (run_operation op) (fun w' err =>
    well_named w' /\
    forall o, match op with
              | OpRemove org => GetName org <> o
              | OpDeleteClient org => GetName org <> default_id
              | _ => True
              end -> registered o w -> registered o w') w.
Proof.
  intros Hw. destruct op as [org c|org c|o|org|org|org]; cbn [run_operation].
  - eapply wp_mono; [|apply no_client_kept, connector_calls]. intros w' err Hc.
    unfold well_named, registered. by rewrite Hc.
  - eapply wp_mono; [|by apply reconcileOAuth2Client_spec]. intros w' [e|] [Hw' H]; [by subst|].
    split; [done|]. intros o _ (b & Hb & Hin). destruct H as (b' & secret & -> & _ & Hr).
    unfold registered. cbn. destruct (decide (GetName org = default_id)) as [He|He].
    + exists b'. rewrite <-He, lookup_insert_eq. split; [done|]. rewrite Hr, He, Hb. cbv zeta.
      rewrite bool_decide_eq_true_2 by done. apply appendRedirects_elem. by right.
    + exists b. by rewrite lookup_insert_ne.
  - eapply wp_mono; [|apply (update_default_spec _ _ Hw); apply add_redirect_names].
    intros w' [e|] [Hw' H]; [by subst|]. split; [done|]. intros o' _ (b & Hb & Hin).
    destruct H as (b' & Hb' & ->). assert (b' = b) as -> by congruence.
    eexists. cbn. rewrite lookup_insert_eq. split; [done|]. apply appendRedirects_elem. by left.
  - eapply wp_mono; [|apply (update_default_spec _ _ Hw); apply drop_redirect_names].
    intros w' [e|] [Hw' H]; [by subst|]. split; [done|]. intros o' Ho (b & Hb & Hin).
    destruct H as (b' & Hb' & ->). assert (b' = b) as -> by congruence.
    eexists. cbn. rewrite lookup_insert_eq. split; [done|]. apply delete_func_elem. split; [done|].
    apply bool_decide_eq_false. intros He%getRedirectForOrg_inj. by subst.
  - unfold deleteDexConnector, dex. do 2 wp_step. destruct Hx as (m & _ & ->). by wp_step.
  - unfold deleteOAuth2Client, dex. do 2 wp_step. destruct Hx as (m & Hm & ->). wp_step.
    destruct x as [e|]; cbn in Hm; [destruct Hm as [-> _]; by destruct w|]. subst m. split.
    + intros id b. cbn. intros [_ Hb]%lookup_delete_Some. by apply Hw.
    + intros o Ho (b & Hb & Hin). exists b. cbn. by rewrite lookup_delete_ne.
Qed.
Definition spares (o : string) (op : operation) : Prop :=
  match op with
  | OpRemove org => GetName org <> o
  | OpDeleteClient org => GetName org <> default_id
  | _ => True
  end.
Lemma operations_spare o w w' :
  well_named w -> rtc (op_step (spares o)) w w' -> registered o w -> registered o w'.
Proof.
  intros Hw H. revert Hw. induction H as [w|w w1 w2 (op & err & Ha & He) _ IH]; [done|].
  intros Hw Hr. pose proof (wp_exec _ _ _ _ _ _ (operation_clients op w Hw) He) as [Hw1 H1].
  apply IH; [done|]. apply H1; [|done]. by destruct op.
Qed.

(** The redirects of the default client.  Once an Organization's dashboard is
    registered it stays registered, whatever the controllers of the Organizations do in
    whatever order and with whatever failures, the default one's reconciliation and the
    deletion of others included, until it is itself removed or the default client is
    deleted.  Removing it removes this redirect and keeps every other one. *)
Theorem default_redirects_kept o w w1 w2 org w3 :
  well_named w ->
  exec oidc_step (appendRedirectsToDefaultConnector DNSDomain o) w None w1 ->
  rtc (op_step (spares o)) w1 w2 ->
  registered o w2 /\
  (GetName org = o ->
   exec oidc_step (removeAuthRedirectFromDefaultConnector DNSDomain org) w2 None w3 ->
   ~ registered o w3 /\ forall o', o' <> o -> registered o' w2 -> registered o' w3).
Proof.
  intros Hw Happ Hops.
  pose proof (wp_exec _ _ _ _ _ _ (update_default_spec _ _ Hw (add_redirect_names o)) Happ) as [Hw1 (b & Hb & ->)].
  assert (registered o w2) as Hr2.
  { eapply operations_spare; [exact Hw1|exact Hops|]. eexists. cbn. rewrite lookup_insert_eq. split; [done|].
    apply appendRedirects_elem. right. by left. }
  split; [done|]. intros Ho Hdel. subst o.
  assert (well_named w2) as Hw2.
  { clear -Hw1 Hops. induction Hops as [x|x y z (op & err & _ & He) _ IH]; [done|]. apply IH.
    by destruct (wp_exec _ _ _ _ _ _ (operation_clients op x Hw1) He). }
  pose proof (wp_exec _ _ _ _ _ _ (update_default_spec _ _ Hw2 (drop_redirect_names (GetName org))) Hdel)
    as [_ (c & Hc & ->)].
  split.
  - intros (c' & Hc' & Hin). cbn in Hc'. rewrite lookup_insert_eq in Hc'. injection Hc' as <-.
    apply delete_func_elem in Hin as [_ Hin]. by apply bool_decide_eq_false in Hin.
  - intros o' Hne (c' & Hc' & Hin). assert (c' = c) as -> by congruence.
    eexists. cbn. rewrite lookup_insert_eq. split; [done|]. apply delete_func_elem. split; [done|].
    apply bool_decide_eq_false. by intros ?%getRedirectForOrg_inj.
Qed.
End operations.

(** ** A concrete storage *)
Module DexRun.
#[local] Instance libs : DexLibs := {| json_Marshal c := Ok (cc_ClientID c); cases_Title s := s |}.
Definition dns : string := "example.com".
Definition default_client (redirects : list string) : DexClient :=
  mk_dex_client "greenhouse" "" redirects true "greenhouse".
Definition stored (redirects : list string) : dex_world :=
  mk_dex_world {["greenhouse" := default_client redirects]} ∅.
Definition org (name : string) : Organization := mk_org (named name "") (mk_org_spec "" None "" "" "") [].
Definition u : string := "https://umbrella.dashboard.example.com".
Definition a : string := "https://acme.dashboard.example.com".
Lemma stored_named redirects : well_named (stored redirects).
Proof. intros id c. unfold stored. cbn [clients]. intros [<- <-]%lookup_singleton_Some. done. Qed.
Lemma update_exec f redirects redirects' :
  f (default_client redirects) = default_client redirects' ->
  exec oidc_step (update_default f) (stored redirects) None (stored redirects').
Proof.
  intros Hf. exists (Ok (default_client redirects)), (stored redirects). split; [done|].
  exists None, (stored redirects'). split; [|done]. exists (clients (stored redirects')). split; [|done].
  exists (default_client redirects). split; [done|]. cbn. by rewrite Hf.
Qed.
Lemma default_redirects_kept_witness :
  registered dns "acme" (stored [a]) /\ ~ registered dns "acme" (stored []).
Proof.
  assert (exec oidc_step (removeAuthRedirectFromDefaultConnector dns (org "umbrella")) (stored [u; a]) None (stored [a]))
    as Hother by (by apply update_exec).
  destruct (default_redirects_kept dns Postgres "greenhouse" "acme" (stored [u]) (stored [u; a]) (stored [a])
    (org "acme") (stored [])) as [H1 H2].
  - apply stored_named.
  - by apply update_exec.
  - apply rtc_once. by exists (OpRemove (org "umbrella")), None.
  - split; [exact H1|]. apply H2; [done|]. by apply update_exec.
Defined.
End DexRun.
