(* ===== verification/OrgController.v ===== *)
(** * OrgController: the controller of Organizations
      ([internal/controller/organization/organization_controller.go], [service_proxy.go],
       [util.go])

    Besides the objects of [OrgResources] and the registrations of [OrgDex] the controller
    provides the service proxy: a Secret with random credentials, the OAuth2 client that
    has them, and a Plugin that refers to the Secret.  The Ready condition is computed
    from the availability of the SCIM API.  Events, logs and metrics have no model.

    Parameters: random bytes and the existence of the definition of the proxy are answers
    of calls; [json.Marshal] of a string and the built-in commit are parameters. *)
From S2P Require Import Prelude Effects Conditions Meta CoreTypes ApiTypes Lifecycle ClientUtil PluginTypes PluginDefinitions KubeConfig AccessWebhook Base64 OrgAccess Organization Scim OrgResources OrgDex.
From Stdlib Require Import ZArith.

(** ** Conditions ([api/v1alpha1/organization_types.go]) *)
Definition NamespaceCreated : string := "NamespaceCreated".
Definition OrganizationRBACConfigured : string := "OrganizationRBACConfigured".
Definition OrganizationDefaultTeamRolesConfigured : string := "OrganizationDefaultTeamRolesConfigured".
Definition ServiceProxyProvisioned : string := "ServiceProxyProvisioned".
Definition ServiceProxyNotFound : string := "ServiceProxyNotFound".
Definition ServiceProxyFailed : string := "ServiceProxyFailed".
Definition OrganizationOICDConfigured : string := "OrganizationOICDConfigured".
Definition DexReconcileFailed : string := "DexReconcileFailed".
Definition OAuthOICDFailed : string := "OAuthOICDFailed".
Definition DefaultConnectorRedirectsFailed : string := "DefaultConnectorRedirectsFailed".
Definition OrganizationAdminTeamConfigured : string := "OrganizationAdminTeamConfigured".
Definition org_SCIMAPIUnavailableReason : string := "SCIMAPIUnavailable".
Definition org_exposedConditions : list string :=
  [ReadyCondition; SCIMAPIAvailableCondition; ServiceProxyProvisioned; OrganizationOICDConfigured;
   OrganizationAdminTeamConfigured; ServiceProxyProvisioned; OrganizationDefaultTeamRolesConfigured;
   NamespaceCreated; OrganizationRBACConfigured].

(** ** Calls *)
Inductive orgE : Type -> Type :=
| GResource {X} (e : resourceE X) : orgE X
| GOidc {X} (e : oidcE X) : orgE X
| GScim {X} (e : scimE X) : orgE X
| GUpdateSecret (s : Secret) : orgE (result Secret)
| GGetClusterPluginDefinition (k : objkey) : orgE (option error)
| GRandom (n : nat) : orgE (result string).
Class OrgControllerLibs := {
  (** [json.Marshal] of a string; [fmt] of a quoted one *)
  json_string : string -> string;
  version_GitCommit : string
}.

Section controller.
Context {HOrg : OrgLibs} {HDex : DexLibs} {HScim : ScimLibs} {Libs : OrgControllerLibs}.
Variable now : Z.
Variable maxPages : nat.
Variable DNSDomain DexStorageType ReconcilerNamespace : string.
Variable roles_order : gmap string TeamRoleSpec -> list (string * TeamRoleSpec).
Local Abbreviation P := (prog orgE).
Definition resource {A} (p : prog resourceE A) : P A := translate (@GResource) p.
Definition oidc {A} (p : prog oidcE A) : P A := translate (@GOidc) p.
Definition kube_secret {A} (p : prog (kubeE Secret) A) : P A := resource (translate (@OKube OSecret) p).

(** ** Service proxy *)
Definition serviceProxyName : string := "service-proxy".
Definition cookieSecretKey : string := "oauth2proxy-cookie-secret".
Definition technicalSecretSuffix : string := "-internal".
Definition dexOAuth2ProxyClientPrefix : string := "oauth2-proxy-".
Definition dexOAuth2ProxyClientIDKey : string := "oauth2proxy-clientID".
Definition dexOAuth2ProxyClientSecretKey : string := "oauth2proxy-clientSecret".
Definition getInternalSecretName (orgName : string) : string := orgName +:+ technicalSecretSuffix.
Definition getOauthProxyURL (orgName : string) : string := orgName +:+ "." +:+ DNSDomain.
Definition generateOauth2ProxySecret : P (result string) :=
  r ← trigger (GRandom 32);
  mret (match r with
        | Err e => Err (wrap_error "failed to generate oauth proxy client secret: " e)
        | Ok secret => Ok (EncodeToString false secret)
        end).
Definition generateCookieSecret : P (result string) :=
  r ← trigger (GRandom 16);
  mret (match r with
        | Err e => Err e
        | Ok token => Ok (EncodeToString true (EncodeToString true token))
        end).

Definition internal_secret_key (org : Organization) : objkey :=
  mk_key (GetName org) (GetName org +:+ technicalSecretSuffix).
Definition new_internal_secret (org : Organization) : Secret :=
  mk_secret (named (GetName org +:+ technicalSecretSuffix) (GetName org)) SecretTypeOrganization ∅.
Definition getOrCreateOrgSecret (org : Organization) : P (result Secret) :=
  r ← kube_secret (trigger (KubeGet (internal_secret_key org)));
  match r with
  | Ok secret => mret (Ok secret)
  | Err e =>
      if negb (is_not_found (Some e)) then mret (Err e)
      else
        '(secret, (_, err)) ← kube_secret (CreateOrPatch (org_controlled org) (new_internal_secret org));
        mret (match err with Some e => Err e | None => Ok secret end)
  end.

Definition with_value (key value : string) (secret : Secret) : Secret :=
  mk_secret (secret_meta secret) (secret_Type secret) (<[key := Some value]> (secret_Data secret)).
Definition has_key (key : string) (secret : Secret) : bool :=
  match secret_Data secret !! key with Some _ => true | None => false end.
(** A key of the Secret, generated when it is missing. *)
Definition ensure_key (key : string) (generate : P (result string)) (secret : Secret) : P (result Secret) :=
  if has_key key secret then mret (Ok secret)
  else
    r ← generate;
    mret (match r with Err e => Err e | Ok value => Ok (with_value key value secret) end).
Definition proxy_client_name (org : Organization) : string :=
  dexOAuth2ProxyClientPrefix +:+ "-" +:+ GetName org.
Definition proxy_callback (org : Organization) : string :=
  "https://auth-proxy." +:+ getOauthProxyURL (GetName org) +:+ "/oauth2/callback".
Definition new_proxy_client (org : Organization) (clientSecret : string) : DexClient :=
  mk_dex_client (proxy_client_name org) clientSecret [proxy_callback org] false (GetName org +:+ " Service Proxy").
Definition update_proxy_client (org : Organization) (clientSecret : string) (authClient : DexClient) : DexClient :=
  mk_dex_client (dc_ID authClient) clientSecret [proxy_callback org] false (GetName org +:+ " Service Proxy").
(** Dex first; the Secret is written only when the client was there. *)
Definition publish_proxy_secret (org : Organization) (secret : Secret) : P (option error) :=
  let clientSecret := secret_value secret dexOAuth2ProxyClientSecretKey in
  c ← oidc (dex (DGetClient (proxy_client_name org)));
  match c with
  | Err e =>
      if is_not_found (Some e) then oidc (dex (DCreateClient (new_proxy_client org clientSecret)))
      else mret (Some e)
  | Ok oAuthProxyClient =>
      err ← oidc (dex (DUpdateClient (dc_ID oAuthProxyClient) (update_proxy_client org clientSecret)));
      match err with
      | Some e => mret (Some e)
      | None =>
          r ← trigger (GUpdateSecret secret);
          mret (match r with Err e => Some e | Ok _ => None end)
      end
  end.
Definition reconcileOAuth2ProxySecret (org : Organization) : P (option error) :=
  s ← getOrCreateOrgSecret org;
  match s with
  | Err e => mret (Some e)
  | Ok secret =>
      s ← ensure_key cookieSecretKey generateCookieSecret secret;
      match s with
      | Err e => mret (Some e)
      | Ok secret =>
          s ← ensure_key dexOAuth2ProxyClientSecretKey generateOauth2ProxySecret
                (with_value dexOAuth2ProxyClientIDKey (proxy_client_name org) secret);
          match s with
          | Err e => mret (Some e)
          | Ok secret => publish_proxy_secret org secret
          end
      end
  end.

Definition option_value (name raw : string) : PluginOptionValue := mk_ov name (Some raw) None None.
Definition quoted (s : string) : string := quote +:+ s +:+ quote.
Definition proxy_values (org : Organization) : list PluginOptionValue :=
  let secretName := getInternalSecretName (GetName org) in
  [option_value "domain" (json_string (getOauthProxyURL (GetName org)));
   option_value "image.tag" (json_string version_GitCommit)] ++
  [option_value "oauth2proxy.enabled" (quoted "true");
   option_value "oauth2proxy.issuerURL" (quoted ("https://auth." +:+ DNSDomain));
   option_value "oauth2proxy.clientIDRef.secret" (quoted secretName);
   option_value "oauth2proxy.clientIDRef.key" (quoted dexOAuth2ProxyClientIDKey);
   option_value "oauth2proxy.clientSecretRef.secret" (quoted secretName);
   option_value "oauth2proxy.clientSecretRef.key" (quoted dexOAuth2ProxyClientSecretKey);
   option_value "oauth2proxy.cookieSecretRef.secret" (quoted (GetName org +:+ technicalSecretSuffix));
   option_value "oauth2proxy.cookieSecretRef.key" (quoted cookieSecretKey)].
Definition mutate_proxy (org : Organization) (supportGroupTeamName : string) (plugin : Plugin) :
    Plugin * option error :=
  let s := plugin_Spec plugin in
  let spec := mk_plugin_spec (PluginDefinitionRef s) "Remote service proxy" (proxy_values org)
    (plugin_ClusterName s) (ReleaseNamespace s)
    (if bool_decide (ReleaseName s = "") then serviceProxyName else ReleaseName s)
    (plugin_DeletionPolicy s) (plugin_WaitFor s) (IgnoreDifferences s) in
  org_controlled org (SetLabels {[LabelKeyOwnedBy := supportGroupTeamName]}
    (mk_plugin (plugin_meta plugin) spec (plugin_Status plugin))).
Definition new_proxy (org : Organization) : Plugin :=
  mk_plugin (named serviceProxyName (GetName org))
    (mk_plugin_spec (mk_pdr serviceProxyName ClusterPluginDefinitionKind) "" [] "" "" "" "" [] []) empty_plugin_status.
Definition reconcileServiceProxyPlugin (org : Organization) (supportGroupTeamName : string) : P (option error) :=
  resource (create_or_patch OPlugin (mutate_proxy org supportGroupTeamName) (new_proxy org)).

Definition report (c : Condition) (org : Organization) : Organization := SetCondition now c org.
Definition OIDC_of (org : Organization) : option OIDCConfig :=
  match org_Authentication (org_Spec org) with Some a => auth_OIDCConfig a | None => None end.
Definition reconcileServiceProxy (org : Organization) (supportGroupTeamName : string) :
    P (Organization * option error) :=
  let failed e := FalseCondition now ServiceProxyProvisioned ServiceProxyFailed (err_msg e) in
  err ← trigger (GGetClusterPluginDefinition (mk_key "" serviceProxyName));
  match err with
  | Some e =>
      mret (report (if is_not_found (Some e)
                    then FalseCondition now ServiceProxyProvisioned ServiceProxyNotFound
                           "plugin definition for service-proxy not found"
                    else failed e) org, None)
  | None =>
      match OIDC_of org with
      | None => mret (org, None)
      | Some _ =>
          err ← reconcileOAuth2ProxySecret org;
          match err with
          | Some e => mret (report (failed e) org, Some e)
          | None =>
              err ← reconcileServiceProxyPlugin org supportGroupTeamName;
              match err with
              | Some e => mret (report (failed e) org, Some e)
              | None => mret (report (TrueCondition now ServiceProxyProvisioned "" "") org, None)
              end
          end
      end
  end.

(** ** SCIM and Ready *)
Definition scim_true : Condition := TrueCondition now SCIMAPIAvailableCondition CreatedReason "SCIM API is available".
Definition scim_false (reason message : string) : Condition :=
  FalseCondition now SCIMAPIAvailableCondition reason message.
Definition group_query (org : Organization) : QueryOptions :=
  mk_query (GroupFilterByDisplayName (MappedOrgAdminIDPGroup (org_Spec org))) "" (SetAttributes [AttrMembers]) "".
Definition checkSCIMAPIAvailability (org : Organization) : prog scimE Condition :=
  match GetSCIMConfig (org_Spec org) with
  | None => mret (UnknownCondition now SCIMAPIAvailableCondition SCIMConfigErrorReason "SCIM Config not provided")
  | Some scimConfig =>
      if bool_decide (MappedOrgAdminIDPGroup (org_Spec org) = "") then
        mret (scim_false SCIMRequestFailedReason ".Spec.MappedOrgAdminIDPGroup is not set in Organization")
      else
        config ← GreenhouseSCIMConfigToSCIMConfig scimConfig (GetName org);
        match config with
        | Err e => mret (scim_false SCIMConfigErrorReason (err_msg e))
        | Ok config =>
            match NewSCIMClient config with
            | Err _ => mret (scim_false SCIMRequestFailedReason "Failed to create SCIM client")
            | Ok scimClient =>
                groups ← GetGroups maxPages scimClient (Some (group_query org));
                mret (match groups with
                      | Err _ => scim_false SCIMRequestFailedReason "Failed to request data from SCIM API"
                      | Ok [] => scim_false SCIMRequestFailedReason
                                   (MappedOrgAdminIDPGroup (org_Spec org) +:+ " Group not found in SCIM API")
                      | Ok _ => scim_true
                      end)
            end
        end
  end.
Definition calculateReadyCondition (scimAPIAvailableCondition : Condition) : Condition :=
  if IsFalse scimAPIAvailableCondition
  then FalseCondition now ReadyCondition org_SCIMAPIUnavailableReason ""
  else TrueCondition now ReadyCondition "" "".
Definition org_setStatus (org : Organization) : P Organization :=
  scimAPIAvailableCondition ← translate (@GScim) (checkSCIMAPIAvailability org);
  mret (org_set_conditions
    (SetConditions now (org_conditions org)
       [scimAPIAvailableCondition; calculateReadyCondition scimAPIAvailableCondition]) org).
(** It works on a copy of the status: what it computes is dropped. *)
Definition initOrganizationStatus (org : Organization) : Organization :=
  let orgStatus := init_conditions now org_exposedConditions (org_conditions org) in
  org.

(** ** The callbacks *)

(** [if err := step; err != nil] with the condition for either case *)
Definition step_reported (org : Organization) (step : P (option error)) (ok : option Condition)
    (failed : error -> Condition) (next : Organization -> P (Organization * cb_result)) : P (Organization * cb_result) :=
  err ← step;
  match err with
  | Some e => mret (report (failed e) org, cb_failed e)
  | None => next (match ok with Some c => report c org | None => org end)
  end.
Definition is_true (t : string) : Condition := TrueCondition now t "" "".
Definition is_false (t : string) (e : error) : Condition := FalseCondition now t "" (err_msg e).

Definition reconcile_oidc (org : Organization) (next : Organization -> P (Organization * cb_result)) :
    P (Organization * cb_result) :=
  match OIDC_of org with
  | None => next org
  | Some c =>
      step_reported org (oidc (reconcileDexConnector DexStorageType ReconcilerNamespace org c)) None
        (fun _ => FalseCondition now OrganizationOICDConfigured DexReconcileFailed "") (fun org =>
      step_reported org (oidc (reconcileOAuth2Client DNSDomain org c)) None
        (fun e => FalseCondition now OrganizationOICDConfigured OAuthOICDFailed (err_msg e)) (fun org =>
      step_reported org
        (if bool_decide (GetName org = defaultGreenhouseConnectorID) then mret None
         else oidc (appendRedirectsToDefaultConnector DNSDomain (GetName org)))
        (Some (is_true OrganizationOICDConfigured))
        (fun e => FalseCondition now OrganizationOICDConfigured DefaultConnectorRedirectsFailed (err_msg e)) next))
  end.
(** The end of [EnsureCreated]: the administrators' Team and the service proxy. *)
Definition provide_proxy (org : Organization) : P (Organization * cb_result) :=
  '(org, err) ← reconcileServiceProxy org (GetName org +:+ "-admin");
  match err with
  | Some e => mret (report (is_false ServiceProxyProvisioned e) org, cb_failed e)
  | None => mret (org, cb_ok)
  end.
Definition provide_admins (org : Organization) : P (Organization * cb_result) :=
  step_reported org (resource (reconcileAdminTeam org)) (Some (is_true OrganizationAdminTeamConfigured))
    (is_false OrganizationAdminTeamConfigured) provide_proxy.
Definition org_EnsureCreated (org : Organization) : P (Organization * cb_result) :=
  let org := initOrganizationStatus org in
  step_reported org (resource (reconcileNamespace org)) (Some (is_true NamespaceCreated))
    (is_false NamespaceCreated) (fun org =>
  step_reported org (resource (reconcileRBAC org)) None (is_false OrganizationRBACConfigured) (fun org =>
  step_reported org (resource (reconcileCatalogPermissions org)) (Some (is_true OrganizationRBACConfigured))
    (is_false OrganizationRBACConfigured) (fun org =>
  step_reported org (resource (reconcileDefaultTeamRoles roles_order org))
    (Some (is_true OrganizationDefaultTeamRolesConfigured)) (is_false OrganizationDefaultTeamRolesConfigured) (fun org =>
  reconcile_oidc org provide_admins)))).
Definition org_EnsureDeleted (org : Organization) : P (Organization * cb_result) :=
  match OIDC_of org with
  | None => mret (org, cb_ok)
  | Some _ =>
      err ← oidc (until_error [removeAuthRedirectFromDefaultConnector DNSDomain org;
                               deleteDexConnector org; deleteOAuth2Client org]);
      mret (org, match err with Some e => cb_failed e | None => cb_ok end)
  end.
Definition org_EnsureSuspended (org : Organization) : P (Organization * (ctrl_result * option error)) :=
  mret (org, (ctrl_done, None)).
Definition OrganizationController : Reconciler orgE Organization :=
  mk_reconciler _ _ org_EnsureCreated org_EnsureDeleted org_EnsureSuspended.
Definition org_Reconcile `{FinalizerOps} (k : objkey) :=
  Reconcile now OrganizationController (Some org_setStatus) k.

(** ** Watches *)
Definition listOrganizationsAsReconcileRequests (cached : result (list Organization)) : list objkey :=
  match cached with Err _ => [] | Ok items => key_of <$> items end.
Definition enqueueOrganizationForReferencedSecret (get : objkey -> result Organization) (o : Secret) : list objkey :=
  match get (mk_key "" (GetNamespace o)) with Err _ => [] | Ok org => [key_of org] end.
(** [indexed]: the list selected by the field index [ConfigMapRefField], which nothing in
    the repository registers; without it the cached client answers with an error. *)
Definition enqueueOrganizationsForReferencedConfigMap (indexed : string -> result (list Organization)) (name : string) :
    list objkey :=
  listOrganizationsAsReconcileRequests (indexed name).
Definition enqueueAllOrganizationsForServiceProxyPluginDefinition (cached : result (list Organization)) : list objkey :=
  listOrganizationsAsReconcileRequests cached.
Definition org_secret_predicate : predicate Secret :=
  NewPredicateFuncs (fun o => match o with
    | Some s => bool_decide (secret_Type s = SecretTypeOrganization) | None => false end).
Definition org_configmap_predicate {O} `{Object O} : predicate O :=
  PredicateHasLabelWithValue "greenhouse.sap/orgconfigmap" "true".
End controller.
