(* ===== verification/OrgSafety.v ===== *)
(** * OrgSafety: what the controller of Organizations guarantees

    A world is what the cluster and Dex store.  The theorems say what a pass provides when
    it succeeds - the objects of the cluster, the connector and the clients in Dex, the Plugin
    of the service proxy with its Secret -, what the conditions report when it does not, when an
    Organization can be deleted, and how the credentials of the service proxy reach the two
    places that must agree. *)
From S2P Require Import Prelude Effects Conditions Meta CoreTypes ApiTypes Lifecycle ClientUtil PluginTypes PluginDefinitions KubeConfig AccessWebhook Base64 OrgAccess Organization IdentityProvider Scim OrgResources OrgDex OrgController.
From Stdlib Require Import ZArith.

(** ** Worlds *)
Record tenant_world := mk_tenant_world { tw_cluster : org_world; tw_dex : dex_world }.
Definition put_cluster (c : org_world) (w : tenant_world) : tenant_world := mk_tenant_world c (tw_dex w).
Definition put_dex (d : dex_world) (w : tenant_world) : tenant_world := mk_tenant_world (tw_cluster w) d.
Definition org_step (w : tenant_world) X (e : orgE X) : X -> tenant_world -> Prop :=
  match e in orgE X return X -> tenant_world -> Prop with
  | GResource e => fun x w' => exists c, resource_step (tw_cluster w) _ e x c /\ w' = put_cluster c w
  | GOidc e => fun x w' => exists d, oidc_step (tw_dex w) _ e x d /\ w' = put_dex d w
  | GUpdateSecret s => fun r w' =>
      match r with
      | Err _ => w' = w
      | Ok s' => secret_Data s' = secret_Data s /\ is_Some (get_store OSecret (tw_cluster w) !! key_of s) /\
          w' = put_cluster (put_store OSecret (<[key_of s := s']> (get_store OSecret (tw_cluster w))) (tw_cluster w)) w
      end
  | _ => fun _ w' => w' = w
  end.
Lemma resource_lens {A} (p : prog resourceE A) Q w :
  wp resource_step p (fun c a => Q (put_cluster c w) a) (tw_cluster w) -> wp org_step (resource p) Q w.
Proof.
  intros H. apply wp_translate. eapply (wp_lens _ _ tw_cluster put_cluster); [done|done|by intros []| |exact H].
  intros ? X e x w' Hx. exact Hx.
Qed.
Lemma oidc_lens {A} (p : prog oidcE A) Q w :
  wp oidc_step p (fun d a => Q (put_dex d w) a) (tw_dex w) -> wp org_step (oidc p) Q w.
Proof.
  intros H. apply wp_translate. eapply (wp_lens _ _ tw_dex put_dex); [done|done|by intros []| |exact H].
  intros ? X e x w' Hx. exact Hx.
Qed.
Lemma scim_lens {A} (p : prog scimE A) w : wp org_step (translate (@GScim) p) (fun w' _ => w' = w) w.
Proof.
  apply wp_translate. apply wp_inv; [|done]. intros w1 X e x w2 -> H. exact H.
Qed.

Section safety.
Context {HOrg : OrgLibs} {HDex : DexLibs} {HScim : ScimLibs} {Libs : OrgControllerLibs}.
Variable now : Z.
Variable maxPages : nat.
Variable DNSDomain DexStorageType ReconcilerNamespace : string.
Variable roles_order : gmap string TeamRoleSpec -> list (string * TeamRoleSpec).
Abbreviation EnsureCreated :=
  (org_EnsureCreated now DNSDomain DexStorageType ReconcilerNamespace roles_order).
Abbreviation EnsureDeleted := (org_EnsureDeleted DNSDomain).

(** ** Deletion *)
Abbreviation default_id := defaultGreenhouseConnectorID.
(** The deletion of an Organization.  Without OIDC nothing is done.  With OIDC it
    succeeds only when the default client exists, and then that client has lost the
    redirect of the Organization and no other one, and the connector and the client of
    its name are gone; every other client stays, that of its service proxy among them.
    While the default client is missing no pass succeeds and nothing changes. *)
Theorem org_EnsureDeleted_done org w :
  well_named (tw_dex w) ->
  wp org_step (EnsureDeleted org) (fun w' '(org', (_, outcome, err)) =>
    org' = org /\ tw_cluster w' = tw_cluster w /\
    match OIDC_of org with
    | None => w' = w /\ outcome = Success /\ err = None
    | Some _ =>
        (outcome = Success <-> err = None) /\
        (clients (tw_dex w) !! default_id = None -> w' = w /\ outcome = Failed) /\
        (outcome = Success -> exists c, clients (tw_dex w) !! default_id = Some c /\
           clients (tw_dex w') =
             delete (GetName org) (<[default_id := drop_redirect DNSDomain (GetName org) c]> (clients (tw_dex w))) /\
           connectors (tw_dex w') = delete (GetName org) (connectors (tw_dex w)))
    end) w.
Proof.
  intros Hw. unfold org_EnsureDeleted. destruct (OIDC_of org) as [c|]; [|by wp_step].
  wp_step. apply oidc_lens. cbn [until_error]. wp_step.
  eapply wp_mono; [|apply (update_default_spec _ _ Hw), drop_redirect_names].
  intros d1 [e|] [Hw1 H1].
  { do 2 wp_step. subst d1. destruct w. by split_and!. }
  destruct H1 as (b & Hb & ->). unfold deleteDexConnector, deleteOAuth2Client, dex.
  do 3 wp_step. destruct Hx as (m & Hm & ->). wp_step. destruct (ignore_not_found x) as [e|] eqn:Hi.
  { do 2 wp_step. split_and!; try done. by rewrite Hb. }
  assert (m = delete (GetName org) (connectors (tw_dex w))) as ->.
  { destruct x as [e|]; [|exact Hm]. cbn in Hm. destruct Hm as [-> Hn]. unfold ignore_not_found in Hi.
    destruct (is_not_found (Some e)) eqn:Hnf; [|done]. cbn. rewrite delete_id; [done|]. by apply Hn. }
  do 3 wp_step. destruct Hx as (m' & Hm' & ->). wp_step. destruct (ignore_not_found x0) as [e|] eqn:Hi'.
  { do 2 wp_step. split_and!; try done. by rewrite Hb. }
  do 2 wp_step. split_and!; try done; [by rewrite Hb|]. intros _. exists b. split; [done|]. split; [|done]. cbn.
  destruct x0 as [e|]; [|exact Hm']. cbn in Hm'. destruct Hm' as [-> Hn]. unfold ignore_not_found in Hi'.
  destruct (is_not_found (Some e)) eqn:Hnf; [|done]. cbn. rewrite delete_id; [done|]. by apply Hn.
Qed.

(** ** Credentials of the service proxy *)
Abbreviation secrets w := (w_secrets (tw_cluster w)).
Definition kept_secret : Secret -> Secret -> Prop := kept_fields OSecret.
Lemma org_secret_lens {A} (p : prog (kubeE Secret) A) Q w :
  wp (kube_step (O := Secret) kept_secret) p
    (fun s a => Q (put_cluster (put_store OSecret s (tw_cluster w)) w) a) (secrets w) ->
  wp org_step (kube_secret p) Q w.
Proof. intros H. unfold kube_secret. apply resource_lens. by apply (kind_lens OSecret). Qed.
Definition with_secrets (s : gmap objkey Secret) (w : tenant_world) : tenant_world :=
  put_cluster (put_store OSecret s (tw_cluster w)) w.
Lemma secrets_with s w : secrets (with_secrets s w) = s.
Proof. by destruct w as [[]]. Qed.
Lemma with_secrets_id w : with_secrets (secrets w) w = w.
Proof. by destruct w as [[]]. Qed.

(** The Secret that is there, or a new one without data. *)
Lemma getOrCreateOrgSecret_spec org w :
  wp org_step (getOrCreateOrgSecret org) (fun w' r =>
    match r with
    | Err _ => w' = w
    | Ok s => key_of s = internal_secret_key org /\ secrets w' !! internal_secret_key org = Some s /\
        tw_dex w' = tw_dex w /\
        match secrets w !! internal_secret_key org with
        | Some s0 => s = s0 /\ w' = w
        | None => secret_Data s = ∅
        end
    end) w.
Proof.
  unfold getOrCreateOrgSecret. wp_step. apply org_secret_lens. wp_step. destruct Hx as [-> Hx].
  fold (with_secrets (secrets w) w). rewrite with_secrets_id. destruct x as [s|e].
  { wp_step. destruct Hx as [Hs Hk]. by rewrite Hs. }
  destruct (is_not_found (Some e)) eqn:Hnf; cbn [negb]; [|by wp_step].
  apply bool_decide_eq_true in Hnf. specialize (Hx Hnf).
  wp_step. apply org_secret_lens. eapply wp_mono; [|apply CreateOrPatch_post; intros ?; apply org_controlled_key].
  intros st [s [res [err|]]] Hp; wp_step.
  { cbn in Hp. destruct res; destruct Hp as [-> _]; apply with_secrets_id. }
  assert (key_of (new_internal_secret org) = internal_secret_key org) as Hk by done.
  unfold create_or_patch_post in Hp. rewrite Hk in Hp. destruct res.
  - destruct Hp as (_ & Hs & _). congruence.
  - destruct Hp as (_ & _ & (Hks & Hd & _) & ->). rewrite Hx.
    change (secrets (put_cluster (put_store OSecret ?s ?c) w)) with (secrets (with_secrets s w)).
    rewrite secrets_with, lookup_insert_eq. split_and!; try done.
    + etransitivity; [exact Hks|]. exact (org_controlled_key org (new_internal_secret org)).
    + etransitivity; [exact Hd|]. exact (org_controlled_field secret_Data org (new_internal_secret org) (fun _ _ => eq_refl)).
  - destruct Hp as (b & Hb & _). congruence.
Qed.
Lemma ensure_key_spec key gen secret w :
  (forall Q, (forall r, Q w r) -> wp org_step gen Q w) ->
  wp org_step (ensure_key key gen secret) (fun w' r =>
    w' = w /\ match r with
      | Err _ => True
      | Ok s => key_of s = key_of secret /\ has_key key s = true /\ (has_key key secret = true -> s = secret) /\
          forall k, k <> key -> secret_Data s !! k = secret_Data secret !! k
      end) w.
Proof.
  intros Hgen. unfold ensure_key. destruct (has_key key secret) eqn:Hh; [by wp_step|].
  wp_step. apply Hgen. intros [value|e]; wp_step; [|done]. split; [done|]. split; [done|].
  unfold has_key, with_value. cbn. rewrite lookup_insert_eq. split_and!; [done|done|].
  intros k Hk. by rewrite lookup_insert_ne.
Qed.
Lemma random_any {A} n (f : result string -> result A) (Q : tenant_world -> result A -> Prop) w :
  (forall r, Q w r) -> wp org_step (r ← trigger (GRandom n); mret (f r)) Q w.
Proof. intros H. do 2 wp_step. cbn in Hx. subst. by wp_step. Qed.

Lemma put_dex_same w : put_dex (tw_dex w) w = w.
Proof. by destruct w. Qed.
Lemma publish_proxy_secret_spec org secret w :
  well_named (tw_dex w) -> key_of secret = internal_secret_key org ->
  let id := proxy_client_name org in
  let value := secret_value secret dexOAuth2ProxyClientSecretKey in
  wp org_step (publish_proxy_secret DNSDomain org secret) (fun w' err =>
    err = None ->
    tw_dex w' = set_clients (<[id := mk_dex_client id value [proxy_callback DNSDomain org] false
      (GetName org +:+ " Service Proxy")]> (clients (tw_dex w))) (tw_dex w) /\
    match clients (tw_dex w) !! id with
    | Some _ => exists s, secrets w' !! internal_secret_key org = Some s /\ secret_Data s = secret_Data secret
    | None => secrets w' = secrets w
    end) w.
Proof.
  intros Hw Hk id value. unfold publish_proxy_secret, dex. wp_step. apply oidc_lens. wp_step. destruct Hx as [-> Hr].
  rewrite put_dex_same. destruct x as [c|e].
  - wp_step. apply oidc_lens. wp_step. destruct Hx as (m & Hm & ->). destruct (Hw _ _ Hr) as [Hid _]. rewrite Hid in Hm.
    destruct x as [e|]; [by wp_step|]. destruct Hm as (c' & Hc & ->).
    do 2 wp_step. destruct x as [s|e]; wp_step; [|done]. intros _. destruct Hx as (Hd & _ & ->).
    unfold read_of in Hr. fold id in Hr |- *. rewrite Hr. cbn [tw_dex put_cluster put_dex].
    assert (c' = c) as -> by (fold id in Hc; congruence). unfold update_proxy_client. rewrite Hid.
    split; [done|]. exists s. split; [|done]. destruct w as [[] ?]. cbn. rewrite Hk. by rewrite lookup_insert_eq.
  - unfold read_of in Hr. destruct (is_not_found (Some e)); [|by wp_step]. specialize (Hr eq_refl).
    apply oidc_lens. wp_step. destruct Hx as (m & Hm & ->). intros ->. destruct Hm as [_ ->].
    fold id in Hr |- *. by rewrite Hr.
Qed.

(** The credentials of the service proxy.  When [reconcileOAuth2ProxySecret] succeeds
    and Dex already had the client, the Secret of the Organization holds the client's ID,
    a cookie secret and the very client secret Dex has, values that were stored before
    are the same, and nothing else of it changed.  When it creates the client, the
    Secret is left as it was, empty if it is new: the generated values are in Dex only
    and a later pass replaces them. *)
Theorem reconcileOAuth2ProxySecret_credentials org w :
  well_named (tw_dex w) ->
  wp org_step (reconcileOAuth2ProxySecret DNSDomain org) (fun w' err =>
    err = None ->
    exists client s,
      tw_dex w' = set_clients (<[proxy_client_name org := client]> (clients (tw_dex w))) (tw_dex w) /\
      secrets w' !! internal_secret_key org = Some s /\
      match clients (tw_dex w) !! proxy_client_name org with
      | Some _ =>
          secret_Data s !! dexOAuth2ProxyClientIDKey = Some (Some (dc_ID client)) /\
          secret_value s dexOAuth2ProxyClientSecretKey = dc_Secret client /\ has_key cookieSecretKey s = true /\
          forall s0 key value, secrets w !! internal_secret_key org = Some s0 -> secret_Data s0 !! key = Some value ->
            key <> dexOAuth2ProxyClientIDKey -> secret_Data s !! key = Some value
      | None =>
          match secrets w !! internal_secret_key org with
          | Some s0 => s = s0
          | None => secret_Data s = ∅
          end
      end) w.
Proof.
  intros Hw. unfold reconcileOAuth2ProxySecret. wp_step. eapply wp_mono; [|apply getOrCreateOrgSecret_spec].
  intros w1 [s0|e] Hs0; [|by wp_step]. destruct Hs0 as (Hk0 & Hst & Hdex & Hbefore).
  wp_step. eapply wp_mono; [|apply ensure_key_spec; intros; by apply random_any].
  intros w2 [s1|e] [-> H1]; [|by wp_step]. destruct H1 as (Hk1 & Hc1 & Hsame1 & Hoth1).
  wp_step. eapply wp_mono; [|apply ensure_key_spec; intros; by apply random_any].
  intros w3 [s2|e] [-> H2]; [|by wp_step]. destruct H2 as (Hk2 & Hc2 & Hsame2 & Hoth2).
  rewrite <-Hdex in Hw. eapply wp_mono; [|apply publish_proxy_secret_spec; [done|]].
  2: { rewrite Hk2. by etransitivity; [exact Hk1|]. }
  intros w4 err H ->. specialize (H eq_refl) as [Hcl Hsec]. rewrite Hdex in Hcl, Hsec. eexists.
  destruct (clients (tw_dex w) !! proxy_client_name org) as [c|].
  - destruct Hsec as (s & Hs & Hd). exists s. split; [exact Hcl|]. split; [done|]. cbn [dc_ID dc_Secret].
    unfold secret_value, has_key. rewrite Hd. split_and!.
    + rewrite Hoth2 by done. cbn. by rewrite lookup_insert_eq.
    + done.
    + rewrite Hoth2 by done. cbn. rewrite lookup_insert_ne by done. exact Hc1.
    + intros b key value Hb Hv Hne. rewrite Hb in Hbefore. destruct Hbefore as [-> ->].
      assert (secret_Data s1 !! key = Some value) as Hv1.
      { destruct (decide (key = cookieSecretKey)) as [->|Hck]; [|by rewrite Hoth1].
        rewrite Hsame1; [done|]. unfold has_key. by rewrite Hv. }
      destruct (decide (key = dexOAuth2ProxyClientSecretKey)) as [->|Hcs].
      * rewrite Hsame2; cbn; [by rewrite lookup_insert_ne|]. unfold has_key. cbn.
        rewrite lookup_insert_ne by done. by rewrite Hv1.
      * rewrite Hoth2 by done. cbn. by rewrite lookup_insert_ne.
  - exists s0. split; [exact Hcl|]. split; [by rewrite Hsec|].
    destruct (secrets w !! internal_secret_key org); [by destruct Hbefore|done].
Qed.

(** ** Conditions *)
Definition status_of (org : Organization) (t : string) : option string :=
  CondStatus <$> GetConditionByType (org_conditions org) t.
Lemma status_SetConditions sc c t :
  CondStatus <$> GetConditionByType (SetConditions now sc [c]) t =
  if bool_decide (t = CondType c) then Some (CondStatus c) else CondStatus <$> GetConditionByType sc t.
Proof. rewrite get_SetConditions. by case_bool_decide. Qed.
Lemma status_report c org t :
  status_of (report now c org) t = if bool_decide (t = CondType c) then Some (CondStatus c) else status_of org t.
Proof. apply status_SetConditions. Qed.
Definition creation_conditions : list string :=
  [NamespaceCreated; OrganizationRBACConfigured; OrganizationDefaultTeamRolesConfigured;
   OrganizationOICDConfigured; OrganizationAdminTeamConfigured; ServiceProxyProvisioned].
(** The conditions of the steps that were taken. *)
Definition taken (org : Organization) : list string :=
  [NamespaceCreated; OrganizationRBACConfigured; OrganizationDefaultTeamRolesConfigured;
   OrganizationAdminTeamConfigured] ++
  match OIDC_of org with Some _ => [OrganizationOICDConfigured] | None => [] end.
Definition same_object (org org' : Organization) : Prop := org_meta org' = org_meta org /\ org_Spec org' = org_Spec org.
Definition outcome_reported (org : Organization) (r : Organization * cb_result) : Prop :=
  let '(org', (_, outcome, err)) := r in
  same_object org org' /\
  match err with
  | None => outcome = Success /\ Forall (fun t => status_of org' t = Some ConditionTrue) (taken org)
  | Some _ => outcome = Failed /\ exists t, t ∈ creation_conditions /\ status_of org' t = Some ConditionFalse
  end.
Abbreviation any_step := (fun (_ : unit) X (_ : orgE X) (_ : X) (_ : unit) => True).
Lemma failed_reported org org' c e :
  same_object org org' -> CondType c ∈ creation_conditions -> CondStatus c = ConditionFalse ->
  outcome_reported org (report now c org', cb_failed e).
Proof.
  intros Hs Ht Hf. split; [exact Hs|]. split; [done|]. exists (CondType c). split; [done|].
  by rewrite status_report, bool_decide_eq_true_2, Hf.
Qed.
(** One step, with what was reported so far. *)
Definition reported_true (org' : Organization) (l : list string) : Prop :=
  Forall (fun t => status_of org' t = Some ConditionTrue) l.
Lemma reported_more org' t l :
  reported_true org' l -> reported_true (report now (is_true now t) org') (t :: l).
Proof.
  intros H. constructor; [by rewrite status_report, bool_decide_eq_true_2|].
  eapply Forall_impl; [exact H|]. intros t' Ht'. cbn beta. rewrite status_report. by case_bool_decide.
Qed.
Lemma step_reported_any org org' p ok failed next w :
  same_object org org' -> (forall e, CondType (failed e) ∈ creation_conditions /\ CondStatus (failed e) = ConditionFalse) ->
  wp any_step (next (match ok with Some c => report now c org' | None => org' end)) (fun _ => outcome_reported org) w ->
  wp any_step (step_reported now org' p ok failed next) (fun _ => outcome_reported org) w.
Proof.
  intros Hs Hf Hn. unfold step_reported. wp_step. wp_skip. destruct a as [e|]; [|by destruct w, w'].
  wp_step. by apply failed_reported; [done|apply Hf..].
Qed.
Ltac one_step := apply step_reported_any; [done|intros e; split; [unfold creation_conditions; set_solver|done]|].
Lemma reconcileServiceProxy_conditions org name w :
  wp any_step (reconcileServiceProxy now DNSDomain org name) (fun _ '(org', _) =>
    same_object org org' /\ forall t, t <> ServiceProxyProvisioned -> status_of org' t = status_of org t) w.
Proof.
  assert (forall c, CondType c = ServiceProxyProvisioned -> same_object org (report now c org) /\
    forall t, t <> ServiceProxyProvisioned -> status_of (report now c org) t = status_of org t) as Hr.
  { intros c Hc. split; [done|]. intros t Ht. rewrite status_report. by rewrite bool_decide_eq_false_2 by congruence. }
  unfold reconcileServiceProxy. do 2 wp_step. destruct x as [e|].
  { wp_step. apply Hr. by case_match. }
  destruct (OIDC_of org); [|by wp_step]. wp_step. wp_skip. destruct a as [e|]; [wp_step; by apply Hr|].
  wp_step. wp_skip. destruct a as [e|]; wp_step; by apply Hr.
Qed.
Lemma provide_admins_reported org org' l w :
  same_object org org' -> reported_true org' l -> ServiceProxyProvisioned ∉ l ->
  taken org ⊆ OrganizationAdminTeamConfigured :: l ->
  wp any_step (provide_admins now DNSDomain org') (fun _ => outcome_reported org) w.
Proof.
  intros Hs Hl Hn Ht. unfold provide_admins. one_step. unfold provide_proxy. wp_step.
  eapply wp_mono; [|apply reconcileServiceProxy_conditions]. intros w' [org2 [e|]] [H2 Hst].
  { wp_step. apply failed_reported; [|unfold creation_conditions; set_solver|done].
    destruct Hs, H2. split; etransitivity; done. }
  wp_step. split; [destruct Hs, H2; split; etransitivity; done|]. split; [done|].
  apply (reported_more _ OrganizationAdminTeamConfigured) in Hl. unfold reported_true in Hl.
  rewrite Forall_forall in Hl |- *. intros t Hin%Ht. rewrite Hst; [by apply Hl|].
  intros ->. apply elem_of_cons in Hin as [?|?]; [done|by apply Hn].
Qed.
Lemma EnsureCreated_outcome org w :
  wp any_step (EnsureCreated org) (fun _ => outcome_reported org) w.
Proof.
  unfold org_EnsureCreated, initOrganizationStatus. cbv zeta.
  pose proof (reported_more org NamespaceCreated [] ltac:(constructor)) as H1. one_step. one_step.
  pose proof (reported_more _ OrganizationRBACConfigured _ H1) as H2. one_step.
  pose proof (reported_more _ OrganizationDefaultTeamRolesConfigured _ H2) as H3. one_step.
  unfold reconcile_oidc.
  assert (forall c1 c2 c3, OIDC_of (report now c1 (report now c2 (report now c3 org))) = OIDC_of org) as -> by done.
  destruct (OIDC_of org) as [c|] eqn:Ho.
  - one_step. one_step. pose proof (reported_more _ OrganizationOICDConfigured _ H3) as H4. one_step.
    eapply provide_admins_reported; [done|exact H4|set_solver|]. unfold taken. rewrite Ho. set_solver.
  - eapply provide_admins_reported; [done|exact H3|set_solver|]. unfold taken. rewrite Ho. set_solver.
Qed.
(** What [EnsureCreated] reports.  It never touches the metadata or the spec.  When
    it fails, the condition of a step of the creation is False; when it succeeds the
    conditions of all steps taken are True: namespace, access, default TeamRoles,
    administrators' Team and, with OIDC, the registrations. *)
Theorem org_EnsureCreated_reported org w :
  wp any_step (EnsureCreated org) (fun _ => outcome_reported org) w.
Proof. apply EnsureCreated_outcome. Qed.

Lemma same_object_reported org r : outcome_reported org r -> same_object org r.1.
Proof. destruct r as [org' [[res o] e]]. by intros [H _]. Qed.
Lemma checkSCIM_type org (w : unit) :
  wp (fun (_ : unit) X (_ : scimE X) (_ : X) (_ : unit) => True) (checkSCIMAPIAvailability now maxPages org)
    (fun _ c => CondType c = SCIMAPIAvailableCondition /\
      (GetSCIMConfig (org_Spec org) = None -> CondStatus c = ConditionUnknown) /\
      (GetSCIMConfig (org_Spec org) <> None -> CondStatus c <> ConditionUnknown)) w.
Proof.
  unfold checkSCIMAPIAvailability. destruct (GetSCIMConfig _) as [config|]; [|by wp_step].
  case_bool_decide; [by wp_step|]. wp_step. wp_skip. destruct a as [cfg|e]; [|by wp_step].
  destruct (NewSCIMClient cfg) as [cl|]; [|by wp_step]. wp_step. wp_skip. wp_step. by destruct a as [[|]|].
Qed.
(** The Ready condition of a pass: the creation and then the status. *)
Definition created_pass (org : Organization) : prog orgE (Organization * cb_result) :=
  '(org, r) ← EnsureCreated org;
  org ← org_setStatus now maxPages org;
  mret (org, r).
(** When an Organization is Ready.  Ready is decided by the SCIM API alone: it is
    False when that is reported unavailable and True in every other case.  An
    Organization without a SCIM configuration is Ready after every pass, also one whose
    creation failed at any step; the failure shows in the condition of the step. *)
Theorem organization_ready org w :
  wp any_step (created_pass org) (fun _ '(org', (_, _, err)) =>
    exists scim, status_of org' SCIMAPIAvailableCondition = Some scim /\
      status_of org' ReadyCondition =
        Some (if bool_decide (scim = ConditionFalse) then ConditionFalse else ConditionTrue) /\
      (GetSCIMConfig (org_Spec org) = None -> status_of org' ReadyCondition = Some ConditionTrue) /\
      (err <> None -> exists t, t ∈ creation_conditions /\ status_of org' t = Some ConditionFalse)) w.
Proof.
  unfold created_pass. wp_step. eapply wp_mono; [|apply EnsureCreated_outcome]. intros w1 [org1 [[res o] err]] Hrep.
  pose proof (same_object_reported _ _ Hrep) as [_ Hspec]. cbn [fst] in Hspec.
  wp_step. unfold org_setStatus. do 2 wp_step. eapply wp_mono; [|apply checkSCIM_type]. intros w2 c (Ht & Hn & _).
  rewrite Hspec in Hn. do 2 wp_step. cbn [org_conditions org_set_conditions].
  assert (forall t, status_of (org_set_conditions (SetConditions now (org_conditions org1)
      [c; calculateReadyCondition now c]) org1) t =
    if bool_decide (t = ReadyCondition) then Some (if IsFalse c then ConditionFalse else ConditionTrue)
    else if bool_decide (t = SCIMAPIAvailableCondition) then Some (CondStatus c) else status_of org1 t) as Hst.
  { intros t. unfold status_of. cbn [org_conditions org_set_conditions].
    change (SetConditions now (org_conditions org1) [c; calculateReadyCondition now c]) with
      (SetConditions now (SetConditions now (org_conditions org1) [c]) [calculateReadyCondition now c]).
    rewrite !status_SetConditions, Ht. unfold calculateReadyCondition. by destruct (IsFalse c). }
  exists (CondStatus c). rewrite !Hst. cbn [CondType]. split; [done|]. split; [done|]. split.
  - intros H. unfold IsFalse. by rewrite (Hn H).
  - intros He. destruct err as [e|]; [|done]. destruct Hrep as [_ (_ & t & Hin & Hf)]. exists t. split; [done|].
    rewrite Hst. clear -Hin Hf. unfold creation_conditions in Hin. rewrite !elem_of_cons, elem_of_nil in Hin.
    destruct_or!; subst; exact Hf.
Qed.

(** ** What a creation provides *)
Hypothesis roles_order_perm : forall m, roles_order m ≡ₚ map_to_list m.
Definition namespace_req (org : Organization) : requirement :=
  mk_requirement ONamespace (mk_key "" (GetName org)) (fun _ => True).
Definition admin_team_req (org : Organization) : requirement :=
  mk_requirement OTeam (mk_key (GetName org) (admin_team_name org))
    (fun o => MappedIDPGroup (team_Spec o) = MappedOrgAdminIDPGroup (org_Spec org) /\
              GetLabels o = {[LabelKeySupportGroup := "true"]}).
Definition organization_requirements (org : Organization) : list requirement :=
  [namespace_req org] ++ access_requirements org ++ catalog_requirements org ++
  team_role_requirements org roles_order ++ [admin_team_req org].

Lemma namespace_provides org : provides (reconcileNamespace org) [namespace_req org].
Proof.
  apply (create_or_patch_provides ONamespace); [intros o; apply (org_controlled_key org (o : Namespace))|done|done].
Qed.
Lemma admin_team_provides org : provides (reconcileAdminTeam org) [admin_team_req org].
Proof.
  apply (create_or_patch_provides OTeam).
  - intros o. unfold mutate_admin_team. etransitivity; [apply org_controlled_key|]. done.
  - intros o _. unfold mutate_admin_team.
    rewrite (org_controlled_field team_Spec) by done. split; [done|].
    unfold org_controlled. destruct (org_SetControllerReference _ _); done.
  - cbn. intros o o' [Hs Hl] [H1 H2]. by rewrite Hs, Hl.
Qed.

(** Cells of different kinds, or with and without a colon in the name, are different. *)
Definition class (r : requirement) : orgKind * bool := (req_kind r, char_in colon (key_name (req_key r))).
Lemma classes_disjoint rs rs' (l l' : list (orgKind * bool)) :
  Forall (fun r => class r ∈ l) rs -> Forall (fun r => class r ∈ l') rs' -> l ## l' ->
  forall r, r ∈ rs -> cell r ∉ cell <$> rs'.
Proof.
  intros H H' Hd r Hr Hin. apply list_elem_of_fmap in Hin as (r' & Hc & Hr').
  rewrite Forall_forall in H, H'. specialize (H r Hr). specialize (H' r' Hr').
  apply (Hd (class r)); [done|]. unfold class, cell in *. injection Hc as Hk Hkey. by rewrite Hk, Hkey.
Qed.
Lemma class_app rs rs' (l l' : list (orgKind * bool)) :
  Forall (fun r => class r ∈ l) rs -> Forall (fun r => class r ∈ l') rs' ->
  Forall (fun r => class r ∈ l ++ l') (rs ++ rs').
Proof.
  intros H H'. apply Forall_app. split; (eapply Forall_impl; [eassumption|]); intros r Hr; cbn beta; set_solver.
Qed.
Definition access_classes : list (orgKind * bool) :=
  [(OClusterRole, true); (OClusterRoleBinding, true); (ORole, true); (ORoleBinding, true)].
Definition catalog_classes : list (orgKind * bool) :=
  [(OServiceAccount, false); (OClusterRole, false); (OClusterRoleBinding, false); (ORole, false); (ORoleBinding, false)].
Lemma role_names_colon n : Forall (fun name => char_in colon name = true)
  [OrganizationAdminRoleName n; OrganizationRoleName n; OrganizationClusterAdminRoleName n; OrganizationPluginAdminRoleName n].
Proof. by repeat constructor. Qed.
Lemma access_class org : Forall (fun r => class r ∈ access_classes) (access_requirements org).
Proof. unfold access_requirements, class. repeat constructor. Qed.
Lemma catalog_class org : char_in colon (GetName org) = false ->
  Forall (fun r => class r ∈ catalog_classes) (catalog_requirements org).
Proof.
  intros Hc. assert (char_in colon (OrgCatalogRoleName (GetName org)) = false) as H1 by (unfold OrgCatalogRoleName; by rewrite char_in_app, Hc).
  assert (char_in colon (OrgCatalogServiceAccountName (GetName org)) = false) as H2
    by (unfold OrgCatalogServiceAccountName; by rewrite char_in_app, Hc).
  unfold catalog_requirements, catalog_classes. constructor; [|case_bool_decide; constructor; [|constructor; [|constructor]| |constructor; [|constructor]]];
    unfold class; cbn [req_kind req_key key_name account_req catalog_cluster_role_req cluster_binding_req role_req binding_req];
    rewrite ?H1, ?H2; set_solver.
Qed.
Lemma team_role_class org :
  Forall (fun r => class r ∈ [(OTeamRole, true); (OTeamRole, false)]) (team_role_requirements org roles_order).
Proof.
  unfold team_role_requirements. rewrite Forall_fmap. apply Forall_forall. intros [name spec] _. cbn.
  unfold class. cbn. destruct (char_in _ _); set_solver.
Qed.

Abbreviation have rs w := (Forall (provided (tw_cluster w)) rs).
Abbreviation on_success Q := (fun (w' : tenant_world) (r : Organization * cb_result) => r.2.2 = None -> Q w').
Lemma step_provided rs rs' org p ok failed next (Q : tenant_world -> Prop) w :
  provides p rs' -> have rs w -> (forall r, r ∈ rs -> cell r ∉ cell <$> rs') ->
  (forall w1, have (rs ++ rs') w1 ->
     wp org_step (next (match ok with Some c => report now c org | None => org end)) (on_success Q) w1) ->
  wp org_step (step_reported now org (resource p) ok failed next) (on_success Q) w.
Proof.
  intros Hp Hrs Hd Hn. unfold step_reported. wp_step. apply resource_lens. eapply wp_mono; [|apply Hp].
  intros c err [Hc Hprov]. destruct err as [e|]; [by wp_step|]. apply Hn. apply Forall_app. split; [|by apply Hprov].
  rewrite Forall_forall in Hrs |- *. intros r Hr. eapply provided_frame; [exact Hc|by apply Hd|by apply Hrs].
Qed.
Lemma step_kept rs org (p : prog oidcE (option error)) ok failed next (Q : tenant_world -> Prop) w :
  have rs w ->
  (forall w1, have rs w1 -> wp org_step (next (match ok with Some c => report now c org | None => org end)) (on_success Q) w1) ->
  wp org_step (step_reported now org (oidc p) ok failed next) (on_success Q) w.
Proof.
  intros Hrs Hn. unfold step_reported. wp_step. apply oidc_lens. wp_skip.
  destruct a as [e|]; [by wp_step|]. by apply Hn.
Qed.

(** The service proxy writes Secrets and Plugins only. *)
Definition proxy_kind (k : orgKind) : bool := match k with OSecret | OPlugin => true | _ => false end.
Definition proxy_call X (e : orgE X) : Prop :=
  match e with GResource (OKube k _) => proxy_kind k = true | _ => True end.
Lemma proxy_calls org name : all_calls proxy_call (reconcileServiceProxy now DNSDomain org name).
Proof.
  assert (forall k {A} (p : prog (kubeE (org_object k)) A), proxy_kind k = true ->
            all_calls proxy_call (resource (translate (@OKube k) p))) as Hk.
  { intros k A p H. unfold resource. do 2 apply all_calls_translate. by apply all_calls_any. }
  assert (forall A (p : prog oidcE A), all_calls proxy_call (oidc p)) as Ho.
  { intros A p. unfold oidc. apply all_calls_translate. by apply all_calls_any. }
  assert (forall mutate o, all_calls proxy_call (resource (create_or_patch OPlugin mutate o))) as Hc.
  { intros mutate o. unfold resource, create_or_patch. apply all_calls_translate, all_calls_bind.
    - apply all_calls_translate. by apply all_calls_any.
    - by intros [? [? ?]]. }
  unfold reconcileServiceProxy, reconcileOAuth2ProxySecret, getOrCreateOrgSecret, kube_secret, ensure_key,
    generateCookieSecret, generateOauth2ProxySecret, publish_proxy_secret, reconcileServiceProxyPlugin.
  repeat first [by apply Ho|by apply Hk|by apply Hc|calls_step|done].
Qed.
Lemma proxy_keeps rs org name w :
  Forall (fun r => proxy_kind (req_kind r) = false) rs -> have rs w ->
  wp org_step (reconcileServiceProxy now DNSDomain org name) (fun w' _ => have rs w') w.
Proof.
  intros Hk Hrs.
  apply (all_calls_wp proxy_call org_step (fun w' => have rs w')); [apply proxy_calls| |done].
  intros w1 X e x w2 H Hp Hx. rewrite !Forall_forall in *. intros r Hr. specialize (Hk r Hr). specialize (H r Hr).
  destruct e as [X e|X e|X e|s|k|n]; cbn [org_step] in Hx; try (by subst).
  - destruct Hx as (c & Hx & ->). destruct e as [k X e]. destruct Hx as (st & _ & ->). cbn in Hp.
    destruct H as (o & Ho & Hh). exists o. split; [|done]. cbn. rewrite get_put_store_ne; [done|]. intros Heq. rewrite Heq, Hp in Hk. done.
  - by destruct Hx as (d & _ & ->).
  - destruct x as [s'|]; [|by subst]. destruct Hx as (_ & _ & ->). destruct H as (o & Ho & Hh). exists o. split; [|done].
    cbn [tw_cluster put_cluster]. rewrite (get_put_store_ne OSecret); [done|]. intros Heq. by rewrite Heq in Hk.
Qed.

Lemma rest_provided rs org (Q : tenant_world -> Prop) w :
  have rs w -> (forall r, r ∈ rs -> cell r ∉ cell <$> [admin_team_req org]) ->
  Forall (fun r => proxy_kind (req_kind r) = false) (rs ++ [admin_team_req org]) ->
  (forall w1, have (rs ++ [admin_team_req org]) w1 -> Q w1) ->
  wp org_step (provide_admins now DNSDomain org) (on_success Q) w.
Proof.
  intros Hrs Hd Hk HQ. unfold provide_admins.
  apply (step_provided rs [admin_team_req org]); [apply admin_team_provides|done|done|].
  intros w1 H1. unfold provide_proxy. wp_step.
  eapply wp_mono; [|by apply (proxy_keeps _ (report now (is_true now OrganizationAdminTeamConfigured) org) _ w1 Hk)].
  intros w2 [org2 [e|]] H2; wp_step; [done|]. intros _. by apply HQ.
Qed.
Lemma requirement_kinds org :
  Forall (fun r => proxy_kind (req_kind r) = false) (organization_requirements org).
Proof.
  unfold organization_requirements. rewrite !Forall_app. split_and!.
  - by repeat constructor.
  - unfold access_requirements. by repeat constructor.
  - unfold catalog_requirements. case_bool_decide; by repeat constructor.
  - unfold team_role_requirements. rewrite Forall_fmap. apply Forall_forall. by intros [name spec] _.
  - by repeat constructor.
Qed.
(** ** What Dex and the service proxy get *)
Definition connectors_named (d : dex_world) : Prop :=
  forall id conn, connectors d !! id = Some conn -> dx_ID conn = id.
(** The connector with its configuration, the public client with its redirects, and the
    redirect at the default client. *)
Definition connector_provided (org : Organization) (c : OIDCConfig) (d : dex_world) : Prop :=
  exists clientID clientSecret redirectURL conn, connectors d !! GetName org = Some conn /\
    json_Marshal (connector_config c clientID clientSecret redirectURL) = Ok (dx_Config conn).
Definition client_provided (org : Organization) (c : OIDCConfig) (d : dex_world) : Prop :=
  exists client, clients d !! GetName org = Some client /\ dc_Public client = true /\
    dc_Name client = GetName org /\
    getRedirects DNSDomain (GetName org) (OAuth2ClientRedirectURIs c) ⊆ dc_RedirectURIs client.
Definition oidc_provided (org : Organization) (c : OIDCConfig) (d : dex_world) : Prop :=
  connector_provided org c d /\ client_provided org c d /\
  (GetName org <> defaultGreenhouseConnectorID -> registered DNSDomain (GetName org) d).
Definition proxy_plugin_req (org : Organization) : requirement :=
  mk_requirement OPlugin (mk_key (GetName org) "service-proxy")
    (fun p => OptionValues (plugin_Spec p) = proxy_values DNSDomain org /\ ReleaseName (plugin_Spec p) <> "" /\
              GetLabels p = {[LabelKeyOwnedBy := admin_team_name org]}).
(** The Plugin, the Secret it refers to and the client whose credentials are in it. *)
Definition proxy_provided (org : Organization) (w : tenant_world) : Prop :=
  provided (tw_cluster w) (proxy_plugin_req org) /\
  is_Some (secrets w !! internal_secret_key org) /\
  is_Some (clients (tw_dex w) !! proxy_client_name org).

Lemma proxy_client_other org : proxy_client_name org <> GetName org /\ proxy_client_name org <> defaultGreenhouseConnectorID.
Proof.
  split; [|done]. intros H%(f_equal String.length). unfold proxy_client_name in H.
  rewrite !length_append in H. cbn in H. lia.
Qed.
Lemma oidc_provided_proxy org c client d :
  oidc_provided org c d -> oidc_provided org c (set_clients (<[proxy_client_name org := client]> (clients d)) d).
Proof.
  destruct (proxy_client_other org) as [H1 H2]. intros (Hx & (cl & Hc & Hr) & Hd). split; [done|]. split.
  - exists cl. split; [|done]. cbn. by rewrite lookup_insert_ne.
  - intros Hne. destruct (Hd Hne) as (dc & Hdc & Hin). exists dc. split; [|done]. cbn. by rewrite lookup_insert_ne.
Qed.
Lemma proxy_plugin_provides org :
  provides (create_or_patch OPlugin (mutate_proxy DNSDomain org (admin_team_name org)) (new_proxy org)) [proxy_plugin_req org].
Proof.
  apply (create_or_patch_provides OPlugin).
  - intros o. unfold mutate_proxy. etransitivity; [apply org_controlled_key|]. done.
  - intros o _. unfold mutate_proxy. rewrite (org_controlled_field plugin_Spec) by done. split; [done|]. split.
    + cbn. by case_bool_decide.
    + unfold org_controlled. by destruct (org_SetControllerReference _ _).
  - cbn. intros o o' [Hs Hl] (H1 & H2 & H3). by rewrite Hs, Hl.
Qed.

(** A step on the cluster leaves Dex alone, a step on Dex the cluster. *)
Abbreviation on_ok Q := (fun (w' : tenant_world) (r : Organization * cb_result) => r.2.2 = None -> Q w' r.1).
Lemma step_dex org p ok failed next (Q : tenant_world -> Organization -> Prop) w :
  (forall w1, tw_dex w1 = tw_dex w ->
     wp org_step (next (match ok with Some c => report now c org | None => org end)) (on_ok Q) w1) ->
  wp org_step (step_reported now org (resource p) ok failed next) (on_ok Q) w.
Proof.
  intros Hn. unfold step_reported. wp_step. apply resource_lens. wp_skip.
  destruct a as [e|]; [by wp_step|]. by apply Hn.
Qed.
Lemma step_oidc org p ok failed next (Q : tenant_world -> Organization -> Prop) (Pd : dex_world -> Prop) w :
  wp oidc_step p (fun d err => err = None -> Pd d) (tw_dex w) ->
  (forall w1, Pd (tw_dex w1) ->
     wp org_step (next (match ok with Some c => report now c org | None => org end)) (on_ok Q) w1) ->
  wp org_step (step_reported now org (oidc p) ok failed next) (on_ok Q) w.
Proof.
  intros Hp Hn. unfold step_reported. wp_step. apply oidc_lens. eapply wp_mono; [|exact Hp].
  intros d [e|] Hd; [by wp_step|]. apply Hn. by apply Hd.
Qed.

(** The service proxy, when its definition exists. *)
Lemma reconcileServiceProxy_provides org org0 c w :
  well_named (tw_dex w) -> GetName org = GetName org0 -> OIDC_of org = Some c -> oidc_provided org0 c (tw_dex w) ->
  wp org_step (reconcileServiceProxy now DNSDomain org (admin_team_name org)) (fun w' '(org', err) =>
    err = None -> oidc_provided org0 c (tw_dex w') /\
      (status_of org' ServiceProxyProvisioned = Some ConditionTrue -> proxy_provided org w')) w.
Proof.
  intros Hw Hn Hc Hd. unfold reconcileServiceProxy. do 2 wp_step. cbn in Hx. subst. destruct x as [e|].
  { wp_step. intros _. split; [done|]. rewrite status_report. by destruct (is_not_found _). }
  rewrite Hc. wp_step. eapply wp_mono; [|by apply reconcileOAuth2ProxySecret_credentials].
  intros w1 [e|] H1; [by wp_step|]. destruct (H1 eq_refl) as (client & s & Hdex & Hs & _). clear H1.
  assert (oidc_provided org0 c (tw_dex w1)) as Hd1.
  { rewrite Hdex. unfold proxy_client_name. rewrite Hn. by apply oidc_provided_proxy. }
  wp_step. apply resource_lens. eapply wp_mono; [|apply proxy_plugin_provides].
  intros cl [e|] [Hcells Hp]; wp_step; [done|]. intros _. split; [done|]. intros _. split_and!.
  - exact (Forall_inv (Hp eq_refl)).
  - cbn [tw_cluster put_cluster]. exists s. rewrite <- Hs. apply (Hcells OSecret). set_solver.
  - cbn [tw_dex put_cluster]. rewrite Hdex. exists client. cbn. by rewrite lookup_insert_eq.
Qed.
Definition oidc_and_proxy (org : Organization) (c : OIDCConfig) (w' : tenant_world) (org' : Organization) : Prop :=
  oidc_provided org c (tw_dex w') /\
  (status_of org' ServiceProxyProvisioned = Some ConditionTrue -> proxy_provided org w').
Lemma provide_admins_oidc org org0 c w :
  well_named (tw_dex w) -> org_meta org = org_meta org0 -> OIDC_of org = Some c -> oidc_provided org0 c (tw_dex w) ->
  wp org_step (provide_admins now DNSDomain org) (on_ok (oidc_and_proxy org0 c)) w.
Proof.
  intros Hw Hm Hc Hd. unfold provide_admins. apply step_dex. intros w1 Hdex. rewrite <- Hdex in Hw, Hd.
  unfold provide_proxy. wp_step.
  assert (GetName org = GetName org0) as Hn by (unfold GetName; cbn; by rewrite Hm).
  eapply wp_mono; [|by apply (reconcileServiceProxy_provides _ org0 c)].
  intros w2 [org2 [e|]] H2; wp_step; [done|]. intros _. destruct (H2 eq_refl) as [H3 H4]. split; [exact H3|].
  intros Hs. specialize (H4 Hs). unfold proxy_provided, proxy_plugin_req, proxy_values, internal_secret_key,
    proxy_client_name, admin_team_name in *. cbn in *. unfold GetName in *. cbn in *. by rewrite Hm in H4.
Qed.
Lemma reconcile_oidc_provides org org0 c w :
  well_named (tw_dex w) -> connectors_named (tw_dex w) ->
  org_meta org = org_meta org0 -> OIDC_of org = Some c ->
  wp org_step (reconcile_oidc now DNSDomain DexStorageType ReconcilerNamespace org (provide_admins now DNSDomain))
    (on_ok (oidc_and_proxy org0 c)) w.
Proof.
  intros Hw Hx Hm Hc. unfold reconcile_oidc. rewrite Hc.
  assert (GetName org = GetName org0) as Hn by (unfold GetName; cbn; by rewrite Hm).
  apply (step_oidc _ _ _ _ _ _ (fun d => well_named d /\ connector_provided org0 c d)).
  { eapply wp_mono; [|by apply reconcileDexConnector_stored]. intros d err (Hcl & _ & _ & H) He.
    destruct (H He) as (id & secret & url & conn & Hj & Hconn & _). split; [by unfold well_named; rewrite Hcl|].
    exists id, secret, url, conn. by rewrite <- Hn. }
  intros w1 [Hw1 Hx1].
  apply (step_oidc _ _ _ _ _ _ (fun d => well_named d /\ connector_provided org0 c d /\ client_provided org0 c d)).
  { eapply wp_mono; [|by apply reconcileOAuth2Client_spec]. intros d err [Hw2 H] ->. split; [done|].
    destruct H as (b & secret & -> & Hb & Hr). split; [done|]. exists b. rewrite Hn in Hb, Hr |- *.
    split; [cbn; by rewrite lookup_insert_eq|]. split; [by rewrite Hb|]. split; [by rewrite Hb|]. rewrite Hr. cbv zeta.
    destruct (clients _ !! _) as [old|]; [|done]. case_bool_decide; [|done].
    intros x Hin. apply appendRedirects_elem. by left. }
  intros w2 (Hw2 & Hx2 & Hc2).
  case_bool_decide as Hdef.
  { unfold step_reported. do 2 wp_step. apply provide_admins_oidc; [done..|]. split_and!; [done..|]. by rewrite <- Hn. }
  apply (step_oidc _ _ _ _ _ _ (fun d => well_named d /\ oidc_provided org0 c d)).
  { eapply wp_mono; [|by apply (update_default_spec (add_redirect DNSDomain (GetName org)))].
    intros d err [Hw3 H] ->. split; [done|]. destruct H as (dc & Hdc & ->). split; [done|]. split.
    - destruct Hc2 as (cl & Hcl & Hrest). exists cl. split; [|done]. cbn. rewrite lookup_insert_ne; [done|]. by rewrite <- Hn.
    - intros _. exists (add_redirect DNSDomain (GetName org) dc). split; [cbn; by rewrite lookup_insert_eq|].
      rewrite <- Hn. apply appendRedirects_elem. right. by left. }
  intros w3 [Hw3 Hd3]. by apply provide_admins_oidc.
Qed.
Lemma org_EnsureCreated_oidc org c w :
  well_named (tw_dex w) -> connectors_named (tw_dex w) -> OIDC_of org = Some c ->
  wp org_step (EnsureCreated org) (on_ok (oidc_and_proxy org c)) w.
Proof.
  intros Hw Hx Hc. unfold org_EnsureCreated, initOrganizationStatus. cbv zeta.
  do 4 (apply step_dex; intros ? Hd; rewrite <- Hd in Hw, Hx; clear Hd).
  by apply reconcile_oidc_provides.
Qed.
Lemma org_EnsureCreated_stores org w :
  char_in colon (GetName org) = false ->
  wp org_step (EnsureCreated org) (fun w' r =>
    r.2.2 = None -> Forall (provided (tw_cluster w')) (organization_requirements org)) w.
Proof.
  intros Hcolon. pose proof (access_class org) as Ha. pose proof (catalog_class org Hcolon) as Hc.
  pose proof (team_role_class org) as Ht. pose proof (requirement_kinds org) as Hkinds.
  assert (Forall (fun r => class r ∈ [(ONamespace, char_in colon (GetName org))]) [namespace_req org]) as Hns
    by (constructor; [by left|done]).
  assert (Forall (fun r => class r ∈ [(OTeam, char_in colon (admin_team_name org))]) [admin_team_req org]) as Hat
    by (constructor; [by left|done]).
  change (wp org_step (EnsureCreated org) (on_success (fun w' => have (organization_requirements org) w')) w).
  unfold org_EnsureCreated, initOrganizationStatus. cbv zeta.
  set (org1 := report now (is_true now NamespaceCreated) org).
  set (org2 := report now (is_true now OrganizationRBACConfigured) org1).
  apply (step_provided [] [namespace_req org]); [apply namespace_provides|done|intros r Hr; by apply not_elem_of_nil in Hr|].
  intros w1 H1. eapply (step_provided _ (access_requirements org)); [exact (access_provides org1)|exact H1| |].
  { eapply classes_disjoint; [exact Hns|exact Ha|]. unfold access_classes. set_solver. }
  pose proof (class_app _ _ _ _ Hns Ha) as C2.
  intros w2 H2. eapply (step_provided _ (catalog_requirements org)); [exact (catalog_provides org1)|exact H2| |].
  { eapply classes_disjoint; [exact C2|exact Hc|]. unfold access_classes, catalog_classes. set_solver. }
  pose proof (class_app _ _ _ _ C2 Hc) as C3.
  intros w3 H3. eapply (step_provided _ (team_role_requirements org roles_order));
    [exact (team_roles_provide org2 roles_order roles_order_perm)|exact H3| |].
  { eapply classes_disjoint; [exact C3|exact Ht|]. unfold access_classes, catalog_classes. set_solver. }
  pose proof (class_app _ _ _ _ C3 Ht) as C4. intros w4 H4.
  change (have ((([namespace_req org] ++ access_requirements org) ++ catalog_requirements org) ++
    team_role_requirements org roles_order) w4) in H4.
  assert (forall rs, rs = (([namespace_req org] ++ access_requirements org) ++ catalog_requirements org) ++
      team_role_requirements org roles_order -> rs ++ [admin_team_req org] = organization_requirements org) as Hall.
  { intros rs ->. unfold organization_requirements. by rewrite !app_assoc. }
  specialize (Hall _ eq_refl). revert C4 H4 Hall. generalize ((([namespace_req org] ++ access_requirements org) ++
    catalog_requirements org) ++ team_role_requirements org roles_order). intros rs C4 H4 Hall.
  assert (forall org' w5, GetName org' = GetName org -> admin_team_req org' = admin_team_req org -> have rs w5 ->
    wp org_step (provide_admins now DNSDomain org') (on_success (fun w' => have (organization_requirements org) w')) w5) as Hlast.
  { intros org' w5 _ He H5. apply (rest_provided rs); rewrite ?He, ?Hall; [done| |done|done].
    eapply classes_disjoint; [exact C4|exact Hat|]. unfold access_classes, catalog_classes. set_solver. }
  unfold reconcile_oidc.
  assert (forall c1 c2 c3, OIDC_of (report now c1 (report now c2 (report now c3 org))) = OIDC_of org) as -> by done.
  destruct (OIDC_of org) as [c|]; [|apply Hlast; [reflexivity|reflexivity|exact H4]].
  apply (step_kept rs); [exact H4|]. intros w5 H5. apply (step_kept rs); [exact H5|]. intros w6 H6.
  destruct (bool_decide _).
  - unfold step_reported. do 2 wp_step. apply Hlast; [reflexivity|reflexivity|exact H6].
  - apply (step_kept rs); [exact H6|]. intros w7 H7. apply Hlast; [reflexivity|reflexivity|exact H7].
Qed.

(** C23: what a successful creation provides.  In any cluster and any Dex whose clients
    and connectors are stored under their identifiers, whatever fails, when
    [EnsureCreated] of an Organization whose name has no colon returns no error, there
    are its namespace, its roles and bindings, the access of its catalogs, the default
    TeamRoles and the administrators' Team, mapped to the group of the spec and marked
    as a support group, all with their specified content: no later step undid an
    earlier one.  With OIDC configured, Dex has the connector with its configuration, the
    public client with its redirects and, but for the default Organization, the redirect
    at the default client; and when the condition says that the service proxy is
    provisioned, its Plugin is there with its values and owner, with the Secret it refers
    to and the client in Dex. *)
Theorem org_EnsureCreated_provides org w :
  char_in colon (GetName org) = false -> well_named (tw_dex w) -> connectors_named (tw_dex w) ->
  wp org_step (EnsureCreated org) (fun w' r =>
    r.2.2 = None ->
    Forall (provided (tw_cluster w')) (organization_requirements org) /\
    forall c, OIDC_of org = Some c ->
      oidc_provided org c (tw_dex w') /\
      (status_of r.1 ServiceProxyProvisioned = Some ConditionTrue -> proxy_provided org w')) w.
Proof.
  intros Hcolon Hw Hx. destruct (OIDC_of org) as [c|] eqn:Hc.
  - eapply wp_mono; [|apply wp_and; [by apply org_EnsureCreated_stores|by apply (org_EnsureCreated_oidc org c)]].
    intros w' r [H1 H2] He. split; [by apply H1|]. intros c' [= <-]. by apply H2.
  - eapply wp_mono; [|by apply org_EnsureCreated_stores]. intros w' r H He. split; [by apply H|done].
Qed.
End safety.

(** ** An environment in which every call succeeds *)
Section healthy.
Definition stored {A} (m : option A) : result A :=
  match m with Some c => Ok c | None => Err (mk_error NotFound "not found") end.
Definition updated {A} (id : string) (f : A -> A) (m : gmap string A) : option error * gmap string A :=
  match m !! id with
  | Some c => (None, <[id := f c]> m)
  | None => (Some (mk_error NotFound "not found"), m)
  end.
Definition created {A} (id : string) (c : A) (m : gmap string A) : option error * gmap string A :=
  match m !! id with
  | Some _ => (Some (mk_error AlreadyExists "exists"), m)
  | None => (None, <[id := c]> m)
  end.
Definition on_clients {X} (r : X * gmap string DexClient) (d : dex_world) : X * dex_world :=
  (r.1, set_clients r.2 d).
Definition on_connectors {X} (r : X * gmap string DexConnector) (d : dex_world) : X * dex_world :=
  (r.1, set_connectors r.2 d).
Definition dex_serve X (e : dexE X) : dex_world -> X * dex_world :=
  match e in dexE X return dex_world -> X * dex_world with
  | DGetClient id => fun d => (stored (clients d !! id), d)
  | DCreateClient c => fun d => on_clients (created (dc_ID c) c (clients d)) d
  | DUpdateClient id f => fun d => on_clients (updated id f (clients d)) d
  | DDeleteClient id => fun d => on_clients (None, delete id (clients d)) d
  | DGetConnector id => fun d => (stored (connectors d !! id), d)
  | DCreateConnector c => fun d => on_connectors (created (dx_ID c) c (connectors d)) d
  | DUpdateConnector id f => fun d => on_connectors (updated id f (connectors d)) d
  | DDeleteConnector id => fun d => on_connectors (None, delete id (connectors d)) d
  end.
Lemma stored_read {A} (m : gmap string A) id : read_of m id (stored (m !! id)).
Proof. unfold stored. destruct (m !! id) eqn:H; [exact H|by intros _]. Qed.
Lemma created_right {A} (m : gmap string A) id c : created_at m id c (created id c m).1 (created id c m).2.
Proof. unfold created, created_at. by destruct (m !! id) eqn:H; rewrite ?H. Qed.
Lemma updated_right {A} (m : gmap string A) id f : updated_at m id f (updated id f m).1 (updated id f m).2.
Proof. unfold updated, updated_at. destruct (m !! id) as [c|] eqn:H; cbn; [by exists c|done]. Qed.
Lemma dex_serve_step X (e : dexE X) d : dex_step d X e (dex_serve X e d).1 (dex_serve X e d).2.
Proof.
  destruct e; cbn; try (by split; [done|apply stored_read]); eexists; (split; [|reflexivity]); try done;
    first [apply created_right|apply updated_right].
Qed.
(** Nothing is known about secrets of others, Ingresses or SCIM. *)
Definition resource_serve X (e : resourceE X) (c : org_world) : X * org_world :=
  match e in resourceE X return X * org_world with
  | OKube k e => let r := kube_serve _ e (get_store k c) in (r.1, put_store k r.2 c)
  end.
Definition oidc_serve X (e : oidcE X) : dex_world -> option (X * dex_world) :=
  match e in oidcE X return dex_world -> option (X * dex_world) with
  | DDex e => fun d => Some (dex_serve _ e d)
  | _ => fun _ => None
  end.
Definition org_serve X (e : orgE X) (w : tenant_world) : option (X * tenant_world) :=
  match e in orgE X return option (X * tenant_world) with
  | GResource e => let r := resource_serve _ e (tw_cluster w) in Some (r.1, put_cluster r.2 w)
  | GOidc e => (fun r => (r.1, put_dex r.2 w)) <$> oidc_serve _ e (tw_dex w)
  | GGetClusterPluginDefinition _ => Some (None, w)
  | GRandom _ => Some (Ok "random", w)
  | _ => None
  end.
Lemma org_serve_step X (e : orgE X) w x w' : org_serve X e w = Some (x, w') -> org_step w X e x w'.
Proof.
  destruct e as [X e|X e|X e|s|k|n]; cbn; try congruence.
  - intros [= <- <-]. eexists. split; [|reflexivity]. destruct e as [k X e]. eexists. split; [|reflexivity].
    apply (kube_serve_step (kept_fields k)). by destruct k.
  - destruct e as [X e|n|X e]; cbn; try done. intros [= <- <-]. eexists. split; [apply dex_serve_step|done].
Qed.
End healthy.

(** ** Concrete passes *)
Module SafetyRun.
#[local] Instance org_libs : OrgLibs := OrgRun.libs.
#[local] Instance dex_libs : DexLibs := DexRun.libs.
#[local] Instance scim_libs : ScimLibs := {| url_Parse s := Ok s; Unmarshal _ := Err (new_error "no page") |}.
#[local] Instance libs : OrgControllerLibs := {| json_string s := s; version_GitCommit := "" |}.
Definition oidc_spec : OrganizationSpec :=
  mk_org_spec "" (Some (mk_authentication (Some (mk_oidc_config "https://idp" "" (mk_skr "idp" "id") (mk_skr "idp" "secret") [])) None))
    "" "idp-admins" "".
Definition acme : Organization := mk_org (named "acme" "") oidc_spec [].
Definition a : string := "https://acme.dashboard.example.com".
Definition u : string := "https://umbrella.dashboard.example.com".
(** A Dex without a default client, and one where two Organizations are registered. *)
Definition fresh : tenant_world := mk_tenant_world OrgRun.nothing (mk_dex_world ∅ ∅).
Definition shared : tenant_world := mk_tenant_world OrgRun.nothing (DexRun.stored [u; a]).
Lemma fresh_named : well_named (tw_dex fresh).
Proof. intros id c. cbn. by rewrite lookup_empty. Qed.
Lemma org_EnsureDeleted_done_witness :
  wp org_step (org_EnsureDeleted "example.com" acme) (fun w' r => w' = fresh /\ r.2.1.2 = Failed) fresh /\
  wp org_step (org_EnsureDeleted "example.com" acme) (fun w' r =>
    r.2.1.2 = Success -> clients (tw_dex w') = {["greenhouse" := DexRun.default_client [u]]}) shared.
Proof.
  split; (eapply wp_mono; [|apply (org_EnsureDeleted_done "example.com" acme)]).
  - intros w' [org' [[r o] e]] (_ & _ & _ & H & _). by apply H.
  - exact fresh_named.
  - intros w' [org' [[r o] e]] (_ & _ & _ & _ & H) Hs. destruct (H Hs) as (c & Hc & -> & _).
    injection Hc as <-. by vm_compute.
  - apply DexRun.stored_named.
Defined.
Lemma reconcileOAuth2ProxySecret_credentials_witness :
  wp org_step (reconcileOAuth2ProxySecret "example.com" acme) (fun w' err =>
    err = None -> exists s, w_secrets (tw_cluster w') !! mk_key "acme" "acme-internal" = Some s /\ secret_Data s = ∅) fresh.
Proof.
  eapply wp_mono; [|apply (reconcileOAuth2ProxySecret_credentials "example.com" acme fresh fresh_named)].
  intros w' err H He. destruct (H He) as (c & s & _ & Hs & Hd). exists s. split; [exact Hs|exact Hd].
Defined.
Lemma shared_connectors : connectors_named (tw_dex shared).
Proof. intros id c. cbn. by rewrite lookup_empty. Qed.
(** Without an error the administrators have their role and Dex has the client. *)
Lemma org_EnsureCreated_provides_witness :
  wp org_step (org_EnsureCreated 0 "example.com" Postgres "greenhouse" map_to_list acme) (fun w' r =>
    r.2.2 = None ->
    (exists ro, w_roles (tw_cluster w') !! mk_key "acme" "role:acme:admin" = Some ro /\
      role_Rules ro = OrganizationAdminPolicyRules) /\
    (exists client, clients (tw_dex w') !! "acme" = Some client /\
      "https://acme.dashboard.example.com" ∈ dc_RedirectURIs client)) shared.
Proof.
  eapply wp_mono; [|apply (org_EnsureCreated_provides 0 "example.com" Postgres "greenhouse" map_to_list
    (fun _ => reflexivity _) acme shared eq_refl (DexRun.stored_named _) shared_connectors)].
  intros w' r H He. specialize (H He) as [H Ho]. rewrite Forall_forall in H. split.
  - destruct (H (role_req "acme" "role:acme:admin" OrganizationAdminPolicyRules)) as (ro & Hro & Hs).
    + apply elem_of_app. right. apply elem_of_app. left. by apply (list_elem_of_lookup_2 _ 2).
    + exists ro. split; [exact Hro|exact Hs].
  - destruct (Ho _ eq_refl) as [(_ & (client & Hcl & _ & _ & Hr) & _) _]. exists client. split; [exact Hcl|].
    apply Hr. by apply (list_elem_of_lookup_2 _ 2).
Defined.
End SafetyRun.
