(* ===== verification/OrgIsolation.v ===== *)
(** * OrgIsolation: Organizations do not reach into each other

    The roles and bindings the controller of Organizations writes ([OrgResources]), the
    groups a login gives ([IdentityProvider]) and the meaning of RBAC ([OrgAccess]) are put
    together: in every cluster the controller can produce, for whatever Organizations, in
    whatever order and with whatever failures, what a user may do through those bindings
    stays within the Organization the user logged in at.

    [may] is the documented decision of the RBAC authorizer over the stored objects; it is
    a specification. *)
From S2P Require Import Prelude Effects Conditions Meta CoreTypes ApiTypes Lifecycle ClientUtil PluginTypes PluginDefinitions KubeConfig AccessWebhook OrgAccess Organization IdentityProvider Scim OrgResources OrgDex OrgController OrgSafety.
From Stdlib Require Import ZArith.

(** ** What RBAC allows *)
Definition bound_to (groups : list string) (subjects : list RbacSubject) : Prop :=
  exists s, s ∈ subjects /\ rs_Kind s = rbacv1_GroupKind /\ rs_Name s ∈ groups.
Definition cluster_rules (w : org_world) (name : string) (rules : list PolicyRule) : Prop :=
  exists cr, w_cluster_roles w !! mk_key "" name = Some cr /\ cr_Rules cr = rules.
Definition may_cluster_wide (w : org_world) (groups : list string) (q : request) : Prop :=
  exists key b group name rules, w_cluster_bindings w !! key = Some b /\ bound_to groups (crb_Subjects b) /\
    crb_RoleRef b = (group, "ClusterRole", name) /\ cluster_rules w name rules /\ grants rules q = true.
Definition may_in (w : org_world) (groups : list string) (namespace : string) (q : request) : Prop :=
  exists name b group kind role rules, w_bindings w !! mk_key namespace name = Some b /\
    bound_to groups (rb_Subjects b) /\ rb_RoleRef b = (group, kind, role) /\
    (kind = "Role" /\ (exists r, w_roles w !! mk_key namespace role = Some r /\ role_Rules r = rules) \/
     kind = "ClusterRole" /\ cluster_rules w role rules) /\
    grants rules q = true.

(** ** The invariant of the stored objects *)
Definition group_of (n name : string) : Prop :=
  name = OrganizationAdminRoleName n \/ name = OrganizationRoleName n.
Definition service_account (s : RbacSubject) : Prop := rs_Kind s = rbacv1_ServiceAccountKind.
Definition fits (k : orgKind) (key : objkey) : org_object k -> Prop :=
  match k with
  | OClusterRole => fun o => forall n,
      (key_name key = OrganizationAdminRoleName n -> cr_Rules o = OrganizationAdminClusterRolePolicyRules n) /\
      (key_name key = OrganizationRoleName n -> cr_Rules o = OrganizationMemberClusterRolePolicyRules n)
  | ORole => fun o =>
      (key_name key = OrganizationAdminRoleName (key_namespace key) -> role_Rules o = OrganizationAdminPolicyRules) /\
      (key_name key = OrganizationRoleName (key_namespace key) -> role_Rules o = OrganizationMemberPolicyRules)
  | OClusterRoleBinding => fun o =>
      Forall service_account (crb_Subjects o) \/
      exists n name, group_of n name /\ crb_Subjects o = [group_subject name] /\
        crb_RoleRef o = (rbacv1_GroupName, clusterRoleKind, name)
  | ORoleBinding => fun o =>
      Forall service_account (rb_Subjects o) \/
      exists name, group_of (key_namespace key) name /\ rb_Subjects o = [group_subject name] /\
        rb_RoleRef o = (rbacv1_GroupName, "Role", name)
  | _ => fun _ => True
  end.
Definition isolated (w : org_world) : Prop :=
  forall k key o, get_store k w !! key = Some o -> fits k key o.
Lemma fits_kept k key o o' : kept_fields k o o' -> fits k key o -> fits k key o'.
Proof.
  destruct k; cbn; try done.
  - intros [-> _]. done.
  - intros [-> ->]. done.
  - intros ->. done.
  - intros [-> ->]. done.
Qed.

Definition keeps (p : prog resourceE (option error)) : Prop :=
  forall w, isolated w -> wp resource_step p (fun w' _ => isolated w') w.
Lemma create_or_patch_keeps k mutate obj :
  (forall o, key_of (mutate o).1 = key_of o) ->
  (forall o, (mutate o).2 = None -> fits k (key_of obj) (mutate o).1) ->
  keeps (create_or_patch k mutate obj).
Proof.
  intros Hkey Hf w Hw. unfold create_or_patch. wp_step. apply kind_lens.
  eapply wp_mono; [|by apply CreateOrPatch_post]. intros st [o [res err]] Hp. wp_step.
  assert (forall o b, (mutate b).2 = None -> kept_fields k (mutate b).1 o ->
    isolated (put_store k (<[key_of obj := o]> (get_store k w)) w)) as Hput.
  { intros o' b Hm Hk k' key x Hx. destruct (decide (k' = k)) as [->|Hne].
    - rewrite get_put_store in Hx. apply lookup_insert_Some in Hx as [[<- <-]|[_ Hx]]; [|by apply Hw].
      eapply fits_kept; [exact Hk|]. by apply Hf.
    - rewrite get_put_store_ne in Hx by done. by apply Hw. }
  assert (isolated (put_store k (get_store k w) w)) as Hsame by (by rewrite put_get_store).
  destruct err as [e|]; [destruct res; by destruct Hp as [-> _]|]. destruct res; cbn in Hp.
  - by destruct Hp as [-> _].
  - destruct Hp as (_ & Hm & Hk & ->). by eapply Hput.
  - destruct Hp as (b & _ & _ & Hm & _ & Hk & ->). by eapply Hput.
Qed.
Lemma until_error_keeps steps : Forall keeps steps -> keeps (until_error steps).
Proof.
  induction 1 as [|p steps Hp _ IH]; intros w Hw; cbn [until_error]; [by wp_step|].
  wp_step. eapply wp_mono; [|by apply Hp]. intros w1 [e|] H1; [by wp_step|]. by apply IH.
Qed.

(** ** The steps *)
Section steps.
Context {Libs : OrgLibs}.
Variable org : Organization.
Abbreviation ns := (GetName org).
Hypothesis Hcolon : char_in colon ns = false.

Lemma role_name_shapes n :
  char_in colon (OrganizationAdminRoleName n) = true /\ char_in colon (OrganizationRoleName n) = true.
Proof. done. Qed.
Lemma catalog_no_colon : char_in colon (OrgCatalogRoleName ns) = false.
Proof. unfold OrgCatalogRoleName. by rewrite char_in_app, Hcolon. Qed.
Lemma admin_name_inj n n' : OrganizationAdminRoleName n = OrganizationAdminRoleName n' -> n = n'.
Proof. unfold OrganizationAdminRoleName. by intros ?%append_inj_l%append_inj_r. Qed.
Lemma member_name_inj n n' : OrganizationRoleName n = OrganizationRoleName n' -> n = n'.
Proof. unfold OrganizationRoleName. by intros ?%append_inj_l. Qed.

Lemma cluster_role_keeps group : keeps (reconcileClusterRole org group).
Proof.
  unfold reconcileClusterRole. destruct (cluster_role_of org group) as [[name rules]|] eqn:Hg; [|by intros w Hw; wp_step].
  apply (create_or_patch_keeps OClusterRole); [intros o; by etransitivity; [apply org_owned_key|]|].
  intros o _. unfold mutate_cluster_role. cbn [fits]. rewrite (org_owned_field cr_Rules) by done. cbn [cr_Rules]. intros n.
  destruct group; cbn in Hg; try done; injection Hg as <- <-; cbn [key_name key_of GetName new_cluster_role].
  - split; [by intros <-%admin_name_inj|done].
  - split; [done|by intros <-%member_name_inj].
Qed.
Lemma cluster_binding_keeps group : keeps (reconcileClusterRoleBinding org group).
Proof.
  unfold reconcileClusterRoleBinding. destruct (binding_name org group) as [name|] eqn:Hg; [|by intros w Hw; wp_step].
  apply (create_or_patch_keeps OClusterRoleBinding); [intros o; by etransitivity; [apply org_owned_key|]|].
  intros o _. unfold mutate_cluster_binding. cbn [fits].
  rewrite (org_owned_field crb_Subjects), (org_owned_field crb_RoleRef) by done. right. exists ns, name.
  split; [|done]. destruct group; cbn in Hg; try done; injection Hg as <-; [by left|by right].
Qed.
Lemma role_keeps group : keeps (reconcileRole org group).
Proof.
  unfold reconcileRole. destruct (role_of org group) as [name rules] eqn:Hg.
  apply (create_or_patch_keeps ORole); [intros o; by etransitivity; [apply org_owned_key|]|].
  intros o _. unfold mutate_org_role. cbn [fits]. rewrite (org_owned_field role_Rules) by done.
  change (key_of (mk_role (named name ns) [])) with (mk_key ns name). cbn [key_name key_namespace role_Rules].
  destruct group; cbn [role_of] in Hg; injection Hg as <- <-; split; try done; intros H;
    unfold OrganizationAdminRoleName, OrganizationClusterAdminRoleName, OrganizationPluginAdminRoleName in H;
    by do 2 apply append_inj_l in H.
Qed.
Lemma binding_keeps group : keeps (reconcileRoleBinding org group).
Proof.
  unfold reconcileRoleBinding. destruct (binding_name org group) as [name|] eqn:Hg; [|by intros w Hw; wp_step].
  apply (create_or_patch_keeps ORoleBinding); [intros o; by etransitivity; [apply org_owned_key|]|].
  intros o _. unfold mutate_binding. cbn [fits].
  rewrite (org_owned_field rb_Subjects), (org_owned_field rb_RoleRef) by done. right. exists name.
  split; [|done]. destruct group; cbn in Hg; try done; injection Hg as <-; [by left|by right].
Qed.
Lemma reconcileRBAC_keeps : keeps (reconcileRBAC org).
Proof.
  apply until_error_keeps. repeat (apply List.Forall_cons || apply List.Forall_nil);
    auto using cluster_role_keeps, cluster_binding_keeps, role_keeps, binding_keeps.
Qed.
Lemma catalog_keeps : keeps (reconcileCatalogPermissions org).
Proof.
  pose proof catalog_no_colon as Hn.
  assert (forall n, OrgCatalogRoleName ns <> OrganizationAdminRoleName n /\ OrgCatalogRoleName ns <> OrganizationRoleName n) as Hne.
  { intros n. destruct (role_name_shapes n). split; congruence. }
  apply until_error_keeps. apply List.Forall_cons; [|case_bool_decide; apply List.Forall_cons; [|apply List.Forall_cons; [|apply List.Forall_nil]
    | |apply List.Forall_cons; [|apply List.Forall_nil]]].
  - apply (create_or_patch_keeps OServiceAccount); [intros o; by etransitivity; [apply org_owned_key|]|done].
  - apply (create_or_patch_keeps OClusterRole); [intros o; by etransitivity; [apply org_owned_key|]|].
    intros o _. cbn [fits]. intros n. change (key_name (key_of (new_cluster_role (OrgCatalogRoleName ns)))) with (OrgCatalogRoleName ns).
    destruct (Hne n). done.
  - apply (create_or_patch_keeps OClusterRoleBinding); [intros o; by etransitivity; [apply org_owned_key|]|].
    intros o _. unfold mutate_cluster_binding. cbn [fits]. left. rewrite (org_owned_field crb_Subjects) by done.
    by repeat constructor.
  - apply (create_or_patch_keeps ORole); [intros o; by etransitivity; [apply org_owned_key|]|].
    intros o _. cbn [fits]. change (key_of (mk_role (named (OrgCatalogRoleName ns) ns) [])) with (mk_key ns (OrgCatalogRoleName ns)).
    cbn [key_name key_namespace]. destruct (Hne ns). done.
  - apply (create_or_patch_keeps ORoleBinding); [intros o; by etransitivity; [apply org_owned_key|]|].
    intros o _. unfold mutate_binding. cbn [fits]. left. rewrite (org_owned_field rb_Subjects) by done. by repeat constructor.
Qed.
End steps.

(** ** Whole passes *)
Section passes.
Context {HOrg : OrgLibs} {HDex : DexLibs} {HScim : ScimLibs} {Libs : OrgControllerLibs}.
Variable now : Z.
Variable DNSDomain DexStorageType ReconcilerNamespace : string.
Variable roles_order : gmap string TeamRoleSpec -> list (string * TeamRoleSpec).
Abbreviation isolates w := (isolated (tw_cluster w)).

Abbreviation kept := (fun (w' : tenant_world) (_ : Organization * cb_result) => isolates w').

Lemma step_isolates org p ok failed next w :
  keeps p -> isolates w ->
  (forall w1, isolates w1 -> wp org_step (next (match ok with Some c => report now c org | None => org end)) kept w1) ->
  wp org_step (step_reported now org (resource p) ok failed next) kept w.
Proof.
  intros Hp Hw Hn. unfold step_reported. wp_step. apply resource_lens. eapply wp_mono; [|by apply Hp].
  intros c [e|] Hc; [by wp_step|]. by apply Hn.
Qed.
Lemma oidc_isolates org (p : prog oidcE (option error)) ok failed next w :
  isolates w ->
  (forall w1, isolates w1 -> wp org_step (next (match ok with Some c => report now c org | None => org end)) kept w1) ->
  wp org_step (step_reported now org (oidc p) ok failed next) kept w.
Proof.
  intros Hw Hn. unfold step_reported. wp_step. apply oidc_lens. wp_skip. destruct a as [e|]; [by wp_step|]. by apply Hn.
Qed.
Lemma unconstrained_keeps k mutate obj :
  (forall o, key_of (mutate o).1 = key_of o) -> (forall key o, fits k key o) -> keeps (create_or_patch k mutate obj).
Proof. intros Hk Hf. apply create_or_patch_keeps; [done|]. intros. apply Hf. Qed.
Lemma namespace_keeps org : keeps (reconcileNamespace org).
Proof. apply (unconstrained_keeps ONamespace); [intros o; apply (org_controlled_key org (o : Namespace))|done]. Qed.
Lemma admin_team_keeps org : keeps (reconcileAdminTeam org).
Proof.
  apply (unconstrained_keeps OTeam); [|done]. intros o. unfold mutate_admin_team.
  etransitivity; [apply org_controlled_key|]. done.
Qed.
Lemma team_roles_keep org : keeps (reconcileDefaultTeamRoles roles_order org).
Proof.
  apply until_error_keeps. induction (roles_order defaultTeamRoles) as [|[name spec] l IH]; [apply List.Forall_nil|].
  apply List.Forall_cons; [|exact IH]. apply (unconstrained_keeps OTeamRole); [|done].
  intros o. by etransitivity; [apply org_owned_key|].
Qed.
(** What only writes Secrets and Plugins keeps the invariant. *)
Lemma proxy_isolates org name w :
  isolates w -> wp org_step (reconcileServiceProxy now DNSDomain org name) (fun w' _ => isolates w') w.
Proof.
  intros Hw.
  apply (all_calls_wp proxy_call org_step (fun w' => isolates w')); [apply proxy_calls| |done].
  assert (forall k st w1, proxy_kind k = true -> isolated w1 -> isolated (put_store k st w1)) as Hput.
  { intros k st w1 Hk H1 k' key o Ho. destruct (decide (k' = k)) as [->|Hne]; [by destruct k|].
    rewrite get_put_store_ne in Ho by done. by apply H1. }
  intros w1 X e x w2 H Hp Hx. destruct e as [X e|X e|X e|s|k|n]; cbn [org_step] in Hx; try (by subst).
  - destruct Hx as (c & Hx & ->). destruct e as [k X e]. destruct Hx as (st & _ & ->). by apply Hput.
  - by destruct Hx as (d & _ & ->).
  - destruct x as [s'|]; [|by subst]. destruct Hx as (_ & _ & ->). cbn [tw_cluster put_cluster]. by apply Hput.
Qed.
Lemma provide_admins_isolates org w :
  isolates w -> wp org_step (provide_admins now DNSDomain org) kept w.
Proof.
  intros Hw. unfold provide_admins. apply step_isolates; [apply admin_team_keeps|done|]. intros w1 H1.
  unfold provide_proxy. wp_step. eapply wp_mono; [|by apply proxy_isolates]. intros w2 [org' [e|]] H2; by wp_step.
Qed.
Lemma EnsureCreated_isolates org w :
  char_in colon (GetName org) = false -> isolates w ->
  wp org_step (org_EnsureCreated now DNSDomain DexStorageType ReconcilerNamespace roles_order org) kept w.
Proof.
  intros Hc Hw. unfold org_EnsureCreated, initOrganizationStatus. cbv zeta.
  apply step_isolates; [apply namespace_keeps|done|]. intros w1 H1.
  apply step_isolates; [apply reconcileRBAC_keeps|done|]. intros w2 H2.
  apply step_isolates; [by apply catalog_keeps|done|]. intros w3 H3.
  apply step_isolates; [apply team_roles_keep|done|]. intros w4 H4.
  unfold reconcile_oidc. destruct (OIDC_of _) as [c|]; [|by apply provide_admins_isolates].
  apply oidc_isolates; [done|]. intros w5 H5. apply oidc_isolates; [done|]. intros w6 H6.
  destruct (bool_decide _).
  - unfold step_reported. do 2 wp_step. by apply provide_admins_isolates.
  - apply oidc_isolates; [done|]. intros w7 H7. by apply provide_admins_isolates.
Qed.

(** One pass of any Organization, creating or deleting. *)
Definition org_pass (w w' : tenant_world) : Prop :=
  exists (org : Organization) (r : Organization * cb_result), char_in colon (GetName org) = false%bool /\
    (exec org_step (org_EnsureCreated now DNSDomain DexStorageType ReconcilerNamespace roles_order org) w r w' \/
     exec org_step (org_EnsureDeleted DNSDomain org) w r w').
Lemma passes_isolate w w' : isolates w -> rtc org_pass w w' -> isolates w'.
Proof.
  intros Hw H. induction H as [w|w w1 w2 (org & r & Hc & [He|He]) _ IH]; [done|..]; apply IH.
  - exact (wp_exec _ _ _ _ _ _ (EnsureCreated_isolates org w Hc Hw) He).
  - assert (wp org_step (org_EnsureDeleted DNSDomain org) kept w) as Hd; [|exact (wp_exec _ _ _ _ _ _ Hd He)].
    unfold org_EnsureDeleted. destruct (OIDC_of org); [|by wp_step]. wp_step. apply oidc_lens. wp_skip. by wp_step.
Qed.
Definition empty_cluster : org_world := mk_org_world ∅ ∅ ∅ ∅ ∅ ∅ ∅ ∅ ∅ ∅.
Lemma empty_isolated : isolated empty_cluster.
Proof. by intros [] key o. Qed.

(** ** Who gets what *)
Lemma bound_to_group groups name : bound_to groups [group_subject name] -> name ∈ groups.
Proof. intros (s & ->%list_elem_of_singleton & _ & Hin). exact Hin. Qed.
Lemma service_accounts_unbound groups subjects : bound_to groups subjects -> ~ Forall service_account subjects.
Proof.
  intros (s & Hs & Hk & _) Hall. rewrite Forall_forall in Hall. specialize (Hall s Hs).
  unfold service_account in Hall. by rewrite Hall in Hk.
Qed.
Section login.
Variable map_order : strmap -> list (string * string).
Hypothesis map_order_perm : forall m, map_order m ≡ₚ map_to_list m.
Variable definitions : list ClusterPluginDefinition.
Hypothesis definition_names : forall cpd, cpd ∈ definitions ->
  char_in colon (GetName cpd) = false /\ GetName cpd <> "organization".
Variable organization : string.
(** What the upstream connector and the API server answer at a login. *)
Variable callback : string -> Identity * option error.
Variable refresh : Identity -> Identity * option error.
Variable teams_of : string -> result (list Team).
Variable organizations : objkey -> result Organization.
Hypothesis teams_admitted : forall teams team,
  teams_of organization = Ok teams -> team ∈ teams -> admitted_team definitions team.

(** The identity of a user who logged in at the Organization, or refreshed a login, with
    the upstream groups. *)
Abbreviation connector := (mk_oidc_connector organization false).
Abbreviation answers := (login_answers callback refresh teams_of organizations).
Definition logged_in (upstream : list string) (identity : Identity) : Prop :=
  (exists connData, upstream = id_Groups (callback connData).1 /\
     eval answers (HandleCallback map_order connector connData) = Some (identity, None)) \/
  (exists before, upstream = id_Groups (refresh before).1 /\
     eval answers (Refresh map_order connector before) = Some (identity, None)).
Definition administers (upstream : list string) : Prop :=
  exists org, organizations (mk_key "" organization) = Ok org /\ MappedOrgAdminIDPGroup (org_Spec org) ∈ upstream.

(** The groups are those of the reference definition, or none after a failed read. *)
Lemma logged_in_groups upstream identity : logged_in upstream identity ->
  id_Groups identity = [] \/
  exists teams org, teams_of organization = Ok teams /\ organizations (mk_key "" organization) = Ok org /\
    id_Groups identity = reference_groups map_order connector organization teams org upstream.
Proof.
  intros [(connData & -> & H)|(before & -> & H)].
  - rewrite (proj1 (identity_groups map_order connector callback refresh teams_of organizations connData identity)) in H.
    destruct (callback connData) as [up [e|]]; [congruence|]. injection H as <-. cbn [conn_id keepUpstreamGroups id_Groups with_groups fst].
    destruct (teams_of organization) as [teams|e]; [|by left].
    destruct (organizations _) as [org|e]; [|by left]. right. by exists teams, org.
  - rewrite (proj2 (identity_groups map_order connector callback refresh teams_of organizations "" before)) in H.
    destruct (refresh before) as [up [e|]]; [congruence|]. injection H as <-. cbn [conn_id keepUpstreamGroups id_Groups with_groups fst].
    destruct (teams_of organization) as [teams|e]; [|by left].
    destruct (organizations _) as [org|e]; [|by left]. right. by exists teams, org.
Qed.
Lemma logged_in_names upstream identity n name :
  logged_in upstream identity -> group_of n name -> name ∈ id_Groups identity ->
  n = organization /\ (name = OrganizationRoleName n \/ administers upstream /\ name = OrganizationAdminRoleName n).
Proof.
  intros [Hnil|(teams & org & Ht & Ho & Hg)]%logged_in_groups Hn Hin.
  { rewrite Hnil in Hin. by apply not_elem_of_nil in Hin. }
  rewrite Hg in Hin. pose proof (fun team => teams_admitted teams team Ht) as Hadm. destruct Hn as [->| ->].
  - apply (login_admin map_order map_order_perm definitions) in Hin as [-> Ha]; eauto; [|by apply definition_names].
    split; [done|]. right. split; [by exists org|done].
  - apply (login_member map_order map_order_perm definitions) in Hin as ->; eauto; by apply definition_names.
Qed.

(** C3: tenants are isolated.  Start from a cluster without roles and bindings and let
    the controller run, for any Organizations without a colon in their names, in any
    order and with any failures.  Let a user log in at an Organization, or refresh a
    login, with whatever upstream groups and whatever the API server answers, at a
    connector that keeps no upstream groups; the Teams it lists passed the webhook, and
    no ClusterPluginDefinition is called "organization" or has a colon in its name.  What
    the groups of that identity allow through the bindings is then: in a namespace, only
    in that of the Organization, what its members may do, and what administrators may do
    only with the mapped upstream group; cluster-wide, what the rules of a member or,
    with that group, of an administrator of that Organization grant. *)
Theorem tenants_isolated upstream identity d w namespace q :
  rtc org_pass (mk_tenant_world empty_cluster d) w ->
  logged_in upstream identity ->
  let groups := id_Groups identity in
  (may_in (tw_cluster w) groups namespace q ->
     namespace = organization /\
     (grants OrganizationMemberPolicyRules q = true \/
      administers upstream /\ grants OrganizationAdminPolicyRules q = true)) /\
  (may_cluster_wide (tw_cluster w) groups q ->
     grants (OrganizationMemberClusterRolePolicyRules organization) q = true \/
     administers upstream /\ grants (OrganizationAdminClusterRolePolicyRules organization) q = true).
Proof.
  intros Hreach Hin groups. pose proof (passes_isolate (mk_tenant_world empty_cluster d) w empty_isolated Hreach) as Hiso.
  assert (forall n name, group_of n name -> name ∈ groups -> n = organization /\
    (name = OrganizationRoleName n \/ administers upstream /\ name = OrganizationAdminRoleName n)) as Hlogin.
  { intros n name. by apply logged_in_names. }
  split.
  - intros (name & b & group & kind & role & rules & Hb & Hbound & Href & Hrules & Hg).
    destruct (Hiso ORoleBinding _ _ Hb) as [Hs|(g & Hgr & Hsub & Hr)]; [by apply service_accounts_unbound in Hbound|].
    cbn [key_namespace] in Hgr. rewrite Hsub in Hbound. apply bound_to_group in Hbound.
    destruct (Hlogin _ _ Hgr Hbound) as [-> Hname]. split; [done|].
    rewrite Hr in Href. injection Href as <- <- <-. destruct Hrules as [[_ (r & Hro & <-)]|[? _]]; [|done].
    destruct (Hiso ORole _ _ Hro) as [Hadm Hmem]. cbn [key_name key_namespace] in Hadm, Hmem.
    destruct Hname as [Hname|[Ha Hname]]; [left; by rewrite Hmem in Hg|right; by rewrite Hadm in Hg].
  - intros (key & b & group & name & rules & Hb & Hbound & Href & (cr & Hcr & <-) & Hg).
    destruct (Hiso OClusterRoleBinding _ _ Hb) as [Hs|(n & g & Hgr & Hsub & Hr)]; [by apply service_accounts_unbound in Hbound|].
    rewrite Hsub in Hbound. apply bound_to_group in Hbound. destruct (Hlogin _ _ Hgr Hbound) as [-> Hname].
    rewrite Hr in Href. injection Href as <- <-. destruct (Hiso OClusterRole _ _ Hcr organization) as [Hadm Hmem].
    cbn [key_name] in Hadm, Hmem.
    destruct Hname as [Hname|[Ha Hname]]; [left; by rewrite Hmem in Hg|right; by rewrite Hadm in Hg].
Qed.
End login.
End passes.

(** ** Two Organizations, one pass each *)
Module TenantRun.
#[local] Instance org_libs : OrgLibs := SafetyRun.org_libs.
#[local] Instance dex_libs : DexLibs := SafetyRun.dex_libs.
#[local] Instance scim_libs : ScimLibs := SafetyRun.scim_libs.
#[local] Instance libs : OrgControllerLibs := SafetyRun.libs.
Definition tenant (name : string) : Organization :=
  mk_org (named name "") (mk_org_spec "" None "" "idp-admins" "") [].
Abbreviation create := (org_EnsureCreated 0 "example.com" Postgres "greenhouse" map_to_list).
Definition pass (org : Organization) (w : option tenant_world) : option tenant_world :=
  w ← w; snd <$> attempt org_serve (create org) w.
Abbreviation a_pass := (org_pass 0 "example.com" Postgres "greenhouse" map_to_list).
Lemma pass_reaches org w w' : char_in colon (GetName org) = false -> pass org (Some w) = Some w' -> a_pass w w'.
Proof.
  intros Hc Hp. cbn in Hp. destruct (attempt _ _ _) as [[r w1]|] eqn:Ha; [|done]. cbn in Hp.
  exists org, r. split; [done|]. left. assert (w1 = w') as <- by congruence.
  exact (exec_attempt org_step org_serve (create org) w r w1 (fun w X e x w' => org_serve_step X e w x w') Ha).
Qed.
(** The administrators of acme have their role and its binding. *)
Definition acme_set_up (w : tenant_world) : bool :=
  let key := mk_key "acme" "role:acme:admin" in
  bool_decide ((fun b => (rb_Subjects b, rb_RoleRef b)) <$> w_bindings (tw_cluster w) !! key =
    Some ([group_subject "role:acme:admin"], (rbacv1_GroupName, "Role", "role:acme:admin"))) &&
  bool_decide (role_Rules <$> w_roles (tw_cluster w) !! key = Some OrganizationAdminPolicyRules).
Lemma both_computed :
  match pass (tenant "umbrella") (pass (tenant "acme") (Some SafetyRun.fresh)) with
  | Some w => acme_set_up w
  | None => false
  end = true.
Proof. vm_compute. reflexivity. Qed.
Lemma both_reached : exists w, rtc a_pass SafetyRun.fresh w /\ acme_set_up w = true.
Proof.
  generalize both_computed. destruct (pass (tenant "acme") (Some SafetyRun.fresh)) as [w1|] eqn:H1; [|done].
  destruct (pass (tenant "umbrella") (Some w1)) as [w2|] eqn:H2; [|done]. intros H. exists w2. split; [|exact H].
  eapply rtc_l; [exact (pass_reaches (tenant "acme") _ _ eq_refl H1)|].
  apply rtc_once. exact (pass_reaches (tenant "umbrella") _ _ eq_refl H2).
Qed.
Definition create_team : request := mk_request "create" GroupName "teams" "".
Lemma acme_admins_may w upstream : acme_set_up w = true -> "role:acme:admin" ∈ LoginRun.groups upstream ->
  may_in (tw_cluster w) (LoginRun.groups upstream) "acme" create_team.
Proof.
  intros [Hb Hr]%andb_true_iff Hg. apply bool_decide_eq_true, fmap_Some in Hb as (b & Hb & Hb').
  apply bool_decide_eq_true, fmap_Some in Hr as (r & Hr & Hr'). injection Hb' as Hs Href.
  exists "role:acme:admin", b, rbacv1_GroupName, "Role", "role:acme:admin", OrganizationAdminPolicyRules.
  split; [exact Hb|]. split; [|split; [done|split; [left; split; [done|by exists r]|reflexivity]]].
  exists (group_subject "role:acme:admin"). rewrite <-Hs. by split; [left|].
Qed.
Abbreviation nobody_else := (fun (cpd : ClusterPluginDefinition) (H : cpd ∈ []) => match not_elem_of_nil _ H with end).
(** A user whose upstream groups are the text of the callback. *)
Definition user (upstream : list string) : Identity := mk_identity "u1" "ada" "ada@acme" "" upstream.
Definition callback (connData : string) : Identity * option error := (user [connData], None).
Definition refresh (before : Identity) : Identity * option error := (user [], Some (new_error "expired")).
Definition teams_of (namespace : string) : result (list Team) := Ok (if bool_decide (namespace = "acme") then [LoginRun.ops] else []).
Definition organizations (k : objkey) : result Organization :=
  if bool_decide (k = mk_key "" "acme") then Ok LoginRun.acme else Err (mk_error NotFound "not found").
Lemma acme_admitted teams team : teams_of "acme" = Ok teams -> team ∈ teams -> admitted_team [] team.
Proof. intros [= <-]. apply LoginRun.ops_admitted. Qed.
Lemma acme_logged_in connData :
  logged_in map_to_list "acme" callback refresh teams_of organizations [connData]
    (with_groups (LoginRun.groups [connData]) (user [connData])).
Proof.
  left. exists connData. split; [done|].
  rewrite (proj1 (identity_groups map_to_list (mk_oidc_connector "acme" false) callback refresh teams_of organizations connData (user []))).
  reflexivity.
Qed.

(** The administrator of acme may create Teams there, its members and those of umbrella
    may not. *)
Lemma tenants_isolated_witness : exists w, rtc a_pass SafetyRun.fresh w /\
  let may_create upstream namespace := may_in (tw_cluster w) (LoginRun.groups [upstream]) namespace create_team in
  may_create "idp-admins" "acme" /\ ~ may_create "idp-admins" "umbrella" /\ ~ may_create "idp-ops" "acme".
Proof.
  destruct both_reached as (w & Hw & Hset). exists w. split; [exact Hw|]. intros may_create.
  assert (forall upstream namespace, may_create upstream namespace ->
    namespace = "acme" /\ (grants OrganizationMemberPolicyRules create_team = true \/
      administers "acme" organizations [upstream] /\ grants OrganizationAdminPolicyRules create_team = true)) as H.
  { intros upstream namespace.
    apply (tenants_isolated 0 "example.com" Postgres "greenhouse" map_to_list map_to_list (fun _ => reflexivity _) []
      nobody_else "acme" callback refresh teams_of organizations acme_admitted [upstream] _ (mk_dex_world ∅ ∅) w
      namespace create_team Hw (acme_logged_in upstream)). }
  split; [|split].
  - apply acme_admins_may; [exact Hset|]. by apply (list_elem_of_lookup_2 _ 1).
  - by intros [? _]%H.
  - intros [_ [?|[(org & Ho & Hin) _]]]%H; [done|]. injection Ho as <-. by apply list_elem_of_singleton in Hin.
Defined.
End TenantRun.
