(* ===== verification/TeamController.v ===== *)
(** * TeamController: [internal/controller/team/team_controller.go]

    The controller of a Team lists the members of the Team's group at the identity
    provider and, for a support group, provides the ServiceAccount whose tokens the
    group may request.  Its calls: the Organization, the SCIM client ([Scim]), and the
    three kinds of objects it manages.  Recorder events, metrics and logs have no
    model; [wait.Jitter] is the parameter [requeueAfter]. *)
From S2P Require Import Prelude Effects Conditions Meta ApiTypes Lifecycle ClientUtil PluginTypes KubeConfig CoreTypes Organization Scim.
From Stdlib Require Import ZArith.

Definition SCIMAccessReadyCondition : string := "SCIMAccessReady".
Definition SCIMAPIUnavailableReason : string := "SCIMAPIUnavailable".
Definition SCIMAllMembersValidCondition : string := "SCIMAllMembersValid".
Definition team_exposedConditions : list string :=
  [ReadyCondition; SCIMAccessReadyCondition; SCIMAllMembersValidCondition].

(** ** Calls *)
Inductive teamE : Type -> Type :=
| TGetOrganization (k : objkey) : teamE (result Organization)
| TScim {X} (e : scimE X) : teamE X
| TServiceAccount {X} (e : kubeE ServiceAccount X) : teamE X
| TRole {X} (e : kubeE Role X) : teamE X
| TRoleBinding {X} (e : kubeE RoleBinding X) : teamE X
| TPanic : teamE Empty_set.

Section team.
Variable now : Z.
Variable requeueAfter : Z.
(** fuel of the pagination loop *)
Variable maxPages : nat.
Context {Libs : ScimLibs}.
(** [controllerutil.SetControllerReference]: the new owner references, or an error. *)
Variable SetControllerReference : Team -> ObjectMeta -> result (list OwnerReference).

Local Abbreviation P := (prog teamE).
Definition team_panic {A} : P A := PVis TPanic (fun e : Empty_set => match e with end).

(** Sets the owner of an object whose other fields are already changed. *)
Definition own {O} `{Object O} (team : Team) (o : O) : O * option error :=
  match SetControllerReference team (get_meta o) with
  | Err e => (o, Some e)
  | Ok owners => (set_meta (with_owners owners (get_meta o)) o, None)
  end.

Definition is_support_team (team : Team) : bool :=
  bool_decide (default "" (GetLabels team !! LabelKeySupportGroup) = "true").
Definition sa_name (team : Team) : string := GetName team +:+ "-sa".
Definition role_name (team : Team) : string := GetName team +:+ "-sa-token-request".
Definition sa_key (team : Team) : objkey := mk_key (GetNamespace team) (sa_name team).
Definition role_key (team : Team) : objkey := mk_key (GetNamespace team) (role_name team).

Definition mutate_sa (team : Team) (sa : ServiceAccount) : ServiceAccount * option error :=
  own team (SetLabels (<[LabelKeyOwnedBy := GetName team]> (GetLabels sa)) sa).
Definition reconcileSupportGroupServiceAccount (team : Team) : P (option error) :=
  '(_, (_, err)) ← translate (fun _ => TServiceAccount)
     (CreateOrPatch (mutate_sa team) (mk_sa (named (sa_name team) (GetNamespace team))));
  mret err.

Definition token_rule (team : Team) : PolicyRule :=
  mk_rule [""] ["serviceaccounts/token"] ["create"] [sa_name team].
Definition mutate_role (team : Team) (role : Role) : Role * option error :=
  own team (mk_role (role_meta role) [token_rule team]).
Definition reconcileSupportGroupRole (team : Team) : P (option error) :=
  '(_, (_, err)) ← translate (fun _ => TRole)
     (CreateOrPatch (mutate_role team) (mk_role (named (role_name team) (GetNamespace team)) []));
  mret err.

Definition support_subjects (team : Team) : list RbacSubject :=
  [mk_rbac_subject rbacv1_GroupName rbacv1_GroupKind ("support-group:" +:+ GetName team) "";
   mk_rbac_subject "" rbacv1_ServiceAccountKind (sa_name team) (GetNamespace team)].
Definition mutate_role_binding (team : Team) (rb : RoleBinding) : RoleBinding * option error :=
  own team (mk_role_binding (rb_meta rb) (rbacv1_GroupName, "Role", role_name team)
              (support_subjects team)).
Definition reconcileSupportGroupRoleBinding (team : Team) : P (option error) :=
  '(_, (_, err)) ← translate (fun _ => TRoleBinding)
     (CreateOrPatch (mutate_role_binding team)
        (mk_role_binding (named (role_name team) (GetNamespace team)) ("", "", "") []));
  mret err.

(** One of the three deletions of [ensureSupportGroupResourcesDeleted]. *)
Definition delete_if_found {O} `{Object O} (k : objkey) : prog (kubeE O) (option error) :=
  r ← trigger (KubeGet k);
  match r with
  | Ok o => err ← trigger (KubeDelete o); mret (ignore_not_found err)
  | Err e => mret (ignore_not_found (Some e))
  end.
Definition ensureSupportGroupResourcesDeleted (team : Team) : P (option error) :=
  err ← translate (fun _ => TRoleBinding) (delete_if_found (O := RoleBinding) (role_key team));
  match err with
  | Some e => mret (Some e)
  | None =>
      err ← translate (fun _ => TRole) (delete_if_found (O := Role) (role_key team));
      match err with
      | Some e => mret (Some e)
      | None => translate (fun _ => TServiceAccount) (delete_if_found (O := ServiceAccount) (sa_key team))
      end
  end.

(** ** Members *)
Definition user_of (resource : Resource) : User :=
  mk_user (res_UserName resource) (res_FirstName resource) (res_LastName resource) (PrimaryEmail resource).
Definition malformed_user (user : User) : bool :=
  bool_decide (user_ID user = "") || bool_decide (FirstName user = "") ||
  bool_decide (LastName user = "") || bool_decide (Email user = "").
(** The loop over the resources: users, malformed and inactive ones. *)
Definition sort_resource (s : list User * nat * nat) (resource : Resource) : list User * nat * nat :=
  let '(users, malformed, inactive) := s in
  let user := user_of resource in
  if malformed_user user then (users, S malformed, inactive)
  else if negb (ActiveUser resource) then (users, malformed, S inactive)
  else (users ++ [user], malformed, inactive).
Definition members_of (resources : list Resource) : list User * Condition :=
  let '(users, malformed, inactive) := fold_left sort_resource resources ([], 0, 0) in
  (users,
   if (0 <? inactive + malformed)%nat then
     FalseCondition now SCIMAllMembersValidCondition ""
       ("SCIM members with issues: " +:+ pretty.pretty inactive +:+ " inactive, " +:+
        pretty.pretty malformed +:+ " malformed")
   else TrueCondition now SCIMAllMembersValidCondition "" "").

Definition getUsersFromSCIM (c : scimClient) (mappedIDPGroup : string) :
    prog scimE (result (list User * Condition)) :=
  let opts := mk_query (UserFilterByGroupDisplayName mappedIDPGroup)
    (SetAttributes [AttrName; AttrEmails; AttrDisplayName; AttrActive]) "" InitialStartID in
  r ← GetUsers maxPages c (Some opts);
  mret (match r with Err e => Err e | Ok resources => Ok (members_of resources) end).

Definition createSCIMClient (namespace : string) (scimConfig : SCIMConfig) : prog scimE (result scimClient) :=
  r ← GreenhouseSCIMConfigToSCIMConfig scimConfig namespace;
  mret (match r with Err e => Err e | Ok clientConfig => NewSCIMClient clientConfig end).

(** ** The callbacks *)
Definition initTeamStatus (team : Team) : Team :=
  team_set_conditions (init_conditions now team_exposedConditions (team_conditions (team_Status team))) team.
Definition access_false (reason msg : string) (team : Team) : Team :=
  SetCondition now (FalseCondition now SCIMAccessReadyCondition reason msg) team.
Definition set_members (users : list User) (team : Team) : Team :=
  mk_team (team_meta team) (team_Spec team) (mk_team_status (team_conditions (team_Status team)) users).
Definition cb_err (err : option error) : cb_result := (ctrl_done, Failed, err).

(** The objects of a support group, then the end of a successful pass. *)
Definition reconcile_support_group (team : Team) : P (option error) :=
  if is_support_team team then
    err ← reconcileSupportGroupServiceAccount team;
    match err with
    | Some e => mret (Some e)
    | None =>
        err ← reconcileSupportGroupRole team;
        match err with
        | Some e => mret (Some e)
        | None => reconcileSupportGroupRoleBinding team
        end
    end
  else mret None.

Definition team_EnsureCreated (team : Team) : P (Team * cb_result) :=
  let team := initTeamStatus team in
  err ← (if negb (is_support_team team) then ensureSupportGroupResourcesDeleted team else mret None);
  match err with
  | Some e => mret (team, cb_failed e)
  | None =>
      o ← trigger (TGetOrganization (mk_key "" (GetNamespace team)));
      match o with
      | Err e => mret (team, cb_err (ignore_not_found (Some e)))
      | Ok organization =>
          if bool_decide (MappedIDPGroup (team_Spec team) = "") then mret (team, cb_ok)
          else
            let available := match GetConditionByType (org_conditions organization) SCIMAPIAvailableCondition with
                             | Some c => IsTrue c
                             | None => false
                             end in
            if negb available then
              mret (access_false SCIMAPIUnavailableReason "SCIM API in Organization is unavailable" team, cb_ok)
            else
              match GetSCIMConfig (org_Spec organization) with
              | None => mret (access_false SecretNotFoundReason "SCIM config is missing from organization" team, cb_ok)
              | Some scimConfig =>
                  c ← translate (fun _ => TScim) (createSCIMClient (GetNamespace team) scimConfig);
                  match c with
                  | Err e => mret (access_false SCIMConfigErrorReason (err_msg e) team, cb_failed e)
                  | Ok scimClient =>
                      u ← translate (fun _ => TScim) (getUsersFromSCIM scimClient (MappedIDPGroup (team_Spec team)));
                      match u with
                      | Err e => mret (access_false SCIMRequestFailedReason "" team, cb_failed e)
                      | Ok (users, membersValidCondition) =>
                          let team := SetCondition now (TrueCondition now SCIMAccessReadyCondition "" "")
                            (set_members users (SetCondition now membersValidCondition team)) in
                          err ← reconcile_support_group team;
                          match err with
                          | Some e => mret (team, cb_failed e)
                          | None => mret (team, (mk_ctrl_result false requeueAfter, Success, None))
                          end
                      end
                  end
              end
      end
  end.

Definition team_EnsureDeleted (team : Team) : P (Team * cb_result) := mret (team, cb_ok).
Definition team_EnsureSuspended (team : Team) : P (Team * (ctrl_result * option error)) :=
  mret (team, (ctrl_done, None)).

Definition team_computeReadyCondition (sc : StatusConditions) : option Condition :=
  readyCondition ← GetConditionByType sc ReadyCondition;
  access ← GetConditionByType sc SCIMAccessReadyCondition;
  Some (if IsFalse access
        then set_message "SCIM access not ready" (set_status ConditionFalse readyCondition)
        else set_message "ready" (set_status ConditionTrue readyCondition)).
Definition team_setConditions (team : Team) : P Team :=
  match team_computeReadyCondition (team_conditions (team_Status team)) with
  | None => team_panic
  | Some readyCondition => mret (SetCondition now readyCondition team)
  end.

Definition TeamController : Reconciler teamE Team :=
  mk_reconciler _ _ team_EnsureCreated team_EnsureDeleted team_EnsureSuspended.
Definition team_Reconcile `{FinalizerOps} (k : objkey) :=
  Reconcile now TeamController (Some team_setConditions) k.
End team.

(** Watches: the Teams of the cache an Organization concerns. *)
Definition listTeamsAsReconcileRequests (namespace : string) (cached : list Team) : list objkey :=
  key_of <$> List.filter (fun t => bool_decide (GetNamespace t = namespace)) cached.
Definition enqueueAllTeamsForOrganization (o : Organization) : list Team -> list objkey :=
  listTeamsAsReconcileRequests (GetName o).

(** ** Members follow the identity provider *)
Section members.
Variable now requeueAfter : Z.
Variable maxPages : nat.
Context {Libs : ScimLibs}.
Variable SetControllerReference : Team -> ObjectMeta -> result (list OwnerReference).

Definition is_member (r : Resource) : bool := negb (malformed_user (user_of r)) && ActiveUser r.
Lemma sort_resource_fold resources users m i :
  exists m' i', fold_left sort_resource resources (users, m, i) =
    (users ++ (user_of <$> List.filter is_member resources), m', i') /\
    m' + i' + length (List.filter is_member resources) = m + i + length resources.
Proof.
  revert users m i. induction resources as [|r l IH]; intros users m i; cbn.
  { exists m, i. rewrite app_nil_r. split; [done|lia]. }
  assert (is_member r = negb (malformed_user (user_of r)) && ActiveUser r) as -> by done.
  destruct (malformed_user (user_of r)); cbn [negb andb].
  { destruct (IH users (S m) i) as (m' & i' & -> & E). exists m', i'. split; [done|lia]. }
  destruct (ActiveUser r); cbn [negb].
  - destruct (IH (users ++ [user_of r]) m i) as (m' & i' & -> & E). exists m', i'.
    rewrite <-app_assoc. split; [done|cbn; lia].
  - destruct (IH users m (S i)) as (m' & i' & -> & E). exists m', i'. split; [done|lia].
Qed.
Lemma members_of_eq resources :
  (members_of now resources).1 = user_of <$> List.filter is_member resources /\
  CondType (members_of now resources).2 = SCIMAllMembersValidCondition /\
  (IsTrue (members_of now resources).2 = true <-> Forall (fun r => is_member r = true) resources).
Proof.
  unfold members_of. destruct (sort_resource_fold resources [] 0 0) as (m & i & -> & E). cbn [fst snd].
  rewrite app_nil_l. split; [done|]. split; [by case_match|].
  destruct (Nat.ltb_spec 0 (i + m)) as [Hlt|Hlt]; split; try done.
  - intros H. exfalso. assert (List.filter is_member resources = resources) as Hf; [|rewrite Hf in E; lia].
    clear E. induction H as [|r l Hr _ IH]; [done|]. cbn. by rewrite Hr, IH.
  - intros _. assert (length (List.filter is_member resources) = length resources) as Hl by lia.
    clear E Hlt. induction resources as [|r l IH]; [constructor|]. cbn in Hl.
    destruct (is_member r) eqn:Hr; cbn in Hl.
    + constructor; [done|]. apply IH. lia.
    + pose proof (List.filter_length_le is_member l). lia.
Qed.

(** An identity provider with a fixed directory; it, and every other call, may fail. *)
Variable server : string -> ResponseBody.
(** The pages that follow one another from the options [o]: [n] of them, holding [rs]. *)
Inductive pages : QueryOptions -> list Resource -> nat -> Prop :=
| pages_last o b :
    server (toQuery o) = b -> last_page (StartID o) (body_NextID b) = true ->
    pages o (body_Resources b) 1
| pages_more o b rs n :
    server (toQuery o) = b -> last_page (StartID o) (body_NextID b) = false ->
    pages (with_start (body_NextID b) o) rs n ->
    pages o (body_Resources b ++ rs) (S n).
Definition directory_scim X (e : scimE X) : X -> Prop :=
  match e in scimE X return X -> Prop with
  | SDo rq => fun x => match x with
      | Err _ => True
      | Ok (code, body) => code <> 200%Z \/
          match Unmarshal body with Err _ => True | Ok b => b = server (sr_query rq) end
      end
  | _ => fun _ => True
  end.
Definition directory (_ : unit) X (e : teamE X) : X -> unit -> Prop :=
  match e in teamE X return X -> unit -> Prop with
  | TScim e => fun x _ => directory_scim _ e x
  | _ => fun _ _ => True
  end.
Abbreviation dir_step := (fun (_ : unit) X (e : scimE X) x (_ : unit) => directory_scim X e x).
Lemma fetchPage_directory c path o w :
  wp dir_step (fetchPage c path o) (fun _ r => match r with
    | Err _ => True
    | Ok p => p = (body_Resources (server (toQuery o)), body_NextID (server (toQuery o)))
    end) w.
Proof.
  unfold fetchPage, doRequest. do 3 wp_step. do 2 wp_step. cbn in Hx.
  destruct x as [[code body]|e]; [|done].
  destruct (Unmarshal body) as [b|]; [|done]. destruct (Z.eqb_spec code 200) as [->|]; cbn; [|done].
  by destruct Hx as [?| ->].
Qed.
Lemma fetch_pages_directory fuel c path o acc w :
  wp dir_step (fetch_pages fuel c path o acc)
    (fun _ r => match r with
                | Err _ => True
                | Ok l => exists rs n, l = acc ++ rs /\ pages o rs n
                end) w.
Proof.
  revert o acc w. induction fuel as [|fuel IH]; intros o acc w; cbn [fetch_pages]; [by intros []|].
  wp_step. eapply wp_mono; [|apply fetchPage_directory]. intros w1 [[rs next]|e] Hp; [|by wp_step].
  injection Hp as -> ->. destruct (last_page _ _) eqn:Hl.
  - wp_step. eexists _, 1. split; [done|]. by apply pages_last.
  - eapply wp_mono; [|apply IH]. intros w2 [l|] H; [|done]. destruct H as (rs & n & -> & H).
    eexists _, (S n). rewrite <-app_assoc. split; [done|]. by apply pages_more.
Qed.

(** The query for the members of a group. *)
Definition member_query (group : string) : QueryOptions :=
  mk_query (UserFilterByGroupDisplayName group)
    (SetAttributes [AttrName; AttrEmails; AttrDisplayName; AttrActive]) "" InitialStartID.
Lemma getUsersFromSCIM_directory c group w :
  wp dir_step (getUsersFromSCIM now maxPages c group) (fun _ r => match r with
    | Err _ => True
    | Ok p => exists rs n, pages (member_query group) rs n /\ p = members_of now rs
    end) w.
Proof.
  unfold getUsersFromSCIM, GetUsers, fetchAllResources. wp_step.
  eapply wp_mono; [|apply fetch_pages_directory]. intros w1 [l|e] H; wp_step; [|done].
  destruct H as (rs & n & -> & H). by exists rs, n.
Qed.

(** The member list is the directory's. *)
Definition members_current (team : Team) : Prop :=
  exists rs n c, pages (member_query (MappedIDPGroup (team_Spec team))) rs n /\
    Members (team_Status team) = user_of <$> List.filter is_member rs /\
    GetConditionByType (GetConditions team) SCIMAllMembersValidCondition = Some c /\
    (IsTrue c = true <-> Forall (fun r => is_member r = true) rs).
Definition access (team : Team) : option Condition :=
  GetConditionByType (GetConditions team) SCIMAccessReadyCondition.

Lemma access_false_reported reason msg team : exists c,
  access (access_false now reason msg team) = Some c /\ IsFalse c = true.
Proof.
  unfold access, access_false. cbn [GetConditions SetCondition Team_runtime].
  cbn [team_conditions team_Status team_set_conditions]. rewrite get_SetConditions. by eexists.
Qed.
(** What a full read reports. *)
Lemma members_reported team rs n :
  pages (member_query (MappedIDPGroup (team_Spec team))) rs n ->
  let team' := SetCondition now (TrueCondition now SCIMAccessReadyCondition "" "")
    (set_members (members_of now rs).1 (SetCondition now (members_of now rs).2 (initTeamStatus now team))) in
  members_current team' /\ exists c, access team' = Some c /\ IsTrue c = true.
Proof.
  intros Hp. pose proof (members_of_eq rs) as (Hus & Ht & Hv). cbv zeta. split.
  - unfold members_current. cbn [GetConditions SetCondition Team_runtime].
    cbn [team_conditions team_Status team_set_conditions set_members Members team_Spec initTeamStatus].
    rewrite !get_SetConditions, Ht. cbn.
    eexists rs, n, _. split_and!; [done..|exact Hv].
  - unfold access. cbn [GetConditions SetCondition Team_runtime].
    cbn [team_conditions team_Status team_set_conditions]. rewrite get_SetConditions. by eexists.
Qed.
Ltac pass_ends :=
  wp_step; unfold cb_failed, cb_ok, cb_err; split; [done|]; split; [done|]; right; split; [done|].

(** C15: the members of a Team.  [EnsureCreated] never touches the metadata or the spec.
    It changes the members only after a full read of the group: then they are the
    active, complete users of all pages, in order, SCIM access is reported and the
    members count as valid exactly when nobody was left out.  In every other case,
    with or without an error, the members stay, and SCIM access is reported as failed
    or as it was reported before. *)
Theorem team_EnsureCreated_members team :
  wp directory (team_EnsureCreated now requeueAfter maxPages SetControllerReference team)
    (fun _ '(team', (res, outcome, err)) =>
       team_meta team' = team_meta team /\ team_Spec team' = team_Spec team /\
       (members_current team' /\ (exists c, access team' = Some c /\ IsTrue c = true) \/
        Members (team_Status team') = Members (team_Status team) /\
        (access team' = access (initTeamStatus now team) \/
         exists c, access team' = Some c /\ IsFalse c = true))) tt.
Proof.
  unfold team_EnsureCreated. wp_step. wp_skip. case_match; [pass_ends; by left|].
  do 2 wp_step. destruct x as [organization|]; [|pass_ends; by left].
  case_bool_decide; [pass_ends; by left|].
  destruct (negb _); [pass_ends; right; apply access_false_reported|].
  destruct (GetSCIMConfig _); [|pass_ends; right; apply access_false_reported].
  wp_step. wp_skip. case_match; [|pass_ends; right; apply access_false_reported].
  wp_step. apply wp_translate. eapply wp_mono; [|apply getUsersFromSCIM_directory].
  intros w1 [[users c]|e] Hu; [|pass_ends; right; apply access_false_reported].
  destruct Hu as (rs & n & Hp & Hm). pose proof (members_reported team rs n Hp) as Hr.
  rewrite <-Hm in Hr. cbn [fst snd] in Hr.
  wp_step. wp_skip. case_match; wp_step; unfold cb_failed; (split; [done|]; split; [done|]; by left).
Qed.
End members.

(** ** The objects of a support group *)
Record team_world := mk_team_world {
  tw_accounts : gmap objkey ServiceAccount;
  tw_roles : gmap objkey Role;
  tw_bindings : gmap objkey RoleBinding }.

Section support_group.
Variable now requeueAfter : Z.
Variable maxPages : nat.
Context {Libs : ScimLibs}.
Variable SetControllerReference : Team -> ObjectMeta -> result (list OwnerReference).
(** What the server may return for the object sent: it keeps what was sent. *)
Definition accepts_account (o o' : ServiceAccount) : Prop := GetLabels o' = GetLabels o.
Definition accepts_role (o o' : Role) : Prop := role_Rules o' = role_Rules o.
Definition accepts_binding (o o' : RoleBinding) : Prop :=
  rb_RoleRef o' = rb_RoleRef o /\ rb_Subjects o' = rb_Subjects o.

Definition team_step (w : team_world) X (e : teamE X) : X -> team_world -> Prop :=
  match e in teamE X return X -> team_world -> Prop with
  | TServiceAccount e => fun x w' => exists s,
      kube_step accepts_account (tw_accounts w) _ e x s /\ w' = mk_team_world s (tw_roles w) (tw_bindings w)
  | TRole e => fun x w' => exists s,
      kube_step accepts_role (tw_roles w) _ e x s /\ w' = mk_team_world (tw_accounts w) s (tw_bindings w)
  | TRoleBinding e => fun x w' => exists s,
      kube_step accepts_binding (tw_bindings w) _ e x s /\ w' = mk_team_world (tw_accounts w) (tw_roles w) s
  | _ => fun _ w' => w' = w
  end.
Lemma account_lens {A} (p : prog (kubeE ServiceAccount) A) Q w :
  wp (kube_step accepts_account) p
    (fun s a => Q (mk_team_world s (tw_roles w) (tw_bindings w)) a) (tw_accounts w) ->
  wp team_step (translate (fun _ => TServiceAccount) p) Q w.
Proof.
  intros H. apply wp_translate.
  by eapply (wp_lens _ _ tw_accounts (fun s w => mk_team_world s (tw_roles w) (tw_bindings w)));
    [..|exact H]; try by intros []; try by intros ? []; try by intros ? ? [].
Qed.
Lemma role_lens {A} (p : prog (kubeE Role) A) Q w :
  wp (kube_step accepts_role) p
    (fun s a => Q (mk_team_world (tw_accounts w) s (tw_bindings w)) a) (tw_roles w) ->
  wp team_step (translate (fun _ => TRole) p) Q w.
Proof.
  intros H. apply wp_translate.
  by eapply (wp_lens _ _ tw_roles (fun s w => mk_team_world (tw_accounts w) s (tw_bindings w)));
    [..|exact H]; try by intros []; try by intros ? []; try by intros ? ? [].
Qed.
Lemma binding_lens {A} (p : prog (kubeE RoleBinding) A) Q w :
  wp (kube_step accepts_binding) p
    (fun s a => Q (mk_team_world (tw_accounts w) (tw_roles w) s) a) (tw_bindings w) ->
  wp team_step (translate (fun _ => TRoleBinding) p) Q w.
Proof.
  intros H. apply wp_translate.
  by eapply (wp_lens _ _ tw_bindings (fun s w => mk_team_world (tw_accounts w) (tw_roles w) s));
    [..|exact H]; try by intros []; try by intros ? []; try by intros ? ? [].
Qed.

(** The deletion of one object of a store. *)
Lemma delete_if_found_gone {O} `{Object O} (accepts : O -> O -> Prop) k st :
  wp (kube_step accepts) (delete_if_found k)
    (fun st' err => (st' = st \/ st' = delete k st) /\ (err = None -> st' !! k = None)) st.
Proof.
  unfold delete_if_found. do 2 wp_step. destruct Hx as [-> Hx]. destruct x as [o|e].
  - destruct Hx as [Ho <-]. do 2 wp_step. cbn in Hx. wp_step. destruct x as [e|].
    + destruct Hx as [-> Hx]. split; [by left|]. unfold ignore_not_found. cbn.
      case_bool_decide; [by auto|done].
    + subst. split; [by right|]. intros _. by rewrite lookup_delete_eq.
  - wp_step. split; [by left|]. unfold ignore_not_found. cbn. case_bool_decide; [by auto|done].
Qed.

(** The three objects, and nothing else, are what a pass writes. *)
Definition others_kept (team : Team) (w w' : team_world) : Prop :=
  (forall k, k <> sa_key team -> tw_accounts w' !! k = tw_accounts w !! k) /\
  (forall k, k <> role_key team -> tw_roles w' !! k = tw_roles w !! k) /\
  (forall k, k <> role_key team -> tw_bindings w' !! k = tw_bindings w !! k).
Definition objects_absent (team : Team) (w : team_world) : Prop :=
  tw_accounts w !! sa_key team = None /\ tw_roles w !! role_key team = None /\
  tw_bindings w !! role_key team = None.
Definition objects_provided (team : Team) (w : team_world) : Prop :=
  (exists sa, tw_accounts w !! sa_key team = Some sa /\
     GetLabels sa !! LabelKeyOwnedBy = Some (GetName team)) /\
  (exists role, tw_roles w !! role_key team = Some role /\ role_Rules role = [token_rule team]) /\
  (exists rb, tw_bindings w !! role_key team = Some rb /\
     rb_RoleRef rb = (rbacv1_GroupName, "Role", role_name team) /\
     rb_Subjects rb = support_subjects team).

Lemma kept_or_deleted {O} (st st' : gmap objkey O) k :
  st' = st \/ st' = delete k st -> forall k', k' <> k -> st' !! k' = st !! k'.
Proof. intros [->| ->] k' Hk; [done|]. by rewrite lookup_delete_ne. Qed.
Lemma ensureDeleted_absent team w :
  wp team_step (ensureSupportGroupResourcesDeleted team)
    (fun w' err => others_kept team w w' /\ (err = None -> objects_absent team w')) w.
Proof.
  unfold ensureSupportGroupResourcesDeleted. wp_step. apply binding_lens.
  eapply wp_mono; [|apply delete_if_found_gone]. intros s1 err1 [Hk1 Hd1].
  pose proof (kept_or_deleted _ _ _ Hk1) as Ho1.
  destruct err1; [wp_step; by split|]. specialize (Hd1 eq_refl).
  wp_step. apply role_lens. eapply wp_mono; [|apply delete_if_found_gone].
  intros s2 err2 [Hk2 Hd2].
  pose proof (kept_or_deleted _ _ _ Hk2) as Ho2. destruct err2; [wp_step; by split|]. specialize (Hd2 eq_refl).
  apply account_lens. eapply wp_mono; [|apply delete_if_found_gone].
  intros s3 err3 [Hk3 Hd3].
  pose proof (kept_or_deleted _ _ _ Hk3) as Ho3. split; [by split|]. intros ->. by split; [apply Hd3|].
Qed.

Lemma own_label team o : (own SetControllerReference team o).2 = None ->
  GetLabels (own SetControllerReference team (O := ServiceAccount) o).1 = GetLabels o.
Proof. unfold own. by case_match. Qed.
Lemma mutate_account_ensures team (o : ServiceAccount) :
  (mutate_sa SetControllerReference team o).2 = None ->
  GetLabels (mutate_sa SetControllerReference team o).1 !! LabelKeyOwnedBy = Some (GetName team).
Proof.
  unfold mutate_sa. intros H. rewrite own_label by done. apply lookup_insert_eq.
Qed.
Lemma mutate_role_ensures team (o : Role) :
  role_Rules (mutate_role SetControllerReference team o).1 = [token_rule team].
Proof. unfold mutate_role, own. by case_match. Qed.
Lemma mutate_binding_ensures team (o : RoleBinding) :
  rb_RoleRef (mutate_role_binding SetControllerReference team o).1 = (rbacv1_GroupName, "Role", role_name team) /\
  rb_Subjects (mutate_role_binding SetControllerReference team o).1 = support_subjects team.
Proof. unfold mutate_role_binding, own. by case_match. Qed.
Lemma own_key {O} `{Object O} `{!ObjectLaws O} team (o : O) :
  key_of (own SetControllerReference team o).1 = key_of o.
Proof.
  unfold own. case_match; [|done]. unfold key_of, GetName, GetNamespace. cbn. by rewrite get_set_meta.
Qed.
Lemma mutate_account_key team o : key_of (mutate_sa SetControllerReference team o).1 = key_of o.
Proof. unfold mutate_sa. rewrite own_key. by apply key_of_SetLabels. Qed.
Lemma mutate_role_key team o : key_of (mutate_role SetControllerReference team o).1 = key_of o.
Proof. unfold mutate_role. by rewrite own_key. Qed.
Lemma mutate_binding_key team o :
  key_of (mutate_role_binding SetControllerReference team o).1 = key_of o.
Proof. unfold mutate_role_binding. by rewrite own_key. Qed.

Lemma reconcile_objects_provided team w :
  wp team_step (reconcile_support_group SetControllerReference team)
    (fun w' err => others_kept team w w' /\
       if is_support_team team then err = None -> objects_provided team w' else w' = w) w.
Proof.
  unfold reconcile_support_group. destruct (is_support_team team); [|by wp_step].
  unfold reconcileSupportGroupServiceAccount, reconcileSupportGroupRole, reconcileSupportGroupRoleBinding.
  wp_step. wp_step. apply account_lens.
  eapply wp_mono; [|apply (CreateOrPatch_ensures accepts_account (mutate_sa SetControllerReference team)
    (mutate_account_key team)
    (fun o => GetLabels o !! LabelKeyOwnedBy = Some (GetName team)));
    [apply mutate_account_ensures|by intros o o' ->]].
  intros s1 [o1 [r1 err1]] [Hk1 Hp1]; cbn [snd] in Hp1. wp_step.
  destruct err1; [wp_step; by split|]. specialize (Hp1 eq_refl).
  wp_step. wp_step. apply role_lens.
  eapply wp_mono; [|apply (CreateOrPatch_ensures accepts_role (mutate_role SetControllerReference team)
    (mutate_role_key team)
    (fun o => role_Rules o = [token_rule team]));
    [by intros; apply mutate_role_ensures|by intros o o' ->]].
  intros s2 [o2 [r2 err2]] [Hk2 Hp2]; cbn [snd] in Hp2. wp_step.
  destruct err2; [wp_step; by split|]. specialize (Hp2 eq_refl).
  wp_step. apply binding_lens.
  eapply wp_mono; [|apply (CreateOrPatch_ensures accepts_binding (mutate_role_binding SetControllerReference team)
    (mutate_binding_key team)
    (fun o => rb_RoleRef o = (rbacv1_GroupName, "Role", role_name team) /\
              rb_Subjects o = support_subjects team));
    [by intros; apply mutate_binding_ensures|by intros o o' [-> ->]]].
  intros s3 [o3 [r3 err3]] [Hk3 Hp3]; cbn [snd] in Hp3. wp_step.
  split; [by split|]. intros ->. by split; [|split; [|apply Hp3]].
Qed.

Lemma others_kept_refl team w : others_kept team w w.
Proof. by split_and!. Qed.
Lemma others_kept_trans team w1 w2 w3 :
  others_kept team w1 w2 -> others_kept team w2 w3 -> others_kept team w1 w3.
Proof.
  intros (Ha & Hb & Hc) (Ha' & Hb' & Hc'). split_and!; intros k Hk.
  - by rewrite Ha', Ha.
  - by rewrite Hb', Hb.
  - by rewrite Hc', Hc.
Qed.
Lemma not_reported reason msg team : ~ exists c,
  access (access_false now reason msg team) = Some c /\ IsTrue c = true.
Proof.
  destruct (access_false_reported now reason msg team) as (c & Hc & Hf).
  intros (c' & Hc' & Ht). rewrite Hc in Hc'. simplify_eq. unfold IsTrue, IsFalse in *.
  apply bool_decide_eq_true in Ht, Hf. by rewrite Ht in Hf.
Qed.
Lemma scim_idle {A} (p : prog scimE A) (Q : team_world -> A -> Prop) w :
  (forall a, Q w a) -> wp team_step (translate (fun _ => TScim) p) Q w.
Proof.
  intros HQ. apply wp_translate. eapply wp_mono; [|apply (wp_inv _ p (fun w' => w' = w)); [|done]].
  - intros w' a ->. apply HQ.
  - intros w1 X e x w2 -> H. exact H.
Qed.

(** After the clean-up. *)
Definition cleaned_up (team : Team) (w w' : team_world) : Prop :=
  others_kept team w w' /\ (is_support_team team = false -> objects_absent team w').
Lemma clean_up team w :
  wp team_step (if negb (is_support_team team) then ensureSupportGroupResourcesDeleted team else mret None)
    (fun w' err => others_kept team w w' /\ (err = None -> cleaned_up team w w')) w.
Proof.
  destruct (is_support_team team) eqn:Hs; cbn [negb].
  - wp_step. split; [apply others_kept_refl|]. intros _. split; [apply others_kept_refl|congruence].
  - eapply wp_mono; [|apply ensureDeleted_absent]. intros w' err [Hk Ha]. split; [done|].
    intros He. split; auto.
Qed.
Ltac idle_pass := wp_step; unfold cb_failed, cb_err, cb_ok; split; [done|]; split; [by intros ??; simplify_eq; auto|].

(** The objects of a support group.  A pass over a Team writes at most its own
    ServiceAccount, Role and RoleBinding.  Without the support-group label a pass that
    returns no error leaves none of the three, whoever created them; with the label, a
    pass that succeeds and reaches the identity provider leaves exactly the granted
    rule (tokens for this one account) bound to the group and the account. *)
Theorem team_support_group_objects team w :
  wp team_step (team_EnsureCreated now requeueAfter maxPages SetControllerReference team)
    (fun w' '(team', (res, outcome, err)) =>
       others_kept team w w' /\
       (is_support_team team = false -> err = None -> objects_absent team w') /\
       (is_support_team team = true -> MappedIDPGroup (team_Spec team) <> "" -> outcome = Success ->
        (exists c, access team' = Some c /\ IsTrue c = true) -> objects_provided team w')) w.
Proof.
  unfold team_EnsureCreated. wp_step.
  eapply wp_mono; [|apply (clean_up team)]. intros w1 err [Hk Hc]. destruct err.
  { idle_pass. done. }
  destruct (Hc eq_refl) as [_ Ha]. do 2 wp_step. cbn in Hx. subst.
  destruct x as [organization|e]; [|idle_pass; done].
  destruct (bool_decide_reflect (MappedIDPGroup (team_Spec (initTeamStatus now team)) = "")); [idle_pass; done|].
  destruct (negb _); [idle_pass; by intros _ _ _ []%not_reported|].
  destruct (GetSCIMConfig _); [|idle_pass; by intros _ _ _ []%not_reported].
  wp_step. apply scim_idle. intros [c|e]; [|idle_pass; done].
  wp_step. apply scim_idle. intros [[users cond]|e]; [|idle_pass; done].
  wp_step. eapply wp_mono; [|apply reconcile_objects_provided].
  intros w2 err [Hk2 Hp]. pose proof (others_kept_trans team _ _ _ Hk Hk2) as Hkk.
  change (is_support_team _) with (is_support_team team) in Hp.
  assert (is_support_team team = false -> objects_absent team w2) as Ha2
    by (intros Hs; rewrite Hs in Hp; subst; auto).
  destruct err; wp_step; unfold cb_failed; (split; [done|]; split; [auto|]); intros Hs ?; [done|].
  rewrite Hs in Hp. intros _ _. by apply Hp.
Qed.
End support_group.
