(* ===== verification/ClusterKubeconfig.v ===== *)
(** * ClusterKubeconfig: the kubeconfig users download
      ([internal/controller/cluster/kubeconfig_controller.go],
       [api/v1alpha1/clusterkubeconfig_types.go])

    For every Cluster a ClusterKubeconfig of the same name holds the server and the
    authority of the Cluster's Secret and the OIDC client of the Organization, unless the
    Cluster overrides it.  The status is computed by [calculateKubeconfigStatus] and
    written by [PatchStatus], which compares with the object as it is when it is called.

    Parameters: [clientcmd.Load], the first entry of a Go map iteration, the JSON of the
    override annotation, and the kind in the type metadata of a Cluster that was read. *)
From S2P Require Import Prelude Effects Conditions Meta ApiTypes Lifecycle ClientUtil PluginTypes KubeConfig ClusterController Organization Scim.
From Stdlib Require Import ZArith.

Definition KubeconfigCreatedCondition : string := "Created".
Definition KubeconfigReconcileFailedCondition : string := "ReconcileFailed".
Definition KubeconfigReadyCondition : string := "Ready".
Definition ExposedKubeconfigConditions : list string :=
  [KubeconfigCreatedCondition; KubeconfigReconcileFailedCondition; KubeconfigReadyCondition].

(** ** The resource *)
Record ClusterKubeconfigClusterItem := mk_ck_cluster {
  ckc_Name : string; ckc_Server : string; ckc_CertificateAuthorityData : string }.
#[export] Instance ck_cluster_eq_dec : EqDecision ClusterKubeconfigClusterItem.
Proof. solve_decision. Defined.
Record ClusterKubeconfigAuthInfoItem := mk_ck_auth {
  cka_Name : string; cka_ProviderName : string; cka_ProviderConfig : strmap;
  cka_ClientCertificateData : string; cka_ClientKeyData : string }.
#[export] Instance ck_auth_eq_dec : EqDecision ClusterKubeconfigAuthInfoItem.
Proof. solve_decision. Defined.
Record ClusterKubeconfigContextItem := mk_ck_context {
  ckx_Name : string; ckx_Cluster : string; ckx_AuthInfo : string; ckx_Namespace : string }.
#[export] Instance ck_context_eq_dec : EqDecision ClusterKubeconfigContextItem.
Proof. solve_decision. Defined.
Record ClusterKubeconfigData := mk_ck_data {
  ckd_Kind : string; ckd_APIVersion : string;
  ckd_Clusters : list ClusterKubeconfigClusterItem;
  ckd_AuthInfo : list ClusterKubeconfigAuthInfoItem;
  ckd_Contexts : list ClusterKubeconfigContextItem;
  ckd_CurrentContext : string }.
#[export] Instance ck_data_eq_dec : EqDecision ClusterKubeconfigData.
Proof. solve_decision. Defined.
Record ClusterKubeconfig := mk_ck {
  ck_meta : ObjectMeta; ck_Kubeconfig : ClusterKubeconfigData; ck_conditions : StatusConditions }.
#[export] Instance ck_eq_dec : EqDecision ClusterKubeconfig.
Proof. solve_decision. Defined.
#[export] Instance ck_object : Object ClusterKubeconfig := {|
  get_meta := ck_meta; set_meta m o := mk_ck m (ck_Kubeconfig o) (ck_conditions o) |}.
#[export] Instance ck_object_laws : ObjectLaws ClusterKubeconfig.
Proof. by split; intros; repeat match goal with o : ClusterKubeconfig |- _ => destruct o end. Qed.
Definition ck_set_conditions (sc : StatusConditions) (o : ClusterKubeconfig) : ClusterKubeconfig :=
  mk_ck (ck_meta o) (ck_Kubeconfig o) sc.

(** ** Calls and parameters *)
Inductive kubeconfigE : Type -> Type :=
| KGetCluster (k : objkey) : kubeconfigE (result Cluster)
| KGetOrganization (k : objkey) : kubeconfigE (result Organization)
| KGetNamespace (k : objkey) : kubeconfigE (option error)
| KListClusters (namespace : string) : kubeconfigE (result (list Cluster))
| KSecrets {X} (e : scimE X) : kubeconfigE X
| KKubeconfig {X} (e : kubeE ClusterKubeconfig X) : kubeconfigE X.
Class KubeconfigLibs := {
  clientcmd_Load : string -> result ApiConfig;
  (** [for _, v := range m { clusterCfg = v; break }] *)
  first_cluster : gmap string ApiCluster -> option ApiCluster;
  (** the references of the override annotation *)
  Unmarshal_override : string -> result (option SecretKeyReference * option SecretKeyReference)
}.

(** ** The status *)
Definition isConfigured (ck : ClusterKubeconfig) : bool :=
  let d := ck_Kubeconfig ck in
  negb (bool_decide (ckd_Clusters d = [])) && negb (bool_decide (ckd_AuthInfo d = [])) &&
  (negb (bool_decide (ckd_Contexts d = [])) && negb (bool_decide (ckd_CurrentContext d = ""))).
Definition calculateKubeconfigStatus (now : Z) (ck : ClusterKubeconfig) : StatusConditions :=
  let status := ck_conditions ck in
  let status := if bool_decide (status = [])
                then SetConditions now status [TrueCondition now KubeconfigCreatedCondition "NewCreation" ""]
                else status in
  let status := init_conditions now ExposedKubeconfigConditions status in
  let failed := match GetConditionByType status KubeconfigReconcileFailedCondition with
                | Some c => IsTrue c | None => false end in
  if isConfigured ck && negb failed then
    let status := SetConditions now status [TrueCondition now KubeconfigReadyCondition "Complete" ""] in
    let status := SetConditions now status [FalseCondition now KubeconfigReconcileFailedCondition "ReadyState" ""] in
    SetConditions now status [FalseCondition now KubeconfigCreatedCondition "ReadyState" ""]
  else if failed then SetConditions now status [FalseCondition now KubeconfigReadyCondition "ReconcileFailed" ""]
  else SetConditions now status [FalseCondition now KubeconfigReadyCondition "Incomplete" ""].

Section controller.
Context {Libs : KubeconfigLibs} {HScim : ScimLibs}.
Variable now : Z.
(** [cluster.Kind] *)
Variable ClusterKind : string.
Local Abbreviation P := (prog kubeconfigE).

Definition set_condition_and_patch (c : Condition) (kubeconfig : ClusterKubeconfig) :
    P (ClusterKubeconfig * (OperationResult * option error)) :=
  let kubeconfig := ck_set_conditions (SetConditions now (ck_conditions kubeconfig) [c]) kubeconfig in
  translate (fun _ => KKubeconfig)
    (PatchStatus (fun kc => (ck_set_conditions (calculateKubeconfigStatus now kc) kc, None)) kubeconfig).
Definition report_failure (reason message : string) (kubeconfig : ClusterKubeconfig) : P unit :=
  _ ← set_condition_and_patch (TrueCondition now KubeconfigReconcileFailedCondition reason message) kubeconfig;
  mret tt.

(** ** The OIDC client *)
Record OIDCInfo := mk_oidc_info { ClientID : string; ClientSecret : string; IssuerURL : string }.
Definition oidcOverrideAnnotation : string := "greenhouse.sap/oidc-override".
Definition get_key (namespace : string) (ref : SecretKeyReference) : P (result string) :=
  translate (fun _ => KSecrets) (GetSecretKeyFromSecretKeyReference namespace ref).
(** A reference of the override, when it is complete. *)
Definition usable_ref (ref : option SecretKeyReference) : option SecretKeyReference :=
  match ref with
  | Some r => if negb (bool_decide (skr_Name r = "")) && negb (bool_decide (skr_Key r = "")) then Some r else None
  | None => None
  end.
Definition override_value (orgName : string) (ref : option SecretKeyReference) (current : string) : P (result string) :=
  match usable_ref ref with
  | Some r => get_key orgName r
  | None => mret (Ok current)
  end.
Definition apply_override (orgName raw : string) (oidc : OIDCInfo) : P (result OIDCInfo) :=
  match Unmarshal_override raw with
  | Err e => mret (Err e)
  | Ok (idRef, secretRef) =>
      id ← override_value orgName idRef (ClientID oidc);
      match id with
      | Err e => mret (Err e)
      | Ok id =>
          secret ← override_value orgName secretRef (ClientSecret oidc);
          mret (match secret with
                | Err e => Err e
                | Ok secret => Ok (mk_oidc_info id secret (IssuerURL oidc))
                end)
      end
  end.
Definition getOIDCInfo (orgName : string) (cluster : Cluster) : P (result OIDCInfo) :=
  r ← trigger (KGetOrganization (mk_key "" orgName));
  match r with
  | Err e => mret (Err e)
  | Ok org =>
      match match org_Authentication (org_Spec org) with Some a => auth_OIDCConfig a | None => None end with
      | None => mret (Err (new_error "no oidc config found"))
      | Some cfg =>
          clientID ← get_key orgName (ClientIDReference cfg);
          match clientID with
          | Err e => mret (Err e)
          | Ok clientID =>
              clientSecret ← get_key orgName (ClientSecretReference cfg);
              match clientSecret with
              | Err e => mret (Err e)
              | Ok clientSecret =>
                  let oidc := mk_oidc_info clientID clientSecret (oidc_Issuer cfg) in
                  let raw := default "" (GetAnnotations cluster !! oidcOverrideAnnotation) in
                  if negb (bool_decide (raw = "")) then apply_override orgName raw oidc else mret (Ok oidc)
              end
          end
      end
  end.

(** ** The pass *)
Definition oidc_user (cluster : Cluster) : string := "oidc@" +:+ GetName cluster.
Definition initial_kubeconfig (cluster : Cluster) : ClusterKubeconfig :=
  mk_ck (with_owners [mk_ref ClusterKind (GetName cluster) (om_uid (cluster_meta cluster)) false]
           (named (GetName cluster) (GetNamespace cluster)))
    (mk_ck_data "Config" "v1" [] []
       [mk_ck_context (GetName cluster) (GetName cluster) (oidc_user cluster) "default"] (GetName cluster)) [].
(** The existing ClusterKubeconfig or a new one; [Err]: the pass fails. *)
Definition get_or_create (k : objkey) (cluster : Cluster) : P (result ClusterKubeconfig) :=
  r ← trigger (KKubeconfig (KubeGet k));
  match r with
  | Ok kubeconfig => mret (Ok kubeconfig)
  | Err e =>
      if negb (is_not_found (Some e)) then mret (Err e)
      else
        r ← trigger (KKubeconfig (KubeCreate (initial_kubeconfig cluster)));
        mret (match r with
              | Ok kubeconfig => Ok kubeconfig
              | Err e => if is_already_exists (Some e) then Ok (initial_kubeconfig cluster) else Err e
              end)
  end.
Definition mutate_kubeconfig (cluster : Cluster) (oidc : OIDCInfo) (clusterCfg : ApiCluster)
    (kubeconfig : ClusterKubeconfig) : ClusterKubeconfig * option error :=
  let d := ck_Kubeconfig kubeconfig in
  (mk_ck (with_labels (GetLabels cluster) (ck_meta kubeconfig))
     (mk_ck_data (ckd_Kind d) (ckd_APIVersion d)
        [mk_ck_cluster (GetName cluster) (ac_Server clusterCfg) (ac_CertificateAuthorityData clusterCfg)]
        [mk_ck_auth (oidc_user cluster) "oidc"
           {["client-id" := ClientID oidc; "client-secret" := ClientSecret oidc; "idp-issuer-url" := IssuerURL oidc]} "" ""]
        (ckd_Contexts d) (ckd_CurrentContext d)) (ck_conditions kubeconfig), None).
(** What the Secret of the Cluster says, or why not. *)
Definition cluster_data (k : objkey) : P (ApiCluster + string * string) :=
  r ← trigger (KSecrets (SGetSecret k));
  mret (match r with
        | Err e => inr ("SecretDataError", err_msg e)
        | Ok secret =>
            let rootKubeCfg := secret_value secret GreenHouseKubeConfigKey in
            if bool_decide (rootKubeCfg = "")
            then inr ("KubeconfigMissing", "secret data key greenhousekubeconfig missing or empty")
            else match clientcmd_Load rootKubeCfg with
                 | Err e => inr ("KubeconfigLoadError", err_msg e)
                 | Ok kubeCfg =>
                     match first_cluster (api_Clusters kubeCfg) with
                     | None => inr ("KubeconfigInvalid", "no clusters found in kubeconfig")
                     | Some clusterCfg => inl clusterCfg
                     end
                 end
        end).
Definition write_and_report (cluster : Cluster) (oidc : OIDCInfo) (clusterCfg : ApiCluster)
    (kubeconfig : ClusterKubeconfig) : P (option error) :=
  '(kubeconfig, (_, err)) ← translate (fun _ => KKubeconfig)
     (CreateOrPatch (mutate_kubeconfig cluster oidc clusterCfg) kubeconfig);
  match err with
  | Some e => _ ← report_failure "PatchError" (err_msg e) kubeconfig; mret (Some e)
  | None =>
      _ ← set_condition_and_patch (FalseCondition now KubeconfigReconcileFailedCondition "NoError" "") kubeconfig;
      mret None
  end.
Definition kubeconfig_Reconcile (k : objkey) : P (option error) :=
  r ← trigger (KGetCluster k);
  match r with
  | Err e => mret (ignore_not_found (Some e))
  | Ok cluster =>
      if bool_decide (GetDeletionTimestamp cluster <> None) then mret None
      else
        r ← get_or_create k cluster;
        match r with
        | Err e => mret (Some e)
        | Ok kubeconfig =>
            oidc ← getOIDCInfo (GetNamespace cluster) cluster;
            match oidc with
            | Err e => _ ← report_failure "OIDCInfoError" (err_msg e) kubeconfig; mret None
            | Ok oidc =>
                r ← cluster_data k;
                match r with
                | inr (reason, message) => _ ← report_failure reason message kubeconfig; mret None
                | inl clusterCfg => write_and_report cluster oidc clusterCfg kubeconfig
                end
            end
        end
  end.

(** ** The watches *)
Definition sameNameResource {O} `{Object O} (o : O) : list objkey := [key_of o].
Definition clusterSecretToCluster (o : option Secret) : list objkey :=
  match o with
  | Some secret => if bool_decide (secret_Type secret = SecretTypeKubeConfig) then [key_of secret] else []
  | None => []
  end.
Definition clusters_of (namespace : string) : P (list objkey) :=
  r ← trigger (KListClusters namespace);
  mret (match r with Err _ => [] | Ok items => key_of <$> items end).
Definition organizationToClusters (org : Organization) : P (list objkey) :=
  err ← trigger (KGetNamespace (mk_key "" (GetName org)));
  match err with Some _ => mret [] | None => clusters_of (GetName org) end.
Definition organizationSecretToClusters (o : Secret) : P (list objkey) := clusters_of (GetNamespace o).
End controller.

(** ** The status of a ClusterKubeconfig *)
Definition cond_status (sc : StatusConditions) (t : string) : option string := CondStatus <$> GetConditionByType sc t.
Lemma cond_status_set now sc c t :
  cond_status (SetConditions now sc [c]) t = if bool_decide (t = CondType c) then Some (CondStatus c) else cond_status sc t.
Proof. unfold cond_status. rewrite get_SetConditions. by case_bool_decide. Qed.
Definition cond_reason (sc : StatusConditions) (t : string) : option string := CondReason <$> GetConditionByType sc t.
Lemma cond_reason_set now sc c t :
  cond_reason (SetConditions now sc [c]) t = if bool_decide (t = CondType c) then Some (CondReason c) else cond_reason sc t.
Proof. unfold cond_reason. rewrite get_SetConditions. by case_bool_decide. Qed.
Lemma cond_status_init now exposed sc t :
  cond_status (init_conditions now exposed sc) t =
  match cond_status sc t with
  | Some s => Some s
  | None => if bool_decide (t ∈ exposed) then Some ConditionUnknown else None
  end.
Proof.
  unfold init_conditions. revert sc. induction exposed as [|e l IH]; intros sc; cbn [fold_left].
  { destruct (cond_status sc t); [done|]. by rewrite bool_decide_eq_false_2 by set_solver. }
  rewrite IH. clear IH. destruct (GetConditionByType sc e) as [d|] eqn:He.
  - destruct (cond_status sc t) eqn:Ht; [done|].
    rewrite (bool_decide_ext (t ∈ e :: l) (t ∈ l)); [done|]. rewrite elem_of_cons.
    split; [|auto]. intros [->|]; [|done]. unfold cond_status in Ht. by rewrite He in Ht.
  - rewrite cond_status_set. cbn [CondType CondStatus UnknownCondition NewCondition].
    destruct (bool_decide_reflect (t = e)) as [->|Hte].
    + unfold cond_status. rewrite He. cbn. by rewrite bool_decide_eq_true_2 by set_solver.
    + destruct (cond_status sc t); [done|]. by rewrite (bool_decide_ext (t ∈ e :: l) (t ∈ l)) by set_solver.
Qed.

(** The controller marked the pass as failed. *)
Definition failed (sc : StatusConditions) : Prop := cond_status sc KubeconfigReconcileFailedCondition = Some ConditionTrue.
Lemma failed_is_true sc :
  match GetConditionByType sc KubeconfigReconcileFailedCondition with Some c => IsTrue c | None => false end = true <-> failed sc.
Proof.
  unfold failed, cond_status, IsTrue. destruct (GetConditionByType sc _) as [c|]; cbn; [|done].
  rewrite bool_decide_eq_true. split; [by intros ->|by intros [= ->]].
Qed.
Definition started (now : Z) (sc : StatusConditions) : StatusConditions :=
  init_conditions now ExposedKubeconfigConditions
    (if bool_decide (sc = []) then SetConditions now sc [TrueCondition now KubeconfigCreatedCondition "NewCreation" ""] else sc).
Lemma started_failed now sc : failed (started now sc) <-> failed sc.
Proof.
  unfold failed, started. rewrite cond_status_init. case_bool_decide as He; [by subst|].
  by destruct (cond_status sc KubeconfigReconcileFailedCondition).
Qed.
Lemma started_exposed now sc t : t ∈ ExposedKubeconfigConditions -> is_Some (cond_status (started now sc) t).
Proof.
  intros Ht. unfold started. rewrite cond_status_init.
  destruct (cond_status _ t); [eauto|]. rewrite bool_decide_eq_true_2 by done. eauto.
Qed.
Lemma exposed_set now l c :
  (forall t, t ∈ ExposedKubeconfigConditions -> is_Some (cond_status l t)) ->
  forall t, t ∈ ExposedKubeconfigConditions -> is_Some (cond_status (SetConditions now l [c]) t).
Proof. intros Hl t Ht. rewrite cond_status_set. case_bool_decide; eauto. Qed.
#[local] Hint Resolve exposed_set started_exposed : core.
Lemma calculate_exposed now ck t :
  t ∈ ExposedKubeconfigConditions -> is_Some (cond_status (calculateKubeconfigStatus now ck) t).
Proof.
  unfold calculateKubeconfigStatus. fold (started now (ck_conditions ck)).
  revert t. case_if; [auto 6|]. case_if; auto.
Qed.
Lemma calculate_cases now ck :
  let st := calculateKubeconfigStatus now ck in
  let ready := cond_status st KubeconfigReadyCondition in
  ready = Some ConditionTrue /\ isConfigured ck = true /\ ~ failed (ck_conditions ck) /\
    cond_status st KubeconfigReconcileFailedCondition = Some ConditionFalse /\
    cond_status st KubeconfigCreatedCondition = Some ConditionFalse \/
  ready = Some ConditionFalse /\ ~ (isConfigured ck = true /\ ~ failed (ck_conditions ck)) /\
    (failed (ck_conditions ck) -> failed st).
Proof.
  cbv zeta. unfold calculateKubeconfigStatus. fold (started now (ck_conditions ck)).
  pose proof (failed_is_true (started now (ck_conditions ck))) as Hb. rewrite started_failed in Hb.
  pose proof (started_failed now (ck_conditions ck)) as Hs.
  destruct (match GetConditionByType (started now _) _ with Some c => IsTrue c | None => false end).
  - assert (Hfd : failed (ck_conditions ck)) by tauto. rewrite andb_false_r.
    unfold failed in *. rewrite !cond_status_set. cbn. naive_solver.
  - assert (Hfd : ~ failed (ck_conditions ck)) by (rewrite <- Hb; done).
    destruct (isConfigured ck); cbn [andb negb]; unfold failed in *; rewrite !cond_status_set; cbn; naive_solver.
Qed.
(** What the status says.  All three conditions are there; Ready is decided, and True
    exactly when the kubeconfig has a cluster, a user and a current context and the
    pass was not marked as failed; then the other two are False.  A reported failure stays
    reported. *)
Theorem calculateKubeconfigStatus_spec now ck :
  let st := calculateKubeconfigStatus now ck in
  let ready := cond_status st KubeconfigReadyCondition in
  (forall t, t ∈ ExposedKubeconfigConditions -> is_Some (cond_status st t)) /\
  (ready = Some ConditionTrue \/ ready = Some ConditionFalse) /\
  (ready = Some ConditionTrue <-> isConfigured ck = true /\ ~ failed (ck_conditions ck)) /\
  (ready = Some ConditionTrue -> cond_status st KubeconfigReconcileFailedCondition = Some ConditionFalse /\
                                 cond_status st KubeconfigCreatedCondition = Some ConditionFalse) /\
  (failed (ck_conditions ck) -> failed st).
Proof.
  cbv zeta. split; [apply calculate_exposed|].
  destruct (calculate_cases now ck) as [(Hr & Hc & Hf & H)|(Hr & Hn & Hf)]; rewrite Hr; naive_solver.
Qed.

(** Created is never set to True: the conditions are not empty when the status is computed. *)
Lemma created_never_true now c ck :
  CondType c = KubeconfigReconcileFailedCondition ->
  cond_status (ck_conditions ck) KubeconfigCreatedCondition <> Some ConditionTrue ->
  cond_status (calculateKubeconfigStatus now (ck_set_conditions (SetConditions now (ck_conditions ck) [c]) ck))
    KubeconfigCreatedCondition <> Some ConditionTrue.
Proof.
  intros Hc Hck. unfold calculateKubeconfigStatus. cbn [ck_conditions ck_set_conditions].
  set (sc := SetConditions now _ [c]).
  assert (Hsc : cond_status sc KubeconfigCreatedCondition <> Some ConditionTrue).
  { unfold sc. by rewrite cond_status_set, Hc. }
  rewrite (bool_decide_eq_false_2 (sc = [])).
  2: { intros He. pose proof (get_SetConditions now (ck_conditions ck) c (CondType c)) as H. fold sc in H.
       by rewrite He, bool_decide_eq_true_2 in H. }
  case_if; [by rewrite cond_status_set|]. case_if; rewrite !cond_status_set, cond_status_init; cbn;
    by destruct (cond_status sc KubeconfigCreatedCondition).
Qed.

(** ** What is patched *)
Lemma init_conditions_id now exposed sc :
  (forall t, t ∈ exposed -> is_Some (GetConditionByType sc t)) -> init_conditions now exposed sc = sc.
Proof.
  unfold init_conditions. revert sc. induction exposed as [|e l IH]; intros sc Hs; [done|]. cbn [fold_left].
  destruct (Hs e) as [c ->]; [set_solver|]. apply IH. set_solver.
Qed.
Lemma cond_status_some sc t : is_Some (cond_status sc t) <-> is_Some (GetConditionByType sc t).
Proof. unfold cond_status. apply fmap_is_Some. Qed.
Lemma failed_status now ck : failed (ck_conditions ck) ->
  exists sc, calculateKubeconfigStatus now ck = SetConditions now sc [FalseCondition now KubeconfigReadyCondition "ReconcileFailed" ""].
Proof.
  intros Hf. unfold calculateKubeconfigStatus. fold (started now (ck_conditions ck)).
  pose proof (proj2 (failed_is_true (started now (ck_conditions ck)))) as Hb. rewrite started_failed in Hb.
  rewrite (Hb Hf), andb_false_r. eauto.
Qed.
(** On a status that says failed and not ready there is nothing to compute. *)
Lemma failed_status_fixed now ck d :
  failed (ck_conditions ck) -> (forall t, t ∈ ExposedKubeconfigConditions -> is_Some (GetConditionByType (ck_conditions ck) t)) ->
  GetConditionByType (ck_conditions ck) KubeconfigReadyCondition = Some d ->
  Equal d (FalseCondition now KubeconfigReadyCondition "ReconcileFailed" "") = true ->
  calculateKubeconfigStatus now ck = ck_conditions ck.
Proof.
  intros Hf He Hd Heq. unfold calculateKubeconfigStatus.
  rewrite bool_decide_eq_false_2 by (intros H; by rewrite H in Hd).
  rewrite init_conditions_id by done. rewrite (proj2 (failed_is_true _) Hf), andb_false_r.
  unfold SetConditions. cbn [fold_left]. by apply (set_condition_id _ _ d).
Qed.
Section patches.
Context {Libs : KubeconfigLibs} {HScim : ScimLibs}.
Definition marked (now : Z) (c : Condition) (ck : ClusterKubeconfig) : ClusterKubeconfig :=
  ck_set_conditions (SetConditions now (ck_conditions ck) [c]) ck.
Definition failure (now : Z) (reason message : string) : Condition :=
  TrueCondition now KubeconfigReconcileFailedCondition reason message.
Lemma marked_failed now reason message ck : failed (ck_conditions (marked now (failure now reason message) ck)).
Proof. unfold failed, marked. cbn [ck_conditions ck_set_conditions]. by rewrite cond_status_set. Qed.
(** The status patch compares with an object that already holds the new failure
    condition.  So once a failed pass was reported, another reason or message of a later
    failed pass is not sent to the server; and a successful pass over a complete
    kubeconfig always sends a patch, for the reason of that condition goes back and forth. *)
Theorem status_patch_calls now now' ck reason message reason' message' :
  let reported := marked now (failure now reason message) ck in
  let stored := ck_set_conditions (calculateKubeconfigStatus now reported) reported in
  report_failure now' reason' message' stored = mret tt /\
  (isConfigured ck = true -> exists before after k,
     set_condition_and_patch now' (FalseCondition now' KubeconfigReconcileFailedCondition "NoError" "") ck =
     PVis (KKubeconfig (KubeStatusPatch before after)) k).
Proof.
  cbv zeta. split.
  - set (reported := marked now _ ck).
    set (again := marked now' (failure now' reason' message') (ck_set_conditions (calculateKubeconfigStatus now reported) reported)).
    assert (Hfix : calculateKubeconfigStatus now' again = ck_conditions again).
    { destruct (failed_status now reported) as [sc Hsc]; [apply marked_failed|].
      destruct (SetConditions_get_in now sc [FalseCondition now KubeconfigReadyCondition "ReconcileFailed" ""] _
                  (NoDup_singleton _) (list_elem_of_here _ _)) as (d & Hd & Heq).
      apply (failed_status_fixed now' again d); [apply marked_failed| | |exact Heq].
      - intros t Ht. apply cond_status_some. unfold again, marked. cbn [ck_conditions ck_set_conditions].
        apply exposed_set; [|done]. intros t' Ht'. by apply calculate_exposed.
      - unfold again, marked. cbn [ck_conditions ck_set_conditions].
        rewrite SetConditions_get_other by (cbn; set_solver). by rewrite Hsc. }
    change (report_failure now' reason' message' _) with
      (_ ← translate (fun _ => KKubeconfig)
         (PatchStatus (fun kc => (ck_set_conditions (calculateKubeconfigStatus now' kc) kc, None)) again);
       mret tt : prog kubeconfigE unit).
    unfold PatchStatus, patch. rewrite Hfix, bool_decide_eq_true_2; [done|]. by destruct again.
  - intros Hc. unfold set_condition_and_patch, PatchStatus, patch.
    set (m := FalseCondition _ _ "NoError" ""). set (before := ck_set_conditions (SetConditions now' _ [m]) ck).
    rewrite bool_decide_eq_false_2; [cbn; eauto|]. intros Heq%(f_equal ck_conditions).
    cbn [ck_conditions ck_set_conditions] in Heq.
    apply (f_equal (fun sc => cond_reason sc KubeconfigReconcileFailedCondition)) in Heq.
    assert (Hb : cond_reason (ck_conditions before) KubeconfigReconcileFailedCondition = Some "NoError").
    { unfold before. cbn [ck_conditions ck_set_conditions]. by rewrite cond_reason_set. }
    rewrite Hb in Heq. clear Hb. unfold calculateKubeconfigStatus in Heq.
    fold (started now' (ck_conditions before)) in Heq.
    assert (Hnf : ~ failed (ck_conditions before)) by (unfold failed, before; cbn [ck_conditions ck_set_conditions]; by rewrite cond_status_set).
    rewrite <- started_failed, <- failed_is_true in Hnf. apply not_true_is_false in Hnf. rewrite Hnf in Heq.
    change (isConfigured before) with (isConfigured ck) in Heq. rewrite Hc in Heq. cbn [andb negb] in Heq.
    by rewrite !cond_reason_set in Heq.
Qed.
End patches.

(** ** What is stored over any number of passes *)
Section stored.
Context {Libs : KubeconfigLibs} {HScim : ScimLibs}.
Variable ClusterKind : string.
Definition ready_sound (ck : ClusterKubeconfig) : Prop :=
  cond_status (ck_conditions ck) KubeconfigReadyCondition = Some ConditionTrue ->
  isConfigured ck = true /\ ~ failed (ck_conditions ck).
Definition keeps_ck (o o' : ClusterKubeconfig) : Prop :=
  key_of o' = key_of o /\ ck_Kubeconfig o' = ck_Kubeconfig o /\ ck_conditions o' = ck_conditions o.
Lemma ready_sound_keeps o o' : keeps_ck o o' -> ready_sound o -> ready_sound o'.
Proof. unfold ready_sound, isConfigured. by intros (_ & -> & ->). Qed.
(** A patch of the status keeps the rest of the stored object. *)
Definition ck_kube_step (st : gmap objkey ClusterKubeconfig) X (e : kubeE ClusterKubeconfig X) :
    X -> gmap objkey ClusterKubeconfig -> Prop :=
  match e in kubeE _ X return X -> _ -> Prop with
  | KubeStatusPatch _ ck => fun r st' =>
      status_written keeps_ck (fun ck stored => ck_set_conditions (ck_conditions ck) stored) ck st r st'
  | e => kube_step keeps_ck st _ e
  end.
Definition ck_step (st : gmap objkey ClusterKubeconfig) X (e : kubeconfigE X) : X -> gmap objkey ClusterKubeconfig -> Prop :=
  match e in kubeconfigE X return X -> _ -> Prop with
  | KKubeconfig e => ck_kube_step st _ e
  | _ => fun _ st' => st' = st
  end.
Abbreviation sound st := (map_Forall (fun (k : objkey) o => key_of o = k /\ ready_sound o) st).
Lemma sound_written o st r st' : written keeps_ck o st r st' -> ready_sound o -> sound st ->
  sound st' /\ match r with Ok o' => ready_sound o' | Err _ => True end.
Proof.
  unfold written. destruct r as [o'|e]; [|by intros ->]. intros [Hk ->] Ho Hst.
  pose proof (ready_sound_keeps _ _ Hk Ho). split; [|done]. apply map_Forall_insert_2; [|done].
  split; [apply Hk|done].
Qed.
Lemma ready_sound_status now ck :
  ready_sound (ck_set_conditions (calculateKubeconfigStatus now ck) ck).
Proof.
  intros Hr. cbn [ck_conditions ck_set_conditions] in *. change (isConfigured (ck_set_conditions _ _)) with (isConfigured ck).
  destruct (calculate_cases now ck) as [(_ & Hc & _ & Hf & _)|(Hn & _)]; [|by rewrite Hn in Hr].
  unfold failed. by rewrite Hf.
Qed.
(** A status that says Ready is only sent for the kubeconfig that is stored. *)
Lemma set_condition_and_patch_sound now c ck st : sound st ->
  (forall s, st !! key_of ck = Some s -> ck_Kubeconfig s = ck_Kubeconfig ck) \/
    CondType c = KubeconfigReconcileFailedCondition /\ CondStatus c = ConditionTrue ->
  wp ck_step (set_condition_and_patch now c ck) (fun st' _ => sound st') st.
Proof.
  intros Hst Hc. unfold set_condition_and_patch, PatchStatus, patch. apply wp_translate.
  case_bool_decide; [by apply wp_ret|]. do 2 wp_step. clear H.
  enough (sound w) by (by destruct x; apply wp_ret).
  destruct x as [o'|e]; [|by cbn in Hx; subst].
  destruct Hx as (s & Hs & Hk & ->). apply map_Forall_insert_2; [|done].
  split; [by destruct Hk as [-> _]; apply (Hst _ _ Hs)|].
  eapply ready_sound_keeps; [exact Hk|]. set (sent := ck_set_conditions (SetConditions now (ck_conditions ck) [c]) ck) in *.
  destruct Hc as [Hc|[Ht Hf]].
  - specialize (Hc s Hs). pose proof (ready_sound_status now sent) as Hr.
    unfold ready_sound, isConfigured in *. cbn [ck_conditions ck_Kubeconfig ck_set_conditions] in *. by rewrite Hc.
  - intros Hr. cbn [ck_conditions ck_set_conditions] in Hr.
    assert (failed (ck_conditions sent)) as Hfs.
    { unfold failed, sent. cbn [ck_conditions ck_set_conditions].
      by rewrite cond_status_set, Ht, bool_decide_eq_true_2, Hf. }
    destruct (calculate_cases now sent) as [(_ & _ & Hn & _)|(Hn & _)]; [done|by rewrite Hn in Hr].
Qed.
Lemma report_failure_sound now reason message ck st : sound st ->
  wp ck_step (report_failure now reason message ck) (fun st' _ => sound st') st.
Proof.
  intros Hst. unfold report_failure. wp_step. eapply wp_mono; [|apply set_condition_and_patch_sound; [done|by right]].
  intros st' a Hs. by apply wp_ret.
Qed.
Lemma get_or_create_sound k cluster st : sound st ->
  wp ck_step (get_or_create ClusterKind k cluster) (fun st' r =>
    sound st' /\ match r with Ok ck => ready_sound ck | Err _ => True end) st.
Proof.
  intros Hst. unfold get_or_create. do 2 wp_step. destruct Hx as [-> Hx]. destruct x as [ck|e].
  { apply wp_ret. split; [done|]. destruct Hx as [Hx _]. by apply (Hst _ _ Hx). }
  wp_step; [by apply wp_ret|]. do 2 wp_step. destruct Hx0 as [Hw _].
  assert (Hi : ready_sound (initial_kubeconfig ClusterKind cluster)) by done.
  destruct (sound_written _ _ _ _ Hw Hi Hst) as [Hs Hr]. apply wp_ret. destruct x as [ck|e']; [done|]. by case_if.
Qed.
Lemma mutate_kubeconfig_sound cluster oidc cfg ck : ready_sound ck -> ready_sound (mutate_kubeconfig cluster oidc cfg ck).1.
Proof.
  unfold ready_sound. cbn [mutate_kubeconfig fst ck_conditions]. intros H Hr. destruct (H Hr) as [Hc Hf]. split; [|done].
  unfold isConfigured in *. cbn in *. apply andb_true_iff in Hc as [_ Hc]. exact Hc.
Qed.
(** What [CreateOrPatch] returns without an error is what is stored. *)
Lemma write_kubeconfig_sound cluster oidc cfg ck st : sound st -> ready_sound ck ->
  wp ck_step (translate (fun _ => KKubeconfig) (CreateOrPatch (mutate_kubeconfig cluster oidc cfg) ck))
    (fun st' '(o, (_, err)) => sound st' /\ (err = None -> st' !! key_of o = Some o)) st.
Proof.
  intros Hst Hck. apply wp_translate.
  eapply (wp_calls_mono (kube_step keeps_ck)); [apply CreateOrPatch_calls|by intros ??[]|].
  eapply wp_mono; [|by apply (CreateOrPatch_post keeps_ck (mutate_kubeconfig cluster oidc cfg))].
    pose proof (mutate_kubeconfig_sound cluster oidc cfg) as Hm.
    intros st' [o [res [e|]]] Hp; [destruct res; by destruct Hp as [-> _]|].
    destruct res; cbn in Hp.
    - destruct Hp as (-> & Ho & _). split; [done|]. intros _. by rewrite (proj1 (Hst _ _ Ho)).
    - destruct Hp as (_ & _ & Hk & ->). assert (key_of o = key_of ck) as Hko by apply Hk.
      split; [|intros _; by rewrite Hko, lookup_insert_eq]. apply map_Forall_insert_2; [|done].
      split; [done|]. eapply ready_sound_keeps; [exact Hk|by apply Hm].
    - destruct Hp as (b & Hb & _ & _ & _ & Hk & ->). destruct (Hst _ _ Hb) as [Hkb Hsb].
      assert (key_of o = key_of ck) as Hko by (rewrite <- Hkb; apply Hk).
      split; [|intros _; by rewrite Hko, lookup_insert_eq]. apply map_Forall_insert_2; [|done].
      split; [done|]. eapply ready_sound_keeps; [exact Hk|by apply Hm].
Qed.
Lemma write_and_report_sound now cluster oidc cfg ck st : sound st -> ready_sound ck ->
  wp ck_step (write_and_report now cluster oidc cfg ck) (fun st' _ => sound st') st.
Proof.
  intros Hst Hck. unfold write_and_report. wp_step. eapply wp_mono; [|by apply write_kubeconfig_sound].
  intros st' [o [res err]] [Hs Ho].
  destruct err as [e|]; wp_step.
  - eapply wp_mono; [|by apply report_failure_sound]. intros st2 a H2. by apply wp_ret.
  - eapply wp_mono; [|apply set_condition_and_patch_sound; [done|left]].
    + intros st2 a H2. by apply wp_ret.
    + intros s. rewrite (Ho eq_refl). by intros [= ->].
Qed.
Lemma kubeconfig_Reconcile_sound now k st : sound st ->
  wp ck_step (kubeconfig_Reconcile now ClusterKind k) (fun st' _ => sound st') st.
Proof.
  intros Hst. unfold kubeconfig_Reconcile. do 2 wp_step. cbn in Hx. subst. destruct x as [cluster|e]; [|by apply wp_ret].
  wp_step; [by apply wp_ret|]. wp_step. eapply wp_mono; [|by apply get_or_create_sound].
  intros st1 [ck|e] [H1 Hck]; [|by apply wp_ret]. wp_step.
  assert (Hquiet : forall A (p : prog kubeconfigE A), all_calls (fun X e => match e with KKubeconfig _ => False | _ => True end) p ->
    wp ck_step p (fun st' _ => st' = st1) st1).
  { intros A p Hp. eapply all_calls_wp; [exact Hp| |done]. intros w X e x w' -> He Hs. by destruct e. }
  eapply wp_mono; [|apply Hquiet; unfold getOIDCInfo, apply_override, override_value, get_key, GetSecretKeyFromSecretKeyReference; calls_steps; done].
  intros st2 oidc ->. destruct oidc as [oidc|e].
  2: { wp_step. eapply wp_mono; [|by apply report_failure_sound]. intros st2 [] H2. by apply wp_ret. }
  wp_step. eapply wp_mono; [|apply Hquiet; unfold cluster_data; calls_steps; done].
  intros st2 r ->. destruct r as [cfg|[reason message]]; [by apply write_and_report_sound|].
  wp_step. eapply wp_mono; [|by apply report_failure_sound]. intros st2 [] H2. by apply wp_ret.
Qed.
(** C22: over any sequence of passes, whatever the other objects hold and whichever calls fail,
    a stored ClusterKubeconfig that says Ready has a cluster, a user and a current
    context, and is not marked as failed. *)
Theorem stored_kubeconfigs_sound passes :
  wp ck_step (foreach passes (fun (_ : unit) '(now, k) => _ ← kubeconfig_Reconcile now ClusterKind k; mret (inl tt)) tt)
    (fun st' (_ : unit + unit) => map_Forall (fun _ : objkey => ready_sound) st') ∅.
Proof.
  apply (wp_foreach _ _ _ (fun _ st _ => sound st)); [by apply map_Forall_empty|by intros st _ Hst k o [_ Ho]%Hst|].
  intros [now k] l st [] Hst. wp_step. eapply wp_mono; [|by apply kubeconfig_Reconcile_sound].
  intros st' err Hs. by apply wp_ret.
Qed.
End stored.
