(* ===== verification/ClusterCli.v ===== *)
(** * ClusterCli: the command that bootstraps a cluster
      ([internal/cmd/cluster_bootstrap.go])

    [greenhouse cluster bootstrap] checks the user's permissions on both clusters, prepares
    the customer's cluster (namespace, ServiceAccount, ClusterRoleBinding) and hands Greenhouse
    a kubeconfig in a Secret, from which the controllers go on ([ClusterBootstrap]).  Calls of
    the client for the customer's cluster are the [R] calls of [ClusterController]; kubeconfig
    files, environment variables and contexts are calls, [CliExit] is [os.Exit].

    The environment of the theorems stores what the clusters store and sends every Secret for
    Greenhouse through the admission webhook of [AccessWebhook].  Flags and log output of cobra
    and zap have no model; that a required flag is missing is an argument. *)
From S2P Require Import Prelude Effects Conditions Meta CoreTypes ApiTypes ClientUtil WebhookUtil PluginTypes KubeConfig AccessWebhook ClusterController ClusterProvision.
From Stdlib Require Import ZArith.

Definition serviceAccountName : string := "greenhouse".
(** The fields of a [rest.Config] the command uses *)
Record cli_config := mk_cli_config { cfg_Host : string; cfg_ServerName : string; cfg_CAData : string }.
Record newClusterBootstrapOptions := mk_bootstrap_options {
  o_customerConfig : cli_config; o_ghConfig : cli_config;
  o_kubecontext : string; o_kubeconfig : string; o_orgName : string; o_clusterName : string;
  o_greenhouseKubeConfig : string; o_onBehafOfUser : string }.

Inductive cliE : Type -> Type :=
| CliCustomer {X} (e : clusterE X) : cliE X
| CliGreenhouseReview {X} (e : reviewE X) : cliE X
| CliGetCluster (k : objkey) : cliE (result Cluster)
| CliCreateSecret (s : Secret) : cliE (option error)
| CliUpdateSecret (s : Secret) : cliE (option error)
| CliGetenv (name : string) : cliE string
| CliCurrentContext (path context : string) : cliE (result string)
| CliBuildConfig (kubeconfig : string) : cliE (result cli_config)
| CliConfigWithContext (context : string) : cliE (result cli_config)
| CliNewClient (cfg : cli_config) : cliE (option error)
| CliNewClientset (cfg : cli_config) : cliE (option error)
| CliExit (code : Z) : cliE Empty_set.

Section cli.
Context {Libs : ClusterLibs}.
Local Abbreviation P := (prog cliE).
Definition cli_exit {A} (code : Z) : P A := PVis (CliExit code) (fun e : Empty_set => match e with end).
Definition set_configs (gh customer : cli_config) (o : newClusterBootstrapOptions) : newClusterBootstrapOptions :=
  mk_bootstrap_options customer gh (o_kubecontext o) (o_kubeconfig o) (o_orgName o) (o_clusterName o)
    (o_greenhouseKubeConfig o) (o_onBehafOfUser o).
Definition set_cluster_name (name : string) (o : newClusterBootstrapOptions) : newClusterBootstrapOptions :=
  mk_bootstrap_options (o_customerConfig o) (o_ghConfig o) (o_kubecontext o) (o_kubeconfig o) (o_orgName o) name
    (o_greenhouseKubeConfig o) (o_onBehafOfUser o).
Definition set_kubeconfig (path : string) (o : newClusterBootstrapOptions) : newClusterBootstrapOptions :=
  mk_bootstrap_options (o_customerConfig o) (o_ghConfig o) (o_kubecontext o) path (o_orgName o) (o_clusterName o)
    (o_greenhouseKubeConfig o) (o_onBehafOfUser o).

(** ** Access to the two clusters *)
Definition getClientKubeconfig (kubeconfig : string) : P cli_config :=
  r ← trigger (CliBuildConfig kubeconfig);
  match r with Err _ => cli_exit 1 | Ok cfg => mret cfg end.
Definition getKubeconfigOrDie (kubecontext : string) : P cli_config :=
  kubecontext ← (if bool_decide (kubecontext = "") then trigger (CliGetenv "KUBECONTEXT") else mret kubecontext);
  r ← trigger (CliConfigWithContext kubecontext);
  match r with Err _ => cli_exit 1 | Ok cfg => mret cfg end.
(** What is missing on either side; the default namespace must be readable. *)
Definition missing_permissions (o : newClusterBootstrapOptions) : P (option error) :=
  r ← trigger (CliCustomer (RNamespace (KubeGet (mk_key "" "default"))));
  match r with
  | Err clientErr => mret (Some clientErr)
  | Ok _ =>
      greenhouseMissingPermissions ← translate (fun _ => CliGreenhouseReview)
        (CheckGreenhousePermission (o_onBehafOfUser o) (o_orgName o));
      clientMissingPermissions ← translate (fun _ e => CliCustomer (RReview e))
        (CheckClientClusterPermission (o_onBehafOfUser o) "default");
      mret match clientMissingPermissions, greenhouseMissingPermissions with
           | [], [] => None
           | _, _ => Some (new_error "missing one of more permissions, please request them before retrying")
           end
  end.
Definition permissionCheck (o : newClusterBootstrapOptions) : P (newClusterBootstrapOptions * option error) :=
  gh ← getClientKubeconfig (o_greenhouseKubeConfig o);
  let o := set_configs gh (o_customerConfig o) o in
  err ← trigger (CliNewClient gh);
  match err with
  | Some e => mret (o, Some e)
  | None =>
      customer ← getKubeconfigOrDie (o_kubecontext o);
      let o := set_configs gh customer o in
      err ← trigger (CliNewClient customer);
      match err with
      | Some e => mret (o, Some e)
      | None => err ← missing_permissions o; mret (o, err)
      end
  end.

(** ** Defaults *)
Definition validateClusterName (clusterName : string) (length : nat) : option error :=
  if bool_decide (clusterName = "") then Some (new_error "cluster name cannot be empty")
  else if Nat.ltb length (String.length clusterName) then
    Some (new_error "cluster name cannot be longer than 40 characters")
  else if contains clusterName "--" then Some (new_error "cluster name cannot contain '--'")
  else None.
Definition fillDefaults (o : newClusterBootstrapOptions) : P (newClusterBootstrapOptions * option error) :=
  clientKubeConfig ← (if bool_decide (o_kubeconfig o = "") then trigger (CliGetenv "KUBECONFIG") else mret (o_kubeconfig o));
  r ← (if bool_decide (o_clusterName o = "") then trigger (CliCurrentContext clientKubeConfig (o_kubecontext o))
       else mret (Ok (o_clusterName o)));
  mret match r with
       | Err e => (o, Some e)
       | Ok name => (set_cluster_name name o, validateClusterName name 40)
       end.

(** ** The customer's cluster *)
Definition createNameSpaceInRemoteCluster (orgName : string) : P (option error) :=
  '(_, (_, err)) ← translate (fun _ e => CliCustomer (RNamespace e))
     (CreateOrPatch (fun ns => (ns, None)) (mk_namespace (named orgName "")));
  mret err.
Definition createServiceAccountInRemoteCluster (svAccName orgName : string) : P (option error) :=
  '(_, (_, err)) ← translate (fun _ e => CliCustomer (RServiceAccount e))
     (CreateOrPatch (fun sa => (sa, None)) (mk_sa (named svAccName orgName)));
  mret err.
Definition admin_subjects (orgName : string) : list RbacSubject :=
  [mk_rbac_subject "" rbacv1_ServiceAccountKind serviceAccountName orgName].
Definition admin_role : string * string * string := (rbacv1_GroupName, CRoleKind, CRoleRef).
Definition mutate_admin_binding (namespace : Namespace) (orgName : string) (crb : ClusterRoleBinding) :
    ClusterRoleBinding * option error :=
  match SetOwnerReference "Namespace" (get_meta namespace) (get_meta crb) with
  | Err e => (mk_crb (crb_meta crb) (admin_subjects orgName) admin_role, Some e)
  | Ok owners => (mk_crb (with_owners owners (crb_meta crb)) (admin_subjects orgName) admin_role, None)
  end.
Definition createClusterRoleBindingInRemoteCluster (orgName : string) : P (option error) :=
  r ← trigger (CliCustomer (RNamespace (KubeGet (mk_key "" orgName))));
  match r with
  | Err e => mret (Some e)
  | Ok namespace =>
      '(_, (_, err)) ← translate (fun _ e => CliCustomer (RClusterRoleBinding e))
         (CreateOrPatch (mutate_admin_binding namespace orgName) (mk_crb (named serviceAccountName "") [] ("", "", "")));
      mret err
  end.

(** ** The Secret for Greenhouse *)
Definition isClusterAlreadyBootstraped (o : newClusterBootstrapOptions) : P bool :=
  r ← trigger (CliGetCluster (mk_key (o_orgName o) (o_clusterName o)));
  mret match r with Err _ => false | Ok _ => true end.
Definition token_seconds : Z := Z.quot Hour Second.
Definition createServiceAccountToken (o : newClusterBootstrapOptions) : P (result string) :=
  err ← trigger (CliNewClientset (o_customerConfig o));
  match err with
  | Some e => mret (Err e)
  | None =>
      r ← trigger (CliCustomer (RCreateToken (mk_key (o_orgName o) serviceAccountName) [] token_seconds));
      mret match r with Err e => Err e | Ok (token, _) => Ok token end
  end.
Definition kubeconfig_helper (o : newClusterBootstrapOptions) (token : string) : KubeConfigHelper :=
  mk_helper (cfg_Host (o_customerConfig o)) (cfg_CAData (o_customerConfig o)) token serviceAccountName (o_orgName o)
    (cfg_ServerName (o_customerConfig o)) "" None None.
Definition cluster_secret (o : newClusterBootstrapOptions) (key kubeconfig : string) : Secret :=
  mk_secret (named (o_clusterName o) (o_orgName o)) SecretTypeKubeConfig {[key := Some kubeconfig]}.
(** An update sends a Secret made from scratch. *)
Definition createOrUpdateClusterObject (o : newClusterBootstrapOptions) (bootstrapped : bool) : P (option error) :=
  r ← createServiceAccountToken o;
  match r with
  | Err e => mret (Some e)
  | Ok token =>
      match clientcmd_Write (RestConfigToAPIConfig (kubeconfig_helper o token) (o_clusterName o)) with
      | Err e => mret (Some e)
      | Ok genKubeConfig =>
          if negb bootstrapped then trigger (CliCreateSecret (cluster_secret o KubeConfigKey genKubeConfig))
          else trigger (CliUpdateSecret (cluster_secret o GreenHouseKubeConfigKey genKubeConfig))
      end
  end.

(** ** The command *)
Definition cli_run (o : newClusterBootstrapOptions) : P (option error) :=
  bootstrapped ← isClusterAlreadyBootstraped o;
  err ← createNameSpaceInRemoteCluster (o_orgName o);
  match err with
  | Some e => mret (Some e)
  | None =>
      err ← createServiceAccountInRemoteCluster serviceAccountName (o_orgName o);
      match err with
      | Some e => mret (Some e)
      | None =>
          err ← createClusterRoleBindingInRemoteCluster (o_orgName o);
          match err with
          | Some e => mret (Some e)
          | None => createOrUpdateClusterObject o bootstrapped
          end
      end
  end.
(** [PersistentPreRunE], then [RunE] *)
Definition newClusterBootstrapCmd (missing_flags : option error) (kubeconfig : string) (o : newClusterBootstrapOptions) :
    P (option error) :=
  match missing_flags with
  | Some e => mret (Some e)
  | None =>
      '(o, err) ← permissionCheck (set_kubeconfig kubeconfig o);
      match err with
      | Some e => mret (Some e)
      | None =>
          '(o, err) ← fillDefaults o;
          match err with Some e => mret (Some e) | None => cli_run o end
      end
  end.
End cli.

(** ** The stores of both clusters *)
Section environment.
Context {Libs : ClusterLibs} {ALibs : AccessLibs} {Url : UrlParser}.
(** The Clusters registered with Greenhouse *)
Variable registered : gmap objkey Cluster.
(** A Secret is stored when the webhook has no error for it. *)
Definition create_admitted (s : Secret) : Prop :=
  exists h h' warns, exec (traced any_answer) (ValidateCreate SecretWebhook s) h (warns, None) h'.
Definition update_admitted (old s : Secret) : Prop :=
  exists h h' warns, exec (traced any_answer) (ValidateUpdate SecretWebhook old s) h (warns, None) h'.
Definition stored_secret (s : Secret) (w w' : cluster_world) : Prop :=
  exists s', accepts_secret s s' /\
    w' = mk_cluster_world (<[key_of s := s']> (cw_secrets w)) (cw_bindings w) (cw_namespaces w) (cw_accounts w).
Definition cli_step (w : cluster_world) X (e : cliE X) : X -> cluster_world -> Prop :=
  match e in cliE X return X -> cluster_world -> Prop with
  | CliCustomer e => cluster_step w _ e
  | CliGetCluster k => fun r w' => w' = w /\
      match r with
      | Ok c => registered !! k = Some c
      | Err e => err_reason e = NotFound -> registered !! k = None
      end
  | CliCreateSecret s => fun err w' =>
      match err with
      | Some _ => w' = w
      | None => cw_secrets w !! key_of s = None /\ create_admitted s /\ stored_secret s w w'
      end
  | CliUpdateSecret s => fun err w' =>
      match err with
      | Some _ => w' = w
      | None => exists old, cw_secrets w !! key_of s = Some old /\ update_admitted old s /\ stored_secret s w w'
      end
  | CliExit _ => fun _ _ => False
  | _ => fun _ w' => w' = w
  end.
Local Abbreviation wpl := (wp cli_step).
Lemma customer_wp {A} (p : prog clusterE A) Q w : wp cluster_step p Q w -> wpl (translate (fun _ => CliCustomer) p) Q w.
Proof. intros H. by apply wp_translate. Qed.
Lemma translate_translate {E F G : Type -> Type} {A} (phi : forall X, E X -> F X) (psi : forall X, F X -> G X) (p : prog E A) :
  forall (R : cluster_world -> forall X, G X -> X -> cluster_world -> Prop) Q w,
  wp R (translate psi (translate phi p)) Q w -> wp R (translate (fun X e => psi X (phi X e)) p) Q w.
Proof. intros R Q w H. by rewrite !wp_translate in *. Qed.
Lemma admitted_ok old s : update_admitted old s -> secret_ok s.
Proof.
  intros (h & h' & warns & H). pose proof (wp_exec _ _ _ _ _ _ (proj2 (secret_admission s old h)) H) as Hx.
  by apply Hx.
Qed.
Lemma created_ok s : create_admitted s -> secret_ok s.
Proof.
  intros (h & h' & warns & H). pose proof (wp_exec _ _ _ _ _ _ (proj1 (secret_admission s s h)) H) as Hx.
  by apply Hx.
Qed.
(** A Secret of this type without the user's kubeconfig is not admitted. *)
Lemma update_refused o kc : ~ secret_ok (cluster_secret o GreenHouseKubeConfigKey kc).
Proof.
  intros (_ & Hk & _). destruct (Hk eq_refl) as [_ (cfg & Hl & _)].
  unfold cluster_secret in Hl. cbn [secret_Data] in Hl. by rewrite lookup_singleton_ne in Hl.
Qed.
Lemma validateClusterName_short name :
  validateClusterName name 40 = None <-> name <> "" /\ String.length name <= 40 /\ contains name "--" = false.
Proof.
  unfold validateClusterName. case_bool_decide; [naive_solver|]. destruct (Nat.ltb_spec 40 (String.length name)); [split; [done|lia]|].
  destruct (contains name "--"); naive_solver.
Qed.

(** ** What a run provides *)
Variable o : newClusterBootstrapOptions.
Local Abbreviation org := (o_orgName o).
Local Abbreviation ns_key := (mk_key "" org).
Local Abbreviation account_key := (mk_key org serviceAccountName).
Local Abbreviation binding_key := (mk_key "" serviceAccountName).
Local Abbreviation secret_key := (mk_key org (o_clusterName o)).
(** The customer's cluster differs in these three objects only. *)
Definition customer_frame (w w' : cluster_world) : Prop :=
  only_at ns_key (cw_namespaces w) (cw_namespaces w') /\ only_at account_key (cw_accounts w) (cw_accounts w') /\
  only_at binding_key (cw_bindings w) (cw_bindings w').
Definition customer_prepared (w : cluster_world) : Prop :=
  is_Some (cw_namespaces w !! ns_key) /\ is_Some (cw_accounts w !! account_key) /\
  exists crb, cw_bindings w !! binding_key = Some crb /\ crb_Subjects crb = admin_subjects org /\ crb_RoleRef crb = admin_role.
Lemma cli_only_at_refl {A} k (st : gmap objkey A) : only_at k st st.
Proof. by intros k' _. Qed.
Lemma createNameSpace_wp w :
  wpl (createNameSpaceInRemoteCluster org) (fun w' err => exists s,
    w' = mk_cluster_world (cw_secrets w) (cw_bindings w) s (cw_accounts w) /\ only_at ns_key (cw_namespaces w) s /\
    (err = None -> is_Some (s !! ns_key))) w.
Proof using Libs.
  unfold createNameSpaceInRemoteCluster. apply wp_bind.
  apply (translate_translate (fun _ => RNamespace) (fun _ => CliCustomer)), customer_wp, ns_lens.
  eapply wp_mono; [|apply (CreateOrPatch_ensures accepts_ns (fun ns => (ns, None)) ltac:(done) (fun _ => True)); done].
  intros s [ns [res err]] [Ho Hs]. apply wp_ret. exists s. split; [done|]. split; [exact Ho|].
  intros He. destruct (Hs He) as (x & Hx & _). by exists x.
Qed.
Lemma createServiceAccount_wp w :
  wpl (createServiceAccountInRemoteCluster serviceAccountName org) (fun w' err => exists s,
    w' = mk_cluster_world (cw_secrets w) (cw_bindings w) (cw_namespaces w) s /\ only_at account_key (cw_accounts w) s /\
    (err = None -> is_Some (s !! account_key))) w.
Proof using Libs.
  unfold createServiceAccountInRemoteCluster. apply wp_bind.
  apply (translate_translate (fun _ => RServiceAccount) (fun _ => CliCustomer)), customer_wp, sa_lens.
  eapply wp_mono; [|apply (CreateOrPatch_ensures accepts_sa (fun sa => (sa, None)) ltac:(done) (fun _ => True)); done].
  intros s [ns [res err]] [Ho Hs]. apply wp_ret. exists s. split; [done|]. split; [exact Ho|].
  intros He. destruct (Hs He) as (x & Hx & _). by exists x.
Qed.
Lemma createClusterRoleBinding_wp w :
  wpl (createClusterRoleBindingInRemoteCluster org) (fun w' err => exists s,
    w' = mk_cluster_world (cw_secrets w) s (cw_namespaces w) (cw_accounts w) /\ only_at binding_key (cw_bindings w) s /\
    (err = None -> exists crb, s !! binding_key = Some crb /\ crb_Subjects crb = admin_subjects org /\ crb_RoleRef crb = admin_role)) w.
Proof using Libs.
  unfold createClusterRoleBindingInRemoteCluster. apply wp_bind, wp_trigger. intros r w1 Hr. cbn in Hr.
  destruct Hr as (s1 & [-> _] & ->). assert (mk_cluster_world (cw_secrets w) (cw_bindings w) (cw_namespaces w) (cw_accounts w) = w) as -> by by destruct w.
  destruct r as [ns|e]; [|apply wp_ret; exists (cw_bindings w); by destruct w].
  apply wp_bind. apply (translate_translate (fun _ => RClusterRoleBinding) (fun _ => CliCustomer)), customer_wp, crb_lens.
  eapply wp_mono; [|apply (CreateOrPatch_ensures accepts_crb (mutate_admin_binding ns org))
    with (Pr := fun crb => crb_Subjects crb = admin_subjects org /\ crb_RoleRef crb = admin_role)].
  - intros s [crb [res err]] [Ho Hs]. apply wp_ret. exists s. split; [done|]. split; [exact Ho|]. intros He.
    destruct (Hs He) as (x & Hx & H). by exists x.
  - intros crb. unfold mutate_admin_binding. by destruct (SetOwnerReference _ _ _).
  - intros crb. unfold mutate_admin_binding. by destruct (SetOwnerReference _ _ _).
  - intros a b [H1 H2] [H3 H4]. split; congruence.
Qed.
(** The token and what becomes of it *)
Definition secret_created (w w' : cluster_world) : Prop :=
  exists token kc s, clientcmd_Write (RestConfigToAPIConfig (kubeconfig_helper o token) (o_clusterName o)) = Ok kc /\
    cw_secrets w !! secret_key = None /\ cw_secrets w' = <[secret_key := s]> (cw_secrets w) /\
    secret_Type s = SecretTypeKubeConfig /\ secret_Data s = {[KubeConfigKey := Some kc]} /\ validateKubeConfig kc = None.
Lemma createOrUpdateClusterObject_wp bootstrapped w :
  wpl (createOrUpdateClusterObject o bootstrapped) (fun w' err =>
    (cw_namespaces w' = cw_namespaces w /\ cw_accounts w' = cw_accounts w /\ cw_bindings w' = cw_bindings w) /\
    match err with
    | Some _ => cw_secrets w' = cw_secrets w
    | None => secret_created w w'
    end) w.
Proof using Libs.
  unfold createOrUpdateClusterObject, createServiceAccountToken. apply wp_bind, wp_bind, wp_trigger. intros err w1 ->.
  destruct err as [e|]; [by apply wp_ret, wp_ret|]. apply wp_bind, wp_trigger. intros r w1 Hw. cbn in Hw. subst w1. apply wp_ret.
  destruct r as [[token expiry]|e]; [|by apply wp_ret]. destruct (clientcmd_Write _) as [kc|e] eqn:Hkc; [|by apply wp_ret].
  destruct bootstrapped; cbn [negb]; apply wp_trigger; intros [e|] w1 Hw; cbn in Hw; try (subst; done).
  - destruct Hw as (old & _ & Ha & _). destruct (update_refused o kc). by eapply admitted_ok.
  - destruct Hw as (Hn & Ha & s & (_ & Hd & Ht) & ->). split; [done|]. exists token, kc, s. split; [done|].
    split; [exact Hn|]. split; [done|]. split; [done|]. split; [done|].
    destruct (created_ok _ Ha) as (_ & Hk & _). destruct (Hk eq_refl) as [_ (cfg & Hl & _ & Hv)].
    unfold cluster_secret in Hl. cbn [secret_Data] in Hl. rewrite lookup_singleton_eq in Hl. by injection Hl as ->.
Qed.

(** C32: what a run of the bootstrap command does, whatever the two API servers answer.  It
    succeeds only when Greenhouse had no Secret of the cluster's name: then the customer's
    cluster has the Organization's namespace, the ServiceAccount in it and a binding that makes
    exactly this account a cluster admin, and Greenhouse has a Secret with nothing but a usable
    kubeconfig for a token of the account.  An error leaves the Secrets of Greenhouse as they
    were.  On the customer's cluster nothing else changes in either case.  In particular the
    command never succeeds for a cluster that is already bootstrapped: the Secret with which it
    replaces the stored one lacks the user's kubeconfig, and the webhook refuses it. *)
Theorem bootstrap_run_registers_once w :
  wpl (cli_run o) (fun w' err => customer_frame w w' /\
    match err with
    | None => customer_prepared w' /\ secret_created w w'
    | Some _ => cw_secrets w' = cw_secrets w
    end) w.
Proof using Libs ALibs Url.
  unfold cli_run, isClusterAlreadyBootstraped. apply wp_bind, wp_bind, wp_trigger. intros r w0 [-> _]. apply wp_ret.
  apply wp_bind. eapply wp_mono; [|apply createNameSpace_wp]. intros w1 err (s1 & -> & Hf1 & Hn).
  destruct err as [e|]; [by apply wp_ret|].
  apply wp_bind. eapply wp_mono; [|apply createServiceAccount_wp]. intros w2 err (s2 & -> & Hf2 & Ha).
  destruct err as [e|]; [by apply wp_ret|].
  apply wp_bind. eapply wp_mono; [|apply createClusterRoleBinding_wp]. intros w3 err (s3 & -> & Hf3 & Hb).
  destruct err as [e|]; [by apply wp_ret|].
  eapply wp_mono; [|apply createOrUpdateClusterObject_wp]. intros w4 err ((E1 & E2 & E3) & H). cbn in E1, E2, E3.
  split; [unfold customer_frame; by rewrite E1, E2, E3|]. destruct err as [e|]; [done|].
  split; [|done]. unfold customer_prepared. rewrite E1, E2, E3. auto.
Qed.
End environment.

(** ** Nothing changes without permission *)
Section permissions.
Context {Libs : ClusterLibs}.
Definition kube_change {O X} (e : kubeE O X) : Prop := match e with KubeGet _ => False | _ => True end.
(** The calls that change something on either cluster *)
Definition is_change X (e : cliE X) : Prop :=
  match e with
  | CliCreateSecret _ | CliUpdateSecret _ => True
  | CliCustomer e =>
      match e with
      | CSecret e => kube_change e
      | CTeam e => kube_change e
      | CDeletePlugin _ | CCreateToken _ _ _ | RCreateToken _ _ _ => True
      | RClusterRoleBinding e => kube_change e
      | RNamespace e => kube_change e
      | RServiceAccount e => kube_change e
      | _ => False
      end
  | _ => False
  end.
Local Abbreviation trace := (list (call cliE)).
Definition quiet (h : trace) : Prop := forall X (e : cliE X) x, Call e x ∈ h -> ~ is_change X e.
(** Every permission was asked for and granted. *)
Definition permitted (user org : string) (h : trace) : Prop :=
  (forall p, p ∈ greenhousePermissions -> Call (CliGreenhouseReview (CreateAccessReview user org p)) (Ok true) ∈ h) /\
  (forall p, p ∈ clientClusterPermissions -> Call (CliCustomer (RReview (CreateAccessReview user "default" p))) (Ok true) ∈ h).
(** What Secrets the command sends *)
Definition secret_named (org : string) X (e : cliE X) : Prop :=
  match e with
  | CliCreateSecret s | CliUpdateSecret s =>
      GetNamespace s = org /\ GetName s <> "" /\ String.length (GetName s) <= 40 /\ contains (GetName s) "--" = false
  | _ => True
  end.
Local Abbreviation wpt := (wp (traced any_answer)).
Lemma in_extended (P : forall X, cliE X -> Prop) (h : trace) X (e : cliE X) x :
  (forall Y (f : cliE Y) y, Call f y ∈ h -> P Y f) -> P X e -> forall Y (f : cliE Y) y, Call f y ∈ h ++ [Call e x] -> P Y f.
Proof.
  intros Hh He Y f y [Hin|Hin]%elem_of_app; [by eapply Hh|]. apply list_elem_of_singleton in Hin.
  set (G := fun c : call cliE => match c with Call f' _ => P _ f' end). change (G (Call f y)). by rewrite Hin.
Qed.
Lemma traced_calls {A} (P : forall X, cliE X -> Prop) (p : prog cliE A) h :
  all_calls P p -> (forall X (e : cliE X) x, Call e x ∈ h -> P X e) ->
  wpt p (fun h' _ => forall X (e : cliE X) x, Call e x ∈ h' -> P X e) h.
Proof.
  intros Hp Hh. apply (all_calls_wp P (traced any_answer) (fun h' => forall X (e : cliE X) x, Call e x ∈ h' -> P X e)); [done| |done].
  intros h1 X e x h2 H1 He [_ ->]. by apply in_extended.
Qed.
Lemma permitted_extends user org h l : permitted user org h -> permitted user org (h ++ l).
Proof. intros [H1 H2]. split; intros p Hp; apply elem_of_app; left; auto. Qed.
Lemma reviews_granted (phi : forall X, reviewE X -> cliE X) l user namespace h :
  wpt (translate phi (checkPermissionMap l user namespace))
    (fun h' missing => missing = [] -> forall p, p ∈ l -> Call (phi _ (CreateAccessReview user namespace p)) (Ok true) ∈ h') h.
Proof.
  revert h. induction l as [|p l IH]; intros h; [by intros _ p ?%elem_of_nil|]. cbn [checkPermissionMap canI].
  intros r h1 [_ ->]. set (h1 := h ++ _).
  apply (wp_translate _ phi). apply wp_bind. apply (wp_translate _ phi).
  eapply wp_mono; [|apply wp_and; [apply IH|apply wp_traced_extends]]. intros h2 missing [Hm [l2 ->]]. apply wp_ret.
  destruct r as [[|]|e]; cbn [negb]; [|done..]. intros Hnil q [->|Hq]%elem_of_cons; [|by apply Hm].
  apply elem_of_app. left. apply elem_of_app. right. constructor.
Qed.

(** *** The parts of the command *)
Definition same_target (o o' : newClusterBootstrapOptions) : Prop :=
  o_orgName o' = o_orgName o /\ o_onBehafOfUser o' = o_onBehafOfUser o.
Ltac quiet_steps := repeat (calls_step; try exact (fun H => H)); try done.
Lemma reviews_quiet (phi : forall X, reviewE X -> cliE X) l user namespace :
  (forall X e, ~ is_change X (phi X e)) -> all_calls (fun X e => ~ is_change X e) (translate phi (checkPermissionMap l user namespace)).
Proof. intros H. apply all_calls_translate, all_calls_any, H. Qed.
Lemma missing_permissions_quiet o : all_calls (fun X e => ~ is_change X e) (missing_permissions o).
Proof.
  unfold missing_permissions. apply all_calls_bind; [apply all_calls_trigger; exact (fun H => H)|]. intros [ns|e]; [|done].
  apply all_calls_bind; [apply reviews_quiet; intros ? ? H; exact H|]. intros m. apply all_calls_bind; [apply reviews_quiet; intros ? ? H; exact H|]. done.
Qed.
Lemma configs_quiet kubeconfig kubecontext :
  all_calls (fun X e => ~ is_change X e) (getClientKubeconfig kubeconfig) /\
  all_calls (fun X e => ~ is_change X e) (getKubeconfigOrDie kubecontext).
Proof.
  unfold getClientKubeconfig, getKubeconfigOrDie, cli_exit. split; quiet_steps.
Qed.
Lemma permissionCheck_quiet o : all_calls (fun X e => ~ is_change X e) (permissionCheck o).
Proof.
  unfold permissionCheck. apply all_calls_bind; [apply (configs_quiet _ "")|]. intros gh.
  apply all_calls_bind; [apply all_calls_trigger; exact (fun H => H)|]. intros [e|]; [done|].
  apply all_calls_bind; [apply (configs_quiet "")|]. intros customer.
  apply all_calls_bind; [apply all_calls_trigger; exact (fun H => H)|]. intros [e|]; [done|].
  apply all_calls_bind; [apply missing_permissions_quiet|]. done.
Qed.
Lemma missing_permissions_granted o h :
  wpt (missing_permissions o) (fun h' err => err = None -> permitted (o_onBehafOfUser o) (o_orgName o) h') h.
Proof.
  unfold missing_permissions. apply wp_bind, wp_trigger. intros r h1 _. destruct r as [ns|e]; [|by apply wp_ret].
  apply wp_bind. eapply wp_mono; [|apply reviews_granted]. intros h2 ghMissing Hgh.
  apply wp_bind. eapply wp_mono; [|apply wp_and; [apply reviews_granted|apply wp_traced_extends]].
  intros h3 missing [Hm [l ->]]. apply wp_ret. destruct missing, ghMissing; try done. intros _.
  split; intros p Hp; [apply elem_of_app; left; by apply Hgh|by apply Hm].
Qed.
Lemma permissionCheck_granted o h :
  wpt (permissionCheck o) (fun h' '(o', err) => same_target o o' /\
    (err = None -> permitted (o_onBehafOfUser o) (o_orgName o) h')) h.
Proof.
  unfold permissionCheck. apply wp_bind. wp_skip. rename a into gh.
  apply wp_bind, wp_trigger. intros [e|] h1 _; [by apply wp_ret|].
  apply wp_bind. wp_skip. rename a into customer. apply wp_bind, wp_trigger. intros [e|] h2 _; [by apply wp_ret|].
  apply wp_bind. eapply wp_mono; [|apply missing_permissions_granted]. intros h3 err Hp. apply wp_ret. by split.
Qed.
Lemma fillDefaults_quiet o : all_calls (fun X e => ~ is_change X e) (fillDefaults o).
Proof. unfold fillDefaults. quiet_steps. Qed.
Lemma fillDefaults_named o h :
  wpt (fillDefaults o) (fun h' '(o', err) => same_target o o' /\ (err = None -> validateClusterName (o_clusterName o') 40 = None)) h.
Proof.
  unfold fillDefaults. apply wp_bind. wp_skip. apply wp_bind. wp_skip. apply wp_ret. destruct a0; [by split|].
  split; [done|]. done.
Qed.
Lemma cli_run_named o : validateClusterName (o_clusterName o) 40 = None -> all_calls (secret_named (o_orgName o)) (cli_run o).
Proof.
  intros Hn%validateClusterName_short.
  assert (forall (phi : forall X, clusterE X -> cliE X), phi = (fun _ => CliCustomer) ->
    forall X e, secret_named (o_orgName o) X (phi X e)) as Hc by (by intros phi ->).
  unfold cli_run, isClusterAlreadyBootstraped, createNameSpaceInRemoteCluster, createServiceAccountInRemoteCluster,
    createClusterRoleBindingInRemoteCluster, createOrUpdateClusterObject, createServiceAccountToken.
  repeat (calls_step || (apply all_calls_any; intros; exact I)); cbn; try done; by destruct Hn as (? & ? & ?).
Qed.
(** C33: the bootstrap command changes nothing on either cluster before it has the answers that
    every permission it needs is granted to the user, on the Organization's namespace for
    Greenhouse and on the default namespace for the customer; a Secret it sends is in the
    Organization's namespace and has a name the webhook accepts.  This holds whatever the calls
    answer, and wherever the command stops. *)
Theorem bootstrap_changes_permitted missing_flags kubeconfig o :
  wpt (newClusterBootstrapCmd missing_flags kubeconfig o) (fun h _ =>
    (quiet h \/ permitted (o_onBehafOfUser o) (o_orgName o) h) /\
    forall X (e : cliE X) x, Call e x ∈ h -> secret_named (o_orgName o) X e) [].
Proof using Libs.
  assert (forall h, quiet h -> forall X (e : cliE X) x, Call e x ∈ h -> secret_named (o_orgName o) X e) as Hquiet.
  { intros h Hq X e x Hin. specialize (Hq X e x Hin). by destruct e. }
  unfold newClusterBootstrapCmd. destruct missing_flags as [e|].
  { apply wp_ret. split; [left|]; intros X ? ? ?%elem_of_nil; done. }
  apply wp_bind. eapply wp_mono; [|apply wp_and; [apply (traced_calls (fun X e => ~ is_change X e)); [apply permissionCheck_quiet|by intros ? ? ? ?%elem_of_nil]|apply permissionCheck_granted]].
  intros h1 [o1 err] [Hq1 [[Ho1 Hu1] Hp]]. cbn in Ho1, Hu1, Hp.
  destruct err as [e|]; [apply wp_ret; split; [by left|by apply Hquiet]|]. specialize (Hp eq_refl).
  apply wp_bind. eapply wp_mono; [|apply wp_and; [apply wp_and; [apply (traced_calls (fun X e => ~ is_change X e)); [apply fillDefaults_quiet|exact Hq1]|apply fillDefaults_named]|apply wp_traced_extends]].
  intros h2 [o2 err] [[Hq2 [[Ho2 Hu2] Hn]] [l2 ->]].
  destruct err as [e|]; [apply wp_ret; split; [by left|by apply Hquiet]|]. specialize (Hn eq_refl).
  assert (o_orgName o2 = o_orgName o) as Horg by congruence.
  eapply wp_mono; [|apply wp_and; [apply (traced_calls (secret_named (o_orgName o))); [rewrite <-Horg; by apply cli_run_named|by apply Hquiet]|apply wp_traced_extends]].
  intros h3 r [Hnamed [l3 ->]]. split; [|done]. right. by do 2 apply permitted_extends.
Qed.
End permissions.

(** ** A run *)
Module CliRun.
#[local] Existing Instance AccessRun.libs.
#[local] Existing Instance AccessRun.urls.
#[local] Instance libs : ClusterLibs := {|
  clientcmd_Write _ := Ok "clusters context";
  clientcmd_ClientConfig _ _ := Err (new_error "not read");
  jose_ParseSigned _ := None;
  Unmarshal_claims _ := None;
  format_now _ := "";
  SetOwnerReference kind owner o := Ok (om_owners o ++ [mk_ref kind (om_name owner) (om_uid owner) false]) |}.
Definition customer : cli_config := mk_cli_config "https://api.example" "" "abc".
Definition options : newClusterBootstrapOptions := mk_bootstrap_options customer customer "" "" "acme" "prod-eu" "" "".
Definition sent : Secret := cluster_secret options KubeConfigKey "clusters context".
Lemma sent_admitted : create_admitted sent.
Proof. exists [], [], (access_owner_warnings "Secret" (default "" (eval (fun _ _ => None) (access_owner_warning sent)))). vm_compute. by split. Qed.
Definition customer_store X (e : clusterE X) (w : cluster_world) : option (X * cluster_world) :=
  match e in clusterE X return option (X * cluster_world) with
  | RNamespace e => let r := kube_serve _ e (cw_namespaces w) in
      Some (r.1, mk_cluster_world (cw_secrets w) (cw_bindings w) r.2 (cw_accounts w))
  | RServiceAccount e => let r := kube_serve _ e (cw_accounts w) in
      Some (r.1, mk_cluster_world (cw_secrets w) (cw_bindings w) (cw_namespaces w) r.2)
  | RClusterRoleBinding e => let r := kube_serve _ e (cw_bindings w) in
      Some (r.1, mk_cluster_world (cw_secrets w) r.2 (cw_namespaces w) (cw_accounts w))
  | RCreateToken _ _ _ => Some (Ok ("t1", None), w)
  | _ => None
  end.
Definition store X (e : cliE X) (w : cluster_world) : option (X * cluster_world) :=
  match e in cliE X return option (X * cluster_world) with
  | CliCustomer e => customer_store _ e w
  | CliGetCluster _ => Some (Err (mk_error NotFound "not found"), w)
  | CliNewClientset _ => Some (None, w)
  | CliCreateSecret s =>
      if bool_decide (s = sent /\ cw_secrets w !! key_of s = None) then
        Some (None, mk_cluster_world (<[key_of s := s]> (cw_secrets w)) (cw_bindings w) (cw_namespaces w) (cw_accounts w))
      else None
  | _ => None
  end.
Lemma cli_store_allowed w X e x w' : store X e w = Some (x, w') -> cli_step ∅ w X e x w'.
Proof.
  destruct e; cbn [store cli_step]; try done.
  - destruct e; cbn [customer_store cluster_step]; try done; intros [= <- <-]; try done;
      (eexists; split; [by apply kube_serve_step|done]).
  - by intros [= <- <-].
  - case_bool_decide as Hs; [|done]. destruct Hs as [-> Hn]. intros [= <- <-]. split; [done|]. split; [apply sent_admitted|].
    by exists sent.
  - by intros [= <- <-].
Qed.
Abbreviation ran := (attempt store (cli_run options) (mk_cluster_world ∅ ∅ ∅ ∅)).
Lemma run_succeeds : bool_decide (fst <$> ran = Some None) = true.
Proof. by vm_compute. Qed.
Lemma bootstrap_run_registers_once_witness : exists w',
  exec (cli_step ∅) (cli_run options) (mk_cluster_world ∅ ∅ ∅ ∅) None w' /\ customer_prepared options w' /\
  secret_created options (mk_cluster_world ∅ ∅ ∅ ∅) w'.
Proof.
  pose proof run_succeeds as Hr. apply bool_decide_eq_true in Hr.
  destruct ran as [[err w']|] eqn:Hp; [|done]. cbn in Hr. injection Hr as ->.
  apply (exec_attempt (cli_step ∅) store) in Hp; [|apply cli_store_allowed].
  destruct (wp_exec _ _ _ _ _ _ (bootstrap_run_registers_once ∅ options _) Hp) as (_ & H1 & H2).
  by exists w'.
Defined.
End CliRun.
