(* ===== verification/Startup.v ===== *)
(** * Startup: feature flags and what the manager starts
      ([internal/features/features.go], [cmd/greenhouse/main.go], [cmd/greenhouse/controllers.go],
      [internal/dex/storage.go], [internal/clientutil/env.go])

    The manager reads its mode from the environment and the feature flags from a ConfigMap,
    hands each enabled controller its parameters and registers the webhooks.  Flags are decoded
    when they are first asked for and kept: [Features] is a state that every query passes on.
    [main] ends with one of [main_end]: [handleError] exits, a nil dereference panics.

    The environment variables, the order of the two maps of controllers and webhooks and the
    decoding of YAML are parameters; the manager of controller-runtime, its set-up functions and
    Dex's storages are calls.  Metrics, schemes and the logger's flags have no model. *)
From S2P Require Import Prelude Effects Conditions Meta OptionTypes OrgDex Artifactory.
From Stdlib Require Import ZArith Ascii.

(** ** The environment *)
Section env.
Variable LookupEnv : string -> option string.
Definition GetEnvOrDefault (envKey defaultValue : string) : string := default defaultValue (LookupEnv envKey).
Definition Getenv (envKey : string) : string := GetEnvOrDefault envKey "".
Definition GetIntEnvWithDefault (envKey : string) (def : Z) : Z := default def (ParseInt10 (Getenv envKey)).
Definition GetEnv (envKey : string) : result string :=
  match LookupEnv envKey with
  | Some v => Ok v
  | None => Err (new_error ("environment variable '" +:+ envKey +:+ "' not set"))
  end.

(** ** Dex's storage *)
Record PostgresConfig := mk_postgres {
  pg_Host : string; pg_Port : Z; pg_User : string; pg_Password : string; pg_Database : string }.
Inductive storageE : Type -> Type :=
| OpenPostgres (cfg : PostgresConfig) : storageE (option error)
| OpenKubernetes (InCluster : bool) (KubeConfigFile : string) : storageE (option error)
| InClusterConfig : storageE (option error)
| HomeDir : storageE string.
Definition postgres_port : Z :=
  let port := GetIntEnvWithDefault "PG_PORT" 5432 in
  if ((port <? 0) || (65535 <? port))%Z then 5432 else (port mod 2 ^ 16)%Z.
Definition newPostgresStore : prog storageE (option error) :=
  let database := GetEnvOrDefault "PG_DATABASE" "postgres" in
  let user := GetEnvOrDefault "PG_USER" "postgres" in
  match GetEnv "PG_HOST" with
  | Err e => mret (Some e)
  | Ok host =>
      match GetEnv "PG_PASSWORD" with
      | Err e => mret (Some e)
      | Ok pass => trigger (OpenPostgres (mk_postgres host postgres_port user pass database))
      end
  end.
Definition determineKubeMode : prog storageE string :=
  let cfgPath := Getenv "KUBECONFIG" in
  if negb (bool_decide (trim_space cfgPath = "")) then mret cfgPath
  else
    err ← trigger InClusterConfig;
    match err with
    | None => mret ""
    | Some _ => home ← trigger HomeDir; mret (Join [home; ".kube"; "config"])
    end.
Definition newKubernetesStore : prog storageE (option error) :=
  cfgPath ← determineKubeMode;
  if negb (bool_decide (trim_space cfgPath = "")) then trigger (OpenKubernetes false cfgPath)
  else trigger (OpenKubernetes true "").
Definition NewDexStorage (backend : string) : prog storageE (option error) :=
  if bool_decide (backend = Postgres) then newPostgresStore
  else if bool_decide (backend = K8s) then newKubernetesStore
  else mret (Some (new_error ("unknown dexStorage backend: " +:+ backend))).

(** ** The mode of the manager *)
Inductive managerMode := regularMode | webhookOnlyMode | controllerOnlyMode.
#[export] Instance managerMode_eq_dec : EqDecision managerMode.
Proof. solve_decision. Defined.
(** [strconv.ParseBool] *)
Definition ParseBool (s : string) : result bool :=
  if slices_contains ["1"; "t"; "T"; "TRUE"; "true"; "True"] s then Ok true
  else if slices_contains ["0"; "f"; "F"; "FALSE"; "false"; "False"] s then Ok false
  else Err (new_error ("strconv.ParseBool: parsing " +:+ s +:+ ": invalid syntax")).
Definition parse_mode_env (key : string) : result bool :=
  let v := Getenv key in
  if negb (bool_decide (trim_space v = "")) then
    match ParseBool v with
    | Ok b => Ok b
    | Err e => Err (wrap_error ("unable to parse " +:+ key +:+ ": ") e)
    end
  else Ok false.
Definition calculateManagerMode : result managerMode :=
  webhookOnly ← parse_mode_env "WEBHOOK_ONLY";
  controllersOnly ← parse_mode_env "CONTROLLERS_ONLY";
  if webhookOnly && controllersOnly then
    Err (new_error "you can have only one of WEBHOOK_ONLY or CONTROLLERS_ONLY env be set to true")
  else if webhookOnly then Ok webhookOnlyMode
  else if controllersOnly then Ok controllerOnlyMode
  else Ok regularMode.
End env.

(** ** Feature flags *)
Record pluginFeatures := mk_plugin_features {
  ExpressionEvaluationEnabled : bool; IntegrationEnabled : bool; OCIMirroringEnabled : bool }.
(** The fields of [dexFeatures] and [pluginPresetFeatures] are a string and a boolean. *)
Class FeatureLibs := {
  yaml_dexFeatures : string -> result string;
  yaml_pluginFeatures : string -> result pluginFeatures;
  yaml_pluginPresetFeatures : string -> result bool
}.
Record Features := mk_features {
  f_raw : strmap; f_dex : option string; f_plugin : option pluginFeatures; f_pluginPreset : option bool }.
Definition DexFeatureKey : string := "dex".
Definition PluginFeatureKey : string := "plugin".
Definition PluginPresetFeatureKey : string := "pluginPreset".

Section features.
Context {FLibs : FeatureLibs}.
Definition feature_resolve {T} (decode : string -> result T) (f : Features) (key : string) : result T :=
  match f_raw f !! key with
  | None => Err (new_error (key +:+ " feature not found in ConfigMap"))
  | Some raw => decode raw
  end.
Definition resolveDexFeatures (f : Features) : result Features :=
  dex ← feature_resolve yaml_dexFeatures f DexFeatureKey;
  Ok (mk_features (f_raw f) (Some dex) (f_plugin f) (f_pluginPreset f)).
Definition resolvePluginFeatures (f : Features) : result Features :=
  plugin ← feature_resolve yaml_pluginFeatures f PluginFeatureKey;
  Ok (mk_features (f_raw f) (f_dex f) (Some plugin) (f_pluginPreset f)).
Definition resolvePluginPresetFeatures (f : Features) : result Features :=
  pluginPreset ← feature_resolve yaml_pluginPresetFeatures f PluginPresetFeatureKey;
  Ok (mk_features (f_raw f) (f_dex f) (f_plugin f) (Some pluginPreset)).
(** A pointer to the storage; a kept empty storage is not nil. *)
Definition GetDexStorageType (f : Features) : option string * Features :=
  match f_dex f with
  | Some storage => (Some storage, f)
  | None =>
      match resolveDexFeatures f with
      | Err _ => (None, f)
      | Ok f => ((match f_dex f with Some storage => if bool_decide (storage = "") then None else Some storage | None => None end), f)
      end
  end.
(** The queries of a flag of the plugin features; [None] is a nil receiver. *)
Definition plugin_flag (field : pluginFeatures -> bool) (f : option Features) : bool * option Features :=
  match f with
  | None => (false, None)
  | Some f =>
      match f_plugin f with
      | Some p => (field p, Some f)
      | None =>
          match resolvePluginFeatures f with
          | Err _ => (false, Some f)
          | Ok f => (match f_plugin f with Some p => field p | None => false end, Some f)
          end
      end
  end.
Definition IsExpressionEvaluationEnabled := plugin_flag ExpressionEvaluationEnabled.
Definition IsIntegrationEnabled := plugin_flag IntegrationEnabled.
Definition IsOCIMirroringEnabled := plugin_flag OCIMirroringEnabled.
Definition IsPresetExpressionEvaluationEnabled (f : option Features) : bool * option Features :=
  match f with
  | None => (false, None)
  | Some f =>
      match f_pluginPreset f with
      | Some b => (b, Some f)
      | None =>
          match resolvePluginPresetFeatures f with
          | Err _ => (false, Some f)
          | Ok f => (default false (f_pluginPreset f), Some f)
          end
      end
  end.
End features.

(** ** What main starts *)
Record manager_flags := mk_manager_flags {
  enabledControllers : list string; disabledControllers : list string;
  remoteClusterBearerTokenValidity : Z; renewRemoteClusterBearerTokenAfter : Z;
  DNSDomain_flag : string; artifactStoragePath : string; artifactRetries : Z }.
(** The parameters a reconciler is made with *)
Inductive controller_config :=
| OrganizationConfig (Namespace DexStorageType : string)
| PluginConfig (expressions integration mirroring : bool) (StoragePath : string) (HTTPRetry : Z)
| PluginPresetConfig (expressions : bool)
| DefinitionConfig (mirroring : bool)
| ClusterConfig (validity renewAfter : Z)
| CatalogConfig (StoragePath : string) (HTTPRetry : Z)
| PlainConfig.
Inductive startE : Type -> Type :=
| StNewManager (LeaderElection : bool) : startE (option error)
| StGetConfigMap (k : objkey) : startE (result strmap)
| StStorage {X} (e : storageE X) : startE X
| StSetupController (name : string) (cfg : controller_config) : startE (option error)
| StSetupWebhook (name : string) : startE (option error)
| StAddCheck (name : string) : startE (option error)
| StStart : startE (option error).
Inductive main_end := Finished | Exited (code : Z) | MainPanics.
Definition knownControllersNames : list string :=
  ["bootstrap"; "catalog"; "cluster"; "clusterPluginDefinition"; "kubeconfig"; "organizationController"; "plugin";
   "pluginDefinition"; "pluginPreset"; "teamController"; "teamRoleBindingController"].
Definition knownWebhooks : list string :=
  ["cluster"; "clusterPluginDefinition"; "organization"; "plugin"; "pluginDefinition"; "pluginPreset"; "secrets";
   "serviceaccounts"; "team"; "teamrole"; "teamrolebinding_v1alpha2"].

Section manager.
Context {FLibs : FeatureLibs}.
Variable LookupEnv : string -> option string.
Variable flags : manager_flags.
Variable controllers_order webhooks_order : list string.
Local Abbreviation P := (prog startE).
Definition isControllerEnabled (controllerName : string) : bool :=
  if slices_contains (disabledControllers flags) controllerName then false
  else bool_decide (controllerName = "*") || slices_contains (enabledControllers flags) controllerName.
Definition NewFeatures (configMapName namespace : string) : P (result (option Features)) :=
  r ← trigger (StGetConfigMap (mk_key namespace configMapName));
  mret match r with
       | Err e => if is_not_found (Some e) then Ok None else Err e
       | Ok data => Ok (Some (mk_features data None None None))
       end.
(** A set-up function: the error and the flags after it, or a panic. *)
Definition start_answer : Type := option error * option Features + unit.
Definition setup (name : string) (cfg : controller_config) (f : option Features) : P start_answer :=
  err ← trigger (StSetupController name cfg);
  mret (inl (err, f)).
Definition setup_organization (name namespace backend : string) (f : option Features) : P start_answer :=
  err ← translate (fun _ => StStorage) (NewDexStorage LookupEnv backend);
  match err with
  | Some e => mret (inl (Some e, f))
  | None => setup name (OrganizationConfig namespace backend) f
  end.
Definition startOrganizationReconciler (name : string) (f : option Features) : P start_answer :=
  let namespace := GetEnvOrDefault LookupEnv "POD_NAMESPACE" "greenhouse" in
  match f with
  | None => setup_organization name namespace K8s f
  | Some f =>
      match GetDexStorageType f with
      | (None, _) => mret (inr tt)
      | (Some backend, f) => setup_organization name namespace backend (Some f)
      end
  end.
Definition startPluginReconciler (name : string) (f : option Features) : P start_answer :=
  let '(expressions, f) := IsExpressionEvaluationEnabled f in
  let '(integration, f) := IsIntegrationEnabled f in
  let '(mirroring, f) := IsOCIMirroringEnabled f in
  setup name (PluginConfig expressions integration mirroring (artifactStoragePath flags) (artifactRetries flags)) f.
Definition startPluginPresetReconciler (name : string) (f : option Features) : P start_answer :=
  let '(expressions, f) := IsPresetExpressionEvaluationEnabled f in
  setup name (PluginPresetConfig expressions) f.
Definition startPluginDefinitionReconciler (name : string) (f : option Features) : P start_answer :=
  let '(mirroring, f) := IsOCIMirroringEnabled f in
  setup name (DefinitionConfig mirroring) f.
Definition renew_after : Z :=
  if (remoteClusterBearerTokenValidity flags <? renewRemoteClusterBearerTokenAfter flags)%Z
  then Z.quot (remoteClusterBearerTokenValidity flags) 2 else renewRemoteClusterBearerTokenAfter flags.
Definition startClusterReconciler (name : string) (f : option Features) : P start_answer :=
  setup name (ClusterConfig (remoteClusterBearerTokenValidity flags) renew_after) f.
Definition startCatalogReconciler (name : string) (f : option Features) : P start_answer :=
  setup name (CatalogConfig (artifactStoragePath flags) (artifactRetries flags)) f.
Definition knownControllers (name : string) : option Features -> P start_answer :=
  if bool_decide (name = "organizationController") then startOrganizationReconciler name
  else if bool_decide (name = "plugin") then startPluginReconciler name
  else if bool_decide (name = "pluginPreset") then startPluginPresetReconciler name
  else if bool_decide (name = "catalog") then startCatalogReconciler name
  else if bool_decide (name = "pluginDefinition") then startPluginDefinitionReconciler name
  else if bool_decide (name = "clusterPluginDefinition") then startPluginDefinitionReconciler name
  else if bool_decide (name = "cluster") then startClusterReconciler name
  else setup name PlainConfig.
Definition handleError (err : option error) (k : P main_end) : P main_end :=
  match err with Some _ => mret (Exited 1) | None => k end.
Definition register_controller (f : option Features) (controllerName : string) : P (option Features + main_end) :=
  if negb (isControllerEnabled controllerName) then mret (inl f)
  else
    r ← knownControllers controllerName f;
    mret match r with
         | inl (None, f) => inl f
         | inl (Some _, _) => inr (Exited 1)
         | inr _ => inr MainPanics
         end.
Definition register_webhook (_ : unit) (webhookName : string) : P (unit + main_end) :=
  err ← trigger (StSetupWebhook webhookName);
  mret match err with None => inl tt | Some _ => inr (Exited 1) end.
Definition leader_election (mode : managerMode) : bool :=
  bool_decide (is_Some (LookupEnv "POD_NAMESPACE")) && negb (bool_decide (mode = webhookOnlyMode)).
Definition serve : P main_end :=
  err ← trigger (StAddCheck "healthz");
  handleError err (
  err ← trigger (StAddCheck "readyz");
  handleError err (
  err ← trigger StStart;
  handleError err (mret Finished))).
Definition register_all (mode : managerMode) (f : option Features) : P main_end :=
  r ← (if bool_decide (mode = webhookOnlyMode) then mret (inl f) else foreach controllers_order register_controller f);
  match r with
  | inr e => mret e
  | inl _ =>
      r ← (if bool_decide (mode = controllerOnlyMode) then mret (inl tt) else foreach webhooks_order register_webhook tt);
      match r with inr e => mret e | inl _ => serve end
  end.
Definition main : P main_end :=
  if bool_decide (DNSDomain_flag flags = "") then mret (Exited 1)
  else
    match calculateManagerMode LookupEnv with
    | Err _ => mret (Exited 1)
    | Ok mode =>
        err ← trigger (StNewManager (leader_election mode));
        handleError err (
        r ← NewFeatures (GetEnvOrDefault LookupEnv "FEATURE_FLAGS" "greenhouse-feature-flags")
                        (GetEnvOrDefault LookupEnv "POD_NAMESPACE" "greenhouse");
        match r with
        | Err _ => mret (Exited 1)
        | Ok f => register_all mode f
        end)
    end.
(** The storage of the identity proxy ([cmd/idproxy/main.go]); [Panics] is the nil dereference. *)
Definition idproxy_storage (f : option Features) : outcome (prog storageE (option error)) :=
  match f with
  | None => Returns (NewDexStorage LookupEnv K8s)
  | Some f =>
      match (GetDexStorageType f).1 with
      | None => Panics
      | Some backend => Returns (NewDexStorage LookupEnv backend)
      end
  end.
End manager.

(** ** The flags against the ConfigMap *)
Section safety.
Context {FLibs : FeatureLibs}.
(** What the data of the ConfigMap say, decoded afresh *)
Definition dex_storage (data : strmap) : option string :=
  match data !! DexFeatureKey with
  | None => None
  | Some raw => match yaml_dexFeatures raw with
                | Err _ => None
                | Ok storage => if bool_decide (storage = "") then None else Some storage
                end
  end.
Definition plugin_flag_in (field : pluginFeatures -> bool) (data : option strmap) : bool :=
  match data ≫= (!!) PluginFeatureKey with
  | Some raw => match yaml_pluginFeatures raw with Ok p => field p | Err _ => false end
  | None => false
  end.
Definition preset_flag_in (data : option strmap) : bool :=
  match data ≫= (!!) PluginPresetFeatureKey with
  | Some raw => match yaml_pluginPresetFeatures raw with Ok b => b | Err _ => false end
  | None => false
  end.
(** The kept features agree with the data. *)
Definition coherent (data : option strmap) (f : option Features) : Prop :=
  match data, f with
  | None, None => True
  | Some data, Some f => f_raw f = data /\
      (forall s, f_dex f = Some s -> dex_storage data = Some s) /\
      (forall p, f_plugin f = Some p -> feature_resolve yaml_pluginFeatures f PluginFeatureKey = Ok p) /\
      (forall b, f_pluginPreset f = Some b -> feature_resolve yaml_pluginPresetFeatures f PluginPresetFeatureKey = Ok b)
  | _, _ => False
  end.
#[local] Arguments coherent : simpl never.
Lemma coherent_raw data f g :
  f_raw g = f_raw f -> f_dex g = f_dex f -> coherent (Some data) (Some f) ->
  (forall p, f_plugin g = Some p -> feature_resolve yaml_pluginFeatures f PluginFeatureKey = Ok p) ->
  (forall b, f_pluginPreset g = Some b -> feature_resolve yaml_pluginPresetFeatures f PluginPresetFeatureKey = Ok b) ->
  coherent (Some data) (Some g).
Proof.
  intros Hr Hd (Hraw & Hdex & _ & _) Hp Hb. unfold coherent, feature_resolve in *. rewrite Hr, Hd. auto.
Qed.
Lemma plugin_flag_coherent field data f :
  coherent data f -> (plugin_flag field f).1 = plugin_flag_in field data /\ coherent data (plugin_flag field f).2.
Proof.
  unfold plugin_flag, plugin_flag_in. destruct data as [data|], f as [f|]; try done. intros Hc.
  pose proof Hc as (Hraw & _ & Hp & Hb). cbn [mbind option_bind]. subst data. unfold feature_resolve in Hp.
  destruct (f_plugin f) as [p|] eqn:Hf.
  { split; [|done]. specialize (Hp p eq_refl). by destruct (f_raw f !! PluginFeatureKey); [rewrite Hp|]. }
  unfold resolvePluginFeatures, feature_resolve.
  destruct (f_raw f !! PluginFeatureKey) as [raw|] eqn:Hl; [|done]. cbn.
  destruct (yaml_pluginFeatures raw) as [p|e] eqn:Hy; [|done]. cbn. split; [done|].
  apply (coherent_raw (f_raw f) f); [done|done|done| |done]. cbn. intros p' [= <-]. unfold feature_resolve. by rewrite Hl.
Qed.
Lemma preset_flag_coherent data f :
  coherent data f -> (IsPresetExpressionEvaluationEnabled f).1 = preset_flag_in data /\
  coherent data (IsPresetExpressionEvaluationEnabled f).2.
Proof.
  unfold IsPresetExpressionEvaluationEnabled, preset_flag_in. destruct data as [data|], f as [f|]; try done. intros Hc.
  pose proof Hc as (Hraw & _ & Hp & Hb). cbn [mbind option_bind]. subst data. unfold feature_resolve in Hb.
  destruct (f_pluginPreset f) as [b|] eqn:Hf.
  { split; [|done]. specialize (Hb b eq_refl). by destruct (f_raw f !! PluginPresetFeatureKey); [rewrite Hb|]. }
  unfold resolvePluginPresetFeatures, feature_resolve.
  destruct (f_raw f !! PluginPresetFeatureKey) as [raw|] eqn:Hl; [|done]. cbn.
  destruct (yaml_pluginPresetFeatures raw) as [b|e] eqn:Hy; [|done]. cbn. split; [done|].
  apply (coherent_raw (f_raw f) f); [done|done|done|done|]. cbn. intros b' [= <-]. unfold feature_resolve. by rewrite Hl.
Qed.
Lemma GetDexStorageType_coherent data f :
  coherent (Some data) (Some f) -> (GetDexStorageType f).1 = dex_storage data /\
  (is_Some (dex_storage data) -> coherent (Some data) (Some (GetDexStorageType f).2)).
Proof.
  intros Hc. pose proof Hc as (Hraw & Hd & Hp & Hb). unfold GetDexStorageType.
  destruct (f_dex f) as [s|] eqn:Hs; [by rewrite (Hd s)|].
  unfold resolveDexFeatures, feature_resolve, dex_storage. rewrite Hraw.
  destruct (data !! DexFeatureKey) as [raw|] eqn:Hl; [|done]. cbn.
  destruct (yaml_dexFeatures raw) as [s|e] eqn:Hy; [|done]. cbn. split; [done|]. intros [s' Hs'].
  unfold feature_resolve in Hp, Hb. rewrite Hraw in Hp, Hb. split; [done|]. split; [|by split]. cbn. intros s'' [= <-].
  unfold dex_storage. rewrite Hl, Hy. by case_bool_decide.
Qed.
(** Asking twice for an empty storage: nil, then a pointer to nothing. *)
Lemma empty_storage_asked_twice data raw : data !! DexFeatureKey = Some raw -> yaml_dexFeatures raw = Ok "" ->
  let '(first, f) := GetDexStorageType (mk_features data None None None) in
  first = None /\ (GetDexStorageType f).1 = Some "".
Proof.
  intros Hl Hy. unfold GetDexStorageType, resolveDexFeatures, feature_resolve. cbn. by rewrite Hl, Hy.
Qed.
End safety.

(** ** What is started *)
Section started.
Context {FLibs : FeatureLibs}.
Variable LookupEnv : string -> option string.
Variable flags : manager_flags.
(** The parameters of a controller, from the flags and the ConfigMap alone *)
Definition expected_config (data : option strmap) (name : string) : controller_config :=
  if bool_decide (name = "organizationController") then
    OrganizationConfig (GetEnvOrDefault LookupEnv "POD_NAMESPACE" "greenhouse")
      (match data with None => K8s | Some d => default "" (dex_storage d) end)
  else if bool_decide (name = "plugin") then
    PluginConfig (plugin_flag_in ExpressionEvaluationEnabled data) (plugin_flag_in IntegrationEnabled data)
      (plugin_flag_in OCIMirroringEnabled data) (artifactStoragePath flags) (artifactRetries flags)
  else if bool_decide (name = "pluginPreset") then PluginPresetConfig (preset_flag_in data)
  else if bool_decide (name = "catalog") then CatalogConfig (artifactStoragePath flags) (artifactRetries flags)
  else if bool_decide (name = "pluginDefinition") then DefinitionConfig (plugin_flag_in OCIMirroringEnabled data)
  else if bool_decide (name = "clusterPluginDefinition") then DefinitionConfig (plugin_flag_in OCIMirroringEnabled data)
  else if bool_decide (name = "cluster") then ClusterConfig (remoteClusterBearerTokenValidity flags) (renew_after flags)
  else PlainConfig.
(** The storage of Dex can be told from the data. *)
Definition storage_known (data : option strmap) : Prop := match data with Some d => is_Some (dex_storage d) | None => True end.
Local Abbreviation trace := (list (call startE)).
Local Abbreviation wpt := (wp (traced any_answer)).
Definition is_storage (c : call startE) : Prop := match c with Call (StStorage _) _ => True | _ => False end.
Definition not_start (c : call startE) : Prop := match c with Call StStart _ => False | _ => True end.
Definition set_up (name : string) (cfg : controller_config) : call startE := Call (StSetupController name cfg) None.
(** What a set-up function may do *)
Definition start_post (data : option strmap) (name : string) (h h' : trace) (r : start_answer) : Prop :=
  match r with
  | inl (None, f) => coherent data f /\ (name = "organizationController" -> storage_known data) /\
      exists pre, Forall is_storage pre /\ h' = h ++ pre ++ [set_up name (expected_config data name)]
  | _ => exists l, Forall not_start l /\ h' = h ++ l
  end.
Lemma setup_wp data name cfg f (h : trace) pre :
  Forall is_storage pre -> coherent data f -> (name = "organizationController" -> storage_known data) ->
  cfg = expected_config data name ->
  wpt (setup name cfg f) (start_post data name h) (h ++ pre).
Proof.
  intros Hpre Hc Hs ->. unfold setup. apply wp_bind, wp_trigger. intros err h1 [_ ->]. apply wp_ret. destruct err as [e|].
  - eexists. rewrite <-app_assoc. split; [|done]. apply Forall_app. split; [|by repeat constructor].
    eapply Forall_impl; [exact Hpre|]. by intros [X [] x].
  - split; [done|]. split; [done|]. exists pre. by rewrite <-app_assoc.
Qed.
Lemma setup_wp0 data name cfg f (h : trace) :
  coherent data f -> (name = "organizationController" -> storage_known data) -> cfg = expected_config data name ->
  wpt (setup name cfg f) (start_post data name h) h.
Proof. intros Hc Hs Hcfg. pose proof (setup_wp data name cfg f h []) as H. rewrite app_nil_r in H. by apply H. Qed.
Lemma storage_calls {A} (p : prog storageE A) (h : trace) :
  wpt (translate (fun _ => StStorage) p) (fun h' _ => exists l, Forall is_storage l /\ h' = h ++ l) h.
Proof.
  apply wp_translate. apply (wp_inv _ p (fun h' => exists l, Forall is_storage l /\ h' = h ++ l)).
  - intros h1 X e x h2 (l & Hl & ->) [_ ->]. exists (l ++ [Call (StStorage e) x]). rewrite app_assoc. split; [|done].
    apply Forall_app. split; [done|by repeat constructor].
  - exists []. by rewrite app_nil_r.
Qed.
Lemma setup_organization_wp data name namespace backend f (h : trace) :
  coherent data f -> (name = "organizationController" -> storage_known data) ->
  OrganizationConfig namespace backend = expected_config data name ->
  wpt (setup_organization LookupEnv name namespace backend f) (start_post data name h) h.
Proof.
  intros Hc Hs Hcfg. unfold setup_organization. apply wp_bind. eapply wp_mono; [|apply storage_calls].
  intros h1 err (l & Hl & ->). destruct err as [e|]; [|by apply setup_wp]. apply wp_ret. exists l. split; [|done].
  eapply Forall_impl; [exact Hl|]. by intros [X [] x].
Qed.
Lemma no_calls_post data name (h : trace) r : (forall f, r <> inl (None, f)) -> start_post data name h h r.
Proof.
  intros Hr. unfold start_post. destruct r as [[[e|] f]|]; [|by destruct (Hr f)|]; exists []; by rewrite app_nil_r.
Qed.
Lemma knownControllers_wp data name f (h : trace) :
  coherent data f -> wpt (knownControllers LookupEnv flags name f) (start_post data name h) h.
Proof.
  intros Hc. unfold knownControllers.
  case_bool_decide as Horg.
  { subst name. unfold startOrganizationReconciler. destruct data as [data|], f as [f|]; try done.
    2:{ by apply setup_organization_wp. }
    destruct (GetDexStorageType_coherent data f Hc) as [Hd Hc']. destruct (GetDexStorageType f) as [[backend|] f'] eqn:Hg; cbn in Hd, Hc'.
    - assert (is_Some (dex_storage data)) as Hs by by eexists. apply setup_organization_wp; [by apply Hc'|done|].
      unfold expected_config. rewrite bool_decide_eq_true_2 by done. by rewrite <-Hd.
    - apply wp_ret, no_calls_post. done. }
  case_bool_decide as H1.
  { unfold startPluginReconciler, IsExpressionEvaluationEnabled, IsIntegrationEnabled, IsOCIMirroringEnabled.
    destruct (plugin_flag_coherent ExpressionEvaluationEnabled data f Hc) as [E1 C1]. destruct (plugin_flag ExpressionEvaluationEnabled f) as [b1 f1]. cbn in E1, C1.
    destruct (plugin_flag_coherent IntegrationEnabled data f1 C1) as [E2 C2]. destruct (plugin_flag IntegrationEnabled f1) as [b2 f2]. cbn in E2, C2.
    destruct (plugin_flag_coherent OCIMirroringEnabled data f2 C2) as [E3 C3]. destruct (plugin_flag OCIMirroringEnabled f2) as [b3 f3]. cbn in E3, C3.
    apply setup_wp0; [done|done|]. unfold expected_config. subst. done. }
  case_bool_decide as H2.
  { unfold startPluginPresetReconciler. destruct (preset_flag_coherent data f Hc) as [E1 C1].
    destruct (IsPresetExpressionEvaluationEnabled f) as [b1 f1]. cbn in E1, C1. apply setup_wp0; [done|done|]. subst. done. }
  case_bool_decide as H3; [by apply setup_wp0; [..|subst]|].
  assert (forall f, coherent data f -> name = "pluginDefinition" \/ name = "clusterPluginDefinition" ->
    wpt (startPluginDefinitionReconciler name f) (start_post data name h) h) as Hdef.
  { intros f' Hc' Hnm. unfold startPluginDefinitionReconciler, IsOCIMirroringEnabled.
    destruct (plugin_flag_coherent OCIMirroringEnabled data f' Hc') as [E3 C3]. destruct (plugin_flag OCIMirroringEnabled f') as [b3 f3]. cbn in E3, C3.
    apply setup_wp0; [done|done|]. destruct Hnm; subst; done. }
  case_bool_decide as H4; [by apply Hdef; [|left]|]. case_bool_decide as H5; [by apply Hdef; [|right]|].
  case_bool_decide as H6; apply setup_wp0; try done; subst; try done.
  unfold expected_config. by rewrite !bool_decide_eq_false_2 by done.
Qed.

(** *** The two loops *)
Variable controllers_order webhooks_order : list string.
Variable key : objkey.
(** What the ConfigMap said when the flags were read *)
Definition configured (data : option strmap) (h : trace) : Prop :=
  exists r, Call (StGetConfigMap key) r ∈ h /\
    match r with Ok d => data = Some d | Err e => data = None /\ is_not_found (Some e) = true end.
Definition controllers_set_up (data : option strmap) (names : list string) (h : trace) : Prop :=
  forall name cfg, set_up name cfg ∈ h <->
    name ∈ names /\ isControllerEnabled flags name = true /\ cfg = expected_config data name.
Definition webhooks_set_up (names : list string) (h : trace) : Prop :=
  forall name, Call (StSetupWebhook name) None ∈ h <-> name ∈ names.
Definition org_known (data : option strmap) (names : list string) : Prop :=
  "organizationController" ∈ names -> isControllerEnabled flags "organizationController" = true -> storage_known data.
(** Before the manager starts: the controllers and webhooks of the lists are set up. *)
Definition prepared (data : option strmap) (controllers webhooks : list string) (h : trace) : Prop :=
  Forall not_start h /\ configured data h /\ controllers_set_up data controllers h /\ webhooks_set_up webhooks h /\
  org_known data controllers.
Lemma set_up_inj name cfg name' cfg' : set_up name cfg = set_up name' cfg' -> name = name' /\ cfg = cfg'.
Proof.
  intros H. set (G := fun c : call startE => match c with Call (StSetupController n c) _ => Some (n, c) | _ => None end).
  assert (G (set_up name cfg) = G (set_up name' cfg')) as HG by (by rewrite H). by injection HG.
Qed.
Lemma webhook_inj name name' : @Call startE _ (StSetupWebhook name) None = Call (StSetupWebhook name') None -> name = name'.
Proof.
  intros H. set (G := fun c : call startE => match c with Call (StSetupWebhook n) _ => Some n | _ => None end).
  assert (G (Call (StSetupWebhook name) None) = G (Call (StSetupWebhook name') None)) as HG by (by rewrite H). by injection HG.
Qed.
Lemma Forall_call (Pr : call startE -> Prop) l c : Forall Pr l -> ~ Pr c -> c ∉ l.
Proof. intros Hl Hc Hin. apply Hc. by eapply (proj1 (Forall_forall _ _) Hl). Qed.
Lemma configured_app data h l : configured data h -> configured data (h ++ l).
Proof. intros (r & Hin & Hr). exists r. split; [apply elem_of_app; by left|done]. Qed.
Lemma prepared_skip data cs ws name h :
  isControllerEnabled flags name = false -> prepared data cs ws h -> prepared data (cs ++ [name]) ws h.
Proof.
  intros Hn (H1 & H2 & H3 & H4 & H5). split; [done|]. split; [done|]. split; [|split; [done|]].
  - intros n cfg. rewrite (H3 n cfg), elem_of_app, list_elem_of_singleton. naive_solver congruence.
  - intros [Hin|Hin%list_elem_of_singleton]%elem_of_app; [by apply H5|]. subst. congruence.
Qed.
Lemma prepared_set_up data cs ws name h pre :
  isControllerEnabled flags name = true -> Forall is_storage pre -> (name = "organizationController" -> storage_known data) ->
  prepared data cs ws h -> prepared data (cs ++ [name]) ws (h ++ pre ++ [set_up name (expected_config data name)]).
Proof.
  intros Hn Hpre Hs (H1 & H2 & H3 & H4 & H5).
  split; [|split; [by apply configured_app|split; [|split]]].
  - apply Forall_app. split; [done|]. apply Forall_app. split; [|by repeat constructor].
    eapply Forall_impl; [exact Hpre|]. by intros [X [] x].
  - intros n cfg. rewrite !elem_of_app, (H3 n cfg), !list_elem_of_singleton.
    assert (set_up n cfg ∉ pre) as Hp by (eapply Forall_call; [exact Hpre|exact (fun H => H)]). split.
    + intros [?|[?|[-> ->]%set_up_inj]]; naive_solver.
    + intros ([Hin| ->] & He & ->); [left; naive_solver|by right; right].
  - intros n. rewrite !elem_of_app, (H4 n), list_elem_of_singleton.
    assert (Call (StSetupWebhook n) None ∉ pre) as Hp by (eapply Forall_call; [exact Hpre|exact (fun H => H)]).
    split; [|by left]. intros [?|[?|H]]; [done|done|].
    set (G := fun c : call startE => match c with Call (StSetupWebhook n) _ => true | _ => false end).
    assert (G (Call (StSetupWebhook n) None) = G (set_up name (expected_config data name))) as HG by (by rewrite H). done.
  - intros [Hin|Hin%list_elem_of_singleton]%elem_of_app; [by apply H5|]. intros _. by apply Hs.
Qed.
Lemma prepared_webhook data cs ws name h :
  prepared data cs ws h -> prepared data cs (ws ++ [name]) (h ++ [Call (StSetupWebhook name) None]).
Proof.
  intros (H1 & H2 & H3 & H4 & H5). split; [apply Forall_app; split; [done|by repeat constructor]|].
  split; [by apply configured_app|]. split; [|split; [|done]].
  - intros n cfg. rewrite elem_of_app, (H3 n cfg), list_elem_of_singleton. split; [|by left]. intros [?|H]; [done|].
    set (G := fun c : call startE => match c with Call (StSetupWebhook n) _ => true | _ => false end).
    assert (G (set_up n cfg) = G (Call (StSetupWebhook name) None)) as HG by (by rewrite H). done.
  - intros n. rewrite !elem_of_app, (H4 n), !list_elem_of_singleton. split; [|naive_solver].
    intros [?|H%webhook_inj]; [by left|by right].
Qed.
(** A loop ends with everything set up, or before the start. *)
Definition loop_post {A} (data : option strmap) (cs ws : list string) (good : A -> Prop) (h : trace) (r : A + main_end) : Prop :=
  match r with inl a => good a /\ prepared data cs ws h | inr e => Forall not_start h /\ e <> Finished end.
Lemma controllers_loop data ws f (h : trace) :
  coherent data f -> prepared data [] ws h ->
  wpt (foreach controllers_order (register_controller LookupEnv flags) f)
    (loop_post data controllers_order ws (fun f => coherent data f)) h.
Proof.
  intros Hc Hp. apply (wp_foreach _ _ _ (fun rest h f => exists done, controllers_order = done ++ rest /\
    coherent data f /\ prepared data done ws h)).
  - by exists [].
  - intros h' f' (done' & -> & Hc' & Hp'). rewrite app_nil_r. by split.
  - intros name rest h' f' (done' & Heq & Hc' & Hp'). unfold register_controller.
    destruct (isControllerEnabled flags name) eqn:Hn; cbn [negb].
    2:{ apply wp_ret. exists (done' ++ [name]). rewrite <-app_assoc. split; [done|]. split; [done|]. by apply prepared_skip. }
    apply wp_bind. eapply wp_mono; [|by apply knownControllers_wp]. intros h'' r Hr. apply wp_ret.
    unfold start_post in Hr. destruct r as [[[e|] f'']|].
    + destruct Hr as (l & Hl & ->). split; [|done]. apply Forall_app. split; [apply Hp'|done].
    + destruct Hr as (Hc'' & Hs & pre & Hpre & ->). exists (done' ++ [name]). rewrite <-app_assoc. split; [done|].
      split; [done|]. by apply prepared_set_up.
    + destruct Hr as (l & Hl & ->). split; [|done]. apply Forall_app. split; [apply Hp'|done].
Qed.
Lemma webhooks_loop data cs (h : trace) :
  prepared data cs [] h ->
  wpt (foreach webhooks_order register_webhook tt) (loop_post data cs webhooks_order (fun _ => True)) h.
Proof.
  intros Hp. apply (wp_foreach _ _ _ (fun rest h (_ : unit) => exists done, webhooks_order = done ++ rest /\ prepared data cs done h)).
  - by exists [].
  - intros h' u (done' & -> & Hp'). rewrite app_nil_r. by split.
  - intros name rest h' u (done' & Heq & Hp'). unfold register_webhook. apply wp_bind, wp_trigger. intros [e|] h'' [_ ->]; apply wp_ret.
    + split; [|done]. apply Forall_app. split; [apply Hp'|by repeat constructor].
    + exists (done' ++ [name]). rewrite <-app_assoc. split; [done|]. by apply prepared_webhook.
Qed.

(** *** The whole start *)
Local Abbreviation starts h := (exists x, Call StStart x ∈ h).
Lemma not_started (h : trace) : Forall not_start h -> ~ starts h.
Proof. intros Hh [x Hin]. by apply (proj1 (Forall_forall _ _) Hh) in Hin. Qed.
Definition started (data : option strmap) (cs ws : list string) (h : trace) : Prop :=
  configured data h /\ controllers_set_up data cs h /\ webhooks_set_up ws h /\ org_known data cs.
Lemma prepared_other data cs ws h c :
  (forall name cfg, c <> set_up name cfg) -> (forall name, c <> Call (StSetupWebhook name) None) ->
  started data cs ws h -> started data cs ws (h ++ [c]).
Proof.
  intros Hc Hw (H1 & H2 & H3 & H4). split; [by apply configured_app|]. split; [|split; [|done]].
  - intros n cfg. rewrite elem_of_app, (H2 n cfg), list_elem_of_singleton. split; [|by left]. intros [?|H]; [done|].
    by destruct (Hc n cfg).
  - intros n. rewrite elem_of_app, (H3 n), list_elem_of_singleton. split; [|by left]. intros [?|H]; [done|]. by destruct (Hw n).
Qed.
Lemma serve_wp data cs ws (h : trace) :
  prepared data cs ws h -> wpt serve (fun h' r => started data cs ws h' /\ (r = Finished -> starts h')) h.
Proof.
  intros (_ & Hp). fold (started data cs ws h) in Hp.
  assert (forall h X (e : startE X) x, match e with StSetupController _ _ | StSetupWebhook _ => False | _ => True end ->
    started data cs ws h -> started data cs ws (h ++ [Call e x])) as Hnext.
  { intros h1 X e x He. apply prepared_other.
    - intros n cfg H. set (G := fun c : call startE => match c with Call (StSetupController n c) _ => true | _ => false end).
      assert (G (Call e x) = G (set_up n cfg)) as HG by (by rewrite H). by destruct e.
    - intros n H. set (G := fun c : call startE => match c with Call (StSetupWebhook n) _ => true | _ => false end).
      assert (G (Call e x) = G (Call (StSetupWebhook n) None)) as HG by (by rewrite H). by destruct e. }
  unfold serve, handleError. apply wp_bind, wp_trigger. intros [e|] h1 [_ ->]; [apply wp_ret; split; [by repeat (apply Hnext; [exact I|])|done]|].
  apply wp_bind, wp_trigger. intros [e|] h2 [_ ->]; [apply wp_ret; split; [by repeat (apply Hnext; [exact I|])|done]|].
  apply wp_bind, wp_trigger. intros x h3 [_ ->]. destruct x as [e|]; apply wp_ret; (split; [by repeat (apply Hnext; [exact I|])|]); [done|].
  intros _. exists None. apply elem_of_app. right. constructor.
Qed.
(** What the end of a run of [main] says of its calls *)
Definition start_result (mode : managerMode) (h : trace) (r : main_end) : Prop :=
  (r = Finished -> starts h) /\
  (starts h -> exists data, started data (if decide (mode = webhookOnlyMode) then [] else knownControllersNames)
                                    (if decide (mode = controllerOnlyMode) then [] else knownWebhooks) h).
Lemma not_started_result mode (h : trace) r : Forall not_start h -> r <> Finished -> start_result mode h r.
Proof. intros Hh Hr. split; [done|]. intros Hs. by destruct (not_started h Hh). Qed.
Lemma fresh_prepared data k1 k2 (h : trace) :
  h = [Call (StNewManager k1) None; Call (StGetConfigMap key) k2] -> configured data h -> prepared data [] [] h.
Proof.
  intros -> Hconf. split; [by repeat constructor|]. split; [done|]. split; [|split; [|by intros ?%elem_of_nil]].
  - intros n cfg. split; [|by intros [?%elem_of_nil _]]. intros Hin. exfalso.
    pose (G := fun c : call startE => match c with Call (StSetupController _ _) _ => true | _ => false end).
    by apply elem_of_cons in Hin as [Hin|[Hin|[]%elem_of_nil]%elem_of_cons]; apply (f_equal G) in Hin.
  - intros n. split; [|by intros ?%elem_of_nil]. intros Hin. exfalso.
    pose (G := fun c : call startE => match c with Call (StSetupWebhook _) _ => true | _ => false end).
    by apply elem_of_cons in Hin as [Hin|[Hin|[]%elem_of_nil]%elem_of_cons]; apply (f_equal G) in Hin.
Qed.
Lemma started_perm data cs cs' ws ws' h :
  (forall n, n ∈ cs <-> n ∈ cs') -> (forall n, n ∈ ws <-> n ∈ ws') -> started data cs ws h -> started data cs' ws' h.
Proof.
  intros Hcs Hws (S1 & S2 & S3 & S4). split; [done|]. split; [|split; [|intros Hin; by apply S4, Hcs]].
  - intros n cfg. by rewrite (S2 n cfg), Hcs.
  - intros n. by rewrite (S3 n), Hws.
Qed.
Lemma register_all_wp mode data f (h : trace) :
  controllers_order ≡ₚ knownControllersNames -> webhooks_order ≡ₚ knownWebhooks ->
  coherent data f -> prepared data [] [] h ->
  wpt (register_all LookupEnv flags controllers_order webhooks_order mode f) (start_result mode) h.
Proof.
  intros Hco Hwo Hc Hp. unfold register_all. apply wp_bind.
  eapply (wp_mono _ _ (loop_post data (if decide (mode = webhookOnlyMode) then [] else controllers_order) [] (fun _ => True))).
  2:{ case_bool_decide as Hm; [rewrite decide_True by done; by apply wp_ret|]. rewrite decide_False by done.
      eapply wp_mono; [|by apply controllers_loop]. intros h2 r Hr. destruct r; [|done]. by destruct Hr. }
  intros h2 r Hr. destruct r as [f2|e]; [|apply wp_ret, not_started_result; apply Hr]. destruct Hr as [_ Hp2].
  apply wp_bind. set (cs := if decide _ then _ else controllers_order) in *.
  eapply (wp_mono _ _ (loop_post data cs (if decide (mode = controllerOnlyMode) then [] else webhooks_order) (fun _ => True))).
  2:{ case_bool_decide as Hm; [rewrite decide_True by done; by apply wp_ret|]. rewrite decide_False by done.
      by apply webhooks_loop. }
  intros h3 r Hr. destruct r as [u|e]; [|apply wp_ret, not_started_result; apply Hr]. destruct Hr as [_ Hp3].
  eapply wp_mono; [|by apply (serve_wp data)]. intros h4 r [Hst Hf]. split; [done|]. intros _. exists data.
  eapply started_perm; [| |exact Hst]; intros n.
  - subst cs. destruct (decide (mode = webhookOnlyMode)); [done|]. by rewrite Hco.
  - destruct (decide (mode = controllerOnlyMode)); [done|]. by rewrite Hwo.
Qed.
(** C34: what the manager starts.  When main comes to start it, the mode could be told from the
    environment and the ConfigMap with the feature flags was read, or did not exist; in webhook-only
    mode no controller was set up, otherwise exactly the known controllers that are enabled and not
    disabled, each with the parameters the command line and the ConfigMap give - whatever the order
    in which the map of controllers is walked and in which the flags are decoded and kept; in
    controllers-only mode no webhook was set up, otherwise exactly the known ones.  And when the
    Organization controller is among them, a ConfigMap that exists names the storage of Dex: without
    that entry the manager never starts.  It panics at the nil pointer instead. *)
Theorem manager_starts_selected :
  controllers_order ≡ₚ knownControllersNames -> webhooks_order ≡ₚ knownWebhooks ->
  key = mk_key (GetEnvOrDefault LookupEnv "POD_NAMESPACE" "greenhouse") (GetEnvOrDefault LookupEnv "FEATURE_FLAGS" "greenhouse-feature-flags") ->
  wpt (main LookupEnv flags controllers_order webhooks_order) (fun h r =>
    (r = Finished -> starts h) /\
    (starts h -> exists mode data, calculateManagerMode LookupEnv = Ok mode /\
       started data (if decide (mode = webhookOnlyMode) then [] else knownControllersNames)
                    (if decide (mode = controllerOnlyMode) then [] else knownWebhooks) h)) [].
Proof using FLibs.
  intros Hco Hwo Hkey. unfold main. case_bool_decide; [apply wp_ret; by split; [|intros [x []%elem_of_nil]]|].
  destruct (calculateManagerMode LookupEnv) as [mode|e]; [|apply wp_ret; by split; [|intros [x []%elem_of_nil]]].
  apply (wp_mono _ _ (start_result mode)); [intros h r [H1 H2]; split; [done|]; intros [data Hd]%H2; by exists mode, data|].
  apply wp_bind, wp_trigger. intros [e|] h0 [_ ->]; [apply wp_ret, not_started_result; [by repeat constructor|done]|].
  cbn [handleError]. unfold NewFeatures. rewrite <-Hkey. apply wp_bind, wp_bind, wp_trigger. intros answer h1 [_ ->]. apply wp_ret.
  assert (Call (StGetConfigMap key) answer ∈ ([] ++ [Call (StNewManager (leader_election LookupEnv mode)) None]) ++ [Call (StGetConfigMap key) answer]) as Hin
    by (apply elem_of_app; right; constructor).
  destruct answer as [data|e].
  - apply (register_all_wp mode (Some data)); [done|done|done|]. eapply fresh_prepared; [reflexivity|]. exists (Ok data). by split.
  - destruct (is_not_found (Some e)) eqn:Hn; [|apply wp_ret, not_started_result; [by repeat constructor|done]].
    apply (register_all_wp mode None); [done|done|done|]. eapply fresh_prepared; [reflexivity|]. exists (Err e). by split.
Qed.
(** The panic at the storage of Dex *)
Lemma unnamed_storage_panics name data : dex_storage data = None ->
  startOrganizationReconciler LookupEnv name (Some (mk_features data None None None)) = mret (inr tt) /\
  idproxy_storage LookupEnv (Some (mk_features data None None None)) = Panics.
Proof.
  intros Hd. assert (coherent (Some data) (Some (mk_features data None None None))) as Hc by done.
  destruct (GetDexStorageType_coherent data _ Hc) as [Hg _]. rewrite Hd in Hg.
  unfold startOrganizationReconciler, idproxy_storage. destruct (GetDexStorageType _) as [[s|] f]; [done|]. done.
Qed.
(** Tokens are not asked to be renewed before their whole validity. *)
Lemma renew_after_bound : (0 <= remoteClusterBearerTokenValidity flags)%Z ->
  (renew_after flags <= remoteClusterBearerTokenValidity flags)%Z.
Proof.
  intros Hv. unfold renew_after. destruct (Z.ltb_spec (remoteClusterBearerTokenValidity flags) (renewRemoteClusterBearerTokenAfter flags)); [|lia].
  rewrite Z.quot_div_nonneg by lia. apply Z.div_le_upper_bound; lia.
Qed.
(** The port fits the 16 bits it is converted to, and is kept when it does. *)
Lemma postgres_port_bounds :
  (0 <= postgres_port LookupEnv < 2 ^ 16)%Z /\
  (forall port, ParseInt10 (Getenv LookupEnv "PG_PORT") = Some port ->
     postgres_port LookupEnv = if bool_decide (0 <= port < 2 ^ 16)%Z then port else 5432%Z).
Proof.
  unfold postgres_port, GetIntEnvWithDefault. split.
  - destruct ((_ <? 0) || _)%Z; [lia|]. apply Z.mod_pos_bound. lia.
  - intros port ->. cbn [default from_option id]. case_bool_decide as Hp.
    + rewrite (proj2 (orb_false_iff _ _)) by (split; lia). apply Z.mod_small. lia.
    + by rewrite (proj2 (orb_true_iff _ _)) by lia.
Qed.
End started.

(** ** Runs *)
Module StartRun.
#[local] Instance yaml : FeatureLibs := {|
  yaml_dexFeatures raw := Ok raw;
  yaml_pluginFeatures raw := Ok (mk_plugin_features (contains raw "expressions") (contains raw "integration") (contains raw "mirroring"));
  yaml_pluginPresetFeatures raw := Ok (contains raw "expressions") |}.
Definition no_env (name : string) : option string := None.
Definition command_line : manager_flags :=
  mk_manager_flags knownControllersNames ["catalog"] (24 * 3600000000000) (20 * 3600000000000) "greenhouse.example" "/tmp/data" 5.
(** Everything works; the ConfigMap has these data. *)
Definition answer (data : strmap) X (e : startE X) (w : unit) : X * unit :=
  match e in startE X return X * unit with
  | StNewManager _ => (None, tt)
  | StGetConfigMap _ => (Ok data, tt)
  | StStorage e =>
      match e in storageE X return X * unit with
      | OpenPostgres _ => (None, tt)
      | OpenKubernetes _ _ => (None, tt)
      | InClusterConfig => (None, tt)
      | HomeDir => ("/root", tt)
      end
  | StSetupController _ _ => (None, tt)
  | StSetupWebhook _ => (None, tt)
  | StAddCheck _ => (None, tt)
  | StStart => (None, tt)
  end.
Definition a_main := main no_env command_line (List.rev knownControllersNames) knownWebhooks.
Definition complete_data : strmap := {["dex" := "kubernetes"; "plugin" := "mirroring"]}.
Lemma run_finishes : run_result (answer complete_data) a_main tt = Finished.
Proof. by vm_compute. Qed.
(** Without the entry for Dex the manager panics before it starts. *)
Lemma run_panics : run_result (answer {["plugin" := "mirroring"]}) a_main tt = MainPanics.
Proof. by vm_compute. Qed.
Lemma manager_starts_selected_witness :
  let h := run_calls (answer complete_data) a_main tt in
  exists mode data, calculateManagerMode no_env = Ok mode /\ configured (mk_key "greenhouse" "greenhouse-feature-flags") data h /\
    controllers_set_up no_env command_line data (if decide (mode = webhookOnlyMode) then [] else knownControllersNames) h.
Proof.
  assert (List.rev knownControllersNames ≡ₚ knownControllersNames) as Hp by (symmetry; apply Permutation_rev).
  pose proof (wp_run (answer complete_data) any_answer a_main _ [] tt ltac:(done)
    (manager_starts_selected no_env command_line _ _ (mk_key "greenhouse" "greenhouse-feature-flags") Hp (Permutation_refl _) eq_refl)) as [Hf Hs].
  destruct (Hs (Hf run_finishes)) as (mode & data & Hm & Hc & Hcs & _). exists mode, data. split; [done|]. by split.
Defined.
End StartRun.
