(* ===== verification/Cel.v ===== *)
(** * Cel: expressions in option values and references
      ([pkg/cel/evaluator.go], [pkg/cel/expression_evaluator.go])

    [Evaluate] runs one CEL expression on a Kubernetes object; [EvaluateExpression] fills the
    placeholders of a YAML text with the values of their expressions.  These are the functions
    the models of the Plugin and PluginPreset controllers take as parameters
    ([EvaluateExpression], [cel_Evaluate]).

    cel-go, encoding/json and sigs.k8s.io/yaml are parameters.  A value of the CEL library is
    known by what [convertCELValue] looks at: whether it is an error, a list or map of CEL
    values, or anything else with its Go value; a map comes in the order the range walks it. *)
From S2P Require Import Prelude OciMirror.
From Stdlib Require Import Ascii.

(** A Go value of type [any]; of other types the type's name and the JSON matter. *)
#[warnings="-register-all"] Inductive goval :=
| GoString (s : string)
| GoList (l : list goval)
| GoMap (m : list (string * goval))
| GoOther (type json : string).
Definition go_type_name (v : goval) : string :=
  match v with
  | GoString _ => "string"
  | GoList _ => "[]interface {}"
  | GoMap _ => "map[string]interface {}"
  | GoOther t _ => t
  end.
(** [ref.Val] *)
#[warnings="-register-all"] Inductive refVal :=
| RvError (msg : string)
| RvList (l : list refVal)
| RvMap (m : list (refVal * refVal))
| RvValue (v : goval).
(** [m[k] = v] on an association list *)
Fixpoint assoc_set {A} (k : string) (v : A) (m : list (string * A)) : list (string * A) :=
  match m with
  | [] => [(k, v)]
  | (k', v') :: m => if String.eqb k' k then (k, v) :: m else (k', v') :: assoc_set k v m
  end.
Fixpoint convertCELValue (val : refVal) : result goval :=
  match val with
  | RvError msg => Err (new_error ("CEL evaluation error: " +:+ msg))
  | RvList l =>
      (fix items (l : list refVal) (done : list goval) : result goval :=
         match l with
         | [] => Ok (GoList done)
         | item :: l => converted ← convertCELValue item; items l (done ++ [converted])
         end) l []
  | RvMap m =>
      (fix entries (m : list (refVal * refVal)) (done : list (string * goval)) : result goval :=
         match m with
         | [] => Ok (GoMap done)
         | (k, v) :: m =>
             keyConverted ← convertCELValue k;
             valueConverted ← convertCELValue v;
             match keyConverted with
             | GoString keyStr => entries m (assoc_set keyStr valueConverted done)
             | other => Err (new_error ("map key must be a string, got " +:+ go_type_name other))
             end
         end) m []
  | RvValue v => Ok v
  end.

Class CelLibs := {
  cel_Object : Type;
  cel_Env : Type;
  cel_Ast : Type;
  cel_Program : Type;
  cel_NewEnv : list string -> result cel_Env;
  env_Compile : cel_Env -> string -> result cel_Ast;
  env_Program : cel_Env -> cel_Ast -> result cel_Program;
  (** of the named variables with their values *)
  prg_Eval : cel_Program -> list (string * goval) -> result refVal;
  json_Marshal_object : cel_Object -> result string;
  json_Unmarshal_map : string -> result goval;
  json_Marshal_any : goval -> result string;
  yaml_YAMLToJSON : string -> result string
}.

Section cel.
Context {Libs : CelLibs}.
Definition wrap_result {A} (pre : string) (r : result A) : result A :=
  match r with Ok a => Ok a | Err e => Err (wrap_error pre e) end.
(** ** One object *)
Definition CompileExpressionWithEnv (expression : string) (env : cel_Env) : result cel_Program :=
  ast ← wrap_result "failed to compile expression: " (env_Compile env expression);
  wrap_result "failed to create program: " (env_Program env ast).
Definition compileExpression (expression : string) : result cel_Program :=
  env ← wrap_result "failed to create CEL environment: " (cel_NewEnv ["object"]);
  CompileExpressionWithEnv expression env.
Definition structToMap (v : cel_Object) : result goval :=
  data ← wrap_result "failed to marshal struct: " (json_Marshal_object v);
  wrap_result "failed to unmarshal to map: " (json_Unmarshal_map data).
(** [None] is a nil object. *)
Definition evaluateObject (obj : option cel_Object) (prg : cel_Program) : result goval :=
  match obj with
  | None => Err (new_error "object cannot be nil")
  | Some obj =>
      objMap ← wrap_result "failed to convert object to map: " (structToMap obj);
      out ← wrap_result "failed to evaluate expression: " (prg_Eval prg [("object", objMap)]);
      convertCELValue out
  end.
Definition Evaluate (expression : string) (obj : option cel_Object) : result goval :=
  match obj with
  | None => Err (new_error "object cannot be nil")
  | Some _ =>
      if bool_decide (expression = "") then Err (new_error "expression cannot be empty")
      else prg ← compileExpression expression; evaluateObject obj prg
  end.
(** The results of the objects from index [i] on *)
Fixpoint evaluate_from (i : nat) (objs : list (option cel_Object)) (prg : cel_Program) : result (list goval) :=
  match objs with
  | [] => Ok []
  | obj :: objs =>
      r ← wrap_result ("failed to evaluate object at index " +:+ pretty.pretty i +:+ ": ") (evaluateObject obj prg);
      results ← evaluate_from (S i) objs prg;
      Ok (r :: results)
  end.
Definition EvaluateList (expression : string) (objs : list (option cel_Object)) : result (list goval) :=
  if bool_decide (objs = []) then Err (new_error "at least one object must be provided")
  else if bool_decide (expression = "") then Err (new_error "expression cannot be empty")
  else prg ← compileExpression expression; evaluate_from 0 objs prg.
(** [T]: the type assertion and the decoding of the type parameter *)
Definition EvaluateTyped {T} (assert : goval -> option T) (Unmarshal : string -> result T)
    (expression : string) (obj : option cel_Object) : result T :=
  val ← Evaluate expression obj;
  match assert val with
  | Some cast => Ok cast
  | None =>
      data ← wrap_result "marshal CEL result: " (json_Marshal_any val);
      wrap_result "unmarshal CEL result: " (Unmarshal data)
  end.

(** ** Placeholders *)
Definition EvaluateWithData (expression : string) (env : cel_Env) (data : goval) : result goval :=
  if bool_decide (expression = "") then Err (new_error "expression cannot be empty")
  else
    prg ← CompileExpressionWithEnv expression env;
    out ← wrap_result "failed to evaluate expression: "
            (prg_Eval prg (match data with GoMap m => m | _ => [] end));
    convertCELValue out.
Definition not_brace (c : ascii) : bool := negb (Ascii.eqb c "}").
(** [expressionPattern.FindAllStringSubmatch]: placeholders with their expressions *)
Fixpoint find_placeholders (fuel : nat) (s : string) : list (string * string) :=
  match fuel, s with
  | O, _ | _, EmptyString => []
  | S fuel, String _ s' =>
      match cut_prefix s "${" with
      | None => find_placeholders fuel s'
      | Some rest =>
          let expression := take_while not_brace rest in
          match drop_while not_brace rest with
          | EmptyString => find_placeholders fuel s'
          | String _ after =>
              if bool_decide (expression = "") then find_placeholders fuel s'
              else ("${" +:+ expression +:+ "}", expression) :: find_placeholders fuel after
          end
      end
  end.
Definition FindAllStringSubmatch (s : string) : list (string * string) := find_placeholders (String.length s) s.
Definition formatValue (value : goval) : result string :=
  match value with
  | GoString str => Ok str
  | _ => json_Marshal_any value
  end.
(** The value of one placeholder *)
Definition placeholder_value (env : cel_Env) (templateData : goval) (expression : string) : result string :=
  celResult ← wrap_result ("failed to evaluate CEL expression '" +:+ expression +:+ "': ")
                (EvaluateWithData expression env templateData);
  wrap_result ("failed to format value for expression '" +:+ expression +:+ "': ") (formatValue celResult).
Fixpoint fill (env : cel_Env) (templateData : goval) (matches : list (string * string)) (resolvedYaml : string) :
    result string :=
  match matches with
  | [] => Ok resolvedYaml
  | (placeholder, expression) :: matches =>
      value ← placeholder_value env templateData expression;
      fill env templateData matches (ReplaceAll resolvedYaml placeholder value)
  end.
Definition createExpressionCELEnv : result cel_Env := cel_NewEnv ["global"].
Definition EvaluateExpression (yamlStr : string) (templateData : goval) : result string :=
  if bool_decide (yamlStr = "") then Err (new_error "expression cannot be empty")
  else
    match FindAllStringSubmatch yamlStr with
    | [] => yaml_YAMLToJSON yamlStr
    | matches =>
        env ← wrap_result "failed to create CEL environment: " createExpressionCELEnv;
        resolvedYaml ← fill env templateData matches yamlStr;
        yaml_YAMLToJSON resolvedYaml
    end.
End cel.

(** ** Templates: what [EvaluateExpression] is expected to compute *)
Inductive token := Text (s : string) | Hole (expression : string).
Definition render (t : token) : string :=
  match t with Text s => s | Hole e => "${" +:+ e +:+ "}" end.
Definition template (ts : list token) : string := foldr (fun t s => render t +:+ s) "" ts.
Fixpoint lacks (c : ascii) (s : string) : bool :=
  match s with
  | EmptyString => true
  | String x s => negb (Ascii.eqb x c) && lacks c s
  end.
(** Texts and expressions without a dollar sign; expressions without a closing brace *)
Definition proper_token (t : token) : Prop :=
  match t with
  | Text s => lacks "$" s = true
  | Hole e => e <> "" /\ lacks "$" e = true /\ lacks "}" e = true
  end.
Definition expressions (ts : list token) : list string :=
  omap (fun t => match t with Hole e => Some e | Text _ => None end) ts.
Definition placeholder_match (e : string) : string * string := ("${" +:+ e +:+ "}", e).
(** The simultaneous substitution of the values for the holes, or the error of the first hole
    without value *)
Fixpoint substitute (value : string -> result string) (ts : list token) : result string :=
  match ts with
  | [] => Ok ""
  | Text s :: ts => rest ← substitute value ts; Ok (s +:+ rest)
  | Hole e :: ts => v ← value e; rest ← substitute value ts; Ok (v +:+ rest)
  end.

Section templates.
Lemma lacks_app c s t : lacks c (s +:+ t) = lacks c s && lacks c t.
Proof. induction s as [|x s IH]; simpl; [done|]. by rewrite IH, andb_assoc. Qed.

Lemma lacks_brace_Forall e :
  lacks "}" e = true -> Forall (fun c => not_brace c = true) (String.list_ascii_of_string e).
Proof.
  induction e as [|x e IH]; simpl; [constructor|].
  intros [H1 H2]%andb_true_iff. constructor; [done|by apply IH].
Qed.

Lemma dollar_free_prefix x s p : negb (Ascii.eqb x "$") = true -> cut_prefix (String x s) (String "$" p) = None.
Proof. intros H. cbn [cut_prefix]. rewrite Ascii.eqb_sym. by destruct (Ascii.eqb x "$"). Qed.

(** Two expressions that are followed by the same text up to their closing braces agree. *)
Lemma hole_inj e e' r r' :
  lacks "}" e = true -> lacks "}" e' = true ->
  e +:+ String "}" r = e' +:+ String "}" r' -> e = e'.
Proof.
  revert e'. induction e as [|x e IH]; intros [|y e'] He He' Heq; simplify_eq/=; try done.
  apply andb_true_iff in He as [_ He]. apply andb_true_iff in He' as [_ He'].
  f_equal. by apply (IH e').
Qed.

Lemma find_placeholders_skip s n rest :
  lacks "$" s = true ->
  find_placeholders (String.length s + n) (s +:+ rest) = find_placeholders n rest.
Proof.
  induction s as [|x s IH]; [done|]. intros [Hx Hs]%andb_true_iff.
  cbn [String.length Nat.add String.append find_placeholders].
  rewrite (dollar_free_prefix x _ "{" Hx). by apply IH.
Qed.

Lemma replace_all_skip s n old new rest :
  lacks "$" s = true ->
  replace_all (String.length s + n) (String "$" old) new (s +:+ rest)
  = s +:+ replace_all n (String "$" old) new rest.
Proof.
  induction s as [|x s IH]; [done|]. intros [Hx Hs]%andb_true_iff.
  cbn [String.length Nat.add String.append replace_all].
  rewrite (dollar_free_prefix x _ old Hx). by rewrite IH.
Qed.

Lemma find_placeholders_template ts n :
  Forall proper_token ts -> String.length (template ts) <= n ->
  find_placeholders n (template ts) = placeholder_match <$> expressions ts.
Proof.
  intros Hts. revert n.
  induction Hts as [|[s|e] ts Ht _ IH]; intros n Hn.
  - by destruct n.
  - change (template (Text s :: ts)) with (s +:+ template ts) in *.
    rewrite length_append in Hn.
    replace n with (String.length s + (n - String.length s)) by lia.
    rewrite find_placeholders_skip by done. apply IH. lia.
  - destruct Ht as (He & _ & Hb).
    change (template (Hole e :: ts)) with ("${" +:+ (e +:+ "}") +:+ template ts) in *.
    rewrite append_assoc in Hn |- *.
    destruct n as [|n]; [cbn in Hn; lia|].
    destruct (take_while_all not_brace e ("}" +:+ template ts)) as [Htk Hdr];
      [by apply lacks_brace_Forall|done|].
    pose proof (cut_prefix_app "${" (e +:+ "}" +:+ template ts)) as Hc.
    cbn [String.append find_placeholders] in *. rewrite Hc.
    rewrite Htk, Hdr, bool_decide_eq_false_2 by done. cbn [String.append].
    change (expressions (Hole e :: ts)) with (e :: expressions ts). cbn [fmap list_fmap].
    f_equal. apply IH. cbn in Hn. rewrite length_append in Hn. cbn in Hn. lia.
Qed.

Definition fill_hole (e v : string) (t : token) : token :=
  match t with
  | Hole e' => if bool_decide (e' = e) then Text v else t
  | Text _ => t
  end.

Lemma fill_hole_proper e v t : lacks "$" v = true -> proper_token t -> proper_token (fill_hole e v t).
Proof. destruct t; simpl; [done|]. by case_bool_decide. Qed.

Lemma replace_all_template e v ts n :
  lacks "}" e = true -> Forall proper_token ts -> String.length (template ts) <= n ->
  replace_all n ("${" +:+ e +:+ "}") v (template ts) = template (fill_hole e v <$> ts).
Proof.
  intros He Hts. revert n.
  induction Hts as [|[s|e'] ts Ht _ IH]; intros n Hn.
  - by destruct n.
  - change (template (Text s :: ts)) with (s +:+ template ts) in *.
    rewrite length_append in Hn. change ("${" +:+ e +:+ "}") with (String "$" ("{" +:+ e +:+ "}")).
    replace n with (String.length s + (n - String.length s)) by lia.
    rewrite replace_all_skip by done. cbn [fmap list_fmap fill_hole].
    change (template (Text s :: ?l)) with (s +:+ template l). f_equal. apply IH. lia.
  - destruct Ht as (_ & Hd & Hb). cbn [fmap list_fmap fill_hole].
    change (template (Hole e' :: ts)) with (("${" +:+ e' +:+ "}") +:+ template ts) in *.
    rewrite length_append in Hn.
    destruct n as [|n]; [cbn in Hn; lia|].
    case_bool_decide as Heq; [subst e'|].
    + change (template (Text v :: ?l)) with (v +:+ template l).
      rewrite <-(IH n) by (cbn in Hn; lia).
      pose proof (cut_prefix_app ("${" +:+ e +:+ "}") (template ts)) as Hc.
      cbn [String.append replace_all] in *. by rewrite Hc.
    + change (template (Hole e' :: ?l)) with (("${" +:+ e' +:+ "}") +:+ template l).
      assert (cut_prefix (("${" +:+ e' +:+ "}") +:+ template ts) ("${" +:+ e +:+ "}") = None) as Hc.
      { destruct (cut_prefix _ _) as [r|] eqn:Hc; [|done]. apply cut_prefix_Some in Hc. exfalso.
        apply Heq. rewrite !append_assoc in Hc. cbn in Hc. simplify_eq.
        by eapply hole_inj. }
      cbn [String.append replace_all] in *. rewrite Hc. f_equal.
      change (String "{" ((e' +:+ "}") +:+ template ts)) with ((String "{" (e' +:+ "}")) +:+ template ts).
      change (String "{" ((e' +:+ "}") +:+ ?l)) with ((String "{" (e' +:+ "}")) +:+ l).
      change (String "$" ("{" ++ e ++ "}")) with (String "$" (String "{" (e +:+ "}"))).
      cbn in Hn.
      replace n with (String.length (String "{" (e' +:+ "}")) + (n - String.length (String "{" (e' +:+ "}"))))
        by (cbn; lia).
      rewrite replace_all_skip; [|cbn; rewrite lacks_app, Hd; done].
      f_equal. apply IH. cbn; lia.
Qed.

Section filling.
Context {Libs : CelLibs} (env : cel_Env) (data : goval).

Fixpoint first_error (l : list string) : option error :=
  match l with
  | [] => None
  | e :: l => match placeholder_value env data e with Ok _ => first_error l | Err err => Some err end
  end.
Definition settle (l : list string) (t : token) : token :=
  match t with
  | Hole e => if bool_decide (e ∈ l) then match placeholder_value env data e with Ok v => Text v | Err _ => t end else t
  | Text _ => t
  end.

Lemma settle_fill_hole e v l t : placeholder_value env data e = Ok v -> settle l (fill_hole e v t) = settle (e :: l) t.
Proof.
  intros Hv. destruct t as [s|e']; [done|]. simpl.
  case_bool_decide as He; [subst e'|]; simpl.
  - rewrite bool_decide_eq_true_2 by set_solver. by rewrite Hv.
  - erewrite bool_decide_ext; [done|]. set_solver.
Qed.

Lemma fill_template l ts :
  Forall proper_token ts ->
  Forall (fun e => lacks "}" e = true /\ forall v, placeholder_value env data e = Ok v -> lacks "$" v = true) l ->
  fill env data (placeholder_match <$> l) (template ts) =
  match first_error l with Some err => Err err | None => Ok (template (settle l <$> ts)) end.
Proof.
  intros Hts Hl. revert ts Hts. induction Hl as [|e l [Hb Hv] _ IH]; intros ts Hts; simpl.
  - f_equal. f_equal. rewrite <-(list_fmap_id ts) at 1. apply list_fmap_ext. by intros ? [|] ?.
  - destruct (placeholder_value env data e) as [v|err] eqn:Hval; simpl; [|done].
    unfold ReplaceAll. change (String "$" (String "{" (e +:+ "}"))) with ("${" +:+ e +:+ "}").
    rewrite replace_all_template by done.
    rewrite IH.
    + destruct (first_error l); [done|]. do 2 f_equal. rewrite <-list_fmap_compose.
      apply list_fmap_ext. intros i t ?. by apply settle_fill_hole.
    + apply Forall_fmap. eapply Forall_impl; [exact Hts|]. intros t. apply fill_hole_proper. auto.
Qed.

Lemma substitute_settle l ts :
  expressions ts ⊆ l ->
  substitute (placeholder_value env data) ts =
  match first_error (expressions ts) with Some err => Err err | None => Ok (template (settle l <$> ts)) end.
Proof.
  induction ts as [|[s|e] ts IH]; intros Hl; [done| |].
  - simpl. change (expressions (Text s :: ts)) with (expressions ts) in *. rewrite IH by done.
    by destruct (first_error (expressions ts)).
  - change (expressions (Hole e :: ts)) with (e :: expressions ts) in *. simpl.
    destruct (placeholder_value env data e) as [v|err] eqn:Hv; simpl; [|done].
    rewrite IH by set_solver. destruct (first_error (expressions ts)); simpl; [done|].
    rewrite bool_decide_eq_true_2 by set_solver. done.
Qed.

Lemma expressions_proper ts e :
  Forall proper_token ts -> e ∈ expressions ts -> lacks "}" e = true.
Proof.
  intros Hts ([s|e'] & Ht & [= ->])%list_elem_of_omap.
  by destruct (proj1 (Forall_forall _ _) Hts _ Ht) as (_ & _ & ?).
Qed.

(** C35: [EvaluateExpression] of a text made of texts and holes is the YAML of the text in which
    every hole holds the value of its expression, all of them substituted at once, or the error
    of the first hole without a value; provided that no text, expression or value has a dollar
    sign and no expression a closing brace.  The code instead searches the text and replaces
    one placeholder after the other everywhere, in texts that hold the values so far. *)
Theorem EvaluateExpression_substitutes ts :
  template ts <> "" ->
  Forall proper_token ts ->
  createExpressionCELEnv = Ok env ->
  (forall e v, e ∈ expressions ts -> placeholder_value env data e = Ok v -> lacks "$" v = true) ->
  EvaluateExpression (template ts) data
  = (resolvedYaml ← substitute (placeholder_value env data) ts; yaml_YAMLToJSON resolvedYaml).
Proof.
  intros Hne Hts Henv Hv. unfold EvaluateExpression, FindAllStringSubmatch.
  rewrite bool_decide_eq_false_2, find_placeholders_template by done.
  rewrite (substitute_settle (expressions ts)) by done.
  assert (fill env data (placeholder_match <$> expressions ts) (template ts)
          = match first_error (expressions ts) with
            | Some err => Err err
            | None => Ok (template (settle (expressions ts) <$> ts))
            end) as Hf.
  { apply fill_template; [done|]. apply Forall_forall. intros e He.
    split; [by apply (expressions_proper ts)|intros v; by apply Hv]. }
  destruct (expressions ts) as [|e l].
  - change (Ok (template ts) = Ok (template (settle [] <$> ts))) in Hf.
    injection Hf as Hf. cbn [fmap list_fmap first_error mbind result_mbind]. by rewrite <-Hf.
  - rewrite Henv. cbn [fmap list_fmap wrap_result mbind result_mbind] in *. rewrite Hf.
    by destruct (first_error (e :: l)).
Qed.
End filling.
End templates.

(** ** One object and several *)
Section lists.
Context {Libs : CelLibs}.
Lemma wrap_result_Ok {A} pre (r : result A) a : wrap_result pre r = Ok a <-> r = Ok a.
Proof. by destruct r. Qed.

Lemma evaluate_from_Ok prg objs i results :
  evaluate_from i objs prg = Ok results <-> Forall2 (fun obj r => evaluateObject obj prg = Ok r) objs results.
Proof.
  revert i results. induction objs as [|obj objs IH]; intros i results; simpl.
  - split; [by intros [= <-]; constructor|by intros ->%Forall2_nil_inv_l].
  - destruct (evaluateObject obj prg) as [r|] eqn:Hr; simpl.
    + split.
      * destruct (evaluate_from (S i) objs prg) as [rs|] eqn:Hrs; simpl; [|done]. intros [= <-].
        constructor; [done|]. by apply IH in Hrs.
      * intros (r' & rs & Hr' & Hrs & ->)%Forall2_cons_inv_l.
        rewrite Hr in Hr'. injection Hr' as <-.
        by rewrite (proj2 (IH (S i) rs) Hrs).
    + split; [done|]. intros (r' & rs & Hr' & _ & _)%Forall2_cons_inv_l. congruence.
Qed.

Lemma Evaluate_Ok expression obj r :
  Evaluate expression obj = Ok r <->
  expression <> "" /\ exists prg, compileExpression expression = Ok prg /\ evaluateObject obj prg = Ok r.
Proof.
  unfold Evaluate. destruct obj as [obj|].
  - case_bool_decide; [naive_solver|]. destruct (compileExpression expression); simpl; naive_solver.
  - naive_solver.
Qed.

(** [EvaluateList] compiles the expression once; its results are those of [Evaluate] on each
    object, and it has results only when every object has one. *)
Lemma EvaluateList_Evaluate expression objs results :
  EvaluateList expression objs = Ok results <->
  objs <> [] /\ Forall2 (fun obj r => Evaluate expression obj = Ok r) objs results.
Proof.
  unfold EvaluateList. case_bool_decide as Hobjs; [naive_solver|].
  transitivity (expression <> "" /\ exists prg, compileExpression expression = Ok prg /\
    Forall2 (fun obj r => evaluateObject obj prg = Ok r) objs results).
  - case_bool_decide; [naive_solver|].
    destruct (compileExpression expression) as [prg|err]; cbn [mbind result_mbind]; [|naive_solver].
    rewrite evaluate_from_Ok. naive_solver.
  - split.
    + intros (Hx & prg & Hprg & Hf). split; [done|]. eapply Forall2_impl; [exact Hf|].
      intros obj r Hr. apply Evaluate_Ok. eauto.
    + intros [_ Hf]. destruct objs as [|obj objs]; [done|].
      pose proof Hf as (r & rs & (Hx & prg & Hprg & _)%Evaluate_Ok & _)%Forall2_cons_inv_l.
      split; [done|]. exists prg. split; [done|]. eapply Forall2_impl; [exact Hf|].
      intros obj' r' (_ & prg' & Hprg' & Hr')%Evaluate_Ok. congruence.
Qed.
End lists.

(** ** Concrete runs: expressions are field names of [global] *)
Module CelRun.
Definition lookup_global (field : string) (vars : list (string * goval)) : result refVal :=
  match list_find (fun v => v.1 = "global") vars with
  | Some (_, (_, GoMap m)) =>
      match list_find (fun v => v.1 = field) m with
      | Some (_, (_, v)) => Ok (RvValue v)
      | None => Ok (RvError "no such key")
      end
  | _ => Err (new_error "no such attribute")
  end.
#[export] Instance libs : CelLibs := {
  cel_Object := string;
  cel_Env := list string;
  cel_Ast := string;
  cel_Program := string;
  cel_NewEnv names := Ok names;
  env_Compile env e := if bool_decide ("global" ∈ env) then Ok e else Err (new_error "undeclared reference");
  env_Program env ast := Ok ast;
  prg_Eval := lookup_global;
  json_Marshal_object s := Ok s;
  json_Unmarshal_map s := Ok (GoMap [("metadata", GoString s)]);
  json_Marshal_any v := match v with GoOther _ json => Ok json | _ => Ok "{}" end;
  yaml_YAMLToJSON s := Ok s
}.
Definition env : @cel_Env libs := ["global"].
Definition data : goval :=
  GoMap [("global", GoMap [("region", GoString "eu"); ("n", GoOther "int64" "3"); ("x", GoString "${n}")])].
Definition yaml : list token :=
  [Text "host: a."; Hole "region"; Text ".example, n: "; Hole "n"; Text ", again: "; Hole "region"].

Lemma EvaluateExpression_substitutes_witness :
  template yaml = "host: a.${region}.example, n: ${n}, again: ${region}" /\
  EvaluateExpression (template yaml) data = Ok "host: a.eu.example, n: 3, again: eu".
Proof.
  split; [reflexivity|].
  rewrite (EvaluateExpression_substitutes env data yaml); [reflexivity|done| |reflexivity|].
  - repeat constructor; done.
  - intros e v He Hv.
    assert (e = "region" \/ e = "n") as [-> | ->] by (cbn in He; set_solver).
    + vm_compute in Hv. by injection Hv as <-.
    + vm_compute in Hv. by injection Hv as <-.
Defined.

(** With a dollar sign in a value the order of the holes matters: the text of the first value
    is taken for the second hole. *)
Lemma value_substituted_again :
  EvaluateExpression (template [Hole "x"; Text " "; Hole "n"]) data = Ok "3 3" /\
  substitute (placeholder_value env data) [Hole "x"; Text " "; Hole "n"] = Ok "${n} 3" /\
  EvaluateExpression (template [Hole "n"; Text " "; Hole "x"]) data = Ok "3 ${n}".
Proof. vm_compute. auto. Qed.
End CelRun.
