(* ===== verification/HelmRender.v ===== *)
(** * HelmRender: charts, their values and releases
      ([internal/helm/helm.go], [internal/helm/caps.go], [internal/helm/utils.go])

    What Greenhouse does around Helm's own actions: it configures them, finds and loads the
    chart, merges the chart's values with the options, replaces the CustomResourceDefinitions
    the chart brings, checks the version of Kubernetes and runs the installation, which a dry
    run only renders.

    Helm's actions, its chart loader, discovery and the Kubernetes API are calls; strvals, YAML
    and version ranges are parameters.  Values are the Go values of [Cel]. *)
From S2P Require Import Prelude Effects Conditions Meta ApiTypes PluginTypes PluginDefinitions HelmValues ClusterController Artifactory Startup Cel.
From Stdlib Require Import ZArith.
Local Abbreviation values_map := (list (string * goval)).

(** ** Merging of values *)
Fixpoint assoc_get {A} (k : string) (m : list (string * A)) : option A :=
  match m with
  | [] => None
  | (k', v) :: m => if String.eqb k' k then Some v else assoc_get k m
  end.
(** What [out[k]] becomes for the value of [k] in [b] *)
Fixpoint merge_value (v : goval) (old : option goval) : goval :=
  match v, old with
  | GoMap m, Some (GoMap bv) =>
      GoMap (fold_left (fun out kv => let '(k, v) := kv in assoc_set k (merge_value v (assoc_get k out)) out) m bv)
  | _, _ => v
  end.
Definition mergeMaps (a b : values_map) : values_map :=
  fold_left (fun out '(k, v) => assoc_set k (merge_value v (assoc_get k out)) out) b a.

(** ** Charts, definitions of resources, installations *)
Record ChartMetadata := mk_chart_metadata { cm_Name : string; cm_Version : string; cm_KubeVersion : string }.
Record Chart := mk_chart {
  ch_Metadata : option ChartMetadata;
  ch_Values : values_map;
  ch_CRDs : list (option string)     (* CRDObjects(): the file's data, unless a pointer is nil *)
}.
Definition Chart_Name (c : Chart) : string := match ch_Metadata c with Some m => cm_Name m | None => "" end.
Record CustomResourceDefinition := mk_crdef {
  crd_Name : string; crd_ResourceVersion : string; crd_definition : string }.
Definition SetResourceVersion (version : string) (crd : CustomResourceDefinition) : CustomResourceDefinition :=
  mk_crdef (crd_Name crd) version (crd_definition crd).
Record ChartPathOptions := mk_cpo { cpo_RepoURL : string; cpo_Version : string }.
(** [action.Install] *)
Record Install := mk_install {
  ia_ReleaseName : string;
  ia_Namespace : string;
  ia_Timeout : Z;
  ia_CreateNamespace : bool;
  ia_DependencyUpdate : bool;
  ia_DryRun : bool;
  ia_ClientOnly : bool;
  ia_Description : string;
  ia_ChartPathOptions : ChartPathOptions
}.
Definition with_chart_path (cpo : ChartPathOptions) (i : Install) : Install :=
  mk_install (ia_ReleaseName i) (ia_Namespace i) (ia_Timeout i) (ia_CreateNamespace i) (ia_DependencyUpdate i)
    (ia_DryRun i) (ia_ClientOnly i) (ia_Description i) cpo.
Record KubeVersion := mk_kube_version { kv_Version : string; kv_Major : string; kv_Minor : string }.
Record Capabilities := mk_capabilities { caps_APIVersions : list string; caps_KubeVersion : KubeVersion }.

Class HelmLibs := {
  helm_release : Type;
  crd_Unmarshal : string -> result CustomResourceDefinition;
  IsCompatibleRange : string -> string -> bool;
  IsOCI : string -> bool;
  IsGroupDiscoveryFailedError : error -> bool;
  is_ErrReleaseNotFound : error -> bool;
  RepositoryCache : string;
  strvals_ParseJSON : string -> values_map -> result values_map;
  json_Marshal_string : string -> string
}.

Section helm.
Context {Libs : HelmLibs}.
Variable LookupEnv : string -> option string.

Inductive helmE : Type -> Type :=
| HValues {X} (e : valuesE X) : helmE X                          (* the client of the central cluster *)
| HInit (namespace : string) : helmE (option error)              (* cfg.Init *)
| HRegistryClient : helmE (option error)
| HDiscoveryClient : helmE (option error)
| HServerVersion : helmE (result KubeVersion)
| HVersionSet : helmE (list string * option error)
| HNotExist (path : string) : helmE bool                         (* os.Stat fails with ErrNotExist *)
| HLocateChart (cpo : ChartPathOptions) (name : string) : helmE (result string)
| HLoadChart (path : string) : helmE (result Chart)
| HNewClient : helmE (option error)
| HGetCRD (name : string) : helmE (result CustomResourceDefinition)
| HCreateCRD (crd : CustomResourceDefinition) : helmE (option error)
| HUpdateCRD (crd : CustomResourceDefinition) : helmE (option error)
| HInstall (i : Install) (c : Chart) (v : values_map) : helmE (result helm_release)
| HGetRelease (namespace name : string) : helmE (result helm_release)
| HUninstall (namespace name : string) (KeepHistory : bool) : helmE (option error).
Local Abbreviation P := (prog helmE).

(** ** Actions *)
(** Nanoseconds; the product wraps. *)
Definition getHelmTimeout : Z := int64 (GetIntEnvWithDefault LookupEnv "HELM_RELEASE_TIMEOUT" 300 * 10 ^ 9).
(** The configuration has no capabilities before. *)
Definition getCapabilities : P (result Capabilities) :=
  err ← trigger HDiscoveryClient;
  match err with
  | Some e => mret (Err (wrap_error "could not get Kubernetes discovery client: " e))
  | None =>
      v ← trigger HServerVersion;
      match v with
      | Err e => mret (Err (wrap_error "could not get server version from Kubernetes: " e))
      | Ok kubeVersion =>
          '(apiVersions, err) ← trigger HVersionSet;
          mret match err with
               | Some e =>
                   if IsGroupDiscoveryFailedError e then Ok (mk_capabilities apiVersions kubeVersion)
                   else Err (wrap_error "could not get apiVersions from Kubernetes: " e)
               | None => Ok (mk_capabilities apiVersions kubeVersion)
               end
      end
  end.
Definition newHelmAction (namespace : string) : P (result Capabilities) :=
  err ← trigger (HInit namespace);
  match err with
  | Some e => mret (Err e)
  | None =>
      err ← trigger HRegistryClient;
      match err with Some e => mret (Err e) | None => getCapabilities end
  end.
Definition newHelmInstallAction (releaseName releaseNamespace pluginDefinitionVersion : string) (isDryRun : bool) :
    P (result (Install * Capabilities)) :=
  r ← newHelmAction releaseNamespace;
  mret (caps ← r;
        Ok (mk_install releaseName releaseNamespace getHelmTimeout true true isDryRun isDryRun
              pluginDefinitionVersion (mk_cpo "" ""), caps)).

(** ** Charts *)
Definition configureChartPathOptions (c : HelmChartReference) : ChartPathOptions * string :=
  if IsOCI (hcr_Repository c)
  then (mk_cpo "" (hcr_Version c), hcr_Repository c +:+ "/" +:+ hcr_Name c)
  else (mk_cpo (hcr_Repository c) (hcr_Version c), hcr_Name c).
(** [filepath.Base]: the last component *)
Definition Base (path : string) : string :=
  if bool_decide (path = "") then "."
  else default "/" (last (List.filter (fun c => negb (bool_decide (c = ""))) (split slash path))).
Definition loadHelmChart (cpo : ChartPathOptions) (reference : HelmChartReference) : P (ChartPathOptions * result Chart) :=
  let chartPath := RepositoryCache +:+ "/" +:+ Base (hcr_Name reference) +:+ "-" +:+ hcr_Version reference +:+ ".tgz" in
  missing ← trigger (HNotExist chartPath);
  if (missing : bool) then
    let '(cpo, chartName) := configureChartPathOptions reference in
    r ← trigger (HLocateChart cpo chartName);
    match r with
    | Err e => mret (cpo, Err e)
    | Ok chartPath => c ← trigger (HLoadChart chartPath); mret (cpo, c)
    end
  else c ← trigger (HLoadChart chartPath); mret (cpo, c).
Definition verifyKubeVersionIsCompatible (helmChart : Chart) (caps : Capabilities) : option error :=
  match ch_Metadata helmChart with
  | Some m =>
      let version := kv_Version (caps_KubeVersion caps) in
      if negb (bool_decide (cm_KubeVersion m = "")) && negb (IsCompatibleRange (cm_KubeVersion m) version)
      then Some (new_error ("chart requires kubeVersion: " +:+ cm_KubeVersion m +:+
                            " which is incompatible with Kubernetes " +:+ version))
      else None
  | None => None
  end.
(** [helmChart.Metadata.KubeVersion = ""] *)
Definition clear_kube_version (helmChart : Chart) : outcome Chart :=
  match ch_Metadata helmChart with
  | Some m => Returns (mk_chart (Some (mk_chart_metadata (cm_Name m) (cm_Version m) "")) (ch_Values helmChart) (ch_CRDs helmChart))
  | None => Panics
  end.

(** ** Values *)
Definition mergeChartAndPluginOptionValues (helmValues : values_map) (optionValues : list PluginOptionValue) :
    result values_map :=
  helmPluginValues ← ConvertFlatValuesToHelmValues [] strvals_ParseJSON optionValues;
  Ok (mergeMaps helmValues helmPluginValues).
Definition resolved_options (namespace : string) (optionValues : list PluginOptionValue) :
    P (result (list PluginOptionValue)) :=
  translate (fun _ => HValues) (resolvePluginOptionValueFrom json_Marshal_string namespace optionValues).
Definition getValuesForHelmChart (helmChart : Chart) (plugin : Plugin) : P (result values_map) :=
  let helmValues := mergeMaps [] (ch_Values helmChart) in
  r ← resolved_options (GetNamespace plugin) (OptionValues (plugin_Spec plugin));
  mret (optionValues ← r; mergeChartAndPluginOptionValues helmValues optionValues).

(** ** Definitions of custom resources *)
Definition replace_crd (isUpgrade : bool) (crd : CustomResourceDefinition) : P (option error) :=
  r ← trigger (HGetCRD (crd_Name crd));
  match r with
  | Err e =>
      if is_not_found (Some e)
      then if negb isUpgrade then mret None else trigger (HCreateCRD crd)
      else mret (Some e)
  | Ok curObj => trigger (HUpdateCRD (SetResourceVersion (crd_ResourceVersion curObj) crd))
  end.
Definition replaceCustomResourceDefinitions (crdList : list (option string)) (isUpgrade : bool) : P (option error) :=
  r ← foreach crdList (fun (_ : unit) crdFile =>
        match crdFile with
        | None => mret (inl tt)
        | Some data =>
            match crd_Unmarshal data with
            | Err e => mret (inr e)
            | Ok crd =>
                err ← replace_crd isUpgrade crd;
                mret match err with None => inl tt | Some e => inr e end
            end
        end) tt;
  mret match r with inl _ => None | inr e => Some e end.

(** ** Rendering and installing; [Panics] is a nil dereference *)
Definition installRelease (pluginDefinitionSpec : PluginDefinitionSpec) (plugin : Plugin) (isDryRun : bool) :
    P (outcome (result helm_release)) :=
  r ← newHelmInstallAction (GetReleaseName plugin) (ReleaseNamespace (plugin_Spec plugin)) (pd_Version pluginDefinitionSpec) isDryRun;
  match r with
  | Err e => mret (Returns (Err e))
  | Ok (installAction, capabilities) =>
      match pd_HelmChart pluginDefinitionSpec with
      | None => mret Panics
      | Some reference =>
          '(cpo, r) ← loadHelmChart (ia_ChartPathOptions installAction) reference;
          match r with
          | Err e => mret (Returns (Err e))
          | Ok helmChart =>
              err ← trigger HNewClient;
              match err with
              | Some e => mret (Returns (Err e))
              | None =>
                  err ← replaceCustomResourceDefinitions (ch_CRDs helmChart) false;
                  match err with
                  | Some e => mret (Returns (Err e))
                  | None =>
                      r ← getValuesForHelmChart helmChart plugin;
                      match r with
                      | Err e => mret (Returns (Err e))
                      | Ok helmValues =>
                          match verifyKubeVersionIsCompatible helmChart capabilities with
                          | Some e => mret (Returns (Err e))
                          | None =>
                              match clear_kube_version helmChart with
                              | Panics => mret Panics
                              | Returns helmChart =>
                                  r ← trigger (HInstall (with_chart_path cpo installAction) helmChart helmValues);
                                  mret (Returns r)
                              end
                          end
                      end
                  end
              end
          end
      end
  end.
Definition TemplateHelmChartFromPlugin (pluginDefinitionSpec : PluginDefinitionSpec) (plugin : Plugin) :
    P (outcome (result helm_release)) := installRelease pluginDefinitionSpec plugin true.
(** The name of the release is the one of the specification, also when that is empty. *)
Definition TemplateHelmChartFromPluginOptionValues (pluginDefinitionSpec : PluginDefinitionSpec) (plugin : Plugin)
    (optionValues : list PluginOptionValue) (chartPath : string) : P (result helm_release) :=
  r ← newHelmInstallAction (ReleaseName (plugin_Spec plugin)) (ReleaseNamespace (plugin_Spec plugin))
        (pd_Version pluginDefinitionSpec) true;
  match r with
  | Err e => mret (Err e)
  | Ok (installAction, _) =>
      r ← trigger (HLoadChart chartPath);
      match r with
      | Err e => mret (Err (wrap_error "failed to load chart: " e))
      | Ok helmChart =>
          r ← resolved_options (GetNamespace plugin) optionValues;
          match r with
          | Err e => mret (Err (wrap_error "failed to resolve plugin option values: " e))
          | Ok resolvedValues =>
              match mergeChartAndPluginOptionValues (ch_Values helmChart) resolvedValues with
              | Err e => mret (Err (wrap_error "failed to merge chart and plugin option values: " e))
              | Ok helmValues => trigger (HInstall installAction helmChart helmValues)
              end
          end
      end
  end.

(** ** Releases *)
Definition GetReleaseForHelmChartFromPlugin (plugin : Plugin) : P (result helm_release) :=
  r ← newHelmAction (ReleaseNamespace (plugin_Spec plugin));
  match r with
  | Err e => mret (Err e)
  | Ok _ => trigger (HGetRelease (ReleaseNamespace (plugin_Spec plugin)) (GetReleaseName plugin))
  end.
Definition isReleaseExistsForPlugin (plugin : Plugin) : P (result bool) :=
  r ← GetReleaseForHelmChartFromPlugin plugin;
  mret match r with
       | Ok _ => Ok true
       | Err e => if is_ErrReleaseNotFound e then Ok false else Err e
       end.
(** Whether there was no release *)
Definition UninstallHelmRelease (plugin : Plugin) : P (bool * option error) :=
  let namespace := ReleaseNamespace (plugin_Spec plugin) in
  r ← newHelmAction namespace;
  match r with
  | Err e => mret (false, Some e)
  | Ok _ =>
      r ← isReleaseExistsForPlugin plugin;
      match r with
      | Err e => mret (false, Some e)
      | Ok false => mret (true, None)
      | Ok true => err ← trigger (HUninstall namespace (GetReleaseName plugin) false); mret (false, err)
      end
  end.
End helm.

(** ** What merged values hold *)
Section merging.
(** The value at a path of keys *)
Fixpoint get_path (path : list string) (v : goval) : option goval :=
  match path with
  | [] => Some v
  | k :: path => match v with GoMap m => assoc_get k m ≫= get_path path | _ => None end
  end.
(** No map inside has a key twice. *)
Definition unique_keys (v : goval) : Prop := forall path m, get_path path v = Some (GoMap m) -> NoDup m.*1.
Definition is_GoMap (v : goval) : bool := match v with GoMap _ => true | _ => false end.
(** Nothing is said about the path: it ends at a key that is missing, after nothing but maps. *)
Fixpoint silent (path : list string) (v : goval) : Prop :=
  match path with
  | [] => False
  | k :: path =>
      match v with
      | GoMap m => match assoc_get k m with None => True | Some v => silent path v end
      | _ => False
      end
  end.

Lemma assoc_get_set {A} k k' (v : A) m :
  assoc_get k (assoc_set k' v m) = if decide (k = k') then Some v else assoc_get k m.
Proof.
  induction m as [|[k1 v1] m IH]; simpl.
  - destruct (String.eqb_spec k' k), (decide (k = k')); congruence.
  - destruct (String.eqb_spec k1 k') as [->|H1]; simpl.
    + destruct (String.eqb_spec k' k), (decide (k = k')); congruence.
    + destruct (String.eqb_spec k1 k) as [->|H2]; [by rewrite decide_False|]. exact IH.
Qed.

Lemma assoc_get_None {A} k (m : list (string * A)) : k ∉ m.*1 -> assoc_get k m = None.
Proof.
  induction m as [|[k1 v1] m IH]; simpl; [done|]. intros [H1 H2]%not_elem_of_cons.
  destruct (String.eqb_spec k1 k); [congruence|auto].
Qed.

Lemma mergeMaps_get a b k :
  NoDup b.*1 ->
  assoc_get k (mergeMaps a b) =
  match assoc_get k b with Some v => Some (merge_value v (assoc_get k a)) | None => assoc_get k a end.
Proof.
  unfold mergeMaps. revert a. induction b as [|[k1 v1] b IH]; intros a Hb; [done|].
  apply NoDup_cons in Hb as [H1 Hb]. cbn [fold_left assoc_get]. rewrite IH by done. rewrite assoc_get_set.
  destruct (String.eqb_spec k1 k) as [->|Hne].
  - by rewrite (assoc_get_None k b H1), decide_True.
  - by rewrite decide_False.
Qed.

Lemma merge_value_map m bv : merge_value (GoMap m) (Some (GoMap bv)) = GoMap (mergeMaps bv m).
Proof. reflexivity. Qed.

Lemma unique_keys_get k m v : unique_keys (GoMap m) -> assoc_get k m = Some v -> unique_keys v.
Proof. intros Hu Hk path m' Hp. apply (Hu (k :: path)). simpl. by rewrite Hk. Qed.

Lemma merge_value_leaf path vb old v :
  unique_keys vb -> is_GoMap v = false ->
  get_path path (merge_value vb old) = Some v <->
  get_path path vb = Some v \/ (exists va, old = Some va /\ get_path path va = Some v /\ silent path vb).
Proof.
  revert vb old. induction path as [|k path IH]; intros vb old Hu Hv.
  - destruct vb as [| |m|], old as [[| |bv|]|]; simpl; naive_solver.
  - destruct vb as [s|l|m|t j]; try (simpl; naive_solver).
    destruct old as [[s|l|bv|t j]|]; try (simpl; naive_solver).
    rewrite merge_value_map. cbn [get_path silent].
    rewrite mergeMaps_get by (by apply (Hu [])).
    destruct (assoc_get k m) as [w|] eqn:Hk; cbn [mbind option_bind].
    + rewrite (IH w (assoc_get k bv)) by (try done; by eapply unique_keys_get).
      split; (intros [?|(va & H1 & H2 & H3)]; [by left|right]).
      * exists (GoMap bv). split; [done|]. by rewrite H1.
      * simplify_eq. destruct (assoc_get k bv) as [va|]; [|done]. by exists va.
    + split; [intros H; right; by exists (GoMap bv)|].
      intros [[=]|(va & [= <-] & H & _)]. done.
Qed.

(** C37: merging puts the second values over the first: a scalar or list is found at a path of the
    merged values exactly when the second have it there, or the first have it and the second say
    nothing about the path.  Wherever the second have something else than a map, whatever the
    first have below is gone. *)
Theorem mergeMaps_leaf a b path v :
  unique_keys (GoMap b) -> is_GoMap v = false ->
  get_path path (GoMap (mergeMaps a b)) = Some v <->
  get_path path (GoMap b) = Some v \/ (get_path path (GoMap a) = Some v /\ silent path (GoMap b)).
Proof.
  intros Hu Hv. rewrite <-merge_value_map, merge_value_leaf by done. naive_solver.
Qed.
End merging.

(** ** What an installation or rendering changes *)
Section changes.
Context {Libs : HelmLibs}.
Variable LookupEnv : string -> option string.
Variables (spec : PluginDefinitionSpec) (plugin : Plugin) (isDryRun : bool).
Local Abbreviation trace := (list (call helmE)).
Local Abbreviation wpt := (wp (traced any_answer)).

(** A definition sent is one of the chart's, over the version that was read. *)
Definition crd_of_chart (h : trace) (sent : CustomResourceDefinition) : Prop :=
  exists path chart data crd cur,
    Call (HLoadChart path) (Ok chart) ∈ h /\ Some data ∈ ch_CRDs chart /\ crd_Unmarshal data = Ok crd /\
    Call (HGetCRD (crd_Name crd)) (Ok cur) ∈ h /\ sent = SetResourceVersion (crd_ResourceVersion cur) crd.
(** What the chart brings is not on the cluster, or was written there. *)
Definition crd_handled (h : trace) (file : option string) : Prop :=
  match file with
  | None => True
  | Some data => exists crd, crd_Unmarshal data = Ok crd /\
      ((exists e, Call (HGetCRD (crd_Name crd)) (Err e) ∈ h /\ is_not_found (Some e) = true) \/
       (exists cur, Call (HGetCRD (crd_Name crd)) (Ok cur) ∈ h /\
                    Call (HUpdateCRD (SetResourceVersion (crd_ResourceVersion cur) crd)) None ∈ h))
  end.
(** The value of an option, read from its secret *)
Definition option_resolved (h : trace) (val val' : PluginOptionValue) : Prop :=
  match ov_ValueFrom val ≫= vf_Secret with
  | None => val' = val
  | Some ref => exists data s,
      Call (HValues (VGetSecret (mk_key (GetNamespace plugin) (skr_Name ref)))) (Ok (Some data)) ∈ h /\
      data !! skr_Key ref = Some s /\
      val' = mk_ov (ov_Name val) (Some (json_Marshal_string s)) (ov_ValueFrom val) (ov_Expression val)
  end.
Definition install_ok (h : trace) (i : Install) (c : Chart) (v : values_map) : Prop :=
  exists path chart m kubeVersion options optionValues,
    Call (HLoadChart path) (Ok chart) ∈ h /\ Forall (crd_handled h) (ch_CRDs chart) /\
    ch_Metadata chart = Some m /\ c = mk_chart (Some (mk_chart_metadata (cm_Name m) (cm_Version m) "")) (ch_Values chart) (ch_CRDs chart) /\
    Call HServerVersion (Ok kubeVersion) ∈ h /\
    (cm_KubeVersion m = "" \/ IsCompatibleRange (cm_KubeVersion m) (kv_Version kubeVersion) = true) /\
    Forall2 (option_resolved h) (OptionValues (plugin_Spec plugin)) options /\
    ConvertFlatValuesToHelmValues [] strvals_ParseJSON options = Ok optionValues /\
    v = mergeMaps (mergeMaps [] (ch_Values chart)) optionValues /\
    ia_ReleaseName i = GetReleaseName plugin /\ ia_Namespace i = ReleaseNamespace (plugin_Spec plugin) /\
    ia_DryRun i = isDryRun /\ ia_ClientOnly i = isDryRun.
Definition change_ok (h : trace) (c : call helmE) : Prop :=
  match c with
  | Call e _ =>
      match e with
      | HUpdateCRD crd => crd_of_chart h crd
      | HCreateCRD _ | HUninstall _ _ _ => False
      | HInstall i c v => install_ok h i c v
      | _ => True
      end
  end.
Definition changes_ok (h : trace) : Prop := Forall (change_ok h) h.
Definition harmless X (e : helmE X) : Prop :=
  match e with HUpdateCRD _ | HCreateCRD _ | HUninstall _ _ _ | HInstall _ _ _ => False | _ => True end.

Lemma crd_handled_extends h l file : crd_handled h file -> crd_handled (h ++ l) file.
Proof.
  destruct file as [data|]; [|done]. intros (crd & Hc & H). exists crd. split; [done|].
  destruct H as [(e & H & He)|(cur & H1 & H2)]; [left; exists e|right; exists cur]; set_solver.
Qed.
Lemma option_resolved_extends h l v v' : option_resolved h v v' -> option_resolved (h ++ l) v v'.
Proof.
  unfold option_resolved. destruct (ov_ValueFrom v ≫= vf_Secret) as [ref|]; [|done].
  intros (data & s & Hd & H). exists data, s. split; [set_solver|done].
Qed.
Lemma change_ok_extends h l c : change_ok h c -> change_ok (h ++ l) c.
Proof.
  destruct c as [X [] x]; try done; cbn.
  - intros (path & chart & data & crd1 & cur & H1 & H2 & H3 & H4 & H5). exists path, chart, data, crd1, cur. set_solver.
  - intros (path & chart & m & kv & os & ovs & H1 & H2 & H3 & H4 & H5 & H6 & H7 & H8).
    exists path, chart, m, kv, os, ovs. split; [set_solver|]. split; [|split; [done|]; split; [done|]].
    + eapply Forall_impl; [exact H2|]. intros. by apply crd_handled_extends.
    + split; [set_solver|]. split; [done|]. split; [|done].
      eapply Forall2_impl; [exact H7|]. intros. by apply option_resolved_extends.
Qed.
Lemma changes_ok_snoc h c : changes_ok h -> change_ok (h ++ [c]) c -> changes_ok (h ++ [c]).
Proof.
  intros Hh Hc. apply Forall_app. split; [|by constructor].
  eapply Forall_impl; [exact Hh|]. intros. by apply change_ok_extends.
Qed.
(** A part without effects *)
Lemma wp_harmless {A} (p : prog helmE A) h :
  all_calls harmless p -> changes_ok h ->
  wpt p (fun h' _ => changes_ok h' /\ exists l, h' = h ++ l) h.
Proof.
  intros Hp Hh. apply wp_and; [|apply wp_traced_extends].
  apply (all_calls_wp harmless (traced any_answer) changes_ok); [done| |done].
  intros h1 X e x h2 H1 He [_ ->]. apply changes_ok_snoc; [done|]. by destruct e.
Qed.

Ltac traced_answers := repeat match goal with H : traced _ _ _ _ _ _ |- _ => destruct H as [_ ->] end.
Lemma newHelmAction_harmless namespace : all_calls harmless (newHelmAction namespace).
Proof. unfold newHelmAction, getCapabilities. calls_steps; done. Qed.

Lemma newHelmAction_version namespace h : changes_ok h ->
  wpt (newHelmAction namespace) (fun h' r => (changes_ok h' /\ exists l, h' = h ++ l) /\
    forall caps, r = Ok caps -> Call HServerVersion (Ok (caps_KubeVersion caps)) ∈ h') h.
Proof.
  intros Hh. apply wp_and; [by apply wp_harmless; [apply newHelmAction_harmless|]|].
  unfold newHelmAction, getCapabilities. wp_steps; try done; traced_answers.
  intros caps Hcaps. assert (caps_KubeVersion caps = a) as -> by (destruct o; [destruct (IsGroupDiscoveryFailedError e)|]; by simplify_eq).
  set_solver.
Qed.

Lemma loadHelmChart_found cpo reference h : changes_ok h ->
  wpt (loadHelmChart cpo reference) (fun h' '(_, r) => (changes_ok h' /\ exists l, h' = h ++ l) /\
    forall chart, r = Ok chart -> exists path, Call (HLoadChart path) (Ok chart) ∈ h') h.
Proof.
  intros Hh. eapply (wp_mono _ _ (fun h' r => (changes_ok h' /\ exists l, h' = h ++ l) /\
    forall chart, r.2 = Ok chart -> exists path, Call (HLoadChart path) (Ok chart) ∈ h')).
  { by intros h' [cpo' r]. }
  apply wp_and; unfold loadHelmChart.
  - apply wp_harmless; [calls_steps; done|done].
  - wp_steps; try done; traced_answers; intros chart Hc; cbn in Hc; simplify_eq; eexists; apply elem_of_app; right; constructor.
Qed.

Lemma replace_crd_ok h path chart data crd :
  changes_ok h -> Call (HLoadChart path) (Ok chart) ∈ h -> Some data ∈ ch_CRDs chart -> crd_Unmarshal data = Ok crd ->
  wpt (replace_crd false crd) (fun h' err => (changes_ok h' /\ exists l, h' = h ++ l) /\
    (err = None -> crd_handled h' (Some data))) h.
Proof.
  intros Hh Hl Hd Hc. unfold replace_crd. apply wp_bind, wp_trigger. intros [cur|e] h1 [_ ->].
  - apply wp_trigger. intros err h2 [_ ->]. split; [split; [|eexists; by rewrite <-app_assoc]|].
    + apply changes_ok_snoc; [by apply changes_ok_snoc|]. exists path, chart, data, crd, cur. set_solver.
    + intros ->. exists crd. split; [done|]. right. exists cur. set_solver.
  - destruct (is_not_found (Some e)) eqn:He; cbn [negb]; apply wp_ret;
      (split; [split; [by apply changes_ok_snoc|by eexists]|]); [|done].
    intros _. exists crd. split; [done|]. left. exists e. set_solver.
Qed.

Lemma replaceCRDs_ok h path chart l :
  changes_ok h -> Call (HLoadChart path) (Ok chart) ∈ h -> l ⊆ ch_CRDs chart ->
  wpt (replaceCustomResourceDefinitions l false) (fun h' err => (changes_ok h' /\ exists l, h' = h ++ l) /\
    (err = None -> Forall (crd_handled h') l)) h.
Proof.
  unfold replaceCustomResourceDefinitions. intros Hh Hl Hsub. apply wp_bind.
  match goal with |- wp _ (foreach _ ?b _) _ _ => set (body := b) end.
  enough (wpt (foreach l body tt) (fun h' r => (changes_ok h' /\ exists l, h' = h ++ l) /\
            match r with inl _ => Forall (crd_handled h') l | inr _ => True end) h) as H.
  { eapply wp_mono; [|exact H]. intros h' r [H1 H2]. apply wp_ret. split; [done|]. by destruct r. }
  revert h Hh Hl. induction l as [|file l IH]; intros h Hh Hl.
  { apply wp_ret. split; [split; [done|exists []; by rewrite app_nil_r]|constructor]. }
  cbn [foreach]. apply wp_bind.
  assert (wpt (body tt file) (fun h' r => (changes_ok h' /\ exists l, h' = h ++ l) /\
            match r with inl _ => crd_handled h' file | inr _ => True end) h) as Hb.
  { destruct file as [data|]; cbn [body].
    - destruct (crd_Unmarshal data) as [crd|e] eqn:Hc.
      + apply wp_bind. eapply wp_mono; [|eapply (replace_crd_ok h path chart data crd); try done; set_solver].
        intros h' err [H1 H2]. apply wp_ret. split; [done|]. destruct err; [done|auto].
      + apply wp_ret. split; [split; [done|exists []; by rewrite app_nil_r]|done].
    - apply wp_ret. split; [split; [done|exists []; by rewrite app_nil_r]|done]. }
  eapply wp_mono; [|exact Hb]. clear Hb. intros h1 [[]|e] [[H1 [l1 ->]] Hf]; [|apply wp_ret; by split; [split; [|eexists]|]].
  eapply wp_mono; [|apply IH; [set_solver|done|set_solver]].
  intros h2 r [[H2 [l2 ->]] Hr]. split; [split; [done|exists (l1 ++ l2); by rewrite app_assoc]|].
  destruct r as [u|e]; [|done]. constructor; [by apply crd_handled_extends|done].
Qed.

Lemma resolve_secret_ok val h :
  wpt (translate (fun _ => HValues) (resolve_secret json_Marshal_string (GetNamespace plugin) val))
    (fun h' r => forall val', r = Ok val' -> option_resolved h' val val') h.
Proof.
  unfold resolve_secret, option_resolved. destruct (ov_ValueFrom val ≫= vf_Secret) as [ref|] eqn:Hs.
  - apply wp_translate. unfold getValueFromSecret. wp_steps; try (by intros ? [=]); traced_answers; intros val' Hv; simplify_eq.
    do 2 eexists. split; [apply elem_of_app; right; constructor|done].
  - apply wp_translate, wp_ret. by intros val' [= ->].
Qed.
Lemma resolved_options_ok l h :
  wpt (resolved_options (GetNamespace plugin) l)
    (fun h' r => forall options, r = Ok options -> Forall2 (option_resolved h') l options) h.
Proof.
  unfold resolved_options, resolvePluginOptionValueFrom. apply wp_translate, wp_bind.
  match goal with |- wp _ (foreach _ ?b _) _ _ => set (body := b) end.
  enough (forall acc h, wp (fun w X e x w' => traced any_answer w X (HValues e) x w') (foreach l body acc)
    (fun h' r => (exists l', h' = h ++ l') /\
       forall vals, r = inl vals -> exists options, vals = acc ++ options /\ Forall2 (option_resolved h') l options) h) as H.
  { eapply wp_mono; [|apply H]. intros h' r [_ Hr]. destruct r as [vals|e]; apply wp_ret; [|done].
    intros options [= <-]. by destruct (Hr vals eq_refl) as (os & -> & Hos). }
  clear h. induction l as [|val l IH]; intros acc h.
  { apply wp_ret. split; [exists []; by rewrite app_nil_r|]. intros vals [= <-]. exists []. by rewrite app_nil_r. }
  cbn [foreach]. apply wp_bind. subst body. cbn beta. apply wp_bind.
  pose proof (proj1 (wp_translate _ _ _ _ _) (resolve_secret_ok val h)) as Hv.
  pose proof (proj1 (wp_translate _ (fun _ => HValues) (resolve_secret json_Marshal_string (GetNamespace plugin) val) _ _) (wp_traced_extends any_answer _ h)) as Hx.
  eapply wp_mono; [|apply wp_and; [exact Hv|exact Hx]].
  intros h1 [val'|e] [H1 [l1 ->]]; apply wp_ret; [|apply wp_ret; split; [by eexists|done]].
  eapply wp_mono; [|apply IH]. intros h2 r [[l2 ->] Hr]. split; [exists (l1 ++ l2); by rewrite app_assoc|].
  intros vals Hvals. destruct (Hr vals Hvals) as (os & -> & Hos). exists (val' :: os). split; [by rewrite <-app_assoc|].
  constructor; [|done]. apply option_resolved_extends. by apply H1.
Qed.
Lemma resolved_options_harmless namespace l : all_calls harmless (resolved_options namespace l).
Proof. apply all_calls_translate, all_calls_any. done. Qed.

(** C36: what an installation does to the cluster, and a dry run as well, whatever the calls
    answer.  Definitions of custom resources are only ever updated, and only those the loaded
    chart brings, over the version that was read; none is created.  Helm's action runs only for
    a chart that fits the version of Kubernetes, after every definition of the chart was either
    updated or not found, with the values of the chart under those of the options, secrets
    resolved, and as a dry run exactly when one was asked for.  A release is returned only when
    the action returned it. *)
Theorem installRelease_changes :
  wpt (installRelease LookupEnv spec plugin isDryRun) (fun h r =>
    changes_ok h /\
    forall release, r = Returns (Ok release) -> exists i c v, Call (HInstall i c v) (Ok release) ∈ h) [].
Proof.
  assert (changes_ok []) as Hnil by constructor. unfold installRelease, newHelmInstallAction.
  apply wp_bind, wp_bind. eapply wp_mono; [|by apply newHelmAction_version].
  intros h1 [caps|e] [[H1 _] Hv]; apply wp_ret; [|by apply wp_ret].
  specialize (Hv caps eq_refl). cbn [mbind result_mbind]. destruct (pd_HelmChart spec) as [reference|]; [|by apply wp_ret].
  apply wp_bind. eapply wp_mono; [|by apply loadHelmChart_found].
  intros h2 [cpo [chart|e]] [[H2 [l2 ->]] Hc]; [|by apply wp_ret]. destruct (Hc chart eq_refl) as [path Hl].
  apply wp_bind, wp_trigger. intros [e|] h3 [_ ->]; [apply wp_ret; split; [by apply changes_ok_snoc|done]|].
  apply wp_bind. eapply wp_mono; [|eapply (replaceCRDs_ok _ path chart); [by apply changes_ok_snoc|set_solver|done]].
  intros h4 err [[H4 [l4 ->]] Hcrd]. destruct err as [e|]; [by apply wp_ret|]. specialize (Hcrd eq_refl).
  unfold getValuesForHelmChart. apply wp_bind, wp_bind.
  eapply wp_mono; [|apply wp_and; [apply resolved_options_ok|apply wp_harmless; [apply resolved_options_harmless|exact H4]]].
  intros h5 [options|e] [Ho [H5 [l5 ->]]]; apply wp_ret; [|by apply wp_ret]. specialize (Ho options eq_refl). cbn [mbind result_mbind].
  unfold mergeChartAndPluginOptionValues.
  destruct (ConvertFlatValuesToHelmValues [] strvals_ParseJSON options) as [hv|e] eqn:Hconv; [|by apply wp_ret].
  cbn [mbind result_mbind]. destruct (verifyKubeVersionIsCompatible chart caps) eqn:Hver; [by apply wp_ret|].
  unfold verifyKubeVersionIsCompatible, clear_kube_version in *. destruct (ch_Metadata chart) as [m|] eqn:Hm; [|by apply wp_ret].
  apply wp_bind, wp_trigger. intros r h6 [_ ->]. apply wp_ret. split.
  - apply changes_ok_snoc; [done|]. exists path, chart, m, (caps_KubeVersion caps), options, hv.
    split; [set_solver|]. split; [eapply Forall_impl; [exact Hcrd|]; intros; by do 2 apply crd_handled_extends|].
    split; [done|]. split; [done|]. split; [set_solver|]. split.
    { destruct (bool_decide (cm_KubeVersion m = "")) eqn:Hk; [left; by apply bool_decide_eq_true in Hk|right].
      cbn [negb andb] in Hver. by destruct (IsCompatibleRange _ _). }
    split; [eapply Forall2_impl; [exact Ho|]; intros; by apply option_resolved_extends|]. done.
  - intros release [= ->]. do 3 eexists. apply elem_of_app. right. constructor.
Qed.
End changes.

(** The timeout is the number of seconds as long as its nanoseconds fit 64 bits. *)
Lemma getHelmTimeout_exact LookupEnv :
  let seconds := GetIntEnvWithDefault LookupEnv "HELM_RELEASE_TIMEOUT" 300 in
  (-9223372036 <= seconds <= 9223372036)%Z -> getHelmTimeout LookupEnv = (seconds * 10 ^ 9)%Z.
Proof.
  intros seconds Hs. unfold getHelmTimeout, int64. fold seconds.
  rewrite Z.mod_small by lia. lia.
Qed.
Lemma helm_timeout_overflows LookupEnv :
  LookupEnv "HELM_RELEASE_TIMEOUT" = Some "9223372037" -> (getHelmTimeout LookupEnv < 0)%Z.
Proof. intros H. unfold getHelmTimeout, GetIntEnvWithDefault, Getenv, GetEnvOrDefault. rewrite H. reflexivity. Qed.

(** ** Runs *)
Module HelmRun.
Definition chart_values : values_map := [("image", GoMap [("tag", GoString "1"); ("name", GoString "app")]); ("hosts", GoList [])].
Definition set_values : values_map := [("image", GoMap [("tag", GoString "2")]); ("hosts", GoString "none")].
Lemma set_unique : unique_keys (GoMap set_values).
Proof.
  intros [|k path] m; simpl; [intros [= <-]; by repeat constructor; set_solver|].
  destruct (String.eqb "image" k); simpl.
  - destruct path as [|k' path]; simpl; [intros [= <-]; by repeat constructor; set_solver|].
    destruct (String.eqb "tag" k'); simpl; [by destruct path|done].
  - destruct (String.eqb "hosts" k); simpl; [by destruct path|done].
Qed.
Lemma mergeMaps_leaf_witness :
  get_path ["image"; "tag"] (GoMap (mergeMaps chart_values set_values)) = Some (GoString "2") /\
  get_path ["image"; "name"] (GoMap (mergeMaps chart_values set_values)) = Some (GoString "app").
Proof.
  split.
  - apply (mergeMaps_leaf chart_values set_values ["image"; "tag"] (GoString "2") set_unique eq_refl). by left.
  - apply (mergeMaps_leaf chart_values set_values ["image"; "name"] (GoString "app") set_unique eq_refl). right. by vm_compute.
Defined.

#[export] Instance libs : HelmLibs := {|
  helm_release := values_map;
  crd_Unmarshal s := if bool_decide (s = "") then Err (new_error "invalid") else Ok (mk_crdef s "" "new");
  IsCompatibleRange _ _ := true;
  IsOCI := fun url => has_prefix url "oci://";
  IsGroupDiscoveryFailedError _ := false;
  is_ErrReleaseNotFound _ := false;
  RepositoryCache := "/cache";
  strvals_ParseJSON s m := Ok m;
  json_Marshal_string s := s
|}.
(** A cluster with the definition [crd.v1] at version 7 and one chart, which brings a newer one
    and another that the cluster does not have *)
Definition the_chart : Chart := mk_chart (Some (mk_chart_metadata "app" "1.0" "")) chart_values [Some "crd.v1"; None; Some "crd.v2"].
Definition handler X (e : helmE X) (w : unit) : X * unit :=
  (match e in helmE X return X with
   | HValues e => match e in valuesE X return X with
                  | VDefinition e => match e in definitionE X return X with
                                     | GetPluginDefinition _ => Err (new_error "unused")
                                     | GetClusterPluginDefinition _ => Err (new_error "unused")
                                     end
                  | VListClusters _ => Ok [] | VListTeams _ => Ok []
                  | VGetCluster _ => Err (new_error "unused") | VGetSecret _ => Err (new_error "unused")
                  end
   | HInit _ => None | HRegistryClient => None | HDiscoveryClient => None
   | HServerVersion => Ok (mk_kube_version "v1.30.0" "1" "30")
   | HVersionSet => ([], None)
   | HNotExist _ => true
   | HLocateChart _ name => Ok name
   | HLoadChart _ => Ok the_chart
   | HNewClient => None
   | HGetCRD name => if bool_decide (name = "crd.v1") then Ok (mk_crdef name "7" "old") else Err (mk_error NotFound "not found")
   | HCreateCRD _ => None | HUpdateCRD _ => None
   | HInstall _ _ v => Ok v
   | HGetRelease _ _ => Err (new_error "unused")
   | HUninstall _ _ _ => None
   end, w).
Definition spec : PluginDefinitionSpec :=
  mk_pd_spec "" "" (Some (mk_hcr "charts/app" "oci://registry" "1.0")) None [] "1.0" None "" "" "".
Definition plugin : Plugin :=
  mk_plugin (named "app" "org") (mk_plugin_spec (mk_pdr "app" "PluginDefinition") "" [] "" "apps" "" "" [] []) empty_plugin_status.
(** A dry run writes to the cluster: it updates the definition that is there. *)
Lemma dry_run_updates_definitions :
  let calls := run_calls handler (TemplateHelmChartFromPlugin (fun _ => None) spec plugin) tt in
  run_result handler (TemplateHelmChartFromPlugin (fun _ => None) spec plugin) tt = Returns (Ok chart_values) /\
  Call (HUpdateCRD (mk_crdef "crd.v1" "7" "new")) None ∈ calls.
Proof.
  split; [vm_compute; reflexivity|]. apply (list_elem_of_lookup_2 _ 10). vm_compute. reflexivity.
Qed.
End HelmRun.
