(* ===== verification/PluginCli.v ===== *)
(** * PluginCli: the plugin commands of greenhousectl
      ([internal/cmd/plugin_template.go], [plugin_generate.go], [plugin_validate.go], [utils.go])

    [template] puts the values of a Plugin together as the controllers would and hands them to
    helm; [generate] makes a plugin definition of a chart; [validate] checks a Plugin against
    its definition and renders the chart.

    Files, processes and the terminal are calls; YAML, JSON, the flattening of values and the
    order in which the flattened map is walked are parameters.  Flags arrive parsed.  A command
    ends with one of [cli_end]. *)
From S2P Require Import Prelude Effects Conditions Meta ApiTypes PluginTypes PluginDefinitions OptionTypes HelmValues PluginWebhook Artifactory Cel HelmRender.
From stdpp Require Import sorting.

Local Abbreviation values_map := (list (string * goval)).

Inductive cli_end := CliReturns (err : option error) | CliExits (code : nat) | CliPanics.

Class PluginCliLibs `{HelmLibs} := {
  (** [yaml.Unmarshal] into the types, with the kind the file names *)
  definition_Unmarshal : string -> result (string * ClusterPluginDefinition);
  preset_Unmarshal : string -> result (string * PluginPreset);
  plugin_Unmarshal : string -> result Plugin;
  values_yaml_Marshal : values_map -> result string;
  definition_Marshal : ClusterPluginDefinition -> result string;
  jsonToYaml : string -> result string;
  any_Marshal : goval -> result string;
  (** [flatten.Flatten] with dots, in the order the range walks the map *)
  Flatten : values_map -> result values_map
}.
(** [sort.Slice] of options by name *)
Class SortOptions := sort_options : list PluginOption -> list PluginOption.
Definition option_le (o o' : PluginOption) : Prop := String.le (opt_Name o) (opt_Name o').
Class SortOptionsLaws `{SortOptions} := {
  sort_options_perm l : sort_options l ≡ₚ l;
  sort_options_sorted l : Sorted option_le (sort_options l)
}.

Section cli.
Context {HLibs : HelmLibs} {Libs : PluginCliLibs} {Sort : SortByName} {SortO : SortOptions} {Json : JsonDecoder}.
Variable LookupEnv : string -> option string.

Inductive pluginCliE : Type -> Type :=
| PcAbs (path : string) : pluginCliE (result string)
| PcReadFile (path : string) : pluginCliE (result string)
| PcNotExist (path : string) : pluginCliE bool
| PcProgAvail (program : string) : pluginCliE string
| PcCreateTemp (pattern : string) : pluginCliE (result string)
| PcWrite (name data : string) : pluginCliE (option error)
| PcCloseRemove (name : string) : pluginCliE unit
| PcExecHelm (args : list string) : pluginCliE (string * option error)
| PcPrint (text : string) : pluginCliE unit
| PcLoadChart (path : string) : pluginCliE (result Chart)
| PcMkdirAll (path : string) : pluginCliE (option error)
| PcWriteFile (path data : string) : pluginCliE (option error)
| PcGetConfig : pluginCliE bool                    (* GetConfigOrDie: false dies *)
| PcHelm {X} (e : helmE X) : pluginCliE X.
Local Abbreviation P := (prog pluginCliE).

Definition loadFromFile {T} (Unmarshal : string -> result T) (path : string) : P (result T) :=
  r ← trigger (PcAbs path);
  match r with
  | Err e => mret (Err e)
  | Ok absPath => f ← trigger (PcReadFile absPath); mret (data ← f; Unmarshal data)
  end.

(** ** plugin template *)
Record PluginTemplatePresetOptions := mk_template {
  pluginPresetPath : string; pluginDefinitionPath : string; template_clusterName : string }.
Definition template_validate (o : PluginTemplatePresetOptions) : P (option error) :=
  missing ← trigger (PcNotExist (pluginPresetPath o));
  if (missing : bool) then mret (Some (new_error ("PluginPreset file does not exist: " +:+ pluginPresetPath o)))
  else
    missing ← trigger (PcNotExist (pluginDefinitionPath o));
    if (missing : bool) then mret (Some (new_error ("ClusterPluginDefinition file does not exist: " +:+ pluginDefinitionPath o)))
    else mret None.
Definition validateCompatibility (o : PluginTemplatePresetOptions) (preset : string * PluginPreset)
    (definition : string * ClusterPluginDefinition) : option error :=
  let expectedPluginDef := pdr_Name (pps_PluginDefinitionRef (preset_Plugin (preset_Spec preset.2))) in
  let actualPluginDef := GetName definition.2 in
  if negb (bool_decide (preset.1 = "PluginPreset"))
  then Some (new_error ("expected PluginPreset kind, got " +:+ preset.1 +:+ " in file " +:+ pluginPresetPath o))
  else if negb (bool_decide (definition.1 = ClusterPluginDefinitionKind)) && negb (bool_decide (definition.1 = PluginDefinitionKind))
  then Some (new_error ("expected either " +:+ ClusterPluginDefinitionKind +:+ " or " +:+ PluginDefinitionKind +:+
                        " kind, got " +:+ definition.1 +:+ " in file " +:+ pluginDefinitionPath o))
  else if negb (bool_decide (expectedPluginDef = actualPluginDef))
  then Some (new_error ("PluginPreset references (Cluster-)PluginDefinition '" +:+ expectedPluginDef +:+
                        "' but provided file defines '" +:+ actualPluginDef +:+ "'"))
  else match pd_HelmChart (cpd_Spec definition.2) with
       | None => Some (new_error ("(Cluster-)PluginDefinition '" +:+ actualPluginDef +:+ "' must have a HelmChart reference"))
       | Some _ => None
       end.
(** Marshalling a string does not fail. *)
Definition createPluginOptionValue (name value : string) : PluginOptionValue := plain_value name (json_Marshal_string value).
Definition literalPaths : list string :=
  ["global.greenhouse.clusterNames"; "global.greenhouse.teamNames"; "global.greenhouse.baseDomain"; "global.greenhouse.ownedBy"].
Definition getGreenhouseValuesForTemplate (preset : PluginPreset) (clusterName : string) : list PluginOptionValue :=
  ((fun path => createPluginOptionValue path path) <$> literalPaths) ++
  (if bool_decide (GetNamespace preset = "") then [] else [createPluginOptionValue "global.greenhouse.organizationName" (GetNamespace preset)]) ++
  (if bool_decide (clusterName = "") then [] else [createPluginOptionValue "global.greenhouse.clusterName" clusterName]).
Fixpoint overrides_of (clusterName : string) (l : list ClusterOptionOverride) : list PluginOptionValue :=
  match l with
  | [] => []
  | override :: l =>
      if bool_decide (coo_ClusterName override = clusterName) then ConvertToPluginOptionValues (Overrides override)
      else overrides_of clusterName l
  end.
Definition getClusterSpecificOverrides (preset : PluginPreset) (clusterName : string) : list PluginOptionValue :=
  overrides_of clusterName (ClusterOptionOverrides (preset_Spec preset)).
Definition secret_literal (v : PluginOptionValue) : PluginOptionValue :=
  match ov_ValueFrom v ≫= vf_Secret with
  | Some ref => mk_ov (ov_Name v) (Some (json_Marshal_string (skr_Name ref +:+ "/" +:+ skr_Key ref))) None (ov_Expression v)
  | None => v
  end.
Definition processSecretsToLiterals (values : list PluginOptionValue) : list PluginOptionValue := secret_literal <$> values.
Definition prepareValues (definition : ClusterPluginDefinition) (preset : PluginPreset) (clusterName : string) :
    list PluginOptionValue :=
  let values := MergePluginAndPluginOptionValueSlice (pd_Options (cpd_Spec definition)) (getGreenhouseValuesForTemplate preset clusterName) in
  let values := MergePluginOptionValues values (ConvertToPluginOptionValues (pps_OptionValues (preset_Plugin (preset_Spec preset)))) in
  let values := MergePluginOptionValues values (getClusterSpecificOverrides preset clusterName) in
  processSecretsToLiterals values.
Definition template_args (preset : PluginPreset) (chartRef : HelmChartReference) (valuesFile : string) : list string :=
  let namespace := pps_ReleaseNamespace (preset_Plugin (preset_Spec preset)) in
  if has_prefix (hcr_Repository chartRef) "oci://"
  then ["template"; GetName preset; hcr_Repository chartRef +:+ "/" +:+ hcr_Name chartRef;
        "--namespace"; namespace; "--values"; valuesFile; "--version"; hcr_Version chartRef]
  else ["template"; GetName preset; hcr_Name chartRef; "--repo"; hcr_Repository chartRef;
        "--version"; hcr_Version chartRef; "--namespace"; namespace; "--values"; valuesFile].
Definition runHelmTemplate (preset : PluginPreset) (chartRef : HelmChartReference) (valuesFile : string) : P (option error) :=
  let args := template_args preset chartRef valuesFile in
  '(output, err) ← trigger (PcExecHelm args);
  match err with
  | Some e => mret (Some (new_error ("helm template failed: " +:+ err_msg e +:+ "
Command: helm " +:+ String.concat " " args +:+ "
Output: " +:+ output)))
  | None => trigger (PcPrint output) ≫= fun _ => mret None
  end.
Definition template_run (preset : PluginPreset) (chartRef : HelmChartReference) (values : list PluginOptionValue) : P (option error) :=
  match (helmValues ← ConvertFlatValuesToHelmValues [] strvals_ParseJSON values; values_yaml_Marshal helmValues) with
  | Err e => mret (Some e)
  | Ok valuesYAML =>
      f ← trigger (PcCreateTemp "values-*.yaml");
      match f with
      | Err e => mret (Some e)
      | Ok name =>
          err ← trigger (PcWrite name valuesYAML);
          err ← (match err with
                 | Some e => mret (Some e)
                 | None => runHelmTemplate preset chartRef name
                 end);
          trigger (PcCloseRemove name) ≫= fun _ => mret err
      end
  end.
(** [PreRunE], then [RunE]; the chart reference was checked by [validateCompatibility]. *)
Definition newPluginTemplatePresetCmd (o : PluginTemplatePresetOptions) : P cli_end :=
  helm ← trigger (PcProgAvail "helm");
  if bool_decide (trim_space helm = "")
  then mret (CliReturns (Some (new_error "please install helm first, see https://helm.sh/docs/intro/install/")))
  else
    err ← template_validate o;
    match err with
    | Some e => mret (CliReturns (Some e))
    | None =>
        definition ← loadFromFile definition_Unmarshal (pluginDefinitionPath o);
        match definition with
        | Err e => mret (CliReturns (Some e))
        | Ok definition =>
            preset ← loadFromFile preset_Unmarshal (pluginPresetPath o);
            match preset with
            | Err e => mret (CliReturns (Some e))
            | Ok preset =>
                match validateCompatibility o preset definition, pd_HelmChart (cpd_Spec definition.2) with
                | Some e, _ => mret (CliReturns (Some e))
                | None, None => mret CliPanics
                | None, Some chartRef =>
                    err ← template_run preset.2 chartRef (prepareValues definition.2 preset.2 (template_clusterName o));
                    mret (CliReturns err)
                end
            end
        end
    end.

(** ** plugin generate *)
Fixpoint named_values (flat : values_map) : result (list PluginOption) :=
  match flat with
  | [] => Ok []
  | (k, v) :: flat =>
      raw ← any_Marshal v;
      options ← named_values flat;
      Ok (mk_option k (Some raw) k "" false "" "" :: options)
  end.
(** Nil values are no different from empty ones: there is nothing to flatten. *)
Definition flattened (chartValues : values_map) : result values_map :=
  match chartValues with [] => Ok [] | _ => Flatten chartValues end.
Definition chartValuesToNamedValues (chartValues : values_map) : result (list PluginOption) :=
  flatChartValues ← flattened chartValues;
  namedValues ← named_values flatChartValues;
  Ok (sort_options namedValues).
Definition helmChartToPlugin (helmChart : Chart) : outcome (result ClusterPluginDefinition) :=
  match chartValuesToNamedValues (ch_Values helmChart), ch_Metadata helmChart with
  | Err e, _ => Returns (Err e)
  | Ok _, None => Panics
  | Ok pluginValues, Some m =>
      let pluginVersion := if bool_decide (cm_Version m = "") then "1.0.0" else cm_Version m in
      Returns (Ok (mk_cpd (named (cm_Name m +:+ "-" +:+ cm_Version m) "")
        (mk_pd_spec "" (cm_Name m)
           (Some (mk_hcr (cm_Name m) "TODO: Repository for this Helm chart." (cm_Version m)))
           (Some (mk_uar "TODO: Javascript asset server URL." (cm_Name m) "latest"))
           pluginValues pluginVersion None "" "" "") (mk_pd_status [] None)))
  end.
Definition generate_write (pluginDirectory : string) (helmChart : Chart) : P cli_end :=
  match helmChartToPlugin helmChart with
  | Panics => mret CliPanics
  | Returns r =>
      match (d ← r; json ← definition_Marshal d; jsonToYaml json) with
      | Err e => mret (CliReturns (Some e))
      | Ok yamlBytes => err ← trigger (PcWriteFile (Artifactory.Join [pluginDirectory; "plugindefinition.yaml"]) yamlBytes); mret (CliReturns err)
      end
  end.
Definition generate_run (helmChartPath outPath : string) : P cli_end :=
  r ← trigger (PcLoadChart helmChartPath);
  match r with
  | Err e => mret (CliReturns (Some e))
  | Ok helmChart =>
      match ch_Metadata helmChart with
      | Some m =>
          if bool_decide (cm_Version m = "") then trigger (PcPrint "the Helm chart must have a version") ≫= fun _ => mret (CliExits 1)
          else
            let pluginDirectory := Artifactory.Join [outPath; Chart_Name helmChart; cm_Version m] in
            _ ← trigger (PcPrint ("creating directory for extension: " +:+ pluginDirectory));
            err ← trigger (PcMkdirAll pluginDirectory);
            match err with Some e => mret (CliReturns (Some e)) | None => generate_write pluginDirectory helmChart end
      | None => trigger (PcPrint "the Helm chart must have a version") ≫= fun _ => mret (CliExits 1)
      end
  end.
(** [validate] and [complete]: two arguments, made absolute *)
Definition with_paths (usage : string) (args : list string) (run : string -> string -> P cli_end) : P cli_end :=
  match args with
  | [a; b] =>
      r ← trigger (PcAbs a);
      match r with
      | Err e => mret (CliReturns (Some e))
      | Ok a =>
          r ← trigger (PcAbs b);
          match r with Err e => mret (CliReturns (Some e)) | Ok b => run a b end
      end
  | _ => mret (CliReturns (Some (new_error usage)))
  end.
Definition newPluginGenerateCmd (args : list string) : P cli_end :=
  with_paths "generate [Helm chart path] [output path]" args generate_run.

(** ** plugin validate *)
(** The errors of the values of one option; a nil value is dereferenced. *)
Fixpoint check_values (option : PluginOption) (l : list PluginOptionValue) : outcome (bool * list error) :=
  match l with
  | [] => Returns (false, [])
  | optionValue :: l =>
      if bool_decide (ov_Name optionValue = opt_Name option) then
        match ov_Value optionValue with
        | None => Panics
        | Some raw =>
            '(_, errs) ← check_values option l;
            Returns (true, match IsValidValue option raw with Some e => e :: errs | None => errs end)
        end
      else check_values option l
  end.
Fixpoint check_options (options : list PluginOption) (l : list PluginOptionValue) : outcome (list error) :=
  match options with
  | [] => Returns []
  | option :: options =>
      '(isSet, errs) ← check_values option l;
      rest ← check_options options l;
      Returns (errs ++ (if opt_Required option && negb isSet then [new_error ("required option " +:+ opt_Name option +:+ " not set")] else []) ++ rest)
  end.
Definition validateOptions (pluginDefinition : ClusterPluginDefinition) (plugin : Plugin) : outcome (option error) :=
  errList ← check_options (pd_Options (cpd_Spec pluginDefinition)) (OptionValues (plugin_Spec plugin));
  Returns match errList with
          | [] => None
          | _ => Some (new_error ("pluginDefinition " +:+ GetName pluginDefinition +:+ " and plugin " +:+ GetName plugin +:+
                    " are not compatible: " +:+ String.concat "" ((fun e => err_msg e +:+ "
") <$> errList)))
          end.
Definition validateHelmChart (pluginDefinition : ClusterPluginDefinition) (plugin : Plugin) : P cli_end :=
  match pd_HelmChart (cpd_Spec pluginDefinition) with
  | None => mret (CliReturns None)
  | Some chart =>
      config ← trigger PcGetConfig;
      if negb config then mret (CliExits 1)
      else
        err ← trigger (PcHelm HNewClient);
        match err with
        | Some e => mret (CliReturns (Some e))
        | None =>
            _ ← trigger (PcPrint ("rendering helm chart " +:+ HelmChartReference_String chart));
            r ← translate (fun _ => PcHelm) (TemplateHelmChartFromPlugin LookupEnv (cpd_Spec pluginDefinition) plugin);
            mret match r with
                 | Panics => CliPanics
                 | Returns (Ok _) => CliReturns None
                 | Returns (Err e) => CliReturns (Some e)
                 end
        end
  end.
Definition validate_run (pathToPluginDefinition pathToPlugin : string) : P cli_end :=
  _ ← trigger (PcPrint ("validating pluginDefinition " +:+ pathToPluginDefinition +:+ " with plugin " +:+ pathToPlugin));
  definition ← loadFromFile definition_Unmarshal pathToPluginDefinition;
  match definition with
  | Err e => mret (CliReturns (Some e))
  | Ok (_, definition) =>
      plugin ← loadFromFile plugin_Unmarshal pathToPlugin;
      match plugin with
      | Err e => mret (CliReturns (Some e))
      | Ok plugin =>
          match validateOptions definition plugin with
          | Panics => mret CliPanics
          | Returns (Some e) => mret (CliReturns (Some e))
          | Returns None =>
              r ← validateHelmChart definition plugin;
              match r with
              | CliReturns None =>
                  trigger (PcPrint ("successfully validated pluginDefinition " +:+ GetName definition)) ≫= fun _ => mret (CliReturns None)
              | _ => mret r
              end
          end
      end
  end.
Definition newPluginValidateCmd (args : list string) : P cli_end :=
  with_paths "validate [plugindefinition.yaml path] [plugin.yaml path]" args validate_run.
End cli.

(** ** The values of [template] *)
Section template_values.
Context {HLibs : HelmLibs} {Sort : SortByName} {SortLaws : SortByNameLaws}.
Lemma find_value_fmap n (f : PluginOptionValue -> PluginOptionValue) l :
  (forall v, ov_Name (f v) = ov_Name v) -> find_value n (f <$> l) = f <$> find_value n l.
Proof. intros Hf. induction l as [|v l IH]; csimpl; [done|]. rewrite Hf. by case_bool_decide. Qed.
Lemma secret_literal_name v : ov_Name (secret_literal v) = ov_Name v.
Proof. unfold secret_literal. by destruct (ov_ValueFrom v ≫= vf_Secret). Qed.
Lemma template_greenhouse_NoDup preset clusterName : NoDup (names (getGreenhouseValuesForTemplate preset clusterName)).
Proof.
  unfold getGreenhouseValuesForTemplate. rewrite !fmap_app.
  by repeat case_bool_decide; apply (bool_decide_unpack _); vm_compute.
Qed.

(** The values [plugin template] hands to helm.  Of an option the override of the cluster
    counts first, then the preset, then the values that stand for Greenhouse's, then the default
    of the definition; what is merged replaces the value only, so the source of the value is that
    of the last of these to name the option.  A value from a secret is replaced by the name and
    key of the secret.  The controllers put Greenhouse's values over those of the preset. *)
Theorem prepareValues_value definition preset clusterName n :
  NoDup (opt_Name <$> pd_Options (cpd_Spec definition)) ->
  NoDup (pov_Name <$> pps_OptionValues (preset_Plugin (preset_Spec preset))) ->
  NoDup (names (getClusterSpecificOverrides preset clusterName)) ->
  find_value n (prepareValues definition preset clusterName) =
  secret_literal <$>
    overlay (find_value n (getClusterSpecificOverrides preset clusterName))
      (overlay (find_value n (ConvertToPluginOptionValues (pps_OptionValues (preset_Plugin (preset_Spec preset)))))
        (overlay (find_value n (getGreenhouseValuesForTemplate preset clusterName))
          (find_value n (default_values (pd_Options (cpd_Spec definition)))))).
Proof.
  intros Hd Hp Ho. unfold prepareValues, processSecretsToLiterals.
  rewrite find_value_fmap by apply secret_literal_name. f_equal.
  rewrite find_Merge by done. f_equal.
  rewrite find_Merge by (by rewrite ConvertToPluginOptionValues_names). f_equal.
  apply find_Merge_options; [done|apply template_greenhouse_NoDup].
Qed.
End template_values.

(** ** What [validate] accepts *)
Section validation.
Context {Json : JsonDecoder}.
Lemma check_values_spec o l :
  match check_values o l with
  | Panics => exists v, v ∈ l /\ ov_Name v = opt_Name o /\ ov_Value v = None
  | Returns (isSet, errs) =>
      (forall v, v ∈ l -> ov_Name v = opt_Name o -> ov_Value v <> None) /\
      (isSet = true <-> exists v, v ∈ l /\ ov_Name v = opt_Name o) /\
      (errs = [] <-> forall v raw, v ∈ l -> ov_Name v = opt_Name o -> ov_Value v = Some raw -> IsValidValue o raw = None)
  end.
Proof.
  induction l as [|v l IH]; simpl; [set_solver|].
  case_bool_decide as Hn.
  - destruct (ov_Value v) as [raw|] eqn:Hv; [|exists v; set_solver].
    destruct (check_values o l) as [[isSet errs]|]; simpl; [|set_solver].
    destruct IH as (H1 & H2 & H3). split; [|split].
    + intros w [->|Hw]%elem_of_cons; [congruence|auto].
    + split; [intros _; exists v; set_solver|done].
    + destruct (IsValidValue o raw) as [e|] eqn:Hval.
      * split; [done|]. intros H. specialize (H v raw). set_solver.
      * rewrite H3. split; intros H w raw'; [|set_solver].
        intros [->|Hw]%elem_of_cons; [intros _ Hr; congruence|by apply H].
  - destruct (check_values o l) as [[isSet errs]|]; [|set_solver].
    destruct IH as (H1 & H2 & H3). split; [|split].
    + set_solver.
    + rewrite H2. set_solver.
    + rewrite H3. split; intros H w raw'; [|set_solver].
      intros [->|Hw]%elem_of_cons; [done|by apply H].
Qed.

Definition option_accepted (l : list PluginOptionValue) (o : PluginOption) : Prop :=
  (forall v, v ∈ l -> ov_Name v = opt_Name o -> exists raw, ov_Value v = Some raw /\ IsValidValue o raw = None) /\
  (opt_Required o = true -> exists v, v ∈ l /\ ov_Name v = opt_Name o).
Definition option_without_value (l : list PluginOptionValue) (o : PluginOption) : Prop :=
  exists v, v ∈ l /\ ov_Name v = opt_Name o /\ ov_Value v = None.

Lemma check_options_spec options l :
  match check_options options l with
  | Panics => Exists (option_without_value l) options
  | Returns errs => ~ Exists (option_without_value l) options /\ (errs = [] <-> Forall (option_accepted l) options)
  end.
Proof.
  induction options as [|o options IH]; simpl; [by split; [intros H%Exists_nil|]|].
  pose proof (check_values_spec o l) as Ho. destruct (check_values o l) as [[isSet errs]|]; [|by left].
  cbn [mbind outcome_mbind]. destruct (check_options options l) as [rest|]; [|by right].
  cbn [mbind outcome_mbind]. destruct Ho as (H1 & H2 & H3), IH as [H4 H5]. split.
  { intros [(v & Hv & Hn & Hval)|H]%Exists_cons; [by eapply H1|done]. }
  rewrite Forall_cons, <-H5. unfold option_accepted. clear H4 H5.
  assert (errs = [] /\ (opt_Required o && negb isSet) = false <->
    (forall v, v ∈ l -> ov_Name v = opt_Name o -> exists raw, ov_Value v = Some raw /\ IsValidValue o raw = None) /\
    (opt_Required o = true -> exists v, v ∈ l /\ ov_Name v = opt_Name o)) as <-.
  { rewrite H3, <-H2. split.
    - intros [Ha Hb]. split.
      + intros v Hv Hn. destruct (ov_Value v) as [raw|] eqn:Hr; [|by destruct (H1 v Hv Hn)]. eauto.
      + intros Hq. rewrite Hq in Hb. by destruct isSet.
    - intros [Ha Hb]. split.
      + intros v raw Hv Hn Hr. destruct (Ha v Hv Hn) as (raw' & ? & ?). congruence.
      + destruct (opt_Required o); [|done]. by rewrite Hb. }
  destruct (opt_Required o && negb isSet); destruct errs; naive_solver.
Qed.

(** C38: when [plugin validate] finds a Plugin compatible with its definition: every value the
    Plugin gives to an option of the definition is a literal of the option's type, and every
    required option has one.  A value that comes from a secret, a reference or an expression
    instead is dereferenced as nil: the command panics, whatever else is wrong. *)
Theorem validateOptions_spec definition plugin :
  let options := pd_Options (cpd_Spec definition) in
  let values := OptionValues (plugin_Spec plugin) in
  (validateOptions definition plugin = Panics <-> Exists (option_without_value values) options) /\
  (validateOptions definition plugin = Returns None <-> Forall (option_accepted values) options).
Proof.
  intros options values. unfold validateOptions. fold options values.
  pose proof (check_options_spec options values) as H.
  destruct (check_options options values) as [errs|]; cbn [mbind outcome_mbind].
  - destruct H as [H1 H2]. split; [by split|]. rewrite <-H2. by destruct errs.
  - split; [by split|]. split; [done|]. intros Hf. apply Exists_exists in H as (o & Ho & v & Hv & Hn & Hr).
    apply (proj1 (Forall_forall _ _) Hf) in Ho as [Ho _]. destruct (Ho v Hv Hn) as (raw & ? & _). congruence.
Qed.

(** A definition with a required secret is compatible with no Plugin at all. *)
Lemma required_secret_incompatible definition plugin o :
  o ∈ pd_Options (cpd_Spec definition) -> opt_Required o = true -> opt_Type o = PluginOptionTypeSecret ->
  validateOptions definition plugin <> Returns None.
Proof.
  intros Ho Hr Ht Hv. unfold validateOptions in Hv.
  pose proof (check_options_spec (pd_Options (cpd_Spec definition)) (OptionValues (plugin_Spec plugin))) as H.
  destruct (check_options _ _) as [[|e errs]|]; cbn [mbind outcome_mbind] in Hv; [|done..].
  destruct H as [_ [H _]]. specialize (H eq_refl). apply (proj1 (Forall_forall _ _) H) in Ho as [H1 H2].
  destruct (H2 Hr) as (v & Hin & Hn). destruct (H1 v Hin Hn) as (raw & _ & Hval).
  apply IsValidValue_None in Hval. rewrite Ht in Hval. unfold parses_as, value_of_type in Hval. destruct (json_Parse raw) as [j|]; [|done]. by destruct Hval as [_ Hval]; destruct j.
Qed.
End validation.

(** ** What [generate] makes of a chart *)
Section generation.
Context {HLibs : HelmLibs} {Libs : PluginCliLibs} {SortO : SortOptions} {SortOLaws : SortOptionsLaws} {Json : JsonDecoder} {Hook : HookLibs}.
Definition leaf_option (k raw : string) : PluginOption := mk_option k (Some raw) k "" false "" "".
Lemma named_values_spec flat l :
  named_values flat = Ok l <-> Forall2 (fun kv o => exists raw, any_Marshal kv.2 = Ok raw /\ o = leaf_option kv.1 raw) flat l.
Proof.
  revert l. induction flat as [|[k v] flat IH]; intros l; simpl.
  - split; [by intros [= <-]; constructor|by intros ->%Forall2_nil_inv_l].
  - destruct (any_Marshal v) as [raw|e] eqn:Hr; cbn [mbind result_mbind].
    + destruct (named_values flat) as [os|e]; cbn [mbind result_mbind].
      * split; [intros [= <-]; constructor; [by eexists|by apply IH]|].
        intros (o & os' & (raw' & Hr' & ->) & Hos%IH & ->)%Forall2_cons_inv_l. cbn in Hr'. rewrite Hr in Hr'. by simplify_eq.
      * split; [done|]. intros (o & os' & _ & Hos%IH & _)%Forall2_cons_inv_l. done.
    + split; [done|]. intros (o & os' & (raw' & Hr' & _) & _)%Forall2_cons_inv_l. cbn in Hr'. congruence.
Qed.
Lemma named_values_names flat l : named_values flat = Ok l -> opt_Name <$> l = flat.*1.
Proof.
  intros H%named_values_spec. induction H as [|kv o flat l (raw & _ & ->) _ IH]; csimpl; [done|]. by rewrite IH.
Qed.
Lemma named_values_perm flat flat' l :
  flat' ≡ₚ flat -> named_values flat = Ok l -> exists l', named_values flat' = Ok l' /\ l' ≡ₚ l.
Proof.
  intros Hp H%named_values_spec. destruct (Permutation_Forall2 (symmetry Hp) H) as (l' & H2 & H1).
  exists l'. split; [by apply named_values_spec|done].
Qed.
#[local] Instance option_le_trans : Transitive option_le.
Proof. intros o1 o2 o3. unfold option_le. apply transitivity. Qed.
Lemma sort_options_unique l l' : NoDup (opt_Name <$> l) -> l ≡ₚ l' -> sort_options l = sort_options l'.
Proof.
  intros Hnd Hp. apply (Sorted_unique_strong option_le); [|apply sort_options_sorted..|by rewrite !sort_options_perm].
  intros o o' Ho Ho' H1 H2. rewrite sort_options_perm in Ho, Ho'. rewrite <-Hp in Ho'.
  assert (opt_Name o = opt_Name o') as Hn by (by apply (anti_symm String.le)).
  apply list_elem_of_lookup in Ho as [i Hi], Ho' as [j Hj].
  assert (i = j); [|congruence]. eapply NoDup_lookup; [exact Hnd|rewrite list_lookup_fmap, Hi; reflexivity|].
  rewrite list_lookup_fmap, Hj. simpl. by rewrite Hn.
Qed.
Lemma validate_defaults_None options name :
  validate_defaults options name = None <-> Forall (fun o => IsValid o = None) options.
Proof.
  induction options as [|o options IH]; simpl; [by split; [constructor|]|].
  rewrite Forall_cons, <-IH. destruct (IsValid o); naive_solver.
Qed.
Lemma leaf_option_refused k raw : IsValid (leaf_option k raw) <> None.
Proof. done. Qed.

(** C39: the definition [plugin generate] writes for a chart, in whatever order the map of the
    flattened values is walked: one option for each of them, ordered by name, with its JSON as
    the default, and whenever the values can be walked in one order they can in every other and
    give the same options.  The options have no type: the webhook admits the definition only when
    the chart has no values. *)
Theorem helmChartToPlugin_definition chart flat d :
  flattened (ch_Values chart) = Ok flat -> NoDup flat.*1 ->
  helmChartToPlugin chart = Returns (Ok d) ->
  let options := pd_Options (cpd_Spec d) in
  opt_Name <$> options ≡ₚ flat.*1 /\ Sorted option_le options /\
  (forall k v, (k, v) ∈ flat -> exists raw, any_Marshal v = Ok raw /\ leaf_option k raw ∈ options) /\
  (forall flat', flat' ≡ₚ flat -> exists l, named_values flat' = Ok l /\ sort_options l = options) /\
  (validateCreate (cpd_Spec d) (GetName d) = None <-> flat = []).
Proof.
  unfold helmChartToPlugin, chartValuesToNamedValues. intros -> Hnd. cbn [mbind result_mbind].
  destruct (named_values flat) as [l|e] eqn:Hl; cbn [mbind result_mbind]; [|by destruct (ch_Metadata chart)].
  destruct (ch_Metadata chart) as [m|]; [|done]. intros [= <-]. cbn [pd_Options cpd_Spec].
  pose proof (named_values_names _ _ Hl) as Hn. split; [by rewrite sort_options_perm, Hn|].
  split; [apply sort_options_sorted|]. split; [|split].
  - intros k v Hkv. pose proof (proj1 (named_values_spec _ _) Hl) as Hf.
    apply list_elem_of_lookup in Hkv as [i Hi]. destruct (Forall2_lookup_l _ _ _ _ _ Hf Hi) as (o & Ho & raw & Hr & ->).
    exists raw. split; [done|]. rewrite sort_options_perm. by apply list_elem_of_lookup_2 with i.
  - intros flat' Hp. destruct (named_values_perm _ _ _ Hp Hl) as (l' & Hl' & Hp'). exists l'. split; [done|].
    symmetry. apply sort_options_unique; [by rewrite Hn|by symmetry].
  - unfold validateCreate, validatePluginDefinitionMustSpecifyHelmChartOrUIApplication, validatePluginDefinitionMustSpecifyVersion,
      validatePluginDefinitionOptionValueAndType. cbn [pd_HelmChart pd_UIApplication pd_Version pd_Options].
    rewrite (bool_decide_eq_false_2 (Some _ = None)) by done. cbn [andb].
    rewrite (bool_decide_eq_false_2 (_ = "")) by (by case_bool_decide).
    rewrite validate_defaults_None, sort_options_perm. split.
    + intros Hf. apply named_values_spec in Hl. destruct Hl as [|kv o flat l (raw & _ & ->) _]; [done|].
      apply Forall_cons in Hf as [Hf _]. by apply leaf_option_refused in Hf.
    + intros ->. simpl in Hl. by injection Hl as <-.
Qed.
End generation.

(** ** Runs *)
Module PluginCliRun.
#[local] Existing Instances HelmValues.ValuesRun.sort_merge HelmValues.ValuesRun.sort_merge_laws.
#[local] Existing Instances HelmRender.HelmRun.libs PluginWebhook.HookRun.libs PluginWebhook.HookRun.decoder.
#[local] Instance option_le_dec : RelDecision option_le.
Proof. intros o o'. unfold option_le. apply _. Defined.
#[local] Instance sort_merge : SortOptions := merge_sort option_le.
#[local] Instance sort_merge_laws : SortOptionsLaws.
Proof.
  split; intros l; unfold sort_options, sort_merge.
  - apply merge_sort_Permutation.
  - apply Sorted_merge_sort. intros o o'. apply (total String.le).
Qed.
(** Values are flat already; a text is its own JSON. *)
#[local] Instance cli_libs : PluginCliLibs := {|
  definition_Unmarshal s := Err (new_error s);
  preset_Unmarshal s := Err (new_error s);
  plugin_Unmarshal s := Err (new_error s);
  values_yaml_Marshal _ := Ok "";
  definition_Marshal d := Ok (GetName d);
  jsonToYaml s := Ok s;
  any_Marshal v := match v with GoString s => Ok s | _ => Err (new_error "unsupported") end;
  Flatten m := Ok m
|}.
Definition chart : Chart := mk_chart (Some (mk_chart_metadata "app" "1.0" "")) [("image.tag", GoString "1"); ("hosts", GoString "a")] [].
Definition generated : ClusterPluginDefinition :=
  match helmChartToPlugin chart with Returns (Ok d) => d | _ => mk_cpd (named "" "") (mk_pd_spec "" "" None None [] "" None "" "" "") (mk_pd_status [] None) end.
Lemma helmChartToPlugin_definition_witness :
  opt_Name <$> pd_Options (cpd_Spec generated) = ["hosts"; "image.tag"] /\
  validateCreate (cpd_Spec generated) "app-1.0" <> None.
Proof.
  split; [vm_compute; reflexivity|]. intros Hv.
  assert (helmChartToPlugin chart = Returns (Ok generated)) as Hg by (vm_compute; reflexivity).
  assert (NoDup (ch_Values chart).*1) as Hnd by (apply (bool_decide_unpack _); vm_compute; exact I).
  pose proof (helmChartToPlugin_definition chart (ch_Values chart) generated eq_refl Hnd Hg) as (_ & _ & _ & _ & Ha).
  apply Ha in Hv. discriminate.
Defined.

(** A preset that sets the base domain and an option with a default from a secret *)
Definition definition : ClusterPluginDefinition :=
  mk_cpd (named "app" "") (mk_pd_spec "" "" None None [HelmValues.ValuesRun.replicas; HelmValues.ValuesRun.image] "1.0" None "" "" "") (mk_pd_status [] None).
Definition preset : PluginPreset :=
  mk_preset (named "app" "org")
    (mk_preset_spec (mk_preset_plugin_spec (mk_pdr "app" "ClusterPluginDefinition") ""
       [mk_pov "replicas" None (Some (mk_pvfs (Some (mk_skr "s" "k")) None)) None;
        mk_pov "image" None (Some (mk_pvfs (Some (mk_skr "s" "k")) None)) None;
        mk_pov "global.greenhouse.baseDomain" (Some "example.com") None None] "apps" "" "" [])
     "" [mk_coo "eu" [mk_pov "image" (Some "x") None None]] [] "")
    (mk_preset_status [] [] 0 0 0 "").
Lemma prepareValues_value_witness :
  find_value "image" (prepareValues definition preset "us") = Some (mk_ov "image" (Some "s/k") None None) /\
  find_value "image" (prepareValues definition preset "eu") = Some (mk_ov "image" (Some "s/k") None None) /\
  find_value "replicas" (prepareValues definition preset "eu") = Some (mk_ov "replicas" None None None) /\
  find_value "global.greenhouse.baseDomain" (prepareValues definition preset "eu") =
    Some (plain_value "global.greenhouse.baseDomain" "example.com").
Proof.
  split; [|split; [|split]].
  - rewrite (prepareValues_value definition preset "us" "image"); [vm_compute; reflexivity|..];
      apply (bool_decide_unpack _); vm_compute; exact I.
  - rewrite (prepareValues_value definition preset "eu" "image"); [vm_compute; reflexivity|..];
      apply (bool_decide_unpack _); vm_compute; exact I.
  - rewrite (prepareValues_value definition preset "eu" "replicas"); [vm_compute; reflexivity|..];
      apply (bool_decide_unpack _); vm_compute; exact I.
  - rewrite (prepareValues_value definition preset "eu" "global.greenhouse.baseDomain"); [vm_compute; reflexivity|..];
      apply (bool_decide_unpack _); vm_compute; exact I.
Defined.
End PluginCliRun.
