(* ===== verification/RestGetter.v ===== *)
(** * RestGetter: clients for a cluster and what they keep
      ([internal/clientutil/client_getter.go], [internal/clientutil/client.go])

    A [RestClientGetter] makes the REST configuration, the discovery client, the REST mapper and
    the loader of a kubeconfig, and a persistent one keeps the last three.  Its state is a
    record; each of the persistent operations holds the lock of its field from the first read to
    the write, so that operations of several goroutines are a sequence of whole operations.

    The REST configuration of a getter made from one is shared: [ToRESTConfig] hands out the
    pointer, and what [toDiscoveryClient] writes to it stays.  client-go's constructors are
    calls.

    [BindFlags] has a value receiver: the flags are bound to a copy, and the options a
    manager made stay as they were ([flags_without_effect]). *)
From S2P Require Import Prelude Effects Conditions Meta.
From Stdlib Require Import ZArith.

Class RestLibs := {
  float32 : Type;
  float32_zero : float32;
  float32_fifty : float32;
  DiscoveryClient : Type;
  RESTMapper : Type;
  ClientConfigLoader : Type
}.

Section getter.
Context {Libs : RestLibs}.
Record RestCfg := mk_restcfg { cfg_host : string; cfg_QPS : float32; cfg_Burst : Z }.
Record RuntimeOptions := mk_runtime { ro_QPS : float32; ro_Burst : Z }.
(** The method has a value receiver: the flags are bound to a copy of the options.
    The options of the caller, and the copy once the flags were parsed ([None]: a
    flag that was not given). *)
Definition BindFlags (qps : option float32) (burst : option Z) (o : RuntimeOptions) : RuntimeOptions * RuntimeOptions :=
  (o, mk_runtime (default float32_fifty qps) (default 300%Z burst)).
(** [kubeClientOpts] of [main], a variable without an initial value, after the flags were parsed *)
Definition kubeClientOpts (qps : option float32) (burst : option Z) : RuntimeOptions :=
  (BindFlags qps burst (mk_runtime float32_zero 0)).1.
Inductive config_overrides :=
| CentralOverrides (namespace : string)     (* clientcmd's ClusterDefaults, with the namespace *)
| NamespaceOverrides (namespace : string)
| GivenOverrides (overrides : string).
Record RestClientGetter := mk_rcg {
  rg_namespace : string;
  rg_clientConfigGetter : option string;    (* a kubeconfig *)
  rg_restConfig : option RestCfg;
  rg_usePersistentConfig : bool;
  rg_discoveryBurst : Z;
  rg_discoveryQPS : float32;
  rg_runtimeOpts : option RuntimeOptions;
  rg_overrides : option string;
  rg_clientConfig : option ClientConfigLoader;
  rg_restMapper : option RESTMapper;
  rg_discoveryClient : option DiscoveryClient
}.
Definition set_restConfig (c : RestCfg) (g : RestClientGetter) : RestClientGetter :=
  mk_rcg (rg_namespace g) (rg_clientConfigGetter g) (Some c) (rg_usePersistentConfig g) (rg_discoveryBurst g)
    (rg_discoveryQPS g) (rg_runtimeOpts g) (rg_overrides g) (rg_clientConfig g) (rg_restMapper g) (rg_discoveryClient g).
Definition set_caches (cc : option ClientConfigLoader) (m : option RESTMapper) (dc : option DiscoveryClient)
    (g : RestClientGetter) : RestClientGetter :=
  mk_rcg (rg_namespace g) (rg_clientConfigGetter g) (rg_restConfig g) (rg_usePersistentConfig g) (rg_discoveryBurst g)
    (rg_discoveryQPS g) (rg_runtimeOpts g) (rg_overrides g) cc m dc.

(** ** Options and constructors *)
Definition KubeClientOption := RestClientGetter -> RestClientGetter.
Definition WithDiscoveryOpts (qps : float32) (burst : Z) : KubeClientOption := fun g =>
  mk_rcg (rg_namespace g) (rg_clientConfigGetter g) (rg_restConfig g) (rg_usePersistentConfig g) burst qps
    (rg_runtimeOpts g) (rg_overrides g) (rg_clientConfig g) (rg_restMapper g) (rg_discoveryClient g).
Definition WithRuntimeOptions (o : RuntimeOptions) : KubeClientOption := fun g =>
  mk_rcg (rg_namespace g) (rg_clientConfigGetter g) (rg_restConfig g) (rg_usePersistentConfig g) (rg_discoveryBurst g)
    (rg_discoveryQPS g) (Some o) (rg_overrides g) (rg_clientConfig g) (rg_restMapper g) (rg_discoveryClient g).
Definition WithOverrides (overrides : string) : KubeClientOption := fun g =>
  mk_rcg (rg_namespace g) (rg_clientConfigGetter g) (rg_restConfig g) (rg_usePersistentConfig g) (rg_discoveryBurst g)
    (rg_discoveryQPS g) (rg_runtimeOpts g) (Some overrides) (rg_clientConfig g) (rg_restMapper g) (rg_discoveryClient g).
Definition WithPersistentConfig : KubeClientOption := fun g =>
  mk_rcg (rg_namespace g) (rg_clientConfigGetter g) (rg_restConfig g) true (rg_discoveryBurst g)
    (rg_discoveryQPS g) (rg_runtimeOpts g) (rg_overrides g) (rg_clientConfig g) (rg_restMapper g) (rg_discoveryClient g).
Definition apply_options (opts : list KubeClientOption) (g : RestClientGetter) : RestClientGetter :=
  fold_left (fun g opt => opt g) opts g.
Definition default_namespace (namespace : string) : string :=
  if bool_decide (namespace = "") then "default" else namespace.
Definition new_getter (namespace : string) (config : option string) (cfg : option RestCfg) : RestClientGetter :=
  mk_rcg namespace config cfg false 300 float32_zero None None None None None.
Definition NewRestClientGetterFromRestConfig (cfg : RestCfg) (namespace : string) (opts : list KubeClientOption) : RestClientGetter :=
  apply_options opts (new_getter (default_namespace namespace) None (Some cfg)).
Definition NewRestClientGetterFromBytes (config namespace : string) (opts : list KubeClientOption) : RestClientGetter :=
  apply_options opts (new_getter (default_namespace namespace) (Some config) None).

Inductive restE : Type -> Type :=
| RGetConfig : restE (result RestCfg)                                  (* ctrl.GetConfig *)
| RNewClientConfig (config : option string) (o : config_overrides) : restE ClientConfigLoader
| RClientConfig (loader : ClientConfigLoader) : restE (result RestCfg)
| RNewDiscovery (cfg : RestCfg) : restE (result DiscoveryClient)
| RNewMapper (dc : DiscoveryClient) : restE RESTMapper.
Local Abbreviation P := (prog restE).
(** An empty namespace stays empty. *)
Definition NewRestClientGetterForInCluster (namespace : string) (opts : list KubeClientOption) : P (result RestClientGetter) :=
  cfg ← trigger RGetConfig;
  mret (cfg ← cfg; Ok (apply_options opts (new_getter namespace None (Some cfg)))).

(** ** Operations: the answer and the getter after it *)
Definition toRawKubeConfigLoader (g : RestClientGetter) : P ClientConfigLoader :=
  match rg_clientConfigGetter g with
  | None => trigger (RNewClientConfig None (CentralOverrides (rg_namespace g)))
  | Some config =>
      trigger (RNewClientConfig (Some config)
        (match rg_overrides g with Some o => GivenOverrides o | None => NamespaceOverrides (rg_namespace g) end))
  end.
Definition toPersistentRawKubeConfigLoader (g : RestClientGetter) : P (ClientConfigLoader * RestClientGetter) :=
  match rg_clientConfig g with
  | Some cc => mret (cc, g)
  | None => cc ← toRawKubeConfigLoader g; mret (cc, set_caches (Some cc) (rg_restMapper g) (rg_discoveryClient g) g)
  end.
Definition ToRawKubeConfigLoader (g : RestClientGetter) : P (ClientConfigLoader * RestClientGetter) :=
  if rg_usePersistentConfig g then toPersistentRawKubeConfigLoader g
  else cc ← toRawKubeConfigLoader g; mret (cc, g).
Definition with_runtime (o : option RuntimeOptions) (cfg : RestCfg) : RestCfg :=
  match o with Some o => mk_restcfg (cfg_host cfg) (ro_QPS o) (ro_Burst o) | None => cfg end.
(** The configuration that is handed out, and whether it is the shared one of the getter *)
Record config_ref := mk_ref { ref_shared : bool; ref_cfg : RestCfg }.
Definition ToRESTConfig (g : RestClientGetter) : P (result config_ref * RestClientGetter) :=
  match rg_restConfig g with
  | Some cfg =>
      let cfg := with_runtime (rg_runtimeOpts g) cfg in
      mret (Ok (mk_ref true cfg), set_restConfig cfg g)
  | None =>
      '(loader, g) ← ToRawKubeConfigLoader g;
      r ← trigger (RClientConfig loader);
      mret (match r with
            | Err e => Err (wrap_error "RestClientGetter has no valid KubeConfig: " e)
            | Ok cfg => Ok (mk_ref false (with_runtime (rg_runtimeOpts g) cfg))
            end, g)
  end.
(** The limits of discovery are written to the configuration handed out. *)
Definition toDiscoveryClient (g : RestClientGetter) : P (result DiscoveryClient * RestClientGetter) :=
  '(r, g) ← ToRESTConfig g;
  match r with
  | Err e => mret (Err e, g)
  | Ok ref =>
      let cfg := mk_restcfg (cfg_host (ref_cfg ref)) (rg_discoveryQPS g) (rg_discoveryBurst g) in
      dc ← trigger (RNewDiscovery cfg);
      mret (dc, if ref_shared ref then set_restConfig cfg g else g)
  end.
Definition toPersistentDiscoveryClient (g : RestClientGetter) : P (result DiscoveryClient * RestClientGetter) :=
  match rg_discoveryClient g with
  | Some dc => mret (Ok dc, g)
  | None =>
      '(r, g) ← toDiscoveryClient g;
      mret match r with
           | Ok dc => (Ok dc, set_caches (rg_clientConfig g) (rg_restMapper g) (Some dc) g)
           | Err e => (Err e, g)
           end
  end.
Definition ToDiscoveryClient (g : RestClientGetter) : P (result DiscoveryClient * RestClientGetter) :=
  if rg_usePersistentConfig g then toPersistentDiscoveryClient g else toDiscoveryClient g.
Definition toRESTMapper (g : RestClientGetter) : P (result RESTMapper * RestClientGetter) :=
  '(r, g) ← ToDiscoveryClient g;
  match r with
  | Err e => mret (Err e, g)
  | Ok dc => m ← trigger (RNewMapper dc); mret (Ok m, g)
  end.
Definition toPersistentRESTMapper (g : RestClientGetter) : P (result RESTMapper * RestClientGetter) :=
  match rg_restMapper g with
  | Some m => mret (Ok m, g)
  | None =>
      '(r, g) ← toRESTMapper g;
      mret match r with
           | Ok m => (Ok m, set_caches (rg_clientConfig g) (Some m) (rg_discoveryClient g) g)
           | Err e => (Err e, g)
           end
  end.
Definition ToRESTMapper (g : RestClientGetter) : P (result RESTMapper * RestClientGetter) :=
  if rg_usePersistentConfig g then toPersistentRESTMapper g else toRESTMapper g.

(** ** Sequences of operations *)
Inductive rg_op := OpConfig | OpLoader | OpDiscovery | OpMapper.
Inductive rg_answer :=
| AConfig (r : result config_ref)
| ALoader (cc : ClientConfigLoader)
| ADiscovery (r : result DiscoveryClient)
| AMapper (r : result RESTMapper).
Definition run_op (op : rg_op) (g : RestClientGetter) : P (rg_answer * RestClientGetter) :=
  match op with
  | OpConfig => '(r, g) ← ToRESTConfig g; mret (AConfig r, g)
  | OpLoader => '(r, g) ← ToRawKubeConfigLoader g; mret (ALoader r, g)
  | OpDiscovery => '(r, g) ← ToDiscoveryClient g; mret (ADiscovery r, g)
  | OpMapper => '(r, g) ← ToRESTMapper g; mret (AMapper r, g)
  end.
Fixpoint run_ops (ops : list rg_op) (g : RestClientGetter) : P (list rg_answer * RestClientGetter) :=
  match ops with
  | [] => mret ([], g)
  | op :: ops =>
      '(a, g) ← run_op op g;
      '(answers, g) ← run_ops ops g;
      mret (a :: answers, g)
  end.

(** *** What was made *)
Local Abbreviation trace := (list (call restE)).
Local Abbreviation wpt := (wp (traced any_answer)).
Definition made_loader (c : call restE) : option ClientConfigLoader :=
  match c with
  | Call e x => match e in restE X return X -> option ClientConfigLoader with
                | RNewClientConfig _ _ => fun cc => Some cc
                | _ => fun _ => None
                end x
  end.
Definition made_discovery (c : call restE) : option DiscoveryClient :=
  match c with
  | Call e x => match e in restE X return X -> option DiscoveryClient with
                | RNewDiscovery _ => fun r => match r with Ok dc => Some dc | Err _ => None end
                | _ => fun _ => None
                end x
  end.
Definition made_mapper (c : call restE) : option (DiscoveryClient * RESTMapper) :=
  match c with
  | Call e x => match e in restE X return X -> option (DiscoveryClient * RESTMapper) with
                | RNewMapper dc => fun m => Some (dc, m)
                | _ => fun _ => None
                end x
  end.
(** Everything that was made is kept. *)
Record kept (h : trace) (g : RestClientGetter) : Prop := mk_kept {
  kept_persistent : rg_usePersistentConfig g = true;
  kept_loader : omap made_loader h = option_list (rg_clientConfig g);
  kept_discovery : omap made_discovery h = option_list (rg_discoveryClient g);
  kept_mapper : (omap made_mapper h).*2 = option_list (rg_restMapper g);
  kept_source : (omap made_mapper h).*1 ⊆ option_list (rg_discoveryClient g)
}.
(** What one getter keeps the other keeps. *)
Definition keeps (g g' : RestClientGetter) : Prop :=
  (forall x, rg_clientConfig g = Some x -> rg_clientConfig g' = Some x) /\
  (forall x, rg_discoveryClient g = Some x -> rg_discoveryClient g' = Some x) /\
  (forall x, rg_restMapper g = Some x -> rg_restMapper g' = Some x).
Definition answer_kept (g : RestClientGetter) (a : rg_answer) : Prop :=
  match a with
  | AConfig _ => True
  | ALoader cc => rg_clientConfig g = Some cc
  | ADiscovery r => forall dc, r = Ok dc -> rg_discoveryClient g = Some dc
  | AMapper r => forall m, r = Ok m -> rg_restMapper g = Some m
  end.

Lemma keeps_refl g : keeps g g.
Proof. done. Qed.
Lemma keeps_trans g1 g2 g3 : keeps g1 g2 -> keeps g2 g3 -> keeps g1 g3.
Proof. intros (A1 & A2 & A3) (B1 & B2 & B3). repeat split; auto. Qed.
Lemma kept_snoc h g c :
  kept h g -> made_loader c = None -> made_discovery c = None -> made_mapper c = None -> kept (h ++ [c]) g.
Proof.
  intros [Kp Kl Kd Km Ks] H1 H2 H3. split; rewrite ?omap_app; csimpl; rewrite ?H1, ?H2, ?H3, ?app_nil_r; done.
Qed.
Lemma kept_restConfig h cfg g : kept h g -> kept h (set_restConfig cfg g).
Proof. intros []. by split. Qed.

Definition same_clients (g g' : RestClientGetter) : Prop :=
  rg_discoveryClient g' = rg_discoveryClient g /\ rg_restMapper g' = rg_restMapper g.
Lemma loader_ok h g : kept h g ->
  wpt (ToRawKubeConfigLoader g) (fun h' '(cc, g') => kept h' g' /\ keeps g g' /\ same_clients g g' /\ rg_clientConfig g' = Some cc) h.
Proof.
  intros HK. pose proof HK as [Kp Kl Kd Km Ks]. unfold ToRawKubeConfigLoader, toPersistentRawKubeConfigLoader. rewrite Kp.
  destruct (rg_clientConfig g) as [cc|] eqn:Hc; [by apply wp_ret|].
  assert (forall config o, wpt (cc ← trigger (RNewClientConfig config o);
             mret (cc, set_caches (Some cc) (rg_restMapper g) (rg_discoveryClient g) g))
           (fun h' '(cc, g') => kept h' g' /\ keeps g g' /\ same_clients g g' /\ rg_clientConfig g' = Some cc) h) as Hnew.
  { intros config o. apply wp_bind, wp_trigger. intros cc h1 [_ ->]. apply wp_ret. split; [|split; [|done]].
    - split; rewrite ?omap_app; csimpl; rewrite ?app_nil_r, ?Kl; done.
    - unfold keeps. rewrite Hc. by split. }
  unfold toRawKubeConfigLoader. destruct (rg_clientConfigGetter g); apply Hnew.
Qed.
Lemma config_ok h g : kept h g ->
  wpt (ToRESTConfig g) (fun h' '(_, g') => kept h' g' /\ keeps g g' /\ same_clients g g') h.
Proof.
  intros HK. unfold ToRESTConfig. destruct (rg_restConfig g) as [cfg|].
  - apply wp_ret. split; [by apply kept_restConfig|done].
  - apply wp_bind. eapply wp_mono; [|by apply loader_ok]. intros h1 [cc g1] (H1 & H2 & H3 & _).
    apply wp_bind, wp_trigger. intros r h2 [_ ->]. apply wp_ret. split; [by apply kept_snoc|done].
Qed.
Lemma discovery_ok h g : kept h g ->
  wpt (ToDiscoveryClient g) (fun h' '(r, g') => kept h' g' /\ keeps g g' /\ rg_restMapper g' = rg_restMapper g /\
    forall dc, r = Ok dc -> rg_discoveryClient g' = Some dc) h.
Proof.
  intros HK. unfold ToDiscoveryClient, toPersistentDiscoveryClient. rewrite (kept_persistent _ _ HK).
  destruct (rg_discoveryClient g) as [dc|] eqn:Hd.
  { apply wp_ret. split; [done|]. split; [done|]. split; [done|]. by intros dc' [= ->]. }
  apply wp_bind. unfold toDiscoveryClient. apply wp_bind. eapply wp_mono; [|by apply config_ok].
  intros h1 [r g1] (H1 & H2 & H3 & H4). destruct r as [ref|e]; [|apply wp_ret, wp_ret; done].
  apply wp_bind, wp_trigger. intros dc h2 [_ ->]. apply wp_ret. rewrite Hd in H3.
  set (g2 := if ref_shared ref then _ else _).
  assert (kept h1 g2 /\ keeps g g2 /\ rg_restMapper g2 = rg_restMapper g /\ rg_discoveryClient g2 = None) as (H5 & H6 & H7 & H8).
  { subst g2. destruct (ref_shared ref); [|done]. split; [by apply kept_restConfig|done]. }
  clearbody g2. destruct dc as [dc|e]; apply wp_ret; [|split; [by apply kept_snoc|done]].
  destruct H5 as [Kp Kl Kd Km Ks]. rewrite H8 in Kd, Ks. split; [|split; [|split; [done|by intros ? [= ->]]]].
  - split; rewrite ?omap_app; csimpl; rewrite ?app_nil_r, ?Kd; try done. set_solver.
  - destruct H6 as (A1 & A2 & A3). split; [exact A1|]. split; [|exact A3]. by rewrite Hd.
Qed.
Lemma mapper_ok h g : kept h g ->
  wpt (ToRESTMapper g) (fun h' '(r, g') => kept h' g' /\ keeps g g' /\
    forall m, r = Ok m -> rg_restMapper g' = Some m) h.
Proof.
  intros HK. unfold ToRESTMapper, toPersistentRESTMapper. rewrite (kept_persistent _ _ HK).
  destruct (rg_restMapper g) as [m|] eqn:Hm.
  { apply wp_ret. split; [done|]. split; [done|]. by intros m' [= ->]. }
  apply wp_bind. unfold toRESTMapper. apply wp_bind. eapply wp_mono; [|by apply discovery_ok].
  intros h1 [r g1] (H1 & H2 & H3 & H4). destruct r as [dc|e]; [|apply wp_ret, wp_ret; done].
  apply wp_bind, wp_trigger. intros m h2 [_ ->]. apply wp_ret, wp_ret. specialize (H4 dc eq_refl). rewrite Hm in H3.
  destruct H1 as [Kp Kl Kd Km Ks]. split; [|split; [|by intros ? [= ->]]].
  - split; rewrite ?omap_app; csimpl; rewrite ?app_nil_r, ?fmap_app, ?Km, ?H3; try done. rewrite H4 in *. csimpl. set_solver.
  - destruct H2 as (A1 & A2 & A3). split; [exact A1|]. split; [exact A2|]. by rewrite Hm.
Qed.
Lemma answer_keeps g g' a : keeps g g' -> answer_kept g a -> answer_kept g' a.
Proof. intros (A1 & A2 & A3). destruct a; simpl; auto. Qed.
Lemma run_op_ok op h g : kept h g ->
  wpt (run_op op g) (fun h' '(a, g') => kept h' g' /\ keeps g g' /\ answer_kept g' a) h.
Proof.
  intros HK. destruct op; apply wp_bind.
  - eapply wp_mono; [|by apply config_ok]. intros h' [r g'] (H1 & H2 & _). by apply wp_ret.
  - eapply wp_mono; [|by apply loader_ok]. intros h' [r g'] (H1 & H2 & _ & H3). by apply wp_ret.
  - eapply wp_mono; [|by apply discovery_ok]. intros h' [r g'] (H1 & H2 & _ & H3). by apply wp_ret.
  - eapply wp_mono; [|by apply mapper_ok]. intros h' [r g'] (H1 & H2 & H3). by apply wp_ret.
Qed.

(** C40: what a persistent getter answers over any sequence of operations, in which every
    operation may be another goroutine's and every construction may fail.  At most one loader,
    one discovery client and one REST mapper are ever made, the mapper over that discovery
    client; they are the ones the getter keeps, and every answer is the one that is kept.  A
    construction that fails is tried again by the next operation. *)
Theorem persistent_getter_keeps ops g :
  rg_usePersistentConfig g = true -> rg_clientConfig g = None -> rg_discoveryClient g = None -> rg_restMapper g = None ->
  wpt (run_ops ops g) (fun h '(answers, g') => kept h g' /\ Forall (answer_kept g') answers) [].
Proof.
  intros Hp H1 H2 H3. assert (kept [] g) as HK by (split; rewrite ?H1, ?H2, ?H3; done).
  enough (forall h g, kept h g ->
    wpt (run_ops ops g) (fun h' '(answers, g') => kept h' g' /\ keeps g g' /\ Forall (answer_kept g') answers) h) as H.
  { eapply wp_mono; [|by apply H]. intros h' [answers g'] (A1 & _ & A2). done. }
  clear -ops. induction ops as [|op ops IH]; intros h g HK; [apply wp_ret; by split|].
  apply wp_bind. eapply wp_mono; [|by apply run_op_ok]. intros h1 [a g1] (A1 & A2 & A3).
  apply wp_bind. eapply wp_mono; [|by apply IH]. intros h2 [answers g2] (B1 & B2 & B3). apply wp_ret.
  split; [done|]. split; [by eapply keeps_trans|]. constructor; [by eapply answer_keeps|done].
Qed.

(** The configuration a getter was made from is changed by its discovery client: without runtime
    options it is handed out with discovery's limits from then on. *)
Lemma discovery_limits_shared cfg g dc :
  rg_restConfig g = Some cfg -> rg_runtimeOpts g = None ->
  exec (traced any_answer) (toDiscoveryClient g) [] (Ok dc,
    set_restConfig (mk_restcfg (cfg_host cfg) (rg_discoveryQPS g) (rg_discoveryBurst g)) (set_restConfig cfg g))
    [Call (RNewDiscovery (mk_restcfg (cfg_host cfg) (rg_discoveryQPS g) (rg_discoveryBurst g))) (Ok dc)].
Proof.
  intros Hc Hr. unfold toDiscoveryClient, ToRESTConfig. rewrite Hc, Hr. cbn.
  exists (Ok dc), [Call (RNewDiscovery (mk_restcfg (cfg_host cfg) (rg_discoveryQPS g) (rg_discoveryBurst g))) (Ok dc)]. done.
Qed.
(** The flags for the limits have no effect: whatever is given, a configuration made with
    the runtime options of the manager has a QPS and a burst of zero, client-go's marks for
    its own defaults. *)
Lemma flags_without_effect qps burst g :
  rg_runtimeOpts g = Some (kubeClientOpts qps burst) ->
  wp (traced any_answer) (ToRESTConfig g) (fun _ '(r, _) =>
    match r with
    | Ok ref => cfg_QPS (ref_cfg ref) = float32_zero /\ cfg_Burst (ref_cfg ref) = 0%Z
    | Err _ => True
    end) [].
Proof.
  intros Hr. unfold ToRESTConfig. destruct (rg_restConfig g) as [cfg|]; [wp_step; by rewrite Hr|].
  wp_step. eapply (wp_mono _ _ (fun _ '(_, g') => rg_runtimeOpts g' = Some (kubeClientOpts qps burst))).
  - intros h [loader g'] Hg'. do 2 wp_step. destruct x as [cfg|e]; wp_step; [|done]. cbn. by rewrite Hg'.
  - unfold ToRawKubeConfigLoader, toPersistentRawKubeConfigLoader, toRawKubeConfigLoader. by wp_steps.
Qed.
End getter.

(** ** A run *)
Module GetterRun.
#[local] Instance libs : RestLibs := {|
  float32 := nat; float32_zero := 0; float32_fifty := 50;
  DiscoveryClient := nat; RESTMapper := nat; ClientConfigLoader := nat |}.
Definition g : RestClientGetter := NewRestClientGetterFromBytes "kubeconfig" "" [WithRuntimeOptions (kubeClientOpts None (Some 200%Z)); WithPersistentConfig].
Lemma persistent_getter_keeps_witness :
  wp (traced any_answer) (run_ops [OpMapper; OpDiscovery; OpMapper; OpConfig] g)
    (fun h '(answers, g') => kept h g' /\ Forall (answer_kept g') answers) [].
Proof. by apply (persistent_getter_keeps [OpMapper; OpDiscovery; OpMapper; OpConfig] g). Defined.
Lemma flags_without_effect_run : kubeClientOpts (Some 20) (Some 200%Z) = mk_runtime 0 0 /\
  (BindFlags None (Some 200%Z) (mk_runtime 0 0)).2 = mk_runtime 50 200.
Proof. by vm_compute. Qed.
(** Two mappers asked for, the first construction failing: one client, one mapper *)
Definition handler X (e : restE X) (n : nat) : X * nat :=
  (match e in restE X return X with
   | RGetConfig => Err (new_error "unused")
   | RNewClientConfig _ _ => n
   | RClientConfig _ => Ok (mk_restcfg "host" 0 0)
   | RNewDiscovery _ => if bool_decide (n = 2) then Err (new_error "refused") else Ok n
   | RNewMapper dc => 10 * dc
   end, S n).
Lemma mapper_after_failure :
  (run_result handler (run_ops [OpMapper; OpMapper; OpMapper; OpDiscovery] g) 0).1
  = [AMapper (Err (new_error "refused")); AMapper (Ok 40); AMapper (Ok 40); ADiscovery (Ok 4)] /\
  length (run_calls handler (run_ops [OpMapper; OpMapper; OpMapper; OpDiscovery] g) 0) = 6.
Proof. vm_compute. split; reflexivity. Qed.
End GetterRun.
