(* ===== verification/Watches.v ===== *)
(** * Watches: which changes of one component's objects wake another component
      ([internal/clientutil/predicates.go] and the watches of [pluginpreset_controller.go],
      [team_controller.go], [bootstrap_controller.go] and [plugindefinition_controller.go])

    The predicates that are not in [ClientUtil], and the filters the controllers put together of
    them.  controller-runtime's [Or], [And] and its predicate on the generation are parameters,
    with what they answer for an update as laws. *)
From S2P Require Import Prelude Conditions Meta ApiTypes PluginTypes ClientUtil KubeConfig ClusterBootstrap Organization OrgController AccessWebhook.

Definition PredicateFilterBySecretTypes (secretTypes : list string) : predicate Secret :=
  NewPredicateFuncs (fun o => match o with
    | Some secret => slices_contains secretTypes (secret_Type secret)
    | None => false
    end).
(** The function for deletions is not set. *)
Definition PredicatePluginWithStatusReadyChange : predicate Plugin :=
  mk_predicate (fun _ => false)
    (fun old new =>
       match old, new with
       | Some oldPlugin, Some newPlugin =>
           match GetConditionByType (plugin_conditions (plugin_Status oldPlugin)) ReadyCondition,
                 GetConditionByType (plugin_conditions (plugin_Status newPlugin)) ReadyCondition with
           | None, None => false
           | Some oldCondition, Some newCondition => negb (bool_decide (CondStatus oldCondition = CondStatus newCondition))
           | _, _ => true
           end
       | _, _ => false
       end)
    (fun _ => true) (fun _ => false).
Definition scim_flipped (old new : option Condition) : bool :=
  match new with
  | None => false
  | Some n => (match old with None => true | Some o => IsFalse o end) && IsTrue n
  end.
Definition PredicateOrganizationSCIMStatusChange : predicate Organization :=
  mk_predicate (fun _ => false)
    (fun old new =>
       match old, new with
       | Some oldOrg, Some newOrg =>
           scim_flipped (GetConditionByType (org_conditions oldOrg) SCIMAPIAvailableCondition)
                        (GetConditionByType (org_conditions newOrg) SCIMAPIAvailableCondition)
       | _, _ => false
       end)
    (fun _ => false) (fun _ => false).
(** Only updates are filtered; a nil object would be dereferenced. *)
Definition PredicateIgnoreDeletingResources {O} `{Object O} : predicate O :=
  mk_predicate (fun _ => true)
    (fun _ new => match new with Some o => bool_decide (GetDeletionTimestamp o = None) | None => false end)
    (fun _ => true) (fun _ => true).

Class WatchLibs := {
  POr : forall {O}, predicate O -> predicate O -> predicate O;
  PAnd : forall {O}, predicate O -> predicate O -> predicate O;
  GenerationChangedPredicate : forall {O} {H : Object O}, predicate O
}.
Class WatchLaws `{WatchLibs} := {
  POr_update {O} (p q : predicate O) old new : on_update (POr p q) old new = on_update p old new || on_update q old new;
  POr_create {O} (p q : predicate O) o : on_create (POr p q) o = on_create p o || on_create q o;
  POr_delete {O} (p q : predicate O) o : on_delete (POr p q) o = on_delete p o || on_delete q o;
  PAnd_update {O} (p q : predicate O) old new : on_update (PAnd p q) old new = on_update p old new && on_update q old new;
  PAnd_create {O} (p q : predicate O) o : on_create (PAnd p q) o = on_create p o && on_create q o;
  PAnd_delete {O} (p q : predicate O) o : on_delete (PAnd p q) o = on_delete p o && on_delete q o;
  generation_update {O} `{Object O} (old new : O) :
    on_update GenerationChangedPredicate (Some old) (Some new) = negb (bool_decide (om_generation (get_meta old) = om_generation (get_meta new)));
  generation_create {O} `{Object O} (o : option O) : on_create GenerationChangedPredicate o = true;
  generation_delete {O} `{Object O} (o : option O) : on_delete GenerationChangedPredicate o = true
}.

Section watches.
Context {Libs : WatchLibs}.
(** The Plugins a PluginPreset owns *)
Definition preset_owned_plugins : predicate Plugin :=
  PAnd (POr GenerationChangedPredicate PredicatePluginWithStatusReadyChange) PredicateIgnoreDeletingResources.
(** The Organization of a Team *)
Definition team_organization : predicate Organization :=
  POr GenerationChangedPredicate PredicateOrganizationSCIMStatusChange.

Context {Laws : WatchLaws}.
Definition ready_status (p : Plugin) : option string :=
  CondStatus <$> GetConditionByType (plugin_conditions (plugin_Status p)) ReadyCondition.
(** A PluginPreset hears of a Plugin of its own when it appears or is gone, and when its
    specification or the status of its Ready condition changes unless it is being deleted. *)
Lemma preset_owned_plugins_spec :
  (forall old new, on_update preset_owned_plugins (Some old) (Some new) = true <->
     (om_generation (get_meta old) <> om_generation (get_meta new) \/ ready_status old <> ready_status new) /\
     GetDeletionTimestamp new = None) /\
  (forall o, on_create preset_owned_plugins o = true) /\ (forall o, on_delete preset_owned_plugins o = true).
Proof.
  unfold preset_owned_plugins. split; [|split].
  - intros old new. rewrite PAnd_update, POr_update, generation_update. cbn [on_update PredicatePluginWithStatusReadyChange PredicateIgnoreDeletingResources].
    rewrite andb_true_iff, orb_true_iff, negb_true_iff, bool_decide_eq_false, bool_decide_eq_true. unfold ready_status.
    destruct (GetConditionByType (plugin_conditions (plugin_Status old)) ReadyCondition) as [o|],
      (GetConditionByType (plugin_conditions (plugin_Status new)) ReadyCondition) as [n|]; cbn;
      rewrite ?negb_true_iff, ?bool_decide_eq_false; naive_solver congruence.
  - intros o. rewrite PAnd_create, POr_create, generation_create. done.
  - intros o. rewrite PAnd_delete, POr_delete, generation_delete. done.
Qed.
(** Teams are not woken when the SCIM API turns from unknown to available: the condition is
    unknown for an Organization that had no SCIM configuration before. *)
Lemma scim_unknown_to_true_missed old new o n :
  om_generation (get_meta old) = om_generation (get_meta new) ->
  GetConditionByType (org_conditions old) SCIMAPIAvailableCondition = Some o -> IsUnknown o = true ->
  GetConditionByType (org_conditions new) SCIMAPIAvailableCondition = Some n ->
  on_update team_organization (Some old) (Some new) = false.
Proof.
  intros Hg Ho Hu Hn. unfold team_organization. rewrite POr_update, generation_update, Hg.
  rewrite bool_decide_eq_true_2 by done. cbn. rewrite Ho, Hn. cbn.
  unfold IsFalse, IsUnknown in *. apply bool_decide_eq_true in Hu. by rewrite Hu.
Qed.
(** The predicates of the two controllers that watch Secrets *)
Lemma secret_predicates :
  (forall o, on_create secret_predicate o = on_create (PredicateFilterBySecretTypes [SecretTypeKubeConfig; SecretTypeOIDCConfig]) o) /\
  (forall o, on_create org_secret_predicate o = on_create (PredicateFilterBySecretTypes [SecretTypeOrganization]) o).
Proof.
  split; [done|]. intros [s|]; [|done]. cbn. unfold slices_contains. apply bool_decide_ext. set_solver.
Qed.
End watches.
